(* ===== verification/_CoqProject ===== *)
-Q . S2P
Prelude.v
PyStr.v
PyDecimal.v
DecimalFacts.v
DecimalText.v
PyFloat.v
PyFloatFacts.v
Sha256.v
Json.v
JsonFacts.v
JsonPrefix.v
PyRepr.v
PyTime.v
MotorModels.v
Attest.v
Limits.v
MotorConfig.v
Halt.v
Toxicity.v
Sor.v
Motor.v
ProtoAdapter.v
Compliance.v
Service.v
AegisReporter.v
AlpacaParse.v
Alpaca.v
KillWatch.v
ServerConfig.v
MockBroker.v
App.v
AuditCanonical.v
AuditChain.v
AuditAnchor.v
SharpModels.v
SharpGate.v
SharpFacts.v
SharpAudit.v
Hitl.v
HitlFacts.v
HitlAudit.v
HitlServer.v
Refdata.v
ManifestCanonical.v
Manifest.v
ManifestFacts.v
ManifestStore.v
ManifestChain.v
ManifestRace.v
ManifestMotor.v
CogModels.v
CogText.v
CogSizing.v
CogConfig.v
CogSignal.v
CogDebate.v
CogContext.v
CogSinks.v
CogRunner.v
BtData.v
BtPortfolio.v
BtMetrics.v
BtEngine.v
BtCausal.v
BtWfa.v
RdModel.v
RdConfig.v
RdStore.v
RdClient.v
RdService.v
