(* ===== verification/Prelude.v ===== *)
(** * Agentic fintech ecosystem: a verification development

    The repository is a trading system in three zones. Zone A proposes trades (language models,
    a regime detector), zone B decides and executes them (Aegis and the sensory array in Rust, the
    execution motor and the reference-data bridge in Python), zone C keeps the evidence and the
    human and promotion gates (audit log, compliance manifests, SHARP, the HITL backend). This
    development models the Python parts that stand between a proposal and money: a shallow
    embedding in which every function of the source is a Rocq function of the same name, a class
    with state is a Record and its methods are computations that pass it on, and an exception is
    the [Raise] branch of [result]. Paths below are relative to [src/agent-core].

    ** How the parts meet

    A snapshot of the market ([CogContext]) starts a debate of language models ([CogDebate], with the
    prompts and replies of [CogText]); its verdict becomes a signal ([CogSignal]), sized by [CogSizing],
    which [CogSinks] submits to Aegis; an approved decision is relayed to the motor. [CogRunner] is the
    process around it: a queue of snapshots, a loop, a halt gate before and after each debate.
    A request reaches [zone-b/execution-motor] with Aegis's decision, the signed attestation and an
    unsigned context. [Service] binds the three, asks the compliance gates ([Compliance]: SHARP
    and the manifest) and calls [Motor.execute], which passes the order through the kill switch
    ([Halt], moved by [KillWatch]), the idempotency store and the caps ([Limits]), the attestation
    gate ([Attest]) and the router ([Sor], [Toxicity]) to a broker ([Alpaca], [MockBroker]); the
    report goes back to Aegis ([AegisReporter]). [App] wires all of it from the environment. The
    manifest gate builds and stores a manifest of the order ([ManifestMotor], [Manifest],
    [ManifestStore]). The manifest store, the SHARP gate ([SharpGate]) and the HITL backend ([Hitl])
    write to the hash-chained audit log ([AuditChain]), whose head is published by [AuditAnchor].
    The reference-data bridge ([Refdata]) feeds Aegis from Redis; the regimes it carries come from the
    regime detector ([RdService]), which asks QuestDB for bars ([RdClient]), classifies them with a
    hidden Markov model ([RdModel]) that it keeps signed on disk ([RdStore]). Offline, [backtesting] replays bars
    through a point-in-time feed ([BtData]) and an engine ([BtEngine]) with its accounts ([BtPortfolio])
    and metrics ([BtMetrics]); walk-forward analysis ([BtWfa]) fits and evaluates strategies with it.

    ** Files

    - The language. [Prelude]: exceptions, [result], the state monad [M], tactics, hints. [PyStr],
      [PyDecimal], [PyFloat], [PyRepr], [PyTime], [Json], [Sha256]: what the code uses of [str],
      [decimal], [float], [repr], [datetime], [json] and [hashlib], executable. [DecimalFacts],
      [DecimalText], [JsonFacts], [JsonPrefix]: order and rounding of decimals, decimals as text,
      parsing inverts printing and does not mind what follows.
      [PyFloatFacts]: rounding and range of floats.
    - [zone-a/cognitive-core]. [CogModels]: models.py. [CogText]: prompts.py, parsing.py,
      llm_clients.py. [CogSizing]: sizing.py. [CogConfig]: config.py, runner_config.py, halt.py.
      [CogSignal]: signals.py. [CogDebate]: graph.py, reflector.py. [CogContext]: context.py,
      memory.py. [CogSinks]: proto_mapping.py, sinks.py. [CogRunner]: service.py, health.py, __main__.py.
    - [zone-a/regime-detector/regime_detector]. [RdModel]: labels.py, features.py, model.py. [RdConfig]:
      config.py, healthcheck.py. [RdStore]: model_store.py. [RdClient]: questdb_client.py, publisher.py.
      [RdService]: service.py.
    - [zone-b/execution-motor/execution_motor]. [MotorModels]: models.py, broker.py. [Attest]:
      canonical.py, attestation.py, verifiers.py, keys.py. [Limits]: limits.py. [MotorConfig]:
      config.py. [Halt]: halt.py. [Toxicity], [Sor]: toxicity.py, sor.py. [Motor]: motor.py,
      quotes.py. [ProtoAdapter]: proto_adapter.py. [Compliance]: compliance.py. [Service]:
      service.py, grpc_service.py. [AegisReporter]: aegis_reporter.py. [AlpacaParse], [Alpaca]:
      alpaca_parse.py, alpaca.py. [KillWatch]: kill_watch.py. [ServerConfig]: server_config.py,
      aegis_channel.py. [MockBroker]: mock_broker.py. [App]: __main__.py.
    - [zone-c/audit-logger/afe_audit]. [AuditCanonical]: canonical.py. [AuditChain]: models.py,
      logger.py, verifier.py. [AuditAnchor]: anchor.py.
    - [zone-c/sharp-gate/afe_sharp]. [SharpModels]: models.py. [SharpGate]: gate.py, ports.py,
      memory_store.py. [SharpFacts]: its invariant. [SharpAudit]: pg_audit.py, and the gate over
      the audit log.
    - [zone-c/hitl-backend/hitl_backend]. [Hitl]: holds.py, service.py. [HitlFacts]: its invariant.
      [HitlAudit]: the service over the audit log. [HitlServer]: auth.py, config.py, __main__.py.
    - [zone-c/compliance-manifest/afe_manifest]. [ManifestCanonical]: canonical.py and the
      descriptors of shared/proto. [Manifest]: model.py, retention.py, builder.py, verify.py.
      [ManifestFacts]: what a built manifest promises. [ManifestStore]: store.py over audit.py.
      [ManifestChain]: what the store keeps. [ManifestRace]: two writers. [ManifestMotor]: the
      motor's AfeManifestWriter (compliance.py), down to the order that is sent.
    - [zone-b/refdata-bridge/refdata_bridge]. [Refdata]: mapping.py, batch.py, aegis_client.py,
      service.py, health.py.
    - [backtesting]. [BtData]: models.py, data.py, feed.py. [BtPortfolio]: portfolio.py. [BtMetrics]:
      metrics.py, regime_analysis.py. [BtEngine]: execution.py, engine.py, strategies.py. [BtCausal]:
      what a run can depend on. [BtWfa]: wfa.py.

    ** State and outside world

    A store, a ledger, a database table, a book of holds is the state of an [M] computation. What
    is outside - a broker, an HTTP client, the clock, a signature check, psycopg2, another thread
    - is an oracle: a function of the number of the call, or a script of replies, over which the
    theorems quantify; so failures are in the model wherever the code can meet them, with their
    effects (a write that fails half way, a commit that took effect but was not acknowledged). A
    part of the system that another one calls is a class with laws ([IdempotencyStore],
    [ProposalStore], [AuditLog], [AuditLookup]); the client is proved against the class, and the
    implementations are instances ([Limits], [SharpGate], [SharpAudit]). Threads are interleaved
    where the code can interleave: [KillWatch] is a step relation of two threads, [Motor] lets
    others act on the kill switch between its reads, [Refdata] lets messages arrive while a push
    waits, [ManifestStore] lets other processes create files before every system call. A method that holds its object's lock throughout is one step.

    ** What the theorems show

    - The debate: a signal that may trade comes from three models that all answered, strictly read,
      none forced or defaulted, with enough confidence, a positive expected value and a positive
      finite quantity; a degraded debate stays strictly below the threshold; whatever the models do,
      a debate ends in a well-formed signal and asks each model at most once within its bounds; no
      text closes the block of untrusted data it is put in; a snapshot that is accepted can be
      trusted; the halt gate fails closed. What the runner sends has passed all of it and an approved
      decision of Aegis; its queue keeps the freshest snapshots and its loop ends.
    - The motor: an order reaches a broker at most once, across restarts too, and only after every
      gate; what is sent is what was signed; the exposure is reserved and bounded; every call
      reports; a halted motor sends nothing; configuration fails closed; a production process has
      every gate wired; an ambiguous answer of the broker is never called a rejection.
    - The kill switch: trading is only open on Aegis's own live word, and every elevated level and
      every loss of the stream leads to a sweep of the open orders.
    - The audit log: it verifies at all times, an append fails closed, its head pins the whole
      history (or SHA-256 has a collision, which the theorem exhibits), anchors expose a rewrite.
    - SHARP: PROMOTED means six audited approvals by different people, whatever failed on the way,
      and the motor only runs a strategy so promoted.
    - HITL: a decision reaches Aegis only for an open hold, from an approver, after it was audited;
      a hold is decided once; a repeated request gets its first reply.
    - Manifests: an order that is sent has a manifest on disk and in the audit log, and was allowed
      to exist; a manifest that was built verifies and is kept long enough; the store stays a chain
      when a write fails, verification decides whether a directory is one, and its head pins all of
      it. Two processes writing at once can fork it ([ManifestRace]).
    - The bridge: no regime label is lost, and a snapshot is called fresh only when it is.
    - The regime detector: every known symbol gets one message per cycle, whatever fails; a regime is
      named only on fresh rows, enough finite features, a valid model and its own evidence over the
      floor; bad data is dropped, never repaired; labels follow the order of the means; a failed
      training keeps the model in service; a loaded model was signed for its symbol, a save is atomic;
      no symbol leaves its quotes in SQL.
    - Backtests: a run cannot see the future (markets that agree until a time give the same fills until
      then), fills are causal, the accounts reconcile exactly while the decimals have room, the drawdown
      duration is that of the longest stretch, the breakdown by regime loses no period; walk-forward
      windows never leak, the fit ignores everything after its training range, the splits end.

    A theorem with hypotheses is followed by an example that applies it to concrete data, evaluated
    by the kernel.

    ** Bounds and fuel

    [loads] parses with two units of fuel per character, enough for every text [dumps] prints
    ([JsonFacts.loads_dumps]); an integer of more than 4300 digits is refused, as Python refuses
    it. [digits] has a unit per bit; [replace_all] a unit per character; the shortest decimal of a
    float is looked for up to 17 digits, which always read back; a coefficient is stripped of at
    most as many zeros as it has digits. The loop over walk-forward windows has a unit per sample
    ([BtWfa.splits_are_the_windows_that_fit]). Decimals are computed with 28 digits, half even, as the
    default context does. Nanosecond fields are int64 where protobuf bounds them.

    ** Not modelled

    - The tables of [unicodedata]: NFKC and case folding are parameters; [lower], [isspace], [int]
      and [\d] are those of ASCII (and the Latin spaces).
    - RecursionError and MemoryError; the RecursionError of deeply nested JSON in particular.
    - psycopg2, grpc, httpx, redis, jwt and cryptography, and the code protobuf generates: oracles
      and parameters, with the behaviour the code relies on as hypotheses. The jsonb column gives
      back the document it was given, up to the order of keys.
    - Logging, metrics, argument parsing, sockets, TLS contexts, the HTTP routing of hitl-backend
      and of the health servers, the Redis subscriber loop, the sleep and heartbeat of the detector's loop, file permissions, the texts of [json]'s and
      protobuf's own errors.
    - [afe_audit/drift.py] (a KL divergence in numpy floats), [afe_audit/db.py], FileAnchorSink,
      [afe_sharp/pg_store.py] (its contract is the class ProposalStore) and
      [RubricChangeProposal.from_reflector].
    - LangGraph, the models behind Bedrock, pydantic's own JSON reader and writers; the sign of a
      float's zero.
    - numpy's mean, standard deviation, median, searches and sorts: parameters, with the documented laws
      of the last two ([BtData.NumpyLaws]); pandas, so the reading of bar files; the Monte Carlo bootstrap
      and the calibration of the pre-trade controls (numpy generators, scipy distributions, frames).
    - hmmlearn's fit and posteriors, numpy's archives, logarithm and Cholesky test, and
      [datetime.fromisoformat]: parameters of the regime detector. Its trainings end between two cycles:
      a cycle looks at a task only when it starts, and a task touches only the directory of the models.
    - vector-db: a third-party index.
    - aegis and sensory-array (Rust), infrastructure and the browser front end. *)
From Stdlib Require Export ZArith Lia Bool Ascii.
From stdpp Require Export base tactics numbers option strings gmap.
From stdpp Require Export list.
#[global] Open Scope Z_scope.
#[global] Set Default Goal Selector "!".

(** ** Python exceptions *)

(** A Python [str] is the sequence of its code points. *)
Abbreviation pystr := (list N).
(** Python [bytes]: every element is below 256. *)
Abbreviation pybytes := (list N).

(** A literal of the source, written as an ASCII string. *)
Definition u (s : String.string) : pystr :=
  N_of_ascii <$> String.list_ascii_of_string s.
Arguments u s%_string.
#[global] Arguments u : simpl never.

(** The exception classes that the modelled code raises, catches or names. *)
Inductive exn_class :=
  | ValueError | TypeError | KeyError | OSError | RuntimeErr
  | InvalidOperation | DivisionByZero | Overflow
  | ValidationError                         (** pydantic *)
  | ConfigError | LiveTradingRefused | OrderValidationError | IdempotencyStoreError
  | BrokerError | BrokerRejectedError | SubmitOutcomeUnknown | BrokerReadError
  | MalformedResponse | HTTPError
  | AuditValidationError | AuditWriteError | AnchorError
  | ProposalValidationError | UnknownProposalError | DuplicateProposalError
  | ProposalClosedError | StageSkipError | SelfApprovalError | DistinctApproverError
  | NotAuthorizedError | ConcurrencyError | StoreError | AuditFailureError
  | AbortNotRecordedError | MappingError
  | ManifestError | ManifestBuildError | ManifestStoreError
  | ManifestAuditError (seq : Z) (manifest_id : pystr)
  | ApiError (status : Z) (code : pystr)    (** hitl_backend *)
  | AuthError (status : Z) (code : pystr)
  | RpcError (code : pystr)                 (** grpc, with the name of its status code *)
  | OtherError (name : pystr).

#[export] Instance exn_class_eq_dec : EqDecision exn_class.
Proof. solve_decision. Defined.

Record exn := Exn { exn_kind : exn_class; exn_msg : pystr }.

#[export] Instance exn_eq_dec : EqDecision exn.
Proof. solve_decision. Defined.

(** [type(exc).__name__]. *)
Definition exn_name (c : exn_class) : pystr :=
  match c with
  | ValueError => u "ValueError" | TypeError => u "TypeError" | KeyError => u "KeyError"
  | OSError => u "OSError" | RuntimeErr => u "RuntimeError"
  | InvalidOperation => u "InvalidOperation" | DivisionByZero => u "DivisionByZero"
  | Overflow => u "Overflow" | ValidationError => u "ValidationError"
  | ConfigError => u "ConfigError" | LiveTradingRefused => u "LiveTradingRefused"
  | OrderValidationError => u "OrderValidationError"
  | IdempotencyStoreError => u "IdempotencyStoreError"
  | BrokerError => u "BrokerError" | BrokerRejectedError => u "BrokerRejectedError"
  | SubmitOutcomeUnknown => u "SubmitOutcomeUnknown" | BrokerReadError => u "BrokerReadError"
  | MalformedResponse => u "MalformedResponse" | HTTPError => u "HTTPError"
  | AuditValidationError => u "AuditValidationError" | AuditWriteError => u "AuditWriteError"
  | AnchorError => u "AnchorError" | ProposalValidationError => u "ProposalValidationError"
  | UnknownProposalError => u "UnknownProposalError"
  | DuplicateProposalError => u "DuplicateProposalError"
  | ProposalClosedError => u "ProposalClosedError" | StageSkipError => u "StageSkipError"
  | SelfApprovalError => u "SelfApprovalError"
  | DistinctApproverError => u "DistinctApproverError"
  | NotAuthorizedError => u "NotAuthorizedError" | ConcurrencyError => u "ConcurrencyError"
  | StoreError => u "StoreError" | AuditFailureError => u "AuditFailureError"
  | AbortNotRecordedError => u "AbortNotRecordedError" | MappingError => u "MappingError"
  | ManifestError => u "ManifestError" | ManifestBuildError => u "ManifestBuildError"
  | ManifestStoreError => u "ManifestStoreError" | ManifestAuditError _ _ => u "ManifestAuditError"
  | ApiError _ _ => u "ApiError" | AuthError _ _ => u "AuthError" | RpcError _ => u "RpcError"
  | OtherError n => n
  end.

(** ** Fallible computations *)

Inductive result (A : Type) : Type :=
  | Ok (a : A)
  | Raise (e : exn).
Arguments Ok {A} a.
Arguments Raise {A} e.

#[export] Instance result_ret : MRet result := @Ok.
#[export] Instance result_bind : MBind result := λ A B f m,
  match m with Ok a => f a | Raise e => Raise e end.
#[export] Instance result_fmap : FMap result := λ A B f m,
  match m with Ok a => Ok (f a) | Raise e => Raise e end.

(** [raise Cls(msg)]. *)
Definition raise {A} (c : exn_class) (msg : pystr) : result A := Raise (Exn c msg).

Definition is_ok {A} (m : result A) : bool := match m with Ok _ => true | Raise _ => false end.

(** [if bad: raise Cls(msg)]. *)
Definition guard_raise (bad : bool) (c : exn_class) (msg : pystr) : result unit :=
  if bad then raise c msg else Ok tt.

(** [a or b] of tests that may raise. *)
Definition or_else (a b : result bool) : result bool :=
  match a with Ok false => b | _ => a end.

(** [try: m except P as exc: handler(exc)]. *)
Definition try_except {A} (m : result A) (catches : exn_class → bool) (h : exn → result A)
  : result A :=
  match m with
  | Ok a => Ok a
  | Raise e => if catches (exn_kind e) then h e else Raise e
  end.

(** A comprehension whose body may raise: left to right, the first failure wins. *)
Fixpoint mapR {A B} (f : A → result B) (l : list A) : result (list B) :=
  match l with
  | [] => Ok []
  | x :: l => y ← f x; ys ← mapR f l; Ok (y :: ys)
  end.

Fixpoint foldR {A S} (f : S → A → result S) (s : S) (l : list A) : result S :=
  match l with
  | [] => Ok s
  | x :: l => s' ← f s x; foldR f s' l
  end.

(** ** Computations on a mutable object: exceptions keep the state reached *)

Definition M (S A : Type) : Type := S → result A * S.

#[export] Instance M_ret {S} : MRet (M S) := λ A a s, (Ok a, s).
#[export] Instance M_bind {S} : MBind (M S) := λ A B f m s,
  match m s with
  | (Ok a, s') => f a s'
  | (Raise e, s') => (Raise e, s')
  end.

Definition lift {S A} (r : result A) : M S A := λ s, (r, s).
(** An operation of one of the object's parts. *)
Definition stateful {S A} (f : S → result A * S) : M S A := f.
Definition get_state {S} : M S S := λ s, (Ok s, s).
Definition modify {S} (f : S → S) : M S unit := λ s, (Ok tt, f s).
Definition catch_all {S A} (m : M S A) (h : exn → M S A) : M S A := λ s,
  match m s with
  | (Ok a, s') => (Ok a, s')
  | (Raise e, s') => h e s'
  end.

(** ** Automation *)

Create HintDb s2p discriminated.

(** Destructs the scrutinee of a match of the goal or of hypothesis [H], keeping its equation. *)
Ltac case_goal := match goal with |- context [match ?x with _ => _ end] => destruct x eqn:? end.
Ltac case_hyp H := match type of H with context [match ?x with _ => _ end] => destruct x eqn:? end.

(** Splits the conjunctions of the goal without unfolding definitions. *)
Ltac ands := repeat match goal with |- _ ∧ _ => split end.

(** [lia] with the Euclidean equations of [/] and [mod] by constants. *)
Ltac divlia := zify; Z.to_euclidean_division_equations; lia.

Lemma Ok_inj {A} (a b : A) : Ok a = Ok b → a = b.
Proof. by intros [= ->]. Qed.
Lemma Raise_inj {A} e e' : Raise (A:=A) e = Raise e' → e = e'.
Proof. by intros [= ->]. Qed.

(** Splits a successful [result] computation into its steps. *)
Ltac ok_inv :=
  repeat match goal with
  | H : Ok ?x = Ok ?x |- _ => clear H
  | H : Ok _ = Ok _ |- _ => apply Ok_inj in H
  | H : Raise _ = Raise _ |- _ => apply Raise_inj in H
  | H : Ok _ = Raise _ |- _ => discriminate H
  | H : Raise _ = Ok _ |- _ => discriminate H
  | H : guard_raise ?b _ _ = Ok _ |- _ =>
      unfold guard_raise in H; destruct b eqn:?; [discriminate H|]
  | H : (_ ← ?m; _) = Ok _ |- _ =>
      let E := fresh "E" in destruct m eqn:E; cbn [mbind result_bind] in H; [|discriminate H]
  end.

(** ** Lemmas shared by the components *)

Lemma bind_ok {A B} (m : result A) (f : A → result B) b :
  (m ≫= f) = Ok b ↔ ∃ a, m = Ok a ∧ f a = Ok b.
Proof.
  destruct m; cbn; split; [by eauto|by intros (? & [= ->] & ?)|done|by intros (? & ? & ?)].
Qed.

Lemma or_else_false a b : or_else a b = Ok false ↔ a = Ok false ∧ b = Ok false.
Proof. destruct a as [[]|], b as [[]|]; naive_solver. Qed.

Lemma mapR_Ok {A B} (f : A → result B) l k :
  mapR f l = Ok k ↔ Forall2 (λ x y, f x = Ok y) l k.
Proof.
  split.
  - revert k. induction l as [|x l IH]; intros k H; cbn in H; [ok_inv; subst; constructor|].
    destruct (f x) eqn:Ex; cbn in H; [|discriminate].
    destruct (mapR f l) eqn:El; cbn in H; [|discriminate]. ok_inv; subst; auto.
  - induction 1 as [|x y l k Hx _ IH]; cbn; [done|]. by rewrite Hx; cbn; rewrite IH.
Qed.

Lemma mapR_total {A B} (f : A → result B) l : (∀ x, x ∈ l → ∃ y, f x = Ok y) → ∃ k, mapR f l = Ok k.
Proof.
  induction l as [|x l IH]; intros H; cbn; [by eexists|].
  destruct (H x) as [y ->]; [left|]. destruct IH as [k ->]; [by intros z ?; apply H; right|]. by eexists.
Qed.

Lemma mapR_length {A B} (f : A → result B) l k : mapR f l = Ok k → length k = length l.
Proof. rewrite mapR_Ok. intros H. symmetry. by eapply Forall2_length. Qed.

Lemma foldR_app {A S} (f : S → A → result S) s l1 l2 :
  foldR f s (l1 ++ l2) = (s' ← foldR f s l1; foldR f s' l2).
Proof. revert s. induction l1 as [|x l1 IH]; intros s; cbn; [done|]. destruct (f s x); cbn; auto. Qed.

(** An invariant of a fold whose body may raise. *)
Lemma foldR_inv {A S} (P : S → Prop) (f : S → A → result S) s l s' :
  P s → (∀ s x s', P s → f s x = Ok s' → P s') → foldR f s l = Ok s' → P s'.
Proof.
  intros Hs Hf. revert s Hs. induction l as [|x l IH]; intros s Hs H; cbn in H.
  - by ok_inv; subst.
  - destruct (f s x) eqn:E; cbn in H; [|discriminate]. eauto.
Qed.

(** The same, for the elements of the list only. *)
Lemma foldR_inv_elem {A S} (P : S → Prop) (f : S → A → result S) s l s' :
  P s → (∀ s x s', x ∈ l → P s → f s x = Ok s' → P s') → foldR f s l = Ok s' → P s'.
Proof.
  intros Hs Hf. revert s Hs. induction l as [|x l IH]; intros s Hs H; cbn in H.
  - by ok_inv; subst.
  - destruct (f s x) eqn:E; cbn in H; [|discriminate].
    eapply IH; [|eapply Hf; [left|..]|]; eauto. intros. eapply Hf; [by right|..]; eauto.
Qed.

Lemma fold_left_inv {A S} (P : S → Prop) (f : S → A → S) l s :
  P s → (∀ s x, P s → P (f s x)) → P (fold_left f l s).
Proof. revert s. induction l; cbn; auto. Qed.

(** Every exception of the computation is of a class that [P] holds of. *)
Definition fails_as {A} (P : exn_class → Prop) (m : result A) : Prop :=
  ∀ e, m = Raise e → P (exn_kind e).

Lemma fails_raise {A} (P : exn_class → Prop) c msg : P c → fails_as P (raise (A:=A) c msg).
Proof. intros HP e [= <-]. done. Qed.
Lemma fails_ok {A} P (a : A) : fails_as P (Ok a).
Proof. by intros e [=]. Qed.
Lemma fails_bind {A B} P (m : result A) (f : A → result B) :
  fails_as P m → (∀ a, fails_as P (f a)) → fails_as P (m ≫= f).
Proof. intros Hm Hf e H. destruct m as [a|e']; cbn in H; [by eapply Hf|]. apply Hm. congruence. Qed.
Lemma fails_guard P bad c msg : P c → fails_as P (guard_raise bad c msg).
Proof. intros HP. destruct bad; [by apply fails_raise|apply fails_ok]. Qed.
Lemma fails_mapR {A B} P (f : A → result B) l :
  (∀ a, fails_as P (f a)) → fails_as P (mapR f l).
Proof.
  intros Hf. induction l as [|x l IH]; [apply fails_ok|]. cbn.
  apply fails_bind; [done|]. intros y. apply fails_bind; [done|]. intros ys. apply fails_ok.
Qed.

(** Walks through a computation whose every [raise] names an allowed class. *)
Ltac fails_tac :=
  repeat (intros; first
    [ solve [auto with s2p] | apply fails_ok | apply fails_raise; done | apply fails_guard; done
    | apply fails_bind | apply fails_mapR | case_match ]).

(** ** Computations on an object: reasoning *)

Lemma M_bind_inv {S A B} (m : M S A) (f : A → M S B) s r s' :
  (m ≫= f) s = (r, s') →
  (∃ a s1, m s = (Ok a, s1) ∧ f a s1 = (r, s')) ∨ (∃ e, m s = (Raise e, s') ∧ r = Raise e).
Proof.
  unfold mbind, M_bind. destruct (m s) as [[a|e] s1]; [by left; eauto|].
  intros [= <- <-]. right. by eauto.
Qed.

(** [m] relates the state it starts from to the state it ends in, whatever its outcome. *)
Definition steps {S A} (R : S → S → Prop) (m : M S A) : Prop := ∀ s, R s (m s).2.

Section steps.
Context {S : Type} (R : S → S → Prop) `{!PreOrder R}.

Lemma steps_ret {A} (a : A) : steps R (mret a).
Proof. intros s. cbn. reflexivity. Qed.
Lemma steps_lift {A} (r : result A) : steps R (lift r).
Proof. intros s. cbn. reflexivity. Qed.
Lemma steps_bind {A B} (m : M S A) (f : A → M S B) :
  steps R m → (∀ a, steps R (f a)) → steps R (m ≫= f).
Proof.
  intros Hm Hf s. unfold mbind, M_bind. specialize (Hm s).
  destruct (m s) as [[a|e] s1]; cbn in *; [|done]. etransitivity; [done|apply Hf].
Qed.
Lemma steps_modify f : (∀ s, R s (f s)) → steps R (modify f).
Proof. done. Qed.
Lemma steps_catch {A} (m : M S A) h : steps R m → (∀ e, steps R (h e)) → steps R (catch_all m h).
Proof.
  intros Hm Hh s. unfold catch_all. specialize (Hm s).
  destruct (m s) as [[a|e] s1]; cbn in *; [done|]. etransitivity; [done|apply Hh].
Qed.
End steps.

(** Walks through a computation, leaving its primitive operations. *)
Ltac steps_tac :=
  repeat (intros; first
    [ solve [auto with s2p] | apply steps_ret; exact _ | apply steps_lift; exact _
    | apply steps_bind; [exact _|..] | apply steps_catch; [exact _|..] | case_match ]).

(** Splits [(m ≫= f) s = (r, s')]: the step returned, or it raised and that is the end. *)
Ltac m_step H :=
  let a := fresh "a" in let s := fresh "s" in let e := fresh "e" in let E := fresh "E" in
  apply M_bind_inv in H as [(a & s & E & H)|(e & E & H)].
