(* ===== verification/PyStr.v ===== *)
(** * Python strings

    The operations of [str] and [int] that the modelled code uses, over lists of code points:
    [strip], [lower], slices, [str(int)], [int(str)], the character classes of the code's regular
    expressions, the code-point order, and the UTF-8 encoding. *)
From S2P Require Import Prelude.

Definition str_eqb (a b : pystr) : bool := bool_decide (a = b).

(** [str.isspace]: the characters removed by [strip()]. *)
Definition is_space (c : N) : bool :=
  ((9 <=? c) && (c <=? 13) || (28 <=? c) && (c <=? 32) || (c =? 133) || (c =? 160)
   || (c =? 5760) || (8192 <=? c) && (c <=? 8202) || (c =? 8232) || (c =? 8233)
   || (c =? 8239) || (c =? 8287) || (c =? 12288))%N.

Fixpoint lstrip (s : pystr) : pystr :=
  match s with
  | [] => []
  | c :: s' => if is_space c then lstrip s' else s
  end.

Definition strip (s : pystr) : pystr := reverse (lstrip (reverse (lstrip s))).

(** [not value.strip()]. *)
Definition is_blank (s : pystr) : bool := bool_decide (strip s = []).

(** [str.lower] on ASCII; other characters are left alone. *)
Definition lower_char (c : N) : N := if ((65 <=? c) && (c <=? 90))%N then (c + 32)%N else c.
Definition lower (s : pystr) : pystr := lower_char <$> s.

Definition in_range (lo hi c : N) : bool := ((lo <=? c) && (c <=? hi))%N.
Definition is_digit : N → bool := in_range 48 57.
Definition is_upper : N → bool := in_range 65 90.
Definition is_lower : N → bool := in_range 97 122.
Definition is_alnum (c : N) : bool := is_digit c || is_upper c || is_lower c.
Definition one_of (cs : pystr) (c : N) : bool := bool_decide (c ∈ cs).

(** [re.fullmatch] of a character class repeated [lo] to [hi] times. *)
Definition class_rep (cls : N → bool) (lo hi : nat) (s : pystr) : bool :=
  forallb cls s && bool_decide (lo ≤ length s ≤ hi)%nat.

(** A pattern [^C{n}$] used with [re.match]: the [$] also matches before a final newline. *)
Definition match_dollar (full : pystr → bool) (s : pystr) : bool :=
  full s || match reverse s with 10%N :: r => full (reverse r) | _ => false end.

Definition is_hex_lower (c : N) : bool := is_digit c || in_range 97 102 c.
(** [re.compile(r"^[0-9a-f]{64}$").match]. *)
Definition hash_re (s : pystr) : bool := match_dollar (class_rep is_hex_lower 64 64) s.

(** ** Order *)

(** [a < b] on [str]: by code points. *)
Fixpoint str_ltb (a b : pystr) : bool :=
  match a, b with
  | _, [] => false
  | [], _ :: _ => true
  | x :: a, y :: b => (x <? y)%N || ((x =? y)%N && str_ltb a b)
  end.
Definition str_leb (a b : pystr) : bool := negb (str_ltb b a).

(** ** Integers in text *)

(** The decimal digits of [n], least significant last; [fuel] bounds their number. *)
Fixpoint digits_aux (fuel : nat) (n : N) (acc : pystr) : pystr :=
  match fuel with
  | O => acc
  | S fuel =>
      let acc := (48 + n mod 10)%N :: acc in
      if (n <? 10)%N then acc else digits_aux fuel (n / 10)%N acc
  end.
(** [N.size n] binary digits are enough decimal ones. *)
Definition digits (n : N) : pystr := digits_aux (S (N.to_nat (N.size n))) n [].
#[global] Arguments digits : simpl never.

(** [str(z)]. *)
Definition str_of_Z (z : Z) : pystr :=
  if z <? 0 then 45%N :: digits (Z.abs_N z) else digits (Z.abs_N z).

Fixpoint num_of_digits (acc : N) (s : pystr) : N :=
  match s with [] => acc | c :: s => num_of_digits (10 * acc + (c - 48))%N s end.

(** Digits with single underscores between them, as [int()] and [Decimal()] accept. *)
Fixpoint drop_underscores (prev_digit : bool) (s : pystr) : option pystr :=
  match s with
  | [] => if prev_digit then Some [] else None
  | c :: s =>
      if is_digit c then (cons c) <$> drop_underscores true s
      else if bool_decide (c = 95%N) then
        if prev_digit then drop_underscores false s else None
      else None
  end.

(** [int(s)] for a string: [None] is the ValueError. *)
Definition int_of_str (s : pystr) : option Z :=
  let body := strip s in
  let '(neg, ds) := match body with
                    | 45%N :: r => (true, r) | 43%N :: r => (false, r) | r => (false, r) end in
  match drop_underscores false ds with
  | Some ds => let n := Z.of_N (num_of_digits 0 ds) in Some (if neg : bool then - n else n)
  | None => None
  end.

(** [int(s, 16)] for a string of ASCII digits: sign, prefix, single underscores. *)
Definition hex_digit (c : N) : option N :=
  if is_digit c then Some (c - 48)%N
  else if in_range 97 102 c then Some (c - 87)%N
  else if in_range 65 70 c then Some (c - 55)%N else None.
Fixpoint hex_digits (prev_digit : bool) (acc : N) (s : pystr) : option N :=
  match s with
  | [] => if prev_digit then Some acc else None
  | c :: s =>
      match hex_digit c with
      | Some d => hex_digits true (16 * acc + d)%N s
      | None => if bool_decide (c = 95%N) && prev_digit then hex_digits false acc s else None
      end
  end.
Definition int_sign (s : pystr) : bool * pystr :=
  match s with 45%N :: r => (true, r) | 43%N :: r => (false, r) | _ => (false, s) end.
Definition hex_prefix (s : pystr) : pystr :=
  match s with
  | 48%N :: x :: r => if one_of [120; 88]%N x then match r with 95%N :: r' => r' | _ => r end else s
  | _ => s
  end.
Definition hex_of_str (s : pystr) : option Z :=
  let '(neg, body) := int_sign (strip s) in
  n ← hex_digits false 0 (hex_prefix body); Some (if neg : bool then - Z.of_N n else Z.of_N n).

(** [s.replace(old, new)] for a non-empty [old]: left to right, without overlap. *)
Fixpoint replace_from (fuel : nat) (old new s : pystr) : pystr :=
  match fuel, s with
  | S fuel, c :: r =>
      if bool_decide (take (length old) s = old) then new ++ replace_from fuel old new (drop (length old) s)
      else c :: replace_from fuel old new r
  | _, _ => s
  end.
Definition replace_all (old new s : pystr) : pystr := replace_from (length s) old new s.

(** [s.strip(chars)]. *)
Fixpoint lstrip_set (cs s : pystr) : pystr :=
  match s with c :: r => if bool_decide (c ∈ cs) then lstrip_set cs r else s | [] => [] end.
Definition strip_set (cs s : pystr) : pystr := reverse (lstrip_set cs (reverse (lstrip_set cs s))).

(** [uuid.UUID(s)] does not raise. *)
Definition uuid_ok (s : pystr) : bool :=
  let h := replace_all (u "-") [] (strip_set (u "{}") (replace_all (u "uuid:") [] (replace_all (u "urn:") [] s))) in
  bool_decide (length h = 32%nat) &&
  match hex_of_str h with Some n => (0 <=? n) && (n <? 2 ^ 128) | None => false end.
Example uuid_examples :
  uuid_ok (u "123e4567-e89b-12d3-a456-426614174000") = true
  ∧ uuid_ok (u "{123E4567e89b12d3a456426614174000}") = true
  ∧ uuid_ok (u "urn:uuid:123e4567-e89b-12d3-a456-426614174000") = true
  ∧ uuid_ok (u "123e4567-e89b-12d3-a456-42661417400") = false
  ∧ uuid_ok (u "123e4567-e89b-12d3-a456-42661417400g") = false
  ∧ uuid_ok (u "0x                              ") = false
  ∧ uuid_ok (u "0x3e4567-e89b-12d3-a456-426614174_00") = true.
Proof. vm_compute. repeat split. Qed.

(** [s[:n]]. *)
Definition slice_to (n : nat) (s : pystr) : pystr := take n s.

(** [sep.join(parts)]. *)
Fixpoint join (sep : pystr) (parts : list pystr) : pystr :=
  match parts with
  | [] => []
  | [p] => p
  | p :: ps => p ++ sep ++ join sep ps
  end.

Definition starts_with (pre s : pystr) : bool := bool_decide (take (length pre) s = pre).

(** [needle in s]. *)
Fixpoint contains (needle s : pystr) : bool :=
  starts_with needle s || match s with [] => false | _ :: s => contains needle s end.

(** ** UTF-8 *)

Definition is_surrogate : N → bool := in_range 55296 57343.

Definition utf8_char (c : N) : pybytes :=
  (if c <? 128 then [c]
   else if c <? 2048 then [192 + c / 64; 128 + c mod 64]
   else if c <? 65536 then [224 + c / 4096; 128 + (c / 64) mod 64; 128 + c mod 64]
   else [240 + c / 262144; 128 + (c / 4096) mod 64; 128 + (c / 64) mod 64; 128 + c mod 64])%N.

(** A Unicode scalar value: what a str of text holds, lone surrogates excluded. *)
Definition char_ok (c : N) : bool := ((c <? 1114112) && negb (is_surrogate c))%N.
Definition str_ok (s : pystr) : bool := forallb char_ok s.

(** [s.encode("utf-8")]; [None] is the UnicodeEncodeError on a lone surrogate. *)
Definition utf8 (s : pystr) : option pybytes :=
  if str_ok s then Some (s ≫= utf8_char) else None.

Definition is_ascii (s : pystr) : bool := forallb (λ c, (c <? 128)%N) s.

(** [repr(s)] of a str. A code point above 126 is kept as it is, which is right for printable ones. *)
Definition repr_char (quote c : N) : pystr :=
  (if (c =? quote) || (c =? 92) then [92; c]
   else if c =? 10 then [92; 110] else if c =? 13 then [92; 114] else if c =? 9 then [92; 116]
   else if (c <? 32) || (c =? 127) then
     let d n := if n <? 10 then 48 + n else 87 + n in [92; 120; d (c / 16); d (c mod 16)]
   else [c])%N.
Definition repr_str (s : pystr) : pystr :=
  let quote := if bool_decide (39%N ∈ s) && negb (bool_decide (34%N ∈ s)) then 34%N else 39%N in
  quote :: (s ≫= repr_char quote) ++ [quote].

(** [s.splitlines()]; a carriage return and line feed are one break. *)
Definition is_linebreak (c : N) : bool :=
  one_of [10; 11; 12; 13; 28; 29; 30; 133; 8232; 8233]%N c.
Fixpoint splitlines_from (cr : bool) (cur : pystr) (s : pystr) : list pystr :=
  match s with
  | [] => if bool_decide (cur = []) then [] else [reverse cur]
  | c :: s =>
      if cr && (c =? 10)%N then splitlines_from false [] s
      else if is_linebreak c then reverse cur :: splitlines_from (c =? 13)%N [] s
      else splitlines_from false (c :: cur) s
  end.
Definition splitlines : pystr → list pystr := splitlines_from false [].

(** ** Lemmas *)

Lemma splitlines_from_line cur l s :
  forallb (λ c, negb (is_linebreak c)) l = true →
  splitlines_from false cur (l ++ 10%N :: s) = (reverse cur ++ l) :: splitlines s.
Proof.
  revert cur. induction l as [|c l IH]; intros cur H; cbn [app splitlines_from andb].
  - rewrite app_nil_r. reflexivity.
  - cbn [forallb] in H. apply andb_true_iff in H as [Hc Hl]. apply negb_true_iff in Hc.
    rewrite Hc, IH by done. by rewrite reverse_cons, <- app_assoc.
Qed.

(** A newline-terminated line without line breaks inside is the first of [splitlines]. *)
Lemma splitlines_cons l s :
  forallb (λ c, negb (is_linebreak c)) l = true →
  splitlines (l ++ 10%N :: s) = l :: splitlines s.
Proof. intros H. unfold splitlines. by rewrite splitlines_from_line. Qed.


Lemma str_eqb_true a b : str_eqb a b = true ↔ a = b.
Proof. unfold str_eqb. by rewrite bool_decide_eq_true. Qed.

Lemma str_eqb_refl a : str_eqb a a = true.
Proof. by apply str_eqb_true. Qed.

Lemma str_ltb_irrefl a : str_ltb a a = false.
Proof. induction a as [|x a IH]; cbn; [done|]. rewrite IH. by rewrite N.ltb_irrefl, andb_false_r. Qed.

Lemma str_ltb_trans a b c : str_ltb a b = true → str_ltb b c = true → str_ltb a c = true.
Proof.
  revert b c. induction a as [|x a IH]; intros [|y b] [|z c]; cbn; try done.
  intros H1 H2. apply orb_true_iff in H1, H2. apply orb_true_iff.
  destruct H1 as [H1|[H1 H1']%andb_true_iff], H2 as [H2|[H2 H2']%andb_true_iff];
    rewrite ?N.ltb_lt, ?N.eqb_eq in *; [left; lia..|].
  right. apply andb_true_iff. rewrite N.eqb_eq. split; [lia|eauto].
Qed.

Lemma str_ltb_total a b : str_ltb a b = false → str_ltb b a = false → a = b.
Proof.
  revert b. induction a as [|x a IH]; intros [|y b]; cbn; try done.
  intros H1 H2. apply orb_false_iff in H1 as [H1 H1'], H2 as [H2 H2'].
  rewrite N.ltb_ge in H1, H2. assert (x = y) as -> by lia.
  rewrite N.eqb_refl in H1', H2'. cbn in *. f_equal; auto.
Qed.

Lemma is_ascii_ok s : is_ascii s = true → str_ok s = true.
Proof.
  unfold is_ascii, str_ok. rewrite !forallb_forall. intros H c Hc. specialize (H c Hc).
  unfold char_ok, is_surrogate, in_range.
  rewrite andb_true_iff, negb_true_iff, andb_false_iff, N.leb_gt, N.ltb_lt in *. lia.
Qed.

Lemma str_ok_app a b : str_ok (a ++ b) = str_ok a && str_ok b.
Proof. apply forallb_app. Qed.

Lemma utf8_ascii s : is_ascii s = true → utf8 s = Some s.
Proof.
  intros H. unfold utf8.
  rewrite is_ascii_ok by done.
  f_equal. induction s as [|c s IH]; cbn in *; [done|].
  apply andb_true_iff in H as [Hc H]. unfold utf8_char at 1. rewrite Hc. cbn. f_equal. auto.
Qed.

Lemma is_ascii_app a b : is_ascii (a ++ b) = is_ascii a && is_ascii b.
Proof. apply forallb_app. Qed.

(** The digits of a number read back as the number. *)
Lemma num_of_digits_app acc a b :
  num_of_digits acc (a ++ b) = num_of_digits (num_of_digits acc a) b.
Proof. revert acc. induction a; cbn; auto. Qed.

Lemma digits_aux_app fuel n acc : digits_aux fuel n acc = digits_aux fuel n [] ++ acc.
Proof.
  revert n acc. induction fuel as [|fuel IH]; intros n acc; cbn; [done|].
  destruct (n <? 10)%N; [done|]. rewrite IH, (IH _ [_]), <- app_assoc. done.
Qed.

Lemma num_of_digits_aux fuel n :
  (n < 10 ^ N.of_nat fuel)%N → num_of_digits 0 (digits_aux fuel n []) = n.
Proof.
  revert n. induction fuel as [|fuel IH]; intros n Hn.
  - change (10 ^ N.of_nat 0)%N with 1%N in Hn. cbn. lia.
  - cbn [digits_aux]. destruct (N.ltb_spec n 10) as [H|H].
    + cbn [num_of_digits]. rewrite N.mod_small by done. lia.
    + rewrite digits_aux_app, num_of_digits_app, IH.
      * cbn [num_of_digits]. pose proof (N.div_mod' n 10) as E. set (n / 10)%N in *. set (n mod 10)%N in *. clear Hn. lia.
      * apply N.Div0.div_lt_upper_bound. rewrite <- N.pow_succ_r'. by rewrite <- Nat2N.inj_succ.
Qed.

Lemma digits_fuel n : (n < 10 ^ N.of_nat (S (N.to_nat (N.size n))))%N.
Proof.
  rewrite Nat2N.inj_succ, N2Nat.id.
  eapply N.lt_le_trans; [apply N.size_gt|].
  etransitivity; [apply N.pow_le_mono_l with (b := 10%N); lia|].
  apply N.pow_le_mono_r; lia.
Qed.

Lemma num_of_digits_digits n : num_of_digits 0 (digits n) = n.
Proof. apply num_of_digits_aux, digits_fuel. Qed.

Lemma digits_aux_all fuel n acc :
  forallb is_digit acc = true → forallb is_digit (digits_aux fuel n acc) = true.
Proof.
  revert n acc. induction fuel as [|fuel IH]; intros n acc H; cbn; [done|].
  assert (is_digit (48 + n mod 10)%N = true) as Hd.
  { unfold is_digit, in_range. pose proof (N.mod_lt n 10 ltac:(lia)).
    set (n mod 10)%N in *. rewrite andb_true_iff, !N.leb_le. lia. }
  destruct (n <? 10)%N; [cbn; by rewrite Hd|]. apply IH. cbn. by rewrite Hd.
Qed.

Lemma digits_all n : forallb is_digit (digits n) = true.
Proof. by apply digits_aux_all. Qed.

Lemma digits_nonempty n : digits n ≠ [].
Proof.
  unfold digits. cbn [digits_aux]. destruct (n <? 10)%N; [done|].
  rewrite digits_aux_app. intros H. by apply app_eq_nil in H as [_ ?].
Qed.

Lemma is_digit_ascii s : forallb is_digit s = true → is_ascii s = true.
Proof.
  unfold is_ascii. rewrite !forallb_forall. intros H c Hc. specialize (H c Hc).
  unfold is_digit, in_range in H. rewrite andb_true_iff, !N.leb_le in H. apply N.ltb_lt. lia.
Qed.

Lemma digits_inj a b : digits a = digits b → a = b.
Proof. intros H. by rewrite <- (num_of_digits_digits a), H, num_of_digits_digits. Qed.

Lemma str_of_Z_ascii z : is_ascii (str_of_Z z) = true.
Proof.
  unfold str_of_Z. destruct (z <? 0); cbn; rewrite ?andb_true_l; apply is_digit_ascii, digits_all.
Qed.

Lemma str_of_Z_inj a b : str_of_Z a = str_of_Z b → a = b.
Proof.
  assert (∀ n l, digits n ≠ 45%N :: l) as Hm.
  { intros n l H. pose proof (digits_all n) as Hd. rewrite H in Hd. discriminate. }
  unfold str_of_Z. destruct (Z.ltb_spec a 0), (Z.ltb_spec b 0); intros E.
  - injection E as E%digits_inj. lia.
  - by edestruct Hm.
  - symmetry in E. by edestruct Hm.
  - apply digits_inj in E. lia.
Qed.

(** ** UTF-8 is injective on valid code points *)

Definition code_point (c : N) : Prop := (c < 1114112)%N.

Lemma div_mod_eq2 a b k : (a / k = b / k → a mod k = b mod k → a = b)%N.
Proof. intros. rewrite (N.div_mod' a k), (N.div_mod' b k). congruence. Qed.

Lemma utf8_char_head c :
  ∃ b tl, utf8_char c = b :: tl ∧ length tl =
    (if (c <? 128)%N then 0%nat else if (c <? 2048)%N then 1%nat
     else if (c <? 65536)%N then 2%nat else 3%nat) ∧
    (code_point c →
     if c <? 128 then b < 128 else if c <? 2048 then 192 ≤ b < 224
     else if c <? 65536 then 224 ≤ b < 240 else 240 ≤ b)%N.
Proof.
  unfold utf8_char, code_point.
  destruct (N.ltb_spec c 128); [by eexists _, _|].
  destruct (N.ltb_spec c 2048).
  { eexists _, _. split_and!; [done|done|].
    divlia. }
  destruct (N.ltb_spec c 65536).
  { eexists _, _. split_and!; [done|done|].
    divlia. }
  eexists _, _. split_and!; [done|done|divlia].
Qed.

Lemma utf8_char_inj c d :
  code_point c → code_point d → utf8_char c = utf8_char d → c = d.
Proof.
  intros Hc Hd E.
  destruct (utf8_char_head c) as (b & tl & Ec & Lc & Hb).
  destruct (utf8_char_head d) as (b' & tl' & Ed & Ld & Hb').
  rewrite Ec, Ed in E. injection E as -> ->. specialize (Hb Hc). specialize (Hb' Hd).
  rewrite <- Ed in Ec. clear Lc Ld. revert Ec. unfold utf8_char.
  destruct (N.ltb_spec c 128), (N.ltb_spec d 128); try (repeat case_match; lia).
  { by intros [= ->]. }
  destruct (N.ltb_spec c 2048), (N.ltb_spec d 2048); try (repeat case_match; lia).
  { intros [= E1 E2]. apply (div_mod_eq2 _ _ 64); lia. }
  destruct (N.ltb_spec c 65536), (N.ltb_spec d 65536); try (repeat case_match; lia).
  - intros [= E1 E2 E3]. apply (div_mod_eq2 _ _ 64); [|lia].
    apply (div_mod_eq2 _ _ 64); [|lia]. rewrite !N.Div0.div_div. change (64 * 64)%N with 4096%N. lia.
  - intros [= E1 E2 E3 E4]. apply (div_mod_eq2 _ _ 64); [|lia].
    apply (div_mod_eq2 _ _ 64); [|lia].
    apply (div_mod_eq2 _ _ 64); rewrite !N.Div0.div_div;
      change (64 * (64 * 64))%N with 262144%N; change (64 * 64)%N with 4096%N; lia.
Qed.

Lemma utf8_chars_inj s t :
  Forall code_point s → Forall code_point t →
  (s ≫= utf8_char) = (t ≫= utf8_char) → s = t.
Proof.
  intros Hs. revert t. induction Hs as [|c s Hc Hs IH]; intros t Ht E.
  - destruct t as [|d t]; [done|]. destruct (utf8_char_head d) as (b & tl & Ed & _).
    cbn in E. by rewrite Ed in E.
  - destruct Ht as [|d t Hd Ht].
    { destruct (utf8_char_head c) as (b & tl & Ec & _). cbn in E. by rewrite Ec in E. }
    cbn in E. assert (utf8_char c = utf8_char d) as Ecd.
    { destruct (utf8_char_head c) as (b & tl & Ec & Lc & Hb).
      destruct (utf8_char_head d) as (b' & tl' & Ed & Ld & Hb').
      specialize (Hb Hc). specialize (Hb' Hd). rewrite Ec, Ed in E |- *.
      injection E as -> E. f_equal.
      assert (length tl = length tl') as L.
      { rewrite Lc, Ld. repeat case_match; rewrite ?N.ltb_lt, ?N.ltb_ge in *; (done || lia). }
      by apply app_inj_1 in E as [-> _]. }
    rewrite Ecd in E. apply app_inv_head in E. f_equal; [by apply utf8_char_inj|auto].
Qed.

Lemma str_ok_code_points s : str_ok s = true → Forall code_point s.
Proof.
  unfold str_ok, code_point. rewrite forallb_forall, Forall_forall. intros H c Hc%list_elem_of_In.
  apply H in Hc. unfold char_ok in Hc. apply andb_true_iff in Hc as [Hc _]. by apply N.ltb_lt.
Qed.

Lemma utf8_inj s t b : utf8 s = Some b → utf8 t = Some b → s = t.
Proof.
  unfold utf8. intros E1 E2. repeat case_match; simplify_eq.
  apply utf8_chars_inj; auto using str_ok_code_points.
Qed.

#[export] Hint Resolve str_eqb_refl str_of_Z_ascii digits_all digits_nonempty : s2p.

(** Sanity on concrete inputs. *)
Example strip_example : strip (u "  a b ") = u "a b".
Proof. vm_compute. reflexivity. Qed.
Example str_of_Z_example : str_of_Z (-120) = u "-120".
Proof. vm_compute. reflexivity. Qed.
Example int_of_str_example : int_of_str (u " -1_200 ") = Some (-1200).
Proof. vm_compute. reflexivity. Qed.
