(* ===== verification/PyDecimal.v ===== *)
(** * Python's [decimal.Decimal] in the default context

    Every money amount, quantity and score of the modelled packages is a [Decimal], computed in
    the default context: 28 significant digits, ROUND_HALF_EVEN, exponents from -999999 to 999999,
    with InvalidOperation, DivisionByZero and Overflow trapped (raised) and inexact or subnormal
    results silently rounded. The operations below are those of the standard library's
    [_pydecimal], on a signed coefficient and an exponent. The sign of a zero is not kept. *)
From S2P Require Import Prelude PyStr.

Inductive decimal :=
  | DFin (c e : Z)          (** c * 10^e *)
  | DInf (neg : bool)
  | DNaN.

#[export] Instance decimal_eq_dec : EqDecision decimal.
Proof. solve_decision. Defined.

Definition prec : Z := 28.
Definition Emax : Z := 999999.
Definition Emin : Z := -999999.
Definition Etiny : Z := Emin - prec + 1.
Definition Etop : Z := Emax - prec + 1.

(** [Decimal(int)], and [Decimal("d.ddd")] for a literal with [-e] decimals. *)
Definition D (c : Z) : decimal := DFin c 0.
Definition D_ZERO : decimal := D 0.
Definition D_ONE : decimal := D 1.

Definition is_finite (d : decimal) : bool := match d with DFin _ _ => true | _ => false end.

(** ** Digits and rounding *)

Fixpoint ndigits_aux (fuel : nat) (n : Z) : Z :=
  match fuel with
  | O => 1
  | S fuel => if n <? 10 then 1 else 1 + ndigits_aux fuel (n / 10)
  end.
(** [len(str(n))] for [n >= 0]; [Z.log2 n + 1] bits bound the number of divisions. *)
Definition ndigits (n : Z) : Z := ndigits_aux (S (Z.to_nat (Z.log2 n))) n.

(** [n / 10^k] to the nearest integer, ties to even ([n], [k >= 0]). *)
Definition round_half_even (n k : Z) : Z :=
  let p := 10 ^ k in
  let q := n / p in
  let r := n mod p in
  if 2 * r <? p then q
  else if p <? 2 * r then q + 1
  else if Z.even q then q else q + 1.

(** Sign-symmetric rounding of a signed coefficient. *)
Definition round_signed (c k : Z) : Z := Z.sgn c * round_half_even (Z.abs c) k.

(** [Decimal._fix]: round to the context. *)
Definition dfix (c e : Z) : result decimal :=
  if c =? 0 then Ok (DFin 0 (Z.min (Z.max e Etiny) Emax))
  else
    let exp_min0 := ndigits (Z.abs c) + e - prec in
    if Etop <? exp_min0 then raise Overflow (u "above Emax")
    else
      let exp_min := Z.max exp_min0 Etiny in
      if e <? exp_min then
        let q := round_signed c (exp_min - e) in
        if 10 ^ prec <=? Z.abs q then
          if Etop <? exp_min + 1 then raise Overflow (u "above Emax")
          else Ok (DFin (q ÷ 10) (exp_min + 1))
        else Ok (DFin q exp_min)
      else Ok (DFin c e).

(** ** Arithmetic *)

Definition dneg (a : decimal) : result decimal :=
  match a with
  | DFin c e => dfix (- c) e
  | DInf n => Ok (DInf (negb n))
  | DNaN => Ok DNaN
  end.

(** [copy_negate]: no rounding. *)
Definition copy_negate (a : decimal) : decimal :=
  match a with DFin c e => DFin (- c) e | DInf n => DInf (negb n) | DNaN => DNaN end.

Definition dadd (a b : decimal) : result decimal :=
  match a, b with
  | DNaN, _ | _, DNaN => Ok DNaN
  | DInf n, DInf m => if Bool.eqb n m then Ok (DInf n) else raise InvalidOperation (u "-INF + INF")
  | DInf n, _ => Ok (DInf n)
  | _, DInf m => Ok (DInf m)
  | DFin c1 e1, DFin c2 e2 =>
      let m := Z.min e1 e2 in dfix (c1 * 10 ^ (e1 - m) + c2 * 10 ^ (e2 - m)) m
  end.

Definition dsub (a b : decimal) : result decimal := dadd a (copy_negate b).

Definition sign_neg (a : decimal) : bool :=
  match a with DFin c _ => c <? 0 | DInf n => n | DNaN => false end.

Definition dmul (a b : decimal) : result decimal :=
  match a, b with
  | DNaN, _ | _, DNaN => Ok DNaN
  | DFin c1 e1, DFin c2 e2 => dfix (c1 * c2) (e1 + e2)
  | DInf _, DFin 0 _ | DFin 0 _, DInf _ => raise InvalidOperation (u "0 * INF")
  | _, _ => Ok (DInf (xorb (sign_neg a) (sign_neg b)))
  end.

(** Strip zeros while the exponent is below the ideal one. *)
Fixpoint strip_to (fuel : nat) (c e ideal : Z) : Z * Z :=
  match fuel with
  | O => (c, e)
  | S fuel =>
      if (e <? ideal) && (c mod 10 =? 0) then strip_to fuel (c / 10) (e + 1) ideal else (c, e)
  end.

Definition ddiv (a b : decimal) : result decimal :=
  match a, b with
  | DNaN, _ | _, DNaN => Ok DNaN
  | DInf _, DInf _ => raise InvalidOperation (u "(+-)INF/(+-)INF")
  | DInf n, _ => Ok (DInf (xorb n (sign_neg b)))
  | DFin _ _, DInf _ => dfix 0 Etiny
  | DFin c1 e1, DFin c2 e2 =>
      if c2 =? 0 then
        if c1 =? 0 then raise InvalidOperation (u "0 / 0") else raise DivisionByZero (u "x / 0")
      else if c1 =? 0 then dfix 0 (e1 - e2)
      else
        let a1 := Z.abs c1 in
        let a2 := Z.abs c2 in
        let shift := ndigits a2 - ndigits a1 + prec + 1 in
        let exp := e1 - e2 - shift in
        let num := if 0 <=? shift then a1 * 10 ^ shift else a1 in
        let den := if 0 <=? shift then a2 else a2 * 10 ^ (- shift) in
        let q := num / den in
        let '(q', exp') :=
          if num mod den =? 0 then strip_to (Z.to_nat shift) q exp (e1 - e2)
          else (if q mod 5 =? 0 then q + 1 else q, exp) in
        dfix (Z.sgn c1 * Z.sgn c2 * q') exp'
  end.

(** [sum(xs, Decimal(0))]. *)
Definition dsum (l : list decimal) : result decimal := foldR dadd D_ZERO l.

(** ** Comparison: exact, whatever the exponents *)

Definition fcmp (c1 e1 c2 e2 : Z) : comparison :=
  let m := Z.min e1 e2 in (c1 * 10 ^ (e1 - m) ?= c2 * 10 ^ (e2 - m)).

(** [None] when either operand is a NaN. *)
Definition dcmp (a b : decimal) : option comparison :=
  match a, b with
  | DNaN, _ | _, DNaN => None
  | DFin c1 e1, DFin c2 e2 => Some (fcmp c1 e1 c2 e2)
  | DInf n, DInf m => Some (if Bool.eqb n m then Eq else if n then Lt else Gt)
  | DInf n, _ => Some (if n then Lt else Gt)
  | _, DInf m => Some (if m then Gt else Lt)
  end.

(** The ordering operators raise InvalidOperation on a NaN; [==] does not. *)
Definition ordered (f : comparison → bool) (a b : decimal) : result bool :=
  match dcmp a b with
  | Some c => Ok (f c)
  | None => raise InvalidOperation (u "comparison involving NaN")
  end.
Definition dlt := ordered (λ c, match c with Lt => true | _ => false end).
Definition dgt := ordered (λ c, match c with Gt => true | _ => false end).
Definition dle := ordered (λ c, match c with Gt => false | _ => true end).
Definition dge := ordered (λ c, match c with Lt => false | _ => true end).
Definition deq (a b : decimal) : bool := bool_decide (dcmp a b = Some Eq).

(** [bool(d)] is [d != 0]. *)
Definition truthy (d : decimal) : bool := negb (deq d D_ZERO).

(** The builtins [max(a, b)] and [min(a, b)]: the first argument unless the second beats it. *)
Definition dmax (a b : decimal) : result decimal := g ← dgt b a; Ok (if g : bool then b else a).
Definition dmin (a b : decimal) : result decimal := l ← dlt b a; Ok (if l : bool then b else a).

(** ** Conversions *)

(** [d.to_integral_value(ROUND_HALF_EVEN)] followed by [int()]; only for finite [d]. *)
Definition to_integral_int (d : decimal) : result Z :=
  match d with
  | DFin c e => Ok (if 0 <=? e then c * 10 ^ e else round_signed c (- e))
  | DInf _ => raise Overflow (u "cannot convert Infinity to integer")
  | DNaN => raise ValueError (u "cannot convert NaN to integer")
  end.

(** [d.scaleb(k)]. *)
Definition dscaleb (d : decimal) (k : Z) : result decimal :=
  match d with DFin c e => dfix c (e + k) | _ => Ok d end.

(** [d.normalize()]: trailing zeros removed, a zero gets exponent 0. *)
Definition dnormalize (d : decimal) : result decimal :=
  match d with
  | DFin c e =>
      r ← dfix c e;
      match r with
      | DFin c e =>
          if c =? 0 then Ok (DFin 0 0)
          else let '(a, e') := strip_to (Z.to_nat (ndigits (Z.abs c))) (Z.abs c) e Emax in
               Ok (DFin (Z.sgn c * a) e')
      | r => Ok r
      end
  | _ => Ok d
  end.

Definition zeros (n : Z) : pystr := replicate (Z.to_nat n) 48%N.

(** [format(d, "f")]. *)
Definition format_f (d : decimal) : pystr :=
  match d with
  | DFin c e =>
      let s := if c <? 0 then u "-" else [] in
      let ds := digits (Z.abs_N c) in
      if 0 <=? e then s ++ (if c =? 0 then u "0" else ds ++ zeros e)
      else
        let n := Z.of_nat (length ds) in
        let k := - e in
        if k <? n then s ++ take (Z.to_nat (n - k)) ds ++ u "." ++ drop (Z.to_nat (n - k)) ds
        else s ++ u "0." ++ zeros (k - n) ++ ds
  | DInf n => if n then u "-Infinity" else u "Infinity"
  | DNaN => u "NaN"
  end.

(** [Decimal(text)]: [None] is InvalidOperation. Underscores are dropped and surrounding
    whitespace ignored, as the constructor does. *)
Definition split_at (p : N → bool) (s : pystr) : pystr * option pystr :=
  let fix go pre s := match s with
    | [] => (reverse pre, None)
    | c :: s => if p c then (reverse pre, Some s) else go (c :: pre) s
    end in go [] s.

(** An optional sign. *)
Definition take_sign (s : pystr) : bool * pystr :=
  match s with 45%N :: r => (true, r) | 43%N :: r => (false, r) | r => (false, r) end.

Definition dec_body (neg : bool) (s : pystr) : option decimal :=
  let '(mant, ex) := split_at (one_of (u "eE")) s in
  let '(ip, fp) := split_at (one_of (u ".")) mant in
  let frac := default [] fp in
  let ds := ip ++ frac in
  if negb (forallb is_digit ds) || bool_decide (ds = []) then None
  else
    let c := Z.of_N (num_of_digits 0 ds) in
    let c := if neg then - c else c in
    let e0 := - Z.of_nat (length frac) in
    match ex with
    | None => Some (DFin c e0)
    | Some xs =>
        let '(xneg, xd) := take_sign xs in
        if negb (forallb is_digit xd) || bool_decide (xd = []) then None
        else let x := Z.of_N (num_of_digits 0 xd) in
             Some (DFin c (e0 + if xneg : bool then - x else x))
    end.

Definition dec_of_str (s : pystr) : option decimal :=
  let s := filter (λ c, c ≠ 95%N) (strip s) in
  let '(neg, s) := take_sign s in
  let l := lower s in
  if bool_decide (l = u "inf") || bool_decide (l = u "infinity") then Some (DInf neg)
  else if starts_with (u "nan") l then
    if forallb is_digit (drop 3 l) then Some DNaN else None
  else if starts_with (u "snan") l then
    if forallb is_digit (drop 4 l) then Some DNaN else None
  else dec_body neg s.

(** ** Examples *)

Example dadd_example : dadd (DFin 15 (-1)) (DFin 25 (-2)) = Ok (DFin 175 (-2)).
Proof. reflexivity. Qed.
Example ddiv_third : ddiv (D 1) (D 3) = Ok (DFin 3333333333333333333333333333 (-28)).
Proof. vm_compute. reflexivity. Qed.
Example ddiv_exact : ddiv (D 10) (D 4) = Ok (DFin 25 (-1)).
Proof. vm_compute. reflexivity. Qed.
Example dmul_rounds :
  dmul (D 99999999999999999999) (D 99999999999999999999) = Ok (DFin 9999999999999999999800000000 12).
Proof. vm_compute. reflexivity. Qed.
Example format_example : format_f (DFin 1500 (-3)) = u "1.500".
Proof. vm_compute. reflexivity. Qed.
Example dec_of_str_example : dec_of_str (u " -1_0.25e3") = Some (DFin (-1025) 1).
Proof. vm_compute. reflexivity. Qed.
Example normalize_example : dnormalize (DFin 1500 (-3)) = Ok (DFin 15 (-1)).
Proof. vm_compute. reflexivity. Qed.
