(* ===== verification/DecimalFacts.v ===== *)
(** * The order and the rounding of [Decimal]

    Two finite decimals are compared, added and multiplied as integers at a common scale: the
    decimal [c * 10^e] is [sc m (c, e) = c * 10^(e - m)] at any scale [m <= e]. On that scale the
    context rounding is a function [rnd m] on integers; it is monotone, keeps the sign, and is the
    identity on values of at most 28 digits. *)
From S2P Require Import Prelude PyStr PyDecimal.

(** ** Powers of ten *)

Lemma pow10_pos k : 0 < 10 ^ k ∨ k < 0.
Proof. destruct (Z.le_gt_cases 0 k); [left; apply Z.pow_pos_nonneg; lia|right; lia]. Qed.

Lemma pow10_gt0 k : 0 ≤ k → 0 < 10 ^ k.
Proof. intros. apply Z.pow_pos_nonneg; lia. Qed.

Lemma pow10_add a b : 0 ≤ a → 0 ≤ b → 10 ^ (a + b) = 10 ^ a * 10 ^ b.
Proof. intros. by apply Z.pow_add_r. Qed.

Lemma pow10_le a b : a ≤ b → 10 ^ a ≤ 10 ^ b.
Proof. intros. apply Z.pow_le_mono_r; lia. Qed.

Lemma pow10_lt_inv a b : 0 ≤ b → 10 ^ a < 10 ^ b → a < b.
Proof.
  intros Hb H. destruct (Z.le_gt_cases b a) as [Hab|]; [|done].
  apply pow10_le in Hab. lia.
Qed.

#[export] Hint Resolve pow10_gt0 : s2p.

(** ** Number of digits *)

Lemma ndigits_aux_spec fuel n :
  0 < n < 10 ^ Z.of_nat fuel →
  1 ≤ ndigits_aux fuel n ∧ 10 ^ (ndigits_aux fuel n - 1) ≤ n < 10 ^ ndigits_aux fuel n.
Proof.
  revert n. induction fuel as [|fuel IH]; intros n Hn; [cbn in Hn; lia|].
  cbn [ndigits_aux]. destruct (Z.ltb_spec n 10) as [H|H]; [cbn; lia|].
  rewrite Nat2Z.inj_succ, Z.pow_succ_r in Hn by lia.
  destruct (IH (n / 10)) as (H1 & H2 & H3).
  { split; [apply Z.div_str_pos; lia|apply Z.div_lt_upper_bound; lia]. }
  set (d := ndigits_aux fuel (n / 10)) in *. split; [lia|].
  pose proof (Z.div_mod n 10 ltac:(lia)) as E. pose proof (Z.mod_pos_bound n 10 ltac:(lia)).
  replace (1 + d - 1) with (1 + (d - 1)) by lia.
  rewrite !pow10_add by lia. change (10 ^ 1) with 10. lia.
Qed.

Lemma ndigits_spec n : 0 < n → 1 ≤ ndigits n ∧ 10 ^ (ndigits n - 1) ≤ n < 10 ^ ndigits n.
Proof.
  intros H. apply ndigits_aux_spec. split; [done|].
  rewrite Nat2Z.inj_succ, Z2Nat.id by apply Z.log2_nonneg.
  apply Z.lt_le_trans with (2 ^ Z.succ (Z.log2 n)); [by apply Z.log2_spec|].
  apply Z.pow_le_mono_l; lia.
Qed.

Lemma ndigits_unique n d : 1 ≤ d → 10 ^ (d - 1) ≤ n < 10 ^ d → ndigits n = d.
Proof.
  intros Hd [H1 H2]. assert (0 < n) as Hn by (pose proof (pow10_gt0 (d - 1)); lia).
  destruct (ndigits_spec n Hn) as (H3 & H4 & H5).
  assert (d - 1 < ndigits n) by (apply pow10_lt_inv; lia).
  assert (ndigits n - 1 < d) by (apply pow10_lt_inv; lia). lia.
Qed.

Lemma ndigits_shift n j : 0 < n → 0 ≤ j → ndigits (n * 10 ^ j) = ndigits n + j.
Proof.
  intros Hn Hj. destruct (ndigits_spec n Hn) as (H1 & H2 & H3).
  pose proof (pow10_gt0 j Hj). apply ndigits_unique; [lia|].
  replace (ndigits n + j - 1) with (ndigits n - 1 + j) by lia. rewrite !pow10_add by lia. nia.
Qed.

Lemma ndigits_mono a b : 0 < a ≤ b → ndigits a ≤ ndigits b.
Proof.
  intros H. destruct (ndigits_spec a ltac:(lia)) as (? & ? & _).
  destruct (ndigits_spec b ltac:(lia)) as (? & _ & ?).
  assert (ndigits a - 1 < ndigits b) by (apply pow10_lt_inv; lia). lia.
Qed.

Lemma ndigits_le n d : 1 ≤ d → 0 ≤ n < 10 ^ d → ndigits n ≤ d.
Proof.
  intros Hd H. destruct (Z.eq_dec n 0) as [->|]; [cbn; lia|].
  destruct (ndigits_spec n ltac:(lia)) as (? & ? & _).
  assert (ndigits n - 1 < d) by (apply pow10_lt_inv; lia). lia.
Qed.

(** ** Half-even rounding of a non-negative integer *)

Lemma rhe_near n k : 0 ≤ k → 2 * Z.abs (round_half_even n k * 10 ^ k - n) ≤ 10 ^ k.
Proof.
  intros Hk. pose proof (pow10_gt0 k Hk) as Hp. unfold round_half_even.
  pose proof (Z.div_mod n (10 ^ k) ltac:(lia)) as E. pose proof (Z.mod_pos_bound n (10 ^ k) Hp).
  set (q := n / 10 ^ k) in *. set (r := n mod 10 ^ k) in *. set (p := 10 ^ k) in *.
  repeat case_match; nia.
Qed.

Lemma rhe_multiple q k : 0 ≤ k → round_half_even (q * 10 ^ k) k = q.
Proof.
  intros Hk. pose proof (pow10_gt0 k Hk). unfold round_half_even.
  rewrite Z.div_mul, Z.mod_mul by lia. by destruct (Z.ltb_spec (2 * 0) (10 ^ k)); [|lia].
Qed.

Lemma rhe_mono a b k : 0 ≤ k → a ≤ b → round_half_even a k ≤ round_half_even b k.
Proof.
  intros Hk Hab. pose proof (pow10_gt0 k Hk) as Hp. unfold round_half_even.
  pose proof (Z.div_mod a (10 ^ k) ltac:(lia)) as Ea. pose proof (Z.mod_pos_bound a (10 ^ k) Hp).
  pose proof (Z.div_mod b (10 ^ k) ltac:(lia)) as Eb. pose proof (Z.mod_pos_bound b (10 ^ k) Hp).
  assert (a / 10 ^ k ≤ b / 10 ^ k) as Hq by (apply Z.div_le_mono; lia).
  set (qa := a / 10 ^ k) in *. set (ra := a mod 10 ^ k) in *.
  set (qb := b / 10 ^ k) in *. set (rb := b mod 10 ^ k) in *. set (p := 10 ^ k) in *.
  destruct (Z.eq_dec qa qb) as [E|].
  - rewrite E in *. assert (ra ≤ rb) by lia.
    repeat match goal with |- context [?x <? ?y] => destruct (Z.ltb_spec x y) end;
      destruct (Z.even qb); lia.
  - repeat match goal with |- context [?x <? ?y] => destruct (Z.ltb_spec x y) end;
      destruct (Z.even qa), (Z.even qb); lia.
Qed.

Lemma rhe_shift n k j : 0 ≤ k → 0 ≤ j → round_half_even (n * 10 ^ j) (k + j) = round_half_even n k.
Proof.
  intros Hk Hj. pose proof (pow10_gt0 k Hk). pose proof (pow10_gt0 j Hj).
  unfold round_half_even. rewrite pow10_add by done.
  rewrite Z.div_mul_cancel_r, Zmult_mod_distr_r by lia.
  set (r := n mod 10 ^ k). set (p := 10 ^ k) in *. set (t := 10 ^ j) in *.
  assert ((2 * (r * t) <? p * t) = (2 * r <? p)) as ->.
  { apply eq_true_iff_eq. rewrite !Z.ltb_lt. nia. }
  assert ((p * t <? 2 * (r * t)) = (p <? 2 * r)) as ->; [|done].
  apply eq_true_iff_eq. rewrite !Z.ltb_lt. nia.
Qed.

Lemma rhe_nonneg n k : 0 ≤ k → 0 ≤ n → 0 ≤ round_half_even n k.
Proof.
  intros Hk Hn. rewrite <- (rhe_multiple 0 k Hk). apply rhe_mono; lia.
Qed.

(** ** Context rounding as a function on integers at scale [m] *)

Definition unit_exp (m n : Z) : Z := Z.max 0 (Z.max (ndigits n - prec) (Etiny - m)).
Definition rnd_abs (m n : Z) : Z :=
  if n =? 0 then 0 else round_half_even n (unit_exp m n) * 10 ^ unit_exp m n.
Definition rnd (m x : Z) : Z := Z.sgn x * rnd_abs m (Z.abs x).

Lemma unit_exp_nonneg m n : 0 ≤ unit_exp m n.
Proof. unfold unit_exp. lia. Qed.
#[export] Hint Resolve unit_exp_nonneg : s2p.

Lemma rnd_abs_nonneg m n : 0 ≤ n → 0 ≤ rnd_abs m n.
Proof.
  intros Hn. unfold rnd_abs. case_match; [done|].
  apply Z.mul_nonneg_nonneg; [apply rhe_nonneg; auto with s2p|].
  apply Z.lt_le_incl. auto with s2p.
Qed.

(** A value below [10^(28 + k)] rounds to at most [10^(28 + k)] when the unit is [10^k]. *)
Lemma rnd_abs_upper m n : 0 < n → rnd_abs m n ≤ 10 ^ (prec + unit_exp m n).
Proof.
  intros Hn. unfold rnd_abs. destruct (Z.eqb_spec n 0); [lia|].
  pose proof (unit_exp_nonneg m n) as Hk. set (k := unit_exp m n) in *.
  destruct (ndigits_spec n Hn) as (? & _ & Hlt).
  assert (n ≤ 10 ^ prec * 10 ^ k) as Hle.
  { rewrite <- pow10_add by (unfold prec; lia). etransitivity; [by apply Z.lt_le_incl|].
    apply pow10_le. unfold k, unit_exp, prec. lia. }
  apply (rhe_mono _ _ k Hk) in Hle. rewrite rhe_multiple in Hle by done.
  rewrite pow10_add by (unfold prec; lia). pose proof (pow10_gt0 k Hk). nia.
Qed.

Lemma rnd_abs_lower m n :
  0 < n → 0 < unit_exp m n → unit_exp m n = ndigits n - prec →
  10 ^ (prec - 1 + unit_exp m n) ≤ rnd_abs m n.
Proof.
  intros Hn Hk Hu. unfold rnd_abs. destruct (Z.eqb_spec n 0); [lia|].
  set (k := unit_exp m n) in *. destruct (ndigits_spec n Hn) as (? & Hge & _).
  assert (10 ^ (prec - 1) * 10 ^ k ≤ n) as Hle.
  { rewrite <- pow10_add by (unfold prec; lia).
    etransitivity; [|exact Hge]. apply pow10_le. lia. }
  apply (rhe_mono _ _ k ltac:(lia)) in Hle. rewrite rhe_multiple in Hle by lia.
  rewrite pow10_add by (unfold prec; lia). pose proof (pow10_gt0 k ltac:(lia)). nia.
Qed.

Lemma rnd_abs_mono m a b : 0 ≤ a ≤ b → rnd_abs m a ≤ rnd_abs m b.
Proof.
  intros Hab. destruct (Z.eq_dec a 0) as [->|Ha].
  { unfold rnd_abs at 1. cbn. apply rnd_abs_nonneg. lia. }
  assert (unit_exp m a ≤ unit_exp m b) as Hu.
  { unfold unit_exp. pose proof (ndigits_mono a b ltac:(lia)). lia. }
  destruct (Z.eq_dec (unit_exp m a) (unit_exp m b)) as [E|].
  - unfold rnd_abs. rewrite E. destruct (Z.eqb_spec a 0), (Z.eqb_spec b 0); try lia.
    pose proof (rhe_mono a b (unit_exp m b) ltac:(auto with s2p) ltac:(lia)).
    pose proof (pow10_gt0 (unit_exp m b) ltac:(auto with s2p)). nia.
  - pose proof (unit_exp_nonneg m a).
    etransitivity; [apply rnd_abs_upper; lia|].
    etransitivity; [|apply rnd_abs_lower; [lia|lia|]].
    + apply pow10_le. lia.
    + unfold unit_exp in *. pose proof (ndigits_mono a b ltac:(lia)). lia.
Qed.

(** Rounding is monotone. *)
Lemma rnd_mono m x y : x ≤ y → rnd m x ≤ rnd m y.
Proof.
  intros Hxy. unfold rnd.
  pose proof (rnd_abs_nonneg m (Z.abs x) ltac:(lia)).
  pose proof (rnd_abs_nonneg m (Z.abs y) ltac:(lia)).
  destruct (Z.lt_trichotomy x 0) as [|[->|]], (Z.lt_trichotomy y 0) as [|[->|]];
    rewrite ?Z.sgn_neg, ?Z.sgn_pos, ?Z.sgn_0 by lia; try lia.
  - pose proof (rnd_abs_mono m (Z.abs y) (Z.abs x) ltac:(lia)). lia.
  - pose proof (rnd_abs_mono m (Z.abs x) (Z.abs y) ltac:(lia)). lia.
Qed.

Lemma rnd_0 m : rnd m 0 = 0.
Proof. reflexivity. Qed.

Lemma rnd_nonneg m x : 0 ≤ x → 0 ≤ rnd m x.
Proof. intros H. rewrite <- (rnd_0 m). by apply rnd_mono. Qed.

(** Values of at most 28 digits, in range, are exact. *)
Lemma rnd_exact m c j :
  0 ≤ j → Z.abs c < 10 ^ prec → Etiny ≤ m + j → rnd m (c * 10 ^ j) = c * 10 ^ j.
Proof.
  intros Hj Hc Ht. destruct (Z.eq_dec c 0) as [->|Hn]; [done|].
  pose proof (pow10_gt0 j Hj). unfold rnd.
  assert (rnd_abs m (Z.abs (c * 10 ^ j)) = Z.abs (c * 10 ^ j)) as ->;
    [|rewrite Z.mul_comm; apply Z.abs_sgn].
  rewrite Z.abs_mul, (Z.abs_eq (10 ^ j)) by lia. set (a := Z.abs c) in *.
  unfold rnd_abs. destruct (Z.eqb_spec (a * 10 ^ j) 0); [nia|].
  set (k := unit_exp m (a * 10 ^ j)).
  assert (0 ≤ k ≤ j) as Hk.
  { unfold k, unit_exp. rewrite ndigits_shift by lia.
    pose proof (ndigits_le a prec ltac:(unfold prec; lia) ltac:(lia)). lia. }
  replace (a * 10 ^ j) with ((a * 10 ^ (j - k)) * 10 ^ k).
  - by rewrite rhe_multiple by lia.
  - rewrite <- Z.mul_assoc, <- pow10_add by lia. f_equal. f_equal. lia.
Qed.

(** ** Finite decimals at a scale *)

Definition exp_of (d : decimal) : Z := match d with DFin _ e => e | _ => 0 end.
(** The value of a finite decimal in units of [10^m], for [m] at most its exponent. *)
Definition sc (m : Z) (d : decimal) : Z := match d with DFin c e => c * 10 ^ (e - m) | _ => 0 end.
(** [m] is a scale for [d]: [d] is finite and its exponent is at least [m]. *)
Definition fits (m : Z) (d : decimal) : Prop := is_finite d = true ∧ m ≤ exp_of d.

Lemma fits_inv m d : fits m d → ∃ c e, d = DFin c e ∧ m ≤ e.
Proof. intros [H ?]. destruct d; try discriminate. eauto. Qed.

Lemma fits_D m c : m ≤ 0 → fits m (D c).
Proof. by split. Qed.

Lemma fits_finite d : is_finite d = true → fits (exp_of d) d.
Proof. by split. Qed.

Lemma fits_le m m' d : m' ≤ m → fits m d → fits m' d.
Proof. intros ? [? ?]; split; [done|lia]. Qed.

#[export] Hint Resolve fits_finite fits_D : s2p.

Lemma quot10_signed q : Z.abs q = 10 ^ prec → q ÷ 10 * 10 = q.
Proof.
  unfold prec. intros H. assert (q = 10 ^ 28 ∨ q = - 10 ^ 28) as [->| ->] by lia; reflexivity.
Qed.

Lemma dfix_exp m c e d : dfix c e = Ok d → m ≤ e → m ≤ Emax → fits m d.
Proof.
  unfold dfix, raise. intros H He HE.
  repeat case_match; simplify_eq/=; split; try done; cbn [exp_of]; try lia.
  all: match goal with Hl : (?e <? _) = true |- _ => apply Z.ltb_lt in Hl; lia end.
Qed.

(** The context rounding of a finite result is [rnd] at every scale below its exponent. *)
Lemma dfix_sc m c e d : dfix c e = Ok d → m ≤ e → sc m d = rnd m (c * 10 ^ (e - m)).
Proof.
  unfold dfix, raise. intros H He.
  destruct (Z.eqb_spec c 0) as [->|Hc]; [by simplify_eq/=; rewrite !Z.mul_0_l|].
  set (nd := ndigits (Z.abs c)) in *. destruct (Etop <? nd + e - prec); [discriminate|].
  set (x := Z.max (nd + e - prec) Etiny) in *.
  destruct (ndigits_spec (Z.abs c) ltac:(lia)) as (Hd & _ & Hlt). fold nd in Hd, Hlt.
  destruct (Z.ltb_spec e x) as [Hx|Hx].
  - pose proof (pow10_gt0 (e - m) ltac:(lia)) as Hp.
    assert (rnd m (c * 10 ^ (e - m)) = round_signed c (x - e) * 10 ^ (x - m)) as ->.
    { unfold rnd, round_signed, rnd_abs.
      rewrite Z.abs_mul, (Z.abs_eq (10 ^ _)), Z.sgn_mul, (Z.sgn_pos (10 ^ _)), Z.mul_1_r by lia.
      destruct (Z.eqb_spec (Z.abs c * 10 ^ (e - m)) 0); [nia|].
      assert (unit_exp m (Z.abs c * 10 ^ (e - m)) = (x - e) + (e - m)) as ->.
      { unfold unit_exp. rewrite ndigits_shift by lia. fold nd. lia. }
      rewrite rhe_shift by lia. replace (x - e + (e - m)) with (x - m) by lia. lia. }
    destruct (Z.leb_spec (10 ^ prec) (Z.abs (round_signed c (x - e)))) as [Hq|Hq].
    + destruct (Etop <? x + 1); simplify_eq/=.
      assert (Z.abs (round_signed c (x - e)) = 10 ^ prec) as E.
      { unfold round_signed in *.
        assert (round_half_even (Z.abs c) (x - e) ≤ 10 ^ prec).
        { rewrite <- (rhe_multiple (10 ^ prec) (x - e)) by lia. apply rhe_mono; [lia|].
          rewrite <- pow10_add by (unfold prec; lia).
          etransitivity; [apply Z.lt_le_incl; exact Hlt|]. apply pow10_le. lia. }
        pose proof (rhe_nonneg (Z.abs c) (x - e)). nia. }
      replace (x + 1 - m) with (1 + (x - m)) by lia. rewrite pow10_add by lia.
      change (10 ^ 1) with 10. rewrite Z.mul_assoc, quot10_signed by done. done.
    + by simplify_eq/=.
  - simplify_eq/=. symmetry. apply rnd_exact; [lia| |lia].
    eapply Z.lt_le_trans; [exact Hlt|]. apply pow10_le. lia.
Qed.

Lemma sc_DFin m c e : sc m (DFin c e) = c * 10 ^ (e - m).
Proof. reflexivity. Qed.

Lemma sc_shift m m' d : fits m d → m' ≤ m → sc m' d = sc m d * 10 ^ (m - m').
Proof.
  intros (c & e & -> & He)%fits_inv Hm. cbn. rewrite <- Z.mul_assoc, <- pow10_add by lia.
  do 2 f_equal. lia.
Qed.

Lemma dadd_sc m a b d :
  dadd a b = Ok d → fits m a → fits m b → sc m d = rnd m (sc m a + sc m b).
Proof.
  intros H (c1 & e1 & -> & H1)%fits_inv (c2 & e2 & -> & H2)%fits_inv. cbn in H.
  apply (dfix_sc m) in H as ->; [|lia]. cbn. f_equal.
  rewrite Z.mul_add_distr_r, <- !Z.mul_assoc, <- !pow10_add by lia.
  f_equal; f_equal; f_equal; lia.
Qed.

Lemma dadd_fits m a b d : dadd a b = Ok d → fits m a → fits m b → m ≤ Emax → fits m d.
Proof.
  intros H (c1 & e1 & -> & H1)%fits_inv (c2 & e2 & -> & H2)%fits_inv HE. cbn in H.
  eapply dfix_exp; eauto. lia.
Qed.

Lemma dmul_sc m1 m2 a b d :
  dmul a b = Ok d → fits m1 a → fits m2 b → sc (m1 + m2) d = rnd (m1 + m2) (sc m1 a * sc m2 b).
Proof.
  intros H (c1 & e1 & -> & H1)%fits_inv (c2 & e2 & -> & H2)%fits_inv. cbn in H.
  assert (dfix (c1 * c2) (e1 + e2) = Ok d) as H' by (destruct c1, c2; exact H).
  apply (dfix_sc (m1 + m2)) in H' as ->; [|lia]. cbn. f_equal.
  replace (e1 + e2 - (m1 + m2)) with ((e1 - m1) + (e2 - m2)) by lia.
  rewrite pow10_add by lia. ring.
Qed.

Lemma dmul_fits m1 m2 a b d :
  dmul a b = Ok d → fits m1 a → fits m2 b → m1 + m2 ≤ Emax → fits (m1 + m2) d.
Proof.
  intros H (c1 & e1 & -> & H1)%fits_inv (c2 & e2 & -> & H2)%fits_inv HE. cbn in H.
  assert (dfix (c1 * c2) (e1 + e2) = Ok d) as H' by (destruct c1, c2; exact H).
  eapply dfix_exp; eauto. lia.
Qed.

(** ** Comparison at a scale *)

Lemma dcmp_sc m a b : fits m a → fits m b → dcmp a b = Some (sc m a ?= sc m b).
Proof.
  intros (c1 & e1 & -> & H1)%fits_inv (c2 & e2 & -> & H2)%fits_inv. cbn. f_equal. unfold fcmp.
  set (x := Z.min e1 e2).
  replace (e1 - m) with ((e1 - x) + (x - m)) by lia.
  replace (e2 - m) with ((e2 - x) + (x - m)) by lia.
  rewrite !pow10_add, !Z.mul_assoc by lia.
  pose proof (pow10_gt0 (x - m) ltac:(lia)).
  apply Zmult_compare_compat_r. lia.
Qed.

Lemma dlt_sc m a b : fits m a → fits m b → dlt a b = Ok (sc m a <? sc m b).
Proof. intros. unfold dlt, ordered, Z.ltb. by erewrite dcmp_sc. Qed.
Lemma dle_sc m a b : fits m a → fits m b → dle a b = Ok (sc m a <=? sc m b).
Proof. intros. unfold dle, ordered, Z.leb. by erewrite dcmp_sc. Qed.
Lemma dgt_sc m a b : fits m a → fits m b → dgt a b = Ok (sc m b <? sc m a).
Proof.
  intros. unfold dgt, ordered, Z.ltb. erewrite dcmp_sc by done.
  rewrite Z.compare_antisym. by destruct (_ ?= _).
Qed.
Lemma dge_sc m a b : fits m a → fits m b → dge a b = Ok (sc m b <=? sc m a).
Proof.
  intros. unfold dge, ordered, Z.leb. erewrite dcmp_sc by done.
  rewrite Z.compare_antisym. by destruct (_ ?= _).
Qed.
Lemma deq_sc m a b : fits m a → fits m b → deq a b = (sc m a =? sc m b).
Proof.
  intros. unfold deq. erewrite dcmp_sc by done. apply eq_true_iff_eq.
  rewrite bool_decide_eq_true, Z.eqb_eq, <- Z.compare_eq_iff. split; congruence.
Qed.

(** ** The order on finite decimals as a proposition *)

(** [a ≤ b] on finite decimals: comparison never raises there. *)
Definition dec_le (a b : decimal) : Prop :=
  is_finite a = true ∧ is_finite b = true ∧ dle a b = Ok true.
Definition dec_lt (a b : decimal) : Prop :=
  is_finite a = true ∧ is_finite b = true ∧ dlt a b = Ok true.

Definition scale2 (a b : decimal) : Z := Z.min (exp_of a) (exp_of b).

Lemma fits_scale2 a b :
  is_finite a = true → is_finite b = true → fits (scale2 a b) a ∧ fits (scale2 a b) b.
Proof. unfold scale2. split; split; (done || lia). Qed.

Lemma dec_le_sc m a b : fits m a → fits m b → dec_le a b ↔ sc m a ≤ sc m b.
Proof.
  intros Ha Hb. unfold dec_le. erewrite dle_sc by done. destruct Ha, Hb.
  split; [intros (_ & _ & [= E]); lia|intros E; split_and!; try done; f_equal; lia].
Qed.
Lemma dec_lt_sc m a b : fits m a → fits m b → dec_lt a b ↔ sc m a < sc m b.
Proof.
  intros Ha Hb. unfold dec_lt. erewrite dlt_sc by done. destruct Ha, Hb.
  split; [intros (_ & _ & [= E]); lia|intros E; split_and!; try done; f_equal; lia].
Qed.

Lemma dec_le_refl a : is_finite a = true → dec_le a a.
Proof. intros H. apply (dec_le_sc (exp_of a)); auto with s2p. lia. Qed.

Lemma dec_le_trans a b c : dec_le a b → dec_le b c → dec_le a c.
Proof.
  intros Hab Hbc. pose proof Hab as (Fa & Fb & _). pose proof Hbc as (_ & Fc & _).
  set (m := Z.min (exp_of a) (Z.min (exp_of b) (exp_of c))).
  assert (fits m a ∧ fits m b ∧ fits m c) as (? & ? & ?) by (repeat split; (done || lia)).
  rewrite (dec_le_sc m) in * by done. lia.
Qed.

Lemma dec_le_lt_dec a b : is_finite a = true → is_finite b = true → dec_le a b ∨ dec_lt b a.
Proof.
  intros Ha Hb. destruct (fits_scale2 a b) as [Fa Fb]; [done..|].
  rewrite (dec_le_sc _ _ _ Fa Fb), (dec_lt_sc _ _ _ Fb Fa). lia.
Qed.

Lemma dgt_false_le a b : dgt a b = Ok false → is_finite a = true → is_finite b = true → dec_le a b.
Proof.
  intros H Ha Hb. destruct (fits_scale2 a b) as [Fa Fb]; [done..|].
  rewrite (dec_le_sc _ _ _ Fa Fb). erewrite dgt_sc in H by done. injection H. lia.
Qed.
Lemma dle_false_lt a b : dle a b = Ok false → is_finite a = true → is_finite b = true → dec_lt b a.
Proof.
  intros H Ha Hb. destruct (fits_scale2 a b) as [Fa Fb]; [done..|].
  rewrite (dec_lt_sc _ _ _ Fb Fa). erewrite dle_sc in H by done. injection H. lia.
Qed.
Lemma dec_lt_le a b : dec_lt a b → dec_le a b.
Proof.
  intros H. pose proof H as (Ha & Hb & _). destruct (fits_scale2 a b) as [Fa Fb]; [done..|].
  rewrite (dec_le_sc _ _ _ Fa Fb). rewrite (dec_lt_sc _ _ _ Fa Fb) in H. lia.
Qed.
Lemma dec_le_lt_trans a b c : dec_le a b → dec_lt b c → dec_lt a c.
Proof.
  intros Hab Hbc. pose proof Hab as (Fa & Fb & _). pose proof Hbc as (_ & Fc & _).
  set (m := Z.min (exp_of a) (Z.min (exp_of b) (exp_of c))).
  assert (fits m a ∧ fits m b ∧ fits m c) as (? & ? & ?) by (repeat split; (done || lia)).
  rewrite (dec_le_sc m) in Hab by done. rewrite (dec_lt_sc m) in * by done. lia.
Qed.

(** A finite result of an addition. *)
Lemma dadd_finite a b d :
  dadd a b = Ok d → is_finite a = true → is_finite b = true → is_finite d = true.
Proof.
  intros H Ha Hb. destruct a as [c1 e1| |], b as [c2 e2| |]; try discriminate. cbn in H.
  unfold dfix, raise in H. repeat case_match; by simplify_eq/=.
Qed.

Lemma dadd_mono_nonneg a b d :
  dadd a b = Ok d → dec_le D_ZERO a → dec_le D_ZERO b → dec_le D_ZERO d.
Proof.
  intros H Ha Hb. pose proof Ha as (_ & Fa & _). pose proof Hb as (_ & Fb & _).
  set (m := Z.min 0 (Z.min (exp_of a) (exp_of b))).
  assert (fits m a ∧ fits m b) as (? & ?) by (repeat split; (done || lia)).
  assert (fits m D_ZERO) as F0 by (apply fits_D; lia).
  assert (fits m d) as Fd by (eapply dadd_fits; eauto; unfold Emax; lia).
  rewrite (dec_le_sc m) in * by done.
  rewrite (dadd_sc m _ _ _ H) by done. change (sc m D_ZERO) with 0 in *. apply rnd_nonneg. lia.
Qed.

Lemma dmax_or a b d : dmax a b = Ok d → d = a ∨ d = b.
Proof. unfold dmax. intros H. ok_inv. subst. case_match; auto. Qed.

Lemma dmax_ge a b d :
  dmax a b = Ok d → is_finite a = true → is_finite b = true → dec_le a d ∧ dec_le b d.
Proof.
  unfold dmax. intros H Ha Hb. ok_inv. subst.
  destruct (fits_scale2 a b) as [Fa Fb]; [done..|].
  erewrite dgt_sc in E by done. injection E. clear E. intros E.
  destruct a0; rewrite !(dec_le_sc (scale2 a b)) by done; lia.
Qed.

Lemma dmin_le a b d :
  dmin a b = Ok d → is_finite a = true → is_finite b = true → dec_le d a ∧ dec_le d b.
Proof.
  unfold dmin. intros H Ha Hb. ok_inv. subst.
  destruct (fits_scale2 a b) as [Fa Fb]; [done..|].
  erewrite dlt_sc in E by done. injection E. clear E. intros E.
  destruct a0; rewrite !(dec_le_sc (scale2 a b)) by done; lia.
Qed.

#[export] Hint Resolve dec_le_refl dec_lt_le : s2p.

(** ** Operations that cannot overflow *)

Lemma dfix_total c e : c = 0 ∨ ndigits (Z.abs c) + e ≤ prec → ∃ d, dfix c e = Ok d.
Proof.
  intros H. unfold dfix, raise, Etop, Etiny, Emin, Emax, prec in *.
  destruct (Z.eqb_spec c 0); [by eexists|]. destruct H as [|H]; [done|].
  repeat match goal with |- context [Z.ltb ?a ?b] => destruct (Z.ltb_spec a b) end; try lia;
    try (by eexists).
  destruct (_ <=? _); by eexists.
Qed.

Lemma dadd_total m a b :
  fits m a → fits m b → m ≤ 0 → Z.abs (sc m a + sc m b) < 10 ^ prec → ∃ d, dadd a b = Ok d.
Proof.
  intros (c1 & e1 & -> & H1)%fits_inv (c2 & e2 & -> & H2)%fits_inv Hm H. cbn [sc] in H.
  unfold dadd. apply dfix_total. set (k := Z.min e1 e2) in *.
  assert (c1 * 10 ^ (e1 - m) + c2 * 10 ^ (e2 - m)
          = (c1 * 10 ^ (e1 - k) + c2 * 10 ^ (e2 - k)) * 10 ^ (k - m)) as Hs.
  { replace (e1 - m) with ((e1 - k) + (k - m)) by lia.
    replace (e2 - m) with ((e2 - k) + (k - m)) by lia. rewrite !pow10_add by lia. ring. }
  rewrite Hs in H. set (c := c1 * _ + c2 * _) in *. clearbody c.
  destruct (Z.eq_dec c 0); [by left|right].
  assert (ndigits (Z.abs c) + (k - m) ≤ prec); [|lia].
  rewrite <- (ndigits_shift (Z.abs c)) by lia. apply ndigits_le; [done|].
  pose proof (pow10_gt0 (k - m) ltac:(lia)). rewrite Z.abs_mul in H. nia.
Qed.

Lemma copy_negate_fits m a : fits m a → fits m (copy_negate a).
Proof. intros (c & e & -> & H)%fits_inv. by split. Qed.
Lemma copy_negate_sc m a : sc m (copy_negate a) = - sc m a.
Proof. destruct a; cbn; lia. Qed.

(** Exact sums: at most 28 digits in units of [10^m]. *)
Lemma dadd_exact m a b d :
  dadd a b = Ok d → fits m a → fits m b → Etiny ≤ m → Z.abs (sc m a + sc m b) < 10 ^ prec →
  sc m d = sc m a + sc m b.
Proof.
  intros H Ha Hb Hm Hlt. rewrite (dadd_sc m a b d) by done.
  pose proof (rnd_exact m (sc m a + sc m b) 0) as Hx. rewrite Z.pow_0_r, Z.mul_1_r in Hx.
  apply Hx; [done|done|lia].
Qed.
#[export] Hint Resolve copy_negate_fits : s2p.

(** Results of the context: at most 28 digits, not below [Etiny]. *)
Definition rounded (d : decimal) : Prop :=
  match d with DFin c e => Z.abs c < 10 ^ prec ∧ Etiny ≤ e | _ => True end.

Lemma dfix_rounded c e d : dfix c e = Ok d → rounded d.
Proof.
  unfold dfix, raise. intros H. destruct (Z.eqb_spec c 0); [simplify_eq; split; [done|]|].
  { unfold Etiny, Emin, Emax, prec. lia. }
  destruct (Etop <? _); [discriminate|].
  destruct (Z.ltb_spec e (Z.max (ndigits (Z.abs c) + e - prec) Etiny)) as [Hx|Hx].
  - set (x := Z.max _ _) in *. set (q := round_signed _ _) in *.
    assert (Etiny ≤ x) by lia.
    destruct (Z.leb_spec (10 ^ prec) (Z.abs q)) as [Hq|Hq]; [|by simplify_eq].
    assert (Z.abs q = 10 ^ prec) as E.
    { apply Z.le_antisymm; [|done]. subst q. unfold round_signed.
      destruct (ndigits_spec (Z.abs c) ltac:(lia)) as (Hd & _ & Hlt).
      assert (round_half_even (Z.abs c) (x - e) ≤ 10 ^ prec).
      { rewrite <- (rhe_multiple (10 ^ prec) (x - e)) by lia. apply rhe_mono; [lia|].
        rewrite <- pow10_add by (unfold prec; lia).
        etransitivity; [apply Z.lt_le_incl; exact Hlt|]. apply pow10_le. lia. }
      pose proof (rhe_nonneg (Z.abs c) (x - e)). nia. }
    destruct (Etop <? x + 1); simplify_eq. split; [|lia].
    pose proof (quot10_signed q E) as Hq10. revert E Hq10. unfold prec.
    generalize (q ÷ 10). generalize q. clear. lia.
  - simplify_eq. split; [|lia].
    destruct (ndigits_spec (Z.abs c) ltac:(lia)) as (Hd & _ & Hlt).
    eapply Z.lt_le_trans; [exact Hlt|]. apply pow10_le. lia.
Qed.

Lemma dadd_rounded a b d :
  dadd a b = Ok d → is_finite a = true → is_finite b = true → rounded d.
Proof. destruct a, b; try done. intros H _ _. by apply dfix_rounded in H. Qed.

Lemma rounded_rnd m d : rounded d → fits m d → rnd m (sc m d) = sc m d.
Proof.
  intros Hr (c & e & -> & He)%fits_inv. destruct Hr. apply rnd_exact; [lia|done|lia].
Qed.

(** Subtracting a non-negative amount does not increase a context result. *)
Lemma dsub_le a b d :
  dsub a b = Ok d → rounded a → is_finite a = true → dec_le D_ZERO b → dec_le d a.
Proof.
  unfold dsub. intros H Hr Fa (_ & Fb & Hb).
  set (m := Z.min 0 (Z.min (exp_of a) (exp_of b))).
  assert (fits m a) as F1 by (split; [done|lia]).
  assert (fits m b) as F2 by (split; [done|lia]).
  assert (fits m d) as F3 by (eapply dadd_fits; eauto with s2p; unfold Emax; lia).
  rewrite (dec_le_sc m), (dadd_sc m _ _ _ H), copy_negate_sc by auto with s2p.
  rewrite (dle_sc m) in Hb by (done || by apply fits_D; lia).
  change (sc m D_ZERO) with 0 in Hb. injection Hb as Hb%Z.leb_le.
  rewrite <- (rounded_rnd m a) at 2 by done. apply rnd_mono. lia.
Qed.
