(* ===== verification/DecimalText.v ===== *)
(** * Decimals as text

    [Decimal(format(d, "f"))] gives back the value of [d]: what is written on the wire for an amount
    is that amount. *)
From S2P Require Import Prelude PyStr PyDecimal DecimalFacts.

(** ** Plain numerals *)

Definition digits_only (s : pystr) : Prop := forallb is_digit s = true.

Lemma digits_only_app a b : digits_only (a ++ b) ↔ digits_only a ∧ digits_only b.
Proof. unfold digits_only. by rewrite forallb_app, andb_true_iff. Qed.
Lemma digits_only_zeros n : digits_only (zeros n).
Proof. unfold digits_only, zeros. induction (Z.to_nat n); [done|]. done. Qed.
Lemma digits_only_take n s : digits_only s → digits_only (take n s).
Proof. rewrite <- (take_drop n s) at 1. rewrite digits_only_app. tauto. Qed.
Lemma digits_only_drop n s : digits_only s → digits_only (drop n s).
Proof. rewrite <- (take_drop n s) at 1. rewrite digits_only_app. tauto. Qed.

Lemma is_digit_range c : is_digit c = true ↔ (48 <= c <= 57)%N.
Proof. unfold is_digit, in_range. rewrite andb_true_iff, !N.leb_le. done. Qed.

(** Characters of a plain numeral: digits, a point, a sign. *)
Definition plain (c : N) : bool := is_digit c || (c =? 45)%N || (c =? 46)%N.

Lemma plain_not_space c : plain c = true → is_space c = false.
Proof.
  intros H. assert (45 <= c <= 57)%N by
    (unfold plain in H; rewrite !orb_true_iff, is_digit_range, !N.eqb_eq in H; lia).
  assert (c = 45 ∨ c = 46 ∨ c = 47 ∨ c = 48 ∨ c = 49 ∨ c = 50 ∨ c = 51 ∨ c = 52 ∨ c = 53 ∨ c = 54 ∨
          c = 55 ∨ c = 56 ∨ c = 57)%N as Hc by lia.
  repeat destruct Hc as [->|Hc]; [vm_compute; reflexivity..|subst c; vm_compute; reflexivity].
Qed.

Lemma lstrip_plain s : forallb plain s = true → lstrip s = s.
Proof. destruct s as [|c s]; [done|]. cbn. intros [H _]%andb_true_iff. by rewrite plain_not_space. Qed.

Lemma forallb_rev {A} (f : A → bool) l : forallb f (reverse l) = forallb f l.
Proof.
  induction l as [|x l IH]; [done|]. rewrite reverse_cons, forallb_app, IH. cbn.
  rewrite andb_true_r. apply andb_comm.
Qed.

Lemma strip_plain s : forallb plain s = true → strip s = s.
Proof.
  intros H. unfold strip. rewrite (lstrip_plain s) by done.
  rewrite lstrip_plain by by rewrite forallb_rev. apply reverse_involutive.
Qed.

Lemma drop_underscore_plain s : forallb plain s = true → filter (λ c, c ≠ 95%N) s = s.
Proof.
  induction s as [|c s IH]; [done|]. cbn [forallb]. intros [Hc Hs]%andb_true_iff.
  rewrite filter_cons_True, IH; [done..|]. intros ->. done.
Qed.

Lemma digits_plain s : digits_only s → forallb plain s = true.
Proof.
  unfold digits_only. rewrite !forallb_forall. intros H c Hc%H. unfold plain. by rewrite Hc.
Qed.

Lemma split_at_none p s : forallb (λ c, negb (p c)) s = true → split_at p s = (s, None).
Proof.
  unfold split_at. cbv zeta. match goal with |- _ → ?f _ _ = _ => set (go := f) end.
  assert (∀ pre, forallb (λ c, negb (p c)) s = true → go pre s = (reverse pre ++ s, None)) as H.
  { induction s as [|c s IH]; intros pre; cbn; [by rewrite app_nil_r|].
    intros [Hc Hs]%andb_true_iff. apply negb_true_iff in Hc. rewrite Hc.
    rewrite IH by done. by rewrite reverse_cons, <- app_assoc. }
  intros Hs. by rewrite H.
Qed.

Lemma split_at_some p a c b :
  forallb (λ c, negb (p c)) a = true → p c = true → split_at p (a ++ c :: b) = (a, Some b).
Proof.
  unfold split_at. cbv zeta. intros Ha Hp. match goal with |- ?f _ _ = _ => set (go := f) end.
  assert (∀ pre, forallb (λ c, negb (p c)) a = true → go pre (a ++ c :: b) = (reverse pre ++ a, Some b)) as H.
  { clear Ha. induction a as [|d a IH]; intros pre; cbn; [by rewrite Hp, app_nil_r|].
    intros [Hd Ha]%andb_true_iff. apply negb_true_iff in Hd. rewrite Hd.
    rewrite IH by done. by rewrite reverse_cons, <- app_assoc. }
  by rewrite H.
Qed.

Lemma digit_not_one_of cs s :
  digits_only s → forallb (λ c, negb (is_digit c)) cs = true → forallb (λ c, negb (one_of cs c)) s = true.
Proof.
  unfold digits_only. rewrite !forallb_forall. intros Hs Hcs c Hc. apply Hs in Hc.
  unfold one_of. case_bool_decide as Hin; [|done]. apply list_elem_of_In, Hcs in Hin. by rewrite Hc in Hin.
Qed.

(** The value of a numeral without exponent. *)
Definition numeral (neg : bool) (ip : pystr) (fp : option pystr) : decimal :=
  let c := Z.of_N (num_of_digits 0 (ip ++ default [] fp)) in
  DFin (if neg then - c else c) (- Z.of_nat (length (default [] fp))).

Lemma dec_body_numeral neg ip fp :
  digits_only ip → digits_only (default [] fp) → ip ≠ [] →
  dec_body neg (ip ++ match fp with Some f => 46%N :: f | None => [] end) = Some (numeral neg ip fp).
Proof.
  intros Hi Hf Hne. unfold dec_body.
  rewrite split_at_none.
  2: { rewrite forallb_app, (digit_not_one_of (u "eE")) by done. destruct fp as [f|]; [|done].
       cbn [forallb]. by rewrite (digit_not_one_of (u "eE")). }
  assert (split_at (one_of (u ".")) (ip ++ match fp with Some f => 46%N :: f | None => [] end) = (ip, fp))
    as ->.
  { destruct fp as [f|]; [apply split_at_some; [by apply digit_not_one_of|done]|].
    rewrite app_nil_r. apply split_at_none. by apply digit_not_one_of. }
  assert (forallb is_digit (ip ++ default [] fp) = true) as -> by by apply digits_only_app.
  rewrite bool_decide_eq_false_2 by (destruct ip; done). cbn [negb orb]. done.
Qed.

Lemma first_digit_no_word c s :
  is_digit c = true →
  bool_decide (lower (c :: s) = u "inf") = false ∧ bool_decide (lower (c :: s) = u "infinity") = false ∧
  starts_with (u "nan") (lower (c :: s)) = false ∧ starts_with (u "snan") (lower (c :: s)) = false.
Proof.
  intros Hc. assert (lower_char c = c) as El.
  { apply is_digit_range in Hc. unfold lower_char. destruct (N.leb_spec 65 c); [lia|done]. }
  apply is_digit_range in Hc.
  unfold starts_with, lower. cbn [fmap list_fmap]. rewrite El.
  repeat split; apply bool_decide_eq_false_2; cbn; intros [= -> _]; lia.
Qed.

Lemma dec_of_numeral (neg : bool) ip fp :
  digits_only ip → digits_only (default [] fp) → ip ≠ [] →
  dec_of_str ((if neg then u "-" else []) ++ ip ++ match fp with Some f => 46%N :: f | None => [] end)
  = Some (numeral neg ip fp).
Proof.
  intros Hi Hf Hne. set (body := ip ++ _).
  assert (forallb plain body = true) as Hb.
  { unfold body. rewrite forallb_app, digits_plain by done. destruct fp as [f|]; [|done].
    cbn [forallb]. by rewrite digits_plain. }
  assert (forallb plain ((if neg then u "-" else []) ++ body) = true) as Hp by (destruct neg; done).
  unfold dec_of_str. rewrite strip_plain, drop_underscore_plain by done.
  assert (∃ c r, body = c :: r ∧ is_digit c = true) as (c & r & Ebody & Hd).
  { unfold body. destruct ip as [|c ip]; [done|]. exists c. eexists. split; [reflexivity|].
    unfold digits_only in Hi. cbn in Hi. by apply andb_true_iff in Hi as [? _]. }
  assert (take_sign ((if neg then u "-" else []) ++ body) = (neg, body)) as ->.
  { destruct neg; [done|]. cbn [app]. rewrite Ebody. apply is_digit_range in Hd as Hc.
    clear - Hc. destruct c as [|p]; [done|]. do 6 (destruct p as [p|p|]; try done; try lia). }
  destruct (first_digit_no_word c r Hd) as (H1 & H2 & H3 & H4). rewrite <- Ebody in H1, H2, H3, H4.
  rewrite H1, H2, H3, H4. cbn [orb]. by apply dec_body_numeral.
Qed.

(** ** [format(d, "f")] *)

Definition value_eq (a b : decimal) : Prop := is_finite a = true ∧ is_finite b = true ∧ deq a b = true.

Lemma numeral_value (neg : bool) ip fp c e :
  Z.of_N (num_of_digits 0 (ip ++ default [] fp)) = Z.abs c * 10 ^ (e + Z.of_nat (length (default [] fp))) →
  neg = (c <? 0) → 0 ≤ e + Z.of_nat (length (default [] fp)) →
  value_eq (numeral neg ip fp) (DFin c e).
Proof.
  intros Hn -> He. unfold value_eq, numeral. rewrite Hn.
  split_and!; [done..|]. set (k := Z.of_nat (length (default [] fp))) in *.
  rewrite (deq_sc (- k)); [|split; [done|cbn; lia]..]. rewrite !sc_DFin. apply Z.eqb_eq.
  replace (- k - - k) with 0 by lia. replace (e - - k) with (e + k) by lia.
  destruct (Z.ltb_spec c 0); rewrite ?Z.abs_neq, ?Z.abs_eq by lia; lia.
Qed.

Lemma num_zeros_l n s : num_of_digits 0 (zeros n ++ s) = num_of_digits 0 s.
Proof.
  rewrite num_of_digits_app. f_equal. unfold zeros. induction (Z.to_nat n) as [|k IH]; [done|]. exact IH.
Qed.
Lemma num_zeros_r s n :
  0 ≤ n → Z.of_N (num_of_digits 0 (s ++ zeros n)) = Z.of_N (num_of_digits 0 s) * 10 ^ n.
Proof.
  intros Hn. rewrite num_of_digits_app. generalize (num_of_digits 0 s) as a. unfold zeros.
  replace (10 ^ n) with (10 ^ Z.of_nat (Z.to_nat n)) by (by rewrite Z2Nat.id). induction (Z.to_nat n) as [|k IH]; intros a; [cbn; lia|].
  cbn [replicate num_of_digits]. rewrite IH, Nat2Z.inj_succ, Z.pow_succ_r by lia. lia.
Qed.

Lemma abs_digits c : Z.of_N (num_of_digits 0 (digits (Z.abs_N c))) = Z.abs c.
Proof. rewrite num_of_digits_digits. lia. Qed.

Lemma format_roundtrip c e :
  ∃ d, dec_of_str (format_f (DFin c e)) = Some d ∧ value_eq d (DFin c e).
Proof.
  unfold format_f. cbn zeta. set (ds := digits (Z.abs_N c)).
  assert (digits_only ds) as Hds by apply digits_all.
  assert (ds ≠ []) as Hne by apply digits_nonempty.
  assert (Z.of_N (num_of_digits 0 ds) = Z.abs c) as Habs by apply abs_digits.
  assert (∀ ip fp, digits_only ip → digits_only (default [] fp) → ip ≠ [] →
    Z.of_N (num_of_digits 0 (ip ++ default [] fp)) = Z.abs c * 10 ^ (e + Z.of_nat (length (default [] fp))) →
    0 ≤ e + Z.of_nat (length (default [] fp)) →
    ∃ d, dec_of_str ((if c <? 0 then u "-" else []) ++ ip ++
                     match fp with Some f => 46%N :: f | None => [] end) = Some d ∧
         value_eq d (DFin c e)) as Hgen.
  { intros ip fp Hi Hf Hn Hv He. exists (numeral (c <? 0) ip fp). split; [by apply dec_of_numeral|].
    by apply numeral_value. }
  destruct (Z.leb_spec 0 e) as [He|He].
  - specialize (Hgen (if c =? 0 then u "0" else ds ++ zeros e) None). rewrite app_nil_r in Hgen.
    cbn [default length Z.of_nat] in Hgen. rewrite Z.add_0_r, app_nil_r in Hgen. apply Hgen; try done.
    + destruct (c =? 0); [done|]. apply digits_only_app. split; [done|apply digits_only_zeros].
    + destruct (c =? 0); [done|]. by destruct ds.
    + destruct (Z.eqb_spec c 0) as [->|]; [done|]. rewrite num_zeros_r by done. by rewrite Habs.
  - destruct (Z.ltb_spec (- e) (Z.of_nat (length ds))) as [Hk|Hk].
    + set (k := Z.to_nat (Z.of_nat (length ds) - - e)).
      specialize (Hgen (take k ds) (Some (drop k ds))).
      apply Hgen; cbn [from_option id].
      * by apply digits_only_take.
      * by apply digits_only_drop.
      * assert (0 < k)%nat by (unfold k; lia). destruct k; [lia|]. by destruct ds.
      * rewrite take_drop, length_drop. rewrite Habs.
        replace (e + Z.of_nat (length ds - k)) with 0 by (unfold k; lia). lia.
      * rewrite length_drop. unfold k. lia.
    + specialize (Hgen (u "0") (Some (zeros (- e - Z.of_nat (length ds)) ++ ds))).
      assert (Z.of_nat (length (zeros (- e - Z.of_nat (length ds)) ++ ds)) = - e) as Hlen.
      { rewrite length_app. unfold zeros. rewrite length_replicate. lia. }
      apply Hgen; cbn [from_option id]; try done.
      * apply digits_only_app. split; [apply digits_only_zeros|done].
      * rewrite Hlen, Z.add_opp_diag_r. change (u "0" ++ ?x) with (zeros 1 ++ x).
        rewrite !num_zeros_l. rewrite Habs. lia.
      * lia.
Qed.
