(* ===== verification/PyFloat.v ===== *)
(** * Python floats

    The binary64 number that the text of a float literal denotes (correctly rounded, ties to even,
    as [float(text)] does), and the exact comparison [==] of floats and integers. *)
From S2P Require Import Prelude PyStr PyDecimal.

Inductive pyfloat :=
  | FFin (m e : Z)          (** m * 2^e *)
  | FInf (neg : bool)
  | FNaN.

(** [n / d] to the nearest integer, ties to even. *)
Definition div_half_even (n d : Z) : Z :=
  let q := n / d in
  let r := n mod d in
  if 2 * r <? d then q else if d <? 2 * r then q + 1 else if Z.even q then q else q + 1.

Definition max_mantissa : Z := 2 ^ 53.
Definition min_exponent : Z := -1074.
Definition max_exponent : Z := 971.

(** [floor(log2(n / d))] for positive [n], [d]. *)
Definition log2_ratio (n d : Z) : Z :=
  let k := Z.log2 n - Z.log2 d in
  if n * 2 ^ Z.max 0 (- k) <? d * 2 ^ Z.max 0 k then k - 1 else k.

(** The float nearest to [n / d], [n], [d] positive. *)
Definition float_of_ratio (neg : bool) (n d : Z) : pyfloat :=
  let e := Z.max min_exponent (log2_ratio n d - 52) in
  let m := if 0 <=? e then div_half_even n (d * 2 ^ e) else div_half_even (n * 2 ^ (- e)) d in
  if (max_exponent <? e) || (e =? max_exponent) && (max_mantissa <=? m) then FInf neg
  else FFin (if neg then - m else m) e.

(** The exponents at which [c * 10^e] is certainly infinite or certainly zero. *)
Definition too_big : Z := 400.
Definition too_small : Z := -400.

(** [float(text)] of a decimal literal. *)
Definition float_of_text (t : pystr) : pyfloat :=
  match dec_of_str t with
  | None | Some DNaN => FNaN
  | Some (DInf neg) => FInf neg
  | Some (DFin c e) =>
      let a := Z.abs c in
      let top := ndigits a + e in
      if (a =? 0) || (top <? too_small) then FFin 0 0
      else if too_big <? top then FInf (c <? 0)
      else if 0 <=? e then float_of_ratio (c <? 0) (a * 10 ^ e) 1
      else float_of_ratio (c <? 0) a (10 ^ (- e))
  end.

Definition float_eqb (a b : pyfloat) : bool :=
  match a, b with
  | FFin m1 e1, FFin m2 e2 =>
      let e := Z.min e1 e2 in m1 * 2 ^ (e1 - e) =? m2 * 2 ^ (e2 - e)
  | FInf n1, FInf n2 => Bool.eqb n1 n2
  | _, _ => false
  end.

Definition float_of_int (z : Z) : pyfloat := FFin z 0.

(** [float(z)], and [a / b] for a finite [a] and a positive finite [b]. *)
Definition round_int (z : Z) : pyfloat :=
  if z =? 0 then FFin 0 0 else float_of_ratio (z <? 0) (Z.abs z) 1.
Definition float_div (a b : pyfloat) : pyfloat :=
  match a, b with
  | FFin m1 e1, FFin m2 e2 =>
      if m1 =? 0 then FFin 0 0
      else float_of_ratio (m1 <? 0) (Z.abs m1 * 2 ^ Z.max 0 (e1 - e2)) (m2 * 2 ^ Z.max 0 (e2 - e1))
  | _, _ => FNaN
  end.

Definition float_ltb (a b : pyfloat) : bool :=
  match a, b with
  | FFin m1 e1, FFin m2 e2 =>
      let e := Z.min e1 e2 in m1 * 2 ^ (e1 - e) <? m2 * 2 ^ (e2 - e)
  | FInf true, FFin _ _ | FInf true, FInf false | FFin _ _, FInf false => true
  | _, _ => false
  end.

(** ** Arithmetic: the exact result, rounded once. The sign of a zero is not kept. *)

(** The float nearest to [n * 2^e]. *)
Definition round_dyadic (n e : Z) : pyfloat :=
  if n =? 0 then FFin 0 0
  else float_of_ratio (n <? 0) (Z.abs n * 2 ^ Z.max 0 e) (2 ^ Z.max 0 (- e)).

Definition float_neg (a : pyfloat) : pyfloat :=
  match a with FFin m e => FFin (- m) e | FInf neg => FInf (negb neg) | FNaN => FNaN end.
Definition float_abs (a : pyfloat) : pyfloat :=
  match a with FFin m e => FFin (Z.abs m) e | FInf _ => FInf false | FNaN => FNaN end.

Definition float_add (a b : pyfloat) : pyfloat :=
  match a, b with
  | FNaN, _ | _, FNaN => FNaN
  | FInf n, FInf m => if Bool.eqb n m then FInf n else FNaN
  | FInf n, _ => FInf n
  | _, FInf m => FInf m
  | FFin m1 e1, FFin m2 e2 =>
      let e := Z.min e1 e2 in round_dyadic (m1 * 2 ^ (e1 - e) + m2 * 2 ^ (e2 - e)) e
  end.
Definition float_sub (a b : pyfloat) : pyfloat := float_add a (float_neg b).

Definition float_sign (a : pyfloat) : bool := match a with FFin m _ => m <? 0 | FInf n => n | FNaN => false end.
Definition float_mul (a b : pyfloat) : pyfloat :=
  match a, b with
  | FNaN, _ | _, FNaN => FNaN
  | FFin m1 e1, FFin m2 e2 => round_dyadic (m1 * m2) (e1 + e2)
  | FInf _, FFin 0 _ | FFin 0 _, FInf _ => FNaN
  | _, _ => FInf (xorb (float_sign a) (float_sign b))
  end.

(** [a <= b]; false when either is a NaN. *)
Definition float_leb (a b : pyfloat) : bool := float_ltb a b || float_eqb a b.
Definition is_finite_float (a : pyfloat) : bool := match a with FFin _ _ => true | _ => false end.
(** The builtin [min(a, b)], [max(a, b)]. *)
Definition float_min (a b : pyfloat) : pyfloat := if float_ltb b a then b else a.
Definition float_max (a b : pyfloat) : pyfloat := if float_ltb a b then b else a.

(** A literal. *)
Definition fl (s : String.string) : pyfloat := float_of_text (u s).

Example float_arithmetic :
  float_eqb (float_add (fl "0.1") (fl "0.2")) (fl "0.30000000000000004") = true
  ∧ float_eqb (float_mul (fl "0.1") (fl "3")) (fl "0.30000000000000004") = true
  ∧ float_eqb (float_sub (fl "1") (fl "0.9")) (fl "0.09999999999999998") = true
  ∧ float_mul (fl "1e200") (fl "1e200") = FInf false ∧ float_mul (fl "-5e-324") (fl "0.5") = FFin 0 (-1074)
  ∧ float_add (FInf true) (FInf false) = FNaN ∧ float_leb (fl "0.5") (fl "0.5") = true.
Proof. vm_compute. repeat split. Qed.

(** ** [str(x)]: the shortest decimal that reads back as [x] *)

(** [floor(log10(n / d))] for positive [n], [d]. *)
Definition log10_ratio (n d : Z) : Z :=
  let k := ndigits n - ndigits d in
  if n * 10 ^ Z.max 0 (- k) <? d * 10 ^ Z.max 0 k then k - 1 else k.

(** The [count] digit decimals [c * 10^(k - count + 1)] around [n / d], nearest first. *)
Definition candidates (n d k count : Z) : list Z :=
  let s := count - 1 - k in
  let num := n * 10 ^ Z.max 0 s in
  let den := d * 10 ^ Z.max 0 (- s) in
  let lo := num / den in
  let near := div_half_even num den in
  [near; if near =? lo then lo + 1 else lo].

Definition reads_back (n d : Z) (c e : Z) : bool :=
  float_eqb (float_of_ratio false (c * 10 ^ Z.max 0 e) (10 ^ Z.max 0 (- e))) (float_of_ratio false n d).

Fixpoint shortest (fuel : nat) (n d k count : Z) : Z * Z :=
  let e := k - count + 1 in
  match fuel with
  | O => (div_half_even (n * 10 ^ Z.max 0 (- e)) (d * 10 ^ Z.max 0 e), e)
  | S fuel =>
      match List.find (λ c, (0 <? c) && reads_back n d c e) (candidates n d k count) with
      | Some c => (c, e)
      | None => shortest fuel n d k (count + 1)
      end
  end.

(** [repr] of a positive finite float with digits [c] and exponent [e]: positional when the point
    falls within the first sixteen digits or at most four places before them. *)
Definition float_text (c e : Z) : pystr :=
  let '(c, e) := strip_to 20 c e 400 in
  let ds := str_of_Z c in
  let n := Z.of_nat (length ds) in
  let point := n + e in
  if (-4 <? point) && (point <=? 16) then
    if point <=? 0 then u "0." ++ zeros (- point) ++ ds
    else if n <=? point then ds ++ zeros (point - n) ++ u ".0"
    else take (Z.to_nat point) ds ++ u "." ++ drop (Z.to_nat point) ds
  else
    let x := point - 1 in
    let xs := str_of_Z (Z.abs x) in
    take 1 ds ++ (if n =? 1 then [] else u "." ++ drop 1 ds) ++ u "e" ++ (if x <? 0 then u "-" else u "+")
    ++ (if Z.abs x <? 10 then u "0" else []) ++ xs.

(** [repr] of the finite float [m * 2^e]. *)
Definition fin_text (m e : Z) : pystr :=
  if m =? 0 then u "0.0"
  else
    let n := Z.abs m * 2 ^ Z.max 0 e in
    let d := 2 ^ Z.max 0 (- e) in
    let '(c, x) := shortest 17 n d (log10_ratio n d) 1 in
    (if m <? 0 then u "-" else []) ++ float_text c x.

(** [str(float(text))]; the sign of a zero is that of the text. *)
Definition float_str (t : pystr) : pystr :=
  match float_of_text t with
  | FNaN => u "nan"
  | FInf neg => if neg then u "-inf" else u "inf"
  | FFin m e => if (m =? 0) && bool_decide (take 1 t = u "-") then u "-0.0" else fin_text m e
  end.

Example float_str_examples :
  float_str (u "0.1") = u "0.1" ∧ float_str (u "100") = u "100.0" ∧ float_str (u "1e16") = u "1e+16"
  ∧ float_str (u "1234567890123456") = u "1234567890123456.0" ∧ float_str (u "0.0001") = u "0.0001"
  ∧ float_str (u "0.00001") = u "1e-05" ∧ float_str (u "-0.0") = u "-0.0"
  ∧ float_str (u "0.30000000000000004") = u "0.30000000000000004"
  ∧ float_str (u "5e-324") = u "5e-324" ∧ float_str (u "5.684341886080801486968994140625e-14") = u "5.684341886080802e-14"
  ∧ float_str (u "9007199254740993") = u "9007199254740992.0" ∧ float_str (u "-2.5e300") = u "-2.5e+300".
Proof. vm_compute. repeat split. Qed.

Example float_div_examples :
  float_div (round_int 1) (round_int 3) = FFin 6004799503160661 (-54)
  ∧ float_eqb (float_div (round_int 29999999999) (round_int 1000000000)) (float_of_text (u "29.999999999")) = true
  ∧ float_ltb (float_div (round_int (-1)) (round_int 1000000000)) (float_of_text (u "0")) = true
  ∧ float_ltb (float_of_text (u "30")) (float_div (round_int 30000000000) (round_int 1000000000)) = false.
Proof. vm_compute. repeat split. Qed.

Example float_eq_examples :
  float_eqb (float_of_text (u "0.1")) (float_of_text (u "0.10000000000000000001")) = true
  ∧ float_eqb (float_of_text (u "1.0")) (float_of_int 1) = true
  ∧ float_eqb (float_of_text (u "0.1")) (float_of_text (u "0.10000000000000002")) = false
  ∧ float_eqb (float_of_text (u "9007199254740993.0")) (float_of_int 9007199254740992) = true
  ∧ float_of_text (u "-1e400") = FInf true
  ∧ float_of_text (u "1.7976931348623157e308") = FFin (2 ^ 53 - 1) 971
  ∧ float_of_text (u "1.7976931348623159e308") = FInf false
  ∧ float_of_text (u "4.9e-324") = FFin 1 (-1074).
Proof. vm_compute. repeat split. Qed.
