(* ===== verification/PyFloatFacts.v ===== *)
(** * Python floats: bounds

    A correctly rounded result whose exact value is within the range of the floats is finite and
    stays within it, and comparisons are those of the exact values. *)
From S2P Require Import Prelude PyStr PyDecimal PyFloat.

(** The largest float is [(2^53 - 1) * 2^971]. Values are compared at a common exponent [-K]. *)
Definition max_float_m : Z := max_mantissa - 1.

Lemma pow2_pos k : 0 <= k → 0 < 2 ^ k.
Proof. intros. by apply Z.pow_pos_nonneg. Qed.
Lemma pow2_add a b : 0 <= a → 0 <= b → 2 ^ (a + b) = 2 ^ a * 2 ^ b.
Proof. intros. by apply Z.pow_add_r. Qed.

(** ** Rounding to an integer *)

Lemma half_even_near n d : 0 < d → 2 * Z.abs (div_half_even n d * d - n) <= d.
Proof.
  intros Hd. unfold div_half_even. pose proof (Z.div_mod n d ltac:(lia)) as H.
  pose proof (Z.mod_pos_bound n d Hd). set (q := n / d) in *. set (r := n mod d) in *.
  destruct (Z.ltb_spec (2 * r) d); [nia|]. destruct (Z.ltb_spec d (2 * r)); [nia|].
  destruct (Z.even q); nia.
Qed.
Lemma half_even_le n d q : 0 < d → n <= q * d → div_half_even n d <= q.
Proof.
  intros Hd H. unfold div_half_even. pose proof (Z.div_mod n d ltac:(lia)) as Hn.
  pose proof (Z.mod_pos_bound n d Hd). set (k := n / d) in *. set (r := n mod d) in *.
  assert (k < q ∨ k = q ∧ r = 0) by nia.
  destruct (Z.ltb_spec (2 * r) d); [lia|]. destruct (Z.ltb_spec d (2 * r)); [lia|].
  destruct (Z.even k); lia.
Qed.
Lemma half_even_ge n d q : 0 < d → q * d <= n → q <= div_half_even n d.
Proof.
  intros Hd H. unfold div_half_even. pose proof (Z.div_mod n d ltac:(lia)) as Hn.
  pose proof (Z.mod_pos_bound n d Hd). set (k := n / d) in *. set (r := n mod d) in *.
  assert (q <= k) by nia.
  destruct (2 * r <? d); [lia|]. destruct (d <? 2 * r); [lia|]. destruct (Z.even k); lia.
Qed.

(** ** The binary logarithm of a ratio *)

Lemma log2_ratio_spec n d (k := log2_ratio n d) :
  0 < n → 0 < d →
  d * 2 ^ Z.max 0 k <= n * 2 ^ Z.max 0 (- k) ∧ n * 2 ^ Z.max 0 (- k - 1) < d * 2 ^ Z.max 0 (k + 1).
Proof.
  intros Hn Hd. subst k. unfold log2_ratio.
  pose proof (Z.log2_spec n Hn) as [Ln Un]. pose proof (Z.log2_spec d Hd) as [Ld Ud].
  pose proof (Z.log2_nonneg n). pose proof (Z.log2_nonneg d).
  set (a := Z.log2 n) in *. set (b := Z.log2 d) in *. rewrite <- Z.add_1_r in Un, Ud.
  set (k0 := a - b).
  (* n / d lies between 2^(k0 - 1) and 2^(k0 + 1) *)
  assert (Hup : n * 2 ^ Z.max 0 (- k0 - 1) < d * 2 ^ Z.max 0 (k0 + 1)).
  { destruct (Z.leb_spec 0 (k0 + 1)).
    - rewrite (Z.max_l 0 (- k0 - 1)), (Z.max_r 0 (k0 + 1)) by lia.
      replace (a + 1) with (b + (k0 + 1)) in Un by lia. rewrite pow2_add in Un by lia.
      pose proof (pow2_pos (k0 + 1) ltac:(lia)). nia.
    - rewrite (Z.max_r 0 (- k0 - 1)), (Z.max_l 0 (k0 + 1)) by lia.
      replace b with ((a + 1) + (- k0 - 1)) in Ld by lia. rewrite pow2_add in Ld by lia.
      pose proof (pow2_pos (- k0 - 1) ltac:(lia)). nia. }
  assert (Hlo : d * 2 ^ Z.max 0 (k0 - 1) <= n * 2 ^ Z.max 0 (- (k0 - 1))).
  { destruct (Z.leb_spec 0 (k0 - 1)).
    - rewrite (Z.max_r 0 (k0 - 1)), (Z.max_l 0 (- (k0 - 1))) by lia.
      replace a with ((b + 1) + (k0 - 1)) in Ln by lia. rewrite pow2_add in Ln by lia.
      pose proof (pow2_pos (k0 - 1) ltac:(lia)). nia.
    - rewrite (Z.max_l 0 (k0 - 1)), (Z.max_r 0 (- (k0 - 1))) by lia.
      replace (b + 1) with (a + (- (k0 - 1))) in Ud by lia. rewrite pow2_add in Ud by lia.
      pose proof (pow2_pos (- (k0 - 1)) ltac:(lia)). nia. }
  destruct (Z.ltb_spec (n * 2 ^ Z.max 0 (- k0)) (d * 2 ^ Z.max 0 k0)) as [Hc|Hc].
  - split; [exact Hlo|]. by replace (- (k0 - 1) - 1) with (- k0) by lia; replace (k0 - 1 + 1) with k0 by lia.
  - by split.
Qed.

(** An inequality at the exponent [e], with the power on either side, scaled by [2^K]. *)
Lemma pow2_split e K :
  0 <= K → - e <= K →
  2 ^ (K + e) = 2 ^ Z.max 0 e * 2 ^ (K - Z.max 0 (- e)) ∧ 2 ^ K = 2 ^ Z.max 0 (- e) * 2 ^ (K - Z.max 0 (- e)).
Proof. intros. rewrite <- !pow2_add by lia. split; f_equal; lia. Qed.
Lemma le_scale a b e K :
  0 <= K → - e <= K → a * 2 ^ Z.max 0 (- e) <= b * 2 ^ Z.max 0 e ↔ a * 2 ^ K <= b * 2 ^ (K + e).
Proof.
  intros HK He. destruct (pow2_split e K HK He) as [-> ->].
  pose proof (pow2_pos (K - Z.max 0 (- e)) ltac:(lia)). rewrite !Z.mul_assoc.
  apply Z.mul_le_mono_pos_r. done.
Qed.

Lemma log2_ratio_scaled n d K (k := log2_ratio n d) :
  0 < n → 0 < d → 0 <= K → - k <= K → d * 2 ^ (K + k) <= n * 2 ^ K < d * 2 ^ (K + k + 1).
Proof.
  intros Hn Hd HK Hk. pose proof (log2_ratio_spec n d Hn Hd) as [Hlo Hup]. fold k in Hlo, Hup.
  destruct (pow2_split k K HK Hk) as [E1 E2].
  destruct (pow2_split (k + 1) K HK ltac:(lia)) as [F1 F2].
  rewrite Z.add_assoc in F1.
  replace (- (k + 1)) with (- k - 1) in F1, F2 by lia.
  pose proof (pow2_pos (K - Z.max 0 (- k)) ltac:(lia)).
  pose proof (pow2_pos (K - Z.max 0 (- k - 1)) ltac:(lia)).
  split; [rewrite E1, E2; nia|]. rewrite F1. rewrite F2 at 1. nia.
Qed.

(** ** Rounding to a float *)

(** The float of a ratio within the range is finite, its mantissa has at most 53 bits, and it lies
    within half a unit in the last place of the ratio. *)
Record rounds_to (n d m e : Z) : Prop := {
  rt_mantissa : 0 <= m <= max_mantissa;
  rt_exponent : min_exponent <= e <= max_exponent;
  rt_top : e = max_exponent → m <= max_float_m;
  rt_near K : 0 <= K → - e <= K → 2 * Z.abs (m * (d * 2 ^ (K + e)) - n * 2 ^ K) <= d * 2 ^ (K + e);
  rt_normal K : 0 <= K → - e - 52 <= K → e = min_exponent ∨ d * 2 ^ (K + e + 52) <= n * 2 ^ K }.

Lemma float_of_ratio_spec (neg : bool) n d :
  0 < n → 0 < d → is_finite_float (float_of_ratio neg n d) = true →
  ∃ m e, float_of_ratio neg n d = FFin (if neg then - m else m) e ∧ rounds_to n d m e.
Proof.
  intros Hn Hd Hfin. unfold float_of_ratio in *. set (k := log2_ratio n d) in *.
  set (e := Z.max min_exponent (k - 52)) in *.
  pose proof (log2_ratio_scaled n d) as Hlog. fold k in Hlog.
  assert (Hpe : 0 < 2 ^ Z.max 0 e) by (apply pow2_pos; lia).
  assert (Hpn : 0 < 2 ^ Z.max 0 (- e)) by (apply pow2_pos; lia).
  set (m := if 0 <=? e then div_half_even n (d * 2 ^ e) else div_half_even (n * 2 ^ (- e)) d) in *.
  assert (Hm : m = div_half_even (n * 2 ^ Z.max 0 (- e)) (d * 2 ^ Z.max 0 e)).
  { unfold m. destruct (Z.leb_spec 0 e).
    - by rewrite (Z.max_r 0 e), (Z.max_l 0 (- e)), Z.mul_1_r by lia.
    - by rewrite (Z.max_l 0 e), (Z.max_r 0 (- e)), Z.mul_1_r by lia. }
  assert (Hm0 : 0 <= m) by (rewrite Hm; apply half_even_ge; nia).
  assert (Hm1 : m <= max_mantissa).
  { rewrite Hm. apply half_even_le; [nia|]. rewrite Z.mul_assoc.
    apply (le_scale n (max_mantissa * d) e (2000 + Z.abs k)); [lia|lia|].
    set (K := 2000 + Z.abs k). destruct (Hlog K Hn Hd ltac:(lia) ltac:(lia)) as [_ Hup].
    assert (H : 2 ^ (K + k + 1) <= max_mantissa * 2 ^ (K + e)).
    { change max_mantissa with (2 ^ 53). rewrite <- pow2_add by lia. apply Z.pow_le_mono_r; lia. }
    apply (Z.mul_le_mono_nonneg_l _ _ d) in H; [|lia].
    rewrite (Z.mul_comm max_mantissa d), <- Z.mul_assoc. lia. }
  destruct (Z.ltb_spec max_exponent e); [done|]. cbn [orb] in *.
  exists m, e. destruct (Z.eqb_spec e max_exponent) as [E|NE], (Z.leb_spec max_mantissa m); cbn [andb] in *;
    try discriminate Hfin; (split; [done|]).
  all: split; [done|unfold e, min_exponent, max_exponent in *; lia|unfold max_float_m; lia|..].
  1,3,5: intros K HK HKe; destruct (pow2_split e K HK HKe) as [-> ->];
      pose proof (half_even_near (n * 2 ^ Z.max 0 (- e)) (d * 2 ^ Z.max 0 e) ltac:(nia)) as Hnear;
      rewrite <- Hm in Hnear; set (s := 2 ^ (K - Z.max 0 (- e)));
      assert (0 < s) by (apply pow2_pos; lia);
      replace (m * (d * (2 ^ Z.max 0 e * s)) - n * (2 ^ Z.max 0 (- e) * s))
        with ((m * (d * 2 ^ Z.max 0 e) - n * 2 ^ Z.max 0 (- e)) * s) by ring;
      rewrite Z.abs_mul, (Z.abs_eq s) by lia; nia.
  all: intros K HK HKe; destruct (Z.leb_spec k (-1022)); [left; unfold e, min_exponent; lia|right];
      assert (Ee : e = k - 52) by (unfold e, min_exponent; lia);
      destruct (Hlog K Hn Hd HK ltac:(lia)) as [Hlo _]; by replace (K + e + 52) with (K + k) by lia.
Qed.

(** A ratio within the range does not become infinite. *)
Lemma float_of_ratio_finite neg n d :
  0 < n → 0 < d → n <= max_float_m * 2 ^ max_exponent * d → is_finite_float (float_of_ratio neg n d) = true.
Proof.
  intros Hn Hd Hmax. unfold float_of_ratio. set (k := log2_ratio n d). set (e := Z.max min_exponent (k - 52)).
  assert (Hk : k <= 1023).
  { destruct (Z.leb_spec k 1023); [done|exfalso].
    destruct (log2_ratio_scaled n d 0 Hn Hd ltac:(lia) ltac:(fold k; lia)) as [Hlo _]. fold k in Hlo.
    assert (2 ^ 1024 <= 2 ^ (0 + k)) by (apply Z.pow_le_mono_r; lia).
    assert (max_float_m * 2 ^ max_exponent < 2 ^ 1024) by (vm_compute; done).
    change (2 ^ 0) with 1 in Hlo. rewrite Z.mul_1_r in Hlo.
    set (A := max_float_m * 2 ^ max_exponent) in *. set (B := 2 ^ 1024) in *. clearbody A B.
    assert (d * B <= d * 2 ^ (0 + k)) by (apply Z.mul_le_mono_nonneg_l; lia).
    assert (d * A < d * B) by (apply Z.mul_lt_mono_pos_l; lia).
    lia. }
  destruct (Z.ltb_spec max_exponent e); [unfold e, min_exponent, max_exponent in *; lia|]. cbn [orb].
  destruct (Z.eqb_spec e max_exponent) as [E|]; [|done]. cbn [andb].
  case_match eqn:Hc; [exfalso|done]. apply Z.leb_le in Hc. rewrite E in Hc.
  change (0 <=? max_exponent) with true in Hc. cbn iota in Hc.
  assert (div_half_even n (d * 2 ^ max_exponent) <= max_float_m); [|unfold max_float_m in *; lia].
  apply half_even_le; [|lia]. pose proof (pow2_pos max_exponent ltac:(unfold max_exponent; lia)). nia.
Qed.

(** ** Values at a common exponent *)

Definition sc (K : Z) (x : pyfloat) : Z := match x with FFin m e => m * 2 ^ (K + e) | _ => 0 end.
Definition at_exp (K : Z) (x : pyfloat) : Prop := match x with FFin _ e => - e <= K | _ => False end.

Lemma finite_at_exp x : is_finite_float x = true → ∃ K, 0 <= K ∧ ∀ J, K <= J → at_exp J x.
Proof. destruct x as [m e| |]; [|done..]. intros _. exists (Z.max 0 (- e)). split; [lia|]. cbn. lia. Qed.

Lemma sc_min K m e e0 : e0 <= e → - e0 <= K → m * 2 ^ (K + e) = m * 2 ^ (e - e0) * 2 ^ (K + e0).
Proof. intros. rewrite <- Z.mul_assoc, <- pow2_add by lia. do 2 f_equal. lia. Qed.

Lemma float_ltb_sc K a b : at_exp K a → at_exp K b → float_ltb a b = (sc K a <? sc K b).
Proof.
  destruct a as [m1 e1| |], b as [m2 e2| |]; cbn; try done. intros H1 H2.
  rewrite (sc_min K m1 e1 (Z.min e1 e2)), (sc_min K m2 e2 (Z.min e1 e2)) by lia.
  pose proof (pow2_pos (K + Z.min e1 e2) ltac:(lia)).
  apply Bool.eq_iff_eq_true. rewrite !Z.ltb_lt. by apply Z.mul_lt_mono_pos_r.
Qed.
Lemma float_eqb_sc K a b : at_exp K a → at_exp K b → float_eqb a b = (sc K a =? sc K b).
Proof.
  destruct a as [m1 e1| |], b as [m2 e2| |]; cbn; try done. intros H1 H2.
  rewrite (sc_min K m1 e1 (Z.min e1 e2)), (sc_min K m2 e2 (Z.min e1 e2)) by lia.
  pose proof (pow2_pos (K + Z.min e1 e2) ltac:(lia)).
  apply Bool.eq_iff_eq_true. rewrite !Z.eqb_eq. symmetry. apply Z.mul_cancel_r. lia.
Qed.
Lemma float_leb_sc K a b : at_exp K a → at_exp K b → float_leb a b = (sc K a <=? sc K b).
Proof.
  intros Ha Hb. unfold float_leb. rewrite (float_ltb_sc K), (float_eqb_sc K) by done.
  apply Bool.eq_iff_eq_true. rewrite orb_true_iff, Z.ltb_lt, Z.eqb_eq, Z.leb_le. lia.
Qed.

(** ** The range of the floats *)

Definition max_float : Z := max_float_m * 2 ^ max_exponent.
Definition fits_float (x : pyfloat) : Prop :=
  match x with FFin m e => Z.abs m * 2 ^ Z.max 0 e <= max_float * 2 ^ Z.max 0 (- e) | _ => False end.

Lemma ge_scale a b e K :
  0 <= K → - e <= K → b * 2 ^ Z.max 0 e <= a * 2 ^ Z.max 0 (- e) ↔ b * 2 ^ (K + e) <= a * 2 ^ K.
Proof.
  intros HK He. destruct (pow2_split e K HK He) as [-> ->].
  pose proof (pow2_pos (K - Z.max 0 (- e)) ltac:(lia)). rewrite !Z.mul_assoc.
  apply Z.mul_le_mono_pos_r. done.
Qed.
Lemma in_range_sc K x : 0 <= K → at_exp K x → fits_float x ↔ Z.abs (sc K x) <= max_float * 2 ^ K.
Proof.
  destruct x as [m e| |]; [|done..]. cbn. intros HK He. rewrite Z.abs_mul, (Z.abs_eq (2 ^ _)).
  - by apply ge_scale.
  - apply Z.pow_nonneg. lia.
Qed.

Lemma max_float_pos : 0 < max_float.
Proof. by vm_compute. Qed.

Lemma mantissa_in_range s m e :
  0 <= m <= max_mantissa → e <= max_exponent → (e = max_exponent → m <= max_float_m) →
  Z.abs s <= 1 → fits_float (FFin (s * m) e).
Proof.
  intros Hm He Htop Hs. apply (in_range_sc (Z.max 0 (- e))); [lia|cbn; lia|]. cbn.
  rewrite Z.abs_mul, (Z.abs_eq (2 ^ _)) by (apply Z.pow_nonneg; lia).
  set (K := Z.max 0 (- e)). assert (Hp : 0 < 2 ^ K) by (apply pow2_pos; lia).
  assert (Z.abs (s * m) <= m) by nia.
  destruct (Z.eqb_spec e max_exponent) as [->|].
  - rewrite (Z.add_comm K), pow2_add by (unfold max_exponent; lia). unfold max_float.
    pose proof (pow2_pos max_exponent ltac:(unfold max_exponent; lia)). specialize (Htop eq_refl).
    rewrite <- Z.mul_assoc. apply Z.mul_le_mono_nonneg_r; [|lia]. pose proof (Z.mul_pos_pos _ _ H0 Hp). lia.
  - assert (2 ^ (K + e) <= 2 ^ (970 + K)) by (apply Z.pow_le_mono_r; unfold max_exponent in *; lia).
    rewrite (pow2_add 970) in H0 by lia.
    assert (max_mantissa * 2 ^ 970 <= max_float) by (vm_compute; done).
    pose proof (Z.pow_nonneg 2 (K + e) ltac:(lia)).
    transitivity (max_mantissa * (2 ^ 970 * 2 ^ K)); [apply Z.mul_le_mono_nonneg; lia|].
    rewrite Z.mul_assoc. apply Z.mul_le_mono_nonneg_r; lia.
Qed.

(** ** The result of an operation *)

(** [x] is the float nearest to [n * 2^e]. *)
Record nearest (n e : Z) (x : pyfloat) : Prop := {
  nr_in_range : fits_float x;
  nr_finite : is_finite_float x = true;
  nr_sign : 0 <= n → ∀ K, 0 <= sc K x;
  nr_exponent K : 1074 <= K → at_exp K x;
  nr_small K : 2000 + Z.abs e <= K → 2 ^ (K - 1000) <= n * 2 ^ (K + e) → sc K x < 2 * (n * 2 ^ (K + e)) }.

Lemma dyadic_scale n e J e' (m : Z) :
  0 <= n → Z.max 0 (- e) + Z.max 0 (- e') + 52 <= J →
  rounds_to (n * 2 ^ Z.max 0 e) (2 ^ Z.max 0 (- e)) m e' →
  2 * Z.abs (m * 2 ^ (J + e') - n * 2 ^ (J + e)) <= 2 ^ (J + e')
  ∧ (e' = min_exponent ∨ 2 ^ (J + e' + 52) <= n * 2 ^ (J + e)).
Proof.
  intros Hn HJ H. set (K := J - Z.max 0 (- e)).
  assert (E1 : 2 ^ Z.max 0 (- e) * 2 ^ (K + e') = 2 ^ (J + e')) by (rewrite <- pow2_add by lia; f_equal; lia).
  assert (E2 : n * 2 ^ Z.max 0 e * 2 ^ K = n * 2 ^ (J + e))
    by (rewrite <- Z.mul_assoc, <- pow2_add by lia; do 2 f_equal; lia).
  assert (E3 : 2 ^ Z.max 0 (- e) * 2 ^ (K + e' + 52) = 2 ^ (J + e' + 52))
    by (rewrite <- pow2_add by lia; f_equal; lia).
  rewrite <- E1, <- E2, <- E3. split; [apply (rt_near _ _ _ _ H); lia|apply (rt_normal _ _ _ _ H); lia].
Qed.

Lemma round_dyadic_nearest n e :
  Z.abs n * 2 ^ Z.max 0 e <= max_float * 2 ^ Z.max 0 (- e) → nearest n e (round_dyadic n e).
Proof.
  intros Hn. unfold round_dyadic. destruct (Z.eqb_spec n 0) as [->|Hn0].
  { split; [by vm_compute|done|cbn; lia|cbn; lia|]. intros K HK H. cbn in H.
    pose proof (pow2_pos (K - 1000) ltac:(lia)). lia. }
  pose proof (pow2_pos (Z.max 0 e) ltac:(lia)). pose proof (pow2_pos (Z.max 0 (- e)) ltac:(lia)).
  destruct (float_of_ratio_spec (n <? 0) (Z.abs n * 2 ^ Z.max 0 e) (2 ^ Z.max 0 (- e))) as (m & e' & -> & H');
    [nia|lia|apply float_of_ratio_finite; unfold max_float in Hn; nia|].
  pose proof H' as [Hm He Htop _ _].
  assert (Hs : (if n <? 0 then - m else m) = (if n <? 0 then -1 else 1) * m) by (case_match; lia).
  split.
  - rewrite Hs. apply mantissa_in_range; [lia|lia|done|]. case_match; lia.
  - done.
  - intros Hpos K. cbn. destruct (Z.ltb_spec n 0); [lia|]. pose proof (Z.pow_nonneg 2 (K + e') ltac:(lia)). nia.
  - cbn. unfold min_exponent in He. lia.
  - intros K HK Hbig. cbn.
    assert (Hp : 0 < 2 ^ (K - 1000)) by (apply pow2_pos; lia).
    assert (0 <= 2 ^ (K + e)) by (apply Z.pow_nonneg; lia).
    assert (0 < n) by nia. destruct (Z.ltb_spec n 0); [lia|]. rewrite Z.abs_eq in * by lia.
    destruct (dyadic_scale n e K e' m) as [Hd Hor]; [lia|unfold min_exponent in He; lia|done|].
    destruct Hor as [-> | Hor].
    + assert (2 ^ (K + min_exponent) < 2 ^ (K - 1000)) by (apply Z.pow_lt_mono_r; unfold min_exponent; lia). lia.
    + assert (2 ^ (K + e') < 2 ^ (K + e' + 52)) by (apply Z.pow_lt_mono_r; unfold min_exponent in He; lia). lia.
Qed.

(** A finite float of a literal or an integer is within the range. *)
Lemma ratio_in_range neg n d :
  0 < n → 0 < d → is_finite_float (float_of_ratio neg n d) = true → fits_float (float_of_ratio neg n d).
Proof.
  intros Hn Hd H. destruct (float_of_ratio_spec neg n d Hn Hd H) as (m & e & -> & [? ? ? _ _]).
  replace (if neg then - m else m) with ((if neg then -1 else 1) * m) by (destruct neg; lia).
  apply mantissa_in_range; [done|lia|done|]. destruct neg; lia.
Qed.
Lemma text_in_range t : is_finite_float (float_of_text t) = true → fits_float (float_of_text t).
Proof.
  unfold float_of_text. destruct (dec_of_str t) as [[c e| |]|]; [|done..].
  destruct (Z.eqb_spec (Z.abs c) 0); [by vm_compute|]. cbn [orb].
  case_match; [by vm_compute|]. case_match; [done|]. case_match eqn:He.
  - apply Z.leb_le in He. pose proof (Z.pow_pos_nonneg 10 e). apply ratio_in_range; nia.
  - apply Z.leb_gt in He. pose proof (Z.pow_pos_nonneg 10 (- e)). apply ratio_in_range; lia.
Qed.
Lemma round_int_in_range z : is_finite_float (round_int z) = true → fits_float (round_int z).
Proof.
  unfold round_int. destruct (Z.eqb_spec z 0); [by vm_compute|]. apply ratio_in_range; lia.
Qed.

(** ** Operations *)

(** A finite value that is not negative, within the range. *)
Definition nonneg (x : pyfloat) : Prop := fits_float x ∧ ∀ K, 0 <= sc K x.

Lemma nonneg_intro x : fits_float x → float_leb (FFin 0 0) x = true → nonneg x.
Proof.
  intros Hx H. split; [done|]. destruct x as [m e| |]; [|done..]. intros K. cbn.
  rewrite (float_leb_sc (Z.max 0 (- e))) in H by (cbn; lia). cbn in H. apply Z.leb_le in H.
  pose proof (pow2_pos (Z.max 0 (- e) + e) ltac:(lia)). pose proof (Z.pow_nonneg 2 (K + e) ltac:(lia)). nia.
Qed.

Lemma mul_unit_nonneg p r :
  nonneg p → float_leb p (FFin 1 0) = true → nonneg r → nonneg (float_mul p r).
Proof.
  intros [Hp Hp0] Hp1 [Hr Hr0]. destruct p as [m1 e1| |], r as [m2 e2| |]; try done.
  assert (Hn : nearest (m1 * m2) (e1 + e2) (round_dyadic (m1 * m2) (e1 + e2))).
  { apply round_dyadic_nearest. set (K := Z.abs e1 + Z.abs e2).
    apply (ge_scale _ _ _ (K + K)); [lia|lia|].
    assert (E1 : 0 <= sc K (FFin m1 e1) <= 2 ^ K).
    { split; [done|]. rewrite (float_leb_sc K) in Hp1 by (cbn; lia). apply Z.leb_le in Hp1.
      cbn in *. by rewrite Z.add_0_r, Z.mul_1_l in Hp1. }
    apply (in_range_sc K) in Hr; [|lia|cbn; lia]. specialize (Hr0 K). rewrite Z.abs_eq in Hr by done.
    cbn [sc] in *.
    replace (K + K + (e1 + e2)) with ((K + e1) + (K + e2)) by lia. rewrite pow2_add by lia.
    replace (2 ^ (K + K)) with (2 ^ K * 2 ^ K) by (symmetry; apply pow2_add; lia).
    rewrite Z.abs_mul.
    assert (0 < 2 ^ (K + e1)) by (apply pow2_pos; lia). assert (0 < 2 ^ (K + e2)) by (apply pow2_pos; lia).
    rewrite (Z.abs_eq m1), (Z.abs_eq m2) by nia.
    replace (m1 * m2 * (2 ^ (K + e1) * 2 ^ (K + e2))) with ((m1 * 2 ^ (K + e1)) * (m2 * 2 ^ (K + e2))) by ring.
    replace (max_float * (2 ^ K * 2 ^ K)) with (2 ^ K * (max_float * 2 ^ K)) by ring.
    apply Z.mul_le_mono_nonneg; lia. }
  assert (Em : float_mul (FFin m1 e1) (FFin m2 e2) = round_dyadic (m1 * m2) (e1 + e2)) by (by destruct m1, m2).
  rewrite Em. split; [apply Hn|]. apply (nr_sign _ _ _ Hn).
  specialize (Hp0 (Z.abs e1)). specialize (Hr0 (Z.abs e2)). cbn in Hp0, Hr0.
  pose proof (pow2_pos (Z.abs e1 + e1) ltac:(lia)). pose proof (pow2_pos (Z.abs e2 + e2) ltac:(lia)). nia.
Qed.

Lemma sub_finite a b : nonneg a → nonneg b → is_finite_float (float_sub a b) = true.
Proof.
  intros [Ha Ha0] [Hb Hb0]. destruct a as [m1 e1| |], b as [m2 e2| |]; try done.
  unfold float_sub. cbn [float_neg float_add]. set (e := Z.min e1 e2).
  eapply nr_finite, round_dyadic_nearest. set (K := Z.abs e1 + Z.abs e2). apply (ge_scale _ _ _ K); [lia|lia|].
  apply (in_range_sc K) in Ha; [|lia|cbn; lia]. apply (in_range_sc K) in Hb; [|lia|cbn; lia].
  specialize (Ha0 K). specialize (Hb0 K). cbn [sc] in *.
  rewrite (sc_min K m1 e1 e), (sc_min K m2 e2 e) in * by lia.
  pose proof (pow2_pos (K + e) ltac:(lia)).
  rewrite <- (Z.abs_eq (2 ^ (K + e))) by lia. rewrite <- Z.abs_mul, Z.mul_add_distr_r, Z.mul_opp_l. lia.
Qed.

(** Half of a value that is at least [1/2] is below it. *)
Lemma half_below t :
  fits_float t → float_leb (FFin (2 ^ 52) (-53)) t = true → float_ltb (float_mul t (FFin (2 ^ 52) (-53))) t = true.
Proof.
  intros Ht Hhalf. destruct t as [m e| |]; [|done..].
  assert (Em : float_mul (FFin m e) (FFin (2 ^ 52) (-53)) = round_dyadic (m * 2 ^ 52) (e + -53)) by (by destruct m).
  rewrite Em. set (K := 3000 + Z.abs e).
  rewrite (float_leb_sc K) in Hhalf by (cbn; lia). apply Z.leb_le in Hhalf. cbn [sc] in Hhalf.
  assert (E : ∀ J, Z.abs e + 53 <= J → m * 2 ^ 52 * 2 ^ (J + (e + -53)) * 2 = m * 2 ^ (J + e)).
  { intros J HJ. replace (J + e) with (52 + (1 + (J + (e + -53)))) by lia.
    set (q := J + (e + -53)). rewrite (pow2_add 52), (pow2_add 1 q) by lia. ring. }
  assert (Hn : nearest (m * 2 ^ 52) (e + -53) (round_dyadic (m * 2 ^ 52) (e + -53))).
  { apply round_dyadic_nearest. apply (ge_scale _ _ _ K); [lia|lia|].
    apply (in_range_sc K) in Ht; [|lia|cbn; lia]. cbn [sc] in Ht. rewrite <- (E K) in Ht by lia.
    pose proof (pow2_pos (K + (e + -53)) ltac:(lia)).
    rewrite <- (Z.abs_eq (2 ^ (K + (e + -53)))) by lia. rewrite <- Z.abs_mul.
    rewrite Z.abs_mul in Ht. etransitivity; [|exact Ht]. lia. }
  rewrite (float_ltb_sc K); [|apply Hn; lia|cbn; lia]. apply Z.ltb_lt. cbn [sc].
  rewrite <- (E K) by lia. rewrite (Z.mul_comm _ 2). apply (nr_small _ _ _ Hn); [lia|].
  assert (2 ^ (K - 1000) <= 2 ^ 52 * 2 ^ (K + -53) / 2).
  { rewrite <- pow2_add by lia. replace (52 + (K + -53)) with ((K - 2) + 1) by lia.
    rewrite (pow2_add (K - 2) 1) by lia. change (2 ^ 1) with 2. rewrite Z.div_mul by lia.
    apply Z.pow_le_mono_r; lia. }
  rewrite <- (E K) in Hhalf by lia. pose proof (Z.mul_div_le (2 ^ 52 * 2 ^ (K + -53)) 2 ltac:(lia)). lia.
Qed.

(** ** Order *)

Lemma common_exp a b : is_finite_float a = true → is_finite_float b = true → ∃ K, 0 <= K ∧ at_exp K a ∧ at_exp K b.
Proof.
  intros Ha Hb. destruct (finite_at_exp a Ha) as (Ka & ? & Ga). destruct (finite_at_exp b Hb) as (Kb & ? & Gb).
  exists (Z.max Ka Kb). split; [lia|]. split; [apply Ga|apply Gb]; lia.
Qed.
Lemma common_exp3 a b c :
  is_finite_float a = true → is_finite_float b = true → is_finite_float c = true →
  ∃ K, 0 <= K ∧ at_exp K a ∧ at_exp K b ∧ at_exp K c.
Proof.
  intros Ha Hb Hc. destruct (finite_at_exp a Ha) as (Ka & ? & Ga). destruct (finite_at_exp b Hb) as (Kb & ? & Gb).
  destruct (finite_at_exp c Hc) as (Kc & ? & Gc).
  exists (Ka + Kb + Kc). ands; [lia|apply Ga|apply Gb|apply Gc]; lia.
Qed.
Lemma float_leb_gt a b :
  is_finite_float a = true → is_finite_float b = true → float_leb a b = negb (float_ltb b a).
Proof.
  intros Ha Hb. destruct (common_exp a b Ha Hb) as (K & _ & ? & ?).
  rewrite (float_leb_sc K), (float_ltb_sc K) by done. apply Z.leb_antisym.
Qed.
Lemma float_lt_le_trans a b c :
  is_finite_float a = true → is_finite_float b = true → is_finite_float c = true →
  float_ltb a b = true → float_leb b c = true → float_ltb a c = true.
Proof.
  intros Ha Hb Hc. destruct (common_exp3 a b c Ha Hb Hc) as (K & _ & ? & ? & ?).
  rewrite (float_ltb_sc K a b), (float_leb_sc K), (float_ltb_sc K), !Z.ltb_lt, Z.leb_le by done. lia.
Qed.
Lemma float_le_lt_trans a b c :
  is_finite_float a = true → is_finite_float b = true → is_finite_float c = true →
  float_leb a b = true → float_ltb b c = true → float_ltb a c = true.
Proof.
  intros Ha Hb Hc. destruct (common_exp3 a b c Ha Hb Hc) as (K & _ & ? & ? & ?).
  rewrite (float_leb_sc K), (float_ltb_sc K), (float_ltb_sc K), !Z.ltb_lt, Z.leb_le by done. lia.
Qed.
Lemma float_le_trans a b c :
  is_finite_float a = true → is_finite_float b = true → is_finite_float c = true →
  float_leb a b = true → float_leb b c = true → float_leb a c = true.
Proof.
  intros Ha Hb Hc. destruct (common_exp3 a b c Ha Hb Hc) as (K & _ & ? & ? & ?).
  rewrite (float_leb_sc K a b), (float_leb_sc K b c), (float_leb_sc K), !Z.leb_le by done. lia.
Qed.
Lemma float_lt_le a b : is_finite_float a = true → is_finite_float b = true → float_ltb a b = true → float_leb a b = true.
Proof. intros _ _ H. unfold float_leb. by rewrite H. Qed.

Lemma in_range_finite x : fits_float x → is_finite_float x = true.
Proof. by destruct x. Qed.
Lemma nonneg_leb x : nonneg x → float_leb (FFin 0 0) x = true.
Proof.
  intros [Hx H0]. destruct (finite_at_exp x (in_range_finite x Hx)) as (K & HK & Hat).
  rewrite (float_leb_sc K) by (apply Hat || (cbn; lia); lia). apply Z.leb_le. apply H0.
Qed.

(** A finite value between [0] and [1]. *)
Lemma unit_nonneg x :
  is_finite_float x = true → float_leb (FFin 0 0) x = true → float_leb x (FFin 1 0) = true → nonneg x.
Proof.
  intros Hx H0 H1. apply nonneg_intro; [|done]. destruct (finite_at_exp x Hx) as (K & HK & Hat).
  specialize (Hat K ltac:(lia)). apply (in_range_sc K); [done|done|].
  rewrite (float_leb_sc K) in H0, H1 by (done || (cbn; lia)). apply Z.leb_le in H0, H1. cbn [sc] in H0, H1.
  rewrite Z.add_0_r in H0, H1. pose proof (pow2_pos K HK). pose proof max_float_pos. nia.
Qed.
