(* ===== verification/Sha256.v ===== *)
(** * SHA-256

    [hashlib.sha256] of a byte string, as FIPS 180-4 defines it: every hash the audit chain, the
    attestation gate and the manifests compute. Words are [N] below [2^32]. *)
From S2P Require Import Prelude PyStr.

Section sha256.
Local Open Scope N_scope.

Definition w32 : N := 4294967296.
Definition addw (a b : N) : N := (a + b) mod w32.
Definition rotr (n x : N) : N :=
  N.lor (N.shiftr x n) (N.shiftl x (32 - n) mod w32).
Definition notw (x : N) : N := N.lxor x (w32 - 1).

Definition ch (x y z : N) : N := N.lxor (N.land x y) (N.land (notw x) z).
Definition maj (x y z : N) : N := N.lxor (N.lxor (N.land x y) (N.land x z)) (N.land y z).
Definition bsig0 (x : N) : N := N.lxor (N.lxor (rotr 2 x) (rotr 13 x)) (rotr 22 x).
Definition bsig1 (x : N) : N := N.lxor (N.lxor (rotr 6 x) (rotr 11 x)) (rotr 25 x).
Definition ssig0 (x : N) : N := N.lxor (N.lxor (rotr 7 x) (rotr 18 x)) (N.shiftr x 3).
Definition ssig1 (x : N) : N := N.lxor (N.lxor (rotr 17 x) (rotr 19 x)) (N.shiftr x 10).

Definition round_constants : list N :=
  [
  1116352408; 1899447441; 3049323471; 3921009573; 961987163; 1508970993; 2453635748;
  2870763221; 3624381080; 310598401; 607225278; 1426881987; 1925078388; 2162078206;
  2614888103; 3248222580; 3835390401; 4022224774; 264347078; 604807628; 770255983;
  1249150122; 1555081692; 1996064986; 2554220882; 2821834349; 2952996808; 3210313671;
  3336571891; 3584528711; 113926993; 338241895; 666307205; 773529912; 1294757372; 1396182291;
  1695183700; 1986661051; 2177026350; 2456956037; 2730485921; 2820302411; 3259730800;
  3345764771; 3516065817; 3600352804; 4094571909; 275423344; 430227734; 506948616; 659060556;
  883997877; 958139571; 1322822218; 1537002063; 1747873779; 1955562222; 2024104815;
  2227730452; 2361852424; 2428436474; 2756734187; 3204031479; 3329325298
  ].

Definition initial_hash : list N :=
  [
  1779033703; 3144134277; 1013904242; 2773480762; 1359893119; 2600822924; 528734635;
  1541459225
  ].

(** Big-endian bytes of [n] on [k] bytes, most significant first. *)
Fixpoint be_bytes (k : nat) (n : N) (acc : pybytes) : pybytes :=
  match k with O => acc | S k => be_bytes k (n / 256) (n mod 256 :: acc) end.

Definition pad (msg : pybytes) : pybytes :=
  let l := length msg in
  let z := ((119 - l mod 64) mod 64)%nat in
  msg ++ [128] ++ replicate z 0 ++ be_bytes 8 (8 * N.of_nat l) [].

Fixpoint words (bs : pybytes) : list N :=
  match bs with
  | a :: b :: c :: d :: bs => (((a * 256 + b) * 256 + c) * 256 + d) :: words bs
  | _ => []
  end.

(** The message schedule, newest word first. *)
Fixpoint schedule (k : nat) (ws : list N) : list N :=
  match k with
  | O => ws
  | S k =>
      let w i := nth i ws 0 in
      schedule k (addw (addw (ssig1 (w 1%nat)) (w 6%nat)) (addw (ssig0 (w 14%nat)) (w 15%nat)) :: ws)
  end.

Definition round (s : list N) (kw : N * N) : list N :=
  match s with
  | [a; b; c; d; e; f; g; h] =>
      let t1 := addw (addw (addw h (bsig1 e)) (ch e f g)) (addw kw.1 kw.2) in
      let t2 := addw (bsig0 a) (maj a b c) in
      [addw t1 t2; a; b; c; addw d t1; e; f; g]
  | _ => s
  end.

Definition compress (hs block : list N) : list N :=
  let ws := reverse (schedule 48 (reverse block)) in
  zip_with addw hs (fold_left round (zip round_constants ws) hs).

Fixpoint blocks (fuel : nat) (ws : list N) (hs : list N) : list N :=
  match fuel, ws with
  | S fuel, _ :: _ => blocks fuel (drop 16 ws) (compress hs (take 16 ws))
  | _, _ => hs
  end.

(** [hashlib.sha256(msg).digest()]; a block is 16 words, so [length] is fuel enough. *)
Definition sha256 (msg : pybytes) : pybytes :=
  let ws := words (pad msg) in
  blocks (length ws) ws initial_hash ≫= λ h, be_bytes 4 h [].

Definition hex_digit (n : N) : N := if n <? 10 then 48 + n else 87 + n.
(** [bytes.hex()]. *)
Definition hex (bs : pybytes) : pystr := bs ≫= λ b, [hex_digit (b / 16); hex_digit (b mod 16)].
End sha256.

(** [hashlib.sha256(text.encode("utf-8")).hexdigest()] for a text that encodes. *)
Definition sha256_hex (msg : pybytes) : pystr := hex (sha256 msg).

Example sha256_abc :
  sha256_hex (u "abc") = u "ba7816bf8f01cfea414140de5dae2223b00361a396177a9cb410ff61f20015ad".
Proof. vm_compute. reflexivity. Qed.
Example sha256_empty :
  sha256_hex [] = u "e3b0c44298fc1c149afbf4c8996fb92427ae41e4649b934ca495991b7852b855".
Proof. vm_compute. reflexivity. Qed.
Example sha256_two_blocks :
  sha256_hex (u "abcdbcdecdefdefgefghfghighijhijkijkljklmklmnlmnomnopnopq")
  = u "248d6a61d20638b8e5c026930c3e6039a33ce45964ff2167f6ecedd419db06c1".
Proof. vm_compute. reflexivity. Qed.

(** ** The digest is 32 bytes, its text 64 lowercase hexadecimal digits *)

Lemma be_bytes_length k n acc : length (be_bytes k n acc) = (k + length acc)%nat.
Proof. revert n acc. induction k as [|k IH]; intros; cbn; [done|]. rewrite IH. cbn. lia. Qed.

Lemma be_bytes_byte k n acc :
  Forall (λ b, (b < 256)%N) acc → Forall (λ b, (b < 256)%N) (be_bytes k n acc).
Proof.
  revert n acc. induction k as [|k IH]; intros n acc H; cbn; [done|].
  apply IH. constructor; [by apply N.mod_lt|done].
Qed.

Lemma round_length s kw : length s = 8%nat → length (round s kw) = 8%nat.
Proof. intros H. do 9 (destruct s as [|? s]; try discriminate). done. Qed.

Lemma compress_length hs b : length hs = 8%nat → length (compress hs b) = 8%nat.
Proof.
  intros H. unfold compress. rewrite length_zip_with, H.
  rewrite (fold_left_inv (λ s, length s = 8%nat)); [done..|]. intros. by apply round_length.
Qed.

Lemma blocks_length fuel ws hs : length hs = 8%nat → length (blocks fuel ws hs) = 8%nat.
Proof.
  revert ws hs. induction fuel as [|fuel IH]; intros ws hs H; cbn; [done|].
  destruct ws; [done|]. by apply IH, compress_length.
Qed.

Lemma sha256_length msg : length (sha256 msg) = 32%nat.
Proof.
  unfold sha256. set (hs := blocks _ _ _).
  assert (length hs = 8%nat) as H by by apply blocks_length.
  do 9 (destruct hs as [|? hs]; try discriminate). cbn -[be_bytes].
  rewrite !length_app, !be_bytes_length. done.
Qed.

Lemma sha256_byte msg : Forall (λ b, (b < 256)%N) (sha256 msg).
Proof.
  unfold sha256. set (hs := blocks _ _ _). clearbody hs.
  induction hs as [|h hs IH]; cbn -[be_bytes]; [constructor|].
  apply Forall_app. split; [by apply be_bytes_byte|done].
Qed.

Lemma hex_length bs : length (hex bs) = (2 * length bs)%nat.
Proof. induction bs as [|b bs IH]; cbn in *; [done|]. unfold hex in IH. rewrite IH. lia. Qed.

Lemma sha256_hex_length msg : length (sha256_hex msg) = 64%nat.
Proof. unfold sha256_hex. by rewrite hex_length, sha256_length. Qed.

Lemma hex_digit_hex n : (n < 16)%N → is_hex_lower (hex_digit n) = true.
Proof.
  intros H. unfold is_hex_lower, is_digit, in_range, hex_digit.
  destruct (N.ltb_spec n 10); rewrite orb_true_iff, !andb_true_iff, !N.leb_le; lia.
Qed.

Lemma hex_all bs : Forall (λ b, (b < 256)%N) bs → forallb is_hex_lower (hex bs) = true.
Proof.
  induction 1 as [|b bs Hb _ IH]; [done|].
  change (hex (b :: bs)) with ([hex_digit (b / 16); hex_digit (b mod 16)]%N ++ hex bs).
  rewrite forallb_app, IH. cbn.
  rewrite !hex_digit_hex; [done|by apply N.mod_lt|by apply N.Div0.div_lt_upper_bound].
Qed.

Lemma sha256_hex_re msg : hash_re (sha256_hex msg) = true.
Proof.
  unfold hash_re, match_dollar, class_rep. rewrite sha256_hex_length.
  unfold sha256_hex. rewrite hex_all by apply sha256_byte. done.
Qed.

#[export] Hint Resolve sha256_length sha256_byte sha256_hex_length sha256_hex_re : s2p.
#[global] Opaque sha256.
