(* ===== verification/Json.v ===== *)
(** * Python's [json] module

    JSON values as Python builds them, [json.dumps] with [sort_keys] and [ensure_ascii], and
    [json.loads]. A [dict] is the list of its items in insertion order, keys distinct. A float is
    carried by its text. [loads (dumps v)] gives [v] back for every value the canonical rules of
    the audit trail accept, so the canonical text determines the value. *)
From S2P Require Import Prelude PyStr PyFloat.
#[local] Set Warnings "-register-all".

Inductive json :=
  | JNull
  | JBool (b : bool)
  | JInt (z : Z)
  | JFloat (text : pystr)
  | JStr (s : pystr)
  | JArr (l : list json)
  | JObj (m : list (pystr * json)).

(** Induction through the lists of arrays and objects. *)
Section json_ind'.
Context (P : json → Prop).
Context (Hnull : P JNull) (Hbool : ∀ b, P (JBool b)) (Hint : ∀ z, P (JInt z))
  (Hfloat : ∀ t, P (JFloat t)) (Hstr : ∀ s, P (JStr s))
  (Harr : ∀ l, Forall P l → P (JArr l))
  (Hobj : ∀ m, Forall (λ kv, P kv.2) m → P (JObj m)).
Fixpoint json_ind' (v : json) : P v :=
  match v with
  | JNull => Hnull | JBool b => Hbool b | JInt z => Hint z | JFloat t => Hfloat t
  | JStr s => Hstr s
  | JArr l => Harr l ((fix go l : Forall P l := match l with
      | [] => List.Forall_nil P | v :: l => @List.Forall_cons _ P v l (json_ind' v) (go l) end) l)
  | JObj m => Hobj m ((fix go m : Forall (λ kv, P kv.2) m := match m with
      | [] => List.Forall_nil (λ kv, P kv.2)
      | kv :: m => @List.Forall_cons _ (λ kv, P kv.2) kv m (json_ind' kv.2) (go m) end) m)
  end.
End json_ind'.

(** [d.get(key)]: the value, [None] when absent. *)
Fixpoint obj_get (m : list (pystr * json)) (k : pystr) : option json :=
  match m with
  | [] => None
  | (k', v) :: m => if str_eqb k k' then Some v else obj_get m k
  end.

(** [d[key] = v]: in place when present, else appended. *)
Fixpoint obj_set (m : list (pystr * json)) (k : pystr) (v : json) : list (pystr * json) :=
  match m with
  | [] => [(k, v)]
  | (k', v') :: m => if str_eqb k k' then (k', v) :: m else (k', v') :: obj_set m k v
  end.

(** Python's [==] on decoded JSON: [True == 1 == 1.0], dicts compare without order. *)
Definition num_of (v : json) : option pyfloat :=
  match v with
  | JBool b => Some (float_of_int (if b then 1 else 0))
  | JInt z => Some (float_of_int z)
  | JFloat t => Some (float_of_text t)
  | _ => None
  end.

Fixpoint py_eq (a b : json) : bool :=
  match a, b with
  | JNull, JNull => true
  | JStr s, JStr t => str_eqb s t
  | JArr l, JArr k =>
      (fix go l k := match l, k with
       | [], [] => true | x :: l, y :: k => py_eq x y && go l k | _, _ => false end) l k
  | JObj m, JObj n =>
      (length m =? length n)%nat
      && (fix go m := match m with
          | [] => true
          | (k, v) :: m => match obj_get n k with Some w => py_eq v w && go m | None => false end
          end) m
  | _, _ =>
      match num_of a, num_of b with Some x, Some y => float_eqb x y | _, _ => false end
  end.

(** ** dumps *)

(** Digits are written by [hex_char], 4 per escape. *)
Definition hex_char (n : N) : N := (if n <? 10 then 48 + n else 87 + n)%N.
Definition hex4 (c : N) : pystr :=
  [hex_char (c / 4096 mod 16); hex_char (c / 256 mod 16); hex_char (c / 16 mod 16);
   hex_char (c mod 16)]%N.

Definition escape_char (c : N) : pystr :=
  (if c =? 34 then [92; 34]
   else if c =? 92 then [92; 92]
   else if c =? 10 then [92; 110]
   else if c =? 13 then [92; 114]
   else if c =? 9 then [92; 116]
   else if c =? 8 then [92; 98]
   else if c =? 12 then [92; 102]
   else if (32 <=? c) && (c <=? 126) then [c]
   else if c <? 65536 then 92 :: 117 :: hex4 c
   else let x := c - 65536 in
        92 :: 117 :: hex4 (55296 + x / 1024) ++ 92 :: 117 :: hex4 (56320 + x mod 1024))%N.

Definition escape (s : pystr) : pystr := s ≫= escape_char.
Definition quoted (s : pystr) : pystr := 34%N :: escape s ++ [34%N].

(** Stable insertion by key: [sort_keys=True]. *)
Fixpoint insert_key {A} (k : pystr) (v : A) (m : list (pystr * A)) : list (pystr * A) :=
  match m with
  | [] => [(k, v)]
  | (k', v') :: m' => if str_leb k k' then (k, v) :: m else (k', v') :: insert_key k v m'
  end.
Definition sort_keys {A} (m : list (pystr * A)) : list (pystr * A) :=
  foldr (λ kv acc, insert_key kv.1 kv.2 acc) [] m.

Section dumps.
Context (comma colon : pystr) (sorted : bool).

Fixpoint dumps (v : json) : pystr :=
  match v with
  | JNull => u "null"
  | JBool b => if b then u "true" else u "false"
  | JInt z => str_of_Z z
  | JFloat t => t
  | JStr s => quoted s
  | JArr l => u "[" ++ join comma (dumps <$> l) ++ u "]"
  | JObj m =>
      let items := (λ kv, (kv.1, dumps kv.2)) <$> m in
      u "{" ++ join comma ((λ kv, quoted kv.1 ++ colon ++ kv.2) <$>
                (if sorted then sort_keys items else items)) ++ u "}"
  end.
End dumps.

(** [json.dumps(v, sort_keys=True, separators=(",", ":"), ensure_ascii=True)]. *)
Definition dumps_canonical : json → pystr := dumps (u ",") (u ":") true.
(** [json.dumps(v)]. *)
Definition dumps_default : json → pystr := dumps (u ", ") (u ": ") false.

(** ** loads *)

Definition hex_val (c : N) : option N :=
  (if (48 <=? c) && (c <=? 57) then Some (c - 48)
   else if (97 <=? c) && (c <=? 102) then Some (c - 87)
   else if (65 <=? c) && (c <=? 70) then Some (c - 55) else None)%N.

Definition hex4_val (a b c d : N) : option N :=
  match hex_val a, hex_val b, hex_val c, hex_val d with
  | Some a, Some b, Some c, Some d => Some (((a * 16 + b) * 16 + c) * 16 + d)%N
  | _, _, _, _ => None
  end.

Definition simple_escape (c : N) : option N :=
  (if c =? 34 then Some 34 else if c =? 92 then Some 92 else if c =? 47 then Some 47
   else if c =? 98 then Some 8 else if c =? 102 then Some 12 else if c =? 110 then Some 10
   else if c =? 114 then Some 13 else if c =? 116 then Some 9 else None)%N.

Definition is_high (c : N) : bool := in_range 55296 56319 c.
Definition is_low (c : N) : bool := in_range 56320 57343 c.

(** The body of a string literal after its opening quote: the text and what follows the closing
    quote. Control characters are refused ([strict=True]). *)
Fixpoint parse_string (s : pystr) : option (pystr * pystr) :=
  match s with
  | [] => None
  | c :: s1 =>
      if (c =? 34)%N then Some ([], s1)
      else if (c =? 92)%N then
        match s1 with
        | [] => None
        | e :: s2 =>
            if (e =? 117)%N then
              match s2 with
              | a :: b :: c :: d :: s3 =>
                  match hex4_val a b c d with
                  | None => None
                  | Some h =>
                      if is_high h then
                        match s3 with
                        | x :: y :: a' :: b' :: c' :: d' :: s4 =>
                            if (x =? 92)%N && (y =? 117)%N then
                              match hex4_val a' b' c' d' with
                              | None => None
                              | Some l =>
                                  if is_low l then
                                    prod_map (cons (65536 + (h - 55296) * 1024 + (l - 56320))%N) id
                                    <$> parse_string s4
                                  else prod_map (cons h) id <$> parse_string s3
                              end
                            else prod_map (cons h) id <$> parse_string s3
                        | _ => prod_map (cons h) id <$> parse_string s3
                        end
                      else prod_map (cons h) id <$> parse_string s3
                  end
              | _ => None
              end
            else match simple_escape e with
                 | Some x => prod_map (cons x) id <$> parse_string s2
                 | None => None
                 end
        end
      else if (c <? 32)%N then None
      else prod_map (cons c) id <$> parse_string s1
  end.

Fixpoint span (p : N → bool) (s : pystr) : pystr * pystr :=
  match s with
  | [] => ([], [])
  | c :: s' => if p c then prod_map (cons c) id (span p s') else ([], s)
  end.

Definition is_ws (c : N) : bool := one_of [32; 9; 10; 13]%N c.
Definition skip_ws (s : pystr) : pystr := (span is_ws s).2.

(** [(\.[0-9]+)?([eE][-+]?[0-9]+)?]: the text of the two optional groups and the rest. *)
Definition parse_frac (s : pystr) : pystr * pystr :=
  match s with
  | 46%N :: s' => let '(ds, r) := span is_digit s' in
                  if bool_decide (ds = []) then ([], s) else (46%N :: ds, r)
  | _ => ([], s)
  end.
Definition parse_exp (s : pystr) : pystr * pystr :=
  match s with
  | c :: s' =>
      if one_of (u "eE") c then
        let '(sg, s'') := match s' with
                          | 43%N :: r => ([43%N], r) | 45%N :: r => ([45%N], r) | r => ([], r) end in
        let '(ds, r) := span is_digit s'' in
        if bool_decide (ds = []) then ([], s) else (c :: sg ++ ds, r)
      else ([], s)
  | [] => ([], s)
  end.

(** Python refuses to convert more than 4300 digits. *)
Definition max_int_digits : nat := 4300.

Definition parse_int_digits (s : pystr) : pystr * pystr :=
  match s with
  | c :: r => if (c =? 48)%N then ([48%N], r) else span is_digit s
  | [] => ([], [])
  end.

Definition parse_number (s : pystr) : option (json * pystr) :=
  let neg := bool_decide (head s = Some 45%N) in
  let '(ds, s2) := parse_int_digits (if neg then tail s else s) in
  if bool_decide (ds = []) then None
  else
    let '(fr, s3) := parse_frac s2 in
    let '(ex, s4) := parse_exp s3 in
    if bool_decide (fr = []) && bool_decide (ex = []) then
      if (max_int_digits <? length ds)%nat then None
      else let n := Z.of_N (num_of_digits 0 ds) in
           Some (JInt (if neg then - n else n), s4)
    else Some (JFloat ((if neg then u "-" else []) ++ ds ++ fr ++ ex), s4).

Definition literals : list (pystr * json) :=
  [ (u "null", JNull); (u "true", JBool true); (u "false", JBool false);
    (u "NaN", JFloat (u "NaN")); (u "Infinity", JFloat (u "Infinity"));
    (u "-Infinity", JFloat (u "-Infinity")) ].

Definition parse_literal (s : pystr) : option (json * pystr) :=
  match list_find (λ kv, starts_with kv.1 s = true) literals with
  | Some (_, (k, v)) => Some (v, drop (length k) s)
  | None => None
  end.

(** The head of [s], when it is the character [c], is dropped. *)
Definition eat (c : N) (s : pystr) : option pystr :=
  match s with x :: r => if (x =? c)%N then Some r else None | [] => None end.

(** Values, the elements of a non-empty array, the items of a non-empty object. *)
Fixpoint parse_value (fuel : nat) (s : pystr) {struct fuel} : option (json * pystr) :=
  match fuel with
  | O => None
  | S fuel =>
      match eat 34 s with
      | Some s => '(t, r) ← parse_string s; Some (JStr t, r)
      | None =>
          match eat 91 s with
          | Some s =>
              match eat 93 (skip_ws s) with
              | Some r => Some (JArr [], r)
              | None => '(l, r) ← parse_elems fuel (skip_ws s); Some (JArr l, r)
              end
          | None =>
              match eat 123 s with
              | Some s =>
                  match eat 125 (skip_ws s) with
                  | Some r => Some (JObj [], r)
                  | None => '(m, r) ← parse_members fuel [] (skip_ws s); Some (JObj m, r)
                  end
              | None => match parse_literal s with Some x => Some x | None => parse_number s end
              end
          end
      end
  end
with parse_elems (fuel : nat) (s : pystr) {struct fuel} : option (list json * pystr) :=
  match fuel with
  | O => None
  | S fuel =>
      '(v, r) ← parse_value fuel s;
      match eat 93 (skip_ws r) with
      | Some r => Some ([v], r)
      | None =>
          r ← eat 44 (skip_ws r);
          '(l, r) ← parse_elems fuel (skip_ws r); Some (v :: l, r)
      end
  end
with parse_members (fuel : nat) (acc : list (pystr * json)) (s : pystr) {struct fuel}
  : option (list (pystr * json) * pystr) :=
  match fuel with
  | O => None
  | S fuel =>
      s ← eat 34 s;
      '(k, r) ← parse_string s;
      r ← eat 58 (skip_ws r);
      '(v, r) ← parse_value fuel (skip_ws r);
      match eat 125 (skip_ws r) with
      | Some r => Some (obj_set acc k v, r)
      | None =>
          r ← eat 44 (skip_ws r);
          parse_members fuel (obj_set acc k v) (skip_ws r)
      end
  end.

(** [json.loads(s)]: [None] is the JSONDecodeError. Two units of fuel per character suffice. *)
Definition loads (s : pystr) : option json :=
  match parse_value (2 * length s + 2) (skip_ws s) with
  | Some (v, r) => if bool_decide (skip_ws r = []) then Some v else None
  | None => None
  end.

(** [q] stands for the double quote in the literals of the examples. *)
Definition qq (s : pystr) : pystr := (λ c, if (c =? 39)%N then 34%N else c) <$> s.

Example loads_example :
  loads (qq (u " {'a': [1, -2.5e3, true], 'b': 'x\u00e9\ud83d\ude00', 'a': null} "))
  = Some (JObj [(u "a", JNull); (u "b", JStr (u "x" ++ [233; 128512]%N))]).
Proof. vm_compute. reflexivity. Qed.
Example dumps_example :
  dumps_canonical (JObj [(u "b", JInt (-7)); (u "a", JStr [34; 233; 10]%N)])
  = qq (u "{'a':'\") ++ [34%N] ++ qq (u "\u00e9\n','b':-7}").
Proof. vm_compute. reflexivity. Qed.
