(* ===== verification/JsonFacts.v ===== *)
(** * Canonical JSON: parsing inverts printing

    [loads (dumps_canonical v) = Some (norm v)] for every value the canonical rules accept, where
    [norm] sorts the keys of each object; so two values with the same canonical text are the same
    document. *)
From Stdlib Require Import Sorted.
From S2P Require Import Prelude PyStr Json PyFloat.

(** ** Keys *)

Lemma insert_key_fmap {A B} (f : A → B) k v m :
  insert_key k (f v) (prod_map id f <$> m) = prod_map id f <$> insert_key k v m.
Proof.
  induction m as [|[k' v'] m IH]; cbn; [done|]. destruct (str_leb k k'); cbn; [done|].
  by rewrite <- IH.
Qed.

Lemma sort_keys_fmap {A B} (f : A → B) m :
  sort_keys (prod_map id f <$> m) = prod_map id f <$> sort_keys m.
Proof.
  induction m as [|[k v] m IH]; cbn; [done|].
  unfold sort_keys in *. rewrite IH. cbn. apply insert_key_fmap.
Qed.

Lemma insert_key_perm {A} k (v : A) m : insert_key k v m ≡ₚ (k, v) :: m.
Proof.
  induction m as [|[k' v'] m IH]; cbn; [done|]. destruct (str_leb k k'); [done|].
  rewrite IH. constructor.
Qed.

Lemma sort_keys_perm {A} (m : list (pystr * A)) : sort_keys m ≡ₚ m.
Proof.
  induction m as [|[k v] m IH]; cbn; [done|]. rewrite insert_key_perm. by constructor.
Qed.

(** ** Values the canonical rules accept *)

Fixpoint json_ok (v : json) : Prop :=
  match v with
  | JNull | JBool _ => True
  | JInt z => (length (digits (Z.abs_N z)) ≤ max_int_digits)%nat
  | JFloat _ => False
  | JStr s => str_ok s = true
  | JArr l => (fix go l := match l with [] => True | x :: l => json_ok x ∧ go l end) l
  | JObj m => NoDup m.*1
      ∧ (fix go m := match m with
         | [] => True | (k, x) :: m => str_ok k = true ∧ json_ok x ∧ go m end) m
  end.

Lemma json_ok_arr l : json_ok (JArr l) ↔ Forall json_ok l.
Proof.
  cbn. induction l as [|x l IH]; [by split|].
  split; [intros (? & ?)|intros [? ?]%Forall_cons]; try apply Forall_cons; naive_solver.
Qed.

Lemma json_ok_obj m :
  json_ok (JObj m) ↔ NoDup m.*1 ∧ Forall (λ kv, str_ok kv.1 = true ∧ json_ok kv.2) m.
Proof.
  cbn. apply and_iff_compat_l.
  induction m as [|[k x] m IH]; [by split|].
  split; [intros (? & ? & ?)|intros [[? ?] ?]%Forall_cons]; try apply Forall_cons; naive_solver.
Qed.

(** The document with every object's keys sorted. *)
Fixpoint norm (v : json) : json :=
  match v with
  | JArr l => JArr (norm <$> l)
  | JObj m => JObj (sort_keys ((λ kv, (kv.1, norm kv.2)) <$> m))
  | v => v
  end.

(** ** Strings *)

Lemma hex_val_char n : (n < 16)%N → hex_val (hex_char n) = Some n.
Proof.
  intros H. unfold hex_val, hex_char. destruct (N.ltb_spec n 10);
    repeat match goal with |- context [(?a <=? ?b)%N] => destruct (N.leb_spec a b) end;
    cbn; try lia; f_equal; lia.
Qed.

Lemma hex4_val_hex4 c a b d e :
  hex4 c = [a; b; d; e] → (c < 65536)%N → hex4_val a b d e = Some c.
Proof.
  unfold hex4. intros [= <- <- <- <-] H. unfold hex4_val.
  rewrite !hex_val_char by by apply N.mod_lt. f_equal.
  pose proof (N.div_mod' c 16). pose proof (N.div_mod' (c / 16) 16).
  pose proof (N.div_mod' (c / 256) 16). pose proof (N.Div0.div_div c 16 16) as E1.
  pose proof (N.Div0.div_div c 256 16) as E2. change (16 * 16)%N with 256%N in E1.
  change (256 * 16)%N with 4096%N in E2.
  assert (c / 4096 < 16)%N by (apply N.Div0.div_lt_upper_bound; lia).
  rewrite (N.mod_small (c / 4096) 16) by done. rewrite E1 in *. rewrite E2 in *. lia.
Qed.

Lemma hex4_form c : ∃ a b d e, hex4 c = [a; b; d; e].
Proof. by repeat eexists. Qed.

Lemma parse_unicode c s :
  (c < 65536)%N → is_surrogate c = false →
  parse_string (92%N :: 117%N :: hex4 c ++ s) = prod_map (cons c) id <$> parse_string s.
Proof.
  intros Hc Hs. destruct (hex4_form c) as (a & b & d & e & E). rewrite E. cbn.
  rewrite (hex4_val_hex4 c) by done.
  destruct (is_high c) eqn:Hh; [|done].
  unfold is_high, is_surrogate, in_range in *. rewrite andb_true_iff, !N.leb_le in Hh.
  rewrite andb_false_iff, !N.leb_gt in Hs. lia.
Qed.

Lemma parse_pair x s :
  (x < 1048576)%N →
  parse_string (92%N :: 117%N :: hex4 (55296 + x / 1024)
                ++ 92%N :: 117%N :: hex4 (56320 + x mod 1024) ++ s)
  = prod_map (cons (65536 + x)%N) id <$> parse_string s.
Proof.
  intros Hx. assert (x / 1024 < 1024)%N by (apply N.Div0.div_lt_upper_bound; lia).
  pose proof (N.mod_lt x 1024 ltac:(done)). pose proof (N.div_mod' x 1024).
  set (h := (x / 1024)%N) in *. set (l := (x mod 1024)%N) in *.
  destruct (hex4_form (55296 + h)) as (a & b & d & e & E). rewrite E.
  destruct (hex4_form (56320 + l)) as (a' & b' & d' & e' & E'). rewrite E'. cbn.
  rewrite (hex4_val_hex4 (55296 + h)), (hex4_val_hex4 (56320 + l)) by (done || lia).
  assert (is_high (55296 + h) = true) as ->.
  { unfold is_high, in_range. rewrite andb_true_iff, !N.leb_le. lia. }
  assert (is_low (56320 + l) = true) as ->.
  { unfold is_low, in_range. rewrite andb_true_iff, !N.leb_le. lia. }
  do 3 f_equal. lia.
Qed.

Lemma parse_escape_char c s :
  char_ok c = true →
  parse_string (escape_char c ++ s) = prod_map (cons c) id <$> parse_string s.
Proof.
  intros [Hc Hs]%andb_true_iff. apply N.ltb_lt in Hc. apply negb_true_iff in Hs.
  unfold escape_char.
  repeat match goal with |- context [if (c =? ?k)%N then _ else _] =>
    destruct (N.eqb_spec c k) as [->|]; [done|] end.
  destruct (_ && _) eqn:Hp.
  - apply andb_true_iff in Hp as [H1 H2]. rewrite N.leb_le in H1, H2. cbn.
    destruct (N.eqb_spec c 34), (N.eqb_spec c 92); try done.
    destruct (N.ltb_spec c 32); [lia|done].
  - destruct (N.ltb_spec c 65536).
    + rewrite <- !app_comm_cons. by apply parse_unicode.
    + rewrite <- !app_comm_cons, <- app_assoc, <- !app_comm_cons, parse_pair by lia.
      do 3 f_equal. lia.
Qed.

Lemma parse_string_escape s r :
  str_ok s = true → parse_string (escape s ++ 34%N :: r) = Some (s, r).
Proof.
  induction s as [|c s IH]; intros H; [done|].
  cbn in H. apply andb_true_iff in H as [Hc Hs].
  change (escape (c :: s)) with (escape_char c ++ escape s).
  rewrite <- app_assoc, parse_escape_char, IH by done. done.
Qed.

(** ** Numbers *)

(** What may follow a value: the end, a comma or a closing bracket. *)
Definition delim (r : pystr) : Prop :=
  match r with [] => True | c :: _ => c = 44%N ∨ c = 93%N ∨ c = 125%N end.

Lemma delim_not_digit c r : delim (c :: r) → is_digit c = false.
Proof. by intros [->|[->| ->]]. Qed.

Lemma span_digits ds r :
  forallb is_digit ds = true → delim r → span is_digit (ds ++ r) = (ds, r).
Proof.
  intros Hd Hr. induction ds as [|c ds IH]; cbn in *.
  - destruct r as [|c r]; [done|]. cbn. by rewrite (delim_not_digit c r).
  - apply andb_true_iff in Hd as [Hc Hd]. rewrite Hc, IH by done. done.
Qed.

Lemma digits_head_nonzero n : (n ≠ 0)%N → ∃ c ds, digits n = c :: ds ∧ c ≠ 48%N.
Proof.
  unfold digits. generalize (digits_fuel n). generalize (S (N.to_nat (N.size n))).
  intros fuel. revert n. induction fuel as [|fuel IH]; intros n Hf Hn.
  { change (10 ^ N.of_nat 0)%N with 1%N in Hf. lia. }
  cbn [digits_aux]. destruct (N.ltb_spec n 10) as [H|H].
  - eexists _, _. split; [done|]. rewrite N.mod_small by done. lia.
  - rewrite digits_aux_app. destruct (IH (n / 10)%N) as (c & ds & E & Hc).
    + apply N.Div0.div_lt_upper_bound. rewrite <- N.pow_succ_r'. by rewrite <- Nat2N.inj_succ.
    + assert (1 ≤ n / 10)%N; [|lia]. by apply N.div_le_lower_bound.
    + rewrite E. by eexists _, _.
Qed.

Lemma parse_int_digits_digits n r :
  delim r → parse_int_digits (digits n ++ r) = (digits n, r).
Proof.
  intros Hr. destruct (N.eq_dec n 0%N) as [->|Hn]; [done|].
  destruct (digits_head_nonzero n Hn) as (c & ds & E & Hc). rewrite E. cbn.
  destruct (N.eqb_spec c 48); [done|].
  change (span is_digit ((c :: ds) ++ r) = (c :: ds, r)). rewrite <- E.
  apply span_digits; [apply digits_all|done].
Qed.

Lemma delim_no_frac r : delim r → parse_frac r = ([], r) ∧ parse_exp r = ([], r).
Proof.
  destruct r as [|c r]; [done|]. by intros [->|[->| ->]].
Qed.

Lemma parse_number_str z r :
  delim r → (length (digits (Z.abs_N z)) ≤ max_int_digits)%nat →
  parse_number (str_of_Z z ++ r) = Some (JInt z, r).
Proof.
  intros Hr Hl. unfold parse_number, str_of_Z. destruct (delim_no_frac r Hr) as [Ef Ee].
  assert ((max_int_digits <? length (digits (Z.abs_N z)))%nat = false) as Hlen
    by by apply Nat.ltb_ge.
  destruct (Z.ltb_spec z 0).
  - change (head _) with (Some 45%N). rewrite bool_decide_eq_true_2 by done. cbn [tail app].
    rewrite parse_int_digits_digits, bool_decide_eq_false_2, Ef, Ee by auto with s2p.
    cbn -[Nat.ltb]. rewrite Hlen, num_of_digits_digits. do 3 f_equal. lia.
  - rewrite bool_decide_eq_false_2.
    + rewrite parse_int_digits_digits, bool_decide_eq_false_2, Ef, Ee by auto with s2p.
      cbn -[Nat.ltb]. rewrite Hlen, num_of_digits_digits. do 3 f_equal. lia.
    + pose proof (digits_all (Z.abs_N z)) as Hd. pose proof (digits_nonempty (Z.abs_N z)).
      destruct (digits _) as [|c ds]; [done|]. cbn. intros [= ->]. discriminate.
Qed.

(** A number is not one of the literal words. *)
Lemma parse_literal_str z r : delim r → parse_literal (str_of_Z z ++ r) = None.
Proof.
  intros Hr. unfold parse_literal.
  assert (∀ c s, is_digit c = true → Forall (λ kv, ¬ starts_with kv.1 (c :: s) = true) literals
                 ∧ Forall (λ kv, ¬ starts_with kv.1 (45%N :: c :: s) = true) literals) as Hlit.
  { intros c s Hc. split; repeat constructor; cbn; unfold starts_with;
      intros E%bool_decide_eq_true; cbv [u] in E; cbn in E; injection E; intros; subst; discriminate. }
  assert (∃ c s, is_digit c = true ∧
    (str_of_Z z ++ r = c :: s ∨ str_of_Z z ++ r = 45%N :: c :: s)) as (c & s & Hc & E).
  { unfold str_of_Z. pose proof (digits_all (Z.abs_N z)) as Hd.
    pose proof (digits_nonempty (Z.abs_N z)). destruct (digits _) as [|c ds]; [done|].
    cbn in Hd. apply andb_true_iff in Hd as [Hd _].
    exists c, (ds ++ r). split; [done|]. destruct (z <? 0); auto. }
  destruct (Hlit c s Hc) as [H1 H2].
  assert (list_find (λ kv, starts_with kv.1 (str_of_Z z ++ r) = true) literals = None) as ->; [|done].
  apply list_find_None. by destruct E as [-> | ->].
Qed.

(** ** Values *)

Lemma eat_eq c r : eat c (c :: r) = Some r.
Proof. cbn. by rewrite N.eqb_refl. Qed.

Lemma eat_ne c x r : x ≠ c → eat c (x :: r) = None.
Proof. intros H. cbn. by destruct (N.eqb_spec x c). Qed.

(** The first character of a printed value. *)
Definition starts_value (s : pystr) : Prop :=
  ∃ c r, s = c :: r ∧ is_ws c = false ∧ c ≠ 93%N ∧ c ≠ 125%N.

Lemma skip_ws_id s : starts_value s → skip_ws s = s.
Proof. intros (c & r & -> & Hc & _). unfold skip_ws. cbn. by rewrite Hc. Qed.

Lemma skip_ws_delim r : delim r → skip_ws r = r.
Proof. destruct r as [|c r]; [done|]. by intros [->|[->| ->]]. Qed.

Lemma str_of_Z_starts z r : starts_value (str_of_Z z ++ r).
Proof.
  pose proof (digits_all (Z.abs_N z)) as Hd. pose proof (digits_nonempty (Z.abs_N z)).
  unfold str_of_Z. destruct (digits _) as [|c ds]; [done|].
  cbn in Hd. apply andb_true_iff in Hd as [Hd _]. unfold is_digit, in_range in Hd.
  rewrite andb_true_iff, !N.leb_le in Hd.
  destruct (z <? 0); eexists _, _; split; try done; split_and!; try done; try lia.
  unfold is_ws, one_of. apply bool_decide_eq_false. rewrite !elem_of_cons, elem_of_nil. lia.
Qed.

Lemma dumps_starts v r : json_ok v → starts_value (dumps_canonical v ++ r).
Proof.
  destruct v as [|[]|z|t|s|l|m]; intros H; try done; try (eexists _, _; by split_and!).
  apply str_of_Z_starts.
Qed.

(** Fuel that parsing a printed value needs. *)
Fixpoint need (v : json) : nat :=
  match v with
  | JArr l => S ((fix go l := match l with [] => 0 | x :: l => S (need x) + go l end) l)%nat
  | JObj m => S ((fix go m := match m with [] => 0 | (_, x) :: m => S (need x) + go m end) m)%nat
  | _ => 1%nat
  end.
Definition need_list (l : list json) : nat := foldr (λ x n, S (need x) + n)%nat 0%nat l.

Lemma need_arr l : need (JArr l) = S (need_list l).
Proof. reflexivity. Qed.
Lemma need_obj m : need (JObj m) = S (need_list m.*2).
Proof. cbn. f_equal. induction m as [|[k x] m IH]; cbn; [done|]. by rewrite IH. Qed.

Lemma need_list_perm l k : l ≡ₚ k → need_list l = need_list k.
Proof. unfold need_list. induction 1; cbn [foldr] in *; lia. Qed.

Lemma obj_set_fresh m k v : k ∉ m.*1 → obj_set m k v = m ++ [(k, v)].
Proof.
  induction m as [|[k' v'] m IH]; cbn; [done|]. rewrite not_elem_of_cons. intros [Hk Hm].
  unfold str_eqb. rewrite bool_decide_eq_false_2 by done. by rewrite IH.
Qed.

(** What parsing a value at the front of a text means. *)
Definition parses (v : json) : Prop :=
  ∀ fuel r, (need v ≤ fuel)%nat → delim r →
    parse_value fuel (dumps_canonical v ++ r) = Some (norm v, r).

Lemma parse_elems_ok l fuel r :
  l ≠ [] → Forall json_ok l → Forall parses l → (need_list l ≤ fuel)%nat →
  parse_elems fuel (join (u ",") (dumps_canonical <$> l) ++ 93%N :: r) = Some (norm <$> l, r).
Proof.
  intros Hne Hok Hp. revert fuel.
  induction Hp as [|x l Hx Hl IH]; intros fuel Hf; [done|].
  apply Forall_cons in Hok as [Hxok Hok]. cbn in Hf. destruct fuel as [|fuel]; [lia|].
  cbn [parse_elems]. destruct l as [|y l].
  - cbn [fmap list_fmap join]. rewrite Hx by (lia || by right; left). done.
  - change (join _ _) with
      (dumps_canonical x ++ u "," ++ join (u ",") (dumps_canonical <$> y :: l)).
    rewrite <- !app_assoc, Hx by (lia || by left). cbn [mbind option_bind].
    change (skip_ws (u "," ++ ?s)) with (44%N :: s).
    rewrite eat_ne, eat_eq by done. cbn [mbind option_bind].
    rewrite skip_ws_id; [rewrite IH by (done || (cbn in *; lia)); done|].
    apply Forall_cons in Hok as [Hy _]. cbn [fmap list_fmap].
    destruct l; [apply dumps_starts, Hy|]. cbn [join fmap list_fmap].
    rewrite <- app_assoc. by apply dumps_starts.
Qed.

Definition member_text (kv : pystr * json) : pystr :=
  quoted kv.1 ++ u ":" ++ dumps_canonical kv.2.

Lemma parse_members_ok m acc fuel r :
  m ≠ [] → NoDup (acc ++ m).*1 → Forall (λ kv, str_ok kv.1 = true ∧ json_ok kv.2) m →
  Forall (λ kv, parses kv.2) m → (need_list m.*2 ≤ fuel)%nat →
  parse_members fuel acc (join (u ",") (member_text <$> m) ++ 125%N :: r)
  = Some (acc ++ (prod_map id norm <$> m), r).
Proof.
  intros Hne Hnd Hok Hp. revert acc fuel Hnd.
  induction Hp as [|[k x] m Hx Hm IH]; intros acc fuel Hnd Hf; [done|].
  apply Forall_cons in Hok as [[Hk Hxok] Hok]. cbn in Hf. destruct fuel as [|fuel]; [lia|].
  assert (k ∉ acc.*1) as Hfresh.
  { rewrite fmap_app in Hnd. apply NoDup_app in Hnd as (_ & Hd & _).
    intros Hin. apply (Hd k Hin). left. }
  assert (∀ tl, delim tl → starts_value (dumps_canonical x ++ tl)) as Hsv.
  { intros. by apply dumps_starts. }
  assert (∀ tl, delim tl →
    (s ← eat 34 (member_text (k, x) ++ tl); '(k', r) ← parse_string s;
     r ← eat 58 (skip_ws r); '(v, r) ← parse_value fuel (skip_ws r); Some (k', v, r))
    = Some (k, norm x, tl)) as Hstep.
  { intros tl Htl. unfold member_text, quoted. cbn [fst snd]. rewrite <- !app_comm_cons, eat_eq.
    cbn [mbind option_bind]. rewrite <- !app_assoc. cbn [app].
    rewrite parse_string_escape by done. cbn [mbind option_bind].
    change (skip_ws (u ":" ++ ?s)) with (58%N :: s). rewrite eat_eq. cbn [mbind option_bind].
    rewrite skip_ws_id by auto. rewrite Hx by (done || (cbn in *; lia)). done. }
  cbn [parse_members]. destruct m as [|[k2 y] m].
  - cbn [fmap list_fmap join]. specialize (Hstep (125%N :: r) ltac:(by right; right)).
    destruct (eat 34 _) as [s|]; cbn [mbind option_bind] in *; [|done].
    destruct (parse_string s) as [[k' r1]|]; cbn [mbind option_bind] in *; [|done].
    destruct (eat 58 _) as [r2|]; cbn [mbind option_bind] in *; [|done].
    destruct (parse_value fuel _) as [[v r3]|]; cbn [mbind option_bind] in *; [|done]. simplify_eq.
    by rewrite (obj_set_fresh _ _ _ Hfresh).
  - change (join _ _) with
      (member_text (k, x) ++ u "," ++ join (u ",") (member_text <$> (k2, y) :: m)).
    rewrite <- !app_assoc.
    set (tl := u "," ++ _ ++ _). specialize (Hstep tl ltac:(by left)).
    destruct (eat 34 _) as [s|]; cbn [mbind option_bind] in *; [|done].
    destruct (parse_string s) as [[k' r1]|]; cbn [mbind option_bind] in *; [|done].
    destruct (eat 58 _) as [r2|]; cbn [mbind option_bind] in *; [|done].
    destruct (parse_value fuel _) as [[v r3]|]; cbn [mbind option_bind] in *; [|done]. simplify_eq.
    unfold tl. change (skip_ws (u "," ++ ?s)) with (44%N :: s).
    rewrite eat_ne, eat_eq by done. cbn [mbind option_bind].
    rewrite skip_ws_id by (destruct m; eexists _, _; by split_and!).
    rewrite (obj_set_fresh _ _ _ Hfresh).
    rewrite IH; [by rewrite <- app_assoc|done|done| |cbn in *; lia].
    rewrite <- app_assoc, fmap_app. rewrite fmap_app in Hnd. exact Hnd.
Qed.

Lemma dumps_obj m :
  dumps_canonical (JObj m) = u "{" ++ join (u ",") (member_text <$> sort_keys m) ++ u "}".
Proof.
  unfold dumps_canonical. cbn [dumps]. do 3 f_equal.
  change ((λ kv, (kv.1, ?f kv.2)) <$> m) with (prod_map id f <$> m).
  rewrite sort_keys_fmap, <- list_fmap_compose. by apply list_fmap_ext; intros ? [] ?.
Qed.

Lemma norm_obj m : norm (JObj m) = JObj (prod_map id norm <$> sort_keys m).
Proof.
  cbn [norm]. f_equal. change ((λ kv, (kv.1, norm kv.2)) <$> m) with (prod_map id norm <$> m).
  apply sort_keys_fmap.
Qed.

Lemma sort_keys_nil {A} (m : list (pystr * A)) : sort_keys m = [] → m = [].
Proof.
  intros H. pose proof (sort_keys_perm m) as Hp. rewrite H in Hp.
  by apply Permutation_nil_l in Hp.
Qed.

Lemma parses_ok v : json_ok v → parses v.
Proof.
  induction v as [|b|z|t|s|l IH|m IH] using json_ind'; intros Hok fuel r Hf Hr;
    destruct fuel as [|fuel]; try (cbn in Hf; lia); cbn [parse_value].
  - done.
  - by destruct b.
  - destruct (str_of_Z_starts z r) as (c & s & E & _ & _ & _).
    pose proof (parse_literal_str z r Hr) as Hl. pose proof (parse_number_str z r Hr Hok) as Hn.
    pose proof (digits_all (Z.abs_N z)) as Hd. pose proof (digits_nonempty (Z.abs_N z)).
    change (dumps_canonical (JInt z)) with (str_of_Z z).
    assert (∀ k, is_digit k = false → k ≠ 45%N → eat k (str_of_Z z ++ r) = None) as He.
    { intros k Hk Hk'. unfold str_of_Z. destruct (digits _) as [|d ds]; [done|].
      cbn in Hd. apply andb_true_iff in Hd as [Hd _].
      destruct (z <? 0); apply eat_ne; [done|by intros ->; rewrite Hk in Hd]. }
    rewrite !He by done. by rewrite Hl, Hn.
  - done.
  - cbn in Hok. unfold dumps_canonical. cbn [dumps]. unfold quoted. rewrite <- app_comm_cons, eat_eq.
    rewrite <- app_assoc. cbn [app]. by rewrite parse_string_escape.
  - rewrite json_ok_arr in Hok. rewrite need_arr in Hf.
    change (dumps_canonical (JArr l)) with (91%N :: join (u ",") (dumps_canonical <$> l) ++ u "]").
    rewrite <- app_comm_cons, eat_ne, eat_eq by done. rewrite <- app_assoc.
    destruct l as [|x l]; [done|].
    assert (starts_value (join (u ",") (dumps_canonical <$> x :: l) ++ u "]" ++ r)) as Hs.
    { apply Forall_cons in Hok as [Hx _]. cbn [fmap list_fmap].
      destruct l; cbn [join fmap list_fmap]; [by apply dumps_starts|].
      rewrite <- app_assoc. by apply dumps_starts. }
    rewrite skip_ws_id by done. destruct Hs as (c & s & E & _ & Hc & _).
    rewrite E, eat_ne by done. rewrite <- E.
    change (u "]" ++ r) with (93%N :: r).
    rewrite parse_elems_ok; [done|done|done| |lia].
    rewrite Forall_forall in IH, Hok |- *. eauto.
  - rewrite dumps_obj, norm_obj. rewrite json_ok_obj in Hok. destruct Hok as [Hnd Hok].
    rewrite need_obj in Hf. pose proof (sort_keys_perm m) as Hp.
    rewrite <- app_assoc. change (u "{" ++ ?s) with (123%N :: s).
    rewrite !eat_ne, eat_eq by done. rewrite <- app_assoc.
    destruct (sort_keys m) as [|kv sm] eqn:Es; [done|].
    rewrite skip_ws_id by (destruct sm; eexists _, _; by split_and!).
    assert (eat 125 (join (u ",") (member_text <$> kv :: sm) ++ u "}" ++ r) = None) as ->
      by by destruct sm.
    change (u "}" ++ r) with (125%N :: r). rewrite parse_members_ok; [done|done| | | |].
    + cbn [app]. by rewrite Hp.
    + by rewrite Hp.
    + rewrite Hp. rewrite Forall_forall in IH, Hok |- *. naive_solver.
    + rewrite (need_list_perm (kv :: sm).*2 m.*2) by (by rewrite Hp). lia.
Qed.

(** Two units of fuel per printed character are enough. *)
Lemma join_length sep (l : list pystr) :
  length (join sep l) = (sum_list (length <$> l) + length sep * (length l - 1))%nat.
Proof.
  induction l as [|x l IH]; cbn; [lia|]. destruct l as [|y l]; cbn in *; [lia|].
  rewrite !length_app, IH. lia.
Qed.

Lemma need_length v : json_ok v → (need v ≤ 2 * length (dumps_canonical v))%nat.
Proof.
  induction v as [|b|z|t|s|l IH|m IH] using json_ind'; intros Hok; try (cbn; lia).
  - vm_compute. lia.
  - destruct b; vm_compute; lia.
  - unfold dumps_canonical. cbn [dumps need]. unfold str_of_Z.
    pose proof (digits_nonempty (Z.abs_N z)). destruct (digits _); [done|].
    destruct (z <? 0); cbn; lia.
  - done.
  - rewrite json_ok_arr in Hok. rewrite need_arr.
    change (dumps_canonical (JArr l)) with (91%N :: join (u ",") (dumps_canonical <$> l) ++ u "]").
    cbn [length]. rewrite length_app, join_length, length_fmap. change (length (u "]")) with 1%nat.
    change (length (u ",")) with 1%nat.
    assert (need_list l ≤ length l + 2 * sum_list (length <$> (dumps_canonical <$> l)))%nat.
    { clear -IH Hok. induction l as [|x l IHl]; [cbn; lia|].
      apply Forall_cons in IH as [Hx IH], Hok as [Hxok Hok].
      specialize (IHl IH Hok). specialize (Hx Hxok).
      change (need_list (x :: l)) with (S (need x + need_list l)). rewrite !fmap_cons.
      cbn [sum_list length]. unfold id in *. lia. }
    lia.
  - rewrite json_ok_obj in Hok. destruct Hok as [_ Hok]. rewrite need_obj, dumps_obj.
    rewrite !length_app, join_length, length_fmap.
    change (length (u "{")) with 1%nat. change (length (u "}")) with 1%nat.
    change (length (u ",")) with 1%nat.
    rewrite (Permutation_length (sort_keys_perm m)).
    assert (sum_list (length <$> (member_text <$> sort_keys m))
            = sum_list (length <$> (member_text <$> m))) as ->
      by by rewrite (sort_keys_perm m).
    assert (need_list m.*2 ≤ length m + 2 * sum_list (length <$> (member_text <$> m)))%nat.
    { clear -IH Hok. induction m as [|[k x] m IHm]; [cbn; lia|].
      apply Forall_cons in IH as [Hx IH], Hok as [[_ Hxok] Hok].
      specialize (IHm IH Hok). specialize (Hx Hxok). cbn [snd] in Hx.
      rewrite !fmap_cons. cbn [snd].
      change (need_list (x :: m.*2)) with (S (need x + need_list m.*2)).
      cbn [sum_list length]. unfold member_text at 1, id at 1. rewrite !length_app. cbn [snd].
      lia. }
    lia.
Qed.

(** [json.loads] of the canonical text is the document with sorted keys. *)
Lemma loads_dumps v : json_ok v → loads (dumps_canonical v) = Some (norm v).
Proof.
  intros Hok. unfold loads.
  pose proof (dumps_starts v [] Hok) as Hs. rewrite app_nil_r in Hs. rewrite skip_ws_id by done.
  rewrite <- (app_nil_r (dumps_canonical v)) at 2. rewrite parses_ok; [done|done| |done].
  pose proof (need_length v Hok). lia.
Qed.

Lemma dumps_canonical_inj v w :
  json_ok v → json_ok w → dumps_canonical v = dumps_canonical w → norm v = norm w.
Proof. intros Hv Hw E. apply loads_dumps in Hv, Hw. rewrite E in Hv. congruence. Qed.

(** ** Sorting again changes nothing *)

Lemma str_leb_total a b : str_leb a b = true ∨ str_leb b a = true.
Proof.
  unfold str_leb. destruct (str_ltb a b) eqn:E1; [|by right]. destruct (str_ltb b a) eqn:E2; [|by left].
  pose proof (str_ltb_trans a b a E1 E2) as E. by rewrite str_ltb_irrefl in E.
Qed.

Definition key_le {A} (x y : pystr * A) : Prop := str_leb x.1 y.1 = true.

Lemma insert_key_sorted {A} k (v : A) m : Sorted key_le m → Sorted key_le (insert_key k v m).
Proof.
  induction 1 as [|[k' v'] m Hs IH Hd]; cbn; [by repeat constructor|].
  destruct (str_leb k k') eqn:E; [by repeat constructor|].
  constructor; [done|]. assert (key_le (k', v') (k, v)) as Hle.
  { destruct (str_leb_total k k') as [?|?]; [congruence|done]. }
  destruct Hd as [|[k2 v2] m Hd]; cbn; [by constructor|].
  destruct (str_leb k k2); by constructor.
Qed.

Lemma sort_keys_sorted {A} (m : list (pystr * A)) : Sorted key_le (sort_keys m).
Proof. induction m as [|[k v] m IH]; cbn; [constructor|]. by apply insert_key_sorted. Qed.

Lemma sort_keys_id {A} (m : list (pystr * A)) : Sorted key_le m → sort_keys m = m.
Proof.
  induction 1 as [|[k v] m Hs IH Hd]; [done|]. cbn. fold (sort_keys m). rewrite IH.
  destruct Hd as [|[k2 v2] m Hd]; cbn; [done|]. unfold key_le in Hd. cbn in Hd. by rewrite Hd.
Qed.

Lemma sort_keys_idemp {A} (m : list (pystr * A)) : sort_keys (sort_keys m) = sort_keys m.
Proof. apply sort_keys_id, sort_keys_sorted. Qed.

Lemma dumps_norm v : dumps_canonical (norm v) = dumps_canonical v.
Proof.
  induction v as [|b|z|t|s|l IH|m IH] using json_ind'; try done.
  - change (norm (JArr l)) with (JArr (norm <$> l)). unfold dumps_canonical. cbn [dumps].
    fold dumps_canonical. do 2 f_equal. f_equal. rewrite <- list_fmap_compose.
    apply list_fmap_ext. intros i x Hx. rewrite Forall_lookup in IH. by eapply IH.
  - rewrite norm_obj, !dumps_obj, sort_keys_fmap, sort_keys_idemp, <- list_fmap_compose.
    do 3 f_equal. apply list_fmap_ext. intros i [k x] Hx. cbn. unfold member_text. cbn.
    do 2 f_equal. f_equal. rewrite Forall_forall in IH. apply (IH (k, x)).
    rewrite <- (sort_keys_perm m). by eapply list_elem_of_lookup_2.
Qed.

Lemma norm_idemp v : json_ok v → norm (norm v) = norm v.
Proof.
  induction v as [|b|z|t|s|l IH|m IH] using json_ind'; intros Hok; try done.
  - apply json_ok_arr in Hok. cbn [norm]. f_equal. rewrite <- list_fmap_compose.
    apply list_fmap_ext. intros i x Hx. rewrite Forall_lookup in IH, Hok. by eauto.
  - apply json_ok_obj in Hok as [_ Hok]. rewrite !norm_obj. f_equal.
    rewrite sort_keys_fmap, sort_keys_idemp, <- list_fmap_compose.
    apply list_fmap_ext. intros i [k x] Hx. cbn. f_equal.
    rewrite Forall_forall in IH, Hok. apply (IH (k, x)); [|apply (Hok (k, x))];
      rewrite <- (sort_keys_perm m); by eapply list_elem_of_lookup_2.
Qed.

(** ** The text is ASCII *)

Lemma hex_char_ascii n : (n < 16)%N → (hex_char n < 128)%N.
Proof. unfold hex_char. destruct (N.ltb_spec n 10); lia. Qed.

Lemma hex4_ascii c : is_ascii (hex4 c) = true.
Proof.
  unfold is_ascii, hex4. cbn [forallb].
  rewrite !andb_true_iff, !N.ltb_lt. split_and!; try done; by apply hex_char_ascii, N.mod_lt.
Qed.

Lemma escape_char_ascii c : is_ascii (escape_char c) = true.
Proof.
  unfold escape_char.
  repeat match goal with |- context [if (?a =? ?b)%N then _ else _] => destruct (a =? b)%N; [done|] end.
  destruct ((32 <=? c) && (c <=? 126))%N eqn:E.
  { rewrite andb_true_iff, !N.leb_le in E. cbn. rewrite andb_true_r. apply N.ltb_lt. lia. }
  destruct (c <? 65536)%N.
  - change (92%N :: 117%N :: hex4 c) with (u "\u" ++ hex4 c). by rewrite is_ascii_app, hex4_ascii.
  - cbv zeta.
    change (is_ascii (u "\u" ++ (hex4 (55296 + (c - 65536) / 1024)
      ++ u "\u" ++ hex4 (56320 + (c - 65536) mod 1024))) = true).
    by rewrite !is_ascii_app, !hex4_ascii.
Qed.

Lemma quoted_ascii s : is_ascii (quoted s) = true.
Proof.
  unfold quoted. change (34%N :: ?a ++ [34%N]) with ([34%N] ++ a ++ [34%N]).
  rewrite !is_ascii_app. cbn [is_ascii forallb andb N.ltb N.compare Pos.compare Pos.compare_cont].
  rewrite andb_true_r. unfold escape. induction s as [|c s IH]; [done|].
  cbn. by rewrite is_ascii_app, escape_char_ascii.
Qed.

Lemma join_ascii sep l :
  is_ascii sep = true → Forall (λ s, is_ascii s = true) l → is_ascii (join sep l) = true.
Proof.
  intros Hs. induction 1 as [|x l Hx Hl IH]; [done|]. destruct l as [|y l]; [done|].
  cbn [join]. by rewrite !is_ascii_app, Hx, Hs.
Qed.

Lemma dumps_ascii v : json_ok v → is_ascii (dumps_canonical v) = true.
Proof.
  induction v as [|b|z|t|s|l IH|m IH] using json_ind'; intros Hok; try done.
  - by destruct b.
  - apply str_of_Z_ascii.
  - apply quoted_ascii.
  - apply json_ok_arr in Hok.
    change (dumps_canonical (JArr l)) with (u "[" ++ join (u ",") (dumps_canonical <$> l) ++ u "]").
    rewrite !is_ascii_app, join_ascii; [done|done|]. apply Forall_fmap.
    rewrite Forall_forall in IH, Hok |- *. cbn. eauto.
  - apply json_ok_obj in Hok as [_ Hok]. rewrite dumps_obj, !is_ascii_app, join_ascii; [done|done|].
    apply Forall_fmap. rewrite (sort_keys_perm m). rewrite Forall_forall in IH, Hok |- *.
    intros [k x] Hx. unfold member_text. cbn [fst snd compose].
    rewrite !is_ascii_app, quoted_ascii.
    pose proof (IH (k, x) Hx (proj2 (Hok (k, x) Hx))) as Ha. cbn [snd] in Ha. by rewrite Ha.
Qed.

(** ** Decoded values equal themselves *)

Lemma obj_get_NoDup m k v : NoDup m.*1 → (k, v) ∈ m → obj_get m k = Some v.
Proof.
  induction m as [|[k' v'] m IH]; [by intros _ []%elem_of_nil|].
  cbn. intros [Hk Hm]%NoDup_cons [[= <- <-]|Hin]%elem_of_cons; [by rewrite str_eqb_refl|].
  destruct (str_eqb k k') eqn:E; [|auto]. apply str_eqb_true in E as ->.
  destruct Hk. apply list_elem_of_fmap. by exists (k', v).
Qed.

Lemma py_eq_arr l k : py_eq (JArr l) (JArr k) = true ↔ Forall2 (λ x y, py_eq x y = true) l k.
Proof.
  revert k. cbn. induction l as [|x l IH]; intros [|y k]; try (split; [done|by inversion 1]).
  - rewrite andb_true_iff. split; [intros [? ?]; constructor; naive_solver|].
    inversion 1; subst. naive_solver.
Qed.

Lemma py_eq_obj m n :
  py_eq (JObj m) (JObj n) = true ↔
  length m = length n ∧ Forall (λ kv, ∃ w, obj_get n kv.1 = Some w ∧ py_eq kv.2 w = true) m.
Proof.
  cbn. rewrite andb_true_iff, Nat.eqb_eq. apply and_iff_compat_l.
  induction m as [|[k v] m IH]; [split; [intros _; constructor|done]|]. split.
  - intros H. destruct (obj_get n k) as [w|] eqn:E; [|done]. apply andb_true_iff in H as [? ?].
    apply Forall_cons. naive_solver.
  - intros [(w & Hw & Hv) H]%Forall_cons. cbn in Hw, Hv. rewrite Hw, Hv. naive_solver.
Qed.

(** When Python's [==] holds between decoded values: the same null or text, equal numbers (booleans
    are 0 and 1), arrays of the same length with equal items, objects of the same size where every
    key of one is a key of the other with an equal value. *)
Inductive json_eq : json → json → Prop :=
  | json_eq_null : json_eq JNull JNull
  | json_eq_str s : json_eq (JStr s) (JStr s)
  | json_eq_num a b x y : num_of a = Some x → num_of b = Some y → float_eqb x y = true → json_eq a b
  | json_eq_arr l k : Forall2 json_eq l k → json_eq (JArr l) (JArr k)
  | json_eq_obj m n : length m = length n →
      Forall (λ kv, ∃ w, obj_get n kv.1 = Some w ∧ json_eq kv.2 w) m → json_eq (JObj m) (JObj n).

Lemma py_eq_true a b : py_eq a b = true ↔ json_eq a b.
Proof.
  revert b. induction a as [|x|z|t|s|l IH|m IH] using json_ind'; intros b.
  1: split; [by destruct b; intros; try done; constructor|by inversion 1].
  1-3: split; [destruct b; intros H; try discriminate H; by econstructor|
               inversion 1; subst; try discriminate; destruct b; try discriminate; naive_solver].
  - split; [|inversion 1; subst; [apply str_eqb_refl|discriminate]].
    destruct b; intros H; try discriminate H. apply str_eqb_true in H as ->. constructor.
  - split.
    + destruct b as [| | | | |k|]; intros H; try discriminate H. apply py_eq_arr in H. constructor.
      revert IH. induction H; intros [? ?]%Forall_cons || intros _; constructor; naive_solver.
    + inversion 1 as [| | |? k Hk|]; subst; [discriminate|]. apply py_eq_arr.
      clear H. revert IH. induction Hk; intros IH; [constructor|]. apply Forall_cons in IH as [? ?].
      constructor; naive_solver.
  - split.
    + destruct b as [| | | | | |n]; intros H; try discriminate H. apply py_eq_obj in H as [Hl H].
      constructor; [done|]. rewrite Forall_forall in IH, H |- *. intros kv Hin.
      destruct (H kv Hin) as (w & Hw & Hv). exists w. split; [done|]. by apply IH.
    + inversion 1 as [| | | |? n Hl Hm]; subst; [discriminate|]. apply py_eq_obj. split; [done|].
      rewrite Forall_forall in IH, Hm |- *. intros kv Hin.
      destruct (Hm kv Hin) as (w & Hw & Hv). exists w. split; [done|]. by apply IH.
Qed.

Lemma py_eq_refl v : json_ok v → py_eq v v = true.
Proof.
  induction v as [|b|z|t|s|l IH|m IH] using json_ind'; intros Hok; try done.
  - by destruct b.
  - cbn. rewrite Z.min_id, Z.sub_diag. apply Z.eqb_refl.
  - apply str_eqb_refl.
  - apply py_eq_arr. apply json_ok_arr in Hok. induction Hok; [constructor|].
    apply Forall_cons in IH as [? ?]. constructor; auto.
  - apply py_eq_obj. apply json_ok_obj in Hok as [Hn Hok]. split; [done|].
    rewrite Forall_forall in IH, Hok |- *. intros [k x] Hx. exists x.
    split; [by apply obj_get_NoDup|]. apply (IH (k, x)); [done|]. by apply (Hok (k, x)).
Qed.

Lemma py_eq_str s v : py_eq v (JStr s) = true → v = JStr s.
Proof. destruct v; cbn; try done. intros H%str_eqb_true. by subst. Qed.

(** Documents that differ only in the order of keys are equal. *)
Lemma py_eq_norm a : ∀ b, json_ok a → json_ok b → norm a = norm b → py_eq a b = true.
Proof.
  induction a as [|x|z|t|s|l IH|m IH] using json_ind'; intros b Ha Hb E;
    destruct b as [|y|z'|t'|s'|k|n]; try discriminate E; try done.
  - injection E as <-. by apply py_eq_refl.
  - injection E as <-. by apply py_eq_refl.
  - injection E as <-. by apply py_eq_refl.
  - injection E as E. apply py_eq_arr. apply json_ok_arr in Ha, Hb.
    revert k Hb E. induction l as [|x l IHl]; intros [|y k] Hb E; try discriminate; [apply Forall2_nil_2|].
    injection E as E1 E2. apply Forall_cons in IH as [? ?], Ha as [? ?], Hb as [? ?].
    constructor; auto.
  - rewrite !norm_obj in E. injection E as E. apply json_ok_obj in Ha as [_ Ha], Hb as [Hn Hb].
    apply py_eq_obj. split.
    + apply (f_equal length) in E. rewrite !length_fmap in E.
      by rewrite (Permutation_length (sort_keys_perm m)), (Permutation_length (sort_keys_perm n)) in E.
    + rewrite Forall_forall in IH, Ha, Hb |- *. intros [k v] Hin.
      assert ((k, norm v) ∈ prod_map id norm <$> sort_keys n) as Hk.
      { rewrite <- E. apply list_elem_of_fmap. exists (k, v). by rewrite (sort_keys_perm m). }
      apply list_elem_of_fmap in Hk as ([k' w] & [= -> Ew] & Hw). rewrite (sort_keys_perm n) in Hw.
      exists w. split; [by apply obj_get_NoDup|].
      apply (IH (k', v)); [done|apply (Ha (k', v)); done|apply (Hb (k', w)); done|done].
Qed.

(** Every dict of the value has distinct keys, as Python's do. *)
Fixpoint dict_ok (v : json) : Prop :=
  match v with
  | JArr l => (fix go l := match l with [] => True | x :: l => dict_ok x ∧ go l end) l
  | JObj m => NoDup m.*1 ∧ (fix go m := match m with [] => True | (_, x) :: m => dict_ok x ∧ go m end) m
  | _ => True
  end.

Lemma dict_ok_arr l : dict_ok (JArr l) ↔ Forall dict_ok l.
Proof.
  cbn. induction l as [|x l IH]; [by split|].
  split; [intros (? & ?)|intros [? ?]%Forall_cons]; try apply Forall_cons; naive_solver.
Qed.

Lemma dict_ok_obj m : dict_ok (JObj m) ↔ NoDup m.*1 ∧ Forall (λ kv, dict_ok kv.2) m.
Proof.
  cbn. apply and_iff_compat_l. induction m as [|[k x] m IH]; [by split|].
  split; [intros (? & ?)|intros [? ?]%Forall_cons]; try apply Forall_cons; naive_solver.
Qed.

Lemma json_ok_dict v : json_ok v → dict_ok v.
Proof.
  induction v as [|b|z|t|s|l IH|m IH] using json_ind'; intros H; try done.
  - apply json_ok_arr in H. apply dict_ok_arr. rewrite Forall_forall in IH, H |- *. auto.
  - apply json_ok_obj in H as [Hn H]. apply dict_ok_obj. split; [done|].
    rewrite Forall_forall in IH, H |- *. intros kv Hkv. apply IH; [done|]. by apply H.
Qed.

Lemma norm_json_ok v : json_ok v → json_ok (norm v).
Proof.
  induction v as [|b|z|t|s|l IH|m IH] using json_ind'; intros H; try done.
  - apply json_ok_arr in H. cbn [norm]. apply json_ok_arr, Forall_fmap.
    rewrite Forall_forall in IH, H |- *. cbn. auto.
  - apply json_ok_obj in H as [Hn H]. rewrite norm_obj. apply json_ok_obj. split.
    + rewrite <- list_fmap_compose. change (fst ∘ prod_map id norm) with (@fst pystr json).
      by rewrite (sort_keys_perm m).
    + apply Forall_fmap. rewrite (sort_keys_perm m). rewrite Forall_forall in IH, H |- *.
      intros [k x] Hx. destruct (H _ Hx). split; cbn in *; [done|]. by apply (IH (k, x)).
Qed.

(** ** Objects up to the order of their keys *)

Lemma obj_get_fmap f m k : obj_get (prod_map id f <$> m) k = f <$> obj_get m k.
Proof. induction m as [|[k' v] m IH]; cbn; [done|]. by destruct (str_eqb k k'). Qed.

Lemma obj_get_elem m k v : obj_get m k = Some v → (k, v) ∈ m.
Proof.
  induction m as [|[k' v'] m IH]; cbn; [done|]. destruct (str_eqb k k') eqn:E.
  - apply str_eqb_true in E as ->. intros [= ->]. apply list_elem_of_here.
  - intros H. apply list_elem_of_further; auto.
Qed.

Lemma obj_get_None m k : obj_get m k = None ↔ k ∉ m.*1.
Proof.
  induction m as [|[k' v'] m IH]; cbn; [split; [by intros _ ?%elem_of_nil|done]|].
  rewrite not_elem_of_cons. destruct (str_eqb k k') eqn:E.
  - apply str_eqb_true in E. split; [done|]. by intros [? _].
  - rewrite IH. split; [|tauto]. intros ?. split; [|done]. intros ->. by rewrite str_eqb_refl in E.
Qed.

Lemma obj_get_perm m n k : NoDup m.*1 → m ≡ₚ n → obj_get m k = obj_get n k.
Proof.
  intros Hn Hp. assert (NoDup n.*1) as Hn' by by rewrite <- Hp.
  destruct (obj_get n k) as [v|] eqn:E.
  - apply obj_get_NoDup; [done|]. rewrite Hp. by apply obj_get_elem.
  - apply obj_get_None in E. apply obj_get_None. by rewrite Hp.
Qed.

Lemma str_leb_antisym a b : str_leb a b = true → str_leb b a = true → a = b.
Proof. unfold str_leb. intros H1%negb_true_iff H2%negb_true_iff. by apply str_ltb_total. Qed.

Lemma str_leb_trans a b c : str_leb a b = true → str_leb b c = true → str_leb a c = true.
Proof.
  unfold str_leb. intros H1%negb_true_iff H2%negb_true_iff. apply negb_true_iff.
  destruct (str_ltb c a) eqn:E; [|done].
  destruct (str_ltb a b) eqn:E1; [by rewrite (str_ltb_trans c a b) in H2|].
  apply str_ltb_total in E1 as ->; [|done]. congruence.
Qed.

(** Two sorted lists of the same items are the same when no key occurs twice. *)
Lemma sorted_keys_unique {A} (l k : list (pystr * A)) :
  Sorted key_le l → Sorted key_le k → NoDup l.*1 → l ≡ₚ k → l = k.
Proof.
  assert (∀ m : list (pystr * A), Sorted key_le m → StronglySorted key_le m) as Hs.
  { apply Sorted_StronglySorted. intros x y z. apply str_leb_trans. }
  intros Hl%Hs Hk%Hs. clear Hs. revert k Hk. induction Hl as [|x l Hl IH Hx]; intros k Hk Hn Hp.
  { by apply Permutation_nil_l in Hp as ->. }
  destruct Hk as [|y k Hk Hy]; [by apply Permutation_nil_r in Hp|].
  apply NoDup_cons in Hn as [Hxn Hn].
  assert (x = y) as ->.
  { assert (x ∈ y :: k) as Hin by (rewrite <- Hp; apply list_elem_of_here).
    assert (y ∈ x :: l) as Hin' by (rewrite Hp; apply list_elem_of_here).
    apply elem_of_cons in Hin as [|Hin], Hin' as [|Hin']; try congruence.
    rewrite Forall_forall in Hx, Hy. pose proof (Hx y Hin'). pose proof (Hy x Hin).
    assert (x.1 = y.1) as E by by apply str_leb_antisym.
    destruct Hxn. rewrite E. apply list_elem_of_fmap. by exists y. }
  f_equal. apply IH; [done..|]. by apply Permutation_cons_inv in Hp.
Qed.

Lemma sort_keys_unique {A} (m n : list (pystr * A)) : NoDup m.*1 → m ≡ₚ n → sort_keys m = sort_keys n.
Proof.
  intros Hn Hp. apply sorted_keys_unique; [apply sort_keys_sorted..| |].
  - by rewrite (sort_keys_perm m).
  - by rewrite !sort_keys_perm.
Qed.

Lemma norm_perm m n : NoDup m.*1 → m ≡ₚ n → norm (JObj m) = norm (JObj n).
Proof. intros. rewrite !norm_obj. by rewrite (sort_keys_unique m n). Qed.

Lemma dumps_perm m n : NoDup m.*1 → m ≡ₚ n → dumps_canonical (JObj m) = dumps_canonical (JObj n).
Proof. intros. by rewrite <- dumps_norm, (norm_perm m n), dumps_norm. Qed.

Lemma norm_get m k x : NoDup m.*1 → obj_get m k = Some x →
  obj_get (prod_map id norm <$> sort_keys m) k = Some (norm x).
Proof.
  intros Hn Hk. rewrite obj_get_fmap, (obj_get_perm (sort_keys m) m).
  - by rewrite Hk.
  - by rewrite (sort_keys_perm m).
  - apply sort_keys_perm.
Qed.
