(* ===== verification/JsonPrefix.v ===== *)
(** * Parsing and what follows

    A text that parses as an object parses the same with anything after it: a longer text cannot be
    taken for it, and a strict prefix of an object's text is no object. *)
From S2P Require Import Prelude PyStr Json JsonFacts.

(** What may come right after a value inside of an array or an object. *)
Definition stop (r : pystr) : Prop :=
  match r with [] => False | c :: _ => c ∈ [44; 93; 125; 32; 9; 10; 13]%N end.

Lemma stop_app r t : stop r → stop (r ++ t).
Proof. by destruct r. Qed.

Lemma span_app p s t ds c r : span p s = (ds, c :: r) → span p (s ++ t) = (ds, c :: r ++ t).
Proof.
  revert ds. induction s as [|x s IH]; intros ds H; cbn in *; [done|].
  destruct (p x).
  - destruct (span p s) as [ds' r'] eqn:E. cbn in H. injection H as <- ->. by rewrite (IH ds').
  - by injection H as <- -> ->.
Qed.

Lemma span_empty p s ds : span p s = (ds, []) → forallb p s = true.
Proof.
  revert ds. induction s as [|x s IH]; intros ds H; cbn in *; [done|].
  destruct (p x); [|done]. destruct (span p s) as [ds' r'] eqn:E. cbn in H. injection H as <- ->. by eapply IH.
Qed.

Lemma skip_ws_app s t c r : skip_ws s = c :: r → skip_ws (s ++ t) = c :: r ++ t.
Proof.
  unfold skip_ws. destruct (span is_ws s) as [ds r'] eqn:E. cbn. intros ->. by rewrite (span_app _ _ t _ _ _ E).
Qed.

Lemma eat_inv c s r : eat c s = Some r → s = c :: r.
Proof. unfold eat. destruct s as [|x s]; [done|]. destruct (N.eqb_spec x c) as [->|]; [|done]. by intros [= ->]. Qed.

Lemma eat_skip c s r : eat c (skip_ws s) = Some r →
  ∀ t, eat c (skip_ws (s ++ t)) = Some (r ++ t).
Proof. intros H%eat_inv t. by rewrite (skip_ws_app _ t _ _ H), eat_eq. Qed.

Lemma eat_skip_none c s : eat c (skip_ws s) = None → skip_ws s ≠ [] →
  ∀ t, eat c (skip_ws (s ++ t)) = None.
Proof.
  intros H Hne t. destruct (skip_ws s) as [|x r] eqn:E; [done|]. rewrite (skip_ws_app _ t _ _ E).
  unfold eat in *. by destruct (x =? c)%N.
Qed.

Lemma skip_ws_stop s c r : skip_ws s = c :: r → c ∈ [44; 93; 125]%N → stop s.
Proof.
  unfold skip_ws. destruct s as [|x s]; [done|]. cbn. destruct (is_ws x) eqn:E.
  - intros _ _. unfold is_ws, one_of in E. apply bool_decide_eq_true in E. set_solver.
  - cbn. intros [= -> ->] H. set_solver.
Qed.

(** ** Strings *)

Definition string_app (s : pystr) : Prop :=
  ∀ x r t, parse_string s = Some (x, r) → parse_string (s ++ t) = Some (x, r ++ t).

Lemma cons_app h s x r t : string_app s →
  prod_map (cons h) id <$> parse_string s = Some (x, r) →
  prod_map (cons h) id <$> parse_string (s ++ t) = Some (x, r ++ t).
Proof.
  intros IH H. destruct (parse_string s) as [[y r']|] eqn:E; [|done].
  cbn in H. injection H as <- <-. by rewrite (IH _ _ t E).
Qed.

(** What follows a high surrogate: the low half of a pair, or anything else. *)
Definition after_high (h : N) (s3 : pystr) : option (pystr * pystr) :=
  match s3 with
  | x :: y :: a' :: b' :: c' :: d' :: s4 =>
      if (x =? 92)%N && (y =? 117)%N then
        match hex4_val a' b' c' d' with
        | None => None
        | Some l =>
            if is_low l then
              prod_map (cons (65536 + (h - 55296) * 1024 + (l - 56320))%N) id <$> parse_string s4
            else prod_map (cons h) id <$> parse_string s3
        end
      else prod_map (cons h) id <$> parse_string s3
  | _ => prod_map (cons h) id <$> parse_string s3
  end.

Lemma after_high_short h s3 x r t : (length s3 < 6)%nat → string_app s3 →
  prod_map (cons h) id <$> parse_string s3 = Some (x, r) → after_high h (s3 ++ t) = Some (x, r ++ t).
Proof.
  intros Hl IH H. pose proof (cons_app h s3 x r t IH H) as Ha. unfold after_high.
  destruct s3 as [|a s3]; [done|].
  destruct (N.eqb_spec a 92) as [->|Hn].
  - destruct s3 as [|b s3]; [done|]. destruct (N.eqb_spec b 117) as [->|Hb].
    + exfalso. destruct s3 as [|? [|? [|? [|? ?]]]]; try done. cbn in Hl. lia.
    + rewrite <- Ha. cbn [app]. destruct (s3 ++ t) as [|? [|? [|? [|? ?]]]]; try done.
      apply N.eqb_neq in Hb. by rewrite Hb.
  - rewrite <- Ha. cbn [app]. apply N.eqb_neq in Hn.
    destruct (s3 ++ t) as [|? [|? [|? [|? [|? ?]]]]]; try done. by rewrite Hn.
Qed.

Lemma after_high_app h s3 x r t :
  (∀ s', (length s' ≤ length s3)%nat → string_app s') →
  after_high h s3 = Some (x, r) → after_high h (s3 ++ t) = Some (x, r ++ t).
Proof.
  intros IH H. destruct (Nat.lt_ge_cases (length s3) 6) as [Hlt|Hge].
  - apply after_high_short; [done|by apply IH|]. unfold after_high in H.
    destruct s3 as [|? [|? [|? [|? [|? [|? ?]]]]]]; try done. cbn in Hlt. lia.
  - do 6 (destruct s3 as [|? s3]; [cbn in Hge; lia|]). cbn [app after_high] in *.
    destruct (_ && _) eqn:E.
    + destruct (hex4_val _ _ _ _) as [l|]; [|done]. destruct (is_low l).
      * apply cons_app; [apply IH; cbn; lia|done].
      * rewrite !app_comm_cons. by apply cons_app; [apply IH|].
    + rewrite !app_comm_cons. by apply cons_app; [apply IH|].
Qed.

Lemma parse_string_app s : string_app s.
Proof.
  induction s as [s IH] using (induction_ltof1 _ (@length N)). unfold ltof in IH.
  intros x r t H. destruct s as [|c s1]; [done|]. cbn [parse_string app] in H |- *.
  destruct (c =? 34)%N; [by injection H as <- <-|].
  destruct (c =? 92)%N.
  - destruct s1 as [|e s2]; [done|]. cbn [app]. destruct (e =? 117)%N.
    + destruct s2 as [|h1 [|h2 [|h3 [|h4 s3]]]]; try done. cbn [app].
      destruct (hex4_val h1 h2 h3 h4) as [h|]; [|done]. destruct (is_high h).
      * apply (after_high_app h s3 x r t); [|exact H]. intros s' Hs'. apply IH. cbn. lia.
      * apply cons_app; [apply IH; cbn; lia|done].
    + destruct (simple_escape e); [|done]. apply cons_app; [apply IH; cbn; lia|done].
  - destruct (c <? 32)%N; [done|]. apply cons_app; [apply IH; cbn; lia|done].
Qed.

(** ** Numbers and literals *)

Lemma stop_not_digit c r : stop (c :: r) → is_digit c = false ∧ c ≠ 46%N ∧ one_of (u "eE") c = false.
Proof.
  cbn. intros H. assert (Forall (λ c, is_digit c = false ∧ c ≠ 46%N ∧ one_of (u "eE") c = false)
    [44; 93; 125; 32; 9; 10; 13]%N) as Hf by (repeat constructor; done).
  rewrite Forall_forall in Hf. by apply Hf.
Qed.

(** A character that is none of the literals of a [match] takes its last branch. *)
Ltac off_literal x :=
  let p := fresh "p" in destruct x as [|p]; [done|]; repeat first [done|destruct p as [p|p|]].

Definition exp_digits (c : N) (sg whole digits_ : pystr) : pystr * pystr :=
  let '(ds, r) := span is_digit digits_ in
  if bool_decide (ds = []) then ([], whole) else (c :: sg ++ ds, r).
Lemma exp_digits_app c sg w w' d ex r t :
  exp_digits c sg w d = (ex, r) → (r = w → False) → r ≠ [] →
  exp_digits c sg w' (d ++ t) = (ex, r ++ t).
Proof.
  unfold exp_digits. destruct (span is_digit d) as [ds r'] eqn:E. intros H Hw Hr.
  case_bool_decide; [injection H as <- <-; by destruct Hw|]. injection H as <- <-.
  destruct r' as [|c' r']; [done|]. rewrite (span_app _ _ t _ _ _ E). by rewrite bool_decide_false.
Qed.

Lemma parse_exp_app s ex r t : parse_exp s = (ex, r) → stop r → parse_exp (s ++ t) = (ex, r ++ t).
Proof.
  intros H Hr. destruct s as [|c s]; [by injection H as <- <-|].
  cbn [parse_exp app] in *. destruct (one_of (u "eE") c) eqn:Ec; [|by injection H as <- <-].
  assert (r = c :: s → False) as Hw by (intros ->; apply stop_not_digit in Hr as (_ & _ & Hr); congruence).
  assert (r ≠ []) as Hne by by intros ->.
  destruct s as [|x s].
  { exfalso. cbn in H. injection H as <- <-. by apply Hw. }
  cbn [app]. destruct (decide (x = 43%N)) as [->|H43]; [by apply (exp_digits_app c [43%N] (c :: 43%N :: s))|].
  destruct (decide (x = 45%N)) as [->|H45]; [by apply (exp_digits_app c [45%N] (c :: 45%N :: s))|].
  pose proof (λ w w', exp_digits_app c [] w w' (x :: s) ex r t) as Happ.
  destruct x as [|p]; [by eapply Happ|].
  repeat first [contradiction | eapply Happ; [exact H|exact Hw|exact Hne] | destruct p as [p|p|]].
Qed.

Lemma parse_frac_app s fr r t : parse_frac s = (fr, r) → r ≠ [] → head r ≠ Some 46%N →
  parse_frac (s ++ t) = (fr, r ++ t).
Proof.
  intros H Hr Hh. destruct s as [|c s]; [by injection H as <- <-|].
  destruct (decide (c = 46%N)) as [->|Hc].
  - cbn [parse_frac app] in *. destruct (span is_digit s) as [ds r'] eqn:Es.
    case_bool_decide as Hds; [by injection H as <- <-|]. injection H as <- <-.
    destruct r' as [|c' r']; [done|]. rewrite (span_app _ _ t _ _ _ Es). by rewrite bool_decide_false.
  - assert (∀ s, parse_frac (c :: s) = ([], c :: s)) as Hp.
    { intros s'. cbn. by off_literal c. }
    rewrite Hp in H. injection H as <- <-. apply Hp.
Qed.

Lemma parse_number_app s v r t : parse_number s = Some (v, r) → stop r →
  parse_number (s ++ t) = Some (v, r ++ t).
Proof.
  intros H Hr. destruct s as [|c s]; [done|]. unfold parse_number in *.
  change (head ((c :: s) ++ t)) with (head (c :: s)). set (neg := bool_decide (head (c :: s) = Some 45%N)) in *.
  assert ((if neg then tail ((c :: s) ++ t) else (c :: s) ++ t) = (if neg then tail (c :: s) else c :: s) ++ t) as ->
    by by destruct neg.
  set (s1 := if neg then tail (c :: s) else c :: s) in *. clearbody s1.
  destruct (parse_int_digits s1) as [ds s2] eqn:Ei. case_bool_decide as Hds; [done|].
  destruct (parse_frac s2) as [fr s3] eqn:Ef. destruct (parse_exp s3) as [ex s4] eqn:Ee.
  assert (s4 = r) as -> by (case_match; [case_match; [done|]|]; by simplify_eq).
  assert (s3 ≠ []) as H3 by (intros ->; by injection Ee as <- <-).
  assert (s2 ≠ []) as H2 by (intros ->; by injection Ef as <- <-).
  assert (head s3 ≠ Some 46%N) as Hh.
  { intros Hh. destruct s3 as [|x s3]; [done|]. injection Hh as ->. injection Ee as <- <-.
    by apply stop_not_digit in Hr as (_ & ? & _). }
  assert (parse_int_digits (s1 ++ t) = (ds, s2 ++ t)) as ->.
  { destruct s1 as [|x s1]; [by injection Ei as <- <-|]. cbn [parse_int_digits app] in *.
    destruct (x =? 48)%N; [by injection Ei as <- <-|]. destruct s2 as [|y s2]; [done|].
    exact (span_app _ _ t _ _ _ Ei). }
  rewrite bool_decide_false by done. rewrite (parse_frac_app _ _ _ t Ef H3 Hh), (parse_exp_app _ _ _ t Ee Hr).
  repeat case_match; simplify_eq; done.
Qed.

Lemma parse_literal_inv s v r : parse_literal s = Some (v, r) → ∃ k, (k, v) ∈ literals ∧ s = k ++ r.
Proof.
  unfold parse_literal. destruct (list_find _ literals) as [[i [k x]]|] eqn:E; [|done].
  intros [= -> <-]. apply list_find_Some in E as (Hl & Hs & _). exists k.
  apply list_elem_of_lookup_2 in Hl. split; [done|]. cbn in Hs. unfold starts_with in Hs.
  apply bool_decide_eq_true in Hs. rewrite <- (take_drop (length k) s) at 1. by rewrite Hs.
Qed.

Lemma parse_literal_eq k v r : (k, v) ∈ literals → parse_literal (k ++ r) = Some (v, r).
Proof.
  unfold literals. rewrite !elem_of_cons, elem_of_nil.
  intros [E|[E|[E|[E|[E|[E|[]]]]]]]; injection E as -> ->; cbn; unfold parse_literal; cbn;
    unfold starts_with; cbn; repeat (case_bool_decide; cbn in *; try discriminate; try congruence); done.
Qed.

Lemma number_no_literal s v r t : parse_literal s = None → parse_number s = Some (v, r) →
  parse_literal (s ++ t) = None.
Proof.
  intros Hl Hn. destruct (parse_literal (s ++ t)) as [[w r']|] eqn:E; [|done]. exfalso.
  apply parse_literal_inv in E as (k & Hk & E).
  destruct s as [|c s]; [done|]. unfold parse_number in Hn. cbn [head tail] in Hn.
  unfold literals in Hk. rewrite !elem_of_cons, elem_of_nil in Hk.
  destruct Hk as [Hk|[Hk|[Hk|[Hk|[Hk|[Hk|[]]]]]]]; injection Hk as -> ->; injection E as -> E;
    try (cbn in Hn; discriminate).
  destruct s as [|c s]; [cbn in Hn; discriminate|]. injection E as -> E. cbn in Hn. discriminate.
Qed.

(** ** Values *)

Definition closed (v : json) : Prop := match v with JObj _ | JArr _ | JStr _ => True | _ => False end.

Definition value_app (fuel : nat) : Prop := ∀ s v r t fuel', (fuel ≤ fuel')%nat →
  parse_value fuel s = Some (v, r) → closed v ∨ stop r → parse_value fuel' (s ++ t) = Some (v, r ++ t).
Definition elems_app (fuel : nat) : Prop := ∀ s l r t fuel', (fuel ≤ fuel')%nat →
  parse_elems fuel s = Some (l, r) → parse_elems fuel' (s ++ t) = Some (l, r ++ t).
Definition members_app (fuel : nat) : Prop := ∀ s acc m r t fuel', (fuel ≤ fuel')%nat →
  parse_members fuel acc s = Some (m, r) → parse_members fuel' acc (s ++ t) = Some (m, r ++ t).

Lemma eat_app c s t : s ≠ [] → eat c (s ++ t) = (λ r, r ++ t) <$> eat c s.
Proof. destruct s as [|x s]; [done|]. intros _. cbn. by destruct (x =? c)%N. Qed.

Lemma skip_ws_nonempty_app s t : skip_ws s ≠ [] → skip_ws (s ++ t) = skip_ws s ++ t.
Proof. intros H. destruct (skip_ws s) as [|c r] eqn:E; [done|]. exact (skip_ws_app _ t _ _ E). Qed.

Lemma parse_elems_nonempty fuel s x : parse_elems fuel s = Some x → s ≠ [].
Proof.
  destruct fuel as [|[|fuel]]; [done|done|]. intros H ->. done.
Qed.
Lemma parse_members_nonempty fuel acc s x : parse_members fuel acc s = Some x → s ≠ [].
Proof. destruct fuel; [done|]. by intros H ->. Qed.

Lemma value_step fuel : elems_app fuel → members_app fuel → value_app (S fuel).
Proof.
  intros HE HM s v r t fuel' Hf H Hc. destruct fuel' as [|fuel']; [lia|].
  assert (fuel ≤ fuel')%nat as Hle by lia. cbn [parse_value] in *.
  destruct s as [|c s]; [done|]. rewrite !eat_app by done.
  destruct (eat 34 (c :: s)) as [s1|]; cbn [fmap option_fmap option_map].
  { destruct (parse_string s1) as [[x r1]|] eqn:E; [|done]. injection H as <- <-.
    by rewrite (parse_string_app s1 _ _ t E). }
  destruct (eat 91 (c :: s)) as [s1|]; cbn [fmap option_fmap option_map].
  { destruct (eat 93 (skip_ws s1)) as [r1|] eqn:E.
    { injection H as <- <-. by rewrite (eat_skip _ _ _ E). }
    destruct (parse_elems fuel (skip_ws s1)) as [[l r1]|] eqn:Ee; [|done]. injection H as <- <-.
    pose proof (parse_elems_nonempty _ _ _ Ee) as Hne.
    rewrite (eat_skip_none _ _ E Hne), skip_ws_nonempty_app by done. by rewrite (HE _ _ _ t fuel' Hle Ee). }
  destruct (eat 123 (c :: s)) as [s1|]; cbn [fmap option_fmap option_map].
  { destruct (eat 125 (skip_ws s1)) as [r1|] eqn:E.
    { injection H as <- <-. by rewrite (eat_skip _ _ _ E). }
    destruct (parse_members fuel [] (skip_ws s1)) as [[m r1]|] eqn:Ee; [|done]. injection H as <- <-.
    pose proof (parse_members_nonempty _ _ _ _ Ee) as Hne.
    rewrite (eat_skip_none _ _ E Hne), skip_ws_nonempty_app by done. by rewrite (HM _ _ _ _ t fuel' Hle Ee). }
  destruct (parse_literal (c :: s)) as [[w r1]|] eqn:El.
  - injection H as -> ->. apply parse_literal_inv in El as (k & Hk & ->).
    rewrite <- app_assoc. by rewrite (parse_literal_eq k v).
  - rewrite (number_no_literal _ _ _ t El H). apply parse_number_app; [done|].
    destruct Hc as [Hc|]; [|done]. exfalso. clear -H Hc. unfold parse_number in H.
    repeat case_match; simplify_eq; done.
Qed.

(** After an item comes its closing bracket or a comma. *)
Lemma after_item close r1 : close ∈ [44; 93; 125]%N →
  (∃ r, eat close (skip_ws r1) = Some r) ∨ (∃ r, eat 44 (skip_ws r1) = Some r) → stop r1.
Proof.
  intros Hc [[r H%eat_inv]|[r H%eat_inv]]; eapply skip_ws_stop; try exact H; set_solver.
Qed.

Lemma elems_step fuel : value_app fuel → elems_app fuel → elems_app (S fuel).
Proof.
  intros HV HE s l r t fuel' Hf H. destruct fuel' as [|fuel']; [lia|].
  assert (fuel ≤ fuel')%nat as Hle by lia. cbn [parse_elems] in *.
  destruct (parse_value fuel s) as [[v r1]|] eqn:Ev; [|done]. cbn [mbind option_bind] in H.
  destruct (eat 93 (skip_ws r1)) as [r2|] eqn:E1.
  - injection H as <- <-. rewrite (HV _ _ _ t fuel' Hle Ev) by (right; eapply (after_item 93); [set_solver|eauto]).
    cbn [mbind option_bind]. by rewrite (eat_skip _ _ _ E1).
  - destruct (eat 44 (skip_ws r1)) as [r2|] eqn:E2; [|done]. cbn [mbind option_bind] in H.
    destruct (parse_elems fuel (skip_ws r2)) as [[k r3]|] eqn:Ee; [|done]. injection H as <- <-.
    rewrite (HV _ _ _ t fuel' Hle Ev) by (right; eapply (after_item 93); [set_solver|eauto]).
    cbn [mbind option_bind].
    assert (skip_ws r1 ≠ []) as Hne by (intros En; by rewrite En in E2).
    rewrite (eat_skip_none _ _ E1 Hne), (eat_skip _ _ _ E2). cbn [mbind option_bind].
    rewrite skip_ws_nonempty_app by by eapply parse_elems_nonempty. by rewrite (HE _ _ _ t fuel' Hle Ee).
Qed.

Lemma members_step fuel : value_app fuel → members_app fuel → members_app (S fuel).
Proof.
  intros HV HM s acc m r t fuel' Hf H. destruct fuel' as [|fuel']; [lia|].
  assert (fuel ≤ fuel')%nat as Hle by lia. cbn [parse_members] in *.
  destruct s as [|c s]; [done|]. rewrite eat_app by done.
  destruct (eat 34 (c :: s)) as [s1|]; [|done]. cbn [mbind option_bind fmap option_fmap option_map] in *.
  destruct (parse_string s1) as [[k r0]|] eqn:Es; [|done]. cbn [mbind option_bind] in H.
  rewrite (parse_string_app s1 _ _ t Es). cbn [mbind option_bind].
  destruct (eat 58 (skip_ws r0)) as [r1|] eqn:E0; [|done]. cbn [mbind option_bind] in H.
  rewrite (eat_skip _ _ _ E0). cbn [mbind option_bind].
  destruct (parse_value fuel (skip_ws r1)) as [[v r2]|] eqn:Ev; [|done]. cbn [mbind option_bind] in H.
  assert (skip_ws r1 ≠ []) as Hne1.
  { intros En. rewrite En in Ev. by destruct fuel. }
  rewrite skip_ws_nonempty_app by done.
  destruct (eat 125 (skip_ws r2)) as [r3|] eqn:E1.
  - injection H as <- <-. rewrite (HV _ _ _ t fuel' Hle Ev) by (right; eapply (after_item 125); [set_solver|eauto]).
    cbn [mbind option_bind]. by rewrite (eat_skip _ _ _ E1).
  - destruct (eat 44 (skip_ws r2)) as [r3|] eqn:E2; [|done]. cbn [mbind option_bind] in H.
    rewrite (HV _ _ _ t fuel' Hle Ev) by (right; eapply (after_item 125); [set_solver|eauto]).
    cbn [mbind option_bind].
    assert (skip_ws r2 ≠ []) as Hne by (intros En; by rewrite En in E2).
    rewrite (eat_skip_none _ _ E1 Hne), (eat_skip _ _ _ E2). cbn [mbind option_bind].
    rewrite skip_ws_nonempty_app by by eapply parse_members_nonempty. by apply HM.
Qed.

Lemma parse_value_app fuel : value_app fuel.
Proof.
  assert (value_app fuel ∧ elems_app fuel ∧ members_app fuel) as [H _]; [|done].
  induction fuel as [|fuel (HV & HE & HM)].
  - split_and!; [intros ?????? H|intros ?????? H|intros ??????? H]; done.
  - split_and!; [by apply value_step|by apply elems_step|by apply members_step].
Qed.

(** ** Objects *)

Lemma skip_ws_all s : skip_ws s = [] ↔ forallb is_ws s = true.
Proof.
  unfold skip_ws. split.
  - destruct (span is_ws s) as [ds r] eqn:E. cbn. intros ->. by apply span_empty in E.
  - induction s as [|c s IH]; cbn; [done|]. destruct (is_ws c); [|done]. cbn. intros H%IH.
    destruct (span is_ws s). exact H.
Qed.

(** [json.loads] of a text that begins with that of an object: nothing else may follow. *)
Lemma loads_app s t m : loads s = Some (JObj m) →
  loads (s ++ t) = if bool_decide (skip_ws t = []) then Some (JObj m) else None.
Proof.
  unfold loads. destruct (parse_value _ (skip_ws s)) as [[v r]|] eqn:E; [|done].
  case_bool_decide as Hr; [|done]. intros [= ->].
  assert (skip_ws s ≠ []) as Hne by (intros En; rewrite En in E; by destruct (2 * length s + 2)%nat).
  rewrite skip_ws_nonempty_app by done.
  assert (2 * length s + 2 ≤ 2 * length (s ++ t) + 2)%nat as Hf by (rewrite length_app; lia).
  rewrite (parse_value_app _ _ _ _ t _ Hf E (or_introl I)).
  apply skip_ws_all in Hr. rewrite !(bool_decide_ext (skip_ws _ = []) _ (skip_ws_all _)).
  by rewrite forallb_app, Hr.
Qed.
