(* ===== verification/PyRepr.v ===== *)
(** * Python's [str], [repr] and [bool] of decoded JSON

    A float of decoded JSON is a Decimal under [parse_float=Decimal], except for the constants,
    and a binary float otherwise. *)
From S2P Require Import Prelude PyStr PyDecimal PyFloat Json.

(** The constants NaN and Infinity are floats, every other JSON float is a Decimal. *)
Definition float_constant (t : pystr) : bool :=
  bool_decide (t ∈ [u "NaN"; u "Infinity"; u "-Infinity"]).

(** [str(d)] of a Decimal with coefficient [c] and exponent [e]. *)
Definition dec_str (neg : bool) (c : N) (e : Z) : pystr :=
  let ds := digits c in
  let n := Z.of_nat (length ds) in
  let leftdigits := e + n in
  let dotplace := if (e <=? 0) && (-6 <? leftdigits) then leftdigits else 1 in
  let body :=
    if dotplace <=? 0 then u "0." ++ zeros (- dotplace) ++ ds
    else if n <=? dotplace then ds ++ zeros (dotplace - n)
    else take (Z.to_nat dotplace) ds ++ u "." ++ drop (Z.to_nat dotplace) ds in
  let x := leftdigits - dotplace in
  (if neg then u "-" else []) ++ body
  ++ (if x =? 0 then [] else u "E" ++ (if x <? 0 then [] else u "+") ++ str_of_Z x).

(** [str(Decimal(text))] of a JSON float. *)
Definition dec_json (t : pystr) : pystr :=
  match dec_of_str t with
  | Some (DFin c e) => dec_str (starts_with (u "-") t) (Z.abs_N c) e
  | _ => t
  end.
Definition float_repr (t : pystr) : pystr :=
  if str_eqb t (u "NaN") then u "nan" else if str_eqb t (u "Infinity") then u "inf" else u "-inf".

(** [repr(v)] of decoded JSON, given how a float prints inside and outside of a container. *)
Section repr.
Context (inner outer : pystr → pystr).
Fixpoint repr_with (v : json) : pystr :=
  match v with
  | JNull => u "None"
  | JBool b => if b then u "True" else u "False"
  | JInt z => str_of_Z z
  | JFloat t => inner t
  | JStr s => repr_str s
  | JArr l => u "[" ++ join (u ", ") (map repr_with l) ++ u "]"
  | JObj m => u "{" ++ join (u ", ") (map (λ kv, repr_str kv.1 ++ u ": " ++ repr_with kv.2) m) ++ u "}"
  end.
Definition str_with (v : json) : pystr :=
  match v with JStr s => s | JFloat t => outer t | _ => repr_with v end.
End repr.

(** [str(v)] when floats were read as Decimals, and when they were read as floats. *)
Definition py_str : json → pystr :=
  str_with (λ t, if float_constant t then float_repr t else u "Decimal('" ++ dec_json t ++ u "')")
    (λ t, if float_constant t then float_repr t else dec_json t).
Definition plain_str : json → pystr := str_with float_str float_str.

(** [bool(value)]. *)
Definition py_bool (v : json) : bool :=
  match v with
  | JNull => false | JBool b => b | JInt z => negb (z =? 0)
  | JFloat t => float_constant t || match dec_of_str t with Some d => truthy d | None => true end
  | JStr s => negb (bool_decide (s = [])) | JArr l => negb (length l =? 0)%nat
  | JObj m => negb (length m =? 0)%nat
  end.

Example dec_json_example : dec_json <$> [u "1.50"; u "1e3"; u "-0.0"; u "1.5e-10"]
  = [u "1.50"; u "1E+3"; u "-0.0"; u "1.5E-10"].
Proof. vm_compute. reflexivity. Qed.
