(* ===== verification/PyTime.v ===== *)
(** * Python's [datetime] in UTC

    The proleptic Gregorian calendar of the [datetime] module, aware datetimes as instants counted
    in microseconds, and the text [strftime] gives them in UTC. Different instants have different
    texts. *)
From S2P Require Import Prelude PyStr.

(** ** The calendar *)

Definition is_leap (y : Z) : bool :=
  (y mod 4 =? 0) && (negb (y mod 100 =? 0) || (y mod 400 =? 0)).
Definition days_in_month (y m : Z) : Z :=
  if m =? 2 then if is_leap y then 29 else 28
  else if bool_decide (m ∈ [4; 6; 9; 11]) then 30 else 31.

(** The proleptic Gregorian ordinal of a date; 1970-01-01 has 719163. *)
Definition days_before_year (y : Z) : Z := let y := y - 1 in y * 365 + y / 4 - y / 100 + y / 400.
Fixpoint days_before_month (y : Z) (m : nat) : Z :=
  match m with
  | O => 0
  | S m => days_before_month y m + (if (m =? 0)%nat then 0 else days_in_month y (Z.of_nat m))
  end.
Definition ymd2ord (y m d : Z) : Z := days_before_year y + days_before_month y (Z.to_nat m) + d.
Definition EPOCH_ORDINAL : Z := 719163.

(** [date.fromordinal(n)]: the year's number of whole 400-, 100-, 4- and 1-year cycles first. *)
Definition _DAYS_BEFORE_MONTH : list Z :=
  [-1; 0; 31; 59; 90; 120; 151; 181; 212; 243; 273; 304; 334].
Definition preceding (m : Z) (leap : bool) : Z :=
  default 0 (_DAYS_BEFORE_MONTH !! Z.to_nat m) + (if (2 <? m) && leap then 1 else 0).
(** Month and day of the [n]-th day of a year, counted from 0. *)
Definition month_day (leap : bool) (n : Z) : Z * Z :=
  let m := (n + 50) / 32 in
  let m := if n <? preceding m leap then m - 1 else m in
  (m, n - preceding m leap + 1).

Definition ord2ymd (ordinal : Z) : Z * Z * Z :=
  let n := ordinal - 1 in
  let n400 := n / 146097 in
  let n := n mod 146097 in
  let n100 := n / 36524 in
  let n := n mod 36524 in
  let n4 := n / 1461 in
  let n := n mod 1461 in
  let n1 := n / 365 in
  let n := n mod 365 in
  let year := n400 * 400 + 1 + n100 * 100 + n4 * 4 + n1 in
  if (n1 =? 4) || (n100 =? 4) then (year - 1, 12, 31)
  else
    let leap := (n1 =? 3) && (negb (n4 =? 24) || (n100 =? 3)) in
    let '(m, d) := month_day leap n in (year, m, d).

(** ** Instants *)

(** A [datetime]: whether it is aware, and its instant in microseconds since the epoch. *)
Record datetime := mkDatetime { dt_aware : bool; dt_us : Z }.
#[export] Instance datetime_eq_dec : EqDecision datetime.
Proof. solve_decision. Defined.

Definition US_PER_DAY : Z := 86400000000.
(** The instants a datetime in UTC can hold: years 1 to 9999. *)
Definition MIN_US : Z := (1 - EPOCH_ORDINAL) * US_PER_DAY.
Definition MAX_US : Z := (3652059 - EPOCH_ORDINAL + 1) * US_PER_DAY - 1.

(** The last [k] decimal digits of [n]. *)
Fixpoint zpad (k : nat) (n : N) : pystr :=
  match k with O => [] | S k => zpad k (n / 10) ++ [48 + n mod 10]%N end.

Definition zp (k : nat) (n : Z) : pystr := zpad k (Z.to_N n).

(** [strftime("%Y-%m-%dT%H:%M:%S.%fZ")] of the instant in UTC. *)
Definition utc_text (us : Z) : pystr :=
  let t := us mod US_PER_DAY in
  let '(y, m, d) := ord2ymd (us / US_PER_DAY + EPOCH_ORDINAL) in
  zp 4 y ++ u "-" ++ zp 2 m ++ u "-" ++ zp 2 d ++ u "T" ++ zp 2 (t / 3600000000) ++ u ":"
  ++ zp 2 (t / 60000000 mod 60) ++ u ":" ++ zp 2 (t / 1000000 mod 60) ++ u "."
  ++ zp 6 (t mod 1000000) ++ u "Z".

Example utc_text_examples :
  utc_text 0 = u "1970-01-01T00:00:00.000000Z"
  ∧ utc_text 1709251199000001 = u "2024-02-29T23:59:59.000001Z"
  ∧ utc_text MIN_US = u "0001-01-01T00:00:00.000000Z"
  ∧ utc_text MAX_US = u "9999-12-31T23:59:59.999999Z".
Proof. vm_compute. repeat split. Qed.

(** ** Padded numbers *)

Lemma zpad_length k n : length (zpad k n) = k.
Proof. revert n. induction k as [|k IH]; intros n; cbn; [done|]. rewrite length_app, IH. cbn. lia. Qed.

Lemma zpad_digits k n : forallb is_digit (zpad k n) = true.
Proof.
  revert n. induction k as [|k IH]; intros n; cbn; [done|]. rewrite forallb_app, IH. cbn.
  rewrite andb_true_r. unfold is_digit, in_range. rewrite andb_true_iff, !N.leb_le.
  pose proof (N.mod_lt n 10 ltac:(done)) as Hm. revert Hm. generalize (n mod 10)%N. lia.
Qed.

Lemma zpad_value k n : (n < 10 ^ N.of_nat k)%N → num_of_digits 0 (zpad k n) = n.
Proof.
  revert n. induction k as [|k IH]; intros n Hn; [cbn in *; lia|]. cbn [zpad].
  rewrite num_of_digits_app, IH; cbn [num_of_digits].
  - pose proof (N.div_mod n 10 ltac:(done)) as Hd. pose proof (N.mod_lt n 10 ltac:(done)) as Hm.
    revert Hd Hm. generalize (n mod 10)%N, (n / 10)%N. lia.
  - apply N.Div0.div_lt_upper_bound. rewrite Nat2N.inj_succ, N.pow_succ_r' in Hn. done.
Qed.

(** ** The calendar counts days *)

Definition next_day (y m d : Z) : Z * Z * Z :=
  if d <? days_in_month y m then (y, m, d + 1) else if m <? 12 then (y, m + 1, 1) else (y + 1, 1, 1).

Lemma days_before_year_succ y :
  days_before_year (y + 1) = days_before_year y + (if is_leap y then 366 else 365).
Proof.
  unfold days_before_year, is_leap. replace (y + 1 - 1) with y by lia.
  assert (y / 4 = (y - 1) / 4 + (if y mod 4 =? 0 then 1 else 0)) as H4
    by (destruct (Z.eqb_spec (y mod 4) 0); divlia).
  assert (y / 100 = (y - 1) / 100 + (if y mod 100 =? 0 then 1 else 0)) as H100
    by (destruct (Z.eqb_spec (y mod 100) 0); divlia).
  assert (y / 400 = (y - 1) / 400 + (if y mod 400 =? 0 then 1 else 0)) as H400
    by (destruct (Z.eqb_spec (y mod 400) 0); divlia).
  assert (y mod 100 = 0 → y mod 4 = 0) by divlia. assert (y mod 400 = 0 → y mod 100 = 0) by divlia.
  revert H4 H100 H400. destruct (y mod 4 =? 0) eqn:E4, (y mod 100 =? 0) eqn:E1, (y mod 400 =? 0) eqn:E40; cbn; lia.
Qed.

(** The ordinal counts days: the next date has the next ordinal. *)
Lemma ymd2ord_next y m d :
  1 ≤ m ≤ 12 → 1 ≤ d ≤ days_in_month y m →
  let '(y', m', d') := next_day y m d in ymd2ord y' m' d' = ymd2ord y m d + 1.
Proof.
  intros Hm Hd. unfold next_day. destruct (Z.ltb_spec d (days_in_month y m)); [unfold ymd2ord; lia|].
  assert (d = days_in_month y m) as -> by lia. clear H Hd. unfold ymd2ord.
  destruct (Z.ltb_spec m 12).
  - rewrite (Z2Nat.inj_add m 1) by lia. rewrite Nat.add_1_r. cbn [days_before_month].
    destruct (Nat.eqb_spec (Z.to_nat m) 0); [lia|]. rewrite Z2Nat.id by lia. lia.
  - assert (m = 12) as -> by lia. rewrite days_before_year_succ.
    change (days_before_month (y + 1) (Z.to_nat 1)) with 0.
    assert (days_before_month y (Z.to_nat 12) = if is_leap y then 335 else 334) as ->.
    { vm_compute (Z.to_nat 12). cbn. unfold days_in_month. cbn. by destruct (is_leap y). }
    change (days_in_month y 12) with 31. destruct (is_leap y); lia.
Qed.


(** Every month and day of both kinds of year, by computation. *)
Definition month_day_ok (leap : bool) (n : Z) : bool :=
  let y := if leap then 4 else 1 in
  let '(m, d) := month_day leap n in
  (1 <=? m) && (m <=? 12) && (1 <=? d) && (d <=? days_in_month y m)
  && (days_before_month y (Z.to_nat m) + d =? n + 1).

Lemma month_day_table :
  forallb (λ n, month_day_ok false (Z.of_nat n)) (seq 0 365)
  && forallb (λ n, month_day_ok true (Z.of_nat n)) (seq 0 366) = true.
Proof. vm_compute. reflexivity. Qed.

Lemma days_before_month_leap y y' m :
  is_leap y = is_leap y' → days_before_month y m = days_before_month y' m.
Proof.
  intros H. induction m as [|m IH]; cbn; [done|]. rewrite IH. unfold days_in_month. by rewrite H.
Qed.

Lemma days_in_month_leap y y' m : is_leap y = is_leap y' → days_in_month y m = days_in_month y' m.
Proof. intros H. unfold days_in_month. by rewrite H. Qed.

Lemma days_in_month_31 y m : days_in_month y m ≤ 31.
Proof. unfold days_in_month. repeat case_match; lia. Qed.

Lemma month_day_spec y n m d :
  0 ≤ n < (if is_leap y then 366 else 365) → month_day (is_leap y) n = (m, d) →
  1 ≤ m ≤ 12 ∧ 1 ≤ d ≤ days_in_month y m ∧ days_before_month y (Z.to_nat m) + d = n + 1.
Proof.
  intros Hn E. pose proof month_day_table as T. rewrite andb_true_iff, !forallb_forall in T.
  destruct T as [T1 T2].
  assert (month_day_ok (is_leap y) n = true) as Hok.
  { destruct (is_leap y).
    - specialize (T2 (Z.to_nat n)). rewrite Z2Nat.id in T2 by lia. apply T2, in_seq. lia.
    - specialize (T1 (Z.to_nat n)). rewrite Z2Nat.id in T1 by lia. apply T1, in_seq. lia. }
  unfold month_day_ok in Hok. rewrite E in Hok.
  rewrite !andb_true_iff, !Z.leb_le, Z.eqb_eq in Hok.
  rewrite (days_before_month_leap y (if is_leap y then 4 else 1)) by by destruct (is_leap y).
  rewrite (days_in_month_leap y (if is_leap y then 4 else 1)) by by destruct (is_leap y).
  lia.
Qed.

(** The first day of year [400a + 100b + 4c + d + 1]. *)
Lemma days_before_cycles a b c d :
  0 ≤ b ≤ 3 → 0 ≤ c ≤ 24 → 0 ≤ d ≤ 3 →
  days_before_year (a * 400 + 1 + b * 100 + c * 4 + d) = a * 146097 + b * 36524 + c * 1461 + d * 365.
Proof. intros. unfold days_before_year. divlia. Qed.

Lemma is_leap_cycles a b c d :
  0 ≤ b ≤ 3 → 0 ≤ c ≤ 24 → 0 ≤ d ≤ 3 →
  is_leap (a * 400 + 1 + b * 100 + c * 4 + d) = (d =? 3) && (negb (c =? 24) || (b =? 3)).
Proof.
  intros Hb Hc Hd. unfold is_leap. set (y := _ + _ + _ + d).
  assert (y mod 4 = if d =? 3 then 0 else d + 1) as ->.
  { symmetry. apply (Z.mod_unique _ _ (a * 100 + b * 25 + c + (if d =? 3 then 1 else 0)));
      subst y; destruct (Z.eqb_spec d 3); lia. }
  destruct (Z.eqb_spec d 3) as [->|]; [|destruct (Z.eqb_spec (d + 1) 0); [lia|cbn [andb]; reflexivity]].
  cbn [andb Z.eqb].
  assert (y mod 100 = if c =? 24 then 0 else c * 4 + 4) as ->.
  { symmetry. apply (Z.mod_unique _ _ (a * 4 + b + (if c =? 24 then 1 else 0)));
      subst y; destruct (Z.eqb_spec c 24); lia. }
  destruct (Z.eqb_spec c 24) as [->|]; [|destruct (Z.eqb_spec (c * 4 + 4) 0); [lia|cbn [andb negb orb]; reflexivity]].
  cbn [andb negb orb Z.eqb].
  assert (y mod 400 = if b =? 3 then 0 else b * 100 + 100) as ->.
  { symmetry. apply (Z.mod_unique _ _ (a + (if b =? 3 then 1 else 0)));
      subst y; destruct (Z.eqb_spec b 3); lia. }
  destruct (Z.eqb_spec b 3); [reflexivity|]. destruct (Z.eqb_spec (b * 100 + 100) 0); [lia|reflexivity].
Qed.

Lemma days_before_december y :
  days_before_month y (Z.to_nat 12) = if is_leap y then 335 else 334.
Proof.
  change (Z.to_nat 12) with 12%nat. cbn [days_before_month Nat.eqb Z.of_nat Pos.of_succ_nat Pos.succ].
  unfold days_in_month. cbn [Z.eqb Pos.eqb]. destruct (is_leap y); reflexivity.
Qed.

(** The last day of a cycle of four or four hundred years. *)
Lemma last_day y a b c :
  y = a * 400 + 1 + b * 100 + c * 4 + 3 → 0 ≤ b ≤ 3 → 0 ≤ c ≤ 24 → (c = 24 → b = 3) →
  ymd2ord y 12 31 = a * 146097 + b * 36524 + c * 1461 + 1461.
Proof.
  intros -> Hb Hc Hbc. unfold ymd2ord. rewrite days_before_december.
  rewrite is_leap_cycles, days_before_cycles by lia.
  replace ((3 =? 3) && (negb (c =? 24) || (b =? 3))) with true; [lia|].
  destruct (Z.eqb_spec c 24), (Z.eqb_spec b 3); try reflexivity; lia.
Qed.

Lemma usual_day a b c k r m d :
  0 ≤ b ≤ 3 → 0 ≤ c ≤ 24 → 0 ≤ k ≤ 3 → 0 ≤ r < 365 →
  month_day ((k =? 3) && (negb (c =? 24) || (b =? 3))) r = (m, d) →
  1 ≤ m ≤ 12 ∧ 1 ≤ d ≤ days_in_month (a * 400 + 1 + b * 100 + c * 4 + k) m ∧
  ymd2ord (a * 400 + 1 + b * 100 + c * 4 + k) m d
  = a * 146097 + b * 36524 + c * 1461 + k * 365 + r + 1.
Proof.
  intros Hb Hc Hk Hr. rewrite <- (is_leap_cycles a b c k) by done. intros Em.
  apply month_day_spec in Em; [|destruct (is_leap _); lia].
  destruct Em as (? & ? & Em). split_and!; try lia. unfold ymd2ord.
  rewrite days_before_cycles by lia. lia.
Qed.

(** [fromordinal] gives a valid date and inverts [toordinal]. *)
Lemma ord2ymd_valid n y m d :
  1 ≤ n → ord2ymd n = (y, m, d) →
  1 ≤ m ≤ 12 ∧ 1 ≤ d ≤ days_in_month y m ∧ 1 ≤ y ∧ ymd2ord y m d = n.
Proof.
  intros Hn. unfold ord2ymd.
  pose proof (Z.div_mod (n - 1) 146097 ltac:(done)) as Ea.
  pose proof (Z.mod_pos_bound (n - 1) 146097 ltac:(done)) as Ha.
  pose proof (Z.div_pos (n - 1) 146097 ltac:(lia) ltac:(done)) as Ha0.
  revert Ea Ha Ha0. generalize ((n - 1) / 146097) as a, ((n - 1) mod 146097) as r1. intros a r1 Ea Ha Ha0.
  assert (r1 = r1 / 36524 * 36524 + r1 mod 36524 ∧ 0 ≤ r1 mod 36524 < 36524 ∧ 0 ≤ r1 / 36524 ≤ 4)
    as Hb by divlia.
  revert Hb. generalize (r1 / 36524) as b, (r1 mod 36524) as r2. intros b r2 Hb.
  assert (r2 = r2 / 1461 * 1461 + r2 mod 1461 ∧ 0 ≤ r2 mod 1461 < 1461 ∧ 0 ≤ r2 / 1461 ≤ 24)
    as Hc by divlia.
  revert Hc. generalize (r2 / 1461) as c, (r2 mod 1461) as r3. intros c r3 Hc.
  assert (r3 = r3 / 365 * 365 + r3 mod 365 ∧ 0 ≤ r3 mod 365 < 365 ∧ 0 ≤ r3 / 365 ≤ 4)
    as Hk by divlia.
  revert Hk. generalize (r3 / 365) as k, (r3 mod 365) as r4. intros k r4 Hk.
  destruct ((k =? 4) || (b =? 4)) eqn:E.
  - intros [= <- <- <-]. apply orb_true_iff in E as [E|E]; apply Z.eqb_eq in E; subst;
      (split; [lia|split; [by cbn|split; [lia|]]]).
    + rewrite (last_day _ a b c) by lia. lia.
    + rewrite (last_day _ a 3 24) by lia. lia.
  - apply orb_false_iff in E as [E1%Z.eqb_neq E2%Z.eqb_neq].
    destruct (month_day _ r4) as [m0 d0] eqn:Em. intros [= <- <- <-].
    apply (usual_day a b c k r4) in Em as (? & ? & Em); [|lia..].
    split; [lia|split; [lia|split; [lia|]]]. rewrite Em. lia.
Qed.

Lemma ord2ymd_spec n y m d :
  1 ≤ n → ord2ymd n = (y, m, d) → 1 ≤ m ≤ 12 ∧ 1 ≤ d ≤ 31 ∧ 1 ≤ y ∧ ymd2ord y m d = n.
Proof.
  intros Hn H%ord2ymd_valid; [|done]. pose proof (days_in_month_31 y m). intuition lia.
Qed.

(** ** Different instants have different texts *)

Lemma zp_app_inj k a b s t :
  0 ≤ a < 10 ^ Z.of_nat k → 0 ≤ b < 10 ^ Z.of_nat k →
  zp k a ++ s = zp k b ++ t → a = b ∧ s = t.
Proof.
  intros Ha Hb H. unfold zp in H. apply app_inj_1 in H as [H ->]; [|by rewrite !zpad_length].
  split; [|done].
  assert (∀ z, 0 ≤ z < 10 ^ Z.of_nat k → (Z.to_N z < 10 ^ N.of_nat k)%N) as Hz.
  { intros z Hz. apply N2Z.inj_lt. rewrite N2Z.inj_pow, Z2N.id, nat_N_Z by lia. lia. }
  apply (f_equal (num_of_digits 0)) in H. rewrite !zpad_value in H by auto. lia.
Qed.

Lemma days_before_month_nonneg y m : 0 ≤ days_before_month y m.
Proof.
  induction m as [|m IH]; cbn; [lia|]. unfold days_in_month. repeat case_match; lia.
Qed.

Lemma ord2ymd_year n y m d : 1 ≤ n ≤ 3652059 → ord2ymd n = (y, m, d) → y ≤ 9999.
Proof.
  intros Hn H. apply ord2ymd_spec in H as (_ & Hd & Hy & H); [|lia].
  destruct (Z.le_gt_cases y 9999) as [|Hge]; [done|exfalso].
  unfold ymd2ord in H. pose proof (days_before_month_nonneg y (Z.to_nat m)).
  assert (3652059 ≤ days_before_year y); [|lia]. clear -Hge. unfold days_before_year. divlia.
Qed.

Lemma utc_text_inj a b :
  MIN_US ≤ a ≤ MAX_US → MIN_US ≤ b ≤ MAX_US → utc_text a = utc_text b → a = b.
Proof.
  intros Ha Hb. unfold utc_text.
  assert (∀ x, MIN_US ≤ x ≤ MAX_US → 1 ≤ x / US_PER_DAY + EPOCH_ORDINAL ≤ 3652059
            ∧ 0 ≤ x mod US_PER_DAY < US_PER_DAY) as Hd.
  { unfold MIN_US, MAX_US, US_PER_DAY, EPOCH_ORDINAL. intros. divlia. }
  destruct (Hd a Ha) as [Da Ta], (Hd b Hb) as [Db Tb]. clear Hd.
  assert (∀ t, 0 ≤ t < US_PER_DAY → 0 ≤ t / 3600000000 < 100 ∧ 0 ≤ t / 60000000 mod 60 < 100
            ∧ 0 ≤ t / 1000000 mod 60 < 100 ∧ 0 ≤ t mod 1000000 < 1000000) as Hr.
  { unfold US_PER_DAY. intros t Ht. split_and!; divlia. }
  destruct (Hr _ Ta) as (Ra1 & Ra2 & Ra3 & Ra4), (Hr _ Tb) as (Rb1 & Rb2 & Rb3 & Rb4). clear Hr.
  destruct (ord2ymd (a / _ + _)) as [[ya ma] da] eqn:Ea, (ord2ymd (b / _ + _)) as [[yb mb] db] eqn:Eb.
  pose proof (ord2ymd_year _ _ _ _ Da Ea) as Ya. pose proof (ord2ymd_year _ _ _ _ Db Eb) as Yb.
  apply ord2ymd_spec in Ea as (? & ? & ? & Ea); [|lia].
  apply ord2ymd_spec in Eb as (? & ? & ? & Eb); [|lia].
  intros E.
  apply zp_app_inj in E as [-> E]; [|cbn; lia..]. apply app_inv_head in E.
  apply zp_app_inj in E as [-> E]; [|cbn; lia..]. apply app_inv_head in E.
  apply zp_app_inj in E as [-> E]; [|cbn; lia..]. apply app_inv_head in E.
  apply zp_app_inj in E as [E1 E]; [|cbn; lia..]. apply app_inv_head in E.
  apply zp_app_inj in E as [E2 E]; [|cbn; lia..]. apply app_inv_head in E.
  apply zp_app_inj in E as [E3 E]; [|cbn; lia..]. apply app_inv_head in E.
  apply zp_app_inj in E as [E4 _]; [|cbn; lia..].
  assert (∀ t, t = t / 3600000000 * 3600000000 + t / 60000000 mod 60 * 60000000
            + t / 1000000 mod 60 * 1000000 + t mod 1000000) as Ht by (intros t; divlia).
  assert (a mod US_PER_DAY = b mod US_PER_DAY) as Em.
  { rewrite (Ht (a mod _)), (Ht (b mod _)), E1, E2, E3, E4. done. }
  rewrite (Z.div_mod a US_PER_DAY), (Z.div_mod b US_PER_DAY) by done. lia.
Qed.

Lemma zpad_ascii k n : is_ascii (zpad k n) = true.
Proof. apply is_digit_ascii, zpad_digits. Qed.

Lemma utc_text_ascii us : is_ascii (utc_text us) = true.
Proof.
  unfold utc_text, zp. destruct (ord2ymd _) as [[y m] d]. rewrite !is_ascii_app, !zpad_ascii. done.
Qed.
#[export] Hint Resolve utc_text_ascii : s2p.
