(* ===== verification/MotorModels.v ===== *)
(** * Execution motor: domain contracts ([models.py], [broker.py])

    Orders, attestations, fills, execution reports and broker values, with the pydantic
    validators as functions that return the value or raise ValidationError. *)
From S2P Require Import Prelude PyStr PyDecimal.

Inductive Side := BUY | SELL.
Inductive OrderType := MARKET | LIMIT | STOP | STOP_LIMIT.
Inductive ExecAlgo := DIRECT | ICEBERG | POV.
Inductive ExecutionStatus :=
  | REJECTED | ACCEPTED | PARTIALLY_FILLED | FILLED | CANCELLED | EXPIRED | UNKNOWN.
Inductive RejectReason :=
  | HALTED | INVALID_ORDER | ATTESTATION_MISSING | ATTESTATION_INVALID | ORDER_EXPIRED
  | ORDER_FROM_FUTURE | SHORT_NOT_PERMITTED | ORDER_ID_MISMATCH | DUPLICATE_ORDER
  | NOTIONAL_UNDETERMINABLE | NOTIONAL_CAP_EXCEEDED | SESSION_NOTIONAL_CAP_EXCEEDED
  | ALGO_UNSUPPORTED | NO_ELIGIBLE_VENUE | BROKER_REJECTED | SUBMIT_OUTCOME_UNKNOWN
  | INTERNAL_ERROR | CONTEXT_MISSING | CONTEXT_MISMATCH | STRATEGY_NOT_PROMOTED
  | MANIFEST_FAILED.

#[export] Instance Side_eq_dec : EqDecision Side. Proof. solve_decision. Defined.
#[export] Instance OrderType_eq_dec : EqDecision OrderType. Proof. solve_decision. Defined.
#[export] Instance ExecAlgo_eq_dec : EqDecision ExecAlgo. Proof. solve_decision. Defined.
#[export] Instance ExecutionStatus_eq_dec : EqDecision ExecutionStatus.
Proof. solve_decision. Defined.
#[export] Instance RejectReason_eq_dec : EqDecision RejectReason. Proof. solve_decision. Defined.

(** The StrEnum values. *)
Definition side_value (s : Side) : pystr := match s with BUY => u "buy" | SELL => u "sell" end.
Definition order_type_value (t : OrderType) : pystr :=
  match t with
  | MARKET => u "market" | LIMIT => u "limit" | STOP => u "stop" | STOP_LIMIT => u "stop_limit"
  end.
Definition algo_value (a : ExecAlgo) : pystr :=
  match a with DIRECT => u "direct" | ICEBERG => u "iceberg" | POV => u "pov" end.
Definition status_value (s : ExecutionStatus) : pystr :=
  match s with
  | REJECTED => u "rejected" | ACCEPTED => u "accepted"
  | PARTIALLY_FILLED => u "partially_filled" | FILLED => u "filled"
  | CANCELLED => u "cancelled" | EXPIRED => u "expired" | UNKNOWN => u "unknown"
  end.
Definition reason_value (r : RejectReason) : pystr :=
  match r with
  | HALTED => u "halted" | INVALID_ORDER => u "invalid_order"
  | ATTESTATION_MISSING => u "attestation_missing"
  | ATTESTATION_INVALID => u "attestation_invalid" | ORDER_EXPIRED => u "order_expired"
  | ORDER_FROM_FUTURE => u "order_from_future" | SHORT_NOT_PERMITTED => u "short_not_permitted"
  | ORDER_ID_MISMATCH => u "order_id_mismatch" | DUPLICATE_ORDER => u "duplicate_order"
  | NOTIONAL_UNDETERMINABLE => u "notional_undeterminable"
  | NOTIONAL_CAP_EXCEEDED => u "notional_cap_exceeded"
  | SESSION_NOTIONAL_CAP_EXCEEDED => u "session_notional_cap_exceeded"
  | ALGO_UNSUPPORTED => u "algo_unsupported" | NO_ELIGIBLE_VENUE => u "no_eligible_venue"
  | BROKER_REJECTED => u "broker_rejected"
  | SUBMIT_OUTCOME_UNKNOWN => u "submit_outcome_unknown" | INTERNAL_ERROR => u "internal_error"
  | CONTEXT_MISSING => u "context_missing" | CONTEXT_MISMATCH => u "context_mismatch"
  | STRATEGY_NOT_PROMOTED => u "strategy_not_promoted" | MANIFEST_FAILED => u "manifest_failed"
  end.

(** ** Orders *)

Record Order := mkOrder {
  order_id : pystr;
  signal_id : pystr;
  symbol : pystr;
  created_at_ns : Z;
  side : Side;
  order_type : OrderType;
  quantity : decimal;
  limit_price : decimal;
  stop_price : decimal;
  preferred_venue : pystr;
  max_venue_toxicity : decimal;
  algo : ExecAlgo;
  pov_target_rate : decimal;
  iceberg_display_size : decimal;
}.

(** [client_order_id] is [order_id] by design. *)
Definition client_order_id (o : Order) : pystr := order_id o.

Definition id_char (c : N) : bool := is_alnum c || one_of (u "._-") c.
Definition id_re (s : pystr) : bool := class_rep id_char 1 64 s.
Definition symbol_char (c : N) : bool := is_upper c || is_digit c || one_of (u ".-") c.
Definition symbol_re (s : pystr) : bool :=
  match s with c :: s' => is_upper c && class_rep symbol_char 0 9 s' | [] => false end.

(** A comparison that cannot raise because a NaN was excluded first. *)
Definition sure (r : result bool) : bool := match r with Ok b => b | Raise _ => false end.

Definition finite_non_negative (d : decimal) : bool := is_finite d && sure (dge d D_ZERO).
Definition finite_positive (d : decimal) : bool := is_finite d && sure (dgt d D_ZERO).
Definition in_unit (d : decimal) : bool :=
  is_finite d && sure (dle D_ZERO d) && sure (dle d D_ONE).

(** The field validators, in field order. *)
Definition order_field_checks (o : Order) : list bool :=
  [ id_re (order_id o); symbol_re (symbol o); 0 <? created_at_ns o;
    finite_positive (quantity o);
    finite_non_negative (limit_price o); finite_non_negative (stop_price o);
    in_unit (max_venue_toxicity o);
    finite_non_negative (pov_target_rate o); finite_non_negative (iceberg_display_size o) ].

Definition required_prices (t : OrderType) : bool * bool :=
  match t with
  | MARKET => (false, false) | LIMIT => (true, false)
  | STOP => (false, true) | STOP_LIMIT => (true, true)
  end.

(** [_check_type_consistency], the model validator. *)
Definition type_consistent (o : Order) : bool :=
  bool_decide ((sure (dgt (limit_price o) D_ZERO), sure (dgt (stop_price o) D_ZERO))
               = required_prices (order_type o)).

(** [ValidationError.error_count()]: the model validator only runs on valid fields. *)
Definition order_error_count (o : Order) : nat :=
  match length (filter (λ b, b = false) (order_field_checks o)) with
  | O => if type_consistent o then 0 else 1
  | n => n
  end.

Definition order_valid (o : Order) : bool := (order_error_count o =? 0)%nat.

(** ** Attestations *)

Record Attestation := mkAttestation {
  signature : pybytes;
  key_id : pystr;
  signed_payload : pybytes;
  payload_sha256 : pybytes;
  decided_at_ns : Z;
  expires_at_ns : Z;
  attested_side : pystr;
}.

Record AttestedOrder := mkAttested { order : Order; attestation : Attestation }.

(** ** Fills and reports *)

Record Fill := mkFill {
  fill_quantity : decimal; fill_price : decimal; fill_timestamp_ns : Z; fill_venue : pystr }.

(** [Fill(...)]: both amounts are [Field(gt=0)]. *)
Definition make_fill (f : Fill) : result Fill :=
  if finite_positive (fill_quantity f) && finite_positive (fill_price f) then Ok f
  else raise ValidationError (u "Fill").

Record ExecutionReport := mkReport {
  rep_order_id : pystr;
  rep_client_order_id : pystr;
  rep_signal_id : pystr;
  rep_symbol : pystr;
  rep_side : option Side;
  status : ExecutionStatus;
  requested_quantity : decimal;
  reject_reason : option RejectReason;
  reject_detail : pystr;
  broker_order_id : option pystr;
  venue : option pystr;
  fills : list Fill;
  arrival_price : option decimal;
  received_at_ns : Z;
  submitted_at_ns : option Z;
  updated_at_ns : Z;
}.

(** Pydantic refuses a NaN or an infinity in a [Decimal] field. *)
Definition finite_fields (r : ExecutionReport) : bool :=
  is_finite (requested_quantity r)
  && match arrival_price r with Some p => is_finite p | None => true end.

(** [ExecutionReport(...)] with [_check_reason_matches_status]: a reason exactly on REJECTED, and
    allowed on UNKNOWN. *)
Definition make_report (r : ExecutionReport) : result ExecutionReport :=
  if negb (finite_fields r) then raise ValidationError (u "finite_number")
  else
    let rejected := bool_decide (status r = REJECTED) in
    if rejected && bool_decide (reject_reason r = None) then
      raise ValidationError (u "a REJECTED report requires a reject_reason")
    else if negb rejected && bool_decide (reject_reason r ≠ None) then
      if bool_decide (status r = UNKNOWN) then Ok r
      else raise ValidationError (u "reject_reason is only valid on REJECTED or UNKNOWN reports")
    else Ok r.

Lemma make_report_ok r x : make_report r = Ok x → x = r.
Proof.
  unfold make_report. destruct (negb (finite_fields r)); [done|].
  destruct (_ && _); [done|]. destruct (negb _ && _); [destruct (bool_decide _)|]; by intros [= ->].
Qed.

Definition filled_quantity (r : ExecutionReport) : result decimal :=
  dsum (fill_quantity <$> fills r).

Definition avg_fill_price (r : ExecutionReport) : result (option decimal) :=
  qty ← filled_quantity r;
  if deq qty D_ZERO then Ok None
  else
    terms ← mapR (λ f, dmul (fill_quantity f) (fill_price f)) (fills r);
    total ← dsum terms;
    avg ← ddiv total qty;
    Ok (Some avg).

Definition BPS : decimal := D 10000.

(** Signed cost against the arrival price in basis points; positive is worse for us. *)
Definition slippage_bps (r : ExecutionReport) : result (option decimal) :=
  avg ← avg_fill_price r;
  match avg, arrival_price r, rep_side r with
  | Some avg, Some arrival, Some s =>
      diff ← dsub avg arrival;
      rel ← ddiv diff arrival;
      raw ← dmul rel BPS;
      match s with
      | BUY => Ok (Some raw)
      | SELL => neg ← dneg raw; Ok (Some neg)
      end
  | _, _, _ => Ok None
  end.

(** ** Broker values *)

Record BrokerOrderRequest := mkRequest {
  req_client_order_id : pystr;
  req_symbol : pystr;
  req_side : Side;
  req_order_type : OrderType;
  req_quantity : decimal;
  req_limit_price : option decimal;
  req_stop_price : option decimal;
  req_time_in_force : pystr;
}.

(** [BrokerOrderRequest(...)]: a non-empty client id of at most 128 characters, quantity > 0. *)
Definition make_request (q : BrokerOrderRequest) : result BrokerOrderRequest :=
  if bool_decide (1 ≤ length (req_client_order_id q) ≤ 128)%nat && finite_positive (req_quantity q)
  then Ok q else raise ValidationError (u "BrokerOrderRequest").

Record BrokerOrder := mkBrokerOrder {
  bo_broker_order_id : pystr;
  bo_client_order_id : pystr;
  bo_symbol : pystr;
  bo_status : ExecutionStatus;
  bo_raw_status : pystr;
  bo_quantity : decimal;
  bo_filled_quantity : decimal;
  bo_filled_avg_price : option decimal;
  bo_submitted_at_ns : option Z;
  bo_filled_at_ns : option Z;
}.

Record Position := mkPosition {
  pos_symbol : pystr; pos_quantity : decimal;
  pos_avg_entry_price : decimal; pos_market_value : decimal }.

Record AccountSnapshot := mkAccount {
  acc_status : pystr; acc_buying_power : decimal; acc_cash : decimal; acc_equity : decimal;
  acc_trading_blocked : bool }.

#[export] Instance Order_eq_dec : EqDecision Order. Proof. solve_decision. Defined.
#[export] Instance BrokerOrder_eq_dec : EqDecision BrokerOrder. Proof. solve_decision. Defined.
#[export] Instance BrokerOrderRequest_eq_dec : EqDecision BrokerOrderRequest.
Proof. solve_decision. Defined.
#[export] Instance Fill_eq_dec : EqDecision Fill. Proof. solve_decision. Defined.
#[export] Instance ExecutionReport_eq_dec : EqDecision ExecutionReport.
Proof. solve_decision. Defined.
