(* ===== verification/Attest.v ===== *)
(** * Execution motor: the attestation gate ([canonical.py], [attestation.py], [verifiers.py],
    [keys.py])

    The canonical text Aegis signs, the default-deny evaluation of an attestation, the key
    registry and the algorithm dispatch. The signature primitives of the [cryptography] package
    are parameters. *)
From S2P Require Import Prelude PyStr Sha256 Json MotorModels.

(** ** canonical.py *)

Definition CANONICAL_VERSION : pystr := u "afe-attest-v1".
Definition SIDE_BUY : pystr := u "BUY".
Definition SIDE_SELL : pystr := u "SELL".
Definition SIDE_SELL_SHORT : pystr := u "SELL_SHORT".

(** Unicode category [Cc]. *)
Definition is_control (c : N) : bool := in_range 0 31 c || in_range 127 159 c.
Definition forbidden (c : N) : bool := is_control c || (c =? 61)%N.

Definition _clean (name value : pystr) : result pystr :=
  if bool_decide (value = []) || existsb forbidden value then
    raise OrderValidationError (name ++ u " is empty or has forbidden characters")
  else Ok value.

Record SignedFields := mkSigned {
  sf_signal_id : pystr; sf_symbol : pystr; sf_side : pystr; sf_order_type : pystr;
  sf_qty_nanos : Z; sf_limit_price_nanos : Z; sf_stop_price_nanos : Z;
  sf_decided_at_ns : Z; sf_expires_at_ns : Z; sf_aegis_state_seq : Z;
  sf_limits_config_sha256 : pystr; sf_key_id : pystr;
}.

Definition newline : pystr := [10%N].

Definition canonical_lines (f : SignedFields) : result (list pystr) :=
  sid ← _clean (u "signal_id") (sf_signal_id f);
  sym ← _clean (u "symbol") (sf_symbol f);
  oty ← _clean (u "order_type") (sf_order_type f);
  lim ← _clean (u "limits_config_sha256") (sf_limits_config_sha256 f);
  kid ← _clean (u "key_id") (sf_key_id f);
  Ok [ CANONICAL_VERSION;
       u "signal_id=" ++ sid;
       u "symbol=" ++ sym;
       u "side=" ++ sf_side f;
       u "order_type=" ++ oty;
       u "qty_nanos=" ++ str_of_Z (sf_qty_nanos f);
       u "limit_price_nanos=" ++ str_of_Z (sf_limit_price_nanos f);
       u "stop_price_nanos=" ++ str_of_Z (sf_stop_price_nanos f);
       u "decided_at_ns=" ++ str_of_Z (sf_decided_at_ns f);
       u "expires_at_ns=" ++ str_of_Z (sf_expires_at_ns f);
       u "aegis_state_seq=" ++ str_of_Z (sf_aegis_state_seq f);
       u "limits_config_sha256=" ++ lim;
       u "key_id=" ++ kid ].

Definition build_canonical_text (f : SignedFields) : result pybytes :=
  lines ← canonical_lines f;
  match utf8 (join newline lines ++ newline) with
  | Some b => Ok b
  | None => raise (OtherError (u "UnicodeEncodeError")) (u "surrogates not allowed")
  end.

Definition candidate_side_names (order_side : Z) (allow_short : bool) : result (list pystr) :=
  if order_side =? 1 then Ok [SIDE_BUY]
  else if order_side =? 2 then
    Ok (if allow_short then [SIDE_SELL; SIDE_SELL_SHORT] else [SIDE_SELL])
  else raise OrderValidationError (u "side has unsupported value " ++ str_of_Z order_side).

(** ** attestation.py *)

(** A verifier says [True], something else ([Ok false]), or raises. *)
Definition Verifier : Type := pybytes → pybytes → pystr → result bool.

Definition DenyAllVerifier : Verifier := λ _ _ _, Ok false.

(** [None] when the attestation verifies; otherwise the reason. *)
Definition evaluate_attestation (verify : Verifier) (a : AttestedOrder) : option RejectReason :=
  let att := attestation a in
  if bool_decide (signature att = []) || bool_decide (key_id att = [])
     || bool_decide (signed_payload att = []) then Some ATTESTATION_MISSING
  else if negb (bool_decide (sha256 (signed_payload att) = payload_sha256 att)) then
    Some ATTESTATION_INVALID
  else match verify (signed_payload att) (signature att) (key_id att) with
       | Raise _ => Some ATTESTATION_INVALID
       | Ok verdict => if verdict then None else Some ATTESTATION_INVALID
       end.

(** ** verifiers.py, keys.py *)

Inductive SignatureAlgorithm := ED25519_DEV | ECDSA_P256_SHA256.
#[export] Instance SignatureAlgorithm_eq_dec : EqDecision SignatureAlgorithm.
Proof. solve_decision. Defined.

Record RegisteredKey := mkKey {
  rk_key_id : pystr; rk_algorithm : SignatureAlgorithm; rk_public_key : pybytes }.

Definition DEV_KEY_PREFIX : pystr := u "dev-".
Definition is_dev (k : RegisteredKey) : bool :=
  bool_decide (rk_algorithm k = ED25519_DEV) || starts_with DEV_KEY_PREFIX (rk_key_id k).

Definition be_int (bs : pybytes) : N := fold_left (λ acc b, (acc * 256 + b)%N) bs 0%N.

Section verifiers.
(** [Ed25519PublicKey], [EllipticCurvePublicKey] of the [cryptography] package: parsing of the
    raw key ([None]: ValueError or TypeError) and [public.verify] ([Raise] on a bad
    signature). *)
Context (EdKey EcKey : Type).
Context (ed_parse : pybytes → option EdKey) (ec_parse : pybytes → option EcKey).
Context (ed_verify : EdKey → pybytes → pybytes → result unit).
Context (ec_verify : EcKey → N → N → pybytes → result unit).

Definition parsed_key : Type := EdKey + EcKey.

Definition _parse_public_key (k : RegisteredKey) : result parsed_key :=
  let parsed := match rk_algorithm k with
                | ED25519_DEV => inl <$> ed_parse (rk_public_key k)
                | ECDSA_P256_SHA256 => inr <$> ec_parse (rk_public_key k)
                end in
  match parsed with
  | Some p => Ok p
  | None => raise ConfigError (u "public key is invalid")
  end.

Definition registry : Type := gmap pystr (SignatureAlgorithm * parsed_key).

Definition register_key (production : bool) (reg : registry) (k : RegisteredKey)
  : result registry :=
  if bool_decide (rk_key_id k = []) || bool_decide (is_Some (reg !! rk_key_id k)) then
    raise ConfigError (u "key ids must be non-empty and unique")
  else if production && is_dev k then
    raise ConfigError (u "dev key is forbidden in production")
  else p ← _parse_public_key k; Ok (<[rk_key_id k := (rk_algorithm k, p)]> reg).

(** [AegisAttestationVerifier.__init__]. *)
Definition make_verifier (keys : list RegisteredKey) (production : bool) : result registry :=
  reg ← foldR (register_key production) ∅ keys;
  if bool_decide (reg = ∅) then raise ConfigError (u "at least one attestation key is required")
  else Ok reg.

Definition accepts_dev_keys (reg : registry) : bool :=
  existsb (λ kv, bool_decide (kv.2.1 = ED25519_DEV) || starts_with DEV_KEY_PREFIX kv.1)
    (map_to_list reg).

Definition _verify_ed25519 (k : EdKey) (payload sig : pybytes) : result bool :=
  if negb (length sig =? 64)%nat then Ok false
  else ed_verify k sig (sha256 payload) ≫= λ _, Ok true.

Definition _verify_p256 (k : EcKey) (payload sig : pybytes) : result bool :=
  if negb (length sig =? 64)%nat then Ok false
  else ec_verify k (be_int (take 32 sig)) (be_int (drop 32 sig)) payload ≫= λ _, Ok true.

(** InvalidSignature, ValueError and TypeError all give [False]. *)
Definition verify_caught (c : exn_class) : bool :=
  match c with
  | ValueError | TypeError => true
  | OtherError n => str_eqb n (u "InvalidSignature")
  | _ => false
  end.

Definition verify (reg : registry) : Verifier := λ payload sig kid,
  match reg !! kid with
  | None => Ok false
  | Some (alg, pk) =>
      try_except
        (match alg, pk with
         | ED25519_DEV, inl k => _verify_ed25519 k payload sig
         | _, inr k => _verify_p256 k payload sig
         | _, inl _ => Ok false
         end) verify_caught (λ _, Ok false)
  end.
End verifiers.

Definition algorithm_of (name : pystr) : option SignatureAlgorithm :=
  if str_eqb name (u "ED25519") then Some ED25519_DEV
  else if str_eqb name (u "ECDSA_P256_SHA256") then Some ECDSA_P256_SHA256 else None.

(** [bytes.fromhex]: pairs of hexadecimal digits, ASCII whitespace between them. *)
Fixpoint from_hex (s : pystr) : option pybytes :=
  match s with
  | [] => Some []
  | a :: s' =>
      if in_range 9 13 a || (a =? 32)%N then from_hex s'
      else match s' with
           | b :: s'' =>
               match hex_val a, hex_val b with
               | Some x, Some y => cons (x * 16 + y)%N <$> from_hex s''
               | _, _ => None
               end
           | [] => None
           end
  end.

(** [str(v)] of a decoded JSON value. A float, an array or an object has no text the registry
    file would hold; such an entry counts as malformed here. *)
Definition json_str (v : json) : option pystr :=
  match v with
  | JStr s => Some s
  | JInt z => Some (str_of_Z z)
  | JBool b => Some (if b then u "True" else u "False")
  | JNull => Some (u "None")
  | JFloat _ | JArr _ | JObj _ => None
  end.

Definition key_of_entry (entry : json) : option RegisteredKey :=
  match entry with
  | JObj m =>
      kid ← obj_get m (u "key_id") ≫= json_str;
      alg ← (obj_get m (u "algorithm") ≫= json_str) ≫= algorithm_of;
      pk ← (obj_get m (u "public_key_hex") ≫= json_str) ≫= from_hex;
      Some (mkKey kid alg pk)
  | _ => None
  end.

(** [file] is what [path.read_text] gives. *)
Definition load_attestation_keys (file : result pystr) : result (list RegisteredKey) :=
  match file with
  | Raise e =>
      if bool_decide (exn_kind e = OSError)
      then raise ConfigError (u "attestation keys file not readable") else Raise e
  | Ok text =>
      match loads text with
      | None => raise ConfigError (u "attestation keys file is not valid JSON")
      | Some (JArr (e :: l)) =>
          mapR (λ e, match key_of_entry e with
                     | Some k => Ok k
                     | None => raise ConfigError (u "attestation keys file entry is malformed")
                     end) (e :: l)
      | Some _ => raise ConfigError (u "attestation keys file must be a non-empty JSON array")
      end
  end.

(** ** The canonical text determines the signed fields *)

Definition line_ok (l : pystr) : Prop := 10%N ∉ l.

Lemma join_newline_cons l ls : join newline (l :: ls) ++ newline
  = l ++ newline ++ match ls with [] => [] | _ => join newline ls ++ newline end.
Proof. destruct ls; cbn; [done|]. by rewrite <- !app_assoc. Qed.

Lemma line_split a b s t :
  line_ok a → line_ok b → a ++ 10%N :: s = b ++ 10%N :: t → a = b ∧ s = t.
Proof.
  revert b. induction a as [|x a IH]; intros [|y b] Ha Hb E; cbn in E; simplify_eq; try done.
  - by destruct Hb; left.
  - by destruct Ha; left.
  - destruct (IH b) as [-> ->]; [by intros ?; apply Ha; right|by intros ?; apply Hb; right|done..].
Qed.

Lemma join_newline_inj ls ks :
  Forall line_ok ls → Forall line_ok ks → length ls = length ks →
  join newline ls ++ newline = join newline ks ++ newline → ls = ks.
Proof.
  intros Hl. revert ks. induction Hl as [|l ls Hl Hls IH]; intros [|k ks] Hk Hlen E; try done.
  apply Forall_cons in Hk as [Hk Hks]. rewrite !join_newline_cons in E.
  apply line_split in E as [-> E]; [|done..]. injection Hlen as Hlen. f_equal.
  destruct ls, ks; try done. by apply IH.
Qed.

Lemma clean_ok name v w : _clean name v = Ok w → w = v ∧ line_ok v ∧ v ≠ [].
Proof.
  unfold _clean. destruct (bool_decide (v = [])) eqn:E; [discriminate|].
  destruct (existsb forbidden v) eqn:Ex; [discriminate|]. intros [= <-].
  apply bool_decide_eq_false in E. split_and!; [done| |done].
  intros Hin. apply not_true_iff_false in Ex. apply Ex, existsb_exists.
  exists 10%N. split; [by apply list_elem_of_In|done].
Qed.

Lemma line_ok_app a b : line_ok a → line_ok b → line_ok (a ++ b).
Proof. unfold line_ok. rewrite elem_of_app. tauto. Qed.

Lemma line_ok_digits ds : forallb is_digit ds = true → line_ok ds.
Proof.
  unfold line_ok. rewrite forallb_forall. intros H Hin%list_elem_of_In. by apply H in Hin.
Qed.

Lemma line_ok_Z z : line_ok (str_of_Z z).
Proof.
  unfold str_of_Z. destruct (z <? 0); [|apply line_ok_digits, digits_all].
  apply (line_ok_app [45%N]); [|apply line_ok_digits, digits_all].
  intros Hin%list_elem_of_singleton. done.
Qed.

Lemma line_ok_u s : forallb (λ c, negb (c =? 10)%N) (u s) = true → line_ok (u s).
Proof.
  unfold line_ok. rewrite forallb_forall. intros H Hin%list_elem_of_In. by apply H in Hin.
Qed.

Lemma canonical_lines_ok f ls :
  canonical_lines f = Ok ls → line_ok (sf_side f) → Forall line_ok ls ∧ length ls = 13%nat.
Proof.
  unfold canonical_lines. intros H Hs. ok_inv. subst.
  repeat match goal with H : _clean _ _ = Ok _ |- _ => apply clean_ok in H as (-> & ? & _) end.
  split; [|done]. rewrite !Forall_cons.
  split_and!; try apply List.Forall_nil; try (by apply line_ok_u);
    (apply line_ok_app; [by apply line_ok_u|first [done|apply line_ok_Z]]).
Qed.

Lemma canonical_text_inj f g b :
  build_canonical_text f = Ok b → build_canonical_text g = Ok b →
  line_ok (sf_side f) → line_ok (sf_side g) → f = g.
Proof.
  unfold build_canonical_text. intros Hf Hg Sf Sg.
  destruct (canonical_lines f) as [lf|] eqn:Ef; [cbn in Hf|discriminate].
  destruct (canonical_lines g) as [lg|] eqn:Eg; [cbn in Hg|discriminate].
  destruct (utf8 (join newline lf ++ newline)) eqn:Uf; [|discriminate].
  destruct (utf8 (join newline lg ++ newline)) eqn:Ug; [|discriminate].
  unfold raise in *. simplify_eq.
  destruct (canonical_lines_ok _ _ Ef Sf) as [Of Lf].
  destruct (canonical_lines_ok _ _ Eg Sg) as [Og Lg].
  assert (lf = lg) as <-.
  { apply join_newline_inj; [done|done|by rewrite Lf, Lg|].
    by eapply utf8_inj. }
  unfold canonical_lines in Ef, Eg. ok_inv. subst.
  repeat match goal with H : _clean _ _ = Ok _ |- _ => apply clean_ok in H as (-> & _ & _) end.
  destruct f, g; cbn in *.
  match goal with H : _ = _ :> list pystr |- _ => injection H; clear H; intros end.
  repeat match goal with H : str_of_Z _ = str_of_Z _ |- _ => apply str_of_Z_inj in H end.
  congruence.
Qed.

(** ** The registry *)

Section registry_facts.
Context {EdKey EcKey : Type}.
Context (ed_parse : pybytes → option EdKey) (ec_parse : pybytes → option EcKey).

(** A production registry holds HSM keys only, under names without the dev prefix. *)
Definition hsm_only (reg : registry EdKey EcKey) : Prop :=
  map_Forall (λ kid kv, starts_with DEV_KEY_PREFIX kid = false ∧
                        kv.1 = ECDSA_P256_SHA256 ∧ ∃ k, kv.2 = inr k) reg.

Lemma register_key_hsm reg k reg' :
  register_key EdKey EcKey ed_parse ec_parse true reg k = Ok reg' →
  hsm_only reg → hsm_only reg'.
Proof.
  unfold register_key, is_dev, _parse_public_key. intros H Hreg.
  destruct (bool_decide (rk_key_id k = []) || _); [done|]. cbn [andb] in H.
  destruct (bool_decide (rk_algorithm k = ED25519_DEV)) eqn:Ea; [done|].
  destruct (starts_with DEV_KEY_PREFIX (rk_key_id k)) eqn:Ep; [done|]. cbn [orb] in H.
  apply bool_decide_eq_false in Ea. destruct (rk_algorithm k); [done|].
  destruct (ec_parse (rk_public_key k)) as [p|]; [|done]. cbn in H. ok_inv. subst reg'.
  unfold hsm_only, registry in *. apply map_Forall_insert_2; [|done]. by eauto.
Qed.

Lemma make_verifier_hsm keys reg :
  make_verifier EdKey EcKey ed_parse ec_parse keys true = Ok reg → hsm_only reg.
Proof.
  unfold make_verifier. intros H. ok_inv. destruct (bool_decide _); [done|]. ok_inv. subst.
  eapply (foldR_inv hsm_only); [| |exact E]; [by unfold hsm_only, registry; apply map_Forall_empty|].
  intros s x s' ? ?. by eapply register_key_hsm.
Qed.
End registry_facts.

Lemma evaluate_accepts verify a :
  evaluate_attestation verify a = None →
  verify (signed_payload (attestation a)) (signature (attestation a)) (key_id (attestation a))
  = Ok true.
Proof.
  unfold evaluate_attestation. destruct (_ || _); [done|]. destruct (negb _); [done|].
  by destruct (verify _ _ _) as [[]|].
Qed.

(** ** Properties *)

(** The attestation gate is default deny: it lets an order through exactly when signature, key
    id and payload are present, the payload hashes to the digest the order carries, and the
    verifier answers True for them. A verifier that raises denies. *)
Theorem evaluate_attestation_accepts verify a :
  evaluate_attestation verify a = None ↔
  signature (attestation a) ≠ [] ∧ key_id (attestation a) ≠ [] ∧
  signed_payload (attestation a) ≠ [] ∧
  sha256 (signed_payload (attestation a)) = payload_sha256 (attestation a) ∧
  verify (signed_payload (attestation a)) (signature (attestation a)) (key_id (attestation a))
  = Ok true.
Proof.
  unfold evaluate_attestation. set (att := attestation a).
  destruct (bool_decide (signature att = []) || bool_decide (key_id att = [])
            || bool_decide (signed_payload att = [])) eqn:E.
  { split; [done|]. intros (? & ? & ? & _).
    apply orb_true_iff in E as [[E|E]%orb_true_iff|E]; by apply bool_decide_eq_true in E. }
  apply orb_false_iff in E as [[E1 E2]%orb_false_iff E3].
  apply bool_decide_eq_false in E1, E2, E3.
  destruct (bool_decide (sha256 _ = _)) eqn:Eh; cbn [negb].
  - apply bool_decide_eq_true in Eh. destruct (verify _ _ _) as [[]|]; naive_solver.
  - apply bool_decide_eq_false in Eh. naive_solver.
Qed.

(** C35: The canonical text binds every signed field: two sets of fields with the same text, their
    sides one of the three the order side maps to, are equal, so a signature over the text cannot be moved to another signal, symbol, side, type,
    quantity, price, deadline, state sequence, limits hash or key. *)
Theorem canonical_text_binds f g text :
  build_canonical_text f = Ok text → build_canonical_text g = Ok text →
  sf_side f ∈ [SIDE_BUY; SIDE_SELL; SIDE_SELL_SHORT] →
  sf_side g ∈ [SIDE_BUY; SIDE_SELL; SIDE_SELL_SHORT] →
  f = g.
Proof.
  intros Hf Hg Sf Sg.
  assert (∀ s, s ∈ [SIDE_BUY; SIDE_SELL; SIDE_SELL_SHORT] → line_ok s) as Hside.
  { intros s [->|[->|[->|[]%not_elem_of_nil]%elem_of_cons]%elem_of_cons]%elem_of_cons;
      by apply line_ok_u. }
  eapply canonical_text_inj; eauto.
Qed.

Definition example_fields (qty : Z) : SignedFields :=
  mkSigned (u "sig-1") (u "AAPL") SIDE_BUY (u "LIMIT") qty 0 0 10 20 3 (u "cfg") (u "hsm-1").

Lemma canonical_text_binds_witness :
  is_ok (build_canonical_text (example_fields 5)) = true ∧
  ∀ g, build_canonical_text g = build_canonical_text (example_fields 5) → sf_side g = SIDE_BUY → sf_qty_nanos g = 5.
Proof.
  split; [vm_compute; reflexivity|]. intros g Hg Sg.
  destruct (build_canonical_text (example_fields 5)) as [t|] eqn:E; [|vm_compute in E; discriminate].
  rewrite (canonical_text_binds g (example_fields 5) t Hg E); [reflexivity| |].
  - rewrite Sg. left.
  - left.
Defined.

(** In production no dev key verifies anything: a registry that [AegisAttestationVerifier]
    accepts with [production=True] reports that it takes no dev keys, and a signature it
    verifies was checked by ECDSA P-256 under a registered key without the dev prefix. *)
Theorem production_refuses_dev_keys EdKey EcKey ed_parse ec_parse ed_verify ec_verify keys reg :
  make_verifier EdKey EcKey ed_parse ec_parse keys true = Ok reg →
  accepts_dev_keys EdKey EcKey reg = false ∧
  ∀ payload sig kid, verify EdKey EcKey ed_verify ec_verify reg payload sig kid = Ok true →
    starts_with DEV_KEY_PREFIX kid = false ∧
    ∃ k, reg !! kid = Some (ECDSA_P256_SHA256, inr k) ∧ length sig = 64%nat ∧
         ec_verify k (be_int (take 32 sig)) (be_int (drop 32 sig)) payload = Ok tt.
Proof.
  intros Hreg%make_verifier_hsm. unfold hsm_only, registry in *. split.
  - unfold accepts_dev_keys. apply not_true_iff_false. rewrite existsb_exists.
    intros ([kid [alg p]] & Hin & H). apply list_elem_of_In in Hin.
    unfold registry in *. rewrite elem_of_map_to_list in Hin.
    destruct (Hreg _ _ Hin) as (Hp & Ha & _). cbn [fst snd] in *.
    subst alg. rewrite Hp, orb_false_r in H. by apply bool_decide_eq_true in H.
  - intros payload sig kid. unfold verify, registry. destruct (reg !! kid) as [[alg p]|] eqn:Hk; [|done].
    destruct (Hreg _ _ Hk) as (Hp & Ha & k & Hkey). cbn in Ha, Hkey. subst alg p.
    unfold _verify_p256. destruct (length sig =? 64)%nat eqn:El; [|done]. cbn [negb].
    destruct (ec_verify _ _ _ _) as [[]|] eqn:Ev; cbn.
    + intros _. apply Nat.eqb_eq in El. by eauto 6.
    + by destruct (verify_caught _).
Qed.

Lemma production_refuses_dev_keys_witness :
  let keys := [mkKey (u "hsm-1") ECDSA_P256_SHA256 [4%N]] in
  ∃ reg, make_verifier unit pybytes (λ _, None) Some keys true = Ok reg ∧
         accepts_dev_keys unit pybytes reg = false.
Proof.
  eexists. split; [vm_compute; reflexivity|].
  exact (proj1 (production_refuses_dev_keys unit pybytes (λ _, None) Some
    (λ _ _ _, Ok tt) (λ _ _ _ _, Ok tt) [mkKey (u "hsm-1") ECDSA_P256_SHA256 [4%N]] _
    ltac:(vm_compute; reflexivity))).
Defined.
