(* ===== verification/Limits.v ===== *)
(** * Execution motor: idempotency stores and notional caps ([limits.py])

    The [IdempotencyStore] protocol is a class with its laws; the in-memory store and the
    append-only file store are its instances. [compute_notional] and the session ledger follow.
    Every method holds the object's lock, so an interleaving of threads is a sequence of calls. *)
From S2P Require Import Prelude PyStr PyDecimal DecimalFacts Json JsonFacts.
From S2P Require Import MotorModels.

(** ** IdempotencyStore *)

Class IdempotencyStore (S : Type) := {
  claim : pystr → M S bool;
  claimed : S → gset pystr;     (** the keys the store knows *)
}.

Class IdempotencyLaws (S : Type) `{IdempotencyStore S} : Prop := {
  claim_fresh k s s' : claim k s = (Ok true, s') → k ∉ claimed s;
  claim_duplicate k s : k ∈ claimed s → claim k s = (Ok false, s);
  claim_claimed k s : claimed (claim k s).2 = {[k]} ∪ claimed s;
}.

(** A sequence of calls and what each returned. *)
Fixpoint run_claims {S} `{IdempotencyStore S} (keys : list pystr) (s : S)
  : list (result bool) * S :=
  match keys with
  | [] => ([], s)
  | k :: keys => let '(r, s) := claim k s in
                 let '(rs, s) := run_claims keys s in (r :: rs, s)
  end.

Section claims.
Context {S : Type} `{IdempotencyLaws S}.

Lemma run_claims_claimed keys (s : S) k :
  k ∈ claimed (run_claims keys s).2 ↔ k ∈ keys ∨ k ∈ claimed s.
Proof.
  revert s. induction keys as [|k' keys IH]; intros s; cbn.
  - rewrite elem_of_nil. tauto.
  - pose proof (claim_claimed k' s) as Hc. destruct (claim k' s) as [r s1].
    specialize (IH s1). destruct (run_claims keys s1) as [rs s2]. cbn in *.
    rewrite IH, Hc, elem_of_cons. set_solver.
Qed.

Lemma run_claims_known keys (s : S) j k :
  k ∈ claimed s → keys !! j = Some k → (run_claims keys s).1 !! j = Some (Ok false).
Proof.
  revert s j. induction keys as [|k' keys IH]; intros s j Hk Hj; [done|]. cbn.
  destruct j as [|j].
  - cbn in Hj. simplify_eq. rewrite claim_duplicate by done. by destruct (run_claims keys s).
  - cbn in Hj. pose proof (claim_claimed k' s) as Hc. destruct (claim k' s) as [r s1].
    specialize (IH s1 j). destruct (run_claims keys s1). cbn in *. apply IH; [set_solver|done].
Qed.

Lemma run_claims_once keys (s : S) i j k :
  (i < j)%nat → keys !! i = Some k → keys !! j = Some k →
  (run_claims keys s).1 !! j = Some (Ok false).
Proof.
  revert s i j. induction keys as [|k' keys IH]; intros s i j Hij Hi Hj; [done|].
  destruct j as [|j]; [lia|]. cbn.
  pose proof (claim_claimed k' s) as Hc. destruct (claim k' s) as [r s1] eqn:E.
  pose proof (run_claims_known keys s1 j k) as Hkn. pose proof (IH s1 (i - 1)%nat j) as IH1.
  destruct (run_claims keys s1). cbn in *. destruct i as [|i].
  - cbn in Hi. simplify_eq. apply Hkn; [set_solver|done].
  - apply IH1; [lia|by replace (Datatypes.S i - 1)%nat with i by lia|done].
Qed.
End claims.

(** ** InMemoryIdempotencyStore *)

Record MemStore := mkMemStore { mem_seen : gset pystr }.
Definition InMemoryIdempotencyStore : MemStore := mkMemStore ∅.

Definition mem_claim (key : pystr) : M MemStore bool := λ s,
  if bool_decide (key ∈ mem_seen s) then (Ok false, s)
  else (Ok true, mkMemStore ({[key]} ∪ mem_seen s)).

#[export] Instance mem_store : IdempotencyStore MemStore :=
  { claim := mem_claim; claimed := mem_seen }.
#[export] Instance mem_laws : IdempotencyLaws MemStore.
Proof.
  split; cbn; unfold mem_claim.
  - intros k s s' H. by case_bool_decide.
  - intros k s H. by rewrite bool_decide_eq_true_2.
  - intros k s. case_bool_decide; cbn; set_solver.
Qed.

(** ** FileIdempotencyStore *)

Definition IDEMPOTENCY_FILENAME : pystr := u "idempotency.jsonl".

(** [json.dumps({"key": key}) + "\n"]. *)
Definition claim_line (key : pystr) : pystr :=
  dumps_default (JObj [(u "key", JStr key)]) ++ [10%N].

(** The next write, flush and fsync: done, or failed with an exception after [n] characters of
    what was pending reached the file (the rest stays in the stream's buffer). *)
Inductive io_outcome := IoOk | IoFail (e : exn) (n : nat).

(** [fs_text] is the content of the file, what a restart reads back. *)
Record FileStore := mkFileStore {
  fs_seen : gset pystr; fs_text : pystr; fs_buf : pystr; fs_closed : bool;
  fs_io : list io_outcome }.

(** [except (OSError, ValueError)]. *)
Definition persist_caught (c : exn_class) : bool :=
  match c with OSError | ValueError => true | _ => false end.
Definition not_persisted : exn := Exn IdempotencyStoreError (u "claim could not be persisted").

Definition file_claim (key : pystr) : M FileStore bool := λ s,
  if bool_decide (key ∈ fs_seen s) then (Ok false, s)
  else
    let seen := {[key]} ∪ fs_seen s in
    if fs_closed s then
      (Raise not_persisted, mkFileStore seen (fs_text s) (fs_buf s) true (fs_io s))
    else
      let pending := fs_buf s ++ claim_line key in
      match fs_io s with
      | [] => (Ok true, mkFileStore seen (fs_text s ++ pending) [] false [])
      | IoOk :: io => (Ok true, mkFileStore seen (fs_text s ++ pending) [] false io)
      | IoFail e n :: io =>
          (Raise (if persist_caught (exn_kind e) then not_persisted else e),
           mkFileStore seen (fs_text s ++ take n pending) (drop n pending) false io)
      end.

Definition file_close (s : FileStore) : FileStore :=
  mkFileStore (fs_seen s) (fs_text s) (fs_buf s) true (fs_io s).

#[export] Instance file_store : IdempotencyStore FileStore :=
  { claim := file_claim; claimed := fs_seen }.
#[export] Instance file_laws : IdempotencyLaws FileStore.
Proof.
  split; cbn; unfold file_claim.
  - intros k s s' H. by case_bool_decide.
  - intros k s H. by rewrite bool_decide_eq_true_2.
  - intros k s. case_bool_decide; cbn; [set_solver|]. by repeat case_match.
Qed.

(** [json.loads(line)["key"]], a non-empty string. *)
Definition line_key (line : pystr) : option pystr :=
  match loads line with
  | Some (JObj m) =>
      match obj_get m (u "key") with
      | Some (JStr k) => if bool_decide (k = []) then None else Some k
      | _ => None
      end
  | _ => None
  end.

Definition corrupt {A} : result A := raise ConfigError (u "idempotency store corrupt").

Definition load_lines (seen : gset pystr) (lines : list pystr) : result (gset pystr) :=
  foldR (λ seen line, match line_key line with
                      | Some k => Ok ({[k]} ∪ seen)
                      | None => corrupt
                      end) seen lines.

(** [_load]: [None] when the file does not exist, [Raise] when it cannot be read. *)
Definition _load (file : option (result pystr)) : result (gset pystr) :=
  match file with
  | None => Ok ∅
  | Some (Raise _) => corrupt
  | Some (Ok text) => load_lines ∅ (splitlines text)
  end.

(** [__init__]: load, then open for appending. *)
Definition open_file_store (file : option (result pystr)) (append_ok : bool) (io : list io_outcome)
  : result FileStore :=
  seen ← _load file;
  if append_ok then
    let text := match file with Some (Ok t) => t | _ => [] end in
    Ok (mkFileStore seen text [] false io)
  else raise ConfigError (u "idempotency store not writable").

(** [dir] is [any(state_dir.iterdir())] after mkdir; [is_file] says the store file is there. *)
Definition open_persistent_idempotency_store (dir : result bool) (is_file : bool)
    (file : option (result pystr)) (append_ok : bool) (io : list io_outcome) : result FileStore :=
  match dir with
  | Raise _ => raise ConfigError (u "state dir unusable")
  | Ok populated =>
      if populated && negb is_file then
        raise ConfigError (u "idempotency store missing in a non-empty state dir")
      else open_file_store file append_ok io
  end.

(** ** Notional *)

Definition _usable_price (value : option decimal) : option decimal :=
  match value with
  | Some v => if finite_positive v then Some v else None
  | None => None
  end.

(** [max(prices)] of a non-empty list. *)
Definition max_price (p : decimal) (ps : list decimal) : result decimal := foldR dmax p ps.

Definition usable_prices (o : Order) (trusted_price : option decimal) : list decimal :=
  omap _usable_price [Some (limit_price o); Some (stop_price o); trusted_price].

Definition compute_notional (o : Order) (trusted_price : option decimal)
  : result (option decimal) :=
  match usable_prices o trusted_price with
  | [] => Ok None
  | p :: ps => m ← max_price p ps; n ← dmul (quantity o) m; Ok (Some n)
  end.

(** ** NotionalLedger *)

Record NotionalLedger := mkLedger { cap : decimal; reserved : decimal }.

Definition make_ledger (c : decimal) : result NotionalLedger :=
  if finite_positive c then Ok (mkLedger c D_ZERO) else raise ValueError (u "cap must be > 0").

Definition try_reserve (amount : decimal) : M NotionalLedger bool := λ l,
  if negb (finite_positive amount) then (Ok false, l)
  else
    match dadd (reserved l) amount with
    | Raise e => (Raise e, l)
    | Ok total =>
        match dgt total (cap l) with
        | Raise e => (Raise e, l)
        | Ok true => (Ok false, l)
        | Ok false => (Ok true, mkLedger (cap l) total)
        end
    end.

Definition release (amount : decimal) : M NotionalLedger unit := λ l,
  match (diff ← dsub (reserved l) amount; dmax D_ZERO diff) with
  | Ok r => (Ok tt, mkLedger (cap l) r)
  | Raise e => (Raise e, l)
  end.

(** ** The file format: one JSON object per claim *)

(** The complete lines of a store file. *)
Definition store_file (keys : list pystr) : pystr := concat (claim_line <$> keys).
(** Keys the motor claims: non-empty text. *)
Definition key_ok (k : pystr) : Prop := k ≠ [] ∧ str_ok k = true.

Definition printable (c : N) : bool := in_range 32 126 c.

Lemma hex_char_printable n : (n < 16)%N → printable (hex_char n) = true.
Proof.
  intros H. unfold printable, in_range, hex_char. apply andb_true_iff.
  rewrite !N.leb_le. destruct (N.ltb_spec n 10); lia.
Qed.

Lemma hex4_printable c : forallb printable (hex4 c) = true.
Proof.
  unfold hex4. cbn [forallb].
  rewrite !hex_char_printable by (apply N.mod_lt; lia). reflexivity.
Qed.

Lemma escape_char_printable c : forallb printable (escape_char c) = true.
Proof.
  unfold escape_char.
  repeat match goal with |- context [if (?a =? ?b)%N then _ else _] => destruct (a =? b)%N; [done|] end.
  destruct ((32 <=? c) && (c <=? 126))%N eqn:E; [cbn; by rewrite andb_true_r|].
  destruct (c <? 65536)%N; [cbn [forallb app]; by rewrite hex4_printable|].
  cbn [forallb app]. rewrite forallb_app. cbn [forallb]. by rewrite !hex4_printable.
Qed.

Lemma escape_printable s : forallb printable (escape s) = true.
Proof.
  unfold escape. induction s as [|c s IH]; [done|].
  cbn [mbind list_bind]. by rewrite forallb_app, escape_char_printable, IH.
Qed.

Lemma printable_no_linebreak s :
  forallb printable s = true → forallb (λ c, negb (is_linebreak c)) s = true.
Proof.
  rewrite !forallb_forall. intros H c Hc%H. unfold printable, in_range in Hc.
  apply andb_true_iff in Hc. rewrite !N.leb_le in Hc.
  unfold is_linebreak, one_of. rewrite bool_decide_eq_false_2; [done|].
  rewrite !elem_of_cons, elem_of_nil. lia.
Qed.

Definition claim_doc (k : pystr) : pystr := dumps_default (JObj [(u "key", JStr k)]).

Lemma claim_doc_text k :
  claim_doc k = [123; 34; 107; 101; 121; 34; 58; 32; 34]%N ++ escape k ++ [34; 125]%N.
Proof.
  unfold claim_doc, dumps_default. cbn [dumps fmap list_fmap join fst snd].
  unfold quoted. cbn [fst snd].
  change (u "{") with [123]%N. change (u "}") with [125]%N. change (u ": ") with [58; 32]%N.
  change (escape (u "key")) with [107; 101; 121]%N. cbn [app]. by rewrite <- app_assoc.
Qed.

Lemma parse_value_string fuel s :
  parse_value (S fuel) (34%N :: s) = ('(t, r) ← parse_string s; Some (JStr t, r)).
Proof. reflexivity. Qed.

Lemma parse_value_member fuel s :
  parse_value (S (S fuel)) (123%N :: 34%N :: s) =
  ('(m, r) ← ('(k, r) ← parse_string s;
              r ← eat 58 (skip_ws r);
              '(v, r) ← parse_value fuel (skip_ws r);
              match eat 125 (skip_ws r) with
              | Some r => Some (obj_set [] k v, r)
              | None => r ← eat 44 (skip_ws r); parse_members fuel (obj_set [] k v) (skip_ws r)
              end);
   Some (JObj m, r)).
Proof. reflexivity. Qed.

Lemma loads_claim_doc k :
  str_ok k = true → loads (claim_doc k) = Some (JObj [(u "key", JStr k)]).
Proof.
  intros Hk. unfold loads. rewrite claim_doc_text.
  set (n := length _). assert (∃ f, 2 * n + 2 = S (S (S f)))%nat as [f ->].
  { subst n. rewrite !length_app. cbn [length]. exists (2 * length (escape k) + 21)%nat. lia. }
  clear n. cbn [app]. set (T := escape k ++ [34; 125]%N).
  assert (parse_string T = Some (k, [125]%N)) as HT by by apply parse_string_escape.
  assert (parse_string (107 :: 101 :: 121 :: 34 :: 58 :: 32 :: 34 :: T)%N
          = Some (u "key", 58 :: 32 :: 34 :: T)%N) as Hkey by reflexivity.
  change (skip_ws (123 :: 34 :: 107 :: 101 :: 121 :: 34 :: 58 :: 32 :: 34 :: T)%N)
    with (123 :: 34 :: 107 :: 101 :: 121 :: 34 :: 58 :: 32 :: 34 :: T)%N.
  rewrite parse_value_member, Hkey. cbn [mbind option_bind].
  change (eat 58 (skip_ws (58 :: 32 :: 34 :: T)%N)) with (Some (32 :: 34 :: T)%N).
  cbn [mbind option_bind]. change (skip_ws (32 :: 34 :: T)%N) with (34 :: T)%N.
  rewrite parse_value_string, HT. reflexivity.
Qed.

Lemma line_key_claim_doc k : key_ok k → line_key (claim_doc k) = Some k.
Proof.
  intros [Hne Hok]. unfold line_key. rewrite loads_claim_doc by done.
  cbn [obj_get]. rewrite str_eqb_refl. by rewrite bool_decide_eq_false_2.
Qed.

Lemma claim_doc_no_linebreak k : forallb (λ c, negb (is_linebreak c)) (claim_doc k) = true.
Proof.
  apply printable_no_linebreak. rewrite claim_doc_text, !forallb_app, escape_printable. reflexivity.
Qed.

Lemma store_file_snoc ks k : store_file (ks ++ [k]) = store_file ks ++ claim_line k.
Proof. unfold store_file. rewrite fmap_app, concat_app. cbn. by rewrite app_nil_r. Qed.

Lemma splitlines_store ks rest :
  splitlines (store_file ks ++ rest) = (claim_doc <$> ks) ++ splitlines rest.
Proof.
  induction ks as [|k ks IH]; [done|].
  change (store_file (k :: ks)) with ((claim_doc k ++ [10%N]) ++ store_file ks).
  rewrite <- !app_assoc. cbn [app].
  rewrite splitlines_cons by apply claim_doc_no_linebreak. by rewrite IH.
Qed.

Lemma load_lines_docs seen ks :
  Forall key_ok ks → load_lines seen (claim_doc <$> ks) = Ok (list_to_set ks ∪ seen).
Proof.
  intros H. revert seen. unfold load_lines.
  induction H as [|k ks Hk _ IH]; intros seen; cbn [fmap list_fmap foldR].
  - f_equal. set_solver.
  - rewrite line_key_claim_doc by done. cbn [mbind result_bind]. rewrite IH. f_equal. set_solver.
Qed.

Lemma load_lines_mono seen ls seen' : load_lines seen ls = Ok seen' → seen ⊆ seen'.
Proof.
  apply (foldR_inv (λ s, seen ⊆ s)); [done|]. intros s x s' Hs H.
  destruct (line_key x); [|discriminate]. ok_inv. subst. set_solver.
Qed.

(** ** What a restart reads back *)

(** [k] stands in a complete line of the file. *)
Definition durable (k : pystr) (s : FileStore) : Prop :=
  ∃ ks rest, Forall key_ok ks ∧ k ∈ ks ∧ fs_text s = store_file ks ++ rest.

Lemma durable_reload k s seen : durable k s → _load (Some (Ok (fs_text s))) = Ok seen → k ∈ seen.
Proof.
  intros (ks & rest & Hks & Hk & E). cbn. rewrite E, splitlines_store.
  unfold load_lines. rewrite foldR_app. pose proof (load_lines_docs ∅ ks Hks) as H.
  unfold load_lines in H. rewrite H. intros Hseen%load_lines_mono. set_solver.
Qed.

(** The file and the stream's buffer together hold complete lines. *)
Definition lines_inv (s : FileStore) : Prop :=
  ∃ ks, Forall key_ok ks ∧ fs_text s ++ fs_buf s = store_file ks.

Lemma file_claim_inv k s r s' :
  file_claim k s = (r, s') → key_ok k → lines_inv s →
  lines_inv s' ∧ (∀ k', durable k' s → durable k' s') ∧ (r = Ok true → durable k s').
Proof.
  intros H Hk (ks & Hks & E). unfold file_claim in H.
  case_bool_decide; [simplify_eq; split_and!; [by exists ks|done|done]|].
  destruct (fs_closed s); [simplify_eq; split_and!; [by exists ks|done|done]|].
  assert (Forall key_ok (ks ++ [k])) as Hks' by by apply Forall_app; split; [|constructor].
  assert (fs_text s ++ fs_buf s ++ claim_line k = store_file (ks ++ [k])) as E'
    by by rewrite store_file_snoc, <- E, app_assoc.
  assert (k ∈ ks ++ [k]) as Hin by (apply elem_of_app; right; by left).
  assert (∀ t k', durable k' s → ∃ ks rest,
    Forall key_ok ks ∧ k' ∈ ks ∧ fs_text s ++ t = store_file ks ++ rest) as Hgrow.
  { intros t k' (ks' & rest & ? & ? & Et). exists ks', (rest ++ t). by rewrite Et, <- app_assoc. }
  assert (∀ io, durable k (mkFileStore ({[k]} ∪ fs_seen s)
                             (fs_text s ++ fs_buf s ++ claim_line k) [] false io)) as Hnew.
  { intros io. exists (ks ++ [k]), []. split_and!; [done..|]. cbn [fs_text]. by rewrite app_nil_r. }
  destruct (fs_io s) as [|[|e n] io]; simplify_eq; split_and!;
    try (by intros k'; apply Hgrow); try done; exists (ks ++ [k]); (split; [done|]);
    cbn [fs_text fs_buf]; [by rewrite app_nil_r..|by rewrite <- app_assoc, take_drop].
Qed.

Lemma run_file_claims_durable keys (s : FileStore) rs s' i k :
  run_claims keys s = (rs, s') → Forall key_ok keys → lines_inv s →
  (∀ k', durable k' s → durable k' s') ∧
  (keys !! i = Some k → rs !! i = Some (Ok true) → durable k s').
Proof.
  revert s rs s' i. induction keys as [|k' keys IH]; intros s rs s' i H Hok Hinv; cbn in H.
  - by simplify_eq.
  - apply Forall_cons in Hok as [Hk Hok].
    destruct (file_claim k' s) as [r s1] eqn:E1. destruct (run_claims keys s1) as [rs1 s2] eqn:E2.
    simplify_eq. destruct (file_claim_inv _ _ _ _ E1 Hk Hinv) as (Hinv1 & Hg & Hd).
    destruct (IH _ _ _ (pred i) E2 Hok Hinv1) as [Hg1 Hi1].
    split; [intros k'' ?; by apply Hg1, Hg|].
    destruct i as [|i]; cbn; intros ? ?; simplify_eq; [by apply Hg1, Hd|by apply Hi1].
Qed.

Lemma clean_claims keys s :
  Forall key_ok keys → fs_closed s = false → fs_io s = [] → fs_buf s = [] →
  (∃ ks, Forall key_ok ks ∧ fs_text s = store_file ks ∧ fs_seen s = list_to_set ks) →
  ∃ ks, Forall key_ok ks ∧ fs_text (run_claims keys s).2 = store_file ks ∧
        fs_seen (run_claims keys s).2 = list_to_set ks.
Proof.
  revert s. induction keys as [|k keys IH]; intros s Hok Hcl Hio Hbuf (ks & Hks & Et & Es).
  { by exists ks. }
  apply Forall_cons in Hok as [Hk Hok]. cbn. unfold file_claim.
  case_bool_decide as Hin.
  - destruct (run_claims keys s) eqn:E. specialize (IH s). rewrite E in IH. apply IH; eauto.
  - rewrite Hcl, Hio, Hbuf.
    set (s1 := mkFileStore _ _ _ _ _). destruct (run_claims keys s1) as [rs s2] eqn:E.
    specialize (IH s1). rewrite E in IH. apply IH; [done..|].
    exists (ks ++ [k]). split_and!.
    + apply Forall_app; split; [done|by constructor].
    + cbn. by rewrite Et, store_file_snoc.
    + cbn. rewrite Es. set_solver.
Qed.

(** ** The session ledger against the list of outstanding reservations *)

Inductive ledger_op := Reserve (amount : decimal) | Release (amount : decimal).

(** [held] without its first [a]. *)
Fixpoint remove_one (a : decimal) (held : list decimal) : option (list decimal) :=
  match held with
  | [] => None
  | x :: held => if decide (x = a) then Some held else cons x <$> remove_one a held
  end.

(** The ledger and the reservations its clients hold: only a held amount is released. *)
Definition ledger_step (st : NotionalLedger * list decimal) (op : ledger_op)
  : NotionalLedger * list decimal :=
  let '(l, held) := st in
  match op with
  | Reserve a => match try_reserve a l with
                 | (Ok true, l') => (l', a :: held)
                 | (_, l') => (l', held)
                 end
  | Release a => match remove_one a held with
                 | Some held' => ((release a l).2, held')
                 | None => st
                 end
  end.

Definition op_amount (op : ledger_op) : decimal :=
  match op with Reserve a => a | Release a => a end.

Lemma finite_positive_lt d : finite_positive d = true ↔ dec_lt D_ZERO d.
Proof.
  unfold finite_positive, dec_lt, sure. rewrite andb_true_iff. destruct (is_finite d) eqn:Hd.
  - destruct (fits_scale2 D_ZERO d) as [F0 F]; [done..|].
    rewrite (dgt_sc (scale2 D_ZERO d)), (dlt_sc (scale2 D_ZERO d)) by done.
    split; [intros [_ H]|intros (_ & _ & [= H])]; split_and?; try done; by rewrite ?H.
  - split; [by intros [? _]|by intros (_ & ? & _)].
Qed.

(** 0 <= reserved <= cap, and reserved is a result of the context. *)
Definition ledger_ok (l : NotionalLedger) : Prop :=
  dec_le D_ZERO (reserved l) ∧ dec_le (reserved l) (cap l) ∧ rounded (reserved l).

Lemma ledger_ok_finite l :
  ledger_ok l → is_finite (reserved l) = true ∧ is_finite (cap l) = true.
Proof. intros [(_ & ? & _) [(_ & ? & _) _]]. done. Qed.

Lemma try_reserve_cases a l r l' :
  try_reserve a l = (r, l') → ledger_ok l →
  l' = l ∧ r ≠ Ok true ∨
  r = Ok true ∧ finite_positive a = true ∧
    ∃ total, dadd (reserved l) a = Ok total ∧ dec_le total (cap l) ∧ l' = mkLedger (cap l) total.
Proof.
  intros H Hl. apply ledger_ok_finite in Hl as [Hr Hc]. unfold try_reserve in H.
  destruct (finite_positive a) eqn:Ha; cbn [negb] in H; [|left; by simplify_eq].
  destruct (dadd _ _) as [total|] eqn:Hadd; [|left; by simplify_eq].
  destruct (dgt total (cap l)) as [[]|] eqn:Hgt; [left; by simplify_eq| |left; by simplify_eq].
  simplify_eq.
  right. split_and!; [done..|]. exists total. split_and!; [done| |done].
  apply dgt_false_le; [done| |done]. eapply dadd_finite; [done..|].
  unfold finite_positive in Ha. by apply andb_true_iff in Ha as [? _].
Qed.

Lemma try_reserve_ok a l : ledger_ok l → ledger_ok (try_reserve a l).2.
Proof.
  intros Hl. destruct (try_reserve a l) as [r l'] eqn:E.
  destruct (try_reserve_cases _ _ _ _ E Hl) as [[-> _]|(_ & Ha & total & Hadd & Hle & ->)]; [done|].
  apply finite_positive_lt in Ha. pose proof Ha as (_ & Fa & _).
  pose proof (ledger_ok_finite _ Hl) as [Fr _].
  split; [|split; [done|]]; cbn [snd reserved]; [|by eapply dadd_rounded].
  eapply dadd_mono_nonneg; [done|by destruct Hl|auto with s2p].
Qed.

Lemma release_ok a l : ledger_ok l → dec_le D_ZERO a → ledger_ok (release a l).2.
Proof.
  intros Hl Ha. pose proof (ledger_ok_finite _ Hl) as [Fr Fc]. pose proof Ha as (_ & Fa & _).
  unfold release. destruct (dsub _ _) as [diff|] eqn:Hd; [|done]. cbn [mbind result_bind].
  destruct (dmax D_ZERO diff) as [r|] eqn:Hm; [|done]. cbn [snd].
  destruct Hl as (H0 & Hcap & Hr). pose proof (dsub_le _ _ _ Hd Hr Fr Ha) as Hle.
  pose proof Hle as (Fd & _ & _).
  split; [|split]; cbn [reserved cap].
  - by eapply dmax_ge in Hm as [? _].
  - destruct (dmax_or _ _ _ Hm) as [-> | ->]; (eapply dec_le_trans; [|exact Hcap]; done).
  - destruct (dmax_or _ _ _ Hm) as [-> | ->]; [done|].
    eapply dadd_rounded; [exact Hd|done|by destruct a].
Qed.

(** [fits] with a common scale for the amounts of a session. *)
Section exact_ledger.
Context (m : Z) (Hm0 : m ≤ 0) (Hmt : Etiny ≤ m).

Definition held_units (held : list decimal) : Z := foldr (λ a z, sc m a + z) 0 held.

(** Reserved is the exact total of the held amounts and never above the cap. *)
Definition ledger_exact (st : NotionalLedger * list decimal) : Prop :=
  ledger_ok st.1 ∧ fits m (reserved st.1) ∧ fits m (cap st.1) ∧ sc m (cap st.1) + 1 < 10 ^ prec ∧
  Forall (λ a, fits m a ∧ dec_lt D_ZERO a) st.2 ∧
  sc m (reserved st.1) = held_units st.2.

Lemma held_units_nonneg held :
  Forall (λ a, fits m a ∧ dec_lt D_ZERO a) held → 0 ≤ held_units held.
Proof.
  induction 1 as [|a held [Ha Hp] _ IH]; cbn [held_units foldr] in *; [done|].
  rewrite (dec_lt_sc m) in Hp by (done || by apply fits_D). change (sc m D_ZERO) with 0 in Hp.
  unfold held_units in IH. lia.
Qed.

Lemma remove_one_units a held held' :
  remove_one a held = Some held' →
  held_units held = sc m a + held_units held' ∧
  (∀ P : decimal → Prop, Forall P held → P a ∧ Forall P held').
Proof.
  revert held'. induction held as [|x held IH]; intros held' H; cbn in H; [done|].
  case_decide; [simplify_eq; split; [done|by intros P [? ?]%Forall_cons]|].
  destruct (remove_one a held) as [h|]; [|done]. cbn in H. simplify_eq.
  destruct (IH h) as [E HP]; [done|]. split; [cbn; unfold held_units in *; lia|].
  intros P [? [? ?]%HP]%Forall_cons. split; [done|by constructor].
Qed.

Lemma reserve_exact a st :
  ledger_exact st → fits m a → ledger_exact (ledger_step st (Reserve a)).
Proof.
  destruct st as [l held]. intros (Hl & Fr & Fc & Hc & Hh & E) Fa. cbn [ledger_step fst snd] in *.
  destruct (try_reserve a l) as [r l'] eqn:Et.
  destruct (try_reserve_cases _ _ _ _ Et Hl)
    as [[-> Hr]|(-> & Ha & total & Hadd & Hle & ->)].
  { destruct r as [[]|]; [done| |]; by split_and!. }
  pose proof (try_reserve_ok a l Hl) as Hl'. rewrite Et in Hl'. apply finite_positive_lt in Ha.
  assert (fits m total) as Ft by (eapply dadd_fits; eauto; unfold Emax; lia).
  split_and!; try done; [by constructor|]. cbn [fst snd reserved held_units foldr].
  unfold held_units in E. rewrite <- E.
  rewrite (dec_le_sc m) in Hle by done.
  rewrite (dec_lt_sc m) in Ha by (done || by apply fits_D). change (sc m D_ZERO) with 0 in Ha.
  destruct Hl as (H0 & _). rewrite (dec_le_sc m) in H0 by (done || by apply fits_D).
  change (sc m D_ZERO) with 0 in H0.
  rewrite (dadd_exact m _ _ _ Hadd); [lia|done..|].
  rewrite (dadd_sc m _ _ _ Hadd) in Hle by done.
  destruct (Z.lt_ge_cases (sc m (reserved l) + sc m a) (10 ^ prec)) as [|Hge]; [lia|].
  pose proof (rnd_mono m (10 ^ prec - 1) (sc m (reserved l) + sc m a) ltac:(lia)) as Hmono.
  pose proof (rnd_exact m (10 ^ prec - 1) 0) as Hx. rewrite Z.pow_0_r, Z.mul_1_r in Hx.
  rewrite Hx in Hmono by (unfold prec; lia). lia.
Qed.

Lemma release_exact a st : ledger_exact st → ledger_exact (ledger_step st (Release a)).
Proof.
  destruct st as [l held]. intros (Hl & Fr & Fc & Hc & Hh & E). cbn [ledger_step fst snd] in *.
  destruct (remove_one a held) as [held'|] eqn:Er; [|by split_and!].
  destruct (remove_one_units _ _ _ Er) as [Eu HP]. destruct (HP _ Hh) as [[Fa Ha] Hh'].
  pose proof (held_units_nonneg _ Hh') as Hn. pose proof Hl as (H0 & Hcap & _).
  rewrite (dec_le_sc m) in H0 by (done || by apply fits_D).
  rewrite (dec_le_sc m) in Hcap by done. change (sc m D_ZERO) with 0 in H0.
  assert (sc m (reserved l) + sc m (copy_negate a) = held_units held') as Es
    by (rewrite copy_negate_sc; lia).
  pose proof (release_ok a l Hl (dec_lt_le _ _ Ha)) as Hl'.
  rewrite (dec_lt_sc m) in Ha by (done || by apply fits_D). change (sc m D_ZERO) with 0 in Ha.
  destruct (dadd_total m (reserved l) (copy_negate a)) as [diff Hd]; auto with s2p; [lia|].
  assert (fits m diff) as Fd by (eapply dadd_fits; eauto with s2p; unfold Emax; lia).
  assert (sc m diff = held_units held') as Ed
    by (rewrite (dadd_exact m _ _ _ Hd); auto with s2p; lia).
  revert Hl'. unfold release, dsub. rewrite Hd. cbn [mbind result_bind]. unfold dmax.
  rewrite (dgt_sc m) by (done || by apply fits_D). cbn [mbind result_bind snd].
  change (sc m D_ZERO) with 0. intros Hl'. split_and!; try done; cbn [fst snd reserved].
  - destruct (0 <? sc m diff); [done|by apply fits_D].
  - destruct (Z.ltb_spec 0 (sc m diff)); [done|]. change (sc m D_ZERO) with 0. lia.
Qed.
End exact_ledger.

(** ** Properties *)

(** Both idempotency stores hand out a key once. In any sequence of [claim] calls, from any
    state of the store and whatever the file system does, a call for a key that an earlier call
    named returns False: also when the earlier call raised because the claim could not be
    persisted. *)
Theorem claim_single_use keys i j k :
  (i < j)%nat → keys !! i = Some k → keys !! j = Some k →
  (∀ s : MemStore, (run_claims keys s).1 !! j = Some (Ok false)) ∧
  (∀ s : FileStore, (run_claims keys s).1 !! j = Some (Ok false)).
Proof. intros. split; intros s; by eapply run_claims_once. Qed.

Lemma claim_single_use_witness :
  let keys := [u "signal:a"; u "order:a"; u "signal:a"] in
  (run_claims keys InMemoryIdempotencyStore).1 = [Ok true; Ok true; Ok false] ∧
  (run_claims keys InMemoryIdempotencyStore).1 !! 2%nat = Some (Ok false).
Proof.
  intros keys. split; [vm_compute; reflexivity|].
  exact (proj1 (claim_single_use keys 0 2 (u "signal:a") ltac:(lia) eq_refl eq_refl)
           InMemoryIdempotencyStore).
Defined.

(** A restart cannot forget a granted claim. Take a store opened on a file of complete lines,
    any sequence of claims on it, and any pattern of write failures (partial writes included). If
    [claim k] returned True, then whatever store a later process opens on the resulting file
    refuses [k]: the file is either rejected as corrupt or the new store answers False. *)
Theorem file_claim_survives_restart ks0 ok io s keys rs s' i k ok' io' s'' :
  Forall key_ok ks0 → Forall key_ok keys →
  open_file_store (Some (Ok (store_file ks0))) ok io = Ok s →
  run_claims keys s = (rs, s') →
  keys !! i = Some k → rs !! i = Some (Ok true) →
  open_file_store (Some (Ok (fs_text s'))) ok' io' = Ok s'' →
  file_claim k s'' = (Ok false, s'').
Proof.
  intros H0 Hk Ho Hrun Hi Hr Ho'. apply (@claim_duplicate FileStore _ file_laws k s'').
  change (k ∈ fs_seen s'').
  unfold open_file_store in Ho'. destruct (_load (Some (Ok (fs_text s')))) as [seen|] eqn:El;
    cbn [mbind result_bind] in Ho'; [|done].
  destruct ok'; [|done]. ok_inv. subst s''. cbn [fs_seen].
  eapply durable_reload; [|exact El].
  assert (lines_inv s) as Hinv.
  { unfold open_file_store in Ho. destruct (_load _); cbn [mbind result_bind] in Ho; [|done].
    destruct ok; [|done]. ok_inv. subst s. exists ks0. split; [done|]. by rewrite app_nil_r. }
  by eapply run_file_claims_durable.
Qed.

Definition restart_witness_store : FileStore :=
  mkFileStore {[u "order:b"]} (store_file [u "order:b"]) [] false [IoOk; IoFail (Exn OSError []) 9].

Lemma file_claim_survives_restart_witness :
  ∃ s', run_claims [u "signal:a"; u "order:a"] restart_witness_store
        = ([Ok true; Raise not_persisted], s') ∧
  (∀ ok' io' s'', open_file_store (Some (Ok (fs_text s'))) ok' io' = Ok s'' →
     file_claim (u "signal:a") s'' = (Ok false, s'')).
Proof.
  eexists. split; [vm_compute; reflexivity|]. intros ok' io' s'' H.
  eapply (file_claim_survives_restart [u "order:b"] true [IoOk; IoFail (Exn OSError []) 9]
    restart_witness_store [u "signal:a"; u "order:a"] _ _ 0); [..|exact H].
  - repeat constructor; done.
  - repeat constructor; done.
  - vm_compute. reflexivity.
  - vm_compute. reflexivity.
  - reflexivity.
  - reflexivity.
Defined.

(** When every write succeeds, a store that is closed and opened again knows exactly the same
    keys: loading inverts the appended lines. *)
Theorem file_store_reload ks0 s keys :
  Forall key_ok ks0 → Forall key_ok keys →
  open_file_store (Some (Ok (store_file ks0))) true [] = Ok s →
  _load (Some (Ok (fs_text (run_claims keys s).2))) = Ok (fs_seen (run_claims keys s).2).
Proof.
  intros H0 Hk Ho.
  assert (∀ ks, Forall key_ok ks → _load (Some (Ok (store_file ks))) = Ok (list_to_set ks))
    as Hload.
  { intros ks Hks. cbn. rewrite <- (app_nil_r (store_file ks)), splitlines_store, app_nil_r.
    rewrite load_lines_docs by done. f_equal. set_solver. }
  unfold open_file_store in Ho. rewrite Hload in Ho by done. cbn [mbind result_bind] in Ho.
  ok_inv. subst s.
  destruct (clean_claims keys (mkFileStore (list_to_set ks0) (store_file ks0) [] false []))
    as (ks & Hks & -> & ->); [done..|by exists ks0|]. by apply Hload.
Qed.

Lemma file_store_reload_witness :
  _load (Some (Ok (fs_text (run_claims [u "k1"; u "k2"; u "k1"]
                              (mkFileStore {[u "k0"]} (store_file [u "k0"]) [] false [])).2)))
  = Ok (fs_seen (run_claims [u "k1"; u "k2"; u "k1"]
                   (mkFileStore {[u "k0"]} (store_file [u "k0"]) [] false [])).2).
Proof.
  apply (file_store_reload [u "k0"]); [repeat constructor; done..|]. vm_compute. reflexivity.
Defined.

(** An existing state directory that lost its claim file, or whose file cannot be read or has
    a malformed line, never opens as a store: forgetting the earlier claims is refused. *)
Theorem persistent_store_fail_closed dir is_file file append_ok io s :
  open_persistent_idempotency_store dir is_file file append_ok io = Ok s →
  append_ok = true ∧ (dir = Ok false ∨ is_file = true) ∧
  (∀ e, file ≠ Some (Raise e)) ∧
  (∀ text, file = Some (Ok text) →
     Forall (λ line, ∃ k, line_key line = Some k ∧ k ∈ fs_seen s) (splitlines text)).
Proof.
  unfold open_persistent_idempotency_store, open_file_store, raise. intros H.
  destruct dir as [populated|]; [|done]. destruct (populated && negb is_file) eqn:Ep; [done|].
  destruct (_load file) as [seen|] eqn:El; cbn [mbind result_bind] in H; [|done].
  destruct append_ok; [|done]. ok_inv. subst s. cbn [fs_seen]. split_and!.
  - done.
  - destruct populated, is_file; auto.
  - intros e ->. done.
  - intros text ->. cbn in El. revert El. generalize (∅ : gset pystr) as acc.
    induction (splitlines text) as [|l ls IH]; intros acc El; [constructor|].
    unfold load_lines in El. cbn [foldR] in El.
    destruct (line_key l) as [k|] eqn:Ek; cbn [mbind result_bind] in El; [|done].
    constructor; [|by eapply IH]. exists k. split; [done|].
    apply load_lines_mono in El. set_solver.
Qed.

Lemma persistent_store_fail_closed_witness :
  let s := mkFileStore {[u "a"]} (store_file [u "a"]) [] false [] in
  open_persistent_idempotency_store (Ok true) true (Some (Ok (store_file [u "a"]))) true [] = Ok s ∧
  Forall (λ line, ∃ k, line_key line = Some k ∧ k ∈ fs_seen s) (splitlines (store_file [u "a"])).
Proof.
  intros s.
  assert (open_persistent_idempotency_store (Ok true) true (Some (Ok (store_file [u "a"]))) true []
    = Ok s) as H by (vm_compute; reflexivity).
  split; [exact H|].
  exact (proj2 (proj2 (proj2 (persistent_store_fail_closed _ _ _ _ _ _ H))) _ eq_refl).
Defined.

Lemma max_price_ge p ps m :
  max_price p ps = Ok m → Forall (λ x, is_finite x = true) (p :: ps) →
  is_finite m = true ∧ ∀ x, x ∈ p :: ps → dec_le x m.
Proof.
  unfold max_price. revert p. induction ps as [|x ps IH]; intros p H Hf; cbn [foldR] in H.
  - ok_inv. subst. apply Forall_cons in Hf as [Hp _]. split; [done|].
    intros x ->%list_elem_of_singleton. auto with s2p.
  - apply Forall_cons in Hf as [Hp [Hx Hf]%Forall_cons].
    destruct (dmax p x) as [y|] eqn:Ey; cbn [mbind result_bind] in H; [|done].
    destruct (dmax_ge _ _ _ Ey Hp Hx) as [Hpy Hxy]. pose proof Hpy as (_ & Hy & _).
    destruct (IH y H) as [Hm Hle]; [by constructor|]. split; [done|].
    pose proof (Hle y ltac:(by left)) as Hym.
    intros z [->|[->|Hz]%elem_of_cons]%elem_of_cons; [by eapply dec_le_trans..|].
    apply Hle. by right.
Qed.

Lemma dmul_mono q a b x y :
  dec_le D_ZERO q → dec_le a b → dmul q a = Ok x → dmul q b = Ok y → dec_le x y.
Proof.
  intros Hq Hab Hx Hy. pose proof Hq as (_ & Fq & _). pose proof Hab as (Fa & Fb & _).
  set (m1 := Z.min 0 (exp_of q)). set (m2 := Z.min 0 (Z.min (exp_of a) (exp_of b))).
  assert (fits m1 q) as F1 by (split; [done|lia]).
  assert (fits m2 a) as F2 by (split; [done|lia]).
  assert (fits m2 b) as F3 by (split; [done|lia]).
  assert (fits (m1 + m2) x ∧ fits (m1 + m2) y) as [Fx Fy]
    by (split; eapply dmul_fits; eauto; unfold Emax; lia).
  rewrite (dec_le_sc (m1 + m2)), (dmul_sc m1 m2 _ _ _ Hx), (dmul_sc m1 m2 _ _ _ Hy) by done.
  rewrite (dec_le_sc m1) in Hq by (done || apply fits_D; lia). change (sc m1 D_ZERO) with 0 in Hq.
  rewrite (dec_le_sc m2) in Hab by done. apply rnd_mono. nia.
Qed.

Lemma usable_finite o t : Forall (λ x, finite_positive x = true) (usable_prices o t).
Proof.
  apply Forall_forall. intros x. unfold usable_prices. rewrite list_elem_of_omap.
  intros (p & _ & H). unfold _usable_price in H. destruct p as [p|]; [|done].
  destruct (finite_positive p) eqn:E; by simplify_eq.
Qed.

Lemma finite_positive_finite d : finite_positive d = true → is_finite d = true.
Proof. unfold finite_positive. by intros [? _]%andb_true_iff. Qed.

Lemma usable_price_iff o t p :
  p ∈ usable_prices o t ↔
  dec_lt D_ZERO p ∧ (p = limit_price o ∨ p = stop_price o ∨ Some p = t).
Proof.
  unfold usable_prices. rewrite list_elem_of_omap, <- finite_positive_lt. unfold _usable_price. split.
  - intros (v & Hv & E). destruct v as [v|]; [|done].
    destruct (finite_positive v) eqn:Ef; [|done]. injection E as <-. split; [done|].
    rewrite !elem_of_cons, elem_of_nil in Hv.
    destruct Hv as [[= ->]|[[= ->]|[->|[]]]]; auto.
  - intros [Hp Hv]. exists (Some p). rewrite Hp. split; [|done].
    destruct Hv as [-> |[-> | ->]]; rewrite !elem_of_cons; auto.
Qed.

Lemma max_price_in p ps m : max_price p ps = Ok m → m ∈ p :: ps.
Proof.
  unfold max_price. revert p. induction ps as [|x ps IH]; intros p H; cbn in H.
  - apply Ok_inj in H as ->. left.
  - destruct (dmax p x) as [b|] eqn:E; [|done]. cbn in H. apply IH in H.
    apply elem_of_cons in H as [->|H]; [|by right; right].
    destruct (dmax_or _ _ _ E) as [-> | ->]; [left|right; left].
Qed.

(** The notional is the quantity times a usable price. *)
Lemma compute_notional_priced o t n :
  compute_notional o t = Ok (Some n) → ∃ p, p ∈ usable_prices o t ∧ dmul (quantity o) p = Ok n.
Proof.
  unfold compute_notional. destruct (usable_prices o t) as [|p ps]; [done|]. intros H. ok_inv.
  simplify_eq. exists a. split; [by apply max_price_in|done].
Qed.

(** The notional that the caps are checked against is a worst case: it is at least quantity
    times any usable price of the order, the signed limit, the signed stop or the trusted quote
    (products rounded as the code rounds them). It is undefined exactly when no such price
    exists, so an exposure that cannot be bounded is never given a number. *)
Theorem compute_notional_worst_case o t :
  (compute_notional o t = Ok None ↔ usable_prices o t = []) ∧
  ∀ n p n', finite_positive (quantity o) = true → compute_notional o t = Ok (Some n) →
    p ∈ usable_prices o t → dmul (quantity o) p = Ok n' → dec_le n' n.
Proof.
  unfold compute_notional. split.
  - destruct (usable_prices o t) as [|p ps]; [done|]. split; [|done].
    intros H. ok_inv. done.
  - intros n p n' Hq H Hp Hn'. pose proof (usable_finite o t) as Hf.
    destruct (usable_prices o t) as [|p0 ps]; [done|]. ok_inv. simplify_eq.
    eapply dmul_mono; [|eapply max_price_ge; [done| |exact Hp]|done..].
    + apply finite_positive_lt in Hq. auto with s2p.
    + eapply Forall_impl; [exact Hf|]. cbn. auto using finite_positive_finite.
Qed.

Lemma compute_notional_worst_case_witness :
  let o := mkOrder (u "o") (u "o") (u "AAPL") 1 BUY STOP_LIMIT (D 10) (D 101) (D 99) [] D_ZERO
             DIRECT D_ZERO D_ZERO in
  compute_notional o (Some (DFin 1005 (-1))) = Ok (Some (D 1010)) ∧ dec_le (D 990) (D 1010).
Proof.
  intros o. split; [vm_compute; reflexivity|].
  apply (proj2 (compute_notional_worst_case o (Some (DFin 1005 (-1)))) (D 1010) (D 99) (D 990));
    [vm_compute; reflexivity..| |vm_compute; reflexivity].
  right. left.
Defined.

(** The session ledger never holds more than its cap. Under any sequence of reservations (of
    any amount, NaN and infinities included) and releases of non-negative amounts, 0 <= reserved
    <= cap and the cap does not change. *)
Theorem ledger_within_cap c l ops :
  make_ledger c = Ok l →
  Forall (λ op, match op with Reserve _ => True | Release a => dec_le D_ZERO a end) ops →
  let l' := fold_left (λ l op, match op with
                               | Reserve a => (try_reserve a l).2
                               | Release a => (release a l).2 end) ops l in
  dec_le D_ZERO (reserved l') ∧ dec_le (reserved l') c ∧ cap l' = c.
Proof.
  unfold make_ledger. destruct (finite_positive c) eqn:Hc; [|done]. intros H Hops. ok_inv. subst l.
  apply finite_positive_lt in Hc.
  assert (ledger_ok (mkLedger c D_ZERO) ∧ cap (mkLedger c D_ZERO) = c) as Hinit.
  { split; [|done]. split; [by apply dec_le_refl|split; [by apply dec_lt_le|done]]. }
  revert Hinit. generalize (mkLedger c D_ZERO) as l. cbn zeta.
  induction Hops as [|op ops Hop _ IH]; intros l [Hl Hcap]; cbn [fold_left].
  - destruct Hl as (? & ? & _). by rewrite <- Hcap.
  - apply IH. destruct op as [a|a]; split.
    + by apply try_reserve_ok.
    + unfold try_reserve. by repeat case_match.
    + by apply release_ok.
    + unfold release. by case_match.
Qed.

Lemma ledger_within_cap_witness :
  let l' := fold_left (λ l op, match op with
                               | Reserve a => (try_reserve a l).2
                               | Release a => (release a l).2 end)
              [Reserve (D 60); Reserve DNaN; Reserve (D 50); Release (D 10)]
              (mkLedger (D 100) D_ZERO) in
  reserved l' = D 50 ∧ dec_le (reserved l') (D 100).
Proof.
  split; [vm_compute; reflexivity|].
  exact (proj1 (proj2 (ledger_within_cap (D 100) _
    [Reserve (D 60); Reserve DNaN; Reserve (D 50); Release (D 10)] eq_refl
    ltac:(repeat constructor; done)))).
Defined.

(** The ledger refines the set of outstanding reservations. When the cap and the amounts are
    multiples of some 10^m and the cap has at most 28 digits at that scale (for orders in nanos of
    quantity and price, m = -18 and any cap below 10^10 - 10^-18), the reserved amount is, after
    any sequence of reservations and releases of held amounts, exactly the sum of the amounts
    still held: rounding neither loses nor invents exposure. *)
Theorem ledger_refines_held m c l ops :
  Etiny ≤ m ≤ 0 → make_ledger c = Ok l → fits m c → sc m c + 1 < 10 ^ prec →
  Forall (λ op, fits m (op_amount op)) ops →
  let '(l', held) := fold_left ledger_step ops (l, []) in
  sc m (reserved l') = held_units m held ∧ held_units m held ≤ sc m c.
Proof.
  intros [Hm1 Hm0] Hmk Fc Hc Hops. unfold make_ledger in Hmk.
  destruct (finite_positive c) eqn:Hpos; [|done]. ok_inv. subst l. apply finite_positive_lt in Hpos.
  assert (ledger_exact m (mkLedger c D_ZERO, []) ∧ cap (mkLedger c D_ZERO) = c) as Hinit.
  { split; [|done]. refine (conj (conj _ (conj _ _)) (conj _ (conj _ (conj _ (conj _ _)))));
      first [done|by apply dec_le_refl|by apply dec_lt_le|by apply fits_D|constructor]. }
  revert Hinit. generalize (mkLedger c D_ZERO) as l, (@nil decimal) as held.
  induction Hops as [|op ops Hop _ IH]; intros l held [Hx Hcap]; cbn [fold_left].
  - destruct Hx as ((_ & Hle & _) & Fr & Fc' & _ & _ & E). cbn [fst snd] in *.
    rewrite (dec_le_sc m) in Hle by done. rewrite Hcap in Hle. split; [done|lia].
  - assert (ledger_exact m (ledger_step (l, held) op)) as Hx'.
    { destruct op; [by apply reserve_exact|by apply release_exact]. }
    assert (cap (ledger_step (l, held) op).1 = c) as Hcap'.
    { rewrite <- Hcap. destruct op; cbn [ledger_step]; unfold try_reserve, release;
        repeat case_match; by simplify_eq. }
    destruct (ledger_step (l, held) op) as [l1 held1]. by apply IH.
Qed.

Lemma ledger_refines_held_witness :
  let ops := [Reserve (DFin 1005 (-1)); Reserve (DFin 5 (-18)); Release (DFin 1005 (-1))] in
  let '(l', held) := fold_left ledger_step ops (mkLedger (D 1000) D_ZERO, []) in
  held = [DFin 5 (-18)] ∧ sc (-18) (reserved l') = held_units (-18) held.
Proof.
  intros ops.
  pose proof (ledger_refines_held (-18) (D 1000) (mkLedger (D 1000) D_ZERO) ops) as H.
  destruct (fold_left _ _ _) as [l' held] eqn:E. vm_compute in E. simplify_eq.
  split; [reflexivity|]. apply H.
  - split; vm_compute; congruence.
  - reflexivity.
  - split; [reflexivity|vm_compute; congruence].
  - vm_compute. reflexivity.
  - repeat constructor; vm_compute; congruence.
Defined.
