(* ===== verification/MotorConfig.v ===== *)
(** * Execution motor: configuration ([config.py])

    Reading and validating the environment: the caps have no default, every malformed value is a
    startup error, an unset environment is production. *)
From S2P Require Import Prelude PyStr PyDecimal DecimalFacts.

Definition _NS_PER_MS : Z := 1000000.
Definition _DEFAULT_MAX_AGE_MS : Z := 5000.
Definition _DEFAULT_SKEW_MS : Z := 1000.
Definition _DEFAULT_QUOTE_AGE_MS : Z := 2000.

(** [os.environ]. *)
Abbreviation environ := (gmap pystr pystr).

(** A value that is present and not blank. *)
Definition given (raw : option pystr) : option pystr :=
  match raw with Some r => if is_blank r then None else Some (strip r) | None => None end.

Definition _positive_decimal (env : environ) (name : pystr) : result decimal :=
  match given (env !! name) with
  | None => raise ConfigError (name ++ u " is required")
  | Some raw =>
      match dec_of_str raw with
      | None => raise ConfigError (name ++ u " is not a valid decimal")
      | Some value =>
          if negb (is_finite value) then raise ConfigError (name ++ u " must be a finite number > 0")
          else neg ← dle value D_ZERO;
               if neg : bool then raise ConfigError (name ++ u " must be a finite number > 0")
               else Ok value
      end
  end.

Definition _positive_ms (env : environ) (name : pystr) (default_ms : Z) : result Z :=
  match env !! name with
  | None => Ok (default_ms * _NS_PER_MS)
  | Some raw =>
      match int_of_str raw with
      | None => raise ConfigError (name ++ u " must be an integer number of milliseconds")
      | Some value => if value <=? 0 then raise ConfigError (name ++ u " must be > 0")
                      else Ok (value * _NS_PER_MS)
      end
  end.

Definition _ENVIRONMENTS : list pystr :=
  [u "production"; u "staging"; u "development"; u "test"].

Definition _flag (env : environ) (name : pystr) : result bool :=
  match given (env !! name) with
  | None => Ok false
  | Some raw =>
      let value := lower raw in
      if str_eqb value (u "true") then Ok true
      else if str_eqb value (u "false") then Ok false
      else raise ConfigError (name ++ u " must be 'true' or 'false'")
  end.

(** A path is its text. *)
Definition _optional_path (env : environ) (name : pystr) : option pystr := given (env !! name).

Record MotorConfig := mkMotorConfig {
  max_order_notional : decimal;
  max_session_notional : decimal;
  max_order_age_ns : Z;
  max_clock_skew_ns : Z;
  max_quote_age_ns : Z;
  environment : pystr;
  allow_short_selling : bool;
  state_dir : option pystr;
}.

Definition is_production (c : MotorConfig) : bool := str_eqb (environment c) (u "production").

(** [__post_init__]. *)
Definition make_config (c : MotorConfig) : result MotorConfig :=
  if negb (bool_decide (environment c ∈ _ENVIRONMENTS)) then
    raise ConfigError (u "environment must be one of")
  else
    bad ← or_else (dle (max_order_notional c) D_ZERO) (dle (max_session_notional c) D_ZERO);
    if bad : bool then raise ConfigError (u "notional caps must be > 0")
    else
      small ← dlt (max_session_notional c) (max_order_notional c);
      if small : bool then
        raise ConfigError (u "session notional cap must be >= per-order notional cap")
      else if (max_order_age_ns c <=? 0) || (max_clock_skew_ns c <? 0) || (max_quote_age_ns c <=? 0)
      then raise ConfigError (u "age/skew windows are invalid")
      else Ok c.

(** [env.get("MOTOR_ENV", "production").strip().lower() or "production"]. *)
Definition env_name (env : environ) : pystr :=
  let e := lower (strip (default (u "production") (env !! u "MOTOR_ENV"))) in
  if bool_decide (e = []) then u "production" else e.

Definition from_env (env : environ) : result MotorConfig :=
  order_cap ← _positive_decimal env (u "MOTOR_MAX_ORDER_NOTIONAL_USD");
  session_cap ← _positive_decimal env (u "MOTOR_MAX_SESSION_NOTIONAL_USD");
  age ← _positive_ms env (u "MOTOR_MAX_ORDER_AGE_MS") _DEFAULT_MAX_AGE_MS;
  skew ← _positive_ms env (u "MOTOR_MAX_CLOCK_SKEW_MS") _DEFAULT_SKEW_MS;
  quote_age ← _positive_ms env (u "MOTOR_MAX_QUOTE_AGE_MS") _DEFAULT_QUOTE_AGE_MS;
  short ← _flag env (u "MOTOR_SHORT_SELLING_ENABLED");
  make_config
    {| max_order_notional := order_cap; max_session_notional := session_cap;
       max_order_age_ns := age; max_clock_skew_ns := skew; max_quote_age_ns := quote_age;
       environment := env_name env; allow_short_selling := short;
       state_dir := _optional_path env (u "MOTOR_STATE_DIR") |}.

(** ** Facts *)

Lemma positive_decimal_ok env name d :
  _positive_decimal env name = Ok d → dec_lt D_ZERO d ∧ is_Some (env !! name).
Proof.
  unfold _positive_decimal, given. destruct (env !! name) as [raw|]; [|done].
  destruct (is_blank raw); [done|]. destruct (dec_of_str _) as [v|]; [|done].
  destruct (is_finite v) eqn:Hf; [cbn [negb]|done]. intros H. ok_inv.
  destruct a eqn:?; [done|]. ok_inv. subst d. split; [|done].
  by apply dle_false_lt.
Qed.

Lemma positive_ms_ok env name d z : _positive_ms env name d = Ok z → 0 < d → 0 < z.
Proof.
  unfold _positive_ms, _NS_PER_MS, raise. destruct (env !! name) as [raw|]; [|intros; simplify_eq; lia].
  destruct (int_of_str raw) as [v|]; [|done]. destruct (Z.leb_spec v 0); [done|].
  intros. simplify_eq. lia.
Qed.

Lemma make_config_ok c c' :
  make_config c = Ok c' → c' = c ∧ environment c ∈ _ENVIRONMENTS ∧
  0 < max_order_age_ns c ∧ 0 ≤ max_clock_skew_ns c ∧ 0 < max_quote_age_ns c ∧
  dlt (max_session_notional c) (max_order_notional c) = Ok false.
Proof.
  unfold make_config. case_bool_decide; [cbn [negb]|done]. intros Hc. ok_inv.
  destruct a; [done|]. ok_inv. destruct a; [done|].
  destruct (_ || _) eqn:E2; [done|]. ok_inv. subst c'.
  rewrite !orb_false_iff, !Z.leb_gt, Z.ltb_ge in E2. split_and!; tauto || lia || done.
Qed.

(** Configuration fails closed. A configuration read from the environment has finite positive
    caps, both set explicitly, with the session cap at least the per-order cap; positive age
    windows; a known environment, which is production when MOTOR_ENV is unset or blank; and short
    selling only when it was set to true. *)
Theorem from_env_fail_closed env c :
  from_env env = Ok c →
  dec_lt D_ZERO (max_order_notional c) ∧ dec_le (max_order_notional c) (max_session_notional c) ∧
  is_Some (env !! u "MOTOR_MAX_ORDER_NOTIONAL_USD") ∧
  is_Some (env !! u "MOTOR_MAX_SESSION_NOTIONAL_USD") ∧
  0 < max_order_age_ns c ∧ 0 < max_clock_skew_ns c ∧ 0 < max_quote_age_ns c ∧
  environment c ∈ _ENVIRONMENTS ∧
  (given (env !! u "MOTOR_ENV") = None → is_production c = true) ∧
  (allow_short_selling c = true →
     ∃ raw, env !! u "MOTOR_SHORT_SELLING_ENABLED" = Some raw ∧ lower (strip raw) = u "true").
Proof.
  unfold from_env. intros H. ok_inv.
  apply positive_decimal_ok in E as [Hp1 ?]. apply positive_decimal_ok in E0 as [Hp2 ?].
  apply positive_ms_ok in E1; [|done]. apply positive_ms_ok in E2; [|done].
  apply positive_ms_ok in E3; [|done].
  apply make_config_ok in H as (-> & He & _ & _ & _ & Hcap).
  cbn [max_order_notional max_session_notional max_order_age_ns max_clock_skew_ns
       max_quote_age_ns environment allow_short_selling] in *.
  pose proof Hp1 as (_ & F1 & _). pose proof Hp2 as (_ & F2 & _).
  split_and?; try done.
  - destruct (dec_le_lt_dec a a0 F1 F2) as [|(_ & _ & Hlt)]; [done|]. congruence.
  - unfold is_production, env_name, given, is_blank. cbn [environment].
    destruct (env !! u "MOTOR_ENV") as [raw|]; [|done]. case_bool_decide as Hb; [|done].
    intros _. change (default (u "production") (Some raw)) with raw. by rewrite Hb.
  - intros ->. unfold _flag, given, raise in E4.
    destruct (env !! u "MOTOR_SHORT_SELLING_ENABLED") as [raw|]; [|done].
    destruct (is_blank raw); [done|]. exists raw. split; [done|].
    destruct (str_eqb _ (u "true")) eqn:Es; [by apply str_eqb_true in Es|].
    by destruct (str_eqb _ (u "false")).
Qed.

Definition example_env : environ :=
  {[ u "MOTOR_MAX_ORDER_NOTIONAL_USD" := u " 1e4 ";
     u "MOTOR_MAX_SESSION_NOTIONAL_USD" := u "50_000.00";
     u "MOTOR_MAX_ORDER_AGE_MS" := u "3000" ]}.

Lemma from_env_fail_closed_witness :
  ∃ c, from_env example_env = Ok c ∧ max_order_age_ns c = 3000000000 ∧ is_production c = true.
Proof.
  destruct (from_env example_env) as [c|] eqn:E; [|vm_compute in E; discriminate].
  exists c. split; [reflexivity|]. split; [vm_compute in E; injection E as <-; reflexivity|].
  apply (from_env_fail_closed example_env c E). vm_compute. reflexivity.
Defined.
