(* ===== verification/Halt.v ===== *)
(** * Execution motor: the in-process kill switch ([halt.py])

    A state machine that starts halted and fails closed. The external halt source is an oracle:
    the n-th call of its [is_halted] returns or raises. Every method takes the object's lock. *)
From S2P Require Import Prelude PyStr.

Record KillSwitch := mkKillSwitch {
  _halted : bool;
  _reason : pystr;
  _source : option (nat → result bool);
  _latch_external : bool;
  _polls : nat;                (** calls made to the source so far *)
}.

Definition set_halted (k : KillSwitch) (halted : bool) (reason : pystr) : KillSwitch :=
  mkKillSwitch halted reason (_source k) (_latch_external k) (_polls k).
Definition polled (k : KillSwitch) : KillSwitch :=
  mkKillSwitch (_halted k) (_reason k) (_source k) (_latch_external k) (S (_polls k)).

Definition make_kill_switch (start_halted : bool) (source : option (nat → result bool))
    (latch_external : bool) : KillSwitch :=
  mkKillSwitch start_halted
    (if start_halted then u "initial state: halted until explicit resume" else [])
    source latch_external 0.

Definition halt (reason : pystr) (k : KillSwitch) : KillSwitch := set_halted k true reason.

Definition _external_halted (k : KillSwitch) : bool * KillSwitch :=
  match _source k with
  | None => (false, k)
  | Some src =>
      let k1 := polled k in
      match src (_polls k) with
      | Raise e =>
          (true, if _latch_external k
                 then halt (u "signal source error: " ++ exn_name (exn_kind e)) k1 else k1)
      | Ok halted =>
          (halted, if halted && _latch_external k then halt (u "external halt signal") k1 else k1)
      end
  end.

Definition is_halted (k : KillSwitch) : bool * KillSwitch :=
  let '(ext, k1) := _external_halted k in (if ext then true else _halted k1, k1).

Definition resume (operator : pystr) (k : KillSwitch) : KillSwitch :=
  if is_blank operator then k
  else let '(ext, k1) := _external_halted k in
       if ext then k1 else set_halted k1 false [].

(** [KillStateHaltSource.is_halted]: any level above NORMAL (0), or a failed fetch. *)
Definition KillStateHaltSource (fetch_level : nat → result Z) : nat → result bool :=
  λ n, level ← fetch_level n; Ok (negb (level =? 0)).

(** ** The switch as a state machine *)

Inductive ks_event := EHalt (reason : pystr) | EResume (operator : pystr) | EPoll.

Definition ks_step (k : KillSwitch) (e : ks_event) : KillSwitch :=
  match e with
  | EHalt r => halt r k
  | EResume op => resume op k
  | EPoll => (is_halted k).2
  end.

(** The source, when there is one, says at its next call that it is not halted. *)
Definition source_clear (k : KillSwitch) : Prop :=
  match _source k with None => True | Some src => src (_polls k) = Ok false end.

Lemma external_halted_clear k : (_external_halted k).1 = false ↔ source_clear k.
Proof.
  unfold _external_halted, source_clear. destruct (_source k) as [src|]; [|done].
  by destruct (src (_polls k)) as [[]|].
Qed.

Lemma external_halted_local k :
  _halted k = true → _halted (_external_halted k).2 = true.
Proof. intros H. unfold _external_halted, halt, set_halted. by repeat case_match. Qed.

Lemma external_halted_latched k :
  _latch_external k = true → (_external_halted k).1 = true → _halted (_external_halted k).2 = true.
Proof.
  intros Hl. unfold _external_halted. destruct (_source k) as [src|]; [|done].
  destruct (src (_polls k)) as [[]|]; rewrite Hl; done.
Qed.

Lemma external_halted_frame k :
  _source (_external_halted k).2 = _source k ∧
  _latch_external (_external_halted k).2 = _latch_external k.
Proof. unfold _external_halted, halt, set_halted, polled. by repeat case_match. Qed.

Lemma is_halted_true k :
  (is_halted k).1 = true ↔ _halted k = true ∨ ¬ source_clear k.
Proof.
  rewrite <- external_halted_clear. unfold is_halted, _external_halted, halt, set_halted, polled.
  destruct (_source k) as [src|]; cbn; [|naive_solver].
  destruct (src (_polls k)) as [[]|]; cbn; [| |naive_solver]; destruct (_latch_external k); naive_solver.
Qed.

Lemma is_halted_local k : _halted k = true → (is_halted k).1 = true ∧ _halted (is_halted k).2 = true.
Proof.
  intros H. split; [apply is_halted_true; by left|].
  unfold is_halted. pose proof (external_halted_local k H). by destruct (_external_halted k).
Qed.

Lemma is_halted_latched k :
  _latch_external k = true → (is_halted k).1 = true → _halted (is_halted k).2 = true.
Proof.
  unfold is_halted. intros Hl. pose proof (external_halted_latched k Hl).
  destruct (_external_halted k) as [[] k1]; cbn in *; auto.
Qed.

(** When the switch reports running, the local flag was down and the source was clear. *)
Lemma is_halted_false k :
  (is_halted k).1 = false → _halted k = false ∧ source_clear k ∧ _halted (is_halted k).2 = false.
Proof.
  intros H. assert (¬ (_halted k = true ∨ ¬ source_clear k)) as Hn
    by (rewrite <- is_halted_true; congruence).
  assert (source_clear k) as Hc.
  { apply external_halted_clear. destruct (_external_halted k).1 eqn:E; [|done].
    destruct Hn. right. rewrite <- external_halted_clear. congruence. }
  split_and!; [destruct (_halted k); tauto|done|].
  revert H. unfold is_halted. by destruct (_external_halted k) as [[] k1].
Qed.

(** The kill switch is sticky. Once the local flag is up - from the start, from [halt], or in
    latching mode from any call that saw the external source halted or failing - every later
    [is_halted] answers True whatever the source says, until a [resume] succeeds; and a [resume]
    succeeds only with a non-blank operator at a moment when the source reports clear. *)
Theorem kill_switch_sticky k events :
  _halted k = true ∨ _latch_external k = true ∧ (is_halted k).1 = true →
  let k0 := (is_halted k).2 in
  (∀ es e, let before := fold_left ks_step es k0 in
     _halted before = true → _halted (ks_step before e) = false →
     ∃ op, e = EResume op ∧ is_blank op = false ∧ source_clear before) ∧
  ((∀ op, EResume op ∉ events) → (is_halted (fold_left ks_step events k0)).1 = true).
Proof.
  intros Hk k0. assert (_halted k0 = true) as H0.
  { destruct Hk as [Hk|[Hl Hk]]; [by apply is_halted_local|by apply is_halted_latched]. }
  split.
  - intros es e before Hb Ha. destruct e as [r|op|]; cbn [ks_step] in Ha.
    + done.
    + exists op. split; [done|]. unfold resume in Ha. destruct (is_blank op); [congruence|].
      split; [done|]. rewrite <- external_halted_clear.
      pose proof (external_halted_local before Hb) as Hloc.
      destruct (_external_halted before) as [[] k1]; cbn in *; [congruence|done].
    + apply is_halted_local in Hb as [_ Hb]. congruence.
  - intros Hno. apply is_halted_local. clearbody k0. clear Hk. revert k0 H0.
    induction events as [|e events IH]; intros k0 H0; cbn; [done|]. apply IH.
    + intros op Hin. apply (Hno op). by right.
    + destruct e as [r|op|]; cbn [ks_step]; [done| |by apply is_halted_local].
      exfalso. apply (Hno op). left.
Qed.

Lemma kill_switch_sticky_witness :
  let k := make_kill_switch false (Some (λ n, if (n =? 1)%nat then raise OSError [] else Ok false)) true in
  let k1 := ks_step k EPoll in
  (is_halted (fold_left ks_step [EPoll; EPoll; EPoll] (is_halted k1).2)).1 = true.
Proof.
  intros k k1. apply (proj2 (kill_switch_sticky k1 [EPoll; EPoll; EPoll]
    (or_intror (conj eq_refl eq_refl)))).
  intros op. rewrite !elem_of_cons, elem_of_nil. intros [|[|[|]]]; done.
Defined.

(** A mirrored source ([latch_external=False]) is followed exactly: [is_halted] answers True
    precisely when [halt] was called without a later successful resume or the source is, at that
    very call, not clear; a failing source counts as halted. A switch built with the defaults
    starts halted. *)
Theorem kill_switch_fail_closed k src :
  ((is_halted k).1 = false ↔ _halted k = false ∧ source_clear k) ∧
  (_source k = Some src → ∀ e, src (_polls k) = Raise e → (is_halted k).1 = true) ∧
  (_latch_external k = false → _halted (is_halted k).2 = _halted k) ∧
  (is_halted (make_kill_switch true (Some src) true)).1 = true.
Proof.
  split_and!.
  - split; [intros H; by apply is_halted_false in H as (? & ? & _)|].
    intros [Hh Hc]. apply not_true_iff_false. rewrite is_halted_true. intros [|]; [congruence|done].
  - intros Hs e He. apply is_halted_true. right. unfold source_clear. rewrite Hs, He. done.
  - intros Hl. unfold is_halted, _external_halted. destruct (_source k) as [f|]; [|done].
    rewrite Hl. destruct (f (_polls k)) as [[]|]; done.
  - apply is_halted_true. by left.
Qed.

Lemma kill_switch_fail_closed_witness :
  let src := KillStateHaltSource (λ _, raise (OtherError (u "RpcError")) []) in
  (is_halted (make_kill_switch false (Some src) false)).1 = true.
Proof.
  intros src.
  exact (proj1 (proj2 (kill_switch_fail_closed (make_kill_switch false (Some src) false) src))
           eq_refl _ eq_refl).
Defined.
