(* ===== verification/Toxicity.v ===== *)
(** * Execution motor: the venue-toxicity score ([toxicity.py])

    Pure functions over realised observations, in the arithmetic of the decimal context, and the
    proof that the rounded score stays in [0, 1]. *)
From S2P Require Import Prelude PyStr PyDecimal DecimalFacts MotorModels MotorConfig.

Definition _DAY_NS : Z := 86400000000000.

Definition _sign (s : Side) : result decimal :=
  match s with BUY => Ok D_ONE | SELL => dneg D_ONE end.

(** [max(0, min(1, value))]. *)
Definition _clip01 (value : decimal) : result decimal := m ← dmin D_ONE value; dmax D_ZERO m.

Definition markout_bps (s : Side) (fill_price mid_after_horizon : decimal) : result decimal :=
  sg ← _sign s;
  diff ← dsub mid_after_horizon fill_price;
  x ← dmul sg diff;
  y ← ddiv x fill_price;
  dmul y BPS.

Definition slippage_bps (s : Side) (fill_price arrival_mid : decimal) : result decimal :=
  sg ← _sign s;
  diff ← dsub fill_price arrival_mid;
  x ← dmul sg diff;
  y ← ddiv x arrival_mid;
  dmul y BPS.

Record ToxicityParams := mkParams {
  markout_scale_bps : decimal; slippage_scale_bps : decimal;
  weight_markout : decimal; weight_slippage : decimal; weight_fill_shortfall : decimal;
  min_observations : Z;
}.

(** The dataclass defaults. *)
Definition default_params : ToxicityParams :=
  mkParams (D 5) (D 10) (DFin 5 (-1)) (DFin 3 (-1)) (DFin 2 (-1)) 30.

(** [any(w < 0 for w in weights)]. *)
Fixpoint any_negative (ws : list decimal) : result bool :=
  match ws with
  | [] => Ok false
  | w :: ws => or_else (dlt w D_ZERO) (any_negative ws)
  end.

Definition make_params (p : ToxicityParams) : result ToxicityParams :=
  bad_scale ← or_else (dle (markout_scale_bps p) D_ZERO) (dle (slippage_scale_bps p) D_ZERO);
  if bad_scale : bool then raise ValueError (u "scales must be positive")
  else
    let weights := [weight_markout p; weight_slippage p; weight_fill_shortfall p] in
    bad ← or_else (any_negative weights) (total ← dsum weights; Ok (negb (deq total D_ONE)));
    if bad : bool then raise ValueError (u "weights must be non-negative and sum to exactly 1")
    else if min_observations p <? 1 then raise ValueError (u "min_observations must be >= 1")
    else Ok p.

Record VenueObservation := mkObservation {
  obs_timestamp_ns : Z; obs_side : Side;
  ordered_qty : decimal; filled_qty : decimal;
  obs_avg_fill_price : option decimal; arrival_mid : decimal;
  mid_after_horizon : option decimal;
}.

Definition some_positive (v : option decimal) : bool :=
  match v with Some d => finite_positive d | None => false end.

Definition make_observation (o : VenueObservation) : result VenueObservation :=
  if negb (finite_positive (ordered_qty o)) then raise ValueError (u "ordered_qty must be > 0")
  else if negb (is_finite (filled_qty o) && sure (dle D_ZERO (filled_qty o))
                && sure (dle (filled_qty o) (ordered_qty o))) then
    raise ValueError (u "filled_qty must be within [0, ordered_qty]")
  else if negb (finite_positive (arrival_mid o)) then raise ValueError (u "arrival_mid must be > 0")
  else
    filled ← dgt (filled_qty o) D_ZERO;
    if (filled : bool) && negb (some_positive (obs_avg_fill_price o)) then
      raise ValueError (u "avg_fill_price is required (> 0) when filled_qty > 0")
    else if filled && negb (some_positive (mid_after_horizon o)) then
      raise ValueError (u "mid_after_horizon is required (> 0) when filled_qty > 0")
    else Ok o.

Definition is_filled (o : VenueObservation) : result bool := dgt (filled_qty o) D_ZERO.

Record ToxicityResult := mkToxicity {
  score : decimal; mean_markout_bps : decimal; mean_slippage_bps : decimal;
  fill_rate : decimal; n_fills : nat;
}.

Definition _required (value : option decimal) : result decimal :=
  match value with
  | Some d => Ok d
  | None => raise ValueError (u "missing price on a filled observation")
  end.

(** [tuple(o for o in obs if o.is_filled)]. *)
Fixpoint filled_observations (obs : list VenueObservation) : result (list VenueObservation) :=
  match obs with
  | [] => Ok []
  | o :: obs => f ← is_filled o; rest ← filled_observations obs;
                Ok (if f : bool then o :: rest else rest)
  end.

Definition weighted_markout (o : VenueObservation) : result decimal :=
  p ← _required (obs_avg_fill_price o);
  m ← _required (mid_after_horizon o);
  b ← markout_bps (obs_side o) p m;
  dmul (filled_qty o) b.

Definition weighted_slippage (o : VenueObservation) : result decimal :=
  p ← _required (obs_avg_fill_price o);
  b ← slippage_bps (obs_side o) p (arrival_mid o);
  dmul (filled_qty o) b.

(** [sum(f(o) for o in fills) / total]. *)
Definition weighted_mean (f : VenueObservation → result decimal) (fills : list VenueObservation)
    (total : decimal) : result decimal :=
  terms ← mapR f fills; s ← dsum terms; ddiv s total.

Definition toxicity_score (p : ToxicityParams) (mean_markout mean_slippage rate : decimal)
  : result decimal :=
  neg ← dneg mean_markout;
  a0 ← ddiv neg (markout_scale_bps p); a ← _clip01 a0; ta ← dmul (weight_markout p) a;
  s0 ← ddiv mean_slippage (slippage_scale_bps p); s ← _clip01 s0; ts ← dmul (weight_slippage p) s;
  t1 ← dadd ta ts;
  f0 ← dsub D_ONE rate; f ← _clip01 f0; tf ← dmul (weight_fill_shortfall p) f;
  dadd t1 tf.

Definition compute_toxicity (obs : list VenueObservation) (p : ToxicityParams)
  : result (option ToxicityResult) :=
  fills ← filled_observations obs;
  if Z.of_nat (length fills) <? min_observations p then Ok None
  else
    total_filled ← dsum (filled_qty <$> fills);
    mean_markout ← weighted_mean weighted_markout fills total_filled;
    mean_slippage ← weighted_mean weighted_slippage fills total_filled;
    total_ordered ← dsum (ordered_qty <$> obs);
    rate ← ddiv total_filled total_ordered;
    sc ← toxicity_score p mean_markout mean_slippage rate;
    Ok (Some (mkToxicity sc mean_markout mean_slippage rate (length fills))).

Definition filter_window (obs : list VenueObservation) (now_ns window_days : Z)
  : result (list VenueObservation) :=
  if window_days <? 1 then raise ValueError (u "window_days must be >= 1")
  else
    let start := now_ns - window_days * _DAY_NS in
    Ok (filter (λ o, start ≤ obs_timestamp_ns o ∧ obs_timestamp_ns o ≤ now_ns) obs).

(** ** The score is in [0, 1] *)

(** [dec_le 0 d] and [dec_le d 1] at a scale. *)
Definition unit_at (m : Z) (d : decimal) : Prop := fits m d ∧ 0 ≤ sc m d ≤ 10 ^ (- m).

Lemma clip01_unit v d : _clip01 v = Ok d → ∃ m, m ≤ 0 ∧ unit_at m d.
Proof.
  unfold _clip01, dmin, dmax. intros H.
  assert (∀ c, c = 0 ∨ c = 1 → ∃ m, m ≤ 0 ∧ unit_at m (D c)) as Hc.
  { intros c Hc. exists 0. split; [done|]. split; [by apply fits_D|]. cbn. lia. }
  destruct v as [c e|[]|]; try (cbn in H; simplify_eq; by apply Hc; auto).
  set (m := Z.min 0 e). assert (fits m (DFin c e)) as Fv by (split; [done|cbn; lia]).
  assert (fits m D_ONE ∧ fits m D_ZERO) as [F1 F0] by (split; apply fits_D; lia).
  assert (sc m D_ONE = 10 ^ (- m)) as E1 by (cbn [sc D_ONE D]; rewrite Z.mul_1_l; f_equal; lia).
  assert (sc m D_ZERO = 0) as E0 by done.
  rewrite (dlt_sc m) in H by done. cbn [mbind result_bind] in H.
  destruct (Z.ltb_spec (sc m (DFin c e)) (sc m D_ONE)); rewrite (dgt_sc m) in H by done;
    cbn [mbind result_bind] in H; apply Ok_inj in H; subst d;
    match goal with |- context [if ?b then _ else _] => destruct b eqn:Hb end;
    try (apply Hc; by auto).
  apply Z.ltb_lt in Hb. exists m. split; [lia|]. split; [done|lia].
Qed.

(** A product of a rounded non-negative weight and a clipped component is at most the weight. *)
Lemma weight_term w a t mw ma :
  dmul w a = Ok t → fits mw w → rounded w → 0 ≤ sc mw w → unit_at ma a → ma ≤ 0 → mw ≤ 0 →
  fits (mw + ma) t ∧ 0 ≤ sc (mw + ma) t ≤ sc (mw + ma) w.
Proof.
  intros Ht Fw Rw Hw [Fa Ha] Hma Hmw. unfold Emax in *.
  assert (fits (mw + ma) t) as Ft by (eapply dmul_fits; eauto; unfold Emax; lia).
  assert (fits (mw + ma) w) as Fw' by (eapply fits_le; [|done]; lia).
  split; [done|]. rewrite (dmul_sc mw ma _ _ _ Ht) by done. split; [apply rnd_nonneg; nia|].
  rewrite <- (rounded_rnd (mw + ma) w) by done. apply rnd_mono.
  rewrite (sc_shift mw (mw + ma) w) by (done || lia).
  replace (mw - (mw + ma)) with (- ma) by lia. nia.
Qed.

Lemma any_negative_false ws :
  any_negative ws = Ok false → Forall (λ w, is_finite w = true → dec_le D_ZERO w) ws.
Proof.
  induction ws as [|w ws IH]; intros H; [constructor|].
  apply or_else_false in H as [E H]. constructor; [|auto]. intros Fw.
  destruct (fits_scale2 D_ZERO w) as [F0 F]; [done..|].
  rewrite (dec_le_sc _ _ _ F0 F). rewrite (dlt_sc _ _ _ F F0) in E. apply Ok_inj in E. lia.
Qed.

(** What the constructor guarantees of the weights. *)
Lemma make_params_weights p p' :
  make_params p = Ok p' → p' = p ∧ 0 < min_observations p ∧
  any_negative [weight_markout p; weight_slippage p; weight_fill_shortfall p] = Ok false ∧
  ∃ total, dsum [weight_markout p; weight_slippage p; weight_fill_shortfall p] = Ok total ∧
           deq total D_ONE = true.
Proof.
  unfold make_params. intros H. apply bind_ok in H as ([] & _ & H); [done|].
  apply bind_ok in H as ([] & Hw & H); [done|]. apply or_else_false in Hw as [Hn Ht].
  apply bind_ok in Ht as (total & Ht & E). destruct (Z.ltb_spec (min_observations p) 1); [done|].
  ok_inv. subst. split_and!; [done|lia|done|]. exists total. split; [done|]. by apply negb_false_iff.
Qed.

(** [sum] of the weights, rounding by rounding, at a common scale. *)
Lemma weights_total m w1 w2 w3 total :
  dsum [w1; w2; w3] = Ok total → fits m w1 → fits m w2 → fits m w3 → m ≤ 0 →
  rounded w1 → deq total D_ONE = true →
  rnd m (rnd m (sc m w1 + sc m w2) + sc m w3) = 10 ^ (- m).
Proof.
  unfold dsum. intros H F1 F2 F3 Hm Hr Hd. cbn [foldR] in H.
  apply bind_ok in H as (x & Hx & H). apply bind_ok in H as (y & Hy & H).
  apply bind_ok in H as (z & Hz & H). ok_inv. subst z.
  assert (m ≤ Emax) by (unfold Emax; lia). assert (fits m D_ZERO) by by apply fits_D.
  assert (fits m x) by by eapply dadd_fits. assert (fits m y) by by eapply dadd_fits.
  assert (fits m total) by by eapply dadd_fits.
  rewrite (deq_sc m) in Hd by (done || by apply fits_D). apply Z.eqb_eq in Hd.
  rewrite (dadd_sc m _ _ _ Hz), (dadd_sc m _ _ _ Hy), (dadd_sc m _ _ _ Hx) in Hd by done.
  change (sc m D_ZERO) with 0 in Hd. rewrite Z.add_0_l, rounded_rnd in Hd by done.
  rewrite Hd. cbn [sc D_ONE D]. rewrite Z.mul_1_l. f_equal; lia.
Qed.

Lemma unit_at_le m m' d : m' ≤ m → unit_at m d → unit_at m' d.
Proof.
  intros Hm [Fd Hd]. split; [by eapply fits_le|]. rewrite (sc_shift m m' d) by done.
  replace (- m') with (- m + (m - m')) by lia.
  destruct (Z.le_gt_cases 0 (- m)); [rewrite pow10_add by lia; nia|].
  rewrite (Z.pow_neg_r 10 (- m)) in Hd by lia.
  assert (sc m d = 0) as -> by lia. rewrite Z.mul_0_l. split; [done|]. apply Z.pow_nonneg. lia.
Qed.

(** The weights as the dataclass accepts them, of at most 28 digits each. *)
Definition weights_rounded (p : ToxicityParams) : Prop :=
  Forall (λ w, is_finite w = true ∧ rounded w)
    [weight_markout p; weight_slippage p; weight_fill_shortfall p].

Lemma toxicity_score_unit p M S R d :
  make_params p = Ok p → weights_rounded p → toxicity_score p M S R = Ok d →
  dec_le D_ZERO d ∧ dec_le d D_ONE.
Proof.
  intros Hp Hr H. apply make_params_weights in Hp as (_ & _ & Hneg & total & Ht & Hd).
  apply any_negative_false in Hneg. unfold weights_rounded in Hr. rewrite !Forall_cons in Hneg, Hr.
  destruct Hr as ((Fa & Ra) & (Fb & Rb) & (Fc & Rc) & _). destruct Hneg as (Na & Nb & Nc & _).
  specialize (Na Fa). specialize (Nb Fb). specialize (Nc Fc).
  unfold toxicity_score in H. ok_inv.
  repeat match goal with H : _clip01 _ = Ok _ |- _ => apply clip01_unit in H as (? & ? & ?) end.
  match goal with H1 : unit_at ?m1 _, H2 : unit_at ?m2 _, H3 : unit_at ?m3 _ |- _ =>
    set (ma := Z.min m1 (Z.min m2 m3)); apply (unit_at_le m1 ma) in H1; [|lia];
    apply (unit_at_le m2 ma) in H2; [|lia]; apply (unit_at_le m3 ma) in H3; [|lia] end.
  set (w1 := weight_markout p) in *. set (w2 := weight_slippage p) in *.
  set (w3 := weight_fill_shortfall p) in *.
  set (mw := Z.min 0 (Z.min (exp_of w1) (Z.min (exp_of w2) (exp_of w3)))).
  assert (fits mw w1 ∧ fits mw w2 ∧ fits mw w3) as (G1 & G2 & G3) by (repeat split; (done || lia)).
  assert (ma ≤ 0 ∧ mw ≤ 0) as [Hma Hmw] by lia.
  assert (∀ w, fits mw w → dec_le D_ZERO w → 0 ≤ sc mw w) as Hnn.
  { intros w Fw Hw. rewrite (dec_le_sc mw) in Hw by (done || by apply fits_D). done. }
  pose proof (weights_total (mw + ma) w1 w2 w3 total Ht) as Hsum.
  repeat match goal with H : dmul ?w ?a = Ok ?t, U : unit_at ma ?a |- _ =>
    apply (weight_term w a t mw ma) in H as [? [? ?]]; [|by auto..]; clear U end.
  match goal with H1 : dadd ?ta ?ts = Ok ?x, H2 : dadd ?x ?tf = Ok d |- _ =>
    set (m := mw + ma) in *;
    assert (m ≤ Emax) as HE by (unfold Emax; lia);
    assert (fits m x) by (by eapply dadd_fits); assert (fits m d) by (by eapply dadd_fits);
    pose proof (dadd_sc m _ _ _ H1 ltac:(done) ltac:(done)) as E1;
    pose proof (dadd_sc m _ _ _ H2 ltac:(done) ltac:(done)) as E2 end.
  assert (fits m D_ZERO ∧ fits m D_ONE) as [F0 F1] by (split; apply fits_D; lia).
  rewrite !(dec_le_sc m) by done. change (sc m D_ZERO) with 0.
  assert (sc m D_ONE = 10 ^ (- m)) as -> by (cbn [sc D_ONE D]; rewrite Z.mul_1_l; f_equal; lia).
  rewrite E2, E1. split; [apply rnd_nonneg, Z.add_nonneg_nonneg; [apply rnd_nonneg|]; lia|].
  rewrite <- Hsum by (done || lia || (eapply fits_le; [|done]; lia)).
  apply rnd_mono, Z.add_le_mono; [apply rnd_mono|]; lia.
Qed.

Lemma score_in_unit p obs r :
  make_params p = Ok p → weights_rounded p → compute_toxicity obs p = Ok (Some r) →
  dec_le D_ZERO (score r) ∧ dec_le (score r) D_ONE ∧ min_observations p ≤ Z.of_nat (n_fills r).
Proof.
  unfold compute_toxicity. intros Hp Hw H.
  apply bind_ok in H as (fills & _ & H).
  destruct (Z.ltb_spec (Z.of_nat (length fills)) (min_observations p)); [done|].
  ok_inv. injection H as <-. cbn [score n_fills].
  destruct (toxicity_score_unit p _ _ _ _ Hp Hw E4). done.
Qed.

(** The toxicity score is a number in [0, 1], rounding included. For parameters the
    constructor accepts with weights of at most 28 digits, whatever the observations, a computed
    score satisfies 0 <= score <= 1; and a score is only given on at least [min_observations]
    filled observations. *)
Theorem compute_toxicity_unit p obs r :
  make_params p = Ok p → weights_rounded p → compute_toxicity obs p = Ok (Some r) →
  dec_le D_ZERO (score r) ∧ dec_le (score r) D_ONE ∧ min_observations p ≤ Z.of_nat (n_fills r).
Proof. apply score_in_unit. Qed.

Definition example_observations : list VenueObservation :=
  [ mkObservation 100 BUY (D 10) (D 10) (Some (D 100)) (D 100) (Some (DFin 9997 (-2)));
    mkObservation 110 SELL (D 10) (D 4) (Some (DFin 9995 (-2))) (D 100) (Some (D 100));
    mkObservation 120 BUY (D 3) (D 0) None (D 100) None ].

Definition example_params : ToxicityParams :=
  mkParams (D 5) (D 10) (DFin 5 (-1)) (DFin 3 (-1)) (DFin 2 (-1)) 2.

Lemma compute_toxicity_unit_witness :
  ∃ r, compute_toxicity example_observations example_params = Ok (Some r) ∧
       dec_le (score r) D_ONE ∧ n_fills r = 2%nat.
Proof.
  destruct (compute_toxicity example_observations example_params) as [[r|]|] eqn:E;
    [|vm_compute in E; discriminate..].
  exists r. split; [reflexivity|]. split; [|vm_compute in E; injection E as <-; reflexivity].
  refine (proj1 (proj2 (compute_toxicity_unit example_params example_observations r _ _ E))).
  - vm_compute. reflexivity.
  - repeat constructor; vm_compute; congruence.
Defined.
