(* ===== verification/Sor.v ===== *)
(** * Execution motor: the smart order router ([sor.py])

    A pure decision: which venue may take the order, and which of the eligible ones does. *)
From S2P Require Import Prelude PyStr PyDecimal DecimalFacts MotorModels Toxicity.

Inductive UnscoredPolicy := DENY | ALLOW.
#[export] Instance UnscoredPolicy_eq_dec : EqDecision UnscoredPolicy.
Proof. solve_decision. Defined.

Record RouterConfig := mkRouterConfig {
  max_toxicity : decimal; params : ToxicityParams; unscored_policy : UnscoredPolicy;
  window_days : Z;
}.

Definition make_router_config (c : RouterConfig) : result RouterConfig :=
  if negb (in_unit (max_toxicity c)) then raise ValueError (u "max_toxicity must be within [0, 1]")
  else if window_days c <? 1 then raise ValueError (u "window_days must be >= 1")
  else Ok c.

Record VenueAssessment := mkAssessment {
  as_venue : pystr; as_score : option decimal; as_eligible : bool; as_detail : pystr }.

Record RoutingDecision := mkDecision {
  dec_venue : option pystr; dec_threshold : decimal; assessments : list VenueAssessment }.

Definition _threshold (c : RouterConfig) (o : Order) : result decimal :=
  tighter ← dgt (max_venue_toxicity o) D_ZERO;
  if tighter : bool then dmin (max_toxicity c) (max_venue_toxicity o) else Ok (max_toxicity c).

Definition _assess (c : RouterConfig) (venue : pystr) (observations : list VenueObservation)
    (threshold : decimal) (now_ns : Z) : result VenueAssessment :=
  windowed ← filter_window observations now_ns (window_days c);
  r ← compute_toxicity windowed (params c);
  match r with
  | None =>
      Ok (mkAssessment venue None (bool_decide (unscored_policy c = ALLOW))
            (u "unscored: insufficient evidence"))
  | Some r =>
      above ← dgt (score r) threshold;
      Ok (if above : bool
          then mkAssessment venue (Some (score r)) false (u "toxicity above threshold")
          else mkAssessment venue (Some (score r)) true (u "ok"))
  end.

(** [<] on the key tuples (score is None, score or 0, venue). *)
Definition key_score (a : VenueAssessment) : decimal := default D_ZERO (as_score a).
Definition unscored (a : VenueAssessment) : bool := bool_decide (as_score a = None).
Definition key_lt (a b : VenueAssessment) : result bool :=
  if negb (Bool.eqb (unscored a) (unscored b)) then Ok (unscored b)
  else if negb (deq (key_score a) (key_score b)) then dlt (key_score a) (key_score b)
  else Ok (str_ltb (as_venue a) (as_venue b)).

(** [min(items, key=...)]: the first of the least. *)
Definition min_assessment (a : VenueAssessment) (l : list VenueAssessment)
  : result VenueAssessment :=
  foldR (λ best x, lt ← key_lt x best; Ok (if lt : bool then x else best)) a l.

(** [{a.venue: a for a in assessments if a.eligible}], in insertion order. *)
Fixpoint dict_put (m : list VenueAssessment) (a : VenueAssessment) : list VenueAssessment :=
  match m with
  | [] => [a]
  | x :: m => if str_eqb (as_venue x) (as_venue a) then a :: m else x :: dict_put m a
  end.
Definition eligible_dict (l : list VenueAssessment) : list VenueAssessment :=
  fold_left dict_put (filter (λ a, as_eligible a = true) l) [].

Definition choose (preferred : pystr) (eligible : list VenueAssessment) : result (option pystr) :=
  if existsb (λ a, str_eqb (as_venue a) preferred) eligible then Ok (Some preferred)
  else match eligible with
       | [] => Ok None
       | a :: l => best ← min_assessment a l; Ok (Some (as_venue best))
       end.

Definition route (c : RouterConfig) (o : Order) (candidates : list pystr)
    (observations : gmap pystr (list VenueObservation)) (now_ns : Z) : result RoutingDecision :=
  threshold ← _threshold c o;
  l ← mapR (λ v, _assess c v (default [] (observations !! v)) threshold now_ns) candidates;
  chosen ← choose (preferred_venue o) (eligible_dict l);
  Ok (mkDecision chosen threshold l).

(** ** Facts *)

Lemma dict_put_in m a x : x ∈ dict_put m a → x = a ∨ x ∈ m.
Proof.
  induction m as [|y m IH]; cbn.
  - intros ->%list_elem_of_singleton. by left.
  - destruct (str_eqb _ _); intros [->|H]%elem_of_cons; auto.
    + right. by right.
    + right. left.
    + destruct (IH H); [by left|right; by right].
Qed.

Lemma eligible_dict_in l x : x ∈ eligible_dict l → x ∈ l ∧ as_eligible x = true.
Proof.
  unfold eligible_dict. intros H.
  assert (x ∈ filter (λ a, as_eligible a = true) l ∨ x ∈ @nil VenueAssessment) as [Hx|Hx].
  { revert H. generalize (@nil VenueAssessment) as acc.
    induction (filter _ l) as [|y k IH]; intros acc; cbn; [by right|].
    intros [?|[->|?]%dict_put_in]%IH; [left; by right|left; left|by right]. }
  - by apply list_elem_of_filter in Hx as [? ?].
  - by apply elem_of_nil in Hx.
Qed.

Lemma dict_put_has m a : ∃ x, x ∈ dict_put m a ∧ as_venue x = as_venue a.
Proof.
  induction m as [|y m IH]; cbn; [exists a; split; [left|done]|].
  destruct (str_eqb _ _); [exists a; split; [left|done]|].
  destruct IH as (x & ? & ?). exists x. split; [by right|done].
Qed.

Lemma dict_put_keeps m a x : x ∈ m → ∃ y, y ∈ dict_put m a ∧ as_venue y = as_venue x.
Proof.
  induction m as [|y m IH]; intros H; [by apply elem_of_nil in H|]. cbn.
  destruct (str_eqb (as_venue y) (as_venue a)) eqn:E; apply elem_of_cons in H as [->|H].
  - apply str_eqb_true in E. exists a. split; [left|done].
  - exists x. split; [by right|done].
  - exists y. split; [left|done].
  - destruct (IH H) as (z & ? & ?). exists z. split; [by right|done].
Qed.

(** Every eligible venue is a key of the dict. *)
Lemma eligible_dict_has l x :
  x ∈ l → as_eligible x = true → ∃ y, y ∈ eligible_dict l ∧ as_venue y = as_venue x.
Proof.
  intros Hx He. unfold eligible_dict.
  assert (x ∈ filter (λ a, as_eligible a = true) l) as Hf by by apply list_elem_of_filter.
  assert (∀ k acc, (∃ y, y ∈ acc ∧ as_venue y = as_venue x) →
    ∃ y, y ∈ fold_left dict_put k acc ∧ as_venue y = as_venue x) as Hkeep.
  { intros k. induction k as [|z k IH]; intros acc (y & Hy & E); cbn; [by exists y|].
    apply IH. destruct (dict_put_keeps acc z y Hy) as (w & ? & E'). exists w. by rewrite E'. }
  revert Hf. generalize (@nil VenueAssessment) as acc.
  induction (filter _ l) as [|z k IH]; intros acc Hf; [by apply elem_of_nil in Hf|]. cbn.
  apply elem_of_cons in Hf as [->|Hf]; [|by apply IH]. apply Hkeep, dict_put_has.
Qed.

Lemma min_assessment_in a l b : min_assessment a l = Ok b → b ∈ a :: l.
Proof.
  unfold min_assessment. revert a. induction l as [|x l IH]; intros a H; cbn in H.
  - ok_inv. subst. left.
  - destruct (key_lt x a) as [lt|]; cbn [mbind result_bind] in H; [|done].
    apply IH in H. apply elem_of_cons in H as [->|H]; [|by right; right].
    destruct lt; [right; left|left].
Qed.

Lemma choose_some p l v : choose p l = Ok (Some v) → ∃ a, a ∈ l ∧ as_venue a = v.
Proof.
  unfold choose. destruct (existsb _ l) eqn:E; intros H.
  - ok_inv. injection H as <-. apply existsb_exists in E as (a & Ha & Ev%str_eqb_true).
    exists a. split; [by apply list_elem_of_In|done].
  - destruct l as [|a l]; [by ok_inv|]. ok_inv. injection H as <-.
    apply min_assessment_in in E0. by eauto.
Qed.

(** The key order at a common scale. *)
Definition key_ltb (m : Z) (a b : VenueAssessment) : bool :=
  if negb (Bool.eqb (unscored a) (unscored b)) then unscored b
  else if negb (sc m (key_score a) =? sc m (key_score b))
  then sc m (key_score a) <? sc m (key_score b)
  else str_ltb (as_venue a) (as_venue b).

Lemma key_lt_sc m a b :
  fits m (key_score a) → fits m (key_score b) → key_lt a b = Ok (key_ltb m a b).
Proof.
  intros Fa Fb. unfold key_lt, key_ltb. rewrite (deq_sc m), (dlt_sc m) by done.
  by repeat case_match.
Qed.

Lemma key_ltb_irrefl m a : key_ltb m a a = false.
Proof.
  unfold key_ltb. rewrite Bool.eqb_reflx, Z.eqb_refl. apply str_ltb_irrefl.
Qed.

Lemma key_ltb_trans_neg m x y z :
  key_ltb m y x = false → key_ltb m z y = false → key_ltb m z x = false.
Proof.
  unfold key_ltb.
  destruct (unscored x), (unscored y), (unscored z); cbn; try done;
    destruct (Z.eqb_spec (sc m (key_score y)) (sc m (key_score x))),
      (Z.eqb_spec (sc m (key_score z)) (sc m (key_score y))),
      (Z.eqb_spec (sc m (key_score z)) (sc m (key_score x))); cbn;
    rewrite ?Z.ltb_ge; try lia.
  all: intros Hyx Hzy; destruct (str_ltb (as_venue z) (as_venue x)) eqn:E; [|done];
    destruct (str_ltb (as_venue x) (as_venue y)) eqn:Exy;
    [by rewrite (str_ltb_trans _ _ _ E Exy) in Hzy|];
    pose proof (str_ltb_total _ _ Exy Hyx) as Heq; rewrite Heq in E; congruence.
Qed.

Lemma key_ltb_asym m x y : key_ltb m x y = true → key_ltb m y x = false.
Proof.
  intros H. destruct (key_ltb m y x) eqn:E; [|done]. exfalso. revert H E. unfold key_ltb.
  destruct (unscored x), (unscored y); cbn; try done;
    destruct (Z.eqb_spec (sc m (key_score y)) (sc m (key_score x))),
      (Z.eqb_spec (sc m (key_score x)) (sc m (key_score y))); cbn; rewrite ?Z.ltb_lt; try lia.
  all: intros H1 H2; pose proof (str_ltb_trans _ _ _ H1 H2) as H; by rewrite str_ltb_irrefl in H.
Qed.

Lemma min_assessment_least m a l b :
  Forall (λ x, fits m (key_score x)) (a :: l) → min_assessment a l = Ok b →
  ∀ x, x ∈ a :: l → key_ltb m x b = false.
Proof.
  unfold min_assessment. revert a. induction l as [|y l IH]; intros a Hf H x Hx; cbn in H.
  - ok_inv. subst. apply list_elem_of_singleton in Hx as ->. apply key_ltb_irrefl.
  - apply Forall_cons in Hf as [Fa [Fy Hf]%Forall_cons].
    rewrite (key_lt_sc m) in H by done. cbn [mbind result_bind] in H.
    destruct (key_ltb m y a) eqn:E.
    + pose proof (IH y ltac:(by constructor) H) as Hl.
      apply elem_of_cons in Hx as [->|Hx]; [|by apply Hl].
      eapply key_ltb_trans_neg; [apply (Hl y); left|]. by apply key_ltb_asym.
    + pose proof (IH a ltac:(by constructor) H) as Hl.
      apply elem_of_cons in Hx as [->|[->|Hx]%elem_of_cons]; [apply Hl; left| |apply Hl; by right].
      eapply key_ltb_trans_neg; [apply (Hl a); left|done].
Qed.

Lemma common_scale (l : list VenueAssessment) :
  Forall (λ x, is_finite (key_score x) = true) l → ∃ m, Forall (λ x, fits m (key_score x)) l.
Proof.
  induction 1 as [|x l Hx _ (m & IH)]; [by exists 0|].
  exists (Z.min m (exp_of (key_score x))). constructor; [split; [done|lia]|].
  eapply Forall_impl; [exact IH|]. intros y Hy. eapply fits_le; [|exact Hy]. lia.
Qed.

(** What an assessment says of its venue. *)
Lemma assess_spec c v obs t now a :
  _assess c v obs t now = Ok a →
  as_venue a = v ∧
  ∃ windowed r, filter_window obs now (window_days c) = Ok windowed ∧
    compute_toxicity windowed (params c) = Ok r ∧ as_score a = score <$> r ∧
    (as_eligible a = true ↔
      match r with
      | Some r => dgt (score r) t = Ok false
      | None => unscored_policy c = ALLOW
      end).
Proof.
  unfold _assess. intros H. apply bind_ok in H as (w & Hw & H). apply bind_ok in H as (r & Hr & H).
  destruct r as [r|].
  - apply bind_ok in H as ([] & Hg & H); ok_inv; subst a; (split; [done|]); exists w, (Some r);
      split_and!; try done; cbn; rewrite Hg; naive_solver.
  - ok_inv. subst a. split; [done|]. exists w, None. split_and!; try done. cbn.
    apply bool_decide_eq_true.
Qed.

Lemma threshold_spec c o t :
  make_router_config c = Ok c → is_finite (max_venue_toxicity o) = true → _threshold c o = Ok t →
  dec_le t (max_toxicity c) ∧
  (dec_lt D_ZERO (max_venue_toxicity o) → dec_le t (max_venue_toxicity o)).
Proof.
  unfold make_router_config, _threshold. intros Hc Fo H.
  assert (is_finite (max_toxicity c) = true) as Fc.
  { destruct (in_unit (max_toxicity c)) eqn:E; [|done].
    unfold in_unit in E. by apply andb_true_iff in E as [[? _]%andb_true_iff _]. }
  apply bind_ok in H as (b & Hb & H). destruct (fits_scale2 D_ZERO (max_venue_toxicity o)) as [F0 F]; [done..|].
  rewrite (dgt_sc _ _ _ F F0) in Hb. apply Ok_inj in Hb. subst b.
  destruct (Z.ltb_spec (sc (scale2 D_ZERO (max_venue_toxicity o)) D_ZERO)
              (sc (scale2 D_ZERO (max_venue_toxicity o)) (max_venue_toxicity o))).
  - by apply dmin_le in H as [? ?].
  - ok_inv. subst t. split; [by apply dec_le_refl|]. rewrite (dec_lt_sc _ _ _ F0 F). lia.
Qed.

Lemma route_candidate c o cands obs now d v :
  route c o cands obs now = Ok d → dec_venue d = Some v → v ∈ cands.
Proof.
  unfold route. intros H Hv. ok_inv. subst d. cbn in Hv. subst a1.
  apply choose_some in E1 as (x & [Hx _]%eligible_dict_in & <-). apply mapR_Ok in E0.
  apply list_elem_of_lookup in Hx as [i Hi].
  destruct (Forall2_lookup_r _ _ _ _ _ E0 Hi) as (v & Hv & (-> & _)%assess_spec).
  by eapply list_elem_of_lookup_2.
Qed.

(** What made the router choose a venue, in terms of the observations there. *)
Lemma route_venue c o cands obs now d v :
  route c o cands obs now = Ok d → dec_venue d = Some v →
  ∃ threshold windowed r, _threshold c o = Ok threshold ∧
    filter_window (default [] (obs !! v)) now (window_days c) = Ok windowed ∧
    compute_toxicity windowed (params c) = Ok r ∧
    match r with
    | Some r => dgt (score r) threshold = Ok false
    | None => unscored_policy c = ALLOW
    end.
Proof.
  unfold route. intros H Hv. ok_inv. subst d. cbn in Hv. subst a1.
  apply choose_some in E1 as (x & [Hx He]%eligible_dict_in & <-). apply mapR_Ok in E0.
  apply list_elem_of_lookup in Hx as [i Hi].
  destruct (Forall2_lookup_r _ _ _ _ _ E0 Hi) as (v & Hv & Ha).
  apply assess_spec in Ha as (-> & w & r & Hw & Hr & _ & Hel).
  exists a, w, r. split_and!; [done..|by apply Hel].
Qed.

Lemma threshold_cases c o t :
  _threshold c o = Ok t →
  dgt (max_venue_toxicity o) D_ZERO = Ok false ∧ t = max_toxicity c ∨
  dgt (max_venue_toxicity o) D_ZERO = Ok true ∧ dmin (max_toxicity c) (max_venue_toxicity o) = Ok t.
Proof.
  unfold _threshold. destruct (dgt _ _) as [[]|]; cbn; intros H; [by right|left|done].
  by apply Ok_inj in H as ->.
Qed.

(** ** Properties *)

(** The router sends an order only to a venue that may take it. The threshold is never looser
    than the configured one nor than the order's own positive limit. A chosen venue is a
    candidate, and on its own observations within the window it either has a score not above the
    threshold, or has no score and the operator allowed unscored venues. No venue is chosen
    exactly when no candidate is eligible. *)
Theorem route_eligible c o cands obs now d :
  make_router_config c = Ok c → is_finite (max_venue_toxicity o) = true →
  route c o cands obs now = Ok d →
  dec_le (dec_threshold d) (max_toxicity c) ∧
  (dec_lt D_ZERO (max_venue_toxicity o) → dec_le (dec_threshold d) (max_venue_toxicity o)) ∧
  (∀ v, dec_venue d = Some v → v ∈ cands ∧ ∃ windowed r,
     filter_window (default [] (obs !! v)) now (window_days c) = Ok windowed ∧
     compute_toxicity windowed (params c) = Ok r ∧
     match r with
     | Some r => dgt (score r) (dec_threshold d) = Ok false
     | None => unscored_policy c = ALLOW
     end) ∧
  (dec_venue d = None ↔ Forall (λ a, as_eligible a = false) (assessments d)).
Proof.
  unfold route. intros Hc Fo H. ok_inv. subst d. cbn [dec_threshold dec_venue assessments].
  destruct (threshold_spec c o a Hc Fo E) as [Ht1 Ht2]. split_and!; [done..| |].
  - intros v ->. apply choose_some in E1 as (x & Hx & <-).
    apply eligible_dict_in in Hx as [Hx He]. apply mapR_Ok in E0.
    apply list_elem_of_lookup in Hx as [i Hi].
    destruct (Forall2_lookup_r _ _ _ _ _ E0 Hi) as (v & Hv & Ha).
    apply assess_spec in Ha as (-> & w & r & Hw & Hr & _ & Hel).
    split; [by eapply list_elem_of_lookup_2|]. exists w, r. split_and!; [done..|by apply Hel].
  - split.
    + intros ->. apply Forall_forall. intros x Hx. apply not_true_iff_false. intros He.
      destruct (eligible_dict_has _ _ Hx He) as (y & Hy & _). unfold choose in E1.
      destruct (existsb _ _); [done|]. destruct (eligible_dict a0); [by apply elem_of_nil in Hy|].
      by ok_inv.
    + intros Hall. destruct a1 as [v|]; [|done].
      apply choose_some in E1 as (x & [Hx He]%eligible_dict_in & _).
      rewrite Forall_forall in Hall. apply Hall in Hx. congruence.
Qed.

(** Among the eligible venues the router takes the order's preferred one when it is eligible,
    and otherwise the best: no eligible venue precedes the chosen one in the order (scored before
    unscored, lower score first, ties by name). *)
Theorem route_best c o cands obs now d v :
  make_params (params c) = Ok (params c) → weights_rounded (params c) →
  route c o cands obs now = Ok d → dec_venue d = Some v →
  (v = preferred_venue o ∧ ∃ a, a ∈ eligible_dict (assessments d) ∧ as_venue a = v) ∨
  (∀ a, a ∈ assessments d → as_eligible a = true → as_venue a ≠ preferred_venue o) ∧
  ∃ best, best ∈ eligible_dict (assessments d) ∧ as_venue best = v ∧
          ∀ a, a ∈ eligible_dict (assessments d) → key_lt a best = Ok false.
Proof.
  unfold route. intros Hp Hw H Hv. ok_inv. subst d. cbn [dec_venue assessments] in *. subst a1.
  pose proof E1 as Hch. unfold choose in E1.
  destruct (existsb _ (eligible_dict a0)) eqn:Ex.
  { left. ok_inv. injection E1 as <-. split; [done|]. by eapply choose_some. }
  right. split.
  { intros x Hx He Hpref. destruct (eligible_dict_has _ _ Hx He) as (y & Hy & Ey).
    apply not_true_iff_false in Ex. apply Ex, existsb_exists. exists y.
    split; [by apply list_elem_of_In|]. apply str_eqb_true. congruence. }
  destruct (eligible_dict a0) as [|e l] eqn:El; [by ok_inv|]. ok_inv. injection E1 as <-.
  assert (Forall (λ x, is_finite (key_score x) = true) (e :: l)) as Hfin.
  { apply Forall_forall. intros x Hx. rewrite <- El in Hx. apply eligible_dict_in in Hx as [Hx _].
    apply mapR_Ok in E0. apply list_elem_of_lookup in Hx as [i Hi].
    destruct (Forall2_lookup_r _ _ _ _ _ E0 Hi) as (v & _ & Ha).
    apply assess_spec in Ha as (_ & w & r & _ & Hr & Hs & _). unfold key_score. rewrite Hs.
    destruct r as [r|]; [|done]. cbn.
    destruct (score_in_unit _ _ _ Hp Hw Hr) as ((_ & ? & _) & _). done. }
  destruct (common_scale _ Hfin) as [m Hm].
  exists a1. split_and!; [by eapply min_assessment_in|done|]. intros x Hx.
  rewrite Forall_forall in Hm. rewrite (key_lt_sc m); [|apply Hm..]; [|done|by eapply min_assessment_in].
  f_equal. eapply min_assessment_least; [by apply Forall_forall|done|done].
Qed.

Definition example_config : RouterConfig :=
  mkRouterConfig (DFin 9 (-1)) example_params DENY 5.
Definition example_order (limit : decimal) : Order :=
  mkOrder (u "o1") (u "o1") (u "AAPL") 1 BUY MARKET (D 10) D_ZERO D_ZERO (u "x") limit
    DIRECT D_ZERO D_ZERO.
Definition example_venues : gmap pystr (list VenueObservation) :=
  {[ u "a" := example_observations; u "b" := [] ]}.

Lemma route_eligible_witness :
  ∃ d, route example_config (example_order (DFin 8 (-1))) [u "a"; u "b"] example_venues 130 = Ok d ∧
       dec_venue d = Some (u "a") ∧ dec_le (dec_threshold d) (DFin 8 (-1)).
Proof.
  destruct (route example_config (example_order (DFin 8 (-1))) [u "a"; u "b"] example_venues 130)
    as [d|] eqn:E; [|vm_compute in E; discriminate].
  exists d. split; [reflexivity|]. split; [vm_compute in E; injection E as <-; reflexivity|].
  refine (proj1 (proj2 (route_eligible example_config (example_order (DFin 8 (-1))) _ _ _ d _ _ E)) _).
  - vm_compute. reflexivity.
  - reflexivity.
  - repeat split; vm_compute; reflexivity.
Defined.

Lemma route_best_witness :
  ∃ d, route example_config (example_order D_ZERO) [u "a"; u "b"] example_venues 130 = Ok d ∧
  ∃ best, best ∈ eligible_dict (assessments d) ∧ as_venue best = u "a".
Proof.
  destruct (route example_config (example_order D_ZERO) [u "a"; u "b"] example_venues 130)
    as [d|] eqn:E; [|vm_compute in E; discriminate].
  exists d. split; [reflexivity|].
  destruct (route_best example_config (example_order D_ZERO) _ _ _ d (u "a")
    ltac:(vm_compute; reflexivity) ltac:(repeat constructor; vm_compute; congruence) E
    ltac:(vm_compute in E; injection E as <-; reflexivity)) as [[H _]|(_ & best & H1 & H2 & _)].
  - discriminate H.
  - exists best. split; assumption.
Defined.
