(* ===== verification/Motor.v ===== *)
(** * Execution motor: the pipeline ([motor.py], [quotes.py])

    [execute] as a computation on the motor's mutable objects: the kill switch, the idempotency
    store (any implementation of the class), the session ledger, and the list of orders sent to
    brokers. The clock, the quote source, the venue statistics and the brokers are oracles: each
    call is numbered, and its result may depend on that number. Other threads act on the kill
    switch between its reads through [others]. *)
From S2P Require Import Prelude PyStr PyDecimal DecimalFacts Sha256 Json JsonFacts.
From S2P Require Import MotorModels Attest Limits MotorConfig Halt Toxicity Sor.

Record PriceQuote := mkQuote { q_price : decimal; q_as_of_ns : Z }.

(** The result of the broker's [submit_order] at the n-th external call. *)
Definition Broker : Type := nat → BrokerOrderRequest → result BrokerOrder.

(** What the constructor is given. *)
Record MotorEnv := mkMotorEnv {
  _config : MotorConfig;
  _brokers : gmap pystr Broker;
  _router : RouterConfig;
  _verifier : Verifier;
  _quotes : option (nat → pystr → result (option PriceQuote));
  _stats : nat → result (gmap pystr (list VenueObservation));
  _clock : nat → Z;
  others : nat → list ks_event;
}.

(** An order handed to a broker, with the kill switch at that moment and the number of the call. *)
Record Sent := mkSent {
  sent_venue : pystr; sent_request : BrokerOrderRequest; sent_kill : KillSwitch; sent_call : nat }.

Record MotorState (St : Type) := mkMotorState {
  _kill : KillSwitch;
  _idem : St;
  _ledger : NotionalLedger;
  _calls : nat;                                       (** external calls made so far *)
  submits : list Sent;                                (** oldest first *)
}.
Arguments mkMotorState {St}.
Arguments _kill {St}.
Arguments _idem {St}.
Arguments _ledger {St}.
Arguments _calls {St}.
Arguments submits {St}.

(** ** Construction *)

(** The stores the package ships. *)
Inductive AnyStore := AMem (s : MemStore) | AFile (s : FileStore).

#[export] Instance any_store : IdempotencyStore AnyStore := {
  claim k s := match s with
               | AMem m => let '(r, m) := mem_claim k m in (r, AMem m)
               | AFile f => let '(r, f) := file_claim k f in (r, AFile f)
               end;
  claimed s := match s with AMem m => mem_seen m | AFile f => fs_seen f end;
}.
#[export] Instance any_laws : IdempotencyLaws AnyStore.
Proof.
  split; cbn.
  - intros k [m|f] s' H.
    + pose proof (claim_fresh (S := MemStore) k m) as L. cbn in L. destruct (mem_claim k m). naive_solver.
    + pose proof (claim_fresh (S := FileStore) k f) as L. cbn in L. destruct (file_claim k f). naive_solver.
  - intros k [m|f] H; [pose proof (claim_duplicate (S := MemStore) k m H) as L
                      |pose proof (claim_duplicate (S := FileStore) k f H) as L]; cbn in L; by rewrite L.
  - intros k [m|f]; [pose proof (claim_claimed (S := MemStore) k m) as L; cbn in L; by destruct (mem_claim k m)
                    |pose proof (claim_claimed (S := FileStore) k f) as L; cbn in L; by destruct (file_claim k f)].
Qed.

(** [opened] is what [open_persistent_idempotency_store(config.state_dir)] gives. *)
Definition _resolve_idempotency (config : MotorConfig) (injected : option AnyStore)
    (opened : result FileStore) : result AnyStore :=
  if is_production config then
    match injected with
    | Some (AMem _) =>
        raise ConfigError (u "an in-memory idempotency store is forbidden in production")
    | Some s => Ok s
    | None =>
        match state_dir config with
        | None => raise ConfigError (u "MOTOR_STATE_DIR is required in production (persistent claims)")
        | Some _ => f ← opened; Ok (AFile f)
        end
    end
  else
    match injected with
    | Some s => Ok s
    | None => match state_dir config with
              | Some _ => f ← opened; Ok (AFile f)
              | None => Ok (AMem InMemoryIdempotencyStore)
              end
    end.

(** [__init__]; [accepts_dev] is the verifier's [accepts_dev_keys]. *)
Definition make_motor (env : MotorEnv) (kill : KillSwitch) (accepts_dev : bool)
    (injected : option AnyStore) (opened : result FileStore) : result (MotorState AnyStore) :=
  if bool_decide (_brokers env = ∅) then
    raise ConfigError (u "at least one broker/venue is required")
  else if is_production (_config env) && accepts_dev then
    raise ConfigError (u "a verifier that accepts dev signing keys is forbidden in production")
  else
    idem ← _resolve_idempotency (_config env) injected opened;
    ledger ← make_ledger (max_session_notional (_config env));
    Ok (mkMotorState kill idem ledger 0 []).

(** ** The pipeline *)

Section motor.
Context {St : Type} `{IdempotencyStore St}.
Context (env : MotorEnv).

Abbreviation MM := (M (MotorState St)).

Definition upd_kill (k : KillSwitch) (s : MotorState St) : MotorState St :=
  mkMotorState k (_idem s) (_ledger s) (_calls s) (submits s).
Definition upd_idem (i : St) (s : MotorState St) : MotorState St :=
  mkMotorState (_kill s) i (_ledger s) (_calls s) (submits s).
Definition upd_ledger (l : NotionalLedger) (s : MotorState St) : MotorState St :=
  mkMotorState (_kill s) (_idem s) l (_calls s) (submits s).
Definition upd_submit (n : nat) (venue : pystr) (q : BrokerOrderRequest) (s : MotorState St) : MotorState St :=
  mkMotorState (_kill s) (_idem s) (_ledger s) (_calls s) (submits s ++ [mkSent venue q (_kill s) n]).

(** The number of this external call. *)
Definition tick : MM nat := λ s,
  (Ok (_calls s), mkMotorState (_kill s) (_idem s) (_ledger s) (S (_calls s)) (submits s)).

Definition clock : MM Z := n ← tick; mret (_clock env n).

(** [self._kill.is_halted()], after what other threads did to the switch. *)
Definition kill_is_halted : MM bool :=
  n ← tick;
  stateful (λ s, let '(b, k) := is_halted (fold_left ks_step (others env n) (_kill s)) in
                 (Ok b, upd_kill k s)).
Definition kill_reason : MM pystr := λ s, (Ok (_reason (_kill s)), s).
Definition kill_halt (reason : pystr) : MM unit := modify (λ s, upd_kill (halt reason (_kill s)) s).

Definition idem_claim (key : pystr) : MM bool := λ s,
  let '(r, i) := claim key (_idem s) in (r, upd_idem i s).
Definition ledger_try_reserve (a : decimal) : MM bool := λ s,
  let '(r, l) := try_reserve a (_ledger s) in (r, upd_ledger l s).
Definition ledger_release (a : decimal) : MM unit := λ s,
  let '(r, l) := release a (_ledger s) in (r, upd_ledger l s).

Definition _rejected (o : Order) (reason : RejectReason) (detail : pystr) (received : Z)
    (ref : option decimal) (venue : option pystr) : MM ExecutionReport :=
  now ← clock;
  lift (make_report {|
    rep_order_id := order_id o; rep_client_order_id := client_order_id o;
    rep_signal_id := signal_id o; rep_symbol := symbol o; rep_side := Some (side o);
    status := REJECTED; requested_quantity := quantity o; reject_reason := Some reason;
    reject_detail := slice_to 300 detail; broker_order_id := None; venue := venue; fills := [];
    arrival_price := ref; received_at_ns := received; submitted_at_ns := None;
    updated_at_ns := now |}).

Definition _unknown (o : Order) (venue : pystr) (detail : pystr) (received submitted : Z)
    (ref : option decimal) : MM ExecutionReport :=
  _ ← kill_halt (u "submit outcome unknown for order " ++ order_id o);
  now ← clock;
  lift (make_report {|
    rep_order_id := order_id o; rep_client_order_id := client_order_id o;
    rep_signal_id := signal_id o; rep_symbol := symbol o; rep_side := Some (side o);
    status := UNKNOWN; requested_quantity := quantity o;
    reject_reason := Some SUBMIT_OUTCOME_UNKNOWN;
    reject_detail := slice_to 300 detail; broker_order_id := None; venue := Some venue; fills := [];
    arrival_price := ref; received_at_ns := received; submitted_at_ns := Some submitted;
    updated_at_ns := now |}).

(** [t or default] for an optional timestamp: 0 counts as missing. *)
Definition or_ns (t : option Z) (default : Z) : Z :=
  match t with Some z => if z =? 0 then default else z | None => default end.

(** The fills of a report: one, when the broker reports a filled quantity and its price. *)
Definition broker_fills (r : BrokerOrder) (venue : pystr) (now : Z) : result (list Fill) :=
  filled ← dgt (bo_filled_quantity r) D_ZERO;
  match (filled : bool), bo_filled_avg_price r with
  | true, Some p =>
      f ← make_fill (mkFill (bo_filled_quantity r) p (or_ns (bo_filled_at_ns r) now) venue);
      Ok [f]
  | _, _ => Ok []
  end.

Definition _from_broker (o : Order) (venue : pystr) (r : BrokerOrder) (notional : decimal)
    (received submitted : Z) (ref : option decimal) : MM ExecutionReport :=
  if bool_decide (bo_status r = UNKNOWN) then
    _unknown o venue (u "unmapped broker status " ++ bo_raw_status r) received submitted ref
  else if bool_decide (bo_status r = REJECTED) then
    _ ← ledger_release notional;
    _rejected o BROKER_REJECTED (bo_raw_status r) received ref (Some venue)
  else
    now ← clock;
    fl ← lift (broker_fills r venue now);
    lift (make_report {|
      rep_order_id := order_id o; rep_client_order_id := client_order_id o;
      rep_signal_id := signal_id o; rep_symbol := symbol o; rep_side := Some (side o);
      status := bo_status r; requested_quantity := quantity o; reject_reason := None;
      reject_detail := []; broker_order_id := Some (bo_broker_order_id r); venue := Some venue;
      fills := fl; arrival_price := ref; received_at_ns := received;
      submitted_at_ns := Some (or_ns (bo_submitted_at_ns r) submitted);
      updated_at_ns := now |}).

(** [price or None]. *)
Definition or_none (d : decimal) : option decimal := if truthy d then Some d else None.

Definition broker_request (o : Order) : BrokerOrderRequest :=
  {| req_client_order_id := client_order_id o; req_symbol := symbol o; req_side := side o;
     req_order_type := order_type o; req_quantity := quantity o;
     req_limit_price := or_none (limit_price o); req_stop_price := or_none (stop_price o);
     req_time_in_force := u "day" |}.

(** [self._brokers[venue].submit_order(request)]: the call is recorded, then answers. *)
Definition submit_order (venue : pystr) (q : BrokerOrderRequest) : MM BrokerOrder :=
  match _brokers env !! venue with
  | None => lift (raise KeyError venue)
  | Some broker => n ← tick; _ ← modify (upd_submit n venue q); lift (broker n q)
  end.

Definition try_submit (venue : pystr) (q : BrokerOrderRequest) : MM (result BrokerOrder) :=
  λ s, let '(r, s) := submit_order venue q s in (Ok r, s).

Definition _submit (o : Order) (venue : pystr) (notional : decimal) (received : Z)
    (ref : option decimal) : MM ExecutionReport :=
  halted ← kill_is_halted;
  if halted : bool then
    _ ← ledger_release notional;
    reason ← kill_reason;
    _rejected o HALTED reason received ref (Some venue)
  else
    request ← lift (make_request (broker_request o));
    submitted ← clock;
    r ← try_submit venue request;
    match r with
    | Ok r => _from_broker o venue r notional received submitted ref
    | Raise e =>
        if bool_decide (exn_kind e = BrokerRejectedError) then
          _ ← ledger_release notional;
          _rejected o BROKER_REJECTED (exn_msg e) received ref (Some venue)
        else if bool_decide (exn_kind e = SubmitOutcomeUnknown) then
          _unknown o venue (exn_msg e) received submitted ref
        else _unknown o venue (exn_name (exn_kind e)) received submitted ref
    end.

Definition _claim_and_reserve (o : Order) (notional : decimal) (received : Z)
    (ref : option decimal) : MM (option ExecutionReport) :=
  signal_new ← idem_claim (u "signal:" ++ signal_id o);
  order_new ← idem_claim (u "order:" ++ order_id o);
  if negb (signal_new && order_new) then
    r ← _rejected o DUPLICATE_ORDER [] received ref None; mret (Some r)
  else
    reserved ← ledger_try_reserve notional;
    if negb reserved then
      r ← _rejected o SESSION_NOTIONAL_CAP_EXCEEDED [] received ref None; mret (Some r)
    else mret None.

Definition _timing_reason (a : AttestedOrder) (now : Z) : option RejectReason :=
  let att := attestation a in
  if now + max_clock_skew_ns (_config env) <? decided_at_ns att then Some ORDER_FROM_FUTURE
  else if (expires_at_ns att <=? now) || (max_order_age_ns (_config env) <? now - decided_at_ns att)
  then Some ORDER_EXPIRED
  else None.

Definition usable_quote (now : Z) (q : PriceQuote) : option decimal :=
  if negb (finite_positive (q_price q)) then None
  else if (now + max_clock_skew_ns (_config env) <? q_as_of_ns q)
          || (max_quote_age_ns (_config env) <? now - q_as_of_ns q) then None
  else Some (q_price q).

Definition _trusted_quote_price (sym : pystr) (now : Z) : MM (option decimal) :=
  match _quotes env with
  | None => mret None
  | Some latest =>
      n ← tick;
      mret (match latest n sym with Ok (Some q) => usable_quote now q | _ => None end)
  end.

Definition _precheck (a : AttestedOrder) (ref : option decimal) (received : Z)
  : MM (ExecutionReport + decimal) :=
  let o := order a in
  let reject reason detail := r ← _rejected o reason detail received ref None; mret (inl r) in
  halted ← kill_is_halted;
  if halted : bool then reason ← kill_reason; reject HALTED reason
  else if negb (str_eqb (order_id o) (signal_id o)) then reject ORDER_ID_MISMATCH []
  else match evaluate_attestation (_verifier env) a with
  | Some denial => reject denial []
  | None =>
  if str_eqb (attested_side (attestation a)) SIDE_SELL_SHORT
     && negb (allow_short_selling (_config env)) then reject SHORT_NOT_PERMITTED []
  else match _timing_reason a received with
  | Some timing => reject timing []
  | None =>
  if negb (bool_decide (algo o = DIRECT)) then
    reject ALGO_UNSUPPORTED (algo_value (algo o) ++ u " not implemented")
  else
    price ← _trusted_quote_price (symbol o) received;
    notional ← lift (compute_notional o price);
    match notional with
    | None => reject NOTIONAL_UNDETERMINABLE []
    | Some notional =>
        over ← lift (dgt notional (max_order_notional (_config env)));
        if over : bool then reject NOTIONAL_CAP_EXCEEDED [] else mret (inr notional)
    end
  end end.

(** [sorted(self._brokers)]. *)
Definition venue_names : list pystr :=
  (sort_keys ((λ kv, (kv.1, tt)) <$> map_to_list (_brokers env))).*1.

(** [release_check]: None releases the order, a detail refuses it. *)
Definition ReleaseCheck : Type := nat → result (option pystr).

Definition _run (a : AttestedOrder) (ref : option decimal) (received : Z)
    (release_check : option ReleaseCheck) : MM ExecutionReport :=
  let o := order a in
  pre ← _precheck a ref received;
  match pre with
  | inl report => mret report
  | inr notional =>
      n ← tick;
      stats ← lift (_stats env n);
      decision ← lift (route (_router env) o venue_names stats received);
      match dec_venue decision with
      | None => _rejected o NO_ELIGIBLE_VENUE [] received ref None
      | Some venue =>
          gate ← _claim_and_reserve o notional received ref;
          match gate with
          | Some report => mret report
          | None =>
              refusal ← (match release_check with
                         | None => mret None
                         | Some check => n ← tick; lift (check n)
                         end : MM (option pystr));
              match refusal with
              | Some detail =>
                  _ ← ledger_release notional;
                  _rejected o MANIFEST_FAILED detail received ref (Some venue)
              | None => _submit o venue notional received ref
              end
          end
      end
  end.

Definition execute (a : AttestedOrder) (ref : option decimal)
    (release_check : option ReleaseCheck) : MM ExecutionReport :=
  received ← clock;
  catch_all (_run a ref received release_check) (λ e,
    _ ← kill_halt (u "unexpected error: " ++ exn_name (exn_kind e));
    _rejected (order a) INTERNAL_ERROR (exn_name (exn_kind e)) received ref None).
End motor.

(** ** What a call of [execute] can do *)

Section motor_facts.
Context {St : Type} `{IdempotencyLaws St}.
Context (env : MotorEnv).
Implicit Types (s : MotorState St) (o : Order) (a : AttestedOrder).

(** Orders sent, claims and the ledger are as before. *)
Definition frame s s' : Prop :=
  submits s' = submits s ∧ _idem s' = _idem s ∧ _ledger s' = _ledger s.

#[global] Instance frame_preorder : PreOrder frame.
Proof. split; [done|]. intros ??? (?&?&?) (?&?&?). repeat split; congruence. Qed.

Lemma tick_frame : steps frame tick.
Proof. done. Qed.
Lemma clock_frame : steps frame (clock env).
Proof. done. Qed.
Lemma kill_is_halted_frame : steps frame (kill_is_halted env).
Proof.
  apply steps_bind; [exact _|done|]. intros n s. unfold stateful.
  by destruct (is_halted _).
Qed.
Lemma kill_reason_frame : steps frame kill_reason.
Proof. done. Qed.
Lemma kill_halt_frame r : steps frame (kill_halt r).
Proof. done. Qed.
Hint Resolve tick_frame clock_frame kill_is_halted_frame kill_reason_frame kill_halt_frame : s2p.

Lemma rejected_frame o reason d rcv ref v : steps frame (_rejected env o reason d rcv ref v).
Proof. unfold _rejected. steps_tac. Qed.
Lemma unknown_frame o v d rcv sub ref : steps frame (_unknown env o v d rcv sub ref).
Proof. unfold _unknown. steps_tac. Qed.
Lemma trusted_quote_frame sym now : steps frame (_trusted_quote_price env sym now).
Proof. unfold _trusted_quote_price. steps_tac. Qed.
Hint Resolve rejected_frame unknown_frame trusted_quote_frame : s2p.
Lemma precheck_frame a ref rcv : steps frame (_precheck env a ref rcv).
Proof. unfold _precheck. cbn zeta. steps_tac. Qed.
Hint Resolve precheck_frame : s2p.

(** What a check of the kill switch that is external call [n] answers and leaves, on [k]: others
    act on the switch first. *)
Definition kill_seen (n : nat) (k : KillSwitch) : bool * KillSwitch :=
  is_halted (fold_left ks_step (others env n) k).

(** The switch is as before; calls may have been made. *)
Definition switch_kept s s' : Prop := _kill s' = _kill s ∧ (_calls s ≤ _calls s')%nat.
#[global] Instance switch_kept_preorder : PreOrder switch_kept.
Proof. split; [done|]. intros ??? [? ?] [? ?]. split; [congruence|lia]. Qed.

Lemma kill_check_inv s s' :
  kill_is_halted env s = (Ok false, s') →
  kill_seen (_calls s) (_kill s) = (false, _kill s') ∧ _calls s' = S (_calls s).
Proof.
  unfold kill_is_halted, kill_seen. intros Hk. m_step Hk; [|done]. injection E as <- <-.
  unfold stateful in Hk. cbn [_kill] in Hk. destruct (is_halted _) as [b k] eqn:Ek.
  by injection Hk as -> <-.
Qed.
Lemma tick_switch : steps switch_kept tick.
Proof. intros s. split; [done|]. cbn. lia. Qed.
Hint Resolve tick_switch : s2p.
Lemma trusted_quote_switch sym now : steps switch_kept (_trusted_quote_price env sym now).
Proof. unfold _trusted_quote_price. steps_tac. Qed.

(** What one question to the motor's own quote source is worth. *)
Definition quote_answer (sym : pystr) (now : Z) (price : option decimal) : Prop :=
  match _quotes env with
  | None => price = None
  | Some latest => ∃ n, price = match latest n sym with
                                | Ok (Some q) => usable_quote env now q
                                | _ => None
                                end
  end.

(** The checks an order passes before anything is claimed. *)
Definition gates a (rcv : Z) (notional : decimal) : Prop :=
  let o := order a in
  order_id o = signal_id o ∧
  evaluate_attestation (_verifier env) a = None ∧
  (attested_side (attestation a) = SIDE_SELL_SHORT → allow_short_selling (_config env) = true) ∧
  _timing_reason env a rcv = None ∧
  algo o = DIRECT ∧
  ∃ price, compute_notional o price = Ok (Some notional) ∧
    dgt notional (max_order_notional (_config env)) = Ok false ∧
    quote_answer (symbol o) rcv price.

Lemma trusted_quote_inv sym now s price s' :
  _trusted_quote_price env sym now s = (Ok price, s') → quote_answer sym now price.
Proof.
  unfold _trusted_quote_price, quote_answer. destruct (_quotes env) as [latest|]; intros Hq.
  - m_step Hq; [|simplify_eq]. injection Hq as <- <-. by exists a.
  - by injection Hq as <- <-.
Qed.

Lemma reject_inv {A} (m : M (MotorState St) ExecutionReport) s (n : A) s' :
  (r ← m; mret (inl r)) s = (Ok (inr n), s') → False.
Proof. intros Hm. m_step Hm; [|simplify_eq]. injection Hm as ??. done. Qed.

Lemma precheck_inv a ref rcv s notional s' :
  _precheck env a ref rcv s = (Ok (inr notional), s') →
  gates a rcv notional ∧ kill_seen (_calls s) (_kill s) = (false, _kill s') ∧ (_calls s < _calls s')%nat.
Proof.
  unfold _precheck. cbn zeta. intros Hp. m_step Hp; [|done]. destruct a0.
  { m_step Hp; [|done]. by apply reject_inv in Hp. }
  apply kill_check_inv in E as [Hk Hcalls].
  destruct (str_eqb (order_id (order a)) (signal_id (order a))) eqn:Eid; cbn [negb] in Hp;
    [|by apply reject_inv in Hp].
  destruct (evaluate_attestation _ a) eqn:Eatt; [by apply reject_inv in Hp|].
  destruct (str_eqb (attested_side (attestation a)) SIDE_SELL_SHORT
            && negb (allow_short_selling (_config env))) eqn:Eshort; [by apply reject_inv in Hp|].
  destruct (_timing_reason env a rcv) eqn:Et; [by apply reject_inv in Hp|].
  destruct (bool_decide (algo (order a) = DIRECT)) eqn:Ealgo; cbn [negb] in Hp;
    [|by apply reject_inv in Hp].
  m_step Hp; [|done]. pose proof (trusted_quote_switch (symbol (order a)) rcv s0) as Hsw. rewrite E in Hsw.
  destruct Hsw as [Hsw1 Hsw2]. cbn [snd] in Hsw1, Hsw2. apply trusted_quote_inv in E.
  m_step Hp; [|done]. unfold lift in E0. injection E0 as E0 <-.
  destruct a1 as [x|]; [|by apply reject_inv in Hp].
  m_step Hp; [|done]. unfold lift in E1. injection E1 as E1 <-.
  destruct a1; [by apply reject_inv in Hp|]. injection Hp as <- <-.
  apply str_eqb_true in Eid. apply bool_decide_eq_true in Ealgo.
  split; [|split; [by rewrite Hsw1|lia]]. split_and!; [done..| |done|done|by exists a0].
  intros Hs. rewrite Hs, str_eqb_refl in Eshort. by apply negb_false_iff.
Qed.

(** How a reservation of [n] on [l] may end: kept, or released. *)
Definition kept_or_released (n : decimal) (l l' : NotionalLedger) : Prop :=
  l' = l ∨ l' = (release n l).2.

(** The report of a run that did not raise. *)
Definition reported (r : result ExecutionReport) (P : ExecutionReport → Prop) : Prop :=
  match r with Ok rep => P rep | Raise _ => True end.

Lemma rejected_status o reason d rcv ref v s r s' :
  _rejected env o reason d rcv ref v s = (r, s') →
  reported r (λ rep, status rep = REJECTED ∧ reject_reason rep = Some reason).
Proof.
  unfold _rejected. intros Hr. m_step Hr; [|done]. unfold lift in Hr.
  injection Hr as <- <-. destruct (make_report _) eqn:Er; [|done].
  apply make_report_ok in Er as ->. done.
Qed.

Lemma unknown_status o v d rcv sub ref s r s' :
  _unknown env o v d rcv sub ref s = (r, s') →
  _halted (_kill s') = true ∧ reported r (λ rep, status rep = UNKNOWN).
Proof.
  unfold _unknown. intros Hr. m_step Hr; [|done]. injection E as _ <-.
  m_step Hr; [|done]. injection E as _ <-. unfold lift in Hr. injection Hr as <- <-.
  split; [done|]. destruct (make_report _) eqn:Er; [|done]. by apply make_report_ok in Er as ->.
Qed.

Lemma release_step n s r s' :
  ledger_release n s = (r, s') →
  submits s' = submits s ∧ _idem s' = _idem s ∧ _ledger s' = (release n (_ledger s)).2.
Proof.
  unfold ledger_release. destruct (release n (_ledger s)) as [r1 l1]. by intros [= <- <-].
Qed.

(** The end of a run that holds a reservation of [n]: nothing more is sent or claimed, the
    reservation is kept unless the report is REJECTED, an UNKNOWN outcome halts. *)
Definition settled (n : decimal) s (r : result ExecutionReport) s' : Prop :=
  submits s' = submits s ∧ _idem s' = _idem s ∧
  kept_or_released n (_ledger s) (_ledger s') ∧
  reported r (λ rep, (status rep = REJECTED ∨ _ledger s' = _ledger s) ∧
                     (status rep = UNKNOWN → _halted (_kill s') = true)).

Lemma settled_frame n s r s' s1 :
  frame s s1 → settled n s1 r s' → settled n s r s'.
Proof.
  intros (E1 & E2 & E3) (F1 & F2 & F3 & F4). unfold settled. rewrite E1, E2, E3 in *. done.
Qed.

Lemma settled_raise n s e s' : frame s s' → settled n s (Raise e) s'.
Proof. intros (E1 & E2 & E3). split_and!; [done..|by left|done]. Qed.

Lemma rejected_inv o reason d rcv ref v s r s' :
  _rejected env o reason d rcv ref v s = (r, s') →
  frame s s' ∧ reported r (λ rep, status rep = REJECTED ∧ reject_reason rep = Some reason).
Proof.
  intros Hr. split; [|by eapply rejected_status].
  pose proof (rejected_frame o reason d rcv ref v s) as F. by rewrite Hr in F.
Qed.

Lemma unknown_settled n o v d rcv sub ref s r s' :
  _unknown env o v d rcv sub ref s = (r, s') → settled n s r s'.
Proof.
  intros Hr. pose proof (unknown_frame o v d rcv sub ref s) as F. rewrite Hr in F.
  destruct F as (E1 & E2 & E3). apply unknown_status in Hr as [Hh Hr].
  split_and!; [done..|by left|]. destruct r as [rep|]; [|done]. by split; [right|].
Qed.

(** A release followed by a refusal. *)
Lemma release_settled n o reason d rcv ref v s r s' :
  (_ ← ledger_release n; _rejected env o reason d rcv ref v) s = (r, s') → settled n s r s'.
Proof.
  intros Hm. m_step Hm; apply release_step in E as (E1 & E2 & E3).
  - apply rejected_inv in Hm as ((F1 & F2 & F3) & Hr).
    split_and!; [congruence..|right; congruence|]. destruct r as [rep|]; [|done].
    destruct Hr as [Hr _]. split; [by left|by rewrite Hr].
  - subst r. split_and!; [done..|by right|done].
Qed.

Lemma clock_inv s r s' : clock env s = (r, s') →
  frame s s' ∧ (_kill s' = _kill s ∧ _calls s' = S (_calls s)) ∧ ∃ z, r = Ok z.
Proof. intros [= <- <-]. split_and!; by eauto. Qed.

Lemma from_broker_settled o v b n rcv sub ref s r s' :
  _from_broker env o v b n rcv sub ref s = (r, s') → settled n s r s'.
Proof.
  unfold _from_broker. case_bool_decide as Hu; [by apply unknown_settled|].
  case_bool_decide as Hj; [by apply release_settled|]. intros Hb.
  m_step Hb; apply clock_inv in E as (F & _ & z & Ez); [|done].
  eapply settled_frame; [exact F|].
  m_step Hb; injection E as Ef <-; [|subst r; by apply settled_raise].
  injection Hb as <- <-. split_and!; [done..|by left|].
  destruct (make_report _) eqn:Er; [|done]. apply make_report_ok in Er as ->. cbn [status].
  split; [by right|done].
Qed.

Lemma try_submit_inv v q s r s' :
  try_submit env v q s = (r, s') →
  _idem s' = _idem s ∧ _ledger s' = _ledger s ∧ _kill s' = _kill s ∧ (∃ x, r = Ok x) ∧
  (submits s' = submits s ∨ submits s' = submits s ++ [mkSent v q (_kill s) (_calls s)]) ∧
  (is_Some (_brokers env !! v) → submits s' = submits s ++ [mkSent v q (_kill s) (_calls s)]).
Proof.
  unfold try_submit, submit_order. destruct (_brokers env !! v) as [b|]; cbn.
  - intros [= <- <-]. cbn. split_and!; eauto.
  - intros [= <- <-]. split_and!; eauto. by intros [? ?].
Qed.

Lemma make_request_ok q x : make_request q = Ok x → x = q.
Proof. unfold make_request. by case_match; intros [= ->]. Qed.

(** The order did not get as far as a broker. *)
Definition pre_broker (rep : ExecutionReport) : Prop :=
  status rep = REJECTED ∧ reject_reason rep ≠ Some BROKER_REJECTED.
Definition refused (r : result ExecutionReport) : Prop := reported r pre_broker.

Lemma rejected_refused r reason :
  reported r (λ rep, status rep = REJECTED ∧ reject_reason rep = Some reason) →
  reason ≠ BROKER_REJECTED → refused r.
Proof.
  destruct r as [rep|]; [|done]. intros [H1 H2] Hn. split; [done|]. rewrite H2. congruence.
Qed.

(** [_submit]: refused by the kill switch or before the call, or exactly one order sent while the
    switch answers that it is not halted. *)
Lemma submit_inv o v n rcv ref s r s' :
  _submit env o v n rcv ref s = (r, s') →
  settled n s r s' ∧ (is_Some (_brokers env !! v) → refused r) ∨
  ∃ k, kill_seen (_calls s) (_kill s) = (false, k) ∧
    settled n (mkMotorState (_kill s) (_idem s) (_ledger s) (_calls s)
                 (submits s ++ [mkSent v (broker_request o) k (S (S (_calls s)))])) r s'.
Proof.
  unfold _submit. intros Hs.
  pose proof (kill_is_halted_frame s) as F0.
  m_step Hs; rewrite E in F0; cbn [snd] in F0; [|left; subst r; split; [by apply settled_raise|done]].
  destruct a.
  { left. apply and_comm. split.
    { intros _. m_step Hs; [|by subst r]. m_step Hs; [|done].
      apply rejected_inv in Hs as [_ Hr]. by eapply rejected_refused. }
    eapply settled_frame; [exact F0|]. m_step Hs; [|].
    - apply release_step in E0 as (G1 & G2 & G3). m_step Hs; [|done].
      injection E0 as _ <-. apply rejected_inv in Hs as ((H1 & H2 & H3) & Hr).
      split_and!; [congruence..|right; congruence|]. destruct r as [rep|]; [|done].
      destruct Hr as [Hr _]. split; [by left|by rewrite Hr].
    - apply release_step in E0 as (G1 & G2 & G3). subst r. split_and!; [done..|by right|done]. }
  apply kill_check_inv in E as [Hk Hn].
  m_step Hs; injection E as Ereq <-; [|left; subst r; split; [by apply settled_raise|done]].
  m_step Hs; apply clock_inv in E as (F1 & [K1 N1] & z & Ez); [|done].
  m_step Hs; apply try_submit_inv in E as (G1 & G2 & G3 & [x Ex] & Gs & Gb); [|done].
  injection Ex as ->. assert (frame s s1) as F01 by by (etransitivity; [exact F0|]).
  destruct F01 as (S1 & S2 & S3).
  assert (settled n s2 r s') as Hset.
  { destruct x as [b|e]; [by eapply from_broker_settled|].
    destruct (bool_decide _); [by eapply release_settled|].
    destruct (bool_decide _); by eapply unknown_settled. }
  apply make_request_ok in Ereq as ->.
  destruct Gs as [Gs|Gs]; [left; split|right; eexists; split; [exact Hk|]];
    try (eapply settled_frame; [|exact Hset]).
  - repeat split; congruence.
  - intros Hb%Gb. exfalso. rewrite Gs in Hb. apply (f_equal length) in Hb.
    rewrite length_app in Hb. cbn in Hb. lia.
  - repeat split; cbn; [|congruence..]. by rewrite Gs, S1, K1, N1, Hn.
Qed.

(** *** Claims and the reservation *)

Definition signal_key o : pystr := u "signal:" ++ signal_id o.
Definition order_key o : pystr := u "order:" ++ order_id o.

Lemma signal_key_inj o o' : signal_key o = signal_key o' → signal_id o = signal_id o'.
Proof. apply (inj (app (u "signal:"))). Qed.
Lemma keys_differ o o' : signal_key o ≠ order_key o'.
Proof. done. Qed.

Lemma idem_claim_inv k s r s' :
  idem_claim k s = (r, s') →
  submits s' = submits s ∧ _ledger s' = _ledger s ∧ claim k (_idem s) = (r, _idem s').
Proof.
  unfold idem_claim. destruct (claim k (_idem s)) as [r1 i1] eqn:E. by intros [= <- <-].
Qed.

(** What the claims of an order do to the store. *)
Inductive claims_of o (i : St) : St → Prop :=
  | claims_none : claims_of o i i
  | claims_signal : claims_of o i (claim (signal_key o) i).2
  | claims_both : claims_of o i (claim (order_key o) (claim (signal_key o) i).2).2.

(** Both claims of an order were granted. *)
Definition granted o (i i' : St) : Prop :=
  ∃ i1, claim (signal_key o) i = (Ok true, i1) ∧ claim (order_key o) i1 = (Ok true, i').

Lemma claims_of_mono o i i' : claims_of o i i' → claimed i ⊆ claimed i'.
Proof.
  intros [| |]; rewrite ?claim_claimed; set_solver.
Qed.

Lemma granted_claims o i i' : granted o i i' → claims_of o i i'.
Proof.
  intros (i1 & E1 & E2). replace i' with (claim (order_key o) (claim (signal_key o) i).2).2;
    [constructor|]. by rewrite E1; cbn; rewrite E2.
Qed.

Lemma granted_fresh o i i' :
  granted o i i' → signal_key o ∉ claimed i ∧ signal_key o ∈ claimed i'.
Proof.
  intros (i1 & E1 & E2). pose proof (claim_claimed (signal_key o) i) as C1.
  pose proof (claim_claimed (order_key o) i1) as C2. rewrite E1 in C1. rewrite E2 in C2.
  cbn in C1, C2. split; [by eapply claim_fresh|]. rewrite C2, C1. set_solver.
Qed.

Lemma granted_order o i i' :
  granted o i i' → order_key o ∉ claimed i ∧ order_key o ∈ claimed i'.
Proof.
  intros (i1 & E1 & E2). pose proof (claim_claimed (signal_key o) i) as C1.
  pose proof (claim_claimed (order_key o) i1) as C2. rewrite E1 in C1. rewrite E2 in C2.
  cbn in C1, C2. apply claim_fresh in E2. split; [|rewrite C2]; set_solver.
Qed.

Lemma try_reserve_same n l r l' : try_reserve n l = (r, l') → r ≠ Ok true → l' = l.
Proof.
  unfold try_reserve. destruct (negb _); [congruence|]. destruct (dadd _ _); [|congruence].
  destruct (dgt _ _) as [[]|]; congruence.
Qed.

Lemma reserve_step n s r s' :
  ledger_try_reserve n s = (r, s') →
  submits s' = submits s ∧ _idem s' = _idem s ∧ try_reserve n (_ledger s) = (r, _ledger s').
Proof.
  unfold ledger_try_reserve. destruct (try_reserve n (_ledger s)) as [r1 l1]. by intros [= <- <-].
Qed.

Lemma idem_claim_switch k : steps switch_kept (idem_claim k).
Proof. intros s. unfold idem_claim. by destruct (claim k (_idem s)). Qed.
Lemma try_reserve_switch n : steps switch_kept (ledger_try_reserve n).
Proof. intros s. unfold ledger_try_reserve. by destruct (try_reserve n (_ledger s)). Qed.
Lemma rejected_switch o reason d rcv ref v : steps switch_kept (_rejected env o reason d rcv ref v).
Proof. unfold _rejected, clock. steps_tac. Qed.
Hint Resolve idem_claim_switch try_reserve_switch rejected_switch : s2p.
Lemma claim_and_reserve_switch o n rcv ref :
  steps switch_kept (_claim_and_reserve env o n rcv ref).
Proof. unfold _claim_and_reserve. steps_tac. Qed.

Lemma refuse_some_inv o reason d rcv ref v s r s' :
  (r ← _rejected env o reason d rcv ref v; mret (Some r)) s = (r, s') →
  reason ≠ BROKER_REJECTED →
  frame s s' ∧ r ≠ Ok None ∧ (∀ rep, r = Ok (Some rep) → pre_broker rep).
Proof.
  intros Hr Hn. m_step Hr; apply rejected_inv in E as [F R].
  - injection Hr as <- <-. split_and!; [done..|]. intros rep [= <-].
    by apply rejected_refused in R.
  - subst r. split_and!; [done..|]. congruence.
Qed.

Lemma claim_and_reserve_inv o n rcv ref s r s' :
  _claim_and_reserve env o n rcv ref s = (r, s') →
  submits s' = submits s ∧ claims_of o (_idem s) (_idem s') ∧
  (r = Ok None → granted o (_idem s) (_idem s') ∧
                 try_reserve n (_ledger s) = (Ok true, _ledger s')) ∧
  (r ≠ Ok None → _ledger s' = _ledger s) ∧
  (∀ rep, r = Ok (Some rep) → pre_broker rep).
Proof.
  unfold _claim_and_reserve. fold (signal_key o) (order_key o). intros Hc.
  m_step Hc; apply idem_claim_inv in E as (A1 & A2 & A3).
  2: { subst r. replace (_idem s') with (claim (signal_key o) (_idem s)).2 by by rewrite A3.
       split_and!; [done|constructor|done..]. }
  m_step Hc; apply idem_claim_inv in E as (B1 & B2 & B3).
  2: { subst r. replace (_idem s') with (claim (order_key o) (claim (signal_key o) (_idem s)).2).2
         by by rewrite A3; cbn; rewrite B3.
       split_and!; [congruence|constructor|done|congruence|done]. }
  assert (claims_of o (_idem s) (_idem s1)) as Hof.
  { replace (_idem s1) with (claim (order_key o) (claim (signal_key o) (_idem s)).2).2
      by by rewrite A3; cbn; rewrite B3. constructor. }
  destruct (a && a0) eqn:Eb; cbn [negb] in Hc.
  2: { apply refuse_some_inv in Hc as ((F1 & F2 & F3) & Hn & Hr); [|done]. rewrite F1, F2, F3.
       split_and!; [congruence|done|done|congruence|done]. }
  apply andb_true_iff in Eb as [-> ->].
  m_step Hc; apply reserve_step in E as (C1 & C2 & C3).
  2: { subst r. apply try_reserve_same in C3; [|done]. rewrite C2.
       split_and!; [congruence|done|done|congruence|done]. }
  destruct a; cbn [negb] in Hc.
  - injection Hc as <- <-. rewrite C1, C2, B2, A2 in *.
    split_and!; [congruence|done| |done|done]. intros _. split; [by exists (_idem s0)|done].
  - apply refuse_some_inv in Hc as ((F1 & F2 & F3) & Hn & Hr); [|done]. rewrite F1, F2, F3, C1, C2.
    apply try_reserve_same in C3; [|done].
    split_and!; [congruence|done|done|congruence|done].
Qed.

(** *** Whole runs *)

Lemma evaluate_reason verify a d :
  evaluate_attestation verify a = Some d → d = ATTESTATION_MISSING ∨ d = ATTESTATION_INVALID.
Proof.
  unfold evaluate_attestation. destruct (_ || _); [intros; simplify_eq; by left|].
  destruct (negb _); [intros; simplify_eq; by right|].
  destruct (verify _ _ _) as [[]|]; intros; simplify_eq; by right.
Qed.

Lemma timing_reason_cases a now d :
  _timing_reason env a now = Some d → d = ORDER_FROM_FUTURE ∨ d = ORDER_EXPIRED.
Proof. unfold _timing_reason. repeat case_match; intros; simplify_eq; auto. Qed.

Lemma precheck_inl_inv a ref rcv s rep s' :
  _precheck env a ref rcv s = (Ok (inl rep), s') → pre_broker rep.
Proof.
  assert (∀ o reason d v s s', (r ← _rejected env o reason d rcv ref v; mret (inl (B := decimal) r)) s
            = (Ok (inl rep), s') → reason ≠ BROKER_REJECTED → pre_broker rep) as Hrej.
  { intros o reason d v s0 s1 Hr Hn. m_step Hr; [|done]. injection Hr as <- <-.
    apply rejected_inv in E as [_ E]. by apply rejected_refused in E. }
  unfold _precheck. cbn zeta. intros Hp. m_step Hp; [|done]. destruct a0.
  { m_step Hp; [|done]. by apply Hrej in Hp. }
  destruct (negb _); [by apply Hrej in Hp|].
  destruct (evaluate_attestation _ _) eqn:Ev.
  { apply evaluate_reason in Ev. apply Hrej in Hp; [done|]. by destruct Ev as [-> | ->]. }
  destruct (_ && _); [by apply Hrej in Hp|].
  destruct (_timing_reason _ _ _) eqn:Et.
  { apply timing_reason_cases in Et. apply Hrej in Hp; [done|]. by destruct Et as [-> | ->]. }
  destruct (negb _); [by apply Hrej in Hp|]. m_step Hp; [|done]. m_step Hp; [|done].
  destruct a1; [|by apply Hrej in Hp]. m_step Hp; [|done]. destruct a1; [by apply Hrej in Hp|done].
Qed.

(** The router chose [venue] for the order, for some venue statistics. *)
Definition routed a (rcv : Z) (venue : pystr) : Prop :=
  ∃ n stats d, _stats env n = Ok stats ∧
    route (_router env) (order a) (venue_names env) stats rcv = Ok d ∧ dec_venue d = Some venue.

Lemma routed_broker a rcv venue : routed a rcv venue → is_Some (_brokers env !! venue).
Proof.
  intros (n & stats & d & _ & Hr & Hv). apply (route_candidate _ _ _ _ _ _ _ Hr) in Hv.
  unfold venue_names in Hv. rewrite sort_keys_perm in Hv.
  apply list_elem_of_fmap in Hv as ([v []] & -> & Hv).
  apply list_elem_of_fmap in Hv as ([v' b] & [= ->] & Hv%elem_of_map_to_list). by exists b.
Qed.

(** The release check, when there is one, released the order. *)
Definition released (chk : option ReleaseCheck) : Prop :=
  match chk with None => True | Some check => ∃ n, check n = Ok None end.

(** A run that stops before it holds anything. *)
Definition stopped a s (r : result ExecutionReport) s' : Prop :=
  submits s' = submits s ∧ _ledger s' = _ledger s ∧
  claims_of (order a) (_idem s) (_idem s') ∧ refused r.

(** A run that claimed the order and reserved its notional, up to the point [s2] where what is
    left is to settle; [first] is the number of its first external call, the check of the kill
    switch. The switch was found open there and again, as it then was, by the second call before
    the broker's. *)
Definition committed a (rcv : Z) (chk : option ReleaseCheck) (first : nat) s notional s2
    (r : result ExecutionReport) : Prop :=
  ∃ venue, gates a rcv notional ∧ routed a rcv venue ∧
  granted (order a) (_idem s) (_idem s2) ∧
  try_reserve notional (_ledger s) = (Ok true, _ledger s2) ∧
  (submits s2 = submits s ∧ refused r ∨
   released chk ∧ ∃ k1 n k, kill_seen first (_kill s) = (false, k1) ∧ kill_seen n k1 = (false, k) ∧
     (first < n)%nat ∧ submits s2 = submits s ++ [mkSent venue (broker_request (order a)) k (S (S n))]).

Lemma frame_stopped a s s' e : frame s s' → stopped a s (Raise e) s'.
Proof. intros (F1 & F2 & F3). unfold stopped. rewrite F2. split_and!; try done. constructor. Qed.

Lemma refusal_inv (chk : option ReleaseCheck) s r s' :
  ((match chk with
    | None => mret None
    | Some check => n ← tick; lift (check n)
    end) : M (MotorState St) (option pystr)) s = (r, s') →
  frame s s' ∧ switch_kept s s' ∧ (r = Ok None → released chk).
Proof.
  destruct chk as [check|]; intros Hr; [|by injection Hr as <- <-].
  m_step Hr; [|done]. injection E as _ <-. injection Hr as <- <-.
  split_and!; [done|split; cbn; [done|lia]|]. intros Hn. by exists a.
Qed.

Lemma run_inv a ref rcv chk s r s' :
  _run env a ref rcv chk s = (r, s') →
  stopped a s r s' ∨ ∃ notional s2, committed a rcv chk (_calls s) s notional s2 r ∧ settled notional s2 r s'.
Proof.
  unfold _run. cbn zeta. intros Hr. pose proof (precheck_frame a ref rcv s) as F.
  m_step Hr; rewrite E in F; cbn [snd] in F; [|left; subst r; by apply frame_stopped].
  pose proof F as (F1 & F2 & F3). destruct a0 as [rep|notional].
  { left. injection Hr as <- <-. apply precheck_inl_inv in E. unfold stopped. rewrite F2.
    split_and!; try done. constructor. }
  apply precheck_inv in E as (E & Hseen & Hlt).
  m_step Hr; [|done]. assert (frame s s1 ∧ switch_kept s0 s1) as [F' W1]
    by (injection E0 as _ <-; split; [done|split; cbn; [done|lia]]).
  clear E0 F F1 F2 F3.
  m_step Hr; injection E0 as Es <-; [|left; subst r; by apply frame_stopped].
  m_step Hr; injection E0 as Er <-; [|left; subst r; by apply frame_stopped].
  pose proof F' as (F1 & F2 & F3).
  destruct (dec_venue a2) as [venue|] eqn:Ev.
  2: { left. apply rejected_inv in Hr as ((G1 & G2 & G3) & R). unfold stopped.
       rewrite G1, G2, G3, F1, F2, F3. split_and!; [done..|constructor|].
       by eapply rejected_refused. }
  assert (routed a rcv venue) as Hrt by by eexists _, a1, a2.
  pose proof (claim_and_reserve_switch (order a) notional rcv ref s1) as W2.
  m_step Hr; rewrite E0 in W2; cbn [snd] in W2; apply claim_and_reserve_inv in E0 as (C1 & C2 & C3 & C4 & C5); rewrite F2 in *;
    [|left; subst r; unfold stopped; rewrite C4 by done; split_and!; [congruence|congruence|done..]].
  destruct a3 as [rep|].
  { left. injection Hr as <- <-. unfold stopped. rewrite C4 by done.
    split_and!; [congruence|congruence|done|]. by apply C5. }
  destruct (C3 eq_refl) as [K1 K2]. rewrite F3 in K2. right. exists notional.
  assert (∀ t r, frame s2 t → refused r → committed a rcv chk (_calls s) s notional t r) as Hcom.
  { intros t r0 (G1 & G2 & G3) Href. exists venue. rewrite G1, G2, G3. split_and!; try done.
    left. split; [congruence|done]. }
  m_step Hr; apply refusal_inv in E0 as (G & W3 & Hrel).
  2: { exists s'. subst r. split; [by apply Hcom|]. apply settled_raise; reflexivity. }
  destruct a3 as [detail|].
  { exists s3. split; [|by eapply release_settled]. apply Hcom; [done|].
    m_step Hr; [|by subst r]. apply rejected_inv in Hr as [_ R]. by eapply rejected_refused. }
  apply submit_inv in Hr as [[Hr Href]|(k & Hk & Hr)].
  { exists s3. split; [|done]. apply Hcom; [done|]. apply Href. by eapply routed_broker. }
  eexists. split; [|exact Hr]. destruct (Hcom s3 (Raise (Exn KeyError [])) G I) as (v & Hg & _ & ? & ? & _).
  exists venue. cbn. split_and!; try done.
  assert (switch_kept s0 s3) as [W4 W5] by (do 2 (etransitivity; [eassumption|]); done).
  right. split; [by apply Hrel|]. exists (_kill s0), (_calls s3), k. rewrite W4 in Hk.
  split_and!; [done|done|lia|]. destruct G as (-> & _ & _). congruence.
Qed.

Lemma execute_inv a ref chk s r s' :
  execute env a ref chk s = (r, s') →
  let rcv := _clock env (_calls s) in
  stopped a s r s' ∨
  ∃ notional s2, committed a rcv chk (S (_calls s)) s notional s2 r ∧ settled notional s2 r s'.
Proof.
  intros He rcv. unfold execute in He. m_step He; [|done]. injection E as <- <-.
  set (s1 := mkMotorState _ _ _ _ _) in He. fold rcv in He.
  assert (stopped a s1 r s' ∨ ∃ notional s2, committed a rcv chk (S (_calls s)) s1 notional s2 r ∧
                                           settled notional s2 r s') as Hgoal; [|exact Hgoal].
  unfold catch_all in He. destruct (_run env a ref rcv chk s1) as [[rep|e] s2] eqn:Er.
  { injection He as <- <-. by apply run_inv in Er. }
  m_step He; [|done]. injection E as _ <-. apply rejected_inv in He as ((G1 & G2 & G3) & R).
  cbn in G1, G2, G3.
  apply run_inv in Er as [(S1 & S2 & S3 & _)|(n & s3 & Hc & S1 & S2 & S3 & _)].
  - left. unfold stopped. rewrite G1, G2, G3. split_and!; [done..|]. by eapply rejected_refused.
  - right. exists n, s3. split.
    { destruct Hc as (v & H1 & H2 & H3 & H4 & H5). exists v. split_and!; try done.
      destruct H5 as [[H5 _]|H5]; [left; split; [done|by eapply rejected_refused]|by right]. }
    split_and!; [congruence..|by rewrite G3|].
    destruct r as [rep|]; [|done]. destruct R as [R _]. split; [by left|by rewrite R].
Qed.

(** A call that sends nothing answers with a refusal made before the broker. *)
Lemma execute_unsent a ref chk s rep s' :
  execute env a ref chk s = (Ok rep, s') → submits s' = submits s → pre_broker rep.
Proof.
  intros He Hs. apply execute_inv in He as
    [(_ & _ & _ & Href)|(n & s2 & (v & _ & _ & _ & _ & Hc) & S1 & _)]; [done|].
  destruct Hc as [[_ Href]|(_ & k1 & n0 & k & _ & _ & _ & Hs2)]; [done|]. exfalso.
  rewrite S1, Hs2 in Hs. apply (f_equal length) in Hs. rewrite length_app in Hs. cbn in Hs. lia.
Qed.

(** *** Sequences of calls *)

Definition call : Type := AttestedOrder * option decimal * option ReleaseCheck.
Definition call_step (c : call) : M (MotorState St) ExecutionReport :=
  execute env c.1.1 c.1.2 c.2.

Fixpoint run_calls (l : list call) (s : MotorState St)
  : list (result ExecutionReport) * MotorState St :=
  match l with
  | [] => ([], s)
  | c :: l => let '(r, s) := call_step c s in let '(rs, s) := run_calls l s in (r :: rs, s)
  end.

(** The orders a call adds. *)
Lemma call_submits c s r s' :
  call_step c s = (r, s') →
  let o := order c.1.1 in
  claimed (_idem s) ⊆ claimed (_idem s') ∧
  (submits s' = submits s ∨
   ∃ x, submits s' = submits s ++ [x] ∧ sent_request x = broker_request o ∧
        signal_id o = order_id o ∧
        signal_key o ∉ claimed (_idem s) ∧ signal_key o ∈ claimed (_idem s')).
Proof.
  intros Hc o. apply (execute_inv c.1.1 c.1.2 c.2) in Hc. cbn zeta in Hc.
  destruct Hc as [(S1 & _ & S3 & _)|(n & s2 & (v & Hg & _ & K & _ & Hs) & S1 & S2 & _)].
  - split; [by eapply claims_of_mono|by left].
  - rewrite S1, S2. split; [by eapply claims_of_mono, granted_claims|].
    destruct Hs as [[Hs _]|(_ & k1 & n0 & k & _ & _ & _ & Hs)]; [by left|right].
    eexists. split; [exact Hs|]. destruct Hg as (Hid & _). apply granted_fresh in K as [? ?].
    by split_and!.
Qed.

Lemma run_calls_claimed l s : claimed (_idem s) ⊆ claimed (_idem (run_calls l s).2).
Proof.
  revert s. induction l as [|c l IH]; intros s; cbn; [done|].
  destruct (call_step c s) as [r s1] eqn:E. apply call_submits in E as [Hsub _].
  specialize (IH s1). destruct (run_calls l s1). cbn in *. etransitivity; done.
Qed.

(** The orders of a sequence: each for its own signal, none claimed before. *)
Definition fresh_orders (old : gset pystr) (new : list Sent) (upto : gset pystr) : Prop :=
  NoDup ((λ x, req_client_order_id (sent_request x)) <$> new) ∧
  Forall (λ x, u "signal:" ++ req_client_order_id (sent_request x) ∉ old ∧
               u "signal:" ++ req_client_order_id (sent_request x) ∈ upto) new.

Lemma run_calls_submits l s :
  ∃ new, submits (run_calls l s).2 = submits s ++ new ∧
         fresh_orders (claimed (_idem s)) new (claimed (_idem (run_calls l s).2)).
Proof.
  revert s. induction l as [|c l IH]; intros s; cbn.
  { exists []. rewrite app_nil_r. split; [done|]. split; constructor. }
  destruct (call_step c s) as [r s1] eqn:E. apply call_submits in E as [Hsub Hc].
  destruct (IH s1) as (new & Hn & Hnd & Hall). pose proof (run_calls_claimed l s1) as Hc2.
  destruct (run_calls l s1) as [rs s2]. cbn in *.
  assert (Forall (λ x, u "signal:" ++ req_client_order_id (sent_request x) ∉ claimed (_idem s) ∧
            u "signal:" ++ req_client_order_id (sent_request x) ∈ claimed (_idem s2)) new) as Hall'.
  { eapply Forall_impl; [exact Hall|]. intros x [? ?]. split; [set_solver|done]. }
  destruct Hc as [Hc|(x & Hc & Hx & Hid & Hk1 & Hk2)].
  - exists new. rewrite Hn, Hc. split; [done|]. by split.
  - exists (x :: new). rewrite Hn, Hc, <- app_assoc. split; [done|].
    assert (req_client_order_id (sent_request x) = signal_id (order c.1.1)) as Hxs
      by (rewrite Hx, Hid; done).
    split; cbn.
    + constructor; [|done]. rewrite Hxs. intros (y & Hy & Hiny)%list_elem_of_fmap.
      rewrite Forall_forall in Hall. apply Hall in Hiny as [Hn1 _]. rewrite <- Hy in Hn1. done.
    + constructor; [|done]. rewrite Hxs. split; [done|]. by apply Hc2.
Qed.

(** *** The ledger *)





(** *** Halted motors *)

Definition no_resume : Prop := ∀ n op, EResume op ∉ others env n.

Lemma events_keep_halted es k :
  (∀ op, EResume op ∉ es) → _halted k = true → _halted (fold_left ks_step es k) = true.
Proof.
  revert k. induction es as [|e es IH]; intros k Hno Hk; cbn; [done|]. apply IH.
  - intros op Hin. apply (Hno op). by right.
  - destruct e as [r|op|]; cbn [ks_step]; [done| |by apply is_halted_local].
    exfalso. apply (Hno op). left.
Qed.

Lemma rejected_finite o reason d rcv ref v s :
  is_finite (quantity o) = true → (∀ p, ref = Some p → is_finite p = true) →
  ∃ rep s', _rejected env o reason d rcv ref v s = (Ok rep, s') ∧ frame s s' ∧
            status rep = REJECTED ∧ reject_reason rep = Some reason ∧ _kill s' = _kill s ∧
            rep_order_id rep = order_id o.
Proof.
  intros Hq Hr. unfold _rejected, clock, mbind, M_bind, mret, M_ret, tick, lift. cbn beta iota.
  match goal with |- context [make_report ?x] => set (rep := x) end.
  assert (make_report rep = Ok rep) as ->.
  { unfold make_report. assert (finite_fields rep = true) as ->; [|done].
    unfold finite_fields. cbn. rewrite Hq. destruct ref; [by apply Hr|done]. }
  eexists _, _. split; [reflexivity|]. by split_and!.
Qed.

Lemma halted_call a ref chk s :
  no_resume → _halted (_kill s) = true →
  is_finite (quantity (order a)) = true → (∀ p, ref = Some p → is_finite p = true) →
  ∃ rep s', execute env a ref chk s = (Ok rep, s') ∧ status rep = REJECTED ∧
    reject_reason rep = Some HALTED ∧ frame s s' ∧ _halted (_kill s') = true.
Proof.
  intros Hno Hh Hq Hr. unfold execute.
  set (s1 := mkMotorState (_kill s) (_idem s) (_ledger s) (S (_calls s)) (submits s)).
  set (rcv := _clock env (_calls s)).
  assert (∃ rep s', _run env a ref rcv chk s1 = (Ok rep, s') ∧ status rep = REJECTED ∧
    reject_reason rep = Some HALTED ∧ frame s s' ∧ _halted (_kill s') = true) as (rep & s' & E & Hp).
  { assert (_halted (fold_left ks_step (others env (_calls s1)) (_kill s1)) = true) as Hh1
      by (apply events_keep_halted; [apply Hno|done]).
    apply is_halted_local in Hh1 as [Hi Hl].
    unfold _run, _precheck. cbn zeta. unfold kill_is_halted, kill_reason, stateful.
    unfold mbind, M_bind, mret, M_ret, tick. cbn beta iota.
    set (s1' := mkMotorState (_kill s1) (_idem s1) (_ledger s1) (S (_calls s1)) (submits s1)).
    change (_kill s1') with (_kill s1).
    destruct (is_halted _) as [b k] eqn:Ek. cbn in Hi, Hl. subst b.
    set (s2 := upd_kill k s1').
    destruct (rejected_finite (order a) HALTED (_reason (_kill s2)) rcv ref None s2 Hq Hr)
      as (rep & s3 & E3 & F & Hst & Hrs & Hk & _).
    rewrite E3. exists rep, s3.
    destruct F as (F1 & F2 & F3). split_and!; try done. by rewrite Hk. }
  exists rep, s'. split; [|done]. unfold clock, mbind, M_bind, mret, M_ret, tick, catch_all.
  cbn beta iota. fold s1 rcv. by rewrite E.
Qed.
End motor_facts.

(** ** Restarts: the motor on the file store *)

Section file_motor.
Implicit Types (s : MotorState FileStore).

(** Identifiers as a protobuf string carries them. *)
Definition ids_ok (c : call) : Prop :=
  str_ok (signal_id (order c.1.1)) = true ∧ str_ok (order_id (order c.1.1)) = true.

Lemma call_keys_ok c : ids_ok c → key_ok (signal_key (order c.1.1)) ∧ key_ok (order_key (order c.1.1)).
Proof. intros [H1 H2]. repeat split; done. Qed.

Lemma claim_lines k (i : FileStore) :
  key_ok k → lines_inv i → lines_inv (claim k i).2 ∧ ∀ k', durable k' i → durable k' (claim k i).2.
Proof.
  intros Hk Hi. destruct (claim k i) as [r i'] eqn:E. by destruct (file_claim_inv _ _ _ _ E Hk Hi) as (? & ? & _).
Qed.

Lemma claims_of_lines o (i i' : FileStore) :
  claims_of o i i' → key_ok (signal_key o) → key_ok (order_key o) → lines_inv i →
  lines_inv i' ∧ ∀ k, durable k i → durable k i'.
Proof.
  intros [| |] K1 K2 Hi; [done|by apply claim_lines|].
  destruct (claim_lines _ _ K1 Hi) as [L1 D1]. destruct (claim_lines _ _ K2 L1) as [L2 D2].
  split; [done|]. auto.
Qed.

Lemma granted_durable o (i i' : FileStore) :
  granted o i i' → key_ok (signal_key o) → key_ok (order_key o) → lines_inv i →
  durable (signal_key o) i'.
Proof.
  intros (i1 & E1 & E2) K1 K2 Hi.
  destruct (file_claim_inv _ _ _ _ E1 K1 Hi) as (L1 & _ & D1).
  destruct (file_claim_inv _ _ _ _ E2 K2 L1) as (_ & D2 & _). auto.
Qed.

Lemma call_durable env c s r s' :
  call_step env c s = (r, s') → ids_ok c → lines_inv (_idem s) →
  lines_inv (_idem s') ∧ (∀ k, durable k (_idem s) → durable k (_idem s')) ∧
  ∃ new, submits s' = submits s ++ new ∧
         Forall (λ x, durable (u "signal:" ++ req_client_order_id (sent_request x)) (_idem s')) new.
Proof.
  intros Hc [K1 K2]%call_keys_ok Hi. apply (execute_inv env c.1.1 c.1.2 c.2) in Hc. cbn zeta in Hc.
  destruct Hc as [(S1 & _ & S3 & _)|(n & s2 & (v & Hg & _ & K & _ & Hs) & S1 & S2 & _)].
  - destruct (claims_of_lines _ _ _ S3 K1 K2 Hi). split_and!; [done..|].
    exists []. by rewrite S1, app_nil_r.
  - rewrite S1, S2. destruct (claims_of_lines _ _ _ (granted_claims _ _ _ K) K1 K2 Hi).
    split_and!; [done..|]. destruct Hs as [[Hs _]|(_ & k1 & n0 & k & _ & _ & _ & Hs)].
    + exists []. by rewrite Hs, app_nil_r.
    + eexists. split; [exact Hs|]. constructor; [|constructor].
      pose proof (granted_durable _ _ _ K K1 K2 Hi) as Hd. destruct Hg as (Hid & _).
      cbn. unfold client_order_id. by rewrite Hid.
Qed.

Lemma run_calls_durable env l s :
  Forall ids_ok l → lines_inv (_idem s) →
  let s' := (run_calls env l s).2 in
  (∀ k, durable k (_idem s) → durable k (_idem s')) ∧
  ∃ new, submits s' = submits s ++ new ∧
         Forall (λ x, durable (u "signal:" ++ req_client_order_id (sent_request x)) (_idem s')) new.
Proof.
  intros Hl. revert s. induction Hl as [|c l Hc _ IH]; intros s Hi; cbn.
  { split; [done|]. exists []. by rewrite app_nil_r. }
  destruct (call_step env c s) as [r s1] eqn:E.
  destruct (call_durable _ _ _ _ _ E Hc Hi) as (Hi1 & D1 & new1 & N1 & F1).
  destruct (IH s1 Hi1) as (D2 & new2 & N2 & F2). destruct (run_calls env l s1) as [rs s2].
  cbn in *. split; [auto|]. exists (new1 ++ new2). rewrite N2, N1, <- app_assoc. split; [done|].
  apply Forall_app. split; [|done]. eapply Forall_impl; [exact F1|]. auto.
Qed.
End file_motor.

(** ** What an order that is sent has passed, clause by clause *)

Section passed.
Variable env : MotorEnv.

(** The attestation: signature, key and payload are there, the payload is the one the order
    carries the digest of, and the verifier answered True for the three. *)
Definition attested (a : Attestation) : Prop :=
  signature a ≠ [] ∧ key_id a ≠ [] ∧ signed_payload a ≠ [] ∧
  sha256 (signed_payload a) = payload_sha256 a ∧
  _verifier env (signed_payload a) (signature a) (key_id a) = Ok true.

(** Decided not after now (up to the clock skew), not expired, not too old. *)
Definition timely (a : Attestation) (now : Z) : Prop :=
  decided_at_ns a ≤ now + max_clock_skew_ns (_config env) ∧
  now < expires_at_ns a ∧ now - decided_at_ns a ≤ max_order_age_ns (_config env).

(** A quote that may be trusted: a finite price above zero, neither from the future nor stale. *)
Definition trusted (now : Z) (q : PriceQuote) : Prop :=
  dec_lt D_ZERO (q_price q) ∧ q_as_of_ns q ≤ now + max_clock_skew_ns (_config env) ∧
  now - q_as_of_ns q ≤ max_quote_age_ns (_config env).

(** The price the motor's own source gave: that of a quote it may trust; no price when it has no
    source, or when the source gave no such quote. *)
Definition own_price (sym : pystr) (now : Z) (price : option decimal) : Prop :=
  match _quotes env with
  | None => price = None
  | Some latest => ∃ n, match price with
      | Some p => ∃ q, latest n sym = Ok (Some q) ∧ q_price q = p ∧ trusted now q
      | None => ∀ q, latest n sym = Ok (Some q) → ¬ trusted now q
      end
  end.

(** The notional is the quantity times one of the positive prices - the signed limit, the signed
    stop, the motor's own - and at least the quantity times any of them; it is not above the
    cap of an order. *)
Definition worst_case (o : Order) (now : Z) (notional : decimal) : Prop :=
  ∃ own, own_price (symbol o) now own ∧
    let priced p := dec_lt D_ZERO p ∧ (p = limit_price o ∨ p = stop_price o ∨ Some p = own) in
    (∃ p, priced p ∧ dmul (quantity o) p = Ok notional) ∧
    (dec_lt D_ZERO (quantity o) →
     ∀ p n, priced p → dmul (quantity o) p = Ok n → dec_le n notional) ∧
    dgt notional (max_order_notional (_config env)) = Ok false.

(** The venue has a broker, and what was observed there within the window either scores not above
    the threshold - the router's, or the order's own when that is positive and lower - or is too
    little for a score, and the operator allowed unscored venues. *)
Definition venue_allowed (o : Order) (now : Z) (venue : pystr) : Prop :=
  let c := _router env in
  is_Some (_brokers env !! venue) ∧
  ∃ n stats threshold r, _stats env n = Ok stats ∧
    (dgt (max_venue_toxicity o) D_ZERO = Ok false ∧ threshold = max_toxicity c ∨
     dgt (max_venue_toxicity o) D_ZERO = Ok true ∧
     dmin (max_toxicity c) (max_venue_toxicity o) = Ok threshold) ∧
    compute_toxicity
      (filter (λ x, now - window_days c * _DAY_NS ≤ obs_timestamp_ns x ∧ obs_timestamp_ns x ≤ now)
         (default [] (stats !! venue))) (params c) = Ok r ∧
    match r with
    | Some r => dgt (score r) threshold = Ok false
    | None => unscored_policy c = ALLOW
    end.

(** The request carries the order's own fields, under its signal id; a price of zero is absent. *)
Definition carries (q : BrokerOrderRequest) (o : Order) : Prop :=
  let price p := if deq p D_ZERO then None else Some p in
  req_client_order_id q = signal_id o ∧ req_symbol q = symbol o ∧ req_side q = side o ∧
  req_order_type q = order_type o ∧ req_quantity q = quantity o ∧
  req_limit_price q = price (limit_price o) ∧ req_stop_price q = price (stop_price o).

Lemma usable_quote_trusted now q p :
  usable_quote env now q = Some p ↔ q_price q = p ∧ trusted now q.
Proof.
  unfold usable_quote, trusted. destruct (finite_positive (q_price q)) eqn:Ef; cbn [negb].
  - apply finite_positive_lt in Ef. destruct (_ || _) eqn:Eo.
    + split; [done|]. intros (_ & _ & ? & ?). exfalso.
      apply orb_true_iff in Eo as [?%Z.ltb_lt|?%Z.ltb_lt]; lia.
    + apply orb_false_iff in Eo as [?%Z.ltb_ge ?%Z.ltb_ge].
      split; [intros [= <-]; by split_and!|by intros [-> _]].
  - split; [done|]. intros (_ & Hp & _). apply finite_positive_lt in Hp. congruence.
Qed.

Lemma quote_answer_own sym now price : quote_answer env sym now price → own_price sym now price.
Proof.
  unfold quote_answer, own_price. destruct (_quotes env) as [latest|]; [|done].
  intros [n ->]. exists n. destruct (latest n sym) as [[q|]|] eqn:E; [|done..].
  destruct (usable_quote env now q) as [p|] eqn:Eu.
  - exists q. split; [done|]. by apply usable_quote_trusted.
  - intros q' [= ->] Ht.
    assert (usable_quote env now q' = Some (q_price q')) by by apply usable_quote_trusted. congruence.
Qed.

Lemma gates_passed a rcv notional :
  gates env a rcv notional →
  order_id (order a) = signal_id (order a) ∧ attested (attestation a) ∧
  (attested_side (attestation a) = SIDE_SELL_SHORT → allow_short_selling (_config env) = true) ∧
  timely (attestation a) rcv ∧ algo (order a) = DIRECT ∧ worst_case (order a) rcv notional.
Proof.
  intros (Hid & Hatt & Hshort & Ht & Ha & price & Hn & Hcap & Hq).
  split_and!; [done|by apply evaluate_attestation_accepts|done| |done|].
  - unfold _timing_reason in Ht. destruct (Z.ltb_spec (rcv + max_clock_skew_ns (_config env))
      (decided_at_ns (attestation a))); [done|].
    destruct (_ || _) eqn:E; [done|]. apply orb_false_iff in E as [?%Z.leb_gt ?%Z.ltb_ge].
    by split_and!.
  - exists price. split; [by apply quote_answer_own|]. split_and!; [|intros Hpos p n Hp Hm|done].
    + destruct (compute_notional_priced _ _ _ Hn) as (p & Hp & Hm). exists p.
      split; [by apply usable_price_iff|done].
    + apply finite_positive_lt in Hpos.
      eapply (proj2 (compute_notional_worst_case _ _)); [done..| |done]. by apply usable_price_iff.
Qed.

Lemma routed_allowed a rcv venue : routed env a rcv venue → venue_allowed (order a) rcv venue.
Proof.
  intros Hr. pose proof (routed_broker _ _ _ _ Hr) as Hb.
  destruct Hr as (n & stats & d & Hs & Hr & Hv). split; [done|].
  destruct (route_venue _ _ _ _ _ _ _ Hr Hv) as (t & w & r & Ht & Hw & Hc & Hel).
  exists n, stats, t, r. split_and!; [done|by apply threshold_cases| |done].
  unfold filter_window in Hw. destruct (_ <? 1); [done|]. by apply Ok_inj in Hw as ->.
Qed.

Lemma request_carries o : order_id o = signal_id o → carries (broker_request o) o.
Proof.
  intros Hid. unfold carries, broker_request, or_none, truthy, client_order_id. cbn.
  by split_and!; try done; destruct (deq _ _).
Qed.
End passed.

Lemma try_reserve_true n l l1 :
  try_reserve n l = (Ok true, l1) →
  dec_lt D_ZERO n ∧ ∃ total, dadd (reserved l) n = Ok total ∧ dgt total (cap l) = Ok false ∧
    l1 = mkLedger (cap l) total.
Proof.
  unfold try_reserve. destruct (finite_positive n) eqn:Ef; cbn [negb]; [|done].
  destruct (dadd _ _) as [total|] eqn:Ea; [|done]. destruct (dgt _ _) as [[]|] eqn:Eg; [done| |done].
  intros [= <-]. apply finite_positive_lt in Ef. by eauto.
Qed.

(** ** Properties *)

Section motor_properties.
Context {St : Type} `{IdempotencyLaws St}.

(** C1: Every order that reaches a broker passed every gate. A call of [execute] sends at most one
    order; if it sends one, the request carries the attested order's fields under the attested
    signal id; signature, key and payload were there, the payload has the attested digest and the
    verifier accepted it; a short sale was permitted; when the call began the decision was
    neither from the future, nor expired, nor too old; the algorithm was DIRECT; the notional, a
    worst case over the signed prices and the motor's own quote, was positive, within the cap of
    an order, and reserved within the cap of the session; the venue has a broker and was allowed
    on what was observed there; neither the signal nor the order had been claimed and this very
    call claimed both; the release check released it; and the kill switch answered "not halted"
    twice: as the first thing after the clock was read, before any of these checks, and again as
    the second call before the broker's (only the clock is read in between), on the switch as it
    then stood with what others had done to it. *)
Theorem execute_submits_gated env a ref chk (s : MotorState St) r s' :
  execute env a ref chk s = (r, s') →
  submits s' = submits s ∨
  let o := order a in
  let received := _clock env (_calls s) in
  ∃ x notional total l1 k1 n, submits s' = submits s ++ [x] ∧
    (sent_request x = broker_request o ∧ carries (sent_request x) o) ∧
    (gates env a received notional ∧
     order_id o = signal_id o ∧ attested env (attestation a) ∧
     (attested_side (attestation a) = SIDE_SELL_SHORT → allow_short_selling (_config env) = true) ∧
     timely env (attestation a) received ∧ algo o = DIRECT ∧ worst_case env o received notional) ∧
    (routed env a received (sent_venue x) ∧ venue_allowed env o received (sent_venue x)) ∧
    (try_reserve notional (_ledger s) = (Ok true, l1) ∧ dec_lt D_ZERO notional ∧
     dadd (reserved (_ledger s)) notional = Ok total ∧
     dgt total (cap (_ledger s)) = Ok false ∧ l1 = mkLedger (cap (_ledger s)) total) ∧
    (granted o (_idem s) (_idem s') ∧
     u "signal:" ++ signal_id o ∉ claimed (_idem s) ∧ u "order:" ++ order_id o ∉ claimed (_idem s) ∧
     u "signal:" ++ signal_id o ∈ claimed (_idem s') ∧ u "order:" ++ order_id o ∈ claimed (_idem s')) ∧
    released chk ∧
    kill_seen env (S (_calls s)) (_kill s) = (false, k1) ∧
    kill_seen env n k1 = (false, sent_kill x) ∧
    (S (_calls s) < n)%nat ∧ sent_call x = S (S n).
Proof.
  intros He. apply execute_inv in He.
  destruct He as [(? & _)|(p & s2 & (v & Hg & Hrt & K & Hr & Hs) & S1 & S2 & _)]; [by left|].
  rewrite S1, S2. destruct Hs as [[Hs _]|(Hrel & k1 & n & k & Hk1 & Hk & Hn & Hs)]; [by left|right].
  destruct (gates_passed _ _ _ _ Hg) as (Hid & Hatt & Hshort & Htime & Halgo & Hworst).
  pose proof (request_carries _ Hid) as Hq.
  pose proof (routed_allowed _ _ _ _ Hrt) as Hv.
  destruct (try_reserve_true _ _ _ Hr) as (Hpos & total & Hadd & Hcap & Hl).
  pose proof (granted_fresh _ _ _ K) as [Hsig Hsig']. pose proof (granted_order _ _ _ K) as [Hord Hord'].
  cbn zeta. eexists _, p, total, _, k1, n. split; [exact Hs|]. by ands.
Qed.

(** C2: No signal is executed twice. Over any sequence of calls, with any orders, brokers, clocks
    and interfering kill-switch events, the client order ids sent to brokers are pairwise
    distinct, and none of them belongs to a signal that was already claimed. *)
Theorem single_submission_per_signal env l (s : MotorState St) :
  ∃ new, submits (run_calls env l s).2 = submits s ++ new ∧
    NoDup ((λ x, req_client_order_id (sent_request x)) <$> new) ∧
    Forall (λ x, u "signal:" ++ req_client_order_id (sent_request x) ∉ claimed (_idem s)) new.
Proof.
  destruct (run_calls_submits env l s) as (new & E & Hnd & Hall).
  exists new. split_and!; [done..|]. eapply Forall_impl; [exact Hall|]. by intros x [? _].
Qed.

(** C4: [execute] always returns a report. With a finite order quantity and a finite (or no)
    reference price, whatever the verifier, the feeds, the venue statistics, the brokers and
    the release check do, a report comes back; when the pipeline raised, that report is
    REJECTED with INTERNAL_ERROR and the kill switch is halted; when it is UNKNOWN the kill
    switch is halted too. *)
Theorem execute_always_reports env a ref chk (s : MotorState St) :
  is_finite (quantity (order a)) = true → (∀ p, ref = Some p → is_finite p = true) →
  ∃ rep s', execute env a ref chk s = (Ok rep, s') ∧
    (status rep = UNKNOWN → _halted (_kill s') = true) ∧
    (∀ received s1, clock env s = (Ok received, s1) →
       ∀ e s2, _run env a ref received chk s1 = (Raise e, s2) →
       status rep = REJECTED ∧ reject_reason rep = Some INTERNAL_ERROR ∧ _halted (_kill s') = true).
Proof.
  intros Hq Hr.
  assert (∃ rep s', execute env a ref chk s = (Ok rep, s') ∧
    (∀ received s1, clock env s = (Ok received, s1) →
       ∀ e s2, _run env a ref received chk s1 = (Raise e, s2) →
       status rep = REJECTED ∧ reject_reason rep = Some INTERNAL_ERROR ∧ _halted (_kill s') = true))
    as (rep & s' & He & Hraise).
  { unfold execute, mbind, M_bind, catch_all.
    destruct (clock env s) as [[received|e] s1] eqn:Ec; [|done].
    destruct (_run env a ref received chk s1) as [[rep|e] s2] eqn:Er.
    - exists rep, s2. split; [done|]. intros ? ? [= <- <-] e s3 E. congruence.
    - unfold kill_halt, modify.
      destruct (rejected_finite env (order a) INTERNAL_ERROR (exn_name (exn_kind e)) received ref None
        (upd_kill (halt (u "unexpected error: " ++ exn_name (exn_kind e)) (_kill s2)) s2) Hq Hr)
        as (rep & s3 & E3 & _ & Hst & Hre & Hk & _).
      exists rep, s3. split; [exact E3|]. intros _ _ _ _ _ _. split_and!; [done..|]. by rewrite Hk. }
  exists rep, s'. split_and!; [done| |done]. intros Hu. apply execute_inv in He.
  destruct He as [(_ & _ & _ & Href)|(n & s2 & _ & _ & _ & _ & Hrep)]; cbn in *.
  - destruct Href as [Href _]. congruence.
  - by apply Hrep.
Qed.

(** C5: After a halt nothing is sent. From a state whose kill switch is up, and as long as nobody
    resumes it, every call reports REJECTED with HALTED, sends nothing, claims nothing and
    leaves the ledger alone; the switch stays up. So an UNKNOWN outcome or an internal error
    stops the motor. *)
Theorem halted_motor_sends_nothing env l (s : MotorState St) :
  no_resume env → _halted (_kill s) = true →
  Forall (λ c : call, is_finite (quantity (order c.1.1)) = true ∧
                      ∀ p, c.1.2 = Some p → is_finite p = true) l →
  let '(rs, s') := run_calls env l s in
  frame s s' ∧ _halted (_kill s') = true ∧
  Forall (λ r, ∃ rep, r = Ok rep ∧ status rep = REJECTED ∧ reject_reason rep = Some HALTED) rs.
Proof.
  intros Hno Hh Hl. revert s Hh. induction Hl as [|c l [Hq Hr] _ IH]; intros s Hh; cbn.
  { by split_and!. }
  destruct (halted_call env c.1.1 c.1.2 c.2 s Hno Hh Hq Hr) as (rep & s1 & E & Hst & Hre & F1 & H1).
  unfold call_step. rewrite E. specialize (IH s1 H1). destruct (run_calls env l s1) as [rs s2].
  destruct IH as (F2 & H2 & Hall). destruct F1 as (A1 & A2 & A3), F2 as (B1 & B2 & B3).
  split; [repeat split; congruence|split; [done|]]. constructor; [by eauto|done].
Qed.

End motor_properties.

(** C3: No signal is executed twice across a restart. Run any sequence of calls on a motor over the
    file store, let writes to the store fail in any pattern, stop, and open the store again from
    the file: if that succeeds at all, the client order ids that the restarted motor sends in any
    further sequence are distinct from all those sent before. *)
Theorem restart_never_resubmits env l s f0 ks0 ok0 io0 env' l' s' ok io :
  Forall key_ok ks0 → open_file_store (Some (Ok (store_file ks0))) ok0 io0 = Ok f0 →
  _idem s = f0 → submits s = [] → Forall ids_ok l →
  open_file_store (Some (Ok (fs_text (_idem (run_calls env l s).2)))) ok io = Ok (_idem s') →
  submits s' = [] →
  NoDup ((λ x, req_client_order_id (sent_request x)) <$>
           (submits (run_calls env l s).2 ++ submits (run_calls env' l' s').2)).
Proof.
  intros Hks Ho Hf Hs Hl Hre Hs'.
  assert (lines_inv (_idem s)) as Hi.
  { unfold open_file_store in Ho. destruct (_load _); cbn [mbind result_bind] in Ho; [|done].
    destruct ok0; [|done]. apply Ok_inj in Ho. rewrite Hf, <- Ho. exists ks0.
    split; [done|]. by rewrite app_nil_r. }
  destruct (run_calls_durable env l s Hl Hi) as (_ & new1 & N1 & D1).
  destruct (run_calls_submits env l s) as (new & N & Hnd & _).
  destruct (run_calls_submits env' l' s') as (new2 & N2 & Hnd2 & Hall2).
  rewrite Hs in N, N1. rewrite Hs' in N2. cbn [app] in N, N1, N2.
  assert (new1 = new) as -> by congruence. rewrite N2, N, fmap_app. apply NoDup_app. split_and!; [done| |done].
  intros id (x & -> & Hx)%list_elem_of_fmap (y & Hy & Hiny)%list_elem_of_fmap.
  rewrite Forall_forall in D1, Hall2. apply D1 in Hx. apply Hall2 in Hiny as [Hn _].
  apply Hn. cbn. rewrite <- Hy.
  unfold open_file_store in Hre. destruct (_load _) as [seen|] eqn:El;
    cbn [mbind result_bind] in Hre; [|done].
  destruct ok; [|done]. apply Ok_inj in Hre. rewrite <- Hre. cbn [fs_seen].
  by eapply durable_reload.
Qed.

(** ** A concrete motor *)

Definition sim_order (id : pystr) : Order :=
  mkOrder id id (u "AAPL") 1 BUY LIMIT (D 10) (D 100) D_ZERO [] D_ZERO DIRECT D_ZERO D_ZERO.
Definition sim_attested (id : pystr) : AttestedOrder :=
  mkAttested (sim_order id)
    (mkAttestation [1]%N (u "hsm-1") [1; 2; 3]%N (sha256 [1; 2; 3]%N) 900 5000 SIDE_BUY).

(** Accepts what the script says at each call. *)
Definition sim_broker (answer : BrokerOrderRequest → result BrokerOrder) : Broker := λ _ q, answer q.
Definition sim_accept (st : ExecutionStatus) (filled price : decimal) (q : BrokerOrderRequest)
  : result BrokerOrder :=
  Ok (mkBrokerOrder (u "b-1") (req_client_order_id q) (req_symbol q) st (u "raw") (req_quantity q)
        filled (Some price) None None).

Definition sim_env (answer : BrokerOrderRequest → result BrokerOrder) : MotorEnv :=
  mkMotorEnv
    (mkMotorConfig (D 5000) (D 1500) 10000 100 100 (u "test") false None)
    {[ u "sim" := sim_broker answer ]}
    (mkRouterConfig (DFin 9 (-1)) example_params ALLOW 5)
    (λ _ sig _, Ok (bool_decide (sig = [1]%N)))
    None (λ _, Ok ∅) (λ n, 1000 + Z.of_nat n) (λ _, []).
Definition sim_state {St} (idem : St) : MotorState St :=
  mkMotorState (make_kill_switch false None true) idem (mkLedger (D 1500) D_ZERO) 0 [].
Definition sim_mem : MotorState MemStore := sim_state InMemoryIdempotencyStore.
Definition sim_ok : MotorEnv := sim_env (sim_accept FILLED (D 10) (D 100)).

Lemma execute_submits_gated_witness :
  ∃ r s' x notional, execute sim_ok (sim_attested (u "o1")) None None sim_mem = (r, s') ∧
    submits s' = [x] ∧ carries (sent_request x) (sim_order (u "o1")) ∧
    worst_case sim_ok (sim_order (u "o1")) 1000 notional.
Proof.
  assert (length (submits (execute sim_ok (sim_attested (u "o1")) None None sim_mem).2) = 1%nat)
    as Hlen by (vm_compute; reflexivity).
  destruct (execute sim_ok (sim_attested (u "o1")) None None sim_mem) as [r s'] eqn:E.
  destruct (execute_submits_gated _ _ _ _ _ _ _ E) as [H|(x & p & t & l1 & k1 & m & H1 & H2 & H3 & _)].
  - cbn [snd] in Hlen. rewrite H in Hlen. discriminate Hlen.
  - exists r, s', x, p. split; [reflexivity|]. split; [exact H1|]. split; [exact (proj2 H2)|apply H3].
Defined.

Definition sim_call (id : pystr) : call := (sim_attested id, None, None).

(** The repetition is refused as a duplicate, the second order by the session cap. *)
Lemma single_submission_per_signal_witness :
  let l := [sim_call (u "o1"); sim_call (u "o1"); sim_call (u "o2")] in
  (λ x, req_client_order_id (sent_request x)) <$> submits (run_calls sim_ok l sim_mem).2 = [u "o1"] ∧
  ∃ new, submits (run_calls sim_ok l sim_mem).2 = submits sim_mem ++ new ∧
    NoDup ((λ x, req_client_order_id (sent_request x)) <$> new).
Proof.
  intros l. split; [vm_compute; reflexivity|].
  destruct (single_submission_per_signal sim_ok l sim_mem) as (new & H1 & H2 & _).
  exists new. split; assumption.
Defined.

Lemma execute_always_reports_witness :
  ∃ rep s', execute (sim_env (λ _, raise (OtherError (u "Boom")) [])) (sim_attested (u "o1")) None None
              sim_mem = (Ok rep, s') ∧ status rep = UNKNOWN ∧ _halted (_kill s') = true.
Proof.
  assert (status <$> (execute (sim_env (λ _, raise (OtherError (u "Boom")) []))
            (sim_attested (u "o1")) None None sim_mem).1 = Ok UNKNOWN) as Hv
    by (vm_compute; reflexivity).
  destruct (execute_always_reports (sim_env (λ _, raise (OtherError (u "Boom")) []))
    (sim_attested (u "o1")) None None sim_mem eq_refl ltac:(discriminate)) as (rep & s' & E & H & _).
  exists rep, s'. split; [exact E|].
  assert (status rep = UNKNOWN) as Hst.
  { rewrite E in Hv. injection Hv as Hv. exact Hv. }
  split; [exact Hst|exact (H Hst)].
Defined.

Lemma halted_motor_sends_nothing_witness :
  let s := mkMotorState (make_kill_switch true None true) InMemoryIdempotencyStore
             (mkLedger (D 1500) D_ZERO) 0 [] in
  submits (run_calls sim_ok [sim_call (u "o1"); sim_call (u "o2")] s).2 = [].
Proof.
  intros s.
  pose proof (halted_motor_sends_nothing sim_ok [sim_call (u "o1"); sim_call (u "o2")] s) as H.
  destruct (run_calls sim_ok [sim_call (u "o1"); sim_call (u "o2")] s) as [rs s'].
  destruct H as ((H & _) & _).
  - intros n op Hin. apply elem_of_nil in Hin. destruct Hin.
  - reflexivity.
  - repeat constructor; discriminate.
  - exact H.
Defined.


Definition sim_file (keys : list pystr) : FileStore :=
  mkFileStore (list_to_set keys) (store_file keys) [] false [].

Lemma restart_never_resubmits_witness :
  let s := sim_state (sim_file [u "signal:old"]) in
  ∃ f, open_file_store (Some (Ok (fs_text (_idem (run_calls sim_ok [sim_call (u "o1")] s).2))))
         true [] = Ok f ∧
  NoDup ((λ x, req_client_order_id (sent_request x)) <$>
    (submits (run_calls sim_ok [sim_call (u "o1")] s).2
     ++ submits (run_calls sim_ok [sim_call (u "o1"); sim_call (u "o2")] (sim_state f)).2)).
Proof.
  intros s.
  destruct (open_file_store (Some (Ok (fs_text
    (_idem (run_calls sim_ok [sim_call (u "o1")] s).2)))) true []) as [f|e] eqn:E.
  2: { vm_compute in E. discriminate E. }
  exists f. split; [reflexivity|].
  apply (restart_never_resubmits sim_ok [sim_call (u "o1")] s (sim_file [u "signal:old"])
           [u "signal:old"] true [] sim_ok [sim_call (u "o1"); sim_call (u "o2")] (sim_state f) true []).
  - repeat constructor; discriminate.
  - vm_compute. reflexivity.
  - reflexivity.
  - reflexivity.
  - repeat constructor.
  - exact E.
  - reflexivity.
Defined.

(** ** What modelling showed *)

(** The broker accepted and filled the order at a price the report cannot carry (zero): the order
    was sent and its notional stays reserved, yet the report is REJECTED with INTERNAL_ERROR and
    names neither venue nor broker order. *)
Example filled_order_reported_rejected :
  let out := execute (sim_env (sim_accept FILLED (D 10) D_ZERO)) (sim_attested (u "o1")) None None
               sim_mem in
  length (submits out.2) = 1%nat ∧
  (λ r, (status r, reject_reason r, broker_order_id r, venue r)) <$> out.1
  = Ok (REJECTED, Some INTERNAL_ERROR, None, None).
Proof. split; vm_compute; reflexivity. Qed.

(** A reference price that is not a number makes even the last-resort report fail: [execute]
    raises. *)
Example nan_reference_raises :
  is_ok (execute sim_ok (sim_attested (u "o1")) (Some DNaN) None sim_mem).1 = false.
Proof. vm_compute. reflexivity. Qed.
