(* ===== verification/ProtoAdapter.v ===== *)
(** * Execution motor: from protobuf messages to orders ([proto_adapter.py])

    The only module that reads the messages of [afe.shared]. Amounts are int64 nanos; a protobuf
    double is represented by its [repr]. *)
From S2P Require Import Prelude PyStr PyDecimal DecimalFacts Sha256.
From S2P Require Import MotorModels Attest.

(** A double, as [repr(float(x))] writes it. *)
Abbreviation double := pystr.

Record OrderRequest := mkOrderRequest {
  m_order_id : pystr; m_signal_id : pystr; m_symbol : pystr;
  m_created_at_ns : Z; m_side : Z; m_order_type : Z; m_algo : Z; m_status : Z;
  m_quantity_nanos : Z; m_limit_price_nanos : Z; m_stop_price_nanos : Z;
  m_preferred_venue : pystr;
  m_max_venue_toxicity : double; m_pov_target_rate : double; m_iceberg_display_size : double;
  m_hsm_signature : pybytes; m_hsm_key_id : pystr; m_attestation_expires_at_ns : Z;
}.

Record AttestationMsg := mkAttestationMsg {
  t_signature : pybytes; t_key_id : pystr; t_payload_sha256 : pybytes;
  t_decided_at_ns : Z; t_expires_at_ns : Z; t_aegis_state_seq : Z;
  t_limits_config_sha256 : pystr; t_canonical_version : pystr;
}.

Definition _NANOS : Z := 9.

(** The tables of enum values; 0 and unknown values are absent. *)
Definition _SIDES : list (Z * Side) := [(1, BUY); (2, SELL)].
Definition _TYPES : list (Z * (pystr * OrderType)) :=
  [ (1, (u "MARKET", MARKET)); (2, (u "LIMIT", LIMIT)); (3, (u "STOP", STOP));
    (4, (u "STOP_LIMIT", STOP_LIMIT)) ].
Definition _ALGOS : list (Z * ExecAlgo) := [(1, DIRECT); (2, ICEBERG); (3, POV)].
Definition _STATUS_PENDING : Z := 0.

Definition from_nanos (value : Z) (name : pystr) : result decimal :=
  if value <? 0 then raise OrderValidationError (name ++ u " must not be negative")
  else d ← dscaleb (D value) (- _NANOS); dnormalize d.

(** [Decimal(text)]: InvalidOperation on a text that is no number. *)
Definition decimal_of (text : pystr) : result decimal :=
  match dec_of_str text with
  | Some d => Ok d
  | None => raise InvalidOperation (u "ConversionSyntax")
  end.

Definition _double_hint (value : double) (name : pystr) : result decimal :=
  if bool_decide (value ∈ [u "nan"; u "inf"; u "-inf"]) then
    raise OrderValidationError (name ++ u " is not finite")
  else decimal_of value.

Fixpoint assoc {A} (m : list (Z * A)) (k : Z) : option A :=
  match m with
  | [] => None
  | (k', a) :: m => if k =? k' then Some a else assoc m k
  end.

Definition _lookup {A} (mapping : list (Z * A)) (value : Z) (name : pystr) : result A :=
  match assoc mapping value with
  | Some a => Ok a
  | None => raise OrderValidationError (name ++ u " has unsupported value " ++ str_of_Z value)
  end.

Definition signed_fields (o : OrderRequest) (t : AttestationMsg) (type_name side_name : pystr)
  : SignedFields :=
  {| sf_signal_id := m_signal_id o; sf_symbol := m_symbol o; sf_side := side_name;
     sf_order_type := type_name; sf_qty_nanos := m_quantity_nanos o;
     sf_limit_price_nanos := m_limit_price_nanos o; sf_stop_price_nanos := m_stop_price_nanos o;
     sf_decided_at_ns := t_decided_at_ns t; sf_expires_at_ns := t_expires_at_ns t;
     sf_aegis_state_seq := t_aegis_state_seq t;
     sf_limits_config_sha256 := t_limits_config_sha256 t; sf_key_id := t_key_id t |}.

(** [side_name = None] takes the first candidate of the order's side. *)
Definition canonical_attestation_text (o : OrderRequest) (t : AttestationMsg)
    (side_name : option pystr) : result pybytes :=
  ty ← _lookup _TYPES (m_order_type o) (u "order_type");
  name ← (match side_name with
          | Some n => Ok n
          | None => names ← candidate_side_names (m_side o) false;
                    match names with n :: _ => Ok n | [] => raise (OtherError (u "IndexError")) [] end
          end);
  build_canonical_text (signed_fields o t ty.1 name).

(** The loop over the candidates: the first whose digest is the claimed one, else the first. *)
Fixpoint select_loop (o : OrderRequest) (t : AttestationMsg) (names : list pystr)
    (first : option (pybytes * pystr)) : result (pybytes * pystr) :=
  match names with
  | [] => match first with
          | Some f => Ok f
          | None => raise OrderValidationError (u "no candidate side")
          end
  | name :: names =>
      text ← canonical_attestation_text o t (Some name);
      if bool_decide (sha256 text = t_payload_sha256 t) then Ok (text, name)
      else select_loop o t names (match first with None => Some (text, name) | f => f end)
  end.

Definition _select_signed_text (o : OrderRequest) (t : AttestationMsg) (allow_short : bool)
  : result (pybytes * pystr) :=
  names ← candidate_side_names (m_side o) allow_short;
  select_loop o t names None.

Definition _check_consistency (o : OrderRequest) (t : AttestationMsg) : result unit :=
  if negb (m_status o =? _STATUS_PENDING) then
    raise OrderValidationError (u "OrderRequest.status must be ORDER_PENDING on ingress")
  else if negb (str_eqb (t_canonical_version t) CANONICAL_VERSION) then
    raise OrderValidationError (u "unsupported attestation canonical_version")
  else if negb (str_eqb (m_order_id o) (m_signal_id o)) then
    raise OrderValidationError (u "order_id must equal signal_id")
  else if negb (str_eqb (m_hsm_signature o) (t_signature t))
          || negb (str_eqb (m_hsm_key_id o) (t_key_id t))
          || negb (m_attestation_expires_at_ns o =? t_expires_at_ns t) then
    raise OrderValidationError (u "OrderRequest does not mirror its Attestation")
  else Ok tt.

Definition _build_order (m : OrderRequest) : result Order :=
  sd ← _lookup _SIDES (m_side m) (u "side");
  ty ← _lookup _TYPES (m_order_type m) (u "order_type");
  qty ← from_nanos (m_quantity_nanos m) (u "quantity_nanos");
  lim ← from_nanos (m_limit_price_nanos m) (u "limit_price_nanos");
  stp ← from_nanos (m_stop_price_nanos m) (u "stop_price_nanos");
  tox ← _double_hint (m_max_venue_toxicity m) (u "max_venue_toxicity");
  alg ← _lookup _ALGOS (m_algo m) (u "algo");
  pov ← _double_hint (m_pov_target_rate m) (u "pov_target_rate");
  ice ← _double_hint (m_iceberg_display_size m) (u "iceberg_display_size");
  let o := {| order_id := m_order_id m; signal_id := m_signal_id m; symbol := m_symbol m;
              created_at_ns := m_created_at_ns m; side := sd; order_type := ty.2;
              quantity := qty; limit_price := lim; stop_price := stp;
              preferred_venue := m_preferred_venue m; max_venue_toxicity := tox; algo := alg;
              pov_target_rate := pov; iceberg_display_size := ice |} in
  match order_error_count o with
  | O => Ok o
  | n => raise OrderValidationError
           (u "invalid OrderRequest: " ++ str_of_Z (Z.of_nat n) ++ u " field error(s)")
  end.

Definition attested_order_from_proto (o : OrderRequest) (t : AttestationMsg) (allow_short : bool)
  : result AttestedOrder :=
  _ ← _check_consistency o t;
  domain_order ← _build_order o;
  picked ← _select_signed_text o t allow_short;
  Ok (mkAttested domain_order
        (mkAttestation (t_signature t) (t_key_id t) picked.1 (t_payload_sha256 t)
           (t_decided_at_ns t) (t_expires_at_ns t) picked.2)).

(** ** service.py [to_nanos] *)

Definition NANOS_PER_UNIT : decimal := D 1000000000.

Definition to_nanos (value : decimal) : result Z :=
  if negb (is_finite value) then raise ValueError (u "value must be finite")
  else p ← dmul value NANOS_PER_UNIT; to_integral_int p.

(** ** Nanos are exact *)

Lemma strip_to_value fuel c e ideal m :
  m ≤ e → let '(c', e') := strip_to fuel c e ideal in
  m ≤ e' ∧ c' * 10 ^ (e' - m) = c * 10 ^ (e - m).
Proof.
  revert c e. induction fuel as [|fuel IH]; intros c e He; cbn; [done|].
  destruct (e <? ideal); cbn [andb]; [|done].
  destruct (Z.eqb_spec (c mod 10) 0) as [Hm|]; [|done].
  pose proof (IH (c / 10) (e + 1) ltac:(lia)) as H.
  destruct (strip_to fuel (c / 10) (e + 1) ideal) as [c' e']. destruct H as [? ->].
  split; [done|]. replace (e + 1 - m) with (1 + (e - m)) by lia. rewrite pow10_add by lia.
  change (10 ^ 1) with 10. rewrite Z.mul_assoc. f_equal.
  rewrite (Z.div_mod c 10) at 2 by lia. lia.
Qed.

Lemma dnormalize_sc m c e d :
  rounded (DFin c e) → m ≤ e → m ≤ 0 → dnormalize (DFin c e) = Ok d →
  fits m d ∧ sc m d = c * 10 ^ (e - m).
Proof.
  intros Hr He Hm H. unfold dnormalize in H.
  destruct (dfix c e) as [r|] eqn:Ef; cbn [mbind result_bind] in H; [|done].
  assert (m ≤ Emax) as HE by (unfold Emax; lia).
  pose proof (dfix_exp m c e r Ef He HE) as Fr.
  pose proof (dfix_sc m c e r Ef He) as Sr.
  pose proof (rounded_rnd m (DFin c e) Hr (conj eq_refl He)) as Hx. cbn [sc] in Hx.
  rewrite Hx in Sr.
  destruct (fits_inv _ _ Fr) as (c' & e' & -> & He'). cbn [sc] in Sr.
  destruct (Z.eqb_spec c' 0) as [->|Hc].
  - simplify_eq. split; [by split|]. cbn [sc]. lia.
  - pose proof (strip_to_value (Z.to_nat (ndigits (Z.abs c'))) (Z.abs c') e' Emax m He') as Hs.
    destruct (strip_to _ _ _ _) as [a e2]. destruct Hs as [? Hs]. simplify_eq.
    split; [by split|]. cbn [sc]. rewrite <- Z.mul_assoc, Hs, Z.mul_assoc, <- Sr. f_equal. lia.
Qed.

Lemma dfix_small c e : 0 ≤ c < 10 ^ prec → -9 ≤ e ≤ 0 → dfix c e = Ok (DFin c e).
Proof.
  intros Hc He. unfold dfix. destruct (Z.eqb_spec c 0) as [->|Hn].
  { f_equal. f_equal. unfold Etiny, Emin, Emax, prec. lia. }
  assert (ndigits (Z.abs c) ≤ prec) as Hd by (apply ndigits_le; [done|lia]).
  rewrite Z.abs_eq in * by lia. unfold Etop, Etiny, Emin, Emax, prec in *.
  repeat match goal with |- context [Z.ltb ?a ?b] => destruct (Z.ltb_spec a b) end; try done; lia.
Qed.

Lemma from_nanos_exact v name :
  0 ≤ v < 2 ^ 63 → ∃ d, from_nanos v name = Ok d ∧ fits (-9) d ∧ sc (-9) d = v.
Proof.
  intros Hv. assert (0 ≤ v < 10 ^ prec) as Hp by (unfold prec; lia).
  unfold from_nanos. destruct (Z.ltb_spec v 0); [lia|]. unfold dscaleb, D. cbn [mbind result_bind].
  rewrite dfix_small by (done || unfold _NANOS; lia). cbn [mbind result_bind].
  assert (rounded (DFin v (0 + - _NANOS))) as Hr.
  { split; [lia|unfold Etiny, Emin, prec, _NANOS; lia]. }
  destruct (dnormalize (DFin v (0 + - _NANOS))) as [d|e] eqn:En.
  - exists d. destruct (dnormalize_sc (-9) _ _ _ Hr ltac:(done) ltac:(done) En) as [? Hs].
    split_and!; [done..|]. rewrite Hs. unfold _NANOS. cbn. lia.
  - exfalso. unfold dnormalize in En. rewrite dfix_small in En by (done || unfold _NANOS; lia).
    cbn [mbind result_bind] in En. destruct (v =? 0); [done|]. by destruct (strip_to _ _ _ _).
Qed.

Lemma to_nanos_value d v :
  fits (-9) d → sc (-9) d = v → 0 ≤ v < 2 ^ 63 → to_nanos d = Ok v.
Proof.
  intros Fd Sd Hv. destruct (fits_inv _ _ Fd) as (c & e & -> & He). cbn [sc] in Sd.
  unfold to_nanos, NANOS_PER_UNIT, D. cbn [is_finite negb].
  assert (dmul (DFin c e) (DFin 1000000000 0) = dfix (c * 1000000000) (e + 0)) as ->
    by by destruct c.
  assert (c * 1000000000 * 10 ^ (e + 0 - -9) = v * 10 ^ 9) as Hval.
  { rewrite <- Sd. replace (e + 0 - -9) with (e - -9) by lia. change (10 ^ 9) with 1000000000. lia. }
  destruct (dfix_total (c * 1000000000) (e + 0)) as [r Hr].
  { destruct (Z.eq_dec c 0) as [->|Hc]; [by left|right]. rewrite Z.abs_mul.
    rewrite <- (Z.add_simpl_r (_ + _) 9), <- Z.add_assoc.
    replace (e + 0 + 9) with (e + 0 - -9) by lia.
    rewrite <- (ndigits_shift (Z.abs c * Z.abs 1000000000)) by lia.
    pose proof (pow10_gt0 (e + 0 - -9) ltac:(lia)).
    replace (Z.abs c * Z.abs 1000000000 * 10 ^ (e + 0 - -9)) with (v * 10 ^ 9)
      by (rewrite <- Hval; nia).
    assert (ndigits (v * 10 ^ 9) ≤ prec); [apply ndigits_le; unfold prec; lia|lia]. }
  rewrite Hr. cbn [mbind result_bind].
  pose proof (dfix_exp (-9) _ _ _ Hr ltac:(lia) ltac:(unfold Emax; lia)) as Fr.
  pose proof (dfix_sc (-9) _ _ _ Hr ltac:(lia)) as Sr. rewrite Hval, rnd_exact in Sr;
    [|lia|unfold prec; lia|unfold Etiny, Emin, prec; lia].
  destruct (fits_inv _ _ Fr) as (c' & e' & -> & He'). cbn [sc] in Sr. unfold to_integral_int.
  destruct (Z.leb_spec 0 e').
  - f_equal. replace (e' - -9) with (e' + 9) in Sr by lia. rewrite pow10_add in Sr by lia. lia.
  - f_equal. assert (c' = v * 10 ^ (- e')) as ->.
    { assert (10 ^ 9 = 10 ^ (- e') * 10 ^ (e' - -9)) as E9
        by (rewrite <- pow10_add by lia; f_equal; lia).
      rewrite E9 in Sr. pose proof (pow10_gt0 (e' - -9) ltac:(lia)). nia. }
    unfold round_signed. pose proof (pow10_gt0 (- e') ltac:(lia)).
    rewrite Z.abs_mul, (Z.abs_eq v), (Z.abs_eq (10 ^ _)), rhe_multiple by lia.
    rewrite Z.sgn_mul, (Z.sgn_pos (10 ^ _)) by lia. lia.
Qed.

(** ** Facts about the conversion *)

Definition int64 (z : Z) : Prop := - 2 ^ 63 ≤ z < 2 ^ 63.

(** An order amount is the value of the signed nanos. *)
Definition in_nanos (d : decimal) (v : Z) : Prop := fits (-9) d ∧ sc (-9) d = v ∧ 0 ≤ v.

Lemma from_nanos_in v name d : from_nanos v name = Ok d → v < 2 ^ 63 → in_nanos d v.
Proof.
  intros H Hv. unfold from_nanos in H. destruct (Z.ltb_spec v 0) as [|H0]; [done|].
  destruct (from_nanos_exact v name ltac:(lia)) as (d' & E & F & S).
  unfold from_nanos in E. destruct (Z.ltb_spec v 0); [lia|]. rewrite E in H. apply Ok_inj in H as ->.
  done.
Qed.

Lemma select_loop_inv o t names first text name :
  select_loop o t names first = Ok (text, name) →
  (∃ f, first = Some f ∧ f = (text, name)) ∨
  name ∈ names ∧ canonical_attestation_text o t (Some name) = Ok text.
Proof.
  revert first. induction names as [|n names IH]; intros first H; cbn [select_loop] in H.
  - destruct first as [f|]; [|done]. apply Ok_inj in H as ->. by left; eauto.
  - destruct (canonical_attestation_text o t (Some n)) as [x|] eqn:Ex; cbn [mbind result_bind] in H; [|done].
    case_bool_decide.
    + apply Ok_inj in H. injection H as -> ->. right. split; [by left|done].
    + apply IH in H as [(f & Ef & Hf)|[Hin Hc]]; [|right; split; [by right|done]].
      destruct first as [f'|]; [left; eauto|]. injection Ef as <-. injection Hf as -> ->.
      right. split; [by left|done].
Qed.

(** How the side of an order and the signed side name go together. *)
Definition side_agrees (allow_short : bool) (s : Side) (name : pystr) : Prop :=
  match s with
  | BUY => name = SIDE_BUY
  | SELL => name = SIDE_SELL ∨ allow_short = true ∧ name = SIDE_SELL_SHORT
  end.

Definition type_name (t : OrderType) : pystr :=
  match t with
  | MARKET => u "MARKET" | LIMIT => u "LIMIT" | STOP => u "STOP" | STOP_LIMIT => u "STOP_LIMIT"
  end.

Lemma lookup_sides v name s : _lookup _SIDES v name = Ok s →
  v = 1 ∧ s = BUY ∨ v = 2 ∧ s = SELL.
Proof.
  unfold _lookup, _SIDES. cbn. destruct (Z.eqb_spec v 1); [intros; simplify_eq; by left|].
  destruct (Z.eqb_spec v 2); [intros; simplify_eq; by right|done].
Qed.

Lemma lookup_types v name p : _lookup _TYPES v name = Ok p → p.1 = type_name p.2.
Proof.
  unfold _lookup, _TYPES. cbn.
  repeat match goal with |- context [if ?b then _ else _] => destruct b end; try done;
    by intros [= <-].
Qed.

Lemma build_order_inv m o :
  _build_order m = Ok o → int64 (m_quantity_nanos m) → int64 (m_limit_price_nanos m) →
  int64 (m_stop_price_nanos m) →
  order_id o = m_order_id m ∧ signal_id o = m_signal_id m ∧ symbol o = m_symbol m ∧
  (m_side m = 1 ∧ side o = BUY ∨ m_side m = 2 ∧ side o = SELL) ∧
  _lookup _TYPES (m_order_type m) (u "order_type") = Ok (type_name (order_type o), order_type o) ∧
  in_nanos (quantity o) (m_quantity_nanos m) ∧ in_nanos (limit_price o) (m_limit_price_nanos m) ∧
  in_nanos (stop_price o) (m_stop_price_nanos m) ∧ order_valid o = true.
Proof.
  unfold _build_order, int64. intros H Hq Hl Hs. ok_inv.
  match type of H with context [order_error_count ?x] => destruct (order_error_count x) eqn:Ec end;
    [|done]. ok_inv. subst o. unfold order_valid. rewrite Ec.
  apply lookup_sides in E. pose proof (lookup_types _ _ _ E0) as Ht.
  apply from_nanos_in in E1; [|lia]. apply from_nanos_in in E2; [|lia]. apply from_nanos_in in E3; [|lia].
  cbn [order_id signal_id symbol side order_type quantity limit_price stop_price].
  ands; try done. destruct a0 as [n y]. cbn in *. by rewrite Ht.
Qed.

Lemma candidate_sides z allow_short names name s :
  candidate_side_names z allow_short = Ok names → name ∈ names →
  (z = 1 ∧ s = BUY ∨ z = 2 ∧ s = SELL) → side_agrees allow_short s name.
Proof.
  unfold candidate_side_names. intros H Hin [[-> ->]|[-> ->]]; cbn in H; apply Ok_inj in H; subst names.
  - by apply list_elem_of_singleton in Hin.
  - destruct allow_short; cbn; [|apply list_elem_of_singleton in Hin; by left].
    apply elem_of_cons in Hin as [|Hin%list_elem_of_singleton]; [by left|by right].
Qed.

Lemma attested_inv o t sh a :
  attested_order_from_proto o t sh = Ok a → int64 (m_quantity_nanos o) →
  int64 (m_limit_price_nanos o) → int64 (m_stop_price_nanos o) →
  _check_consistency o t = Ok tt ∧ _build_order o = Ok (order a) ∧
  side_agrees sh (side (order a)) (attested_side (attestation a)) ∧
  build_canonical_text (signed_fields o t (type_name (order_type (order a)))
                          (attested_side (attestation a)))
  = Ok (signed_payload (attestation a)) ∧
  key_id (attestation a) = t_key_id t ∧ signature (attestation a) = t_signature t.
Proof.
  unfold attested_order_from_proto. intros H Hq Hl Hs. ok_inv. subst a. cbn [order attestation].
  destruct a0. destruct a2 as [text name]. unfold _select_signed_text in E1. ok_inv.
  pose proof (build_order_inv _ _ E0 Hq Hl Hs) as (_ & _ & _ & Hside & Hty & _).
  apply select_loop_inv in E1 as [(? & ? & _)|[Hin Hc]]; [done|].
  cbn [attested_side signed_payload key_id signature fst snd].
  split_and!; try done; [by eapply candidate_sides|].
  unfold canonical_attestation_text in Hc. rewrite Hty in Hc. exact Hc.
Qed.

(** ** Properties *)

(** Nanos are exact both ways. Every non-negative int64 amount of a message becomes a decimal
    whose value is that amount, and converting it back, as the execution report does, gives the
    same integer; nothing is rounded on the money path. *)
Theorem nanos_roundtrip v name :
  0 ≤ v < 2 ^ 63 →
  ∃ d, from_nanos v name = Ok d ∧ fits (-9) d ∧ sc (-9) d = v ∧ to_nanos d = Ok v.
Proof.
  intros Hv. destruct (from_nanos_exact v name Hv) as (d & E & F & S).
  exists d. split_and!; [done..|]. by apply to_nanos_value.
Qed.

Lemma nanos_roundtrip_witness :
  ∃ d, from_nanos 9223372036854775807 (u "quantity_nanos") = Ok d ∧
       format_f d = u "9223372036.854775807" ∧ to_nanos d = Ok 9223372036854775807.
Proof.
  destruct (nanos_roundtrip 9223372036854775807 (u "quantity_nanos")) as (d & E & _ & _ & H);
    [split; vm_compute; congruence|].
  exists d. split; [exact E|]. split; [|exact H].
  assert (format_f <$> from_nanos 9223372036854775807 (u "quantity_nanos")
          = Ok (u "9223372036.854775807")) as Hf by (vm_compute; reflexivity).
  rewrite E in Hf. injection Hf as Hf. exact Hf.
Defined.

(** C37: What is executed is what was signed. If a request converts to an order and its attestation
    passes the gate, then the verifier accepted the signature over a payload such that every set
    of signed fields with that canonical text - in particular the one Aegis signed - describes
    exactly this order: its id (equal to the signal id), symbol, type, the side (a signed
    SELL_SHORT only when shorts are allowed), and the quantity and prices to the nano. The amounts
    of the request are int64, as protobuf has them. *)
Theorem executed_order_is_signed_order o t sh a verify g :
  attested_order_from_proto o t sh = Ok a → int64 (m_quantity_nanos o) →
  int64 (m_limit_price_nanos o) → int64 (m_stop_price_nanos o) →
  evaluate_attestation verify a = None →
  build_canonical_text g = Ok (signed_payload (attestation a)) →
  sf_side g ∈ [SIDE_BUY; SIDE_SELL; SIDE_SELL_SHORT] →
  verify (signed_payload (attestation a)) (t_signature t) (t_key_id t) = Ok true ∧
  order_id (order a) = sf_signal_id g ∧ symbol (order a) = sf_symbol g ∧
  type_name (order_type (order a)) = sf_order_type g ∧
  side_agrees sh (side (order a)) (sf_side g) ∧
  in_nanos (quantity (order a)) (sf_qty_nanos g) ∧
  in_nanos (limit_price (order a)) (sf_limit_price_nanos g) ∧
  in_nanos (stop_price (order a)) (sf_stop_price_nanos g) ∧
  t_key_id t = sf_key_id g ∧ t_expires_at_ns t = sf_expires_at_ns g ∧
  t_decided_at_ns t = sf_decided_at_ns g.
Proof.
  intros Ha Hq Hl Hs Hev Hg Sg.
  destruct (attested_inv _ _ _ _ Ha Hq Hl Hs) as (Hc & Hb & Hside & Htext & Hk & Hsig).
  destruct (build_order_inv _ _ Hb Hq Hl Hs) as (Hid & Hsid & Hsym & _ & _ & Dq & Dl & Ds & _).
  assert (line_ok (sf_side g) ∧ line_ok (attested_side (attestation a))) as [L1 L2].
  { assert (∀ s, s ∈ [SIDE_BUY; SIDE_SELL; SIDE_SELL_SHORT] → line_ok s) as Hline.
    { intros s. rewrite !elem_of_cons, elem_of_nil. intros [->|[->|[->|[]]]]; by apply line_ok_u. }
    split; [by apply Hline|]. apply Hline. rewrite !elem_of_cons.
    destruct (side (order a)); cbn in Hside; [auto|]. destruct Hside as [->|[_ ->]]; auto. }
  pose proof (canonical_text_inj _ _ _ Hg Htext L1 L2) as ->.
  apply evaluate_accepts in Hev. rewrite Hsig, Hk in Hev.
  cbn [signed_fields sf_signal_id sf_symbol sf_side sf_order_type sf_qty_nanos sf_limit_price_nanos
       sf_stop_price_nanos sf_key_id sf_expires_at_ns sf_decided_at_ns].
  ands; try done.
  rewrite Hid. unfold _check_consistency in Hc. destruct (negb (m_status o =? _)); [done|].
  destruct (negb (str_eqb _ CANONICAL_VERSION)); [done|].
  destruct (str_eqb (m_order_id o) (m_signal_id o)) eqn:E; [by apply str_eqb_true|done].
Qed.

(** ** A concrete signed request *)

Definition sim_fields (id : pystr) : SignedFields :=
  mkSigned id (u "AAPL") SIDE_SELL (u "LIMIT") 1500000000 100250000000 0 900 5000 3 (u "cfg")
    (u "hsm-1").
Definition sim_text (id : pystr) : pybytes :=
  match build_canonical_text (sim_fields id) with Ok t => t | Raise _ => [] end.
Definition sim_request (id : pystr) : OrderRequest :=
  mkOrderRequest id id (u "AAPL") 1 2 2 1 0 1500000000 100250000000 0 [] (u "0.0") (u "0.0") (u "0.0")
    [7]%N (u "hsm-1") 5000.
Definition sim_attestation (id : pystr) : AttestationMsg :=
  mkAttestationMsg [7]%N (u "hsm-1") (sha256 (sim_text id)) 900 5000 3 (u "cfg") CANONICAL_VERSION.

Lemma executed_order_is_signed_order_witness :
  ∃ a, attested_order_from_proto (sim_request (u "sig-1")) (sim_attestation (u "sig-1")) false = Ok a ∧
       in_nanos (quantity (order a)) 1500000000 ∧ in_nanos (limit_price (order a)) 100250000000.
Proof.
  set (o := sim_request (u "sig-1")). set (t := sim_attestation (u "sig-1")).
  assert (evaluate_attestation (λ _ _ _, Ok true) <$> attested_order_from_proto o t false = Ok None)
    as Hev by (vm_compute; reflexivity).
  assert ((λ a, (signed_payload (attestation a), type_name (order_type (order a)),
                 attested_side (attestation a))) <$> attested_order_from_proto o t false
          = Ok (sim_text (u "sig-1"), u "LIMIT", SIDE_SELL)) as Hp by (vm_compute; reflexivity).
  destruct (attested_order_from_proto o t false) as [a|e] eqn:E; [|discriminate Hev].
  apply Ok_inj in Hev, Hp. injection Hp as Hp1 Hp2 Hp3. exists a. split; [reflexivity|].
  destruct (executed_order_is_signed_order o t false a (λ _ _ _, Ok true) (sim_fields (u "sig-1")) E)
    as (_ & _ & _ & _ & _ & H1 & H2 & _).
  - split; vm_compute; congruence.
  - split; vm_compute; congruence.
  - split; vm_compute; congruence.
  - exact Hev.
  - rewrite Hp1. vm_compute. reflexivity.
  - right. left.
  - split; [exact H1|exact H2].
Defined.
