(* ===== verification/Compliance.v ===== *)
(** * Execution motor: compliance gates ([compliance.py])

    The binding of the unsigned context to the signed decision, the SHARP gate, the manifest as
    the release check, and the configuration that decides which gates are on. The manifest
    builder and store, the proposal store and the fold of a proposal's history belong to other
    packages and are parameters here. *)
From S2P Require Import Prelude PyStr Json MotorModels Limits MotorConfig Attest.
From S2P Require Import ProtoAdapter Motor.

(** ** Messages ([aegis.proto], [execution_motor.proto]) *)

Record AegisDecision := mkAegisDecision {
  d_decision : Z;
  d_signal_id : pystr;
  d_order : option OrderRequest;          (** [HasField("order")] *)
  d_attestation : option AttestationMsg;
}.

Record TradeSignal := mkTradeSignal {
  s_signal_id : pystr; s_symbol : pystr; s_strategy_id : pystr }.
Record MarketSnapshot := mkSnapshot { n_symbol : pystr }.
Record ExecutionContext := mkContext {
  c_signal : option TradeSignal; c_snapshot : option MarketSnapshot }.

(** Reading an absent message field gives the default message. *)
Definition default_order : OrderRequest :=
  mkOrderRequest [] [] [] 0 0 0 0 0 0 0 0 [] (u "0.0") (u "0.0") (u "0.0") [] [] 0.
Definition order_of (d : AegisDecision) : OrderRequest := default default_order (d_order d).

(** ** Gates *)

Record ContextRefusal := mkRefusal { cr_reason : RejectReason; cr_detail : pystr }.

Definition _DETAIL_CHARS : nat := 200.
Definition _TRUE : list pystr := [u "1"; u "true"; u "yes"].

(** [f"{type(exc).__name__}: {exc}"[:200]]. *)
Definition _short (e : exn) : pystr :=
  slice_to _DETAIL_CHARS (exn_name (exn_kind e) ++ u ": " ++ exn_msg e).

Definition bind_context (d : AegisDecision) (c : ExecutionContext) : option ContextRefusal :=
  let order := order_of d in
  match c_signal c, c_snapshot c with
  | Some signal, Some snapshot =>
      if bool_decide (s_signal_id signal = [])
         || negb (str_eqb (s_signal_id signal) (d_signal_id d)
                  && str_eqb (d_signal_id d) (m_signal_id order)) then
        Some (mkRefusal CONTEXT_MISMATCH (u "signal_id differs from decision"))
      else if negb (str_eqb (s_symbol signal) (m_symbol order)
                    && str_eqb (m_symbol order) (n_symbol snapshot)) then
        Some (mkRefusal CONTEXT_MISMATCH (u "symbol differs from decision"))
      else if is_blank (s_strategy_id signal) then
        Some (mkRefusal CONTEXT_MISMATCH (u "signal has no strategy_id"))
      else None
  | _, _ => Some (mkRefusal CONTEXT_MISSING (u "context lacks signal or snapshot"))
  end.

(** [StrategyGate.check] and [ManifestWriter.write] at the n-th external call. *)
Definition StrategyGate : Type := nat → pystr → option pystr.
Definition ManifestWriter : Type := nat → AegisDecision → ExecutionContext → result pystr.

Record ComplianceGates := mkGates {
  manifest : option ManifestWriter; strategy_gate : option StrategyGate }.
Definition DISABLED : ComplianceGates := mkGates None None.

Definition requires_context (g : ComplianceGates) : bool :=
  bool_decide (is_Some (manifest g)) || bool_decide (is_Some (strategy_gate g)).

Definition check_strategy (g : ComplianceGates) (n : nat) (strategy_id : pystr) : option pystr :=
  match strategy_gate g with None => None | Some check => check n strategy_id end.

Definition release_check (g : ComplianceGates) (d : AegisDecision) (c : ExecutionContext)
  : option ReleaseCheck :=
  match manifest g with
  | None => None
  | Some write =>
      Some (λ n, match write n d c with
                 | Ok _ => Ok None
                 | Raise e => Ok (Some (u "manifest not stored: " ++ _short e))
                 end)
  end.

(** ** SharpStrategyGate *)

Section sharp_gate.
(** A stored history, [store.load] and the state [fold] finds for it ([str(...)]). *)
Context {History : Type} (load : pystr → result (list History)).
Context (fold_state : list History → result pystr).

(** [sorted(self._allowed)] as a Python list. *)
Definition repr_list (l : list pystr) : pystr := u "[" ++ join (u ", ") (repr_str <$> l) ++ u "]".

Definition sharp_check (strategies : gmap pystr pystr) (allowed : list pystr) (strategy_id : pystr)
  : option pystr :=
  match strategies !! strategy_id with
  | None => Some (u "strategy " ++ repr_str strategy_id ++ u " has no SHARP proposal mapping")
  | Some proposal_id =>
      let unverifiable e :=
        Some (u "SHARP state of " ++ repr_str proposal_id ++ u " unverifiable: " ++ _short e) in
      match load proposal_id with
      | Raise e => unverifiable e
      | Ok [] => Some (u "SHARP proposal " ++ repr_str proposal_id ++ u " does not exist")
      | Ok history =>
          match fold_state history with
          | Raise e => unverifiable e
          | Ok state =>
              if bool_decide (state ∈ allowed) then None
              else Some (u "SHARP proposal " ++ repr_str proposal_id ++ u " is " ++ state
                         ++ u ", not " ++ repr_list allowed)
          end
      end
  end.
End sharp_gate.

(** [file] is what [path.read_text] gives; the messages leave out the path and the cause. *)
Definition load_strategy_map (file : result pystr) : result (gmap pystr pystr) :=
  let unreadable := raise ConfigError (u "cannot read SHARP strategy map") in
  match file with
  | Raise e => if persist_caught (exn_kind e) then unreadable else Raise e
  | Ok text =>
      match loads text with
      | None => unreadable
      | Some (JObj ((k, v) :: m)) =>
          if forallb (λ kv, negb (is_blank kv.1)
                            && match kv.2 with JStr s => negb (is_blank s) | _ => false end)
               ((k, v) :: m)
          then Ok (list_to_map ((λ kv, (kv.1, match kv.2 with JStr s => s | _ => [] end))
                                  <$> ((k, v) :: m)))
          else raise ConfigError (u "SHARP strategy map keys and values must be non-empty strings")
      | Some _ => raise ConfigError (u "SHARP strategy map must be a non-empty JSON object")
      end
  end.

(** ** Configuration *)

Record ComplianceConfig := mkComplianceConfig {
  manifest_dir : option pystr; strategy_map_file : option pystr; allow_canary : bool;
  audit_actor : pystr }.

(** [env.get(name, "").strip().lower() in _TRUE]. *)
Definition env_true (env : environ) (name : pystr) : bool :=
  bool_decide (lower (strip (default [] (env !! name))) ∈ _TRUE).

Definition _required_path (env : environ) (name : pystr) : result pystr :=
  let value := strip (default [] (env !! name)) in
  if bool_decide (value = []) then
    raise ConfigError (name ++ u " is required (or disable the gate outside production)")
  else Ok value.

Definition compliance_from_env (env : environ) (production : bool) : result ComplianceConfig :=
  let manifest_off := env_true env (u "MOTOR_MANIFEST_DISABLED") in
  let sharp_off := env_true env (u "MOTOR_SHARP_DISABLED") in
  if production && (manifest_off || sharp_off) then
    raise ConfigError
      (u "MOTOR_MANIFEST_DISABLED / MOTOR_SHARP_DISABLED are refused in production")
  else
    dir ← (if manifest_off then Ok None
           else p ← _required_path env (u "MOTOR_MANIFEST_DIR"); Ok (Some p));
    file ← (if sharp_off then Ok None
            else p ← _required_path env (u "MOTOR_SHARP_STRATEGY_MAP"); Ok (Some p));
    let actor := strip (default (u "execution-motor") (env !! u "MOTOR_AUDIT_ACTOR")) in
    Ok (mkComplianceConfig dir file (env_true env (u "MOTOR_SHARP_ALLOW_CANARY"))
          (if bool_decide (actor = []) then u "execution-motor" else actor)).

Definition needs_audit_db (c : ComplianceConfig) : bool :=
  bool_decide (is_Some (manifest_dir c)) || bool_decide (is_Some (strategy_map_file c)).

Definition allowed_states (c : ComplianceConfig) : list pystr :=
  if allow_canary c then [u "CANARY"; u "PROMOTED"] else [u "PROMOTED"].

(** The gates over the Zone C libraries: [source] is what [DsnConnectionSource.from_env] gives,
    [store] the manifest writer over the filesystem store, [load] and [fold_state] their proposal
    store and fold at the n-th external call. *)
Definition build_compliance {History} (c : ComplianceConfig) (source : result unit)
    (store : result ManifestWriter) (map_file : result pystr)
    (load : nat → pystr → result (list History)) (fold_state : list History → result pystr)
  : result ComplianceGates :=
  if negb (needs_audit_db c) then Ok DISABLED
  else
    _ ← source;
    m ← (match manifest_dir c with Some _ => w ← store; Ok (Some w) | None => Ok None end);
    match strategy_map_file c with
    | None => Ok (mkGates m None)
    | Some _ =>
        strategies ← load_strategy_map map_file;
        Ok (mkGates m (Some (λ n, sharp_check (load n) fold_state strategies (allowed_states c))))
    end.

(** ** Production *)

Lemma production_gates {History} env cfg g source store map_file
    (load : nat → pystr → result (list History)) fold_state :
  compliance_from_env env true = Ok cfg →
  build_compliance cfg source store map_file load fold_state = Ok g →
  requires_context g = true ∧ (∃ writer, store = Ok writer ∧ manifest g = Some writer) ∧
  ∀ n strategy_id, check_strategy g n strategy_id = None →
    ∃ strategies proposal_id h history state,
      load_strategy_map map_file = Ok strategies ∧ strategies !! strategy_id = Some proposal_id ∧
      load n proposal_id = Ok (h :: history) ∧ fold_state (h :: history) = Ok state ∧
      (state = u "PROMOTED" ∨ allow_canary cfg = true ∧ state = u "CANARY").
Proof.
  unfold compliance_from_env. intros H Hb.
  destruct (env_true env (u "MOTOR_MANIFEST_DISABLED")); [done|].
  destruct (env_true env (u "MOTOR_SHARP_DISABLED")); [done|]. cbn [andb orb] in H.
  apply bind_ok in H as (dir & Hd & H). apply bind_ok in H as (file & Hf & H).
  apply bind_ok in Hd as (p1 & _ & Hd). apply bind_ok in Hf as (p2 & _ & Hf).
  apply Ok_inj in H, Hd, Hf. subst dir file cfg.
  unfold build_compliance, needs_audit_db in Hb. cbn [manifest_dir strategy_map_file] in Hb.
  rewrite (bool_decide_eq_true_2 (is_Some (Some p1))) in Hb by done.
  cbn [orb negb] in Hb. apply bind_ok in Hb as (_ & _ & Hb).
  apply bind_ok in Hb as (m & Hw & Hb). apply bind_ok in Hw as (w & Hw & Hm'). apply Ok_inj in Hm'.
  apply bind_ok in Hb as (strategies & Hm & Hb). apply Ok_inj in Hb. subst g m.
  split; [|split; [by exists w|]].
  - unfold requires_context. cbn [manifest]. by rewrite bool_decide_eq_true_2.
  - intros n sid. unfold check_strategy, sharp_check. cbn [strategy_gate].
    destruct (strategies !! sid) as [pid|] eqn:Hs; [|done].
    destruct (load n pid) as [[|h history]|] eqn:Hl; [done| |done].
    destruct (fold_state (h :: history)) as [state|] eqn:Hf; [|done].
    case_bool_decide as Hin; [|done]. intros _.
    exists strategies, pid, h, history, state. ands; try done.
    revert Hin. unfold allowed_states. cbn [allow_canary].
    destruct (env_true env (u "MOTOR_SHARP_ALLOW_CANARY")); rewrite !elem_of_cons, elem_of_nil;
      tauto.
Qed.

(** ** Properties *)

(** In production both compliance gates are on: a configuration accepted for production names a
    manifest directory and a strategy map, so the gates built from it require a context, hold a
    manifest writer, and let a strategy through only when it is mapped to a proposal whose
    verified state is PROMOTED (or CANARY, when that was opted in). *)
Theorem production_gates_on {History} env cfg g source store map_file
    (load : nat → pystr → result (list History)) fold_state :
  compliance_from_env env true = Ok cfg →
  build_compliance cfg source store map_file load fold_state = Ok g →
  requires_context g = true ∧ (∃ writer, store = Ok writer ∧ manifest g = Some writer) ∧
  ∀ n strategy_id, check_strategy g n strategy_id = None →
    ∃ strategies proposal_id h history state,
      load_strategy_map map_file = Ok strategies ∧ strategies !! strategy_id = Some proposal_id ∧
      load n proposal_id = Ok (h :: history) ∧ fold_state (h :: history) = Ok state ∧
      (state = u "PROMOTED" ∨ allow_canary cfg = true ∧ state = u "CANARY").
Proof. apply production_gates. Qed.

Definition sim_compliance_env : environ :=
  {[ u "MOTOR_MANIFEST_DIR" := u "/data"; u "MOTOR_SHARP_STRATEGY_MAP" := u "/map.json" ]}.
Definition sim_map : result pystr := Ok (qq (u "{'strat-1': 'prop-1'}")).

Lemma production_gates_on_witness :
  ∃ cfg g, compliance_from_env sim_compliance_env true = Ok cfg ∧
    build_compliance cfg (Ok tt) (Ok (λ _ _ _, Ok [])) sim_map (λ _ _, Ok [tt]) (λ _, Ok (u "PROMOTED")) = Ok g ∧
    check_strategy g 0 (u "strat-1") = None ∧ requires_context g = true.
Proof.
  destruct (compliance_from_env sim_compliance_env true) as [cfg|] eqn:E; [|vm_compute in E; discriminate].
  destruct (build_compliance cfg (Ok tt) (Ok (λ _ _ _, Ok [])) sim_map (λ _ _, Ok [tt]) (λ _, Ok (u "PROMOTED")))
    as [g|] eqn:Eg.
  2: { vm_compute in E. apply Ok_inj in E. rewrite <- E in Eg. vm_compute in Eg. discriminate. }
  exists cfg, g. split; [reflexivity|]. split; [exact Eg|]. split.
  - vm_compute in E. apply Ok_inj in E. rewrite <- E in Eg. vm_compute in Eg. apply Ok_inj in Eg.
    rewrite <- Eg. vm_compute. reflexivity.
  - exact (proj1 (production_gates_on _ _ _ _ _ _ _ _ E Eg)).
Defined.
