(* ===== verification/Service.v ===== *)
(** * Execution motor: the service ([service.py], [grpc_service.py])

    From a generated message to a report: what a decision must be before the motor sees it, which
    reports go back to Aegis, and the acknowledgement the RPC returns. The reporter and the
    generated message class are parameters. *)
From S2P Require Import Prelude PyStr PyDecimal DecimalFacts Json MotorModels Limits Halt.
From S2P Require Import Attest MotorConfig Toxicity Sor Motor ProtoAdapter Compliance.

Definition _DECISION_APPROVED : Z := 1.

(** [ExecuteRequest]; an absent decision reads as the default one. *)
Record ExecuteRequest := mkExecuteRequest {
  r_decision : AegisDecision; r_context : option ExecutionContext }.

(** [a or b] on strings. *)
Definition or_str (a b : pystr) : pystr := if bool_decide (a = []) then b else a.

Definition _invalid_report (d : AegisDecision) (detail : pystr) (now : Z) (reason : RejectReason)
  : result ExecutionReport :=
  let o := order_of d in
  make_report {|
    rep_order_id := or_str (m_order_id o) (u "unknown");
    rep_client_order_id := or_str (m_order_id o) (u "unknown");
    rep_signal_id := or_str (or_str (d_signal_id d) (m_signal_id o)) (u "unknown");
    rep_symbol := or_str (m_symbol o) (u "unknown"); rep_side := None; status := REJECTED;
    requested_quantity := D_ZERO; reject_reason := Some reason;
    reject_detail := slice_to 300 detail; broker_order_id := None; venue := None; fills := [];
    arrival_price := None; received_at_ns := now; submitted_at_ns := None; updated_at_ns := now |}.

(** Only an order that reached the broker is reported to Aegis. *)
Definition reached_broker (r : ExecutionReport) : bool :=
  if negb (bool_decide (status r = REJECTED)) then true
  else bool_decide (reject_reason r = Some BROKER_REJECTED).

(** A complete APPROVED decision as an attested order, else the refusal. *)
Definition _attested (allow_short : bool) (d : AegisDecision) (now : Z)
  : result (AttestedOrder + ExecutionReport) :=
  let refuse detail := rep ← _invalid_report d detail now INVALID_ORDER; Ok (inr rep) in
  if negb (d_decision d =? _DECISION_APPROVED) then refuse (u "decision is not APPROVED")
  else match d_order d, d_attestation d with
  | Some o, Some t =>
      match attested_order_from_proto o t allow_short with
      | Ok a => Ok (inl a)
      | Raise e => if bool_decide (exn_kind e = OrderValidationError) then refuse (exn_msg e)
                   else Raise e
      end
  | _, _ => refuse (u "APPROVED decision lacks order or attestation")
  end.

(** ** Reports for Aegis *)

(** The fields given to the generated [aegis.proto ExecutionReport]. *)
Record ReportFields := mkReportFields {
  f_order_id : pystr; f_signal_id : pystr; f_symbol : pystr; f_side : Z; f_status : Z;
  f_filled_qty_nanos : Z; f_avg_fill_price_nanos : Z; f_account_equity_nanos : Z;
  f_reported_at_ns : Z }.

Definition _SIDE_ENUM (s : Side) : Z := match s with BUY => 1 | SELL => 2 end.
Definition _STATUS_ENUM (s : ExecutionStatus) : Z :=
  match s with
  | ACCEPTED => 1 | PARTIALLY_FILLED => 2 | FILLED => 3 | CANCELLED => 4 | EXPIRED => 4
  | REJECTED => 5 | UNKNOWN => 1
  end.

Definition to_aegis_execution_report {Msg} (message_cls : ReportFields → result Msg)
    (r : ExecutionReport) (account_equity : decimal) (reported_at_ns : Z) : result Msg :=
  avg ← avg_fill_price r;
  filled ← filled_quantity r;
  filled_nanos ← to_nanos filled;
  avg_nanos ← (match avg with Some a => to_nanos a | None => Ok 0 end);
  equity_nanos ← to_nanos account_equity;
  message_cls (mkReportFields (rep_order_id r) (rep_signal_id r) (rep_symbol r)
    (match rep_side r with Some s => _SIDE_ENUM s | None => 0 end) (_STATUS_ENUM (status r))
    filled_nanos avg_nanos equity_nanos reported_at_ns).

(** ** The handlers *)

(** The motor, and the reports handed to the reporter (oldest first). *)
Record ServiceState (St : Type) := mkService {
  svc_motor : MotorState St; svc_reported : list ExecutionReport }.
Arguments mkService {St}.
Arguments svc_motor {St}.
Arguments svc_reported {St}.

(** [reporter.report_execution] at the n-th external call. *)
Definition ExecutionReporter : Type := nat → ExecutionReport → result bool.

(** The answer of [Execute] and [ExecuteWithContext]. *)
Record ExecuteAck := mkAck {
  ack_accepted : bool; ack_order_id : pystr; ack_status : pystr; ack_reject_reason : pystr;
  ack_detail : pystr }.
Record HealthStatus := mkHealth { h_ok : bool; h_halted : bool; h_detail : pystr }.

Definition _REACHED_BROKER_ACCEPTED : list ExecutionStatus := [ACCEPTED; PARTIALLY_FILLED; FILLED].

Definition _ack (r : ExecutionReport) : ExecuteAck :=
  mkAck (bool_decide (status r ∈ _REACHED_BROKER_ACCEPTED)) (rep_order_id r)
    (status_value (status r))
    (match reject_reason r with Some reason => reason_value reason | None => [] end)
    (reject_detail r).

Section service.
Context {St : Type} `{IdempotencyStore St}.
Context (env : MotorEnv) (reporter : option ExecutionReporter) (compliance : ComplianceGates).
Implicit Types s : ServiceState St.

Abbreviation SM := (M (ServiceState St)).

(** A step of the motor. *)
Definition on_motor {A} (m : M (MotorState St) A) : SM A := λ s,
  let '(r, motor) := m (svc_motor s) in (r, mkService motor (svc_reported s)).

Definition report_execution (report : ExecutionReport) : SM bool :=
  match reporter with
  | None => mret false
  | Some deliver =>
      n ← on_motor tick;
      _ ← modify (λ s, mkService (svc_motor s) (svc_reported s ++ [report]));
      lift (deliver n report)
  end.

Definition _execute (a : AttestedOrder) (ref : option decimal) (check : option ReleaseCheck)
  : SM ExecutionReport :=
  report ← on_motor (execute env a ref check);
  if bool_decide (is_Some reporter) && reached_broker report then
    _ ← report_execution report; mret report
  else mret report.

Definition handle_decision (d : AegisDecision) (now : Z) (ref : option decimal) : SM ExecutionReport :=
  if requires_context compliance then
    lift (_invalid_report d (u "compliance is enforced: use ExecuteWithContext") now CONTEXT_MISSING)
  else
    attested ← lift (_attested (allow_short_selling (_config env)) d now);
    match attested with
    | inr refusal => mret refusal
    | inl a => _execute a ref None
    end.

Definition handle_request (q : ExecuteRequest) (now : Z) (ref : option decimal) : SM ExecutionReport :=
  let d := r_decision q in
  attested ← lift (_attested (allow_short_selling (_config env)) d now);
  match attested with
  | inr refusal => mret refusal
  | inl a =>
      match r_context q with
      | None => lift (_invalid_report d (u "request has no context") now CONTEXT_MISSING)
      | Some c =>
          match bind_context d c with
          | Some refusal => lift (_invalid_report d (cr_detail refusal) now (cr_reason refusal))
          | None =>
              let strategy_id := default [] (s_strategy_id <$> c_signal c) in
              n ← on_motor tick;
              match check_strategy compliance n strategy_id with
              | Some blocked => lift (_invalid_report d blocked now STRATEGY_NOT_PROMOTED)
              | None => _execute a ref (release_check compliance d c)
              end
          end
      end
  end.

(** *** [ExecutionMotorServicer] *)

Definition Execute (d : AegisDecision) : SM ExecuteAck :=
  now ← on_motor (clock env);
  report ← handle_decision d now None;
  mret (_ack report).

Definition ExecuteWithContext (q : ExecuteRequest) : SM ExecuteAck :=
  now ← on_motor (clock env);
  report ← handle_request q now None;
  mret (_ack report).

Definition Health : SM HealthStatus :=
  halted ← on_motor (kill_is_halted env);
  reason ← on_motor kill_reason;
  mret (mkHealth (negb halted) halted (if halted : bool then reason else [])).
End service.

(** ** What a handler does to the motor *)

Section service_facts.
Context {St : Type} `{IdempotencyLaws St}.
Context (env : MotorEnv) (reporter : option ExecutionReporter) (compliance : ComplianceGates).
Implicit Types s : ServiceState St.

(** Sends, claims, reserves and reports nothing. *)
Definition idle (s s' : ServiceState St) : Prop :=
  frame (svc_motor s) (svc_motor s') ∧ svc_reported s' = svc_reported s.

#[global] Instance idle_preorder : PreOrder idle.
Proof.
  split; [intros s; split; reflexivity|]. intros s1 s2 s3 [F1 E1] [F2 E2].
  split; [by etransitivity|congruence].
Qed.

Lemma on_motor_idle {A} (m : M (MotorState St) A) : steps frame m → steps idle (on_motor m).
Proof.
  intros Hm s. specialize (Hm (svc_motor s)). unfold on_motor.
  destruct (m (svc_motor s)). by split.
Qed.

Lemma on_motor_inv {A} (m : M (MotorState St) A) s r s' :
  on_motor m s = (r, s') →
  m (svc_motor s) = (r, svc_motor s') ∧ svc_reported s' = svc_reported s.
Proof. unfold on_motor. destruct (m (svc_motor s)) as [r1 m1]. by intros [= <- <-]. Qed.

(** Exactly one order was sent on the way from [s] to [s']. *)
Definition sent_one (s s' : ServiceState St) (x : Sent) : Prop :=
  submits (svc_motor s') = submits (svc_motor s) ++ [x].

(** What the report list gained, for the report [rep] of the motor. *)
Definition reported_of (rep : result ExecutionReport) (s s' : ServiceState St) : Prop :=
  svc_reported s' = svc_reported s ∨
  ∃ r, rep = Ok r ∧ reached_broker r = true ∧ svc_reported s' = svc_reported s ++ [r].

Lemma report_execution_inv rep s r s' :
  report_execution reporter rep s = (r, s') → is_Some reporter →
  frame (svc_motor s) (svc_motor s') ∧ svc_reported s' = svc_reported s ++ [rep].
Proof.
  unfold report_execution. intros Ht [deliver Hd]. rewrite Hd in Ht.
  unfold mbind, M_bind, on_motor, tick, modify, lift in Ht. injection Ht as _ <-. cbn.
  split; [|done]. repeat split.
Qed.

Lemma execute_service_inv a ref chk s r s' :
  _execute env reporter a ref chk s = (r, s') →
  ∃ r0 m1, execute env a ref chk (svc_motor s) = (r0, m1) ∧ frame m1 (svc_motor s') ∧
    reported_of r0 s s' ∧ (∀ rep, r = Ok rep → r0 = Ok rep) ∧
    (∀ rep, r0 = Ok rep → reached_broker rep = true → is_Some reporter →
            svc_reported s' = svc_reported s ++ [rep]).
Proof.
  unfold _execute. intros He. m_step He; apply on_motor_inv in E as [Em Er].
  2: { subst r. exists (Raise e), (svc_motor s'). ands; try done. by left. }
  exists (Ok a0), (svc_motor s0). split; [done|].
  destruct (bool_decide (is_Some reporter) && reached_broker a0) eqn:Eb.
  - apply andb_true_iff in Eb as [Hsome Hb].
    assert (frame (svc_motor s0) (svc_motor s') ∧ svc_reported s' = svc_reported s0 ++ [a0] ∧
            ∀ rep, r = Ok rep → rep = a0) as (F & Hrep & Hr).
    { assert (is_Some reporter) as Hrep by (by apply bool_decide_eq_true in Hsome).
      m_step He; apply report_execution_inv in E as [F Hd]; try done.
      - injection He as <- <-. split_and!; try done. by intros rep [= ->].
      - split_and!; try done. by subst r. }
    ands; [done|right; exists a0; split_and!; congruence| |].
    + intros rep ->. f_equal. symmetry. by apply Hr.
    + intros rep [= <-] _ _. congruence.
  - injection He as <- <-. ands; [done|by left|done|].
    intros rep [= <-] Hb [d Hd]. rewrite Hb, Hd in Eb. done.
Qed.

Lemma invalid_report_inv d detail now reason r :
  _invalid_report d detail now reason = r →
  ∃ rep, r = Ok rep ∧ status rep = REJECTED ∧ reject_reason rep = Some reason.
Proof. intros <-. unfold _invalid_report. eexists. split; [reflexivity|]. done. Qed.

(** The order a decision carries, when it is complete and approved. *)
Definition approved (d : AegisDecision) (a : AttestedOrder) : Prop :=
  d_decision d = _DECISION_APPROVED ∧
  ∃ o t, d_order d = Some o ∧ d_attestation d = Some t ∧
    attested_order_from_proto o t (allow_short_selling (_config env)) = Ok a.

Lemma attested_cases d now x :
  _attested (allow_short_selling (_config env)) d now = Ok x →
  match x with inl a => approved d a | inr rep => pre_broker rep end.
Proof.
  unfold _attested. cbn zeta. intros Hx.
  assert (∀ detail, (rep ← _invalid_report d detail now INVALID_ORDER; Ok (inr rep)) = Ok x →
            match x with inl a => approved d a | inr rep => pre_broker rep end) as Href.
  { intros detail. destruct (invalid_report_inv d detail now INVALID_ORDER _ eq_refl)
      as (rep & -> & H1 & H2). intros [= <-]. split; [done|congruence]. }
  destruct (negb _) eqn:Ed; [by apply Href in Hx|]. apply negb_false_iff, Z.eqb_eq in Ed.
  destruct (d_order d) as [o|] eqn:Eo, (d_attestation d) as [t|] eqn:Et; try by apply Href in Hx.
  destruct (attested_order_from_proto o t _) as [a|e] eqn:Ea.
  - apply Ok_inj in Hx. subst x. split; [done|]. by exists o, t.
  - destruct (bool_decide _); [by apply Href in Hx|done].
Qed.

(** A handler either refuses before the motor, or runs the motor on the decision's order with
    a release check [chk] that [ok] allows. *)
Definition handled (d : AegisDecision) (ok : option ReleaseCheck → Prop) s
    (r : result ExecutionReport) s' : Prop :=
  idle s s' ∧ reported r pre_broker ∨
  ∃ a ref chk s1, idle s s1 ∧ approved d a ∧ ok chk ∧ _execute env reporter a ref chk s1 = (r, s').

Lemma handle_decision_inv d now ref s r s' :
  handle_decision env reporter compliance d now ref s = (r, s') →
  handled d (λ chk, chk = None ∧ requires_context compliance = false) s r s'.
Proof.
  unfold handle_decision. destruct (requires_context compliance) eqn:Er.
  { intros [= <- <-]. left. split; [reflexivity|].
    destruct (invalid_report_inv d (u "compliance is enforced: use ExecuteWithContext") now
                CONTEXT_MISSING _ eq_refl) as (rep & -> & H1 & H2). split; [done|congruence]. }
  intros Hr. m_step Hr; injection E as E <-; [|left; subst r; split; [reflexivity|done]].
  apply attested_cases in E. destruct a as [a|rep].
  - right. exists a, ref, None, s. by ands.
  - injection Hr as <- <-. left. split; [reflexivity|done].
Qed.

(** What lets a request past the compliance gates. *)
Definition compliant (q : ExecuteRequest) (chk : option ReleaseCheck) : Prop :=
  ∃ c signal snapshot n, r_context q = Some c ∧
    c_signal c = Some signal ∧ c_snapshot c = Some snapshot ∧
    bind_context (r_decision q) c = None ∧
    check_strategy compliance n (s_strategy_id signal) = None ∧
    chk = release_check compliance (r_decision q) c.

Lemma handle_request_inv q now ref s r s' :
  handle_request env reporter compliance q now ref s = (r, s') →
  handled (r_decision q) (compliant q) s r s'.
Proof.
  unfold handle_request. cbn zeta. intros Hr.
  assert (∀ detail reason s1, reason ≠ BROKER_REJECTED → idle s s1 →
    lift (_invalid_report (r_decision q) detail now reason) s1 = (r, s') →
    handled (r_decision q) (compliant q) s r s') as Href.
  { intros detail reason s1 Hn Hi [= Hd <-]. left. split; [done|].
    destruct (invalid_report_inv _ _ _ _ _ Hd) as (rep & -> & H1 & H2). split; [done|congruence]. }
  m_step Hr; injection E as E <-; [|left; subst r; split; [reflexivity|done]].
  apply attested_cases in E. destruct a as [a|rep].
  2: { injection Hr as <- <-. left. split; [reflexivity|done]. }
  destruct (r_context q) as [c|] eqn:Ec; [|by eapply Href; [..|exact Hr]].
  destruct (bind_context (r_decision q) c) as [refusal|] eqn:Eb.
  { eapply Href; [|reflexivity|exact Hr]. unfold bind_context in Eb.
    destruct (c_signal c), (c_snapshot c); repeat case_match; first [discriminate Eb|by injection Eb as <-]. }
  m_step Hr; apply on_motor_inv in E0 as [Et Ets]; [|done]. injection Et as Et Em.
  assert (idle s s0) as Hi by (split; [rewrite <- Em; done|done]).
  destruct (check_strategy _ _ _) as [blocked|] eqn:Es; [by eapply Href; [..|exact Hr]|].
  right. exists a, ref, (release_check compliance (r_decision q) c), s0. split; [done|]. split; [done|]. split; [|exact Hr].
  pose proof Eb as Eb'. unfold bind_context in Eb.
  destruct (c_signal c) as [signal|] eqn:E1; [|done]. destruct (c_snapshot c) as [snap|] eqn:E2; [|done].
  exists c, signal, snap, a0. by ands.
Qed.

(** A call of a handler sends at most one order; then its report is [handled]'s. *)
Lemma handled_sends d ok s r s' :
  handled d ok s r s' →
  (submits (svc_motor s') = submits (svc_motor s) ∧ svc_reported s' = svc_reported s ∧
   reported r pre_broker) ∨
  ∃ x a chk, sent_one s s' x ∧ approved d a ∧ ok chk ∧ released chk ∧
    sent_request x = broker_request (order a) ∧
    ∃ n k, kill_seen env n k = (false, sent_kill x) ∧ sent_call x = S (S n).
Proof.
  intros [[[(F & _ & _) E] Hr]|(a & ref & chk & s1 & [F E] & Ha & Hok & He)]; [by left|].
  apply execute_service_inv in He as (r0 & m1 & He & F1 & Hrep & Hr & _).
  destruct F as (Fs & _ & _), F1 as (Fs1 & _ & _).
  pose proof He as Hunsent. apply execute_inv in He as [(S1 & _ & _ & Href)|Hc].
  - left. rewrite Fs1, S1, Fs. split; [done|].
    assert (reported r pre_broker) as Hp.
    { destruct r as [rep|]; [|done]. rewrite (Hr _ eq_refl) in Href. done. }
    split; [|done]. destruct Hrep as [Hrep|(rep & -> & Hb & _)]; [congruence|].
    destruct Href as [H1 H2]. unfold reached_broker in Hb. rewrite H1 in Hb. cbn in Hb.
    apply bool_decide_eq_true in Hb. done.
  - destruct Hc as (n & s2 & (v & _ & _ & _ & _ & Hs) & S1 & _).
    destruct Hs as [[Hs Href]|(Hrel & k1 & i & k & _ & Hk & _ & Hs)].
    + left. assert (submits m1 = submits (svc_motor s1)) as Hm by congruence.
      split; [congruence|].
      assert (∀ rep, r0 = Ok rep → pre_broker rep) as Hpre.
      { intros rep ->. by eapply execute_unsent. }
      split; [|destruct r as [rep|]; [|done]; by apply Hpre, Hr].
      destruct Hrep as [Hrep|(rep & -> & Hb & _)]; [congruence|].
      destruct (Hpre rep eq_refl) as [H1 H2]. unfold reached_broker in Hb. rewrite H1 in Hb. cbn in Hb.
      apply bool_decide_eq_true in Hb. done.
    + right. eexists _, a, chk. unfold sent_one. rewrite Fs1, S1, Hs, Fs. ands; eauto.
Qed.
End service_facts.

(** ** Properties *)

Section service_properties.
Context {St : Type} `{IdempotencyLaws St}.
Implicit Types s : ServiceState St.

(** What the signed decision, the unsigned context and the gates must say for the order of [q] to
    be sent: the context speaks of the signed order, the strategy is let through, and the manifest
    was stored. *)
Definition bound (compliance : ComplianceGates) (q : ExecuteRequest) (a : AttestedOrder) : Prop :=
  let d := r_decision q in
  ∃ c signal snapshot n, r_context q = Some c ∧ c_signal c = Some signal ∧
    c_snapshot c = Some snapshot ∧
    s_signal_id signal = d_signal_id d ∧ d_signal_id d = m_signal_id (order_of d) ∧
    s_symbol signal = m_symbol (order_of d) ∧ n_symbol snapshot = m_symbol (order_of d) ∧
    is_blank (s_strategy_id signal) = false ∧
    check_strategy compliance n (s_strategy_id signal) = None ∧
    ∀ write, manifest compliance = Some write → ∃ n' id, write n' d c = Ok id.

Lemma bind_context_ok d c signal snapshot :
  c_signal c = Some signal → c_snapshot c = Some snapshot → bind_context d c = None →
  s_signal_id signal = d_signal_id d ∧ d_signal_id d = m_signal_id (order_of d) ∧
  s_symbol signal = m_symbol (order_of d) ∧ n_symbol snapshot = m_symbol (order_of d) ∧
  is_blank (s_strategy_id signal) = false.
Proof.
  unfold bind_context. intros -> ->.
  case_match eqn:E1; [done|]. case_match eqn:E2; [done|]. case_match; [done|]. intros _.
  apply orb_false_iff in E1 as [_ E1]. apply negb_false_iff, andb_true_iff in E1 as [E3 E4], E2 as [E5 E6].
  apply str_eqb_true in E3, E4, E5, E6. by ands.
Qed.

(** Nothing is sent for a request that is not approved, bound and compliant. A call of
    [ExecuteWithContext] sends at most one order; if it sends one, the decision is APPROVED, its
    order and attestation convert, what is sent is that order, the context's signal and
    snapshot name the same signal and symbol as the signed order and a strategy, the strategy
    gate let the strategy through, and the compliance manifest was stored. *)
Theorem request_sends_compliant env reporter compliance q s r s' :
  ExecuteWithContext env reporter compliance q s = (r, s') →
  submits (svc_motor s') = submits (svc_motor s) ∨
  ∃ x a, sent_one s s' x ∧ approved env (r_decision q) a ∧
    sent_request x = broker_request (order a) ∧ bound compliance q a.
Proof.
  unfold ExecuteWithContext. intros Hr. m_step Hr; apply on_motor_inv in E as [E _]; [|done].
  injection E as _ Em. assert (submits (svc_motor s0) = submits (svc_motor s)) as H0' by by rewrite <- Em.
  assert (∀ r1, handle_request env reporter compliance q a None s0 = (r1, s') →
            submits (svc_motor s') = submits (svc_motor s) ∨
            ∃ x a, sent_one s s' x ∧ approved env (r_decision q) a ∧
              sent_request x = broker_request (order a) ∧ bound compliance q a) as Hh.
  { intros r1 H1. apply handle_request_inv, handled_sends in H1 as
      [(H1 & _)|(x & b & chk & Hs & Ha & Hok & Hrel & Hx & _)]; [left; congruence|right].
    exists x, b. unfold sent_one in *. rewrite <- H0'. ands; try done.
    destruct Hok as (c & signal & snap & n & Hc & Hsig & Hsnap & Hb & Hst & ->).
    destruct (bind_context_ok _ _ _ _ Hsig Hsnap Hb) as (B1 & B2 & B3 & B4 & B5).
    exists c, signal, snap, n. ands; try done. intros write Hw. unfold release_check in Hrel.
    rewrite Hw in Hrel. destruct Hrel as [n' Hn]. exists n'.
    destruct (write n' (r_decision q) c) as [id|e]; [by exists id|done]. }
  m_step Hr; [injection Hr as _ <-|]; by eapply Hh.
Qed.

(** When compliance is enforced, a bare decision is refused: [Execute] answers, whatever the
    decision, with an acknowledgement that is not accepted and whose reason is context_missing,
    sends and claims nothing, leaves the ledger as it was and reports nothing to Aegis. *)
Theorem bare_execute_refused env reporter compliance d s :
  requires_context compliance = true →
  ∃ ack s', Execute env reporter compliance d s = (Ok ack, s') ∧ idle s s' ∧
    ack_accepted ack = false ∧ ack_status ack = u "rejected" ∧
    ack_reject_reason ack = u "context_missing".
Proof.
  intros Hr. unfold Execute, mbind, M_bind. unfold on_motor at 1.
  destruct (clock env (svc_motor s)) as [rc m] eqn:Ec. injection Ec as <- <-. cbv beta iota.
  unfold handle_decision. rewrite Hr. unfold lift, mret, M_ret.
  match goal with |- context [_invalid_report ?d ?x ?n ?c] =>
    destruct (invalid_report_inv d x n c _ eq_refl) as (rep & -> & H1 & H2) end.
  eexists _, _. split; [reflexivity|]. unfold _ack. cbn [ack_accepted ack_status ack_reject_reason].
  rewrite H1, H2. by ands.
Qed.

(** The report list of [s'] and the acknowledgement follow what was sent. *)
Definition follows_sent (r : result ExecuteAck) s s' : Prop :=
  ((∃ x, sent_one s s' x) ∨ svc_reported s' = svc_reported s) ∧
  (∀ ack, r = Ok ack → ack_accepted ack = true → ∃ x, sent_one s s' x).

(** Aegis hears only of orders that were sent, and an accepted acknowledgement means that the
    order was sent: for both calls, if the report list changed then this very call sent an order,
    and if the acknowledgement says accepted then so too. A refusal, whatever its reason, can
    therefore not free Aegis's reservation for an order that is live elsewhere. *)
Theorem reports_follow_submission env reporter compliance d q s :
  (∀ r s', Execute env reporter compliance d s = (r, s') → follows_sent r s s') ∧
  (∀ r s', ExecuteWithContext env reporter compliance q s = (r, s') → follows_sent r s s').
Proof.
  assert (∀ (h : Z → M (ServiceState St) ExecutionReport) r s',
    (∀ now s r s', h now s = (r, s') → ∃ d ok, handled env reporter d ok s r s') →
    (now ← on_motor (clock env); report ← h now; mret (_ack report)) s = (r, s') →
    follows_sent r s s') as Hgen.
  { intros h r s' Hh Hr. m_step Hr; apply on_motor_inv in E as [E Er]; [|done].
    injection E as _ Em. assert (submits (svc_motor s0) = submits (svc_motor s)) as H0' by by rewrite <- Em.
    m_step Hr; [injection Hr as <- <-|subst r]; apply Hh in E as (d' & ok & E); apply handled_sends in E;
      destruct E as [(_ & E & Hp)|(x & a' & chk & Hs & _)].
    - split; [right; congruence|]. intros ack [= <-]. destruct Hp as [Hp _]. unfold _ack. cbn.
      rewrite Hp. by vm_compute.
    - unfold sent_one in *. rewrite H0' in Hs. split; [left; by exists x|]. intros _ _ _. by exists x.
    - split; [right; congruence|done].
    - unfold sent_one in *. rewrite H0' in Hs. split; [left; by exists x|done]. }
  split; intros r s' Hr.
  - apply (Hgen (λ now, handle_decision env reporter compliance d now None)); [|exact Hr].
    intros now s1 r1 s1' E. eexists _, _. eapply handle_decision_inv. exact E.
  - apply (Hgen (λ now, handle_request env reporter compliance q now None)); [|exact Hr].
    intros now s1 r1 s1' E. eexists _, _. eapply handle_request_inv. exact E.
Qed.
End service_properties.

(** ** A concrete service *)

Definition sim_decision : AegisDecision :=
  mkAegisDecision 1 (u "sig-1") (Some (sim_request (u "sig-1"))) (Some (sim_attestation (u "sig-1"))).
Definition sim_exec_request (strategy : pystr) : ExecuteRequest :=
  mkExecuteRequest sim_decision
    (Some (mkContext (Some (mkTradeSignal (u "sig-1") (u "AAPL") strategy))
                     (Some (mkSnapshot (u "AAPL"))))).
(** Lets only strategy strat-1 through; the manifest store accepts. *)
Definition sim_gates : ComplianceGates :=
  mkGates (Some (λ _ _ _, Ok (u "m-1")))
    (Some (λ _ sid, if str_eqb sid (u "strat-1") then None else Some (u "not promoted"))).
Definition sim_service_env : MotorEnv :=
  let e := sim_env (sim_accept FILLED (D 1) (D 100)) in
  mkMotorEnv (_config e) (_brokers e) (_router e) (λ _ _ _, Ok true) (_quotes e) (_stats e) (_clock e)
    (others e).
Definition sim_service : ServiceState MemStore := mkService sim_mem [].
Definition sim_reporter : option ExecutionReporter := Some (λ _ _, Ok true).

Lemma request_sends_compliant_witness :
  ∃ r s', ExecuteWithContext sim_service_env sim_reporter sim_gates (sim_exec_request (u "strat-1"))
            sim_service = (r, s') ∧ length (submits (svc_motor s')) = 1%nat ∧
    ∃ a, bound sim_gates (sim_exec_request (u "strat-1")) a.
Proof.
  assert (length (submits (svc_motor (ExecuteWithContext sim_service_env sim_reporter sim_gates
            (sim_exec_request (u "strat-1")) sim_service).2)) = 1%nat) as Hlen
    by (vm_compute; reflexivity).
  destruct (ExecuteWithContext sim_service_env sim_reporter sim_gates (sim_exec_request (u "strat-1"))
              sim_service) as [r s'] eqn:E.
  exists r, s'. split; [reflexivity|]. split; [exact Hlen|].
  destruct (request_sends_compliant _ _ _ _ _ _ _ E) as [Hs|(x & a & _ & _ & _ & Hb)].
  - cbn [snd] in Hlen. rewrite Hs in Hlen. discriminate Hlen.
  - exists a. exact Hb.
Defined.

(** Another strategy is refused. *)
Example blocked_strategy :
  (ack_reject_reason <$> (ExecuteWithContext sim_service_env sim_reporter sim_gates
     (sim_exec_request (u "strat-2")) sim_service).1) = Ok (u "strategy_not_promoted").
Proof. vm_compute. reflexivity. Qed.

Lemma bare_execute_refused_witness :
  ∃ ack s', Execute sim_service_env sim_reporter sim_gates sim_decision sim_service = (Ok ack, s') ∧
    ack_reject_reason ack = u "context_missing".
Proof.
  destruct (bare_execute_refused sim_service_env sim_reporter sim_gates sim_decision sim_service)
    as (ack & s' & E & _ & _ & _ & Hr).
  - vm_compute. reflexivity.
  - exists ack, s'. split; [exact E|exact Hr].
Defined.

Lemma reports_follow_submission_witness :
  ∃ r s', ExecuteWithContext sim_service_env sim_reporter sim_gates (sim_exec_request (u "strat-1"))
            sim_service = (r, s') ∧ length (svc_reported s') = 1%nat ∧ follows_sent r sim_service s'.
Proof.
  assert (length (svc_reported (ExecuteWithContext sim_service_env sim_reporter sim_gates
            (sim_exec_request (u "strat-1")) sim_service).2) = 1%nat) as Hlen
    by (vm_compute; reflexivity).
  destruct (reports_follow_submission sim_service_env sim_reporter sim_gates sim_decision
              (sim_exec_request (u "strat-1")) sim_service) as [_ Hf].
  destruct (ExecuteWithContext sim_service_env sim_reporter sim_gates (sim_exec_request (u "strat-1"))
              sim_service) as [r s'] eqn:E.
  exists r, s'. split; [reflexivity|]. split; [exact Hlen|]. apply Hf. reflexivity.
Defined.
