(* ===== verification/AegisReporter.v ===== *)
(** * Execution motor: the reporter to Aegis ([aegis_reporter.py])

    Cumulative fill reports with retry: what is acceptable, what was acknowledged, what waits for
    [flush]. The transport, the equity provider, the clock and the generated message class are
    oracles; external calls are numbered. *)
From S2P Require Import Prelude PyStr PyDecimal DecimalFacts MotorModels ProtoAdapter Service.

Definition _TERMINAL : list ExecutionStatus := [FILLED; CANCELLED; EXPIRED; REJECTED].
Definition _DEFAULT_ATTEMPTS : nat := 3.

(** What the constructor is given. [transport] answers True when Aegis acknowledged. *)
Record ReporterEnv (Msg : Type) := mkReporterEnv {
  message_cls : ReportFields → result Msg;
  transport : nat → Msg → result bool;
  _equity : nat → result decimal;
  rep_clock : nat → Z;
  _attempts : nat;
}.
Arguments mkReporterEnv {Msg}.
Arguments message_cls {Msg}.
Arguments transport {Msg}.
Arguments _equity {Msg}.
Arguments rep_clock {Msg}.
Arguments _attempts {Msg}.

(** [GrpcReportTransport] over the generated stub's [ReportExecution]; [ok] reads [ack.ok]. *)
Definition GrpcReportTransport {Msg Ack} (stub : nat → Msg → result Ack) (ok : Ack → bool)
  : nat → Msg → result bool :=
  λ n m, ack ← stub n m; Ok (ok ack).

(** [InMemoryReportTransport.report_execution] on its messages and [fail_next]. *)
Definition in_memory_report {Msg} (m : Msg) : M (list Msg * Z) bool := λ '(messages, fail_next),
  if 0 <? fail_next then (raise (OtherError (u "ConnectionError")) (u "aegis unreachable"),
                          (messages, fail_next - 1))
  else (Ok true, (messages ++ [m], fail_next)).

(** [__init__]'s check. *)
Definition make_reporter {Msg} (env : ReporterEnv Msg) : result (ReporterEnv Msg) :=
  if (_attempts env <? 1)%nat then raise ValueError (u "max_attempts must be >= 1") else Ok env.

(** The object's fields; [acked] and [attempts] record what was acknowledged (oldest first) and
    every message handed to the transport with its answer. *)
Record ReporterState (Msg : Type) := mkReporter {
  _sent_qty : gmap pystr decimal;
  _closed : gset pystr;
  _pending : list ExecutionReport;
  rep_calls : nat;
  acked : list ExecutionReport;
  attempts : list (Msg * result bool);
}.
Arguments mkReporter {Msg}.
Arguments _sent_qty {Msg}.
Arguments _closed {Msg}.
Arguments _pending {Msg}.
Arguments rep_calls {Msg}.
Arguments acked {Msg}.
Arguments attempts {Msg}.

Section reporter.
Context {Msg : Type} (env : ReporterEnv Msg).

Abbreviation RM := (M (ReporterState Msg)).

Definition initial : ReporterState Msg := mkReporter ∅ ∅ [] 0 [] [].

Definition upd_pending (f : list ExecutionReport → list ExecutionReport) (s : ReporterState Msg)
  : ReporterState Msg :=
  mkReporter (_sent_qty s) (_closed s) (f (_pending s)) (rep_calls s) (acked s) (attempts s).

Definition rep_tick : RM nat := λ s,
  (Ok (rep_calls s),
   mkReporter (_sent_qty s) (_closed s) (_pending s) (S (rep_calls s)) (acked s) (attempts s)).

(** [self._transport.report_execution(message)]. *)
Definition transmit (m : Msg) : RM bool :=
  n ← rep_tick;
  _ ← modify (λ s, mkReporter (_sent_qty s) (_closed s) (_pending s) (rep_calls s) (acked s)
                     (attempts s ++ [(m, transport env n m)]));
  lift (transport env n m).

(** The attempts of [_send]. *)
Fixpoint send_loop (k : nat) (m : Msg) : RM bool :=
  match k with
  | O => mret false
  | S k =>
      ok ← catch_all (transmit m) (λ _, mret false);
      if ok : bool then mret true else send_loop k m
  end.

Definition _send (m : Msg) : RM bool := send_loop (_attempts env) m.

(** [try: message = build() except Exception: return False], then [_send]. *)
Definition send_built (build : RM Msg) : RM bool :=
  built ← catch_all (m ← build; mret (Some m)) (λ _, mret None);
  match built with Some m => _send m | None => mret false end.

Definition _deliver (r : ExecutionReport) : RM bool :=
  send_built (n ← rep_tick; equity ← lift (_equity env n);
              k ← rep_tick;
              lift (to_aegis_execution_report (message_cls env) r equity (rep_clock env k))).

Definition is_terminal (st : ExecutionStatus) : bool := bool_decide (st ∈ _TERMINAL).

Definition _remember (r : ExecutionReport) : RM unit :=
  qty ← lift (filled_quantity r);
  modify (λ s, mkReporter (<[rep_order_id r := qty]> (_sent_qty s))
    (if is_terminal (status r) then {[ rep_order_id r ]} ∪ _closed s else _closed s)
    (_pending s) (rep_calls s) (acked s ++ [r]) (attempts s)).

Definition _acceptable (r : ExecutionReport) : RM bool := λ s,
  if bool_decide (rep_order_id r ∈ _closed s) then (Ok false, s)
  else (qty ← filled_quantity r;
        lower ← dlt qty (default D_ZERO (_sent_qty s !! rep_order_id r));
        Ok (negb lower), s).

Definition report_execution (r : ExecutionReport) : RM bool :=
  ok ← _acceptable r;
  if negb ok then mret false
  else
    delivered ← _deliver r;
    if delivered : bool then _ ← _remember r; mret true
    else _ ← modify (upd_pending (λ q, q ++ [r])); mret false.

(** Equity only: an empty order id, every other field at its default. *)
Definition report_equity : RM bool :=
  send_built (n ← rep_tick; equity ← lift (_equity env n);
              nanos ← lift (to_nanos equity);
              k ← rep_tick;
              lift (message_cls env (mkReportFields [] [] [] 0 0 0 0 nanos (rep_clock env k)))).

Fixpoint flush_loop (queue : list ExecutionReport) : RM unit :=
  match queue with
  | [] => mret tt
  | r :: rest =>
      delivered ← _deliver r;
      if delivered : bool then _ ← _remember r; flush_loop rest
      else modify (upd_pending (λ q, (r :: rest) ++ q))
  end.

(** [queue, self._pending = self._pending, []]. *)
Definition take_pending : RM (list ExecutionReport) := λ s,
  (Ok (_pending s), upd_pending (λ _, []) s).

Definition flush : RM nat :=
  queue ← take_pending;
  _ ← flush_loop queue;
  s ← get_state;
  mret (length (_pending s)).
End reporter.

(** ** What an operation does *)

Section reporter_facts.
Context {Msg : Type} (env : ReporterEnv Msg).
Implicit Types s : ReporterState Msg.

(** A message that carries the equity the provider gave, converted exactly. *)
Definition carries_equity (m : Msg) : Prop :=
  ∃ f n q, message_cls env f = Ok m ∧ _equity env n = Ok q ∧ to_nanos q = Ok (f_account_equity_nanos f).

(** The attempts to deliver one message: at most [k], every one before the last unacknowledged;
    [ok] says that the last was acknowledged. *)
Definition attempted (k : nat) (new : list (Msg * result bool)) (ok : bool) : Prop :=
  (length new ≤ k)%nat ∧ (∀ x y, x ∈ new → y ∈ new → x.1 = y.1) ∧
  if ok then ∃ failed m, new = failed ++ [(m, Ok true)] ∧ Forall (λ x, x.2 ≠ Ok true) failed
  else Forall (λ x, x.2 ≠ Ok true) new.

(** Everything but the attempts and the call counter is as before. *)
Definition quiet s s' : Prop :=
  _sent_qty s' = _sent_qty s ∧ _closed s' = _closed s ∧ _pending s' = _pending s ∧
  acked s' = acked s.

Lemma transmit_inv m s r s' :
  catch_all (transmit env m) (λ _, mret false) s = (r, s') →
  quiet s s' ∧ ∃ a, attempts s' = attempts s ++ [(m, a)] ∧
    (r = Ok true ∧ a = Ok true ∨ r = Ok false ∧ a ≠ Ok true).
Proof.
  unfold catch_all, transmit, mbind, M_bind, modify, lift, rep_tick, mret, M_ret. cbn.
  destruct (transport env (rep_calls s) m) as [[]|e] eqn:Et; intros [= <- <-]; (split; [done|]);
    eexists; (split; [reflexivity|]); naive_solver.
Qed.

Lemma send_loop_inv k m s r s' :
  send_loop env k m s = (r, s') →
  quiet s s' ∧ ∃ new ok, r = Ok ok ∧ attempts s' = attempts s ++ new ∧ (length new ≤ k)%nat ∧
    Forall (λ x, x.1 = m) new ∧
    match ok with
    | true => ∃ failed, new = failed ++ [(m, Ok true)] ∧ Forall (λ x, x.2 ≠ Ok true) failed
    | false => Forall (λ x, x.2 ≠ Ok true) new
    end.
Proof.
  revert s. induction k as [|k IH]; intros s; cbn [send_loop].
  { intros [= <- <-]. split; [done|]. exists [], false. rewrite app_nil_r. by split_and!. }
  intros Hs. m_step Hs; apply transmit_inv in E as (Q & x & Ha & Hr).
  2: { subst r. destruct Hr as [[? _]|[? _]]; done. }
  destruct Hr as [[[= ->] ->]|[[= ->] Hx]].
  - injection Hs as <- <-. split; [done|]. exists [(m, Ok true)], true. rewrite Ha. cbn.
    split_and!; [done..|lia|by constructor|]. exists []. by split.
  - apply IH in Hs as (Q' & new & ok & -> & Hn & Hl & Hm & Hok).
    split. { unfold quiet in *. intuition congruence. }
    exists ((m, x) :: new), ok. rewrite Hn, Ha, <- app_assoc. cbn. split_and!; [done..|lia|by constructor|].
    destruct ok; [|by constructor]. destruct Hok as (failed & -> & Hf).
    exists ((m, x) :: failed). split; [done|by constructor].
Qed.

Lemma report_carries_equity r equity now m :
  to_aegis_execution_report (message_cls env) r equity now = Ok m →
  ∃ f, message_cls env f = Ok m ∧ to_nanos equity = Ok (f_account_equity_nanos f).
Proof.
  unfold to_aegis_execution_report. intros H. ok_inv. by eexists.
Qed.

(** The delivery of something built from the oracles. *)
Definition delivered_by s (r : result bool) s' : Prop :=
  quiet s s' ∧ ∃ new ok, r = Ok ok ∧ attempts s' = attempts s ++ new ∧ attempted (_attempts env) new ok ∧
    Forall (λ x, carries_equity x.1) new.

Lemma send_delivered m s r s' : carries_equity m → _send env m s = (r, s') → delivered_by s r s'.
Proof.
  intros Hm Hs. apply send_loop_inv in Hs as (Q & new & ok & -> & Hn & Hl & Hall & Hok).
  split; [done|]. exists new, ok. rewrite Forall_forall in Hall. split_and!; [done..| |].
  - split; [done|]. split; [intros x y Hx%Hall Hy%Hall; congruence|].
    destruct ok; [|done]. destruct Hok as (failed & ? & ?). by exists failed, m.
  - apply Forall_forall. intros x ->%Hall. done.
Qed.

Lemma built_delivered (build : M (ReporterState Msg) Msg) s r s' :
  (∀ s, quiet s (build s).2 ∧ attempts (build s).2 = attempts s) →
  (∀ s m, (build s).1 = Ok m → carries_equity m) →
  send_built env build s = (r, s') → delivered_by s r s'.
Proof.
  intros Hq Hm. unfold send_built, catch_all, mbind, M_bind. specialize (Hq s). specialize (Hm s).
  destruct (build s) as [[m|e] s1]; cbn in *; destruct Hq as [Q0 Ha0].
  - intros Hs. apply send_delivered in Hs as (Q & new & ok & -> & Hn & Ha & He); [|by apply Hm].
    split; [unfold quiet in *; intuition congruence|].
    exists new, ok. rewrite Hn, Ha0. by split_and!.
  - intros [= <- <-]. split; [done|]. exists [], false.
    rewrite Ha0, app_nil_r. split_and!; [done..| |constructor].
    split; [cbn; lia|]. split; [|constructor]. intros x y Hx. by apply elem_of_nil in Hx.
Qed.

Lemma deliver_delivered x s r s' : _deliver env x s = (r, s') → delivered_by s r s'.
Proof.
  apply built_delivered; clear.
  - intros s. unfold mbind, M_bind, lift, rep_tick. cbn. by destruct (_equity env _).
  - intros s m. unfold mbind, M_bind, lift, rep_tick. cbn.
    destruct (_equity env (rep_calls s)) as [equity|] eqn:Eq; cbn; [|done]. intros H.
    apply report_carries_equity in H as (f & Hf & Hn). by exists f, (rep_calls s), equity.
Qed.

Lemma equity_delivered s r s' : report_equity env s = (r, s') → delivered_by s r s'.
Proof.
  apply built_delivered; clear.
  - intros s. unfold mbind, M_bind, lift, rep_tick. cbn.
    destruct (_equity env _) as [q|]; cbn; [|done]. by destruct (to_nanos q).
  - intros s m. unfold mbind, M_bind, lift, rep_tick. cbn.
    destruct (_equity env (rep_calls s)) as [q|] eqn:Eq; cbn; [|done].
    destruct (to_nanos q) as [z|] eqn:Ez; cbn; [|done]. intros H.
    by eexists _, (rep_calls s), q.
Qed.

(** [_acceptable] only reads. *)
Lemma acceptable_inv x s r s' :
  _acceptable x s = (r, s') →
  s' = s ∧ (r = Ok true → rep_order_id x ∉ _closed s ∧
    ∃ q, filled_quantity x = Ok q ∧ dlt q (default D_ZERO (_sent_qty s !! rep_order_id x)) = Ok false).
Proof.
  unfold _acceptable. case_bool_decide as Hc; [by intros [= <- <-]|]. intros [= <- <-].
  split; [done|]. intros H. split; [done|]. ok_inv. exists a. split; [done|].
  destruct a0; [done|]. done.
Qed.

(** A delivered report is remembered. *)
Definition remembered (x : ExecutionReport) (q : decimal) s s' : Prop :=
  _sent_qty s' = <[rep_order_id x := q]> (_sent_qty s) ∧
  _closed s' = (if is_terminal (status x) then {[ rep_order_id x ]} ∪ _closed s else _closed s) ∧
  _pending s' = _pending s ∧ acked s' = acked s ++ [x].

(** What [report_execution] comes to. *)
Lemma report_execution_cases x s r s' :
  report_execution env x s = (r, s') →
  (quiet s s' ∧ attempts s' = attempts s ∧ r ≠ Ok true) ∨
  ∃ q, rep_order_id x ∉ _closed s ∧ filled_quantity x = Ok q ∧
    dlt q (default D_ZERO (_sent_qty s !! rep_order_id x)) = Ok false ∧
    (∃ new ok, attempts s' = attempts s ++ new ∧ attempted (_attempts env) new ok ∧ r = Ok ok ∧
       Forall (λ x, carries_equity x.1) new) ∧
    (r = Ok true ∧ remembered x q s s' ∨
     r = Ok false ∧ _sent_qty s' = _sent_qty s ∧ _closed s' = _closed s ∧
       _pending s' = _pending s ++ [x] ∧ acked s' = acked s).
Proof.
  unfold report_execution. intros Hr. m_step Hr; apply acceptable_inv in E as [-> Ha]; [|by left; subst].
  destruct a; cbn [negb] in Hr; [|injection Hr as <- <-; by left].
  destruct (Ha eq_refl) as (Hc & q & Hq & Hlt). right. exists q. do 3 (split; [done|]).
  m_step Hr; apply deliver_delivered in E as ((Q1 & Q2 & Q3 & Q4) & new & ok & Eok & Hn & Hat & Hce);
    [|done].
  apply Ok_inj in Eok. subst a. destruct ok.
  - unfold _remember, mbind, M_bind, lift, modify, mret, M_ret in Hr. rewrite Hq in Hr.
    injection Hr as <- <-. cbn. rewrite Hn. split; [by exists new, true|]. left. split; [done|].
    unfold remembered. cbn. rewrite Q1, Q2, Q3, Q4. done.
  - injection Hr as <- <-. cbn. rewrite Hn. split; [by exists new, false|]. right.
    by rewrite Q1, Q2, Q3, Q4.
Qed.

(** Every report of [l] has a computable cumulative quantity. *)
Definition countable_all (l : list ExecutionReport) : Prop :=
  Forall (λ x, ∃ q, filled_quantity x = Ok q) l.

Lemma flush_loop_inv queue s r s' :
  flush_loop env queue s = (r, s') → countable_all queue →
  r = Ok tt ∧ ∃ done rest new, queue = done ++ rest ∧ acked s' = acked s ++ done ∧
    _pending s' = rest ++ _pending s ∧ attempts s' = attempts s ++ new ∧
    Forall (λ x, carries_equity x.1) new.
Proof.
  revert s. induction queue as [|x queue IH]; intros s; cbn [flush_loop].
  { intros [= <- <-] _. split; [done|]. exists [], [], []. by rewrite !app_nil_r. }
  intros Hr [[q Hq] Hall]%Forall_cons.
  m_step Hr; apply deliver_delivered in E as ((Q1 & Q2 & Q3 & Q4) & new & ok & Eok & Hn & _ & Hce);
    [|done].
  apply Ok_inj in Eok. subst a. destruct ok.
  - unfold _remember in Hr. apply M_bind_inv in Hr as [([] & s1 & E & Hr)|(e & E & _)];
      unfold mbind, M_bind, lift, modify in E; rewrite Hq in E; [|done].
    injection E as <-. apply IH in Hr as (-> & ds & rest & new' & -> & Ha & Hp & Hn' & Hce'); [|done].
    split; [done|]. exists (x :: ds), rest, (new ++ new'). cbn in Ha, Hp, Hn'.
    rewrite Ha, Hp, Hn', Hn, Q3, Q4, <- !app_assoc. split_and!; try done. by apply Forall_app.
  - injection Hr as <- <-. split; [done|]. exists [], (x :: queue), new. cbn.
    by rewrite Q3, Q4, app_nil_r.
Qed.

Lemma flush_inv s r s' :
  flush env s = (r, s') → countable_all (_pending s) →
  r = Ok (length (_pending s')) ∧ ∃ done rest new, _pending s = done ++ rest ∧
    acked s' = acked s ++ done ∧ _pending s' = rest ∧ attempts s' = attempts s ++ new ∧
    Forall (λ x, carries_equity x.1) new.
Proof.
  unfold flush. intros Hr Hc. m_step Hr; [|done]. injection E as <- <-.
  m_step Hr; apply flush_loop_inv in E as (Er & ds & rest & new & -> & Ha & Hp & Hn & Hce); try done.
  cbn in Ha, Hp, Hn. unfold get_state, mbind, M_bind, mret, M_ret in Hr. injection Hr as <- <-.
  split; [done|]. exists ds, rest, new. by rewrite Ha, Hp, app_nil_r.
Qed.

(** ** Sequences of operations *)

Inductive rep_op := OReport (x : ExecutionReport) | OEquity | OFlush.

Definition op_step (s : ReporterState Msg) (op : rep_op) : ReporterState Msg :=
  match op with
  | OReport x => (report_execution env x s).2
  | OEquity => (report_equity env s).2
  | OFlush => (flush env s).2
  end.

Definition run_ops (l : list rep_op) : ReporterState Msg := fold_left op_step l initial.

(** What holds after any sequence of operations. *)
Definition reporter_ok s : Prop :=
  countable_all (_pending s) ∧ Forall (λ x, carries_equity x.1) (attempts s).

Lemma op_step_ok s op : reporter_ok s → reporter_ok (op_step s op).
Proof.
  intros [Hc He]. destruct op as [x| |]; cbn.
  - destruct (report_execution env x s) as [r s'] eqn:E.
    apply report_execution_cases in E as
      [((_ & _ & Q & _) & Ha & _)|(q & _ & Hq & _ & (new & ok & Hn & _ & _ & Hce) & Hcase)]; cbn.
    + split; congruence.
    + split; [|rewrite Hn; by apply Forall_app].
      destruct Hcase as [[_ (_ & _ & -> & _)]|(_ & _ & _ & -> & _)]; [done|].
      apply Forall_app. split; [done|]. constructor; [by exists q|constructor].
  - destruct (report_equity env s) as [r s'] eqn:E.
    apply equity_delivered in E as ((_ & _ & Q & _) & new & ok & _ & Hn & _ & Hce). cbn.
    split; [congruence|]. rewrite Hn. by apply Forall_app.
  - destruct (flush env s) as [r s'] eqn:E.
    apply flush_inv in E as (_ & ds & rest & new & Hp & _ & Hp' & Hn & Hce); [|done]. cbn.
    unfold countable_all in Hc. rewrite Hp in Hc. apply Forall_app in Hc as [_ Hc].
    split; [by rewrite Hp'|]. rewrite Hn. by apply Forall_app.
Qed.

Lemma run_ops_ok l : reporter_ok (run_ops l).
Proof.
  unfold run_ops. apply fold_left_inv; [split; constructor|]. intros s op. apply op_step_ok.
Qed.

(** What Aegis was told about an order never goes backwards: the later of two acknowledged reports
    of an order does not lower the quantity and does not follow a terminal one. *)
Definition forward (x y : ExecutionReport) : Prop :=
  rep_order_id x = rep_order_id y → is_terminal (status x) = false ∧
  ∃ qx qy, filled_quantity x = Ok qx ∧ filled_quantity y = Ok qy ∧ dec_le qx qy.

(** The invariant that makes it so. *)
Definition tracked s : Prop :=
  ForallOrdPairs forward (acked s) ∧
  Forall (λ x, (is_terminal (status x) = true → rep_order_id x ∈ _closed s) ∧
    ∃ q q', filled_quantity x = Ok q ∧ _sent_qty s !! rep_order_id x = Some q' ∧
            is_finite q' = true ∧ dec_le q q') (acked s).

Lemma FOP_app_one {A} (R : A → A → Prop) l y :
  ForallOrdPairs R l → Forall (λ x, R x y) l → ForallOrdPairs R (l ++ [y]).
Proof.
  induction 1 as [|x l Hx Hl IH]; intros Hy; cbn; [repeat constructor|].
  apply Forall_cons in Hy as [Hxy Hy]. constructor; [|by apply IH]. apply Forall_app. by repeat constructor.
Qed.

Lemma remembered_tracked x q s s' :
  tracked s → rep_order_id x ∉ _closed s → filled_quantity x = Ok q → is_finite q = true →
  dlt q (default D_ZERO (_sent_qty s !! rep_order_id x)) = Ok false →
  remembered x q s s' → tracked s'.
Proof.
  intros [HF Hall] Hc Hq Hfin Hlt (R1 & R2 & _ & R4). unfold tracked. rewrite R1, R2, R4.
  assert (Forall (λ y, rep_order_id y = rep_order_id x →
            ∃ q1, filled_quantity y = Ok q1 ∧ dec_le q1 q) (acked s)) as Hle.
  { eapply Forall_impl; [exact Hall|]. intros y (_ & q1 & q2 & H1 & H2 & H3 & H4) Eid.
    rewrite Eid in H2. rewrite H2 in Hlt. cbn in Hlt. exists q1. split; [done|].
    eapply dec_le_trans; [exact H4|]. destruct (fits_scale2 q2 q H3 Hfin) as [F1 F2].
    apply (dec_le_sc (scale2 q2 q)); [done..|].
    rewrite (dlt_sc (scale2 q2 q)) in Hlt by done. injection Hlt as Hlt%Z.ltb_ge. lia. }
  split.
  - apply FOP_app_one; [done|]. rewrite Forall_forall in *. intros y Hy Eid.
    destruct (Hall y Hy) as [Ht _]. split.
    { destruct (is_terminal (status y)) eqn:Et; [|done]. rewrite Eid in Ht. by destruct Hc; apply Ht. }
    destruct (Hle y Hy Eid) as (q1 & H1 & H2). by exists q1, q.
  - apply Forall_app. split.
    + rewrite Forall_forall in *. intros y Hy. destruct (Hall y Hy) as (Ht & q1 & q2 & H1 & H2 & H3 & H4).
      split; [intros Ht'; specialize (Ht Ht'); destruct (is_terminal (status x)); set_solver|].
      destruct (decide (rep_order_id y = rep_order_id x)) as [Eid|Hne].
      * destruct (Hle y Hy Eid) as (q3 & H5 & H6). exists q3, q. rewrite Eid, lookup_insert_eq. done.
      * exists q1, q2. by rewrite lookup_insert_ne.
    + constructor; [|constructor]. split; [intros ->; set_solver|].
      exists q, q. rewrite lookup_insert_eq. split_and!; try done. by apply dec_le_refl.
Qed.
End reporter_facts.

(** ** Properties *)

Section reporter_properties.
Context {Msg : Type} (env : ReporterEnv Msg).

(** Reports whose cumulative quantity is a finite number, as fills with positive finite amounts
    give it; [flush] is not among the operations. *)
Definition direct_op (op : rep_op) : Prop :=
  match op with
  | OReport x => ∃ q, filled_quantity x = Ok q ∧ is_finite q = true
  | OEquity => True
  | OFlush => False
  end.

(** What Aegis acknowledges about an order only moves forward. Over any sequence of execution
    and equity reports, with any failures of the transport and the equity provider, of two
    acknowledged reports of one order the earlier one is not terminal and its cumulative fill is at
    most the later one's. *)
Theorem reports_move_forward l :
  Forall direct_op l → ForallOrdPairs (forward) (acked (run_ops env l)).
Proof.
  intros Hl. enough (tracked (run_ops env l)) as [H _] by done. unfold run_ops.
  assert (∀ s : ReporterState Msg, tracked s → tracked (fold_left (op_step env) l s)) as Hgen.
  2: { apply Hgen. repeat constructor. }
  induction Hl as [|op l Hop Hl IH]; intros s Hs; cbn; [done|]. apply IH.
  destruct op as [x| |]; cbn; [|..|done].
  - destruct Hop as (q & Hq & Hfin). destruct (report_execution env x s) as [r s'] eqn:E.
    apply report_execution_cases in E as
      [((Q1 & Q2 & _ & Q4) & _)|(q' & Hc & Hq' & Hlt & _ & [[_ Hr]|(_ & Q1 & Q2 & _ & Q4)])]; cbn.
    + unfold tracked in *. by rewrite Q1, Q2, Q4.
    + assert (q' = q) as -> by congruence. by eapply remembered_tracked.
    + unfold tracked in *. by rewrite Q1, Q2, Q4.
  - destruct (report_equity env s) as [r s'] eqn:E.
    apply equity_delivered in E as ((Q1 & Q2 & _ & Q4) & _). cbn. unfold tracked in *. by rewrite Q1, Q2, Q4.
Qed.

(** No report is lost, and a call says what became of it. After any sequence of operations,
    [report_execution] returns True exactly when the report was acknowledged within the permitted
    attempts; otherwise it either keeps the report for [flush], behind the ones that wait already,
    or refuses it and changes nothing. [flush] resends the waiting reports in order up to the first
    failure: the acknowledged ones leave the queue, the rest stay in order, and it returns how many
    are left. *)
Theorem no_report_lost l s :
  s = run_ops env l →
  (∀ x r s', report_execution env x s = (r, s') →
     r = Ok true ∧ acked s' = acked s ++ [x] ∧ _pending s' = _pending s ∧
       (∃ new, attempts s' = attempts s ++ new ∧ attempted (_attempts env) new true) ∨
     r = Ok false ∧ acked s' = acked s ∧ _pending s' = _pending s ++ [x] ∧
       (∃ new, attempts s' = attempts s ++ new ∧ attempted (_attempts env) new false) ∨
     r ≠ Ok true ∧ acked s' = acked s ∧ _pending s' = _pending s ∧ attempts s' = attempts s) ∧
  (∀ r s', flush env s = (r, s') →
     ∃ done rest, _pending s = done ++ rest ∧ acked s' = acked s ++ done ∧ _pending s' = rest ∧
       r = Ok (length rest)).
Proof.
  intros ->. split.
  - intros x r s' H. apply report_execution_cases in H as
      [((Q1 & Q2 & Q3 & Q4) & Ha & Hr)|(q & _ & _ & _ & (new & ok & Hn & Hat & -> & _) & Hc)].
    + by right; right.
    + destruct Hc as [[Er (_ & _ & Hp & Hack)]|(Er & _ & _ & Hp & Hack)]; apply Ok_inj in Er; subst ok.
      * left. ands; try done. by exists new.
      * right; left. ands; try done. by exists new.
  - intros r s' H. apply flush_inv in H as (-> & ds & rest & new & Hp & Ha & Hp' & _).
    + exists ds, rest. by rewrite Hp'.
    + apply run_ops_ok.
Qed.

(** Every message that leaves for Aegis carries the account equity that the provider returned,
    converted to nanos: after any sequence of operations, flushes included, no message was handed
    to the transport with a missing equity replaced by zero or any other value. *)
Theorem equity_on_every_message l :
  Forall (λ x, carries_equity env x.1) (attempts (run_ops env l)).
Proof. apply run_ops_ok. Qed.
End reporter_properties.

(** ** A concrete reporter *)

Definition sim_report (st : ExecutionStatus) (qty : Z) : ExecutionReport :=
  mkReport (u "o1") (u "o1") (u "o1") (u "AAPL") (Some BUY) st (D 10) None [] None None
    [mkFill (D qty) (D 100) 5 (u "sim")] None 1 None 2.
(** The transport refuses the first [k] calls that reach it. *)
Definition sim_reporter_env (k : nat) : ReporterEnv ReportFields :=
  mkReporterEnv Ok (λ n _, if (n <? k)%nat then raise OSError [] else Ok true) (λ _, Ok (D 1000))
    (λ n, Z.of_nat n) 1.

Lemma reports_move_forward_witness :
  let l := [OReport (sim_report PARTIALLY_FILLED 4); OEquity; OReport (sim_report PARTIALLY_FILLED 3);
            OReport (sim_report FILLED 10); OReport (sim_report FILLED 10)] in
  length (acked (run_ops (sim_reporter_env 0) l)) = 2%nat ∧
  ForallOrdPairs forward (acked (run_ops (sim_reporter_env 0) l)).
Proof.
  intros l. split; [vm_compute; reflexivity|]. apply reports_move_forward. unfold l.
  repeat constructor; (eexists; split; [vm_compute; reflexivity|reflexivity]).
Defined.

Lemma no_report_lost_witness :
  let s := run_ops (sim_reporter_env 9) [OReport (sim_report PARTIALLY_FILLED 4)] in
  _pending s = [sim_report PARTIALLY_FILLED 4] ∧
  ∃ done rest, _pending s = done ++ rest ∧ (flush (sim_reporter_env 9) s).1 = Ok (length rest).
Proof.
  intros s. split; [vm_compute; reflexivity|].
  destruct (no_report_lost (sim_reporter_env 9) _ s eq_refl) as [_ Hf].
  destruct (flush (sim_reporter_env 9) s) as [r s'] eqn:E.
  destruct (Hf r s' eq_refl) as (ds & rest & H1 & _ & _ & H2).
  exists ds, rest. split; [exact H1|exact H2].
Defined.

(** [flush] does not ask [_acceptable]: a report that waited is resent after a later, larger one was
    acknowledged, so the cumulative fill that Aegis sees goes from 10 back to 4, after the
    terminal report. *)
Lemma flush_goes_backwards :
  let l := [OReport (sim_report PARTIALLY_FILLED 4); OReport (sim_report FILLED 10); OFlush] in
  acked (run_ops (sim_reporter_env 3) l) = [sim_report FILLED 10; sim_report PARTIALLY_FILLED 4].
Proof. vm_compute. reflexivity. Qed.
