(* ===== verification/AlpacaParse.v ===== *)
(** * Execution motor: Alpaca's JSON ([alpaca_parse.py])

    From the text of a response to broker values; anything missing or unparseable raises
    MalformedResponse. [\d] matches ASCII digits here. *)
From S2P Require Import Prelude PyStr PyDecimal DecimalFacts Json PyRepr PyTime MotorModels.

Definition _STATUS : list (pystr * ExecutionStatus) :=
  [ (u "new", ACCEPTED); (u "accepted", ACCEPTED); (u "pending_new", ACCEPTED);
    (u "accepted_for_bidding", ACCEPTED); (u "calculated", ACCEPTED); (u "held", ACCEPTED);
    (u "pending_cancel", ACCEPTED); (u "pending_replace", ACCEPTED);
    (u "partially_filled", PARTIALLY_FILLED); (u "filled", FILLED); (u "canceled", CANCELLED);
    (u "replaced", CANCELLED); (u "expired", EXPIRED); (u "done_for_day", EXPIRED);
    (u "rejected", REJECTED); (u "suspended", REJECTED) ].

Definition malformed {A} (msg : pystr) : result A := raise MalformedResponse msg.

Fixpoint str_assoc {A} (m : list (pystr * A)) (k : pystr) : option A :=
  match m with
  | [] => None
  | (k', a) :: m => if str_eqb k k' then Some a else str_assoc m k
  end.
Definition status_of (raw : pystr) : ExecutionStatus := default UNKNOWN (str_assoc _STATUS raw).

Definition loads (text : pystr) : result json :=
  match Json.loads text with Some v => Ok v | None => malformed (u "body is not valid JSON") end.

(** [body.get(key)]. *)
Definition get (m : list (pystr * json)) (k : pystr) : json := default JNull (obj_get m k).

(** [Decimal(str(value))] of a number's text. *)
Definition dec_text (text name : pystr) : result decimal :=
  match dec_of_str text with
  | None => malformed (name ++ u " is not a valid decimal")
  | Some d => if is_finite d then Ok d else malformed (name ++ u " is not finite")
  end.

Definition _dec (value : json) (name : pystr) : result decimal :=
  let refuse := malformed (name ++ u " is not a decimal string") in
  match value with
  | JStr s => dec_text s name
  | JInt z => Ok (D z)
  | JFloat t => if float_constant t then refuse else dec_text t name
  | JNull | JBool _ | JArr _ | JObj _ => refuse
  end.

Definition _opt_dec (value : json) (name : pystr) : result (option decimal) :=
  match value with JNull => Ok None | _ => d ← _dec value name; Ok (Some d) end.

Definition _str (value : json) (name : pystr) : result pystr :=
  match value with
  | JStr s => if bool_decide (s = []) then malformed (name ++ u " missing") else Ok s
  | _ => malformed (name ++ u " missing")
  end.

(** ** Timestamps *)

(** The next [k] characters, when they are digits: their value and the rest. *)
Definition take_digits (k : nat) (s : pystr) : option (Z * pystr) :=
  let ds := take k s in
  if (length ds =? k)%nat && forallb is_digit ds
  then Some (Z.of_N (num_of_digits 0 ds), drop k s) else None.
Definition take_char (c : N) (s : pystr) : option pystr :=
  match s with c' :: s => if (c' =? c)%N then Some s else None | [] => None end.

Fixpoint span_digits (s : pystr) : pystr * pystr :=
  match s with
  | c :: s' => if is_digit c then let '(ds, r) := span_digits s' in (c :: ds, r) else ([], s)
  | [] => ([], [])
  end.

(** [(?:\.(\d{1,9}))?]: the fraction, empty when absent. *)
Definition take_fraction (s : pystr) : option (pystr * pystr) :=
  match take_char 46 s with
  | None => Some ([], s)
  | Some s => let '(ds, r) := span_digits s in
              if (1 <=? length ds)%nat && (length ds <=? 9)%nat then Some (ds, r) else None
  end.

(** [(Z|[+-]\d\d:\d\d)$]: the offset in seconds; [$] also matches before a final newline. *)
Definition take_zone (s : pystr) : option Z :=
  let fin o (r : pystr) := if bool_decide (r = []) || bool_decide (r = [10%N]) then Some o else None in
  match s with
  | 90%N :: r => fin 0 r
  | c :: r =>
      if one_of (u "+-") c then
        '(h, r) ← take_digits 2 r; r ← take_char 58 r; '(m, r) ← take_digits 2 r;
        fin ((if (c =? 43)%N then 1 else -1) * (h * 3600 + m * 60)) r
      else None
  | [] => None
  end.

Record ts_parts := mkTs {
  ts_year : Z; ts_month : Z; ts_day : Z; ts_hour : Z; ts_minute : Z; ts_second : Z;
  ts_frac : pystr; ts_offset : Z }.

Definition match_ts (s : pystr) : option ts_parts :=
  '(y, s) ← take_digits 4 s; s ← take_char 45 s;
  '(mo, s) ← take_digits 2 s; s ← take_char 45 s;
  '(d, s) ← take_digits 2 s; s ← take_char 84 s;
  '(h, s) ← take_digits 2 s; s ← take_char 58 s;
  '(mi, s) ← take_digits 2 s; s ← take_char 58 s;
  '(sec, s) ← take_digits 2 s;
  '(frac, s) ← take_fraction s;
  off ← take_zone s;
  Some (mkTs y mo d h mi sec frac off).

Definition valid_datetime (t : ts_parts) : bool :=
  (1 <=? ts_year t) && (ts_year t <=? 9999) && (1 <=? ts_month t) && (ts_month t <=? 12)
  && (1 <=? ts_day t) && (ts_day t <=? days_in_month (ts_year t) (ts_month t))
  && (ts_hour t <=? 23) && (ts_minute t <=? 59) && (ts_second t <=? 59).

(** [int(dt.timestamp())] in UTC. *)
Definition utc_seconds (t : ts_parts) : Z :=
  (ymd2ord (ts_year t) (ts_month t) (ts_day t) - EPOCH_ORDINAL) * 86400
  + ts_hour t * 3600 + ts_minute t * 60 + ts_second t.

(** [frac.ljust(9, "0")] as an integer. *)
Definition frac_nanos (frac : pystr) : Z :=
  Z.of_N (num_of_digits 0 (frac ++ replicate (9 - length frac) 48%N)).

Definition parse_ts_ns (value : json) (name : pystr) : result (option Z) :=
  match value with
  | JNull => Ok None
  | JStr s =>
      match match_ts s with
      | None => malformed (name ++ u " is not an RFC 3339 timestamp")
      | Some t =>
          if negb (valid_datetime t) then malformed (name ++ u " is not a valid time")
          else Ok (Some ((utc_seconds t - ts_offset t) * 1000000000 + frac_nanos (ts_frac t)))
      end
  | _ => malformed (name ++ u " is not an RFC 3339 timestamp")
  end.

(** ** Orders, positions, the account *)

Definition parse_order (body : json) : result BrokerOrder :=
  match body with
  | JObj m =>
      raw_status ← _str (get m (u "status")) (u "status");
      id ← _str (get m (u "id")) (u "id");
      client ← _str (get m (u "client_order_id")) (u "client_order_id");
      sym ← _str (get m (u "symbol")) (u "symbol");
      qty ← _dec (get m (u "qty")) (u "qty");
      filled ← _dec (default (JStr (u "0")) (obj_get m (u "filled_qty"))) (u "filled_qty");
      avg ← _opt_dec (get m (u "filled_avg_price")) (u "filled_avg_price");
      submitted ← parse_ts_ns (get m (u "submitted_at")) (u "submitted_at");
      filled_at ← parse_ts_ns (get m (u "filled_at")) (u "filled_at");
      Ok (mkBrokerOrder id client sym (status_of raw_status) raw_status qty filled avg submitted filled_at)
  | _ => malformed (u "order is not an object")
  end.

Definition parse_orders (body : json) : result (list BrokerOrder) :=
  match body with
  | JArr l => mapR parse_order l
  | _ => malformed (u "orders is not a list")
  end.

Definition parse_position (p : list (pystr * json)) : result Position :=
  sym ← _str (get p (u "symbol")) (u "symbol");
  qty ← _dec (get p (u "qty")) (u "qty");
  entry ← _dec (get p (u "avg_entry_price")) (u "avg_entry_price");
  value ← _dec (get p (u "market_value")) (u "market_value");
  Ok (mkPosition sym qty entry value).

(** Items that are not objects are skipped. *)
Definition parse_positions (body : json) : result (list Position) :=
  match body with
  | JArr l => mapR parse_position (omap (λ p, match p with JObj m => Some m | _ => None end) l)
  | _ => malformed (u "positions is not a list")
  end.

Definition parse_account (body : json) : result AccountSnapshot :=
  match body with
  | JObj m =>
      let flag k := py_bool (default (JBool true) (obj_get m k)) in
      let blocked := flag (u "trading_blocked") || flag (u "account_blocked") in
      st ← _str (get m (u "status")) (u "status");
      power ← _dec (get m (u "buying_power")) (u "buying_power");
      cash ← _dec (get m (u "cash")) (u "cash");
      equity ← _dec (get m (u "equity")) (u "equity");
      Ok (mkAccount st power cash equity blocked)
  | _ => malformed (u "account is not an object")
  end.

(** ** Only MalformedResponse is raised *)

Abbreviation parses := (fails_as (λ c, c = MalformedResponse)).

Lemma dec_parses v name : parses (_dec v name).
Proof. unfold _dec, dec_text, malformed. fails_tac. Qed.
Lemma str_parses v name : parses (_str v name).
Proof. unfold _str, malformed. fails_tac. Qed.
Lemma ts_parses v name : parses (parse_ts_ns v name).
Proof. unfold parse_ts_ns, malformed. fails_tac. Qed.
#[export] Hint Resolve dec_parses str_parses ts_parses : s2p.
Lemma opt_dec_parses v name : parses (_opt_dec v name).
Proof. unfold _opt_dec. fails_tac. Qed.
#[export] Hint Resolve opt_dec_parses : s2p.
Lemma order_parses body : parses (parse_order body).
Proof. unfold parse_order, malformed. fails_tac. Qed.
Lemma loads_parses t : parses (loads t).
Proof. unfold loads, malformed. fails_tac. Qed.
#[export] Hint Resolve order_parses loads_parses : s2p.
Lemma orders_parses body : parses (parse_orders body).
Proof. unfold parse_orders, malformed. fails_tac. Qed.
#[export] Hint Resolve orders_parses : s2p.

(** ** Examples *)

Example parse_ts_example :
  parse_ts_ns (JStr (u "2024-02-29T12:00:00.5-05:00")) (u "t") = Ok (Some 1709226000500000000).
Proof. vm_compute. reflexivity. Qed.
Example parse_ts_epoch : parse_ts_ns (JStr (u "1970-01-01T00:00:00Z")) (u "t") = Ok (Some 0).
Proof. vm_compute. reflexivity. Qed.
Example parse_ts_no_leap :
  is_ok (parse_ts_ns (JStr (u "2023-02-29T12:00:00Z")) (u "t")) = false.
Proof. vm_compute. reflexivity. Qed.

(** ** Timestamps in UTC *)

Lemma take_digits_pad k n s :
  (n < 10 ^ N.of_nat k)%N → take_digits k (zpad k n ++ s) = Some (Z.of_N n, s).
Proof.
  intros Hn. unfold take_digits.
  rewrite take_app_length', drop_app_length' by (by rewrite zpad_length).
  rewrite zpad_length, Nat.eqb_refl, zpad_digits. cbn [andb]. by rewrite zpad_value.
Qed.

Lemma span_digits_app ds c s :
  forallb is_digit ds = true → is_digit c = false → span_digits (ds ++ c :: s) = (ds, c :: s).
Proof.
  intros Hd Hc. induction ds as [|d ds IH]; cbn; [by rewrite Hc|].
  cbn in Hd. apply andb_true_iff in Hd as [H1 H2]. by rewrite H1, IH.
Qed.

(** "YYYY-MM-DDTHH:MM:SS.nnnnnnnnnZ". *)
Definition ts_text (y mo d h mi sec nanos : N) : pystr :=
  zpad 4 y ++ 45%N :: zpad 2 mo ++ 45%N :: zpad 2 d ++ 84%N :: zpad 2 h ++ 58%N :: zpad 2 mi
  ++ 58%N :: zpad 2 sec ++ 46%N :: zpad 9 nanos ++ [90%N].

Lemma match_ts_text y mo d h mi sec n :
  (y < 10000 → mo < 100 → d < 100 → h < 100 → mi < 100 → sec < 100 →
   match_ts (ts_text y mo d h mi sec n)
   = Some (mkTs (Z.of_N y) (Z.of_N mo) (Z.of_N d) (Z.of_N h) (Z.of_N mi) (Z.of_N sec) (zpad 9 n) 0))%N.
Proof.
  intros Hy Hmo Hd Hh Hmi Hs. unfold match_ts, ts_text.
  rewrite take_digits_pad by done. cbn [mbind option_bind take_char N.eqb Pos.eqb].
  do 5 (rewrite take_digits_pad by done; cbn [mbind option_bind take_char N.eqb Pos.eqb]).
  unfold take_fraction. cbn [take_char N.eqb Pos.eqb].
  rewrite span_digits_app by (apply zpad_digits || done). by rewrite zpad_length.
Qed.

(** ** Properties *)

(** A UTC timestamp denotes its instant: for every valid date and time and every number of
    nanoseconds, the RFC 3339 text parses to the nanoseconds since 1970-01-01T00:00:00Z, where
    the day number is the count of days - it is 0 on 1970-01-01 and one more on the next day
    of any date - and nothing is lost to floating point. *)
Theorem parse_ts_exact y mo d h mi sec n name :
  (n < 10 ^ 9)%N →
  let t := mkTs (Z.of_N y) (Z.of_N mo) (Z.of_N d) (Z.of_N h) (Z.of_N mi) (Z.of_N sec) (zpad 9 n) 0 in
  valid_datetime t = true →
  let day y mo d := ymd2ord y mo d - EPOCH_ORDINAL in
  parse_ts_ns (JStr (ts_text y mo d h mi sec n)) name
  = Ok (Some ((day (Z.of_N y) (Z.of_N mo) (Z.of_N d) * 86400 + Z.of_N h * 3600 + Z.of_N mi * 60
               + Z.of_N sec) * 10 ^ 9 + Z.of_N n)) ∧
  day 1970 1 1 = 0 ∧
  (let '(y', mo', d') := next_day (Z.of_N y) (Z.of_N mo) (Z.of_N d) in
   day y' mo' d' = day (Z.of_N y) (Z.of_N mo) (Z.of_N d) + 1).
Proof.
  intros Hn t Hv day. pose proof Hv as Hr. unfold t, valid_datetime in Hr.
  cbn [ts_year ts_month ts_day ts_hour ts_minute ts_second] in Hr. rewrite !andb_true_iff, !Z.leb_le in Hr.
  destruct Hr as ((((((((H1 & H2) & H3) & H4) & H5) & H6) & H7) & H8) & H9).
  assert (days_in_month (Z.of_N y) (Z.of_N mo) ≤ 31) as Hdim.
  { unfold days_in_month. destruct (_ =? 2); [by destruct (is_leap _)|]. by destruct (bool_decide _). }
  split_and!; [|done|].
  - unfold parse_ts_ns. rewrite match_ts_text by lia. fold t. rewrite Hv. cbn [negb]. do 2 f_equal.
    unfold utc_seconds, frac_nanos, day, t. cbn [ts_year ts_month ts_day ts_hour ts_minute ts_second
      ts_frac ts_offset]. rewrite zpad_length. cbn [Nat.sub replicate]. rewrite app_nil_r, zpad_value by done.
    lia.
  - pose proof (ymd2ord_next (Z.of_N y) (Z.of_N mo) (Z.of_N d) ltac:(lia) ltac:(lia)) as Hnext.
    destruct (next_day _ _ _) as [[y' m'] d']. unfold day. lia.
Qed.

Lemma parse_ts_exact_witness :
  parse_ts_ns (JStr (u "2024-02-29T23:59:59.000000001Z")) (u "t") = Ok (Some 1709251199000000001) ∧
  ymd2ord 2024 3 1 = ymd2ord 2024 2 29 + 1.
Proof.
  destruct (parse_ts_exact 2024 2 29 23 59 59 1 (u "t")) as (H1 & _ & H2).
  - reflexivity.
  - vm_compute. reflexivity.
  - split; [exact H1|]. clear H1. vm_compute. reflexivity.
Defined.
