(* ===== verification/Alpaca.v ===== *)
(** * Execution motor: the Alpaca client ([alpaca.py])

    One POST per submit, retries only for reads, reconciliation of ambiguous outcomes. The HTTP
    client is an oracle: the n-th request either fails with a transport error of some class,
    or gives a response; the requests and the backoff caps are recorded. *)
From S2P Require Import Prelude PyStr PyDecimal DecimalFacts Json MotorModels MotorConfig Limits.
From S2P Require Import PyRepr AlpacaParse DecimalText.

Definition PAPER_BASE_URL : pystr := u "https://paper-api.alpaca.markets".
Definition LIVE_BASE_URL : pystr := u "https://api.alpaca.markets".
Definition LIVE_OPT_IN_ENV : pystr := u "AFE_ENABLE_LIVE_TRADING".
Definition LIVE_CONFIRM_ENV : pystr := u "AFE_LIVE_TRADING_CONFIRM".
Definition LIVE_CONFIRM_VALUE : pystr := u "I-UNDERSTAND-THIS-TRADES-REAL-MONEY".

(** ** Credentials *)

Definition _PLACEHOLDER_FRAGMENTS : list pystr :=
  [ u "change-me"; u "change_me"; u "changeme"; u "replace-me"; u "replaceme"; u "placeholder";
    u "your-secret"; u "yoursecret"; u "your-key"; u "yourkey"; u "example" ].

Record AlpacaCredentials := mkCredentials { api_key : pystr; secret_key : pystr }.

Definition looks_placeholder (value : pystr) : bool :=
  existsb (λ f, contains f (lower value)) _PLACEHOLDER_FRAGMENTS.

(** [__post_init__]. *)
Definition make_credentials (c : AlpacaCredentials) : result AlpacaCredentials :=
  if is_blank (api_key c) || is_blank (secret_key c) then
    raise ConfigError (u "Alpaca credentials must be non-empty")
  else if looks_placeholder (api_key c) || looks_placeholder (secret_key c) then
    raise ConfigError (u "Alpaca credentials look like a placeholder; set real keys")
  else Ok c.

Definition credentials_from_env (env : environ) : result AlpacaCredentials :=
  let key := default [] (env !! u "ALPACA_API_KEY") in
  let secret := default [] (env !! u "ALPACA_SECRET_KEY") in
  if is_blank key || is_blank secret then
    raise ConfigError (u "ALPACA_API_KEY and ALPACA_SECRET_KEY are required")
  else make_credentials (mkCredentials key secret).

(** ** The endpoint *)

(** [s.rstrip("/")]. *)
Definition rstrip_slash (s : pystr) : pystr :=
  reverse ((fix go s := match s with c :: r => if (c =? 47)%N then go r else s | [] => [] end)
             (reverse s)).

Definition resolve_base_url (requested : option pystr) (env : environ) : result pystr :=
  match requested with
  | None => Ok PAPER_BASE_URL
  | Some requested =>
      if is_blank requested then Ok PAPER_BASE_URL
      else
        let url := rstrip_slash (strip requested) in
        if str_eqb url PAPER_BASE_URL then Ok PAPER_BASE_URL
        else if str_eqb url LIVE_BASE_URL then
          if bool_decide (env !! LIVE_OPT_IN_ENV = Some (u "true"))
             && bool_decide (env !! LIVE_CONFIRM_ENV = Some LIVE_CONFIRM_VALUE)
          then Ok LIVE_BASE_URL
          else raise LiveTradingRefused
                 (u "live endpoint requires " ++ LIVE_OPT_IN_ENV ++ u "=true AND " ++ LIVE_CONFIRM_ENV)
        else raise ConfigError
               (u "unrecognised Alpaca endpoint; only the paper (or gated live) host is allowed")
  end.

(** ** HTTP *)

Inductive Method := GET | POST | DELETE.
#[export] Instance Method_eq_dec : EqDecision Method. Proof. solve_decision. Defined.

Record HttpRequest := mkHttp {
  rq_method : Method; rq_url : pystr; rq_path : pystr;
  rq_params : list (pystr * pystr); rq_body : list (pystr * pystr) }.
Record HttpResponse := mkResponse { status_code : Z; text : pystr }.

(** [httpx]: [inl name] is an HTTPError whose class is [name]. *)
Definition HttpClient : Type := nat → HttpRequest → result (pystr + HttpResponse).

Record AlpacaBroker := mkAlpaca { _base_url : pystr; _read_retries : nat; _client : HttpClient }.

(** The requests sent and the caps of the backoff sleeps, in tenths of a second, oldest first. *)
Record HttpState := mkHttpState { requests : list HttpRequest; sleeps : list Z }.

(** [__init__]. *)
Definition make_alpaca (base_url : option pystr) (live_authorisation : environ) (read_retries : Z)
    (client : HttpClient) : result AlpacaBroker :=
  if read_retries <? 0 then raise ConfigError (u "read_retries must be >= 0")
  else url ← resolve_base_url base_url live_authorisation;
       Ok (mkAlpaca url (Z.to_nat read_retries) client).

(** [AlpacaPaperBroker.__init__]: no url, no live authorisation. *)
Definition AlpacaPaperBroker (read_retries : Z) (client : HttpClient) : result AlpacaBroker :=
  make_alpaca (Some PAPER_BASE_URL) ∅ read_retries client.

Definition alpaca_broker_from_env (env : environ) (client : HttpClient) : result AlpacaBroker :=
  _ ← credentials_from_env env;
  url ← resolve_base_url (env !! u "ALPACA_BASE_URL") env;
  if str_eqb url PAPER_BASE_URL then AlpacaPaperBroker 3 client
  else make_alpaca (Some url) env 3 client.

Definition alpaca_venue (b : AlpacaBroker) : pystr :=
  if str_eqb (_base_url b) PAPER_BASE_URL then u "alpaca-paper" else u "alpaca-live".

(** ** Bodies and messages *)

Definition _money (value : decimal) : pystr := format_f value.

Definition _order_body (q : BrokerOrderRequest) : list (pystr * pystr) :=
  [ (u "symbol", req_symbol q); (u "qty", _money (req_quantity q));
    (u "side", side_value (req_side q)); (u "type", order_type_value (req_order_type q));
    (u "time_in_force", req_time_in_force q); (u "client_order_id", req_client_order_id q) ]
  ++ match req_limit_price q with Some p => [(u "limit_price", _money p)] | None => [] end
  ++ match req_stop_price q with Some p => [(u "stop_price", _money p)] | None => [] end.

Definition _MAX_MESSAGE_CHARS : nat := 200.

Definition _error_message (r : HttpResponse) : pystr :=
  let message := match loads (text r) with
                 | Ok (JObj m) => default (JStr []) (obj_get m (u "message"))
                 | _ => JStr []
                 end in
  slice_to _MAX_MESSAGE_CHARS (py_str message).

(** ** The client *)

Definition _RETRYABLE_STATUS : list Z := [408; 429].
Definition _OPEN_ORDERS_PAGE : Z := 500.
Definition retryable (code : Z) : bool := bool_decide (code ∈ _RETRYABLE_STATUS).

(** [_ID_RE.fullmatch]. *)
Definition broker_id_re (s : pystr) : bool := class_rep (λ c, is_alnum c || (c =? 45)%N) 1 64 s.

Section client.
Context (b : AlpacaBroker).

Abbreviation HM := (M HttpState).

(** One request through the client. *)
Definition http (method : Method) (path : pystr) (params body : list (pystr * pystr))
  : HM (pystr + HttpResponse) := λ s,
  let q := mkHttp method (_base_url b) path params body in
  (_client b (length (requests s)) q, mkHttpState (requests s ++ [q]) (sleeps s)).

(** The cap of the full-jitter sleep after attempt [attempt], in tenths of a second. *)
Definition backoff_cap (attempt : nat) : Z := Z.min 20 (2 ^ Z.of_nat attempt).

(** What an attempt comes to: the response, a failure, or another attempt. *)
Inductive verdict := Return (resp : HttpResponse) | Give_up (msg : pystr) | Retry (last : pystr).
Definition read_verdict (r : pystr + HttpResponse) : verdict :=
  match r with
  | inl name => Retry name
  | inr resp =>
      let code := status_code resp in
      if (code <? 400) || (code =? 404) then Return resp
      else if negb (retryable code) && (code <? 500) then
        Give_up (u "read failed: HTTP " ++ str_of_Z code)
      else Retry (u "HTTP " ++ str_of_Z code)
  end.

(** The attempts from number [attempt] on, of which [more] may follow this one. *)
Fixpoint read_loop (more : nat) (attempt : nat) (path : pystr) (params : list (pystr * pystr))
  : HM HttpResponse :=
  r ← http GET path params [];
  match read_verdict r with
  | Return resp => mret resp
  | Give_up msg => lift (raise BrokerReadError msg)
  | Retry last =>
      match more with
      | O => lift (raise BrokerReadError (u "read failed after retries: " ++ last))
      | S more =>
          _ ← modify (λ s, mkHttpState (requests s) (sleeps s ++ [backoff_cap attempt]));
          read_loop more (S attempt) path params
      end
  end.

Definition _read (path : pystr) (params : list (pystr * pystr)) : HM HttpResponse :=
  read_loop (_read_retries b) 0 path params.

(** What [except (MalformedResponse, ValueError)] catches. *)
Definition value_error (c : exn_class) : bool :=
  bool_decide (c ∈ [MalformedResponse; ValueError; ValidationError]).

Definition _parsed {T} (r : HttpResponse) (fn : json → result T) : result T :=
  if 400 <=? status_code r then
    raise BrokerReadError (u "read failed: HTTP " ++ str_of_Z (status_code r))
  else try_except (body ← loads (text r); fn body) value_error
         (λ e, raise BrokerReadError (u "malformed response: " ++ exn_msg e)).

Definition BY_CLIENT_ID : pystr := u "/v2/orders:by_client_order_id".

Definition get_order_by_client_id (client_order_id : pystr) : HM (option BrokerOrder) :=
  resp ← _read BY_CLIENT_ID [(u "client_order_id", client_order_id)];
  if status_code resp =? 404 then mret None
  else
    order ← lift (_parsed resp parse_order);
    if negb (str_eqb (bo_client_order_id order) client_order_id) then
      lift (raise BrokerReadError (u "broker returned a different client_order_id"))
    else mret (Some order).

Definition list_open_orders : HM (list BrokerOrder) :=
  resp ← _read (u "/v2/orders") [(u "status", u "open"); (u "limit", str_of_Z _OPEN_ORDERS_PAGE);
                                 (u "direction", u "asc")];
  lift (_parsed resp parse_orders).

Definition get_positions : HM (list Position) :=
  resp ← _read (u "/v2/positions") []; lift (_parsed resp parse_positions).

Definition get_account : HM AccountSnapshot :=
  resp ← _read (u "/v2/account") []; lift (_parsed resp parse_account).

(** [except BrokerReadError]. *)
Definition catch_read_error {A} (m : HM A) (h : exn → HM A) : HM A := λ s,
  match m s with
  | (Raise e, s') => if bool_decide (exn_kind e = BrokerReadError) then h e s' else (Raise e, s')
  | r => r
  end.

Definition _reconcile (q : BrokerOrderRequest) (cause : pystr) : HM BrokerOrder :=
  found ← catch_read_error (get_order_by_client_id (req_client_order_id q)) (λ _,
    lift (raise SubmitOutcomeUnknown
            (u "submit outcome unknown (" ++ cause ++ u "); reconciliation failed")));
  match found with
  | None => lift (raise SubmitOutcomeUnknown
      (u "submit outcome unknown (" ++ cause ++ u "); not found at broker, may still be in flight"))
  | Some order => mret order
  end.

(** [parse.parse_order(parse.loads(resp.text))]; [None] is what the except clause catches. *)
Definition parse_2xx (resp : HttpResponse) : result (option BrokerOrder) :=
  try_except (body ← loads (text resp); order ← parse_order body; Ok (Some order))
    value_error (λ _, Ok None).

Definition submit_order (q : BrokerOrderRequest) : HM BrokerOrder :=
  resp ← http POST (u "/v2/orders") [] (_order_body q);
  match resp with
  | inl name => _reconcile q (u "transport:" ++ name)
  | inr resp =>
      let status := status_code resp in
      if (200 <=? status) && (status <? 300) then
        order ← lift (parse_2xx resp);
        match order with
        | None => _reconcile q (u "malformed_2xx")
        | Some order =>
            if negb (str_eqb (bo_client_order_id order) (req_client_order_id q))
               || negb (str_eqb (bo_symbol order) (req_symbol q))
            then _reconcile q (u "mismatched_2xx")
            else mret order
        end
      else if (400 <=? status) && (status <? 500) && negb (retryable status) then
        lift (raise BrokerRejectedError
          (u "broker rejected order (HTTP " ++ str_of_Z status ++ u "): " ++ _error_message resp))
      else _reconcile q (u "http_" ++ str_of_Z status)
  end.

Definition cancel_order (broker_order_id : pystr) : HM unit :=
  if negb (broker_id_re broker_order_id) then lift (raise BrokerError (u "invalid broker order id"))
  else
    resp ← http DELETE (u "/v2/orders/" ++ broker_order_id) [] [];
    match resp with
    | inl name => lift (raise BrokerError (u "cancel failed: " ++ name))
    | inr resp =>
        if negb ((200 <=? status_code resp) && (status_code resp <? 300)) then
          lift (raise BrokerError (u "cancel failed: HTTP " ++ str_of_Z (status_code resp)))
        else mret tt
    end.
End client.


(** ** What the requests are *)

Section client_facts.
Context (b : AlpacaBroker).
Implicit Types s : HttpState.

(** The state gained the requests [new] and between them at most one sleep each. *)
Definition gained s s' (new : list HttpRequest) : Prop := requests s' = requests s ++ new.

(** No request raises: [httpx] failures are HTTPErrors. *)
Definition client_ok : Prop := ∀ n q, is_ok (_client b n q) = true.

Definition get_request (path : pystr) (params : list (pystr * pystr)) : HttpRequest :=
  mkHttp GET (_base_url b) path params [].

(** The reads of one call: the same GET every time, at most one more than the retries. *)
Definition reads path params (k : nat) (new : list HttpRequest) : Prop :=
  (length new ≤ k)%nat ∧ Forall (λ q, q = get_request path params) new.

Lemma http_inv m path params body s r s' :
  http b m path params body s = (r, s') →
  requests s' = requests s ++ [mkHttp m (_base_url b) path params body] ∧ sleeps s' = sleeps s ∧
  (∃ n q, _client b n q = r).
Proof. unfold http. intros [= <- <-]. split_and!; [done..|]. by eexists _, _. Qed.

Definition read_ok (code : Z) : Prop := code < 400 ∨ code = 404.

(** The first request of a loop, the rest of which behaves as [reads] says. *)
Lemma reads_cons path params k new :
  reads path params k new → reads path params (S k) (get_request path params :: new).
Proof. intros [Hl Hn]. split; [cbn; lia|by constructor]. Qed.

Lemma read_loop_inv more attempt path params s r s' :
  read_loop b more attempt path params s = (r, s') →
  (∃ new caps, gained s s' new ∧ reads path params (S more) new ∧
     sleeps s' = sleeps s ++ caps ∧ (length caps ≤ more)%nat ∧ Forall (λ c, 0 < c ≤ 20) caps) ∧
  (∀ resp, r = Ok resp → read_ok (status_code resp)) ∧
  (client_ok → fails_as (λ c, c = BrokerReadError) r).
Proof.
  assert (∀ k s s', requests s' = requests s ++ [get_request path params] → sleeps s' = sleeps s →
    ∃ new caps, gained s s' new ∧ reads path params (S k) new ∧
     sleeps s' = sleeps s ++ caps ∧ (length caps ≤ k)%nat ∧ Forall (λ c, 0 < c ≤ 20) caps) as Hone.
  { intros k s1 s2 H1 H2. exists [get_request path params], []. rewrite app_nil_r.
    split_and!; [done| |done|cbn; lia|constructor]. apply reads_cons. split; [cbn; lia|constructor]. }
  revert attempt s. induction more as [|more IH]; intros attempt s; cbn [read_loop]; intros Hr.
  all: m_step Hr; apply http_inv in E as (Hq & Hs & n & q & Hc).
  2, 4: subst r; split; [by apply Hone|split; [done|]]; intros Hok; specialize (Hok n q);
    by rewrite Hc in Hok.
  all: destruct (read_verdict a) as [resp|msg|last] eqn:Ev.
  1, 4: injection Hr as <- <-; split; [by apply Hone|]; split; [|intros _; apply fails_ok];
    intros resp' [= <-]; unfold read_verdict in Ev; destruct a as [|resp']; [done|];
    destruct ((status_code resp' <? 400) || (status_code resp' =? 404)) eqn:Eo;
    [injection Ev as <-; unfold read_ok; lia|by destruct (_ && _)].
  1, 2, 3: injection Hr as <- <-; split; [by apply Hone|]; split; [done|];
    intros _; by apply fails_raise.
  m_step Hr; [|done]. injection E as _ <-.
  apply IH in Hr as ((new & caps & Hn & Hg & Hcap & Hl & Hall) & H2). split; [|done].
  unfold gained in Hn. cbn in Hn, Hcap. exists (get_request path params :: new), (backoff_cap attempt :: caps).
  unfold gained. rewrite Hn, Hq, Hcap, Hs, <- !app_assoc. split_and!; [done| |done|cbn; lia|].
  - by apply reads_cons.
  - constructor; [|done]. unfold backoff_cap.
    assert (0 < 2 ^ Z.of_nat attempt) by (apply Z.pow_pos_nonneg; lia). lia.
Qed.

Lemma parsed_fails {T} resp (fn : json → result T) :
  (∀ body, fails_as (λ c, c = MalformedResponse) (fn body)) →
  fails_as (λ c, c = BrokerReadError) (_parsed resp fn).
Proof.
  intros Hfn. unfold _parsed. destruct (400 <=? _); [by apply fails_raise|].
  assert (fails_as (λ c, c = MalformedResponse) (body ← loads (text resp); fn body)) as Hb.
  { apply fails_bind; [apply loads_parses|exact Hfn]. }
  unfold try_except. destruct (_ ≫= _) as [x|e]; [apply fails_ok|]. specialize (Hb e eq_refl).
  cbn in Hb. rewrite Hb. by apply fails_raise.
Qed.

Definition reconcile_reads (q : BrokerOrderRequest) : list HttpRequest → Prop :=
  reads BY_CLIENT_ID [(u "client_order_id", req_client_order_id q)] (S (_read_retries b)).

Lemma get_order_inv id s r s' :
  get_order_by_client_id b id s = (r, s') →
  (∃ new, gained s s' new ∧ reads BY_CLIENT_ID [(u "client_order_id", id)] (S (_read_retries b)) new) ∧
  (∀ o, r = Ok (Some o) → bo_client_order_id o = id) ∧
  (client_ok → fails_as (λ c, c = BrokerReadError) r).
Proof.
  unfold get_order_by_client_id. intros Hr.
  m_step Hr; apply read_loop_inv in E as ((new & caps & Hg & Hrd & _) & _ & Hf).
  2: { subst r. split; [by exists new|]. split; [done|]. intros Hok e' [= <-]. by apply (Hf Hok). }
  assert (∀ s1, s0 = s1 → ∃ new, gained s s1 new ∧
    reads BY_CLIENT_ID [(u "client_order_id", id)] (S (_read_retries b)) new) as Hnew
    by (intros s1 <-; by exists new).
  destruct (status_code a =? 404); [injection Hr as <- <-; split_and!; [by apply Hnew|done|
    intros _; apply fails_ok]|].
  pose proof (parsed_fails a parse_order order_parses) as Hp.
  m_step Hr; injection E as Ep <-.
  2: { subst r. split_and!; [by apply Hnew|done|]. intros _ e' [= <-]. by apply Hp. }
  destruct (str_eqb (bo_client_order_id a0) id) eqn:Eid; cbn [negb] in Hr; injection Hr as <- <-.
  - split_and!; [by apply Hnew| |intros _; apply fails_ok]. intros o [= <-]. by apply str_eqb_true.
  - split_and!; [by apply Hnew|done|]. intros _. by apply fails_raise.
Qed.

Lemma reconcile_inv q cause s r s' :
  _reconcile b q cause s = (r, s') →
  (∃ new, gained s s' new ∧ reconcile_reads q new) ∧
  (∀ o, r = Ok o → bo_client_order_id o = req_client_order_id q) ∧
  (client_ok → fails_as (λ c, c = SubmitOutcomeUnknown) r).
Proof.
  unfold _reconcile. intros Hr. apply M_bind_inv in Hr as [(found & s1 & E & Hr)|(e & E & ->)];
    unfold catch_read_error in E;
    destruct (get_order_by_client_id b (req_client_order_id q) s) as [[o|e'] s2] eqn:Eg;
    apply get_order_inv in Eg as ((new & Hg & Hrd) & Hid & Hf); try done.
  - injection E as -> ->. destruct found as [o|]; injection Hr as <- <-.
    + split; [by exists new|]. split; [|intros _; apply fails_ok]. intros o' [= <-]. by apply Hid.
    + split; [by exists new|]. split; [done|]. intros _. by apply fails_raise.
  - case_bool_decide; [discriminate E|]. discriminate E.
  - case_bool_decide as Hk; [injection E as <- <-|injection E as <- <-];
      (split; [by exists new|]; split; [done|]).
    + intros _. by apply fails_raise.
    + intros Hok. by destruct Hk; apply (Hf Hok).
Qed.

(** A definite refusal: a 4xx other than 408 and 429. *)
Definition refusal_status (code : Z) : Prop := 400 ≤ code < 500 ∧ retryable code = false.

Definition post_request (q : BrokerOrderRequest) : HttpRequest :=
  mkHttp POST (_base_url b) (u "/v2/orders") [] (_order_body q).

(** What the Broker interface allows a submit to raise. *)
Definition submit_error (answer : pystr + HttpResponse) (e : exn) : Prop :=
  exn_kind e = SubmitOutcomeUnknown ∨
  exn_kind e = BrokerRejectedError ∧ ∃ resp, answer = inr resp ∧ refusal_status (status_code resp).

Lemma parse_2xx_ok resp : ∃ x, parse_2xx resp = Ok x.
Proof.
  unfold parse_2xx, try_except.
  assert (fails_as (λ c, c = MalformedResponse)
            (body ← loads (text resp); order ← parse_order body; Ok (Some order))) as Hb.
  { apply fails_bind; [apply loads_parses|]. intros body. apply fails_bind; [apply order_parses|].
    intros o. apply fails_ok. }
  destruct (_ ≫= _) as [x|e]; [by eexists|]. rewrite (Hb e eq_refl). by eexists.
Qed.

Lemma alpaca_submit_inv q s r s' :
  submit_order b q s = (r, s') →
  (∃ new, gained s s' (post_request q :: new) ∧ reconcile_reads q new) ∧
  (∀ o, r = Ok o → bo_client_order_id o = req_client_order_id q) ∧
  (client_ok → ∃ answer, _client b (length (requests s)) (post_request q) = Ok answer ∧
                 ∀ e, r = Raise e → submit_error answer e).
Proof.
  unfold submit_order. intros Hr. m_step Hr.
  2: { injection E as Ec <-. subst r. split; [|split; [done|]].
       - exists []. split; [done|]. split; [cbn; lia|constructor].
       - intros Hok. specialize (Hok (length (requests s)) (post_request q)). unfold post_request in Hok. by rewrite Ec in Hok. }
  injection E as Ec Es.
  assert (∀ r1 s1, (∃ new, gained s0 s1 new ∧ reconcile_reads q new) → 
    (∀ o, r1 = Ok o → bo_client_order_id o = req_client_order_id q) →
    (client_ok → ∀ e, r1 = Raise e → submit_error a e) →
    (∃ new, gained s s1 (post_request q :: new) ∧ reconcile_reads q new) ∧
    (∀ o, r1 = Ok o → bo_client_order_id o = req_client_order_id q) ∧
    (client_ok → ∃ answer, _client b (length (requests s)) (post_request q) = Ok answer ∧
                 ∀ e, r1 = Raise e → submit_error answer e)) as Hend.
  { intros r1 s1 (new & Hg & Hrd) H1 H2. split_and!; [|done|].
    - exists new. split; [|done]. unfold gained in *. rewrite Hg, <- Es. cbn. by rewrite <- app_assoc.
    - intros Hok. exists a. split; [done|]. by apply H2. }
  assert (∃ new, gained s0 s0 new ∧ reconcile_reads q new) as Hnone.
  { exists []. unfold gained. rewrite app_nil_r. split; [done|]. split; [cbn; lia|constructor]. }
  assert (∀ cause, _reconcile b q cause s0 = (r, s') →
    (∃ new, gained s s' (post_request q :: new) ∧ reconcile_reads q new) ∧
    (∀ o, r = Ok o → bo_client_order_id o = req_client_order_id q) ∧
    (client_ok → ∃ answer, _client b (length (requests s)) (post_request q) = Ok answer ∧
                 ∀ e, r = Raise e → submit_error answer e)) as Hrec.
  { intros cause H. apply reconcile_inv in H as (H1 & H2 & H3). apply Hend; [done..|].
    intros Hok e He. left. by apply (H3 Hok). }
  destruct a as [name|resp]; [by eapply Hrec|].
  destruct (_ && _).
  - destruct (parse_2xx_ok resp) as [x Hx]. rewrite Hx in Hr.
    unfold mbind, M_bind, lift in Hr. destruct x as [o|]; [|by eapply Hrec].
    destruct (negb _ || negb _) eqn:Em; [by eapply Hrec|]. injection Hr as <- <-.
    apply orb_false_iff in Em as [Em _]. apply negb_false_iff, str_eqb_true in Em.
    apply Hend; [done| |done]. by intros o' [= <-].
  - destruct (_ && _) eqn:Eb; [|by eapply Hrec]. injection Hr as <- <-.
    apply Hend; [done..|]. intros _ e [= <-]. right. split; [done|]. exists resp. split; [done|].
    unfold refusal_status. rewrite !andb_true_iff in Eb. destruct Eb as [[? ?] E3].
    apply negb_true_iff in E3. split; [lia|done].
Qed.
End client_facts.

(** ** Properties *)

(** C38: A submit sends the order once. Whatever the broker and the network answer, [submit_order]
    makes exactly one POST, first, with the body of this order, and after it only reads of this
    client order id, at most the configured retries plus one; an order it returns carries the
    client order id that was submitted. *)
Theorem submit_sends_once b q s r s' :
  submit_order b q s = (r, s') →
  (∃ reads_, requests s' = requests s ++ post_request b q :: reads_ ∧
     (length reads_ ≤ S (_read_retries b))%nat ∧
     Forall (λ g, g = get_request b BY_CLIENT_ID [(u "client_order_id", req_client_order_id q)]) reads_) ∧
  (∀ o, r = Ok o → bo_client_order_id o = req_client_order_id q).
Proof.
  intros H. apply alpaca_submit_inv in H as ((new & Hg & Hl & Hall) & Hid & _). split; [|done]. by exists new.
Qed.

(** An ambiguous outcome is never called a rejection. When transport failures are HTTPErrors, a
    submit that does not return an order raises BrokerRejectedError only if the POST itself
    was answered with a definite refusal - a 4xx other than 408 and 429 - and otherwise
    SubmitOutcomeUnknown: a timeout, a 5xx, a malformed or mismatched 2xx, a failed
    reconciliation. No other exception escapes. *)
Theorem submit_ambiguity_is_unknown b q s e s' :
  client_ok b → submit_order b q s = (Raise e, s') →
  ∃ answer, _client b (length (requests s)) (post_request b q) = Ok answer ∧
    (exn_kind e = SubmitOutcomeUnknown ∨
     exn_kind e = BrokerRejectedError ∧
       ∃ resp, answer = inr resp ∧ 400 ≤ status_code resp < 500 ∧ status_code resp ∉ [408; 429]).
Proof.
  intros Hok H. apply alpaca_submit_inv in H as (_ & _ & Hf). destruct (Hf Hok) as (answer & Ha & He).
  exists answer. split; [done|]. destruct (He e eq_refl) as [|(Hk & resp & -> & Hs & Hr)]; [by left|right].
  split; [done|]. exists resp. split; [done|]. split; [exact Hs|].
  unfold retryable in Hr. by apply bool_decide_eq_false in Hr.
Qed.

(** Live trading needs both opt-ins. A broker built from the environment talks to the paper
    host, or to the live host when AFE_ENABLE_LIVE_TRADING is exactly "true" and
    AFE_LIVE_TRADING_CONFIRM is exactly the phrase; the paper broker always talks to the paper
    host; and every request of every operation of a broker goes to its host. *)
Theorem live_needs_both_optins :
  (∀ env client b, alpaca_broker_from_env env client = Ok b →
     _base_url b = PAPER_BASE_URL ∨
     _base_url b = LIVE_BASE_URL ∧ env !! u "AFE_ENABLE_LIVE_TRADING" = Some (u "true") ∧
       env !! u "AFE_LIVE_TRADING_CONFIRM" = Some (u "I-UNDERSTAND-THIS-TRADES-REAL-MONEY")) ∧
  (∀ retries client b, AlpacaPaperBroker retries client = Ok b → _base_url b = PAPER_BASE_URL) ∧
  (∀ b m path params body s r s', http b m path params body s = (r, s') →
     ∃ q, requests s' = requests s ++ [q] ∧ rq_url q = _base_url b).
Proof.
  assert (∀ requested env url, resolve_base_url requested env = Ok url →
    url = PAPER_BASE_URL ∨ url = LIVE_BASE_URL ∧ env !! LIVE_OPT_IN_ENV = Some (u "true") ∧
      env !! LIVE_CONFIRM_ENV = Some LIVE_CONFIRM_VALUE) as Hres.
  { intros [requested|] env url; cbn; [|intros ->%Ok_inj; by left].
    destruct (is_blank requested); [intros ->%Ok_inj; by left|].
    destruct (str_eqb _ PAPER_BASE_URL); [intros ->%Ok_inj; by left|].
    destruct (str_eqb _ LIVE_BASE_URL); [|done]. destruct (_ && _) eqn:E; [|done].
    intros ->%Ok_inj. apply andb_true_iff in E as [?%bool_decide_eq_true ?%bool_decide_eq_true].
    by right. }
  assert (∀ requested env retries client b, make_alpaca requested env retries client = Ok b →
    resolve_base_url requested env = Ok (_base_url b)) as Hmake.
  { intros requested env retries client b. unfold make_alpaca. destruct (retries <? 0); [done|].
    intros (url & Hu & Hb)%bind_ok. apply Ok_inj in Hb. by subst b. }
  assert (∀ retries client b, AlpacaPaperBroker retries client = Ok b → _base_url b = PAPER_BASE_URL)
    as Hpaper.
  { intros retries client b H%Hmake. revert H. vm_compute (resolve_base_url _ _).
    intros H%Ok_inj. by rewrite <- H. }
  split_and!; [|done|].
  - intros env client b H. unfold alpaca_broker_from_env in H. ok_inv.
    destruct (str_eqb a0 PAPER_BASE_URL); [left; by eapply Hpaper|].
    apply Hmake in H. by eapply Hres.
  - intros b m path params body s r s' H. apply http_inv in H as (H & _). eexists. by split.
Qed.

(** The amounts on the wire are the amounts of the order. The quantity, and the limit and stop
    price when the order has them, are written in plain notation, and the text read back is a
    decimal of exactly the same value. *)
Theorem wire_amounts_exact q :
  is_finite (req_quantity q) = true →
  (∀ p, req_limit_price q = Some p → is_finite p = true) →
  (∀ p, req_stop_price q = Some p → is_finite p = true) →
  (∃ t d, str_assoc (_order_body q) (u "qty") = Some t ∧ dec_of_str t = Some d ∧
          value_eq d (req_quantity q)) ∧
  (∀ p, req_limit_price q = Some p →
     ∃ t d, str_assoc (_order_body q) (u "limit_price") = Some t ∧ dec_of_str t = Some d ∧ value_eq d p) ∧
  (∀ p, req_stop_price q = Some p →
     ∃ t d, str_assoc (_order_body q) (u "stop_price") = Some t ∧ dec_of_str t = Some d ∧ value_eq d p) ∧
  (req_limit_price q = None → str_assoc (_order_body q) (u "limit_price") = None) ∧
  (req_stop_price q = None → str_assoc (_order_body q) (u "stop_price") = None).
Proof.
  intros Hq Hl Hs.
  assert (∀ p, is_finite p = true → ∃ d, dec_of_str (_money p) = Some d ∧ value_eq d p) as Hm.
  { intros [c e| |] Hp; [|done..]. apply format_roundtrip. }
  unfold _order_body. split_and!.
  - destruct (Hm _ Hq) as (d & H1 & H2). exists (_money (req_quantity q)), d. by split_and!.
  - intros p Hp. destruct (Hm p (Hl p Hp)) as (d & H1 & H2). exists (_money p), d. by rewrite Hp.
  - intros p Hp. destruct (Hm p (Hs p Hp)) as (d & H1 & H2). exists (_money p), d. rewrite Hp.
    by destruct (req_limit_price q).
  - intros ->. by destruct (req_stop_price q).
  - intros ->. by destruct (req_limit_price q).
Qed.

(** A read tries a bounded number of times and an open order is never dropped. [_read] sends
    the same GET at most once more than the configured retries, sleeps between attempts within
    two seconds, and returns only a response below 400 or a 404; [list_open_orders] returns an
    order for each item of the broker's array, in order, or raises. *)
Theorem reads_bounded_and_strict b path params s :
  (∀ r s', _read b path params s = (r, s') →
     ∃ new caps, requests s' = requests s ++ new ∧ (length new ≤ S (_read_retries b))%nat ∧
       Forall (λ g, g = get_request b path params) new ∧
       sleeps s' = sleeps s ++ caps ∧ (length caps ≤ _read_retries b)%nat ∧
       Forall (λ c, 0 < c ≤ 20) caps ∧
       (∀ resp, r = Ok resp → status_code resp < 400 ∨ status_code resp = 404)) ∧
  (∀ os s', list_open_orders b s = (Ok os, s') →
     ∃ resp l, loads (text resp) = Ok (JArr l) ∧ status_code resp < 400 ∧
       Forall2 (λ item o, parse_order item = Ok o) l os).
Proof.
  split.
  - intros r s' H. apply read_loop_inv in H as ((new & caps & Hg & (Hl & Hall) & H1 & H2 & H3) & H4 & _).
    exists new, caps. by split_and!.
  - intros os s' H. unfold list_open_orders in H. m_step H; [|done]. injection H as H _.
    unfold _parsed in H. destruct (Z.leb_spec 400 (status_code a)); [done|].
    unfold try_except in H. destruct (body ← loads (text a); parse_orders body) as [x|e] eqn:Ep.
    + apply Ok_inj in H. subst x. apply bind_ok in Ep as (body & Hb & Ho).
      unfold parse_orders, malformed in Ho. destruct body as [| | | | |l|]; try done.
      exists a, l. ands; [done|done|]. by apply mapR_Ok.
    + by destruct (value_error _).
Qed.

(** ** A concrete broker *)

Definition sim_q : BrokerOrderRequest :=
  mkRequest (u "sig-1") (u "AAPL") BUY LIMIT (DFin 150 (-2)) (Some (DFin 10025 (-2))) None (u "day").
Definition sim_body (client : String.string) : pystr :=
  qq (u "{'id':'b-1','client_order_id':'" ++ u client ++
      u "','symbol':'AAPL','status':'filled','qty':'1.5','filled_qty':'1.5','filled_avg_price':'100'}").
(** The POST times out; the reads answer 503, then the order. *)
Definition sim_alpaca : AlpacaBroker :=
  mkAlpaca PAPER_BASE_URL 3 (λ n _,
    match n with
    | 0%nat => Ok (inl (u "ReadTimeout"))
    | 1%nat => Ok (inr (mkResponse 503 []))
    | _ => Ok (inr (mkResponse 200 (sim_body "sig-1")))
    end).
Definition sim_refused (code : Z) : AlpacaBroker :=
  mkAlpaca PAPER_BASE_URL 1 (λ _ _, Ok (inr (mkResponse code []))).
Definition no_requests : HttpState := mkHttpState [] [].

Lemma submit_sends_once_witness :
  ∃ o s', submit_order sim_alpaca sim_q no_requests = (Ok o, s') ∧ length (requests s') = 3%nat ∧
    bo_client_order_id o = u "sig-1".
Proof.
  assert (∃ o, (submit_order sim_alpaca sim_q no_requests).1 = Ok o) as [o Ho]
    by (eexists; vm_compute; reflexivity).
  assert (length (requests (submit_order sim_alpaca sim_q no_requests).2) = 3%nat) as Hn
    by (vm_compute; reflexivity).
  destruct (submit_order sim_alpaca sim_q no_requests) as [r s'] eqn:E.
  cbn [fst snd] in Ho, Hn. subst r. exists o, s'. split; [reflexivity|]. split; [exact Hn|].
  destruct (submit_sends_once _ _ _ _ _ E) as [_ H]. apply H. reflexivity.
Defined.

(** A 422 is a rejection, a 500 is not. *)
Lemma submit_ambiguity_is_unknown_witness :
  ∃ e s', submit_order (sim_refused 500) sim_q no_requests = (Raise e, s') ∧
    exn_kind e ≠ BrokerRejectedError ∧
    exn_kind <$> match (submit_order (sim_refused 422) sim_q no_requests).1 with
                 | Raise e => Some e | Ok _ => None end = Some BrokerRejectedError.
Proof.
  destruct (submit_order (sim_refused 500) sim_q no_requests) as [[o|e] s'] eqn:E.
  { assert (is_ok (submit_order (sim_refused 500) sim_q no_requests).1 = false) as H
      by (vm_compute; reflexivity). rewrite E in H. discriminate H. }
  exists e, s'. split; [reflexivity|]. split; [|vm_compute; reflexivity].
  destruct (submit_ambiguity_is_unknown (sim_refused 500) sim_q no_requests e s')
    as (answer & Ha & Hk).
  - intros n q. reflexivity.
  - exact E.
  - cbn in Ha. apply Ok_inj in Ha. destruct Hk as [Hk|(_ & resp & Hr & Hs & _)].
    + rewrite Hk. discriminate.
    + rewrite Hr in Ha. injection Ha as Ha. rewrite <- Ha in Hs. cbn in Hs. lia.
Defined.

Lemma wire_amounts_exact_witness :
  str_assoc (_order_body sim_q) (u "qty") = Some (u "1.50") ∧
  ∃ t d, str_assoc (_order_body sim_q) (u "limit_price") = Some t ∧ dec_of_str t = Some d ∧
         value_eq d (DFin 10025 (-2)).
Proof.
  split; [vm_compute; reflexivity|].
  destruct (wire_amounts_exact sim_q) as (_ & H & _).
  - reflexivity.
  - intros p Hp. injection Hp as <-. reflexivity.
  - intros p Hp. discriminate Hp.
  - apply H. reflexivity.
Defined.

Lemma live_needs_both_optins_witness :
  ∃ b, alpaca_broker_from_env {[ u "ALPACA_API_KEY" := u "PK1"; u "ALPACA_SECRET_KEY" := u "sk1" ]}
         (λ _ _, Ok (inl [])) = Ok b ∧ _base_url b = PAPER_BASE_URL.
Proof.
  destruct (alpaca_broker_from_env _ _) as [b|e] eqn:E; [|vm_compute in E; discriminate E].
  exists b. split; [reflexivity|]. destruct live_needs_both_optins as [H _].
  destruct (H _ _ _ E) as [Hp|(_ & Ho & _)]; [exact Hp|]. vm_compute in Ho. discriminate Ho.
Defined.

Lemma reads_bounded_and_strict_witness :
  ∃ r s', _read sim_alpaca (u "/v2/account") [] no_requests = (r, s') ∧ length (requests s') = 3%nat ∧
    (length (sleeps s') ≤ 3)%nat.
Proof.
  assert (length (requests (_read sim_alpaca (u "/v2/account") [] no_requests).2) = 3%nat) as Hn
    by (vm_compute; reflexivity).
  destruct (reads_bounded_and_strict sim_alpaca (u "/v2/account") [] no_requests) as [H _].
  destruct (_read sim_alpaca (u "/v2/account") [] no_requests) as [r s'] eqn:E.
  exists r, s'. split; [reflexivity|]. split; [exact Hn|].
  destruct (H r s' eq_refl) as (new & caps & _ & _ & _ & Hs & Hl & _). rewrite Hs. exact Hl.
Defined.
