(* ===== verification/KillWatch.v ===== *)
(** * Execution motor: reacting to Aegis's kill switch ([kill_watch.py])

    The level mirror, the sweep that cancels open orders, and the watcher: a stream thread and a
    sweeper thread over shared state, as a step relation whose steps are the sections of the two
    loops between which the other thread can run. The brokers, the stream, the liveness probe
    and the scheduler are oracles. *)
From S2P Require Import Prelude PyStr MotorModels Halt.

Definition KILL_LEVEL_NORMAL : Z := 0.
Definition KILL_LEVEL_SOFT : Z := 1.
Definition KILL_LEVEL_LOGIC : Z := 2.
Definition KILL_LEVEL_HARD : Z := 4.
Definition _KILL_LEVEL_MAX : Z := 5.
Definition CANCEL_THRESHOLD : Z := KILL_LEVEL_LOGIC.

(** ** KillLevelMirror *)

Record KillLevelMirror := mkMirror { _level : Z; _known : bool }.

Definition initial_mirror : KillLevelMirror := mkMirror KILL_LEVEL_HARD false.

Definition safe_level (level : Z) : Z :=
  if (KILL_LEVEL_NORMAL <=? level) && (level <=? _KILL_LEVEL_MAX) then level else KILL_LEVEL_HARD.
(** The previous level and the new mirror. *)
Definition apply_level (level : Z) (m : KillLevelMirror) : Z * KillLevelMirror :=
  (_level m, mkMirror (safe_level level) true).
Definition mark_unknown (m : KillLevelMirror) : Z * KillLevelMirror :=
  (_level m, mkMirror KILL_LEVEL_HARD false).

(** ** OpenOrderCanceller *)

Record SweepResult := mkSweep {
  listed : Z; cancelled : list pystr; failed : list pystr; unreadable_venues : list pystr }.

Definition complete (r : SweepResult) : bool :=
  bool_decide (failed r = []) && bool_decide (unreadable_venues r = []).

(** What a sweep uses of a broker, at the n-th broker call. *)
Record VenueBroker := mkVenue {
  open_orders : nat → result (list BrokerOrder);
  cancel : nat → pystr → result unit }.

(** Broker calls so far, and the cancels sent as venue and broker order id, oldest first. *)
Record SweepState := mkSweepState { broker_calls : nat; cancels : list (pystr * pystr) }.

Definition sw_tick : M SweepState nat := λ s,
  (Ok (broker_calls s), mkSweepState (S (broker_calls s)) (cancels s)).

(** [broker.cancel_order(id)], its exception caught. *)
Definition try_cancel (venue : pystr) (b : VenueBroker) (id : pystr) : M SweepState bool :=
  n ← sw_tick;
  _ ← modify (λ s, mkSweepState (broker_calls s) (cancels s ++ [(venue, id)]));
  mret (is_ok (cancel b n id)).

(** The loop over a venue's orders, with the lists it appends to. *)
Fixpoint cancel_each (venue : pystr) (b : VenueBroker) (orders : list BrokerOrder)
    (cancelled failed : list pystr) : M SweepState (list pystr * list pystr) :=
  match orders with
  | [] => mret (cancelled, failed)
  | o :: orders =>
      let id := bo_broker_order_id o in
      ok ← try_cancel venue b id;
      if ok : bool then cancel_each venue b orders (cancelled ++ [id]) failed
      else cancel_each venue b orders cancelled (failed ++ [id])
  end.

(** [None] when the venue cannot be read. *)
Definition _sweep_venue (venue : pystr) (b : VenueBroker) (cancelled failed : list pystr)
  : M SweepState (option Z * (list pystr * list pystr)) :=
  n ← sw_tick;
  match open_orders b n with
  | Raise _ => mret (None, (cancelled, failed))
  | Ok orders =>
      lists ← cancel_each venue b orders cancelled failed;
      mret (Some (Z.of_nat (length orders)), lists)
  end.

Fixpoint sweep_venues (brokers : list (pystr * VenueBroker)) (r : SweepResult)
  : M SweepState SweepResult :=
  match brokers with
  | [] => mret r
  | (venue, b) :: brokers =>
      swept ← _sweep_venue venue b (cancelled r) (failed r);
      let '(count, (c, f)) := swept : option Z * (list pystr * list pystr) in
      sweep_venues brokers
        match count with
        | None => mkSweep (listed r) c f (unreadable_venues r ++ [venue])
        | Some n => mkSweep (listed r + n) c f (unreadable_venues r)
        end
  end.

Definition sweep (brokers : list (pystr * VenueBroker)) : M SweepState SweepResult :=
  sweep_venues brokers (mkSweep 0 [] [] []).

(** ** KillSwitchWatcher *)

Record AegisState := mkAegisState { state_seq : Z; effective_level : Z }.

(** The fields of the watcher; [sweeps] records every sweep with its reason, oldest first, and
    [cancelled_calls] the streams whose [cancel] was called. *)
Record Watcher := mkWatcher {
  _mirror : KillLevelMirror;
  _last_seq : option Z;
  _pending : option pystr;
  _wake : bool;
  _stop : bool;
  _sweeper_active : bool;
  _call : option nat;
  sweep_state : SweepState;
  sweeps : list (pystr * SweepResult);
  cancelled_calls : list nat;
}.

Definition initial_watcher : Watcher :=
  mkWatcher initial_mirror None None false false false None (mkSweepState 0 []) [] [].

Section watcher.
Context (brokers : list (pystr * VenueBroker)).

Definition set_mirror (m : KillLevelMirror) (w : Watcher) : Watcher :=
  mkWatcher m (_last_seq w) (_pending w) (_wake w) (_stop w) (_sweeper_active w) (_call w)
    (sweep_state w) (sweeps w) (cancelled_calls w).
Definition set_last_seq (s : option Z) (w : Watcher) : Watcher :=
  mkWatcher (_mirror w) s (_pending w) (_wake w) (_stop w) (_sweeper_active w) (_call w)
    (sweep_state w) (sweeps w) (cancelled_calls w).
Definition set_pending (p : option pystr) (wake : bool) (w : Watcher) : Watcher :=
  mkWatcher (_mirror w) (_last_seq w) p wake (_stop w) (_sweeper_active w) (_call w)
    (sweep_state w) (sweeps w) (cancelled_calls w).
Definition set_threads (stop active wake : bool) (w : Watcher) : Watcher :=
  mkWatcher (_mirror w) (_last_seq w) (_pending w) wake stop active (_call w)
    (sweep_state w) (sweeps w) (cancelled_calls w).
Definition set_call (c : option nat) (w : Watcher) : Watcher :=
  mkWatcher (_mirror w) (_last_seq w) (_pending w) (_wake w) (_stop w) (_sweeper_active w) c
    (sweep_state w) (sweeps w) (cancelled_calls w).

(** [cancel = getattr(call, "cancel", None)], called when there is a call. *)
Definition cancel_call (w : Watcher) : Watcher :=
  mkWatcher (_mirror w) (_last_seq w) (_pending w) (_wake w) (_stop w) (_sweeper_active w) (_call w)
    (sweep_state w) (sweeps w)
    (cancelled_calls w ++ match _call w with Some c => [c] | None => [] end).

(** [self._canceller.sweep(reason)]; it never raises. *)
Definition do_sweep (reason : pystr) (w : Watcher) : Watcher :=
  let '(r, s) := sweep brokers (sweep_state w) in
  mkWatcher (_mirror w) (_last_seq w) (_pending w) (_wake w) (_stop w) (_sweeper_active w) (_call w)
    s (sweeps w ++ match r with Ok r => [(reason, r)] | Raise _ => [] end) (cancelled_calls w).

Definition _request_sweep (reason : pystr) (w : Watcher) : Watcher :=
  if negb (_sweeper_active w) then do_sweep reason w else set_pending (Some reason) true w.

Definition begin_stream (w : Watcher) : Watcher := set_last_seq None w.

Definition level_reason (level seq : Z) : pystr :=
  u "aegis kill level " ++ str_of_Z level ++ u " (seq " ++ str_of_Z seq ++ u ")".

Definition handle_state (s : AegisState) (w : Watcher) : Watcher :=
  let seq := state_seq s in
  if match _last_seq w with Some last => seq <? last | None => false end then w
  else
    let w := set_last_seq (Some seq) w in
    let w := set_mirror (apply_level (effective_level s) (_mirror w)).2 w in
    let current := _level (_mirror w) in
    if CANCEL_THRESHOLD <=? current then _request_sweep (level_reason current seq) w else w.

Definition handle_stream_down (reason : pystr) (w : Watcher) : Watcher :=
  _request_sweep (u "kill state unknown: " ++ reason) (set_mirror (mark_unknown (_mirror w)).2 w).

(** The end of [consume]: the stream ended or failed with [reason], or [stop] was set. *)
Definition finish_stream (reason : pystr) (w : Watcher) : Watcher :=
  if _stop w then set_mirror (mark_unknown (_mirror w)).2 w else handle_stream_down reason w.

(** [consume] on a stream of [states] that then ends ([None]) or fails; also how many it applied. *)
Fixpoint consume_loop (states : list AegisState) (w : Watcher) : nat * bool * Watcher :=
  match states with
  | [] => (0, false, w)
  | s :: states =>
      if _stop w then (0, true, w)
      else let '(n, stopped, w) := consume_loop states (handle_state s w) in (S n, stopped, w)
  end%nat.
Definition consume (states : list AegisState) (failure : option exn) (w : Watcher) : nat * Watcher :=
  let '(received, stopped, w) := consume_loop states w in
  let reason := match failure with
                | Some e => if stopped : bool then u "stream ended" else exn_name (exn_kind e)
                | None => u "stream ended" end in
  (received, finish_stream reason w).

Definition sweep_if_elevated (w : Watcher) : Watcher :=
  let level := _level (_mirror w) in
  if level <? CANCEL_THRESHOLD then w
  else do_sweep (u "re-sweep at kill level " ++ str_of_Z level) w.

(** [check_liveness] with the probe's outcome, [None] when there is no probe. *)
Definition check_liveness (probe : option (result unit)) (w : Watcher) : bool * Watcher :=
  match probe with
  | None => (true, w)
  | Some outcome =>
      if negb (_known (_mirror w)) then (true, w)
      else match outcome with
           | Ok _ => (true, w)
           | Raise e =>
               (false, cancel_call (handle_stream_down
                  (u "liveness probe failed: " ++ exn_name (exn_kind e)) w))
           end
  end.

(** [start] and [stop]; [running] says whether a thread is alive. *)
Definition start (running : bool) (w : Watcher) : result Watcher :=
  if running then raise RuntimeErr (u "kill-switch watcher already running")
  else Ok (set_threads false true (_wake w) w).
Definition stop_request (w : Watcher) : Watcher :=
  set_threads true (_sweeper_active w) true (cancel_call (set_threads true (_sweeper_active w) (_wake w) w)).
Definition stop_joined (w : Watcher) : Watcher := set_threads (_stop w) false (_wake w) w.

(** [min(backoff * 2, max)] after a stream that delivered nothing, the base after one that did. *)
Definition next_backoff (base max backoff : Z) (received : nat) : Z :=
  Z.min ((match received with O => backoff | _ => base end) * 2) max.
End watcher.

(** ** The two threads *)

(** Where the stream thread and the sweeper thread are. *)
Inductive StreamPc := SpIdle | SpOpening | SpStreaming.
Inductive SweepPc := SwWait | SwSweep (reason : option pystr) | SwProbe | SwDone.

(** [accepted] is the state that was applied last, when nothing made it unknown since. *)
Record Sys := mkSys {
  watcher : Watcher; sp : StreamPc; sw : SweepPc; streams : nat; accepted : option AegisState }.

(** After [start]. *)
Definition initial_sys : Sys :=
  mkSys (set_threads false true false initial_watcher) SpIdle SwWait 0 None.

Definition out_of_order (s : AegisState) (w : Watcher) : bool :=
  match _last_seq w with Some last => state_seq s <? last | None => false end.

Section threads.
Context (brokers : list (pystr * VenueBroker)).

(** One section of [_stream_loop], of [_sweep_loop], or of [stop]. *)
Inductive wstep : Sys → Sys → Prop :=
  | step_begin x n c a :
      _stop x = false →
      wstep (mkSys x SpIdle c n a) (mkSys (begin_stream x) SpOpening c n None)
  | step_subscribe_failed x e n c a :
      wstep (mkSys x SpOpening c n a)
        (mkSys (handle_stream_down brokers (u "subscribe failed: " ++ exn_name (exn_kind e)) x)
           SpIdle c n None)
  | step_opened x n c a :
      wstep (mkSys x SpOpening c n a)
        (mkSys (let x := set_call (Some n) x in if _stop x then cancel_call x else x)
           SpStreaming c (S n) a)
  | step_item x s n c a :
      _stop x = false →
      wstep (mkSys x SpStreaming c n a)
        (mkSys (handle_state brokers s x) SpStreaming c n (if out_of_order s x then a else Some s))
  | step_stream_end x reason n c a :
      wstep (mkSys x SpStreaming c n a)
        (mkSys (set_call None (finish_stream brokers reason x)) SpIdle c n None)
  | step_wake x p n a :
      _stop x = false →
      wstep (mkSys x p SwWait n a) (mkSys (set_pending None false x) p (SwSweep (_pending x)) n a)
  | step_sweeper_exit x p n a :
      _stop x = true →
      wstep (mkSys x p SwWait n a) (mkSys (set_pending (_pending x) false x) p SwDone n a)
  | step_sweep_requested x reason p n a :
      wstep (mkSys x p (SwSweep (Some reason)) n a) (mkSys (do_sweep brokers reason x) p SwProbe n a)
  | step_sweep_elevated x p n a :
      wstep (mkSys x p (SwSweep None) n a) (mkSys (sweep_if_elevated brokers x) p SwProbe n a)
  | step_probe x probe p n a :
      wstep (mkSys x p SwProbe n a)
        (mkSys (check_liveness brokers probe x).2 p SwWait n
           (if (check_liveness brokers probe x).1 then a else None))
  | step_stop x p c n a :
      wstep (mkSys x p c n a) (mkSys (stop_request x) p c n a).

Definition reachable (y : Sys) : Prop := rtc wstep initial_sys y.

(** ** Invariant *)

Lemma do_sweep_mirror r w :
  _mirror (do_sweep brokers r w) = _mirror w ∧ _pending (do_sweep brokers r w) = _pending w ∧
  _sweeper_active (do_sweep brokers r w) = _sweeper_active w ∧ _stop (do_sweep brokers r w) = _stop w.
Proof. unfold do_sweep. by destruct (sweep brokers (sweep_state w)). Qed.

Lemma request_sweep_mirror r w :
  _mirror (_request_sweep brokers r w) = _mirror w ∧
  _sweeper_active (_request_sweep brokers r w) = _sweeper_active w ∧
  (_sweeper_active w = true → _pending (_request_sweep brokers r w) = Some r).
Proof.
  unfold _request_sweep. destruct (_sweeper_active w) eqn:E; cbn [negb]; [done|].
  destruct (do_sweep_mirror r w) as (? & ? & ? & ?). split_and!; [done|congruence|done].
Qed.

Lemma stream_down_mirror r w :
  _mirror (handle_stream_down brokers r w) = initial_mirror ∧
  _sweeper_active (handle_stream_down brokers r w) = _sweeper_active w ∧
  (_sweeper_active w = true →
   _pending (handle_stream_down brokers r w) = Some (u "kill state unknown: " ++ r)).
Proof.
  exact (request_sweep_mirror (u "kill state unknown: " ++ r) (set_mirror (mark_unknown (_mirror w)).2 w)).
Qed.

Lemma handle_state_mirror s w :
  out_of_order s w = true ∧ handle_state brokers s w = w ∨
  out_of_order s w = false ∧
  _mirror (handle_state brokers s w) = mkMirror (safe_level (effective_level s)) true ∧
  _sweeper_active (handle_state brokers s w) = _sweeper_active w ∧
  (safe_level (effective_level s) < CANCEL_THRESHOLD →
     sweeps (handle_state brokers s w) = sweeps w ∧ _pending (handle_state brokers s w) = _pending w) ∧
  (CANCEL_THRESHOLD ≤ safe_level (effective_level s) → _sweeper_active w = true →
     _pending (handle_state brokers s w)
     = Some (level_reason (safe_level (effective_level s)) (state_seq s))).
Proof.
  unfold handle_state, out_of_order. destruct (match _last_seq w with _ => _ end); [by left|right].
  split; [done|]. cbn [_mirror set_mirror set_last_seq apply_level snd _level].
  destruct (Z.leb_spec CANCEL_THRESHOLD (safe_level (effective_level s))).
  - match goal with |- context [_request_sweep _ ?r ?x] =>
      destruct (request_sweep_mirror r x) as (-> & -> & H1) end.
    split_and!; [done..|lia|]. intros _ Ha. by apply H1.
  - split_and!; [done..|lia].
Qed.

(** The level is what the last accepted state says, and HARD when there is none; there is none
    unless the stream it came from is still open. *)
Definition mirror_ok (y : Sys) : Prop :=
  match accepted y with
  | None => _mirror (watcher y) = initial_mirror
  | Some s => _mirror (watcher y) = mkMirror (safe_level (effective_level s)) true ∧
              sp y = SpStreaming
  end.

Lemma liveness_mirror probe w :
  ((check_liveness brokers probe w).1 = true ∧ (check_liveness brokers probe w).2 = w) ∨
  ((check_liveness brokers probe w).1 = false ∧
   _mirror (check_liveness brokers probe w).2 = initial_mirror ∧
   _sweeper_active (check_liveness brokers probe w).2 = _sweeper_active w ∧
   (_sweeper_active w = true → is_Some (_pending (check_liveness brokers probe w).2))).
Proof.
  unfold check_liveness. destruct probe as [[[]|e]|]; [destruct (negb _); by left| |by left].
  destruct (negb _); [by left|right]. cbn [fst snd].
  match goal with |- context [handle_stream_down brokers ?r w] =>
    destruct (stream_down_mirror r w) as (H1 & H2 & H3) end.
  split_and!; [done|exact H1|exact H2|]. intros Ha. cbn. rewrite H3; done.
Qed.

Lemma mirror_ok_step y y' : mirror_ok y → wstep y y' → mirror_ok y'.
Proof.
  unfold mirror_ok. intros Hy Hs. destruct Hs; cbn [accepted watcher sp] in *.
  - destruct a as [s|]; [by destruct Hy|done].
  - apply stream_down_mirror.
  - destruct a as [s|]; [by destruct Hy|]. cbn. by destruct (_stop x).
  - destruct (handle_state_mirror s x) as [[-> ->]|(-> & -> & _)]; [done|done].
  - unfold finish_stream. destruct (_stop x); [done|]. apply stream_down_mirror.
  - done.
  - done.
  - destruct (do_sweep_mirror reason x) as (-> & _). done.
  - unfold sweep_if_elevated. destruct (_ <? _); [done|].
    match goal with |- context [do_sweep brokers ?r x] => destruct (do_sweep_mirror r x) as (-> & _) end.
    done.
  - destruct (liveness_mirror probe x) as [[-> ->]|(-> & H & _)]; [done|exact H].
  - done.
Qed.

(** An invariant of the two threads. *)
Lemma reachable_ind (P : Sys → Prop) y :
  P initial_sys → (∀ y1 y2, P y1 → wstep y1 y2 → P y2) → reachable y → P y.
Proof.
  intros H0 Hs H. unfold reachable in H. revert H0. induction H as [y|y1 y2 y3 H12 _ IH]; [done|].
  intros H1. apply IH. by eapply Hs.
Qed.

Lemma reachable_mirror_ok y : reachable y → mirror_ok y.
Proof. apply reachable_ind; [done|]. apply mirror_ok_step. Qed.

Lemma reachable_active y : reachable y → _sweeper_active (watcher y) = true.
Proof.
  apply (reachable_ind (λ y, _sweeper_active (watcher y) = true)); [done|].
  intros y1 y2 H Hs. destruct Hs; cbn [watcher] in *; try done.
  - destruct (stream_down_mirror (u "subscribe failed: " ++ exn_name (exn_kind e)) x) as (_ & H1 & _).
    congruence.
  - cbn. by destruct (_stop x).
  - destruct (handle_state_mirror s x) as [[_ ->]|(_ & _ & H1 & _)]; congruence.
  - unfold finish_stream. destruct (_stop x); [done|].
    destruct (stream_down_mirror reason x) as (_ & H1 & _). cbn. congruence.
  - destruct (do_sweep_mirror reason x) as (_ & _ & H1 & _). congruence.
  - unfold sweep_if_elevated. destruct (_ <? _); [done|].
    match goal with |- context [do_sweep brokers ?r x] =>
      destruct (do_sweep_mirror r x) as (_ & _ & H1 & _) end. congruence.
  - destruct (liveness_mirror probe x) as [[_ ->]|(_ & _ & H1 & _)]; congruence.
Qed.

(** *** Sweeps *)

(** What a sweep read from each venue, in order: the open orders, [None] when the read failed. *)
Definition venue_reads : Type := list (pystr * option (list BrokerOrder)).

Definition read_of (v : pystr * VenueBroker) (r : pystr * option (list BrokerOrder)) : Prop :=
  r.1 = v.1 ∧ ∃ n, match r.2 with
                   | Some os => open_orders v.2 n = Ok os
                   | None => is_ok (open_orders v.2 n) = false
                   end.

(** Every order read, as the cancel that is due for it. *)
Definition due_of (r : pystr * option (list BrokerOrder)) : list (pystr * pystr) :=
  (λ o, (r.1, bo_broker_order_id o)) <$> default [] r.2.
Definition due (reads : venue_reads) : list (pystr * pystr) := reads ≫= due_of.
Definition unread (reads : venue_reads) : list pystr :=
  omap (λ r, match r.2 with None => Some r.1 | Some _ => None end) reads.

Lemma due_ids venue os reads :
  (due ((venue, Some os) :: reads)).*2 = (bo_broker_order_id <$> os) ++ (due reads).*2.
Proof.
  change (due ((venue, Some os) :: reads)) with (due_of (venue, Some os) ++ due reads).
  rewrite fmap_app. f_equal. unfold due_of. cbn [fst snd from_option id].
  rewrite <- list_fmap_compose. done.
Qed.

Lemma cancel_each_inv venue b orders c f s r s' :
  cancel_each venue b orders c f s = (r, s') →
  ∃ c' f', r = Ok (c ++ c', f ++ f') ∧ c' ++ f' ≡ₚ bo_broker_order_id <$> orders ∧
    cancels s' = cancels s ++ due_of (venue, Some orders).
Proof.
  revert c f s. induction orders as [|o orders IH]; intros c f s; cbn [cancel_each].
  { intros [= <- <-]. exists [], []. by rewrite !app_nil_r. }
  intros H. m_step H; [|done]. injection E as <- <-.
  destruct (is_ok _); apply IH in H as (c' & f' & -> & Hp & Hc); cbn in Hc.
  - exists (bo_broker_order_id o :: c'), f'. rewrite <- app_assoc. split; [done|]. split.
    + cbn. by rewrite Hp.
    + rewrite Hc, <- app_assoc. done.
  - exists c', (bo_broker_order_id o :: f'). rewrite <- app_assoc. split; [done|]. split.
    + cbn. by rewrite <- Permutation_middle, Hp.
    + rewrite Hc, <- app_assoc. done.
Qed.

Lemma sweep_venues_inv vs res s r s' :
  sweep_venues vs res s = (r, s') →
  ∃ reads c f, r = Ok (mkSweep (listed res + Z.of_nat (length (due reads))) (cancelled res ++ c)
                         (failed res ++ f) (unreadable_venues res ++ unread reads)) ∧
    Forall2 read_of vs reads ∧ c ++ f ≡ₚ (due reads).*2 ∧ cancels s' = cancels s ++ due reads.
Proof.
  revert res s. induction vs as [|[venue b] vs IH]; intros res s; cbn [sweep_venues].
  { intros [= <- <-]. exists [], [], []. cbn. rewrite !app_nil_r, Z.add_0_r. by destruct res. }
  intros H. m_step H; unfold _sweep_venue in E.
  2: { m_step E; [|done]. injection E0 as <- <-. destruct (open_orders b (broker_calls s)); [|done].
       m_step E; [done|]. apply cancel_each_inv in E0 as (? & ? & [=] & _). }
  m_step E; [|done]. injection E0 as <- <-.
  destruct (open_orders b (broker_calls s)) as [os|e] eqn:Eo.
  - m_step E; apply cancel_each_inv in E0 as (c & f & Ecf & Hp & Hc); [|done].
    injection Ecf as ->. injection E as <- <-. cbn in H, Hc.
    apply IH in H as (reads & c' & f' & -> & Hr & Hp' & Hc'). cbn [listed cancelled failed unreadable_venues].
    exists ((venue, Some os) :: reads), (c ++ c'), (f ++ f').
    assert (length (due ((venue, Some os) :: reads)) = (length os + length (due reads))%nat) as Hlen.
    { unfold due. cbn. rewrite length_app. unfold due_of. cbn. by rewrite length_fmap. }
    split; [rewrite Hlen, Nat2Z.inj_add, Z.add_assoc, !app_assoc; done|]. split_and!.
    + constructor; [|done]. split; [done|]. by exists (broker_calls s).
    + rewrite due_ids, <- Hp', <- Hp. solve_Permutation.
    + rewrite Hc', Hc. unfold due. cbn. by rewrite app_assoc.
  - injection E as <- <-. cbn in H. apply IH in H as (reads & c' & f' & -> & Hr & Hp' & Hc').
    cbn [listed cancelled failed unreadable_venues]. cbn in Hc'.
    exists ((venue, None) :: reads), c', f'. split_and!; [| |done|done].
    + unfold due, unread. cbn. by rewrite <- app_assoc.
    + constructor; [|done]. split; [done|]. exists (broker_calls s). cbn. by rewrite Eo.
Qed.

(** *** Requested sweeps *)

Lemma do_sweep_done r w : ∃ res, sweeps (do_sweep brokers r w) = sweeps w ++ [(r, res)].
Proof.
  unfold do_sweep. destruct (sweep brokers (sweep_state w)) as [r' s'] eqn:E.
  apply sweep_venues_inv in E as (reads & c & f & -> & _). by eexists.
Qed.

(** A request is waiting, or the sweeper has taken it and is about to sweep. *)
Definition awaiting (y : Sys) : Prop :=
  is_Some (_pending (watcher y)) ∨ ∃ r, sw y = SwSweep (Some r).

Lemma awaiting_step y y' :
  _sweeper_active (watcher y) = true → awaiting y → wstep y y' →
  awaiting y' ∨ ∃ r res, sweeps (watcher y') = sweeps (watcher y) ++ [(r, res)].
Proof.
  unfold awaiting. intros Ha Hy Hs. destruct Hs; cbn [watcher sw] in *; try (left; exact Hy).
  - left; left. destruct (stream_down_mirror (u "subscribe failed: " ++ exn_name (exn_kind e)) x)
      as (_ & _ & Hp). rewrite Hp; done.
  - left. cbn. by destruct (_stop x).
  - left. destruct (handle_state_mirror s x) as [[_ ->]|(_ & _ & _ & H1 & H2)]; [done|].
    destruct (Z.le_gt_cases CANCEL_THRESHOLD (safe_level (effective_level s))) as [Hle|Hle].
    + left. rewrite H2; done.
    + destruct Hy as [Hy|Hy]; [left|by right]. by rewrite (proj2 (H1 ltac:(lia))).
  - left. unfold finish_stream. destruct (_stop x); [exact Hy|]. left.
    destruct (stream_down_mirror reason x) as (_ & _ & Hp). cbn. rewrite Hp; done.
  - left; right. destruct Hy as [[r Hr]|(r & ?)]; [exists r; by rewrite Hr|done].
  - destruct Hy as [Hy|(r & ?)]; [|done]. left; by left.
  - right. destruct (do_sweep_done reason x) as [res Hres]. by exists reason, res.
  - left. destruct Hy as [Hy|(r & ?)]; [|done]. left. unfold sweep_if_elevated.
    destruct (_ <? _); [done|].
    match goal with |- context [do_sweep brokers ?r x] =>
      destruct (do_sweep_mirror r x) as (_ & -> & _) end. done.
  - left. destruct Hy as [Hy|(r & ?)]; [|done]. left.
    destruct (liveness_mirror probe x) as [[_ ->]|(_ & _ & _ & H)]; [done|by apply H].
Qed.
End threads.

(** ** Properties *)

Section kill_properties.
Context (brokers : list (pystr * VenueBroker)).

(** [build_kill_guard]'s switch as it reads the mirror [m] now, with [halted] its local state. *)
Definition guard_switch (halted : bool) (m : KillLevelMirror) : KillSwitch :=
  set_halted (make_kill_switch false (Some (KillStateHaltSource (λ _, Ok (_level m)))) false) halted [].

(** C39: New orders are let through only on Aegis's own word. Whatever the streams deliver, however
    they fail, whatever the probe says and however the two threads interleave: when the kill
    switch of the guard answers "not halted", a stream is open, and the last state applied from it,
    with no stream failure and no failed probe since, had effective level NORMAL. *)
Theorem trading_needs_live_normal y halted :
  reachable brokers y → (is_halted (guard_switch halted (_mirror (watcher y)))).1 = false →
  sp y = SpStreaming ∧ ∃ s, accepted y = Some s ∧ effective_level s = 0 ∧
    _mirror (watcher y) = mkMirror KILL_LEVEL_NORMAL true.
Proof.
  intros Hy Hh. apply reachable_mirror_ok in Hy. unfold mirror_ok in Hy.
  assert (_level (_mirror (watcher y)) = 0) as Hl.
  { unfold is_halted, guard_switch, _external_halted, KillStateHaltSource in Hh. cbn in Hh.
    destruct (_level (_mirror (watcher y)) =? 0) eqn:E; [by apply Z.eqb_eq|]. by cbn in Hh. }
  destruct (accepted y) as [s|]; [|rewrite Hy in Hl; discriminate Hl].
  destruct Hy as [Hm Hsp]. split; [done|]. exists s. split; [done|]. rewrite Hm in Hl |- *. cbn in Hl.
  assert (effective_level s = 0) as He.
  { unfold safe_level in Hl. destruct (_ && _); [done|discriminate Hl]. }
  split; [done|]. by rewrite He.
Qed.

(** A sweep cancels every open order it can see, once, and says what is left. It always returns;
    it reads every venue in order, sends one cancel for each order of each venue it could read
    and no other, counts those orders, puts each into exactly one of cancelled and failed, and
    names the venues it could not read. *)
Theorem sweep_cancels_all vs s r s' :
  sweep vs s = (r, s') →
  ∃ reads res, r = Ok res ∧ Forall2 read_of vs reads ∧ cancels s' = cancels s ++ due reads ∧
    listed res = Z.of_nat (length (due reads)) ∧ cancelled res ++ failed res ≡ₚ (due reads).*2 ∧
    unreadable_venues res = unread reads ∧
    (complete res = true ↔ failed res = [] ∧ unread reads = []).
Proof.
  intros H. apply sweep_venues_inv in H as (reads & c & f & -> & Hr & Hp & Hc).
  eexists reads, _. split; [reflexivity|]. cbn. split_and!; try done.
  unfold complete. cbn. rewrite andb_true_iff, !bool_decide_eq_true. done.
Qed.

(** A step that ends the opening or the reading of a stream marks the state unknown and requests a
    sweep; only the end of reading while [stop] is set requests none. *)
Lemma stream_lost_step y y' :
  _sweeper_active (watcher y) = true → wstep brokers y y' → sp y' = SpIdle →
  (sp y = SpOpening →
     _mirror (watcher y') = initial_mirror ∧ is_Some (_pending (watcher y'))) ∧
  (sp y = SpStreaming →
     _mirror (watcher y') = initial_mirror ∧ (_stop (watcher y) = false → is_Some (_pending (watcher y'))) ∧
     (_stop (watcher y) = true →
        _pending (watcher y') = _pending (watcher y) ∧ sweeps (watcher y') = sweeps (watcher y))).
Proof.
  intros Ha Hs Hsp.
  destruct Hs; cbn [watcher sp] in *; subst; split; intros Hp; try done.
  - destruct (stream_down_mirror brokers (u "subscribe failed: " ++ exn_name (exn_kind e)) x) as (-> & _ & H).
    split; [done|]. by rewrite H.
  - unfold finish_stream. destruct (_stop x).
    + split_and!; [done|done|]. by intros _.
    + cbn. destruct (stream_down_mirror brokers reason x) as (-> & _ & H). split_and!; [done| |done]. by rewrite H.
Qed.

(** A failed probe does the same. *)
Lemma probe_lost_step y y' :
  _sweeper_active (watcher y) = true → wstep brokers y y' → sw y = SwProbe → sw y' = SwWait →
  _known (_mirror (watcher y)) = true → _known (_mirror (watcher y')) = false → is_Some (_pending (watcher y')).
Proof.
  intros Ha Hs H1 H2 Hk Hk'. destruct Hs; cbn [watcher sw] in *; subst; try done.
  destruct (liveness_mirror brokers probe x) as [[_ E]|(_ & _ & _ & H)]; [|by apply H]. rewrite E in Hk'. congruence.
Qed.

(** The sweeper, left to run, gets to the request: at most a sweep it had begun and a probe come
    first. *)
Lemma awaiting_swept y :
  awaiting y → _stop (watcher y) = false → sw y ≠ SwDone →
  ∃ y', rtc (wstep brokers) y y' ∧ sp y' = sp y ∧
        ∃ r res, sweeps (watcher y') = sweeps (watcher y) ++ [(r, res)].
Proof.
  assert (∀ x p n a, is_Some (_pending x) → _stop x = false →
    ∃ y', rtc (wstep brokers) (mkSys x p SwWait n a) y' ∧ sp y' = p ∧
          ∃ r res, sweeps (watcher y') = sweeps x ++ [(r, res)]) as Hwait.
  { intros x p n a [r Hr] Hstop. destruct (do_sweep_done brokers r (set_pending None false x)) as [res Hres].
    exists (mkSys (do_sweep brokers r (set_pending None false x)) p SwProbe n a).
    split; [|split; [done|by exists r, res]].
    eapply rtc_l; [by apply step_wake|]. rewrite Hr. apply rtc_once, step_sweep_requested. }
  destruct y as [x p c n a]. unfold awaiting. cbn [watcher sp sw]. intros Hy Hstop Hdone. destruct c as [|[r|]| |]; [..|done].
  - destruct Hy as [Hy|(r & ?)]; [|done]. by apply Hwait.
  - destruct (do_sweep_done brokers r x) as [res Hres].
    eexists. split; [apply rtc_once, step_sweep_requested|]. split; [done|]. by exists r, res.
  - destruct Hy as [Hy|(r & ?)]; [|done].
    destruct (Z.ltb_spec (_level (_mirror x)) CANCEL_THRESHOLD) as [Hl|Hl].
    + destruct (Hwait x p n a Hy Hstop) as (y' & Hs & ? & ?). exists y'. split; [|done].
      eapply rtc_l; [apply step_sweep_elevated|]. unfold sweep_if_elevated. rewrite (proj2 (Z.ltb_lt _ _) Hl).
      eapply rtc_l; [apply (step_probe _ _ None)|]. done.
    + destruct (do_sweep_done brokers (u "re-sweep at kill level " ++ str_of_Z (_level (_mirror x))) x) as [res Hres].
      eexists. split; [apply rtc_once, step_sweep_elevated|]. split; [done|]. cbn. unfold sweep_if_elevated.
      rewrite (proj2 (Z.ltb_ge _ _) Hl). eauto.
  - destruct Hy as [Hy|(r & ?)]; [|done]. destruct (Hwait x p n a Hy Hstop) as (y' & Hs & ? & ?). exists y'. split; [|done].
    eapply rtc_l; [apply (step_probe _ _ None)|]. done.
Qed.

(** C40: A level at or above LOGIC, and every loss of the stream, leads to a sweep; NORMAL and SOFT do
    not. In any reachable state: applying a state in order whose level is neither NORMAL (0) nor SOFT
    (1) leaves a sweep request, and one whose level is neither sweeps nor requests; a subscription
    that fails, a stream that ends or breaks and a probe that fails mark the state unknown (which
    reads as HARD, 4) and leave a sweep request - except that the end of a stream after [stop] was
    called requests none, the motor is shutting down. A request stays, through every step of
    either thread, until the sweeper has taken it and swept; and as long as neither [stop] was
    called nor the sweeper has exited, it can go on to that sweep without the stream thread. *)
Theorem elevated_level_is_swept y :
  reachable brokers y →
  (∀ s, out_of_order s (watcher y) = false →
     (effective_level s ≠ 0 → effective_level s ≠ 1 →
        is_Some (_pending (handle_state brokers s (watcher y)))) ∧
     (effective_level s = 0 ∨ effective_level s = 1 →
        sweeps (handle_state brokers s (watcher y)) = sweeps (watcher y) ∧
        _pending (handle_state brokers s (watcher y)) = _pending (watcher y))) ∧
  (∀ y', wstep brokers y y' → sp y' = SpIdle →
     (sp y = SpOpening →
        _mirror (watcher y') = mkMirror 4 false ∧ is_Some (_pending (watcher y'))) ∧
     (sp y = SpStreaming →
        _mirror (watcher y') = mkMirror 4 false ∧ (_stop (watcher y) = false → is_Some (_pending (watcher y'))) ∧
        (_stop (watcher y) = true →
           _pending (watcher y') = _pending (watcher y) ∧ sweeps (watcher y') = sweeps (watcher y)))) ∧
  (∀ y', wstep brokers y y' → sw y = SwProbe → sw y' = SwWait →
     _known (_mirror (watcher y)) = true → _known (_mirror (watcher y')) = false →
     is_Some (_pending (watcher y'))) ∧
  (awaiting y →
     (∀ y', wstep brokers y y' →
        awaiting y' ∨ ∃ r res, sweeps (watcher y') = sweeps (watcher y) ++ [(r, res)]) ∧
     (_stop (watcher y) = false → sw y ≠ SwDone →
        ∃ y', rtc (wstep brokers) y y' ∧ sp y' = sp y ∧
              ∃ r res, sweeps (watcher y') = sweeps (watcher y) ++ [(r, res)])).
Proof.
  intros Hy. apply reachable_active in Hy as Ha. split_and!.
  - intros s Hs. destruct (handle_state_mirror brokers s (watcher y)) as [[? _]|(_ & _ & _ & H1 & H2)];
      [congruence|]. unfold safe_level, KILL_LEVEL_NORMAL, _KILL_LEVEL_MAX, KILL_LEVEL_HARD, CANCEL_THRESHOLD, KILL_LEVEL_LOGIC in *.
    destruct (Z.leb_spec 0 (effective_level s)), (Z.leb_spec (effective_level s) 5); cbn [andb] in *;
      (split; [intros; rewrite H2 by (done || lia); done|intros; apply H1; lia]).
  - intros y' Hs. by apply stream_lost_step.
  - intros y' Hs. by apply probe_lost_step.
  - intros Hw. split; [intros y' Hs; by eapply awaiting_step|]. by apply awaiting_swept.
Qed.
End kill_properties.

(** ** A concrete watcher *)

Definition sim_open (id : pystr) : BrokerOrder :=
  mkBrokerOrder id id (u "AAPL") ACCEPTED (u "new") (PyDecimal.D 1) PyDecimal.D_ZERO None None None.
(** One venue with two orders, the second of which cannot be cancelled, and an unreadable one. *)
Definition sim_venues : list (pystr * VenueBroker) :=
  [ (u "a", mkVenue (λ _, Ok [sim_open (u "b1"); sim_open (u "b2")])
              (λ _ id, if str_eqb id (u "b2") then raise BrokerError [] else Ok tt));
    (u "b", mkVenue (λ _, raise BrokerReadError []) (λ _ _, Ok tt)) ].

(** Aegis reports NORMAL on the first stream. *)
Definition sim_sys : Sys :=
  let w := set_call (Some 0%nat) (begin_stream (watcher initial_sys)) in
  mkSys (handle_state sim_venues (mkAegisState 7 0) w) SpStreaming SwWait 1 (Some (mkAegisState 7 0)).

Lemma sim_sys_reachable : reachable sim_venues sim_sys.
Proof.
  eapply rtc_l; [apply step_begin; reflexivity|]. eapply rtc_l; [apply step_opened|].
  eapply rtc_l; [apply (step_item _ _ (mkAegisState 7 0)); reflexivity|]. apply rtc_refl.
Qed.

Lemma trading_needs_live_normal_witness :
  sp sim_sys = SpStreaming ∧ ∃ s, accepted sim_sys = Some s ∧ effective_level s = 0.
Proof.
  destruct (trading_needs_live_normal sim_venues sim_sys false) as (H1 & s & H2 & H3 & _).
  - exact sim_sys_reachable.
  - vm_compute. reflexivity.
  - split; [exact H1|]. exists s. split; [exact H2|exact H3].
Defined.

Lemma sweep_cancels_all_witness :
  ∃ res s', sweep sim_venues (mkSweepState 0 []) = (Ok res, s') ∧
    cancels s' = [(u "a", u "b1"); (u "a", u "b2")] ∧ failed res = [u "b2"] ∧
    unreadable_venues res = [u "b"] ∧ cancelled res ++ failed res ≡ₚ [u "b1"; u "b2"].
Proof.
  destruct (sweep sim_venues (mkSweepState 0 [])) as [r s'] eqn:E.
  destruct (sweep_cancels_all _ _ _ _ E) as (reads & res & Hr & _ & Hc & _ & Hp & _).
  vm_compute in E. injection E as Er Es. subst s'. rewrite Hr in Er. apply Ok_inj in Er.
  rewrite Hr. exists res. eexists. split; [reflexivity|].
  split; [vm_compute; reflexivity|]. rewrite <- Er in Hp |- *.
  split; [vm_compute; reflexivity|]. split; [vm_compute; reflexivity|].
  assert ((due reads).*2 = [u "b1"; u "b2"]) as Hd.
  { assert ([] ++ due reads = [(u "a", u "b1"); (u "a", u "b2")]) as Hd by exact (eq_sym Hc).
    cbn [app] in Hd. rewrite Hd. reflexivity. }
  rewrite Hd in Hp. exact Hp.
Defined.

(** The stream of [sim_sys] breaks. *)
Definition sim_broken : Sys :=
  mkSys (set_call None (finish_stream sim_venues (u "stream ended") (watcher sim_sys))) SpIdle SwWait 1 None.
Lemma sim_broken_step : wstep sim_venues sim_sys sim_broken.
Proof. apply step_stream_end. Qed.

Lemma elevated_level_is_swept_witness :
  is_Some (_pending (handle_state sim_venues (mkAegisState 8 9) (watcher sim_sys))) ∧
  is_Some (_pending (watcher sim_broken)).
Proof.
  destruct (elevated_level_is_swept sim_venues sim_sys) as (H & Hend & _).
  - exact sim_sys_reachable.
  - split.
    + destruct (H (mkAegisState 8 9)) as [H1 _]; [vm_compute; reflexivity|].
      apply H1; discriminate.
    + destruct (proj2 (Hend sim_broken sim_broken_step eq_refl) eq_refl) as (_ & Hp & _).
      apply Hp. vm_compute. reflexivity.
Defined.
