(* ===== verification/ServerConfig.v ===== *)
(** * Execution motor: transport configuration ([server_config.py])

    Listen address, TLS material, the broker choice and the Aegis channel, from the environment,
    fail closed. [ipaddress] is Python 3.12's, the version the Dockerfile pins. *)
From S2P Require Import Prelude PyStr PyDecimal MotorConfig Alpaca.

(** ** [ipaddress.ip_address(host).is_loopback] *)

(** [s.split(c)]. *)
Fixpoint split_on (c : N) (s : pystr) : list pystr :=
  match s with
  | [] => [[]]
  | x :: s => match split_on c s with
              | part :: parts => if (x =? c)%N then [] :: part :: parts else (x :: part) :: parts
              | [] => [[x]]
              end
  end.

Definition parse_octet (s : pystr) : option Z :=
  if bool_decide (s = []) || negb (forallb is_digit s) || (3 <? length s)%nat
     || (negb (str_eqb s (u "0")) && starts_with (u "0") s) then None
  else let n := Z.of_N (num_of_digits 0 s) in if 255 <? n then None else Some n.

Definition ipv4_of (s : pystr) : option Z :=
  match split_on 46 s with
  | [a; b; c; d] =>
      a ← parse_octet a; b ← parse_octet b; c ← parse_octet c; d ← parse_octet d;
      Some (a * 2 ^ 24 + b * 2 ^ 16 + c * 2 ^ 8 + d)
  | _ => None
  end.

Definition hex_digit (c : N) : option Z :=
  if is_digit c then Some (Z.of_N c - 48)
  else if in_range 97 102 c then Some (Z.of_N c - 87)
  else if in_range 65 70 c then Some (Z.of_N c - 55) else None.

(** One to four hexadecimal digits. *)
Definition parse_hextet (s : pystr) : option Z :=
  if bool_decide (s = []) || (4 <? length s)%nat then None
  else foldl (λ acc c, a ← acc; d ← hex_digit c; Some (a * 16 + d)) (Some 0) s.

Fixpoint hextets (acc : Z) (l : list pystr) : option Z :=
  match l with [] => Some acc | s :: l => h ← parse_hextet s; hextets (acc * 65536 + h) l end.

(** The last part written as an IPv4 address counts as two hextets, given here as numbers. *)
Definition ipv6_parts (s : pystr) : option (list pystr * option Z) :=
  let parts := split_on 58 s in
  if (length parts <? 3)%nat then None
  else match last parts with
       | Some l =>
           if contains (u ".") l then v ← ipv4_of l; Some (removelast parts, Some v)
           else Some (parts, None)
       | None => None
       end.

(** The inner empty parts, by position. *)
Definition inner_empty (parts : list pystr) : list nat :=
  filter (λ i, (1 ≤ i)%nat ∧ (S i < length parts)%nat ∧ parts !! i = Some []) (seq 0 (length parts)).

(** [_ip_int_from_string]; an IPv4 tail stands for two more parts, neither of them empty. *)
Definition ipv6_of (s : pystr) : option Z :=
  '(parts, tail) ← ipv6_parts s;
  let all := parts ++ match tail with Some _ => [u "0"; u "0"] | None => [] end in
  let n := length all in
  let v4 := default 0 tail in
  if (9 <? n)%nat then None
  else match inner_empty all with
  | [] =>
      if negb (n =? 8)%nat || bool_decide (all !! 0%nat = Some []) || bool_decide (last all = Some [])
      then None else h ← hextets 0 all; Some (h + v4)
  | [i] =>
      let first_empty := bool_decide (all !! 0%nat = Some []) in
      let last_empty := bool_decide (last all = Some []) in
      let hi := (i - (if first_empty then 1 else 0))%nat in
      let lo := (n - i - 1 - (if last_empty then 1 else 0))%nat in
      if (first_empty && negb (hi =? 0)%nat) || (last_empty && negb (lo =? 0)%nat)
         || (8 <? hi + lo + 1)%nat then None
      else h ← hextets 0 (take hi all);
           l ← hextets 0 (drop (n - lo) all);
           Some (h * 2 ^ (16 * Z.of_nat (8 - hi)) + l + v4)
  | _ => None
  end.

(** [s.partition("%")]: the address and the scope, which must not be empty or hold another "%". *)
Definition split_scope (s : pystr) : option pystr :=
  match split_on 37 s with
  | [a] => Some a
  | [a; scope] => if bool_decide (scope = []) then None else Some a
  | _ => None
  end.

Definition _is_loopback (host : pystr) : bool :=
  match (if contains (u "/") host then None else ipv4_of host) with
  | Some ip => ip / 2 ^ 24 =? 127
  | None =>
      match (if contains (u "/") host then None else a ← split_scope host; ipv6_of a) with
      | Some ip => ip =? 1
      | None => str_eqb host (u "localhost")
      end
  end.

(** ** Configuration *)

Definition _DEFAULT_LISTEN : pystr := u "0.0.0.0:50061".

Record TlsPaths := mkTls { tls_cert : pystr; tls_key : pystr; tls_client_ca : pystr }.
Record AegisClientTls := mkAegisTls {
  aegis_ca : option pystr; aegis_cert : option pystr; aegis_key : option pystr }.
Record ServerConfig := mkServerConfig {
  srv_environment : pystr; listen_host : pystr; listen_port : Z; tls : option TlsPaths;
  aegis_target : option pystr; aegis_tls : option AegisClientTls; use_mock_broker : bool;
  attestation_keys_file : pystr }.

Definition srv_is_production (c : ServerConfig) : bool := str_eqb (srv_environment c) (u "production").
Definition listen_addr (c : ServerConfig) : pystr := listen_host c ++ u ":" ++ str_of_Z (listen_port c).

(** [body.rpartition(c)]: before and after the last [c]; all of it after when there is none. *)
Definition rpartition (c : N) (s : pystr) : pystr * pystr :=
  let parts := split_on c s in
  (join [c] (removelast parts), default [] (last parts)).

(** [s.strip("[]")]. *)
Fixpoint lstrip_brackets (s : pystr) : pystr :=
  match s with c :: r => if one_of (u "[]") c then lstrip_brackets r else s | [] => [] end.
Definition strip_brackets (s : pystr) : pystr :=
  reverse (lstrip_brackets (reverse (lstrip_brackets s))).

Definition _split_listen (raw : pystr) : result (pystr * Z) :=
  let body := strip raw in
  let '(host_part, port_part) := rpartition 58 body in
  let host := if starts_with (u "[") body then strip_brackets host_part else host_part in
  if bool_decide (host = []) || bool_decide (port_part = []) || negb (forallb is_digit port_part) then
    raise ConfigError (u "MOTOR_LISTEN_ADDR " ++ repr_str raw ++ u " is not host:port")
  else Ok (host, Z.of_N (num_of_digits 0 port_part)).

(** [env.get(name, "").strip()]. *)
Definition env_get (env : environ) (name : pystr) : pystr := strip (default [] (env !! name)).

Definition srv_required_path (env : environ) (name : pystr) : result pystr :=
  let raw := env_get env name in
  if bool_decide (raw = []) then raise ConfigError (name ++ u " is required") else Ok raw.
Definition srv_optional_path (env : environ) (name : pystr) : option pystr :=
  let raw := env_get env name in if bool_decide (raw = []) then None else Some raw.

Definition _parse_tls (env : environ) (environment listen_host : pystr) (listen_explicit : bool)
  : result (option TlsPaths) :=
  if str_eqb (env_get env (u "MOTOR_INSECURE_DEV")) (u "1") then
    if str_eqb environment (u "production") then
      raise ConfigError (u "MOTOR_INSECURE_DEV=1 is refused when MOTOR_ENV is production (or unset)")
    else if negb listen_explicit || negb (_is_loopback listen_host) then
      raise ConfigError (u "MOTOR_INSECURE_DEV=1 (plaintext, no authentication) requires an explicit loopback MOTOR_LISTEN_ADDR such as 127.0.0.1:50061")
    else Ok None
  else
    cert ← srv_required_path env (u "MOTOR_TLS_CERT");
    key ← srv_required_path env (u "MOTOR_TLS_KEY");
    ca ← srv_required_path env (u "MOTOR_TLS_CLIENT_CA");
    Ok (Some (mkTls cert key ca)).

Definition _parse_aegis_tls (env : environ) (environment : pystr) : result (option AegisClientTls) :=
  let ca := srv_optional_path env (u "AEGIS_CLIENT_TLS_CA") in
  let cert := srv_optional_path env (u "AEGIS_CLIENT_TLS_CERT") in
  let key := srv_optional_path env (u "AEGIS_CLIENT_TLS_KEY") in
  if xorb (bool_decide (cert = None)) (bool_decide (key = None)) then
    raise ConfigError (u "AEGIS_CLIENT_TLS_CERT and AEGIS_CLIENT_TLS_KEY must be set together")
  else if str_eqb environment (u "production") && bool_decide (ca = None) then
    raise ConfigError (u "MOTOR_ENV=production refuses an insecure Aegis reporting channel: set AEGIS_CLIENT_TLS_CA (and AEGIS_CLIENT_TLS_CERT/AEGIS_CLIENT_TLS_KEY for mTLS)")
  else if bool_decide (ca = None) && bool_decide (cert = None) then Ok None
  else Ok (Some (mkAegisTls ca cert key)).

Definition _parse_broker (env : environ) (environment : pystr) : result bool :=
  let mock := str_eqb (env_get env (u "MOTOR_USE_MOCK_BROKER")) (u "1") in
  let has_creds := negb (bool_decide (env_get env (u "ALPACA_API_KEY") = []))
                   && negb (bool_decide (env_get env (u "ALPACA_SECRET_KEY") = [])) in
  if mock then
    if str_eqb environment (u "production") then
      raise ConfigError (u "MOTOR_USE_MOCK_BROKER=1 is refused when MOTOR_ENV is production (or unset)")
    else Ok true
  else if has_creds then Ok false
  else if str_eqb environment (u "production") then
    raise ConfigError (u "ALPACA_API_KEY/ALPACA_SECRET_KEY are required in production (or set MOTOR_USE_MOCK_BROKER=1 outside production)")
  else
    raise ConfigError (u "no broker configured: set ALPACA_API_KEY/ALPACA_SECRET_KEY, or MOTOR_USE_MOCK_BROKER=1 outside production").

Definition server_from_env (env : environ) : result ServerConfig :=
  let e := lower (strip (default (u "production") (env !! u "MOTOR_ENV"))) in
  let environment := if bool_decide (e = []) then u "production" else e in
  if negb (bool_decide (environment ∈ _ENVIRONMENTS)) then
    raise ConfigError (u "MOTOR_ENV must be one of ['development', 'production', 'staging', 'test']")
  else
    let raw_listen := env_get env (u "MOTOR_LISTEN_ADDR") in
    let explicit := negb (bool_decide (raw_listen = [])) in
    listen ← _split_listen (if explicit then raw_listen else _DEFAULT_LISTEN);
    tls ← _parse_tls env environment listen.1 explicit;
    mock ← _parse_broker env environment;
    let target := srv_optional_path env (u "AEGIS_TARGET") in
    if str_eqb environment (u "production") && bool_decide (target = None) then
      raise ConfigError (u "MOTOR_ENV=production requires AEGIS_TARGET: without it the motor cannot watch Aegis's kill-switch state and would leave open orders live after a LOGIC/HARD trip")
    else
      aegis ← _parse_aegis_tls env environment;
      keys ← srv_required_path env (u "MOTOR_ATTESTATION_KEYS_FILE");
      Ok (mkServerConfig environment listen.1 listen.2 tls target aegis mock keys).

(** ** Examples *)

Example loopback_examples :
  _is_loopback <$> (u <$> ["127.1.2.3"; "::1"; "0:0:0:0:0:0:0:1"; "::1%eth0"; "::0.0.0.1"; "localhost"])%string
  = [true; true; true; true; true; true].
Proof. vm_compute. reflexivity. Qed.
Example not_loopback_examples :
  _is_loopback <$> (u <$> ["0.0.0.0"; "128.0.0.1"; "127.0.0.01"; "::"; "1::"; "1:::2"; "::ffff:127.0.0.1"; ""])%string
  = replicate 8 false.
Proof. vm_compute. reflexivity. Qed.
Example split_listen_ipv6 : _split_listen (u "[::1]:50061") = Ok (u "::1", 50061).
Proof. vm_compute. reflexivity. Qed.

(** ** What is accepted *)

Lemma server_config_ok env c :
  server_from_env env = Ok c →
  srv_environment c ∈ _ENVIRONMENTS ∧
  (env !! u "MOTOR_ENV" = None → srv_is_production c = true) ∧
  (srv_is_production c = true →
     is_Some (tls c) ∧ is_Some (aegis_target c) ∧ use_mock_broker c = false ∧
     (∃ t, aegis_tls c = Some t ∧ is_Some (aegis_ca t)) ∧
     env_get env (u "ALPACA_API_KEY") ≠ [] ∧ env_get env (u "ALPACA_SECRET_KEY") ≠ []) ∧
  (tls c = None →
     srv_is_production c = false ∧ env_get env (u "MOTOR_INSECURE_DEV") = u "1" ∧
     env_get env (u "MOTOR_LISTEN_ADDR") ≠ [] ∧ _is_loopback (listen_host c) = true) ∧
  (∀ t, aegis_tls c = Some t → (aegis_cert t = None ↔ aegis_key t = None)).
Proof.
  unfold server_from_env. intros H. cbn zeta in H.
  set (e := if bool_decide _ then _ else _) in H. destruct (bool_decide (e ∈ _)) eqn:Ee; [|done].
  apply bool_decide_eq_true in Ee. cbn [negb] in H.
  apply bind_ok in H as ([host port] & _ & H). apply bind_ok in H as (t & Ht & H).
  apply bind_ok in H as (mock & Hm & H). cbn [fst snd] in *.
  destruct (str_eqb e (u "production") && bool_decide _) eqn:Et; [done|].
  apply bind_ok in H as (ae & Ha & H). apply bind_ok in H as (keys & _ & H). apply Ok_inj in H.
  subst c. unfold srv_is_production.
  cbn [srv_environment tls aegis_target use_mock_broker aegis_tls listen_host].
  split; [done|]. split.
  { intros Hn. unfold e. rewrite Hn. by vm_compute. }
  unfold _parse_tls in Ht. unfold _parse_broker in Hm. unfold _parse_aegis_tls in Ha.
  cbn zeta in Hm, Ha. destruct (xorb _ _) eqn:Ex; [done|].
  assert (∀ t, ae = Some t → (aegis_cert t = None ↔ aegis_key t = None)) as Hpair.
  { intros t' ->. do 2 (case_hyp Ha; [done|]).
    apply Ok_inj in Ha. injection Ha as <-. cbn [aegis_cert aegis_key]. clear - Ex.
    revert Ex. destruct (srv_optional_path env (u "AEGIS_CLIENT_TLS_CERT")),
      (srv_optional_path env (u "AEGIS_CLIENT_TLS_KEY")); repeat case_bool_decide; done. }
  split; [|split; [|done]].
  - intros Hp. rewrite Hp in Ht, Hm, Ha, Et. cbn [andb] in Ha, Et.
    apply bool_decide_eq_false in Et.
    destruct (str_eqb (env_get env (u "MOTOR_INSECURE_DEV")) (u "1")); [done|].
    destruct (str_eqb (env_get env (u "MOTOR_USE_MOCK_BROKER")) (u "1")); [done|].
    destruct (negb (bool_decide (env_get env (u "ALPACA_API_KEY") = [])) && _) eqn:Ec; [|done].
    apply andb_true_iff in Ec as [C1%negb_true_iff%bool_decide_eq_false
                                  C2%negb_true_iff%bool_decide_eq_false].
    apply Ok_inj in Hm. subst mock.
    apply bind_ok in Ht as (? & _ & Ht). apply bind_ok in Ht as (? & _ & Ht).
    apply bind_ok in Ht as (? & _ & Ht). apply Ok_inj in Ht. subst t.
    destruct (bool_decide (srv_optional_path env (u "AEGIS_CLIENT_TLS_CA") = None)) eqn:Eca; [done|].
    apply bool_decide_eq_false in Eca. cbn [andb] in Ha. apply Ok_inj in Ha. subst ae.
    split_and!; [by eexists|by apply not_eq_None_Some|done| |done|done].
    eexists. split; [done|]. by apply not_eq_None_Some.
  - intros ->. destruct (str_eqb (env_get env (u "MOTOR_INSECURE_DEV")) (u "1")) eqn:Ei.
    2: { apply bind_ok in Ht as (? & _ & Ht). apply bind_ok in Ht as (? & _ & Ht).
         by apply bind_ok in Ht as (? & _ & Ht). }
    destruct (str_eqb e (u "production")); [done|]. destruct (_ || _) eqn:El; [done|].
    apply orb_false_iff in El as [E1 E2]. rewrite negb_involutive in E1. apply negb_false_iff in E2.
    apply str_eqb_true in Ei. apply bool_decide_eq_false in E1. by split_and!.
Qed.

(** ** Properties *)

(** The server configuration fails closed. A configuration that is accepted has a known
    environment, production when MOTOR_ENV is not set; in production it has TLS material, an Aegis
    target, an authenticated Aegis channel, real broker credentials and no mock broker; it is
    plaintext only outside production, on request, and when the listen address was given and its
    host is a loopback address; and the Aegis client certificate and key come together. *)
Theorem server_config_fail_closed env c :
  server_from_env env = Ok c →
  srv_environment c ∈ _ENVIRONMENTS ∧
  (env !! u "MOTOR_ENV" = None → srv_is_production c = true) ∧
  (srv_is_production c = true →
     is_Some (tls c) ∧ is_Some (aegis_target c) ∧ use_mock_broker c = false ∧
     (∃ t, aegis_tls c = Some t ∧ is_Some (aegis_ca t)) ∧
     env_get env (u "ALPACA_API_KEY") ≠ [] ∧ env_get env (u "ALPACA_SECRET_KEY") ≠ []) ∧
  (tls c = None →
     srv_is_production c = false ∧ env_get env (u "MOTOR_INSECURE_DEV") = u "1" ∧
     env_get env (u "MOTOR_LISTEN_ADDR") ≠ [] ∧ _is_loopback (listen_host c) = true) ∧
  (∀ t, aegis_tls c = Some t → (aegis_cert t = None ↔ aegis_key t = None)).
Proof. apply server_config_ok. Qed.

Definition sim_server_env : environ :=
  list_to_map [
    (u "MOTOR_TLS_CERT", u "/c"); (u "MOTOR_TLS_KEY", u "/k"); (u "MOTOR_TLS_CLIENT_CA", u "/ca");
    (u "ALPACA_API_KEY", u "PK1"); (u "ALPACA_SECRET_KEY", u "sk1"); (u "AEGIS_TARGET", u "aegis:1");
    (u "AEGIS_CLIENT_TLS_CA", u "/aca"); (u "MOTOR_ATTESTATION_KEYS_FILE", u "/keys") ].

Lemma server_config_fail_closed_witness :
  ∃ c, server_from_env sim_server_env = Ok c ∧ srv_is_production c = true ∧ is_Some (tls c) ∧
       use_mock_broker c = false.
Proof.
  destruct (server_from_env sim_server_env) as [c|e] eqn:E; [|vm_compute in E; discriminate E].
  exists c. split; [reflexivity|].
  destruct (server_config_fail_closed _ _ E) as (_ & Hp & H & _).
  assert (srv_is_production c = true) as Hc by (apply Hp; vm_compute; reflexivity).
  split; [exact Hc|]. destruct (H Hc) as (H1 & _ & H2 & _). split; [exact H1|exact H2].
Defined.
