(* ===== verification/MockBroker.v ===== *)
(** * Execution motor: the in-memory broker ([mock_broker.py])

    Fills every order at once and in full; development only. *)
From S2P Require Import Prelude PyStr PyDecimal DecimalFacts MotorModels.

Definition _PLACEHOLDER_MARKET_PRICE : decimal := D 1.
Definition _OPEN_STATUSES : list ExecutionStatus := [ACCEPTED; PARTIALLY_FILLED].

(** [_orders], by client order id. *)
Definition MockOrders : Type := gmap pystr BrokerOrder.

(** [p or default] for an optional price: zero counts as missing. *)
Definition or_price (p : option decimal) (default : decimal) : decimal :=
  match p with Some d => if truthy d then d else default | None => default end.

Definition mock_submit_order (q : BrokerOrderRequest) (now : Z) (s : MockOrders)
  : BrokerOrder * MockOrders :=
  let price := or_price (req_limit_price q) (or_price (req_stop_price q) _PLACEHOLDER_MARKET_PRICE) in
  let order := mkBrokerOrder (u "mock-" ++ req_client_order_id q) (req_client_order_id q)
    (req_symbol q) FILLED (u "filled") (req_quantity q) (req_quantity q) (Some price)
    (Some now) (Some now) in
  (order, <[req_client_order_id q := order]> s).

Definition mock_get_order (client_order_id : pystr) (s : MockOrders) : option BrokerOrder :=
  s !! client_order_id.

Definition mock_list_open_orders (s : MockOrders) : list BrokerOrder :=
  filter (λ o, bo_status o ∈ _OPEN_STATUSES) (map_to_list s).*2.

Definition mock_get_account : AccountSnapshot := mkAccount (u "ACTIVE") D_ZERO D_ZERO D_ZERO false.

(** A run of submits. *)
Definition mock_run (l : list (BrokerOrderRequest * Z)) (s : MockOrders) : MockOrders :=
  fold_left (λ s c, (mock_submit_order c.1 c.2 s).2) l s.

(** No order of the mock broker is ever open. *)
Lemma mock_never_open l : mock_list_open_orders (mock_run l ∅) = [].
Proof.
  assert (map_Forall (λ _ o, bo_status o = FILLED) (mock_run l ∅)) as H.
  { unfold mock_run. apply (fold_left_inv (map_Forall (λ _ o, bo_status o = FILLED))).
    - apply map_Forall_empty.
    - intros s [q now] Hs. apply map_Forall_insert_2; done. }
  unfold mock_list_open_orders.
  assert (∀ o, o ∈ (map_to_list (mock_run l ∅)).*2 → bo_status o ∉ _OPEN_STATUSES) as Hno.
  { intros o ([k o'] & -> & Ho)%list_elem_of_fmap. apply elem_of_map_to_list in Ho.
    cbn [snd]. rewrite (H _ _ Ho). intros Hin. unfold _OPEN_STATUSES in Hin.
    rewrite !elem_of_cons, elem_of_nil in Hin. naive_solver. }
  induction (map_to_list (mock_run l ∅)).*2 as [|o os IH]; [done|].
  rewrite filter_cons_False by (apply Hno; left). apply IH. intros o' Ho'. apply Hno. by right.
Qed.
