(* ===== verification/App.v ===== *)
(** * Execution motor: the entry point ([__main__.py])

    [build_app]: the process as the environment configures it. Files, channels, the HTTP client and
    the libraries of the other zones are parameters. *)
From S2P Require Import Prelude PyStr PyDecimal DecimalFacts MotorModels Attest Limits MotorConfig.
From S2P Require Import Halt Toxicity Sor Motor ProtoAdapter Compliance Service Alpaca KillWatch.
From S2P Require Import ServerConfig MockBroker Json.

(** What [build_app] finds outside: the generated modules, the Zone C libraries, the keys file, the
    Aegis channel, the claims file, the HTTP client with the requests it made before each call,
    the level the mirror gives at each read, and the clock. *)
Record World (History : Type) := mkWorld {
  protos : result unit;
  db_source : result unit;
  manifest_store : result ManifestWriter;
  strategy_file : result pystr;
  load_history : nat → pystr → result (list History);
  fold_history : list History → result pystr;
  keys_file : result pystr;
  channel : result unit;
  opened_store : result FileStore;
  http_client : HttpClient;
  http_state : nat → HttpState;
  mock_state : nat → MockOrders;
  mirror_level : nat → Z;
  time_ns : nat → Z;
  other_threads : nat → list ks_event;
}.
Arguments protos {History}.
Arguments db_source {History}.
Arguments manifest_store {History}.
Arguments strategy_file {History}.
Arguments load_history {History}.
Arguments fold_history {History}.
Arguments keys_file {History}.
Arguments channel {History}.
Arguments opened_store {History}.
Arguments http_client {History}.
Arguments http_state {History}.
Arguments mock_state {History}.
Arguments mirror_level {History}.
Arguments time_ns {History}.
Arguments other_threads {History}.

Section app.
(** The signature primitives of [Attest]. *)
Context (EdKey EcKey : Type).
Context (ed_parse : pybytes → option EdKey) (ec_parse : pybytes → option EcKey).
Context (ed_verify : EdKey → pybytes → pybytes → result unit).
Context (ec_verify : EcKey → N → N → pybytes → result unit).

(** A venue's name and its [submit_order] at the n-th external call. *)
Definition _build_broker {History} (w : World History) (cfg : ServerConfig) (env : environ)
  : result (pystr * Broker) :=
  if use_mock_broker cfg then
    Ok (u "mock", λ n q, Ok (mock_submit_order q (time_ns w n) (mock_state w n)).1)
  else
    b ← alpaca_broker_from_env env (http_client w);
    Ok (alpaca_venue b, λ n q, (Alpaca.submit_order b q (http_state w n)).1).

(** The guard that mirrors Aegis, or outside production without a target a switch that is not
    halted. *)
Definition _build_kill_guard {History} (w : World History) (target : option pystr) : KillSwitch :=
  match target with
  | None => make_kill_switch false None true
  | Some _ => make_kill_switch false (Some (KillStateHaltSource (λ n, Ok (mirror_level w n)))) false
  end.

(** [RouterConfig(unscored_policy=UnscoredPolicy.DENY)]. *)
Definition app_router : RouterConfig := mkRouterConfig (DFin 5 (-1)) default_params DENY 5.

Record MotorApp := mkApp {
  app_server : ServerConfig;
  app_env : MotorEnv;
  app_motor : MotorState AnyStore;
  app_compliance : ComplianceGates;
  app_reports : bool;                         (** whether a reporter is wired *)
}.

Definition build_app {History} (w : World History) (env : environ) : result MotorApp :=
  server_cfg ← server_from_env env;
  motor_cfg ← from_env env;
  compliance_cfg ← compliance_from_env env (is_production motor_cfg);
  _ ← protos w;
  compliance ← build_compliance compliance_cfg (db_source w) (manifest_store w) (strategy_file w)
                 (load_history w) (fold_history w);
  broker ← _build_broker w server_cfg env;
  keys ← load_attestation_keys (keys_file w);
  registry ← make_verifier EdKey EcKey ed_parse ec_parse keys (is_production motor_cfg);
  _ ← (match aegis_target server_cfg with None => Ok tt | Some _ => channel w end);
  let kill := _build_kill_guard w (aegis_target server_cfg) in
  let menv := mkMotorEnv motor_cfg {[ broker.1 := broker.2 ]} app_router
                (verify EdKey EcKey ed_verify ec_verify registry) None (λ _, Ok ∅) (time_ns w)
                (other_threads w) in
  motor ← make_motor menv kill (accepts_dev_keys EdKey EcKey registry) None (opened_store w);
  Ok (mkApp server_cfg menv motor compliance (bool_decide (is_Some (aegis_target server_cfg)))).
End app.

(** ** What the wiring guarantees *)

Lemma from_env_environment env c : from_env env = Ok c → environment c = env_name env.
Proof.
  unfold from_env. intros H. do 6 (apply bind_ok in H as (? & _ & H)). unfold make_config in H.
  destruct (negb _); [done|]. apply bind_ok in H as (bad & _ & H). destruct bad; [done|].
  apply bind_ok in H as (small & _ & H). destruct small; [done|]. destruct (_ || _); [done|].
  apply Ok_inj in H. by subst c.
Qed.

Lemma server_environment env c : server_from_env env = Ok c → srv_environment c = env_name env.
Proof.
  unfold server_from_env. intros H. cbn zeta in H. destruct (negb _); [done|].
  apply bind_ok in H as (? & _ & H). apply bind_ok in H as (? & _ & H).
  apply bind_ok in H as (? & _ & H). destruct (_ && _); [done|].
  apply bind_ok in H as (? & _ & H). apply bind_ok in H as (? & _ & H). apply Ok_inj in H. by subst c.
Qed.

(** Without observations a venue is unscored, which [DENY] refuses. *)
Lemma deny_routes_nothing o cands now d :
  route app_router o cands ∅ now = Ok d → dec_venue d = None.
Proof.
  unfold route. intros H. apply bind_ok in H as (th & _ & H). apply bind_ok in H as (l & Hl & H).
  apply bind_ok in H as (chosen & Hc & H). apply Ok_inj in H. subst d. cbn [dec_venue].
  destruct chosen as [v|]; [|done]. apply choose_some in Hc as (x & Hx & _).
  apply eligible_dict_in in Hx as [Hx He]. apply mapR_Ok in Hl. apply list_elem_of_lookup in Hx as [i Hi].
  destruct (Forall2_lookup_r _ _ _ _ _ Hl Hi) as (v' & _ & Ha). rewrite lookup_empty in Ha.
  exfalso. revert Ha. cbn. unfold _assess, filter_window, compute_toxicity. cbn. intros Ha.
  apply Ok_inj in Ha. rewrite <- Ha in He. done.
Qed.

(** ** Properties *)

Section app_properties.
Context {EdKey EcKey : Type}.
Context (ed_parse : pybytes → option EdKey) (ec_parse : pybytes → option EcKey).
Context (ed_verify : EdKey → pybytes → pybytes → result unit).
Context (ec_verify : EcKey → N → N → pybytes → result unit).
Context {History : Type} (w : World History).

Abbreviation build := (build_app EdKey EcKey ed_parse ec_parse ed_verify ec_verify w).

(** A production process has every gate wired. When the entry point builds an application whose
    motor is in production mode, the server has TLS with client certificates, broker and Aegis
    channel are real, fills are reported, the idempotency claims are on disk, the compliance gates
    require a context and hold a manifest store, the verifier holds only P-256 keys none of
    which is a dev key, and the kill switch answers "halted" at every level above NORMAL that the
    mirror of Aegis gives. *)
Theorem production_wiring env app :
  build env = Ok app → is_production (_config (app_env app)) = true →
  is_Some (tls (app_server app)) ∧ use_mock_broker (app_server app) = false ∧
  is_Some (aegis_tls (app_server app)) ∧ app_reports app = true ∧
  (∃ f, _idem (app_motor app) = AFile f) ∧
  requires_context (app_compliance app) = true ∧ is_Some (manifest (app_compliance app)) ∧
  (∃ reg, _verifier (app_env app) = verify EdKey EcKey ed_verify ec_verify reg ∧
          hsm_only reg) ∧
  (is_halted (_kill (app_motor app))).1 = negb (mirror_level w 0 =? 0).
Proof.
  unfold build_app. intros H Hp.
  apply bind_ok in H as (srv & Hsrv & H). apply bind_ok in H as (mc & Hmc & H).
  apply bind_ok in H as (cc & Hcc & H). apply bind_ok in H as (_ & _ & H).
  apply bind_ok in H as (g & Hg & H). apply bind_ok in H as (br & _ & H).
  apply bind_ok in H as (keys & _ & H). apply bind_ok in H as (reg & Hreg & H).
  apply bind_ok in H as (_ & _ & H). apply bind_ok in H as (motor & Hm & H).
  apply Ok_inj in H. subst app.
  cbn [app_env app_server app_motor app_compliance app_reports _config _verifier] in *.
  assert (srv_is_production srv = true) as Hsp.
  { unfold srv_is_production. rewrite (server_environment _ _ Hsrv).
    rewrite <- (from_env_environment _ _ Hmc). exact Hp. }
  rewrite Hp in Hcc, Hreg. apply server_config_ok in Hsrv as (_ & _ & Hsrv & _).
  destruct (Hsrv Hsp) as (Htls & Htgt & Hmock & (at_ & Hat & _) & _). clear Hsrv.
  destruct (production_gates _ _ _ _ _ _ _ _ Hcc Hg) as (Hreq & (wr & _ & Hman) & _).
  unfold make_motor in Hm. cbn [_brokers _config] in Hm. rewrite Hp in Hm.
  destruct (bool_decide _); [done|]. destruct (_ && _); [done|].
  apply bind_ok in Hm as (idem & Hidem & Hm). apply bind_ok in Hm as (led & _ & Hm).
  apply Ok_inj in Hm. subst motor. cbn [_idem _kill].
  split_and!; try done.
  - by apply bool_decide_eq_true.
  - unfold _resolve_idempotency in Hidem. rewrite Hp in Hidem. destruct (state_dir mc); [|done].
    apply bind_ok in Hidem as (f & _ & Hidem). apply Ok_inj in Hidem. by exists f.
  - exists reg. split; [done|]. by eapply make_verifier_hsm.
  - destruct Htgt as [tgt ->]. unfold _build_kill_guard, is_halted, _external_halted. cbn.
    by destruct (mirror_level w 0 =? 0).
Qed.

(** The entry point as it is wired sends no order. It gives the motor no venue statistics and a
    router that denies unscored venues, so whatever request arrives, in production or not, the
    motor reaches no broker and answers with a rejection. *)
Theorem entry_point_routes_nothing env app a ref chk {St} `{IdempotencyLaws St}
    (s : MotorState St) r s' :
  build env = Ok app → execute (app_env app) a ref chk s = (r, s') →
  submits s' = submits s ∧ _ledger s' = _ledger s ∧
  ∀ rep, r = Ok rep → status rep = REJECTED ∧ reject_reason rep ≠ Some BROKER_REJECTED.
Proof.
  unfold build_app. intros Hb He.
  do 9 (apply bind_ok in Hb as (? & _ & Hb)). apply bind_ok in Hb as (motor & _ & Hb).
  apply Ok_inj in Hb. subst app. cbn [app_env] in He.
  apply execute_inv in He as [(H1 & H2 & _ & H3)|(n & s2 & (v & _ & Hrt & _) & _)].
  - split_and!; [done..|]. intros rep ->. exact H3.
  - exfalso. destruct Hrt as (k & stats & d & Hst & Hr & Hd). cbn [_stats _router] in Hst, Hr.
    apply Ok_inj in Hst. subst stats. apply deny_routes_nothing in Hr. congruence.
Qed.
End app_properties.

(** ** A concrete process *)

(** A P-256 key parses, every signature is good. *)
Definition sim_world : World unit :=
  mkWorld unit (Ok tt) (Ok tt) (Ok (λ _ _ _, Ok (u "m-1"))) sim_map (λ _ _, Ok [tt])
    (λ _, Ok (u "PROMOTED"))
    (Ok (qq (u "[{'key_id':'hsm-1','algorithm':'ECDSA_P256_SHA256','public_key_hex':'04'}]")))
    (Ok tt) (Ok (mkFileStore ∅ [] [] false [])) (λ _ _, Ok (inl [])) (λ _, no_requests) (λ _, ∅)
    (λ _, 0) (λ n, Z.of_nat n) (λ _, []).
Definition sim_app_env : environ :=
  list_to_map [
    (u "MOTOR_MAX_ORDER_NOTIONAL_USD", u "1000"); (u "MOTOR_MAX_SESSION_NOTIONAL_USD", u "5000");
    (u "MOTOR_STATE_DIR", u "/state"); (u "MOTOR_MANIFEST_DIR", u "/data");
    (u "MOTOR_SHARP_STRATEGY_MAP", u "/map.json")] ∪ sim_server_env.
Definition sim_build : result MotorApp :=
  build_app unit unit (λ _, Some tt) (λ _, Some tt) (λ _ _ _, Ok tt) (λ _ _ _ _, Ok tt) sim_world
    sim_app_env.

Example sim_build_ok : is_ok sim_build = true.
Proof. vm_compute. reflexivity. Qed.

Lemma production_wiring_witness :
  ∃ app, sim_build = Ok app ∧ is_production (_config (app_env app)) = true ∧
    requires_context (app_compliance app) = true ∧ use_mock_broker (app_server app) = false.
Proof.
  assert ((λ app, is_production (_config (app_env app))) <$> sim_build = Ok true) as Hp
    by (vm_compute; reflexivity).
  destruct sim_build as [app|e] eqn:E; [|discriminate Hp]. apply Ok_inj in Hp.
  exists app. split; [reflexivity|]. split; [exact Hp|].
  destruct (production_wiring _ _ _ _ _ _ _ E Hp) as (_ & H1 & _ & _ & _ & H2 & _).
  split; [exact H2|exact H1].
Defined.

Lemma entry_point_routes_nothing_witness :
  ∃ app r s', sim_build = Ok app ∧ execute (app_env app) (sim_attested (u "o1")) None None sim_mem = (r, s')
    ∧ submits s' = [].
Proof.
  destruct sim_build as [app|e] eqn:E.
  2: { assert (is_ok sim_build = true) as H by exact sim_build_ok. rewrite E in H. discriminate H. }
  destruct (execute (app_env app) (sim_attested (u "o1")) None None sim_mem) as [r s'] eqn:Ex.
  exists app, r, s'. split; [reflexivity|]. split; [exact Ex|].
  destruct (entry_point_routes_nothing _ _ _ _ _ _ _ _ _ _ _ _ _ E Ex) as (H & _).
  rewrite H. reflexivity.
Defined.
