(* ===== verification/AuditCanonical.v ===== *)
(** * Audit logger: canonical documents ([canonical.py])

    Validation of a Python value against the canonical rules, its text and hash, and the text of
    one chain record. The rules make the text determine the document: reading a canonical text
    back and writing it again reproduces it. *)
From S2P Require Import Prelude PyStr Sha256 Json JsonFacts PyTime.

(** ** Python values *)

Inductive pykey := KStr (s : pystr) | KOther (type_name : pystr).

(** A payload as the caller passes it. A list and a tuple are treated alike; a value that
    contains itself is an infinite tree, cut off at the depth limit, and has no counterpart. *)
Inductive pyval :=
  | PNone
  | PBool (b : bool)
  | PInt (z : Z)
  | PFloat (text : pystr)
  | PStr (s : pystr)
  | PSeq (l : list pyval)
  | PMap (m : list (pykey * pyval))
  | POther (type_name : pystr).

Definition SCHEMA_VERSION : Z := 1.
Definition GENESIS_HASH : pystr := replicate 64 48%N.
Definition MAX_DEPTH : nat := 32.
Definition MAX_CANONICAL_BYTES : N := 1048576.
Definition INT64_MIN : Z := - 2 ^ 63.
Definition INT64_MAX : Z := 2 ^ 63 - 1.
Arguments GENESIS_HASH : simpl never.

Definition invalid {A} (msg : pystr) : result A := raise AuditValidationError msg.

Definition _check_string (value : pystr) : result pystr :=
  if bool_decide (0%N ∈ value) then invalid (u "string contains NUL (\u0000), which jsonb cannot store")
  else match utf8 value with
       | None => invalid (u "string is not valid Unicode (lone surrogate)")
       | Some _ => Ok value
       end.

Fixpoint _normalise (value : pyval) (depth : nat) : result json :=
  if (MAX_DEPTH <? depth)%nat then
    invalid (u "payload nesting depth exceeds 32 (or contains a cycle)")
  else match value with
  | PNone => Ok JNull
  | PBool b => Ok (JBool b)
  | PInt z =>
      if negb ((INT64_MIN <=? z) && (z <=? INT64_MAX)) then invalid (u "integer outside the int64 range")
      else Ok (JInt z)
  | PFloat _ => invalid (u "float values are not allowed; encode decimals as strings or scaled ints")
  | PStr s => s ← _check_string s; Ok (JStr s)
  | PMap m =>
      out ← (fix go out m := match m with
             | [] => Ok out
             | (key, item) :: m =>
                 match key with
                 | KOther t => invalid (u "object key must be str, got " ++ t)
                 | KStr k =>
                     item ← _normalise item (S depth);
                     k ← _check_string k;
                     go (obj_set out k item) m
                 end
             end) [] m;
      Ok (JObj out)
  | PSeq l =>
      out ← (fix go l := match l with
             | [] => Ok []
             | item :: l => item ← _normalise item (S depth); out ← go l; Ok (item :: out)
             end) l;
      Ok (JArr out)
  | POther t => invalid (u "unsupported type in payload: " ++ t)
  end.

Definition canonical_json (value : pyval) : result pystr :=
  doc ← _normalise value 0;
  let text := dumps_canonical doc in
  if (MAX_CANONICAL_BYTES <? N.of_nat (length text))%N then
    invalid (u "canonical form exceeds 1048576 bytes")
  else Ok text.

(** [moment.astimezone(UTC)] raises OverflowError outside the years 1 to 9999. *)
Definition format_timestamp (moment : datetime) : result pystr :=
  if negb (dt_aware moment) then invalid (u "timestamp must be timezone-aware")
  else if negb ((MIN_US <=? dt_us moment) && (dt_us moment <=? MAX_US)) then
    raise (OtherError (u "OverflowError")) (u "date value out of range")
  else Ok (utc_text (dt_us moment)).

(** Decoded JSON is a Python value again. *)
Fixpoint py_of_json (v : json) : pyval :=
  match v with
  | JNull => PNone | JBool b => PBool b | JInt z => PInt z | JFloat t => PFloat t
  | JStr s => PStr s
  | JArr l => PSeq (py_of_json <$> l)
  | JObj m => PMap ((λ kv, (KStr kv.1, py_of_json kv.2)) <$> m)
  end.

Definition build_canonical (seq : Z) (occurred_at : datetime) (event_type actor : pystr)
    (payload : pyval) (prev_hash : pystr) : result pystr :=
  if seq <? 1 then invalid (u "seq must be >= 1")
  else if bool_decide (event_type = []) then invalid (u "event_type must be non-empty")
  else if bool_decide (actor = []) then invalid (u "actor must be non-empty")
  else if negb (hash_re prev_hash) then
    invalid (u "prev_hash must be 64 lowercase hex characters")
  else
    at_ ← format_timestamp occurred_at;
    canonical_json (PMap
      [ (KStr (u "v"), PInt SCHEMA_VERSION);
        (KStr (u "seq"), PInt seq);
        (KStr (u "occurred_at"), PStr at_);
        (KStr (u "event_type"), PStr event_type);
        (KStr (u "actor"), PStr actor);
        (KStr (u "payload"), payload);
        (KStr (u "prev_hash"), PStr prev_hash) ]).

Definition hash_canonical (canonical : pystr) : result pystr :=
  match utf8 canonical with
  | Some b => Ok (sha256_hex b)
  | None => raise (OtherError (u "UnicodeEncodeError")) (u "surrogates not allowed")
  end.

Example canonical_example :
  canonical_json (PMap [(KStr (u "b"), PSeq [PInt 1; PBool true; PNone]); (KStr (u "a"), PStr (u "x"))])
  = Ok (qq (u "{'a':'x','b':[1,true,null]}")).
Proof. vm_compute. reflexivity. Qed.
Example canonical_rejects :
  is_ok (canonical_json (PFloat (u "1.0"))) = false
  ∧ is_ok (canonical_json (PInt (2 ^ 63))) = false
  ∧ is_ok (canonical_json (PInt (- 2 ^ 63))) = true
  ∧ is_ok (canonical_json (PStr [0%N])) = false
  ∧ is_ok (canonical_json (PStr [55296%N])) = false
  ∧ is_ok (canonical_json (Nat.iter 32 (λ v, PSeq [v]) PNone)) = true
  ∧ is_ok (canonical_json (Nat.iter 33 (λ v, PSeq [v]) PNone)) = false.
Proof. vm_compute. repeat split. Qed.

(** ** What the rules accept *)

Definition clean_text (s : pystr) : Prop := 0%N ∉ s ∧ str_ok s = true.

Fixpoint canon_ok (depth : nat) (v : json) : Prop :=
  (depth ≤ MAX_DEPTH)%nat ∧
  match v with
  | JNull | JBool _ => True
  | JInt z => INT64_MIN ≤ z ≤ INT64_MAX
  | JFloat _ => False
  | JStr s => clean_text s
  | JArr l => (fix go l := match l with [] => True | x :: l => canon_ok (S depth) x ∧ go l end) l
  | JObj m => NoDup m.*1
      ∧ (fix go m := match m with
         | [] => True | (k, x) :: m => clean_text k ∧ canon_ok (S depth) x ∧ go m end) m
  end.

Definition item_ok (depth : nat) (kv : pystr * json) : Prop := clean_text kv.1 ∧ canon_ok depth kv.2.

Lemma canon_ok_arr d l : canon_ok d (JArr l) ↔ (d ≤ MAX_DEPTH)%nat ∧ Forall (canon_ok (S d)) l.
Proof.
  cbn. apply and_iff_compat_l. induction l as [|x l IH]; [by split|].
  split; [intros (? & ?)|intros [? ?]%Forall_cons]; try apply Forall_cons; naive_solver.
Qed.

Lemma canon_ok_obj d m :
  canon_ok d (JObj m) ↔ (d ≤ MAX_DEPTH)%nat ∧ NoDup m.*1 ∧ Forall (item_ok (S d)) m.
Proof.
  cbn. do 2 apply and_iff_compat_l. unfold item_ok. induction m as [|[k x] m IH]; [by split|].
  split; [intros (? & ? & ?)|intros [[? ?] ?]%Forall_cons]; try apply Forall_cons; naive_solver.
Qed.

Lemma check_string_ok s t : _check_string s = Ok t ↔ s = t ∧ clean_text s.
Proof.
  unfold _check_string, clean_text, utf8. case_bool_decide; [split; naive_solver|].
  destruct (str_ok s); split; naive_solver.
Qed.

Lemma digits_length n : (length (digits n) ≤ S (N.to_nat (N.size n)))%nat.
Proof.
  unfold digits. generalize (S (N.to_nat (N.size n))). intros fuel.
  assert (∀ n acc, (length (digits_aux fuel n acc) ≤ fuel + length acc)%nat) as H.
  { induction fuel as [|fuel IH]; intros k acc; cbn [digits_aux]; [done|].
    destruct (k <? 10)%N; cbn [length]; [lia|]. specialize (IH (k / 10)%N (48 + k mod 10 :: acc)%N).
    cbn [length] in IH. lia. }
  specialize (H n []). cbn [length] in H. lia.
Qed.

Lemma int64_digits z :
  INT64_MIN ≤ z ≤ INT64_MAX → (length (digits (Z.abs_N z)) ≤ max_int_digits)%nat.
Proof.
  intros Hz. pose proof (digits_length (Z.abs_N z)).
  assert (N.size (Z.abs_N z) ≤ 64)%N; [|unfold max_int_digits; lia].
  assert (Z.abs_N z < 2 ^ 64)%N as Hb by (unfold INT64_MIN, INT64_MAX in Hz; cbn in *; lia).
  destruct (N.eq_dec (Z.abs_N z) 0%N) as [->|Hn]; [cbn; lia|].
  rewrite N.size_log2 by done. apply N.log2_lt_pow2 in Hb; lia.
Qed.

Lemma canon_ok_json v : ∀ d, canon_ok d v → json_ok v.
Proof.
  induction v as [|b|z|t|s|l IH|m IH] using json_ind'; intros d H.
  - done.
  - done.
  - destruct H as [_ H]. by apply int64_digits.
  - by destruct H.
  - by destruct H as (_ & _ & H).
  - apply canon_ok_arr in H as [_ H]. apply json_ok_arr.
    rewrite Forall_forall in IH, H |- *. eauto.
  - apply canon_ok_obj in H as (_ & Hn & H). apply json_ok_obj. split; [done|].
    rewrite Forall_forall in IH, H |- *. intros kv Hkv. destruct (H kv Hkv) as [[_ ?] ?]. eauto.
Qed.

(** ** [_normalise] gives exactly such documents *)

(** The loop over a mapping's items and the one over a sequence's. *)
Definition normalise_items (depth : nat) :=
  fix go (out : list (pystr * json)) (m : list (pykey * pyval)) : result (list (pystr * json)) :=
    match m with
    | [] => Ok out
    | (key, item) :: m =>
        match key with
        | KOther t => invalid (u "object key must be str, got " ++ t)
        | KStr k =>
            item ← _normalise item (S depth);
            k ← _check_string k;
            go (obj_set out k item) m
        end
    end.

Lemma normalise_seq l d :
  _normalise (PSeq l) d =
  if (MAX_DEPTH <? d)%nat then invalid (u "payload nesting depth exceeds 32 (or contains a cycle)")
  else out ← mapR (λ v, _normalise v (S d)) l; Ok (JArr out).
Proof.
  cbn [_normalise]. destruct (MAX_DEPTH <? d)%nat; [done|]. f_equal.
  induction l as [|x l IH]; [done|]. cbn [mapR]. by rewrite <- IH.
Qed.

Lemma normalise_map m d :
  _normalise (PMap m) d =
  if (MAX_DEPTH <? d)%nat then invalid (u "payload nesting depth exceeds 32 (or contains a cycle)")
  else out ← normalise_items d [] m; Ok (JObj out).
Proof. reflexivity. Qed.

Section pyval_ind'.
Context (P : pyval → Prop).
Context (Hnone : P PNone) (Hbool : ∀ b, P (PBool b)) (Hint : ∀ z, P (PInt z))
  (Hfloat : ∀ t, P (PFloat t)) (Hstr : ∀ s, P (PStr s))
  (Hseq : ∀ l, Forall P l → P (PSeq l))
  (Hmap : ∀ m, Forall (λ kv, P kv.2) m → P (PMap m))
  (Hother : ∀ t, P (POther t)).
Fixpoint pyval_ind' (v : pyval) : P v :=
  match v with
  | PNone => Hnone | PBool b => Hbool b | PInt z => Hint z | PFloat t => Hfloat t
  | PStr s => Hstr s | POther t => Hother t
  | PSeq l => Hseq l ((fix go l : Forall P l := match l with
      | [] => List.Forall_nil P | v :: l => @List.Forall_cons _ P v l (pyval_ind' v) (go l) end) l)
  | PMap m => Hmap m ((fix go m : Forall (λ kv, P kv.2) m := match m with
      | [] => List.Forall_nil (λ kv, P kv.2)
      | kv :: m => @List.Forall_cons _ (λ kv, P kv.2) kv m (pyval_ind' kv.2) (go m) end) m)
  end.
End pyval_ind'.

Lemma obj_set_keys m k v x : x ∈ (obj_set m k v).*1 ↔ x = k ∨ x ∈ m.*1.
Proof.
  induction m as [|[k' v'] m IH]; cbn; [set_solver|].
  destruct (str_eqb k k') eqn:E; cbn; rewrite !elem_of_cons; [|rewrite IH; tauto].
  apply str_eqb_true in E as ->. tauto.
Qed.

Lemma obj_set_NoDup m k v : NoDup m.*1 → NoDup (obj_set m k v).*1.
Proof.
  induction m as [|[k' v'] m IH]; cbn; [intros _; apply NoDup_singleton|].
  intros [Hk Hm]%NoDup_cons. destruct (str_eqb k k') eqn:E; cbn; apply NoDup_cons; [done|].
  split; [|auto]. rewrite obj_set_keys. intros [->|]; [|done]. by rewrite str_eqb_refl in E.
Qed.

Lemma obj_set_Forall (P : pystr * json → Prop) m k v :
  P (k, v) → Forall P m → (∀ k' w w', P (k', w) → P (k, w') → P (k', w')) →
  Forall P (obj_set m k v).
Proof.
  intros Hkv Hm HP. induction Hm as [|[k' v'] m H Hm IH]; cbn; [by repeat constructor|].
  destruct (str_eqb k k'); constructor; eauto.
Qed.

(** Every result of [_normalise] satisfies the rules. *)
Lemma normalise_canon v : ∀ d j, _normalise v d = Ok j → canon_ok d j.
Proof.
  induction v as [|b|z|t|s|l IH|m IH|t] using pyval_ind'; intros d j H;
    try rewrite normalise_seq in H; try rewrite normalise_map in H; cbn [_normalise] in H;
    (destruct (MAX_DEPTH <? d)%nat eqn:Ed; [discriminate|]; apply Nat.ltb_ge in Ed).
  - ok_inv; subst. by split.
  - ok_inv; subst. by split.
  - destruct ((INT64_MIN <=? z) && (z <=? INT64_MAX)) eqn:E; cbn in H; [|discriminate].
    ok_inv; subst. rewrite andb_true_iff, !Z.leb_le in E. by split.
  - discriminate.
  - apply bind_ok in H as (s' & [-> Hs]%check_string_ok & H). ok_inv; subst. by split.
  - apply bind_ok in H as (out & H & E). ok_inv; subst.
    apply canon_ok_arr. split; [done|]. apply mapR_Ok in H.
    induction H as [|x y l out Hx _ IHl]; [constructor|].
    apply Forall_cons in IH as [? ?]. constructor; eauto.
  - apply bind_ok in H as (out & H & E). ok_inv; subst.
    apply canon_ok_obj. split; [done|].
    assert (NoDup ([] : list (pystr * json)).*1 ∧ Forall (item_ok (S d)) []) as Hout
      by (split; constructor).
    revert H Hout. generalize ([] : list (pystr * json)) as acc.
    induction IH as [|[[k|t] x] m Hx _ IHm]; intros acc H [Hn Ha]; cbn in H; [by ok_inv; subst|..|done].
    apply bind_ok in H as (x' & Hx' & H). apply bind_ok in H as (k' & [-> Hk]%check_string_ok & H).
    apply (IHm _ H). split; [by apply obj_set_NoDup|].
    apply obj_set_Forall; [split; cbn; eauto|done|]. unfold item_ok. naive_solver.
  - discriminate.
Qed.

(** Every document that satisfies the rules is its own normal form. *)
Lemma normalise_id j : ∀ d, canon_ok d j → _normalise (py_of_json j) d = Ok j.
Proof.
  induction j as [|b|z|t|s|l IH|m IH] using json_ind'; intros d H.
  all: assert ((MAX_DEPTH <? d)%nat = false) as Hd by (apply Nat.ltb_ge; destruct H; done).
  - cbn [_normalise py_of_json]. by rewrite Hd.
  - cbn [_normalise py_of_json]. by rewrite Hd.
  - destruct H as [_ H]. cbn [_normalise py_of_json]. rewrite Hd.
    assert ((INT64_MIN <=? z) && (z <=? INT64_MAX) = true) as -> by lia. done.
  - by destruct H.
  - destruct H as [_ H]. cbn [_normalise py_of_json]. rewrite Hd.
    assert (_check_string s = Ok s) as -> by by apply check_string_ok. done.
  - apply canon_ok_arr in H as [_ H]. cbn [py_of_json]. rewrite normalise_seq, Hd.
    assert (mapR (λ v, _normalise v (S d)) (py_of_json <$> l) = Ok l) as ->; [|done].
    apply mapR_Ok, Forall2_fmap_l. induction IH as [|x l Hx _ IHl]; [constructor|].
    apply Forall_cons in H as [? ?]. constructor; eauto.
  - apply canon_ok_obj in H as (_ & Hn & H). cbn [py_of_json]. rewrite normalise_map, Hd.
    assert (∀ acc, NoDup (acc ++ m).*1 →
      normalise_items d acc ((λ kv, (KStr kv.1, py_of_json kv.2)) <$> m) = Ok (acc ++ m)) as Hgo.
    { clear Hn. induction IH as [|[k x] m Hx _ IHm]; intros acc Hn; cbn; [by rewrite app_nil_r|].
      apply Forall_cons in H as [[Hk Hx'] H]. cbn in Hx, Hx'. rewrite Hx by done. cbn.
      assert (_check_string k = Ok k) as -> by by apply check_string_ok. cbn.
      rewrite obj_set_fresh, IHm; [by rewrite <- app_assoc|done|by rewrite <- app_assoc|].
      rewrite fmap_app, NoDup_app in Hn. set_solver. }
    rewrite Hgo by done. done.
Qed.

(** ** The text determines the document *)

Lemma norm_canon j : ∀ d, canon_ok d j → canon_ok d (norm j).
Proof.
  induction j as [|b|z|t|s|l IH|m IH] using json_ind'; intros d H; try done.
  - apply canon_ok_arr in H as [Hd H]. cbn [norm]. apply canon_ok_arr. split; [done|].
    apply Forall_fmap. rewrite Forall_forall in IH, H |- *. cbn. eauto.
  - apply canon_ok_obj in H as (Hd & Hn & H). rewrite norm_obj. apply canon_ok_obj.
    split; [done|]. rewrite <- list_fmap_compose. change (fst ∘ prod_map id norm) with (@fst pystr json).
    rewrite (sort_keys_perm m). split; [done|]. apply Forall_fmap.
    rewrite Forall_forall in IH, H |- *. intros [k x] Hx. destruct (H _ Hx). split; cbn in *; [done|].
    by apply (IH (k, x)).
Qed.

(** What a canonical text is, in terms of the document it writes. *)
Lemma canonical_json_ok v t :
  canonical_json v = Ok t ↔
  ∃ j, _normalise v 0 = Ok j ∧ t = dumps_canonical j
       ∧ (N.of_nat (length t) <= MAX_CANONICAL_BYTES)%N.
Proof.
  unfold canonical_json. rewrite bind_ok. split.
  - intros (j & Hj & H). exists j. split; [done|]. cbv zeta in H.
    destruct (_ <? _)%N eqn:E; [discriminate|]. apply N.ltb_ge in E. apply Ok_inj in H. by subst.
  - intros (j & Hj & -> & Hl). exists j. split; [done|]. cbv zeta.
    apply N.ltb_ge in Hl. by rewrite Hl.
Qed.

Lemma canonical_loads v t :
  canonical_json v = Ok t →
  ∃ j, _normalise v 0 = Ok j ∧ canon_ok 0 j ∧ t = dumps_canonical j ∧ loads t = Some (norm j)
       ∧ canonical_json (py_of_json (norm j)) = Ok t.
Proof.
  intros H. apply canonical_json_ok in H as (j & Hj & -> & Hl). exists j.
  pose proof (normalise_canon _ _ _ Hj) as Hc. split_and!; try done.
  - eapply loads_dumps, canon_ok_json, Hc.
  - apply canonical_json_ok. exists (norm j). rewrite dumps_norm. split_and!; try done.
    apply normalise_id. by apply norm_canon.
Qed.

(** Canonical text is a faithful form of the payload. The text of an accepted value reads
    back as a document, writing that document gives the same text again, and any other value
    with the same text is the same document up to the order of keys; every integer of it is in
    the int64 range, no string holds NUL or a lone surrogate, and the nesting is at most 32. *)
Theorem canonical_json_faithful v t :
  canonical_json v = Ok t →
  ∃ doc, loads t = Some doc ∧ canon_ok 0 doc ∧ canonical_json (py_of_json doc) = Ok t ∧
    (N.of_nat (length t) <= MAX_CANONICAL_BYTES)%N ∧
    ∀ w, canonical_json w = Ok t → ∃ j, _normalise w 0 = Ok j ∧ norm j = doc.
Proof.
  intros H. pose proof H as Hl. apply canonical_json_ok in Hl as (_ & _ & _ & Hl).
  apply canonical_loads in H as (j & Hj & Hc & Ht & Hd & Hr).
  exists (norm j). split_and!; try done; [by apply norm_canon|].
  intros w Hw. apply canonical_loads in Hw as (k & Hk & _ & _ & Hd' & _).
  exists k. split; [done|]. congruence.
Qed.

Lemma canonical_json_faithful_witness :
  ∃ doc, loads (qq (u "{'a':[1,true],'b':'x'}")) = Some doc ∧
         canonical_json (py_of_json doc) = Ok (qq (u "{'a':[1,true],'b':'x'}")).
Proof.
  destruct (canonical_json_faithful
    (PMap [(KStr (u "b"), PStr (u "x")); (KStr (u "a"), PSeq [PInt 1; PBool true])])
    (qq (u "{'a':[1,true],'b':'x'}"))) as (doc & H1 & _ & H2 & _).
  - vm_compute. reflexivity.
  - exists doc. split; [exact H1|exact H2].
Defined.

(** ** The text of a chain record *)

(** The document of a record, keys sorted. *)
Definition record_doc (seq : Z) (at_ event_type actor : pystr) (payload : json) (prev : pystr)
  : list (pystr * json) :=
  [ (u "actor", JStr actor); (u "event_type", JStr event_type); (u "occurred_at", JStr at_);
    (u "payload", payload); (u "prev_hash", JStr prev); (u "seq", JInt seq);
    (u "v", JInt SCHEMA_VERSION) ].

Lemma normalise_cons d out k v m o :
  normalise_items d out ((KStr k, v) :: m) = Ok o →
  ∃ item, _normalise v (S d) = Ok item ∧ normalise_items d (obj_set out k item) m = Ok o.
Proof.
  intros H. cbn [normalise_items] in H. apply bind_ok in H as (item & Hi & H).
  apply bind_ok in H as (k' & [-> _]%check_string_ok & H). by exists item.
Qed.

Lemma normalise_str s d j : _normalise (PStr s) d = Ok j → j = JStr s.
Proof.
  cbn [_normalise]. destruct (_ <? _)%nat; [discriminate|].
  intros (t & [-> _]%check_string_ok & H)%bind_ok. by apply Ok_inj in H.
Qed.

Lemma normalise_int z d j : _normalise (PInt z) d = Ok j → j = JInt z.
Proof.
  cbn [_normalise]. destruct (_ <? _)%nat; [discriminate|].
  destruct (negb _); [discriminate|]. intros H. by apply Ok_inj in H.
Qed.

Lemma format_timestamp_ok m t :
  format_timestamp m = Ok t ↔
  dt_aware m = true ∧ MIN_US ≤ dt_us m ≤ MAX_US ∧ t = utc_text (dt_us m).
Proof.
  unfold format_timestamp. destruct (dt_aware m); cbn [negb]; [|split; naive_solver].
  destruct ((MIN_US <=? dt_us m) && (dt_us m <=? MAX_US)) eqn:E; cbn [negb].
  - rewrite andb_true_iff, !Z.leb_le in E. split; naive_solver.
  - split; [discriminate|]. intros (_ & H & _). rewrite andb_false_iff, !Z.leb_gt in E. lia.
Qed.

(** A text that [build_canonical] returns is that of a document with exactly the seven keys. *)
Lemma build_canonical_ok seq at_ et ac payload prev t :
  build_canonical seq at_ et ac payload prev = Ok t →
  ∃ p ts, _normalise payload 1 = Ok p ∧ format_timestamp at_ = Ok ts ∧ 1 ≤ seq ∧
    is_ascii t = true ∧
    loads t = Some (JObj (record_doc seq ts et ac (norm p) prev)) ∧
    canonical_json (py_of_json (JObj (record_doc seq ts et ac (norm p) prev))) = Ok t.
Proof.
  unfold build_canonical. destruct (seq <? 1) eqn:Es; [discriminate|].
  do 3 (case_match; [discriminate|]). intros (ts & Hts & Hcan)%bind_ok.
  pose proof (canonical_loads _ _ Hcan) as (j & Hj & Hc & -> & Hl & Hr).
  pose proof Hj as Hj'. rewrite normalise_map in Hj'.
  change (MAX_DEPTH <? 0)%nat with false in Hj'. apply bind_ok in Hj' as (out & Hout & E).
  apply Ok_inj in E.
  apply normalise_cons in Hout as (v1 & ->%normalise_int & Hout).
  apply normalise_cons in Hout as (v2 & ->%normalise_int & Hout).
  apply normalise_cons in Hout as (v3 & ->%normalise_str & Hout).
  apply normalise_cons in Hout as (v4 & ->%normalise_str & Hout).
  apply normalise_cons in Hout as (v5 & ->%normalise_str & Hout).
  apply normalise_cons in Hout as (p & Hp & Hout).
  apply normalise_cons in Hout as (v7 & ->%normalise_str & Hout).
  cbn [normalise_items] in Hout. apply Ok_inj in Hout.
  assert (norm j = JObj (record_doc seq ts et ac (norm p) prev)) as En.
  { subst j out. vm_compute. reflexivity. }
  exists p, ts. rewrite <- En. split_and!; try done.
  - apply Z.ltb_ge in Es. lia.
  - by eapply dumps_ascii, canon_ok_json.
Qed.

(** Depth only limits: the same document comes out at any depth that is accepted. *)
Lemma normalise_shallower v : ∀ d j, _normalise v (S d) = Ok j → _normalise v d = Ok j.
Proof.
  induction v as [|b|z|t|s|l IH|m IH|t] using pyval_ind'; intros d j H;
    try rewrite normalise_seq in *; try rewrite normalise_map in *; cbn [_normalise] in *;
    (destruct (MAX_DEPTH <? S d)%nat eqn:Ed; [discriminate|]; apply Nat.ltb_ge in Ed);
    (replace (MAX_DEPTH <? d)%nat with false by (symmetry; apply Nat.ltb_ge; lia)); try done.
  - apply bind_ok in H as (out & H & E). rewrite mapR_Ok in H. apply bind_ok. exists out.
    split; [|done]. apply mapR_Ok. clear E.
    induction H as [|x y l out Hx _ IHl]; [constructor|]. apply Forall_cons in IH as [? ?].
    constructor; eauto.
  - apply bind_ok in H as (out & H & E). apply bind_ok. exists out. split; [|done]. clear E.
    revert H. generalize ([] : list (pystr * json)) as acc.
    induction IH as [|[[k|t] x] m Hx _ IHm]; intros acc H; cbn in H |- *; [done|..|done].
    apply bind_ok in H as (x' & Hx' & H). cbn in Hx. rewrite (Hx _ _ Hx'). cbn [mbind result_bind].
    apply bind_ok in H as (k' & Hk & H). rewrite Hk. cbn [mbind result_bind]. by apply IHm.
Qed.

(** ** Errors *)

Section fails.
Context (P : exn_class → Prop) (HP : P AuditValidationError).

Lemma fails_invalid {A} msg : fails_as P (invalid (A:=A) msg).
Proof. by apply fails_raise. Qed.
#[local] Hint Resolve fails_invalid fails_ok : core.

Lemma fails_check_string s : fails_as P (_check_string s).
Proof. unfold _check_string. repeat case_match; auto. Qed.
#[local] Hint Resolve fails_check_string : core.

Lemma fails_normalise v : ∀ d, fails_as P (_normalise v d).
Proof.
  induction v as [| | | | |l IH|m IH|] using pyval_ind'; intros d;
    try rewrite normalise_seq; try rewrite normalise_map; cbn [_normalise];
    (destruct (_ <? _)%nat; [auto|]); auto.
  - case_match; auto.
  - apply fails_bind; auto.
  - apply fails_bind; [|auto]. induction IH as [|x l Hx _ IHl]; [apply fails_ok|].
    cbn. apply fails_bind; [apply Hx|]. intros. apply fails_bind; auto.
  - apply fails_bind; [|auto]. generalize ([] : list (pystr * json)) as acc.
    induction IH as [|[[k|t] x] m Hx _ IHm]; intros acc; cbn; [apply fails_ok|..|apply fails_invalid].
    apply fails_bind; [apply Hx|]. intros. apply fails_bind; auto.
Qed.

Lemma fails_canonical_json v : fails_as P (canonical_json v).
Proof.
  unfold canonical_json. apply fails_bind; [apply fails_normalise|]. intros. cbv zeta.
  case_match; auto.
Qed.

Lemma fails_build_canonical s a e c p h :
  P (OtherError (u "OverflowError")) → fails_as P (build_canonical s a e c p h).
Proof.
  intros Ho. unfold build_canonical. repeat (case_match; [by auto|]). apply fails_bind.
  - unfold format_timestamp. case_match; [auto|]. case_match; [by apply fails_raise|auto].
  - intros. apply fails_canonical_json.
Qed.
End fails.

(** Decoded JSON whose dicts are dicts comes out as it went in. *)
Lemma normalise_dict v : ∀ d j, dict_ok v → _normalise (py_of_json v) d = Ok j → j = v.
Proof.
  induction v as [|b|z|t|s|l IH|m IH] using json_ind'; intros d j Hv H; cbn [py_of_json] in H;
    try rewrite normalise_seq in H; try rewrite normalise_map in H; cbn [_normalise] in H;
    (destruct (MAX_DEPTH <? d)%nat eqn:Ed; [discriminate|]); try (by apply Ok_inj in H).
  - case_match; [discriminate|]. by apply Ok_inj in H.
  - discriminate.
  - apply bind_ok in H as (s' & [-> _]%check_string_ok & H). by apply Ok_inj in H.
  - apply bind_ok in H as (out & H & E). apply Ok_inj in E as <-. f_equal.
    apply dict_ok_arr in Hv. apply mapR_Ok in H. apply Forall2_fmap_l in H.
    induction H as [|x y l out Hx _ IHl]; [done|]. apply Forall_cons in IH as [? ?], Hv as [? ?].
    f_equal; eauto.
  - apply bind_ok in H as (out & H & E). apply Ok_inj in E as <-. f_equal.
    apply dict_ok_obj in Hv as [Hn Hv].
    assert (∀ acc, NoDup (acc ++ m).*1 →
      normalise_items d acc ((λ kv, (KStr kv.1, py_of_json kv.2)) <$> m) = Ok out → out = acc ++ m) as Hgo.
    { clear H Hn. induction m as [|[k x] m IHm]; intros acc Hn H; cbn in H.
      - apply Ok_inj in H as <-. by rewrite app_nil_r.
      - apply bind_ok in H as (x' & Hx & H). apply bind_ok in H as (k' & [-> _]%check_string_ok & H).
        apply Forall_cons in IH as [IHx IH], Hv as [Hvx Hv]. cbn in IHx, Hvx.
        apply IHx in Hx as ->; [|done]. rewrite obj_set_fresh in H.
        + apply IHm in H; [by rewrite H, <- app_assoc|done|done|by rewrite <- app_assoc].
        + rewrite fmap_app, NoDup_app in Hn. set_solver. }
    by apply (Hgo []).
Qed.
