(* ===== verification/AuditChain.v ===== *)
(** * Audit logger: the hash chain ([models.py], [logger.py], [verifier.py])

    The validated event, the transaction that appends one row, and the client-side verifier. The
    database is a table, the rows of the open transaction, and a script of replies: each statement
    may fail with a psycopg2.Error, a commit may take effect or not before failing. Appends are
    serialised by the advisory lock, so a run of the logger is a sequence of transactions; other
    writers' rows are part of the table an append starts from. *)
From S2P Require Import Prelude PyStr Sha256 Json JsonFacts PyTime AuditCanonical.

(** ** models.py *)

Definition MAX_LABEL_LENGTH : nat := 200.

Definition _check_label (name value : pystr) : result unit :=
  if is_blank value then invalid (name ++ u " must be a non-empty string")
  else if (MAX_LABEL_LENGTH <? length value)%nat then invalid (name ++ u " exceeds 200 characters")
  else if bool_decide (0%N ∈ value) then invalid (name ++ u " contains NUL")
  else Ok tt.

Record AuditEvent := mkEvent {
  e_event_type : pystr; e_actor : pystr; e_payload : json; e_payload_json : pystr }.

(** [AuditEvent.__post_init__]: the payload is frozen as its canonical text, read back. *)
Definition make_event (event_type actor : pystr) (payload : pyval) : result AuditEvent :=
  _check_label (u "event_type") event_type ≫= λ _,
  _check_label (u "actor") actor ≫= λ _,
  match payload with
  | PMap _ =>
      frozen ← canonical_json payload;
      match loads frozen with
      | Some doc => Ok (mkEvent event_type actor doc frozen)
      | None => raise ValueError (u "not JSON")
      end
  | _ => invalid (u "payload must be a mapping")
  end.

Record AuditRecord := mkRecord {
  a_seq : Z; a_occurred_at : datetime; a_event_type : pystr; a_actor : pystr;
  a_prev_hash : pystr; a_hash : pystr; a_canonical : pystr }.

(** The values of a break before [str()] is applied to them. *)
Record ChainBreak := mkBreak {
  b_seq : Z; b_defect : pystr; b_expected : option json; b_actual : option json }.

Record VerificationResult := mkResult {
  v_ok : bool; v_rows_checked : nat; v_first_break : option ChainBreak;
  v_head_seq : Z; v_head_hash : pystr }.

Record Anchor := mkAnchor { n_seq : Z; n_hash : pystr; n_emitted_at : pystr }.

(** ** The database *)

Record Row := mkRow {
  r_seq : Z; r_occurred_at : datetime; r_event_type : pystr; r_actor : pystr; r_payload : json;
  r_canonical : pystr; r_prev_hash : pystr; r_hash : pystr }.

(** How the server answers: served; a psycopg2.Error and no effect; the effect and then the
    error (a commit whose acknowledgement is lost). *)
Inductive reply := Served | Failed | Unacknowledged.

Record Db := mkDb { table : list Row; txn : list Row; replies : list reply }.

Definition PgError : exn_class := OtherError (u "psycopg2.Error").
Definition is_pg (e : exn) : bool := bool_decide (exn_kind e = PgError).
Definition pg_error : exn := Exn PgError [].

Definition next_reply : M Db reply := λ d,
  match replies d with
  | [] => (Ok Served, d)
  | r :: rs => (Ok r, mkDb (table d) (txn d) rs)
  end.

(** A statement with no effect on the rows. *)
Definition statement : M Db unit :=
  r ← next_reply; match r with Served => mret tt | _ => lift (Raise pg_error) end.

(** [ORDER BY seq]. *)
Fixpoint insert_row (r : Row) (l : list Row) : list Row :=
  match l with
  | [] => [r]
  | r' :: l' => if r_seq r <=? r_seq r' then r :: l else r' :: insert_row r l'
  end.
Definition by_seq : list Row → list Row := foldr insert_row [].

(** The rows a statement of the open transaction sees. *)
Definition visible : M Db (list Row) := λ d, (Ok (by_seq (table d ++ txn d)), d).

Definition commit : M Db unit :=
  r ← next_reply;
  match r with
  | Served => modify (λ d, mkDb (table d ++ txn d) [] (replies d))
  | Failed => lift (Raise pg_error)
  | Unacknowledged => modify (λ d, mkDb (table d ++ txn d) [] (replies d)) ≫= λ _,
                      lift (Raise pg_error)
  end.

(** [_rollback_quietly]; whether or not the server answers, the transaction's rows are gone. *)
Definition _rollback_quietly : M Db unit :=
  next_reply ≫= λ _, modify (λ d, mkDb (table d) [] (replies d)).

(** [except psycopg2.Error as exc: raise AuditWriteError]. *)
Definition as_write_error {A} (m : M Db A) : M Db A :=
  catch_all m (λ e, lift (if is_pg e then raise AuditWriteError (u "audit write failed") else Raise e)).

Section chain.
(** PostgreSQL's [text::jsonb] and psycopg2's decoding of the column; [None] is an error. *)
Context (jsonb : pystr → option json).

Definition insert (r : Row) (payload_json : pystr) : M Db unit :=
  statement ≫= λ _,
  match jsonb payload_json with
  | None => lift (Raise pg_error)
  | Some p =>
      modify (λ d, mkDb (table d) (txn d ++ [mkRow (r_seq r) (r_occurred_at r) (r_event_type r)
        (r_actor r) p (r_canonical r) (r_prev_hash r) (r_hash r)]) (replies d))
  end.

(** ** logger.py *)

Definition _append_in_txn (event : AuditEvent) (now : datetime) : M Db AuditRecord :=
  statement ≫= λ _,                                (* SET LOCAL lock_timeout *)
  statement ≫= λ _,                                (* SET LOCAL statement_timeout *)
  statement ≫= λ _,                                (* pg_advisory_xact_lock *)
  statement ≫= λ _,                                (* SELECT the head *)
  rows ← visible;
  let '(seq, prev_hash) := match last rows with
                           | Some head => (r_seq head + 1, r_hash head)
                           | None => (1, GENESIS_HASH)
                           end in
  canonical ← lift (build_canonical seq now (e_event_type event) (e_actor event)
                      (py_of_json (e_payload event)) prev_hash);
  digest ← lift (hash_canonical canonical);
  insert (mkRow seq now (e_event_type event) (e_actor event) JNull canonical prev_hash digest)
    (e_payload_json event) ≫= λ _,
  mret (mkRecord seq now (e_event_type event) (e_actor event) prev_hash digest canonical).

Definition append (event : AuditEvent) (now : datetime) : M Db AuditRecord :=
  as_write_error (
    statement ≫= λ _,                              (* connect *)
    catch_all
      (record ← _append_in_txn event now; commit ≫= λ _, mret record)
      (λ e, _rollback_quietly ≫= λ _, lift (Raise e))).

(** [record(event_type, actor, payload)], with the time the clock gives. *)
Definition record (event_type actor : pystr) (payload : pyval) (now : datetime) : M Db AuditRecord :=
  event ← lift (make_event event_type actor payload); append event now.

(** ** verifier.py *)

Definition BATCH_SIZE : nat := 1000.

Definition defect : Type := pystr * option json * option json.

(** [doc.get(key)]. *)
Definition get (doc : list (pystr * json)) (key : pystr) : json := default JNull (obj_get doc key).

Fixpoint first_mismatch (checks : list (pystr * json * json)) : option defect :=
  match checks with
  | [] => None
  | (name, in_canonical, in_column) :: checks =>
      if py_eq in_canonical in_column then first_mismatch checks
      else Some (name, Some in_canonical, Some in_column)
  end.

Definition _recanonicalise (doc : json) : option pystr :=
  match canonical_json (py_of_json doc) with Ok t => Some t | Raise _ => None end.

Definition row_checks (row : Row) (doc : list (pystr * json)) (ts : pystr) : list (pystr * json * json) :=
  [ (u "canonical_prev_hash_mismatch", get doc (u "prev_hash"), JStr (r_prev_hash row));
    (u "seq_mismatch", get doc (u "seq"), JInt (r_seq row));
    (u "event_type_mismatch", get doc (u "event_type"), JStr (r_event_type row));
    (u "actor_mismatch", get doc (u "actor"), JStr (r_actor row));
    (u "payload_mismatch", get doc (u "payload"), r_payload row);
    (u "timestamp_mismatch", get doc (u "occurred_at"), JStr ts) ].

Definition row_defect (row : Row) (expected_prev_hash : pystr) : result (option defect) :=
  h ← hash_canonical (r_canonical row);
  if negb (str_eqb (r_hash row) h) then
    Ok (Some (u "hash_mismatch", Some (JStr h), Some (JStr (r_hash row))))
  else
    match loads (r_canonical row) with
    | Some (JObj doc) =>
        if negb (str_eqb (r_prev_hash row) expected_prev_hash) then
          Ok (Some (u "prev_hash_link_broken", Some (JStr expected_prev_hash),
                    Some (JStr (r_prev_hash row))))
        else
          ts ← format_timestamp (r_occurred_at row);
          match first_mismatch (row_checks row doc ts) with
          | Some d => Ok (Some d)
          | None =>
              if bool_decide (_recanonicalise (JObj doc) = Some (r_canonical row)) then Ok None
              else Ok (Some (u "non_canonical_serialization", None, None))
          end
    | _ => Ok (Some (u "canonical_unparseable", None, None))
    end.

(** The loop of [_walk]; the server-side cursor fetches a batch at a time. *)
Fixpoint _walk (rows : list Row) (p_seq : Z) (p_hash : pystr) (checked : nat)
  : M Db VerificationResult :=
  (if (checked mod BATCH_SIZE =? 0)%nat || bool_decide (rows = []) then statement else mret tt) ≫= λ _,
  match rows with
  | [] => mret (mkResult true checked None p_seq p_hash)
  | row :: rows =>
      if negb (r_seq row =? p_seq + 1) then
        mret (mkResult false (S checked)
          (Some (mkBreak (r_seq row) (u "seq_gap") (Some (JInt (p_seq + 1))) (Some (JInt (r_seq row)))))
          p_seq p_hash)
      else
        found ← lift (row_defect row p_hash);
        match found with
        | Some (d, expected, actual) =>
            mret (mkResult false (S checked) (Some (mkBreak (r_seq row) d expected actual)) p_seq p_hash)
        | None => _walk rows (r_seq row) (r_hash row) (S checked)
        end
  end.

Definition _predecessor (from_seq : option Z) : M Db (Z * pystr) :=
  match from_seq with
  | None => mret (0, GENESIS_HASH)
  | Some lo =>
      statement ≫= λ _, rows ← visible;
      mret (match last (filter (λ r, r_seq r < lo) rows) with
            | Some r => (r_seq r, r_hash r)
            | None => (0, GENESIS_HASH)
            end)
  end.

Definition in_bounds (from_seq to_seq : option Z) (r : Row) : bool :=
  match from_seq with Some lo => lo <=? r_seq r | None => true end
  && match to_seq with Some hi => r_seq r <=? hi | None => true end.

Definition verify_chain (from_seq to_seq : option Z) : M Db VerificationResult :=
  as_write_error (
    statement ≫= λ _,                              (* connect *)
    pred ← _predecessor from_seq;
    statement ≫= λ _,                              (* open the cursor *)
    rows ← visible;
    _walk (filter (λ r, in_bounds from_seq to_seq r = true) rows) pred.1 pred.2 0).

Definition head : M Db (option (Z * pystr)) :=
  as_write_error (
    statement ≫= λ _, statement ≫= λ _,
    rows ← visible;
    mret ((λ r, (r_seq r, r_hash r)) <$> last rows)).

Fixpoint check_anchors (anchors : list Anchor) : M Db (list ChainBreak) :=
  match anchors with
  | [] => mret []
  | a :: anchors =>
      statement ≫= λ _,
      rows ← visible;
      let problem := match List.find (λ r, r_seq r =? n_seq a) rows with
                     | None => [mkBreak (n_seq a) (u "anchor_row_missing") (Some (JStr (n_hash a))) None]
                     | Some row =>
                         if str_eqb (r_hash row) (n_hash a) then []
                         else [mkBreak (n_seq a) (u "anchor_hash_mismatch") (Some (JStr (n_hash a)))
                                 (Some (JStr (r_hash row)))]
                     end in
      problems ← check_anchors anchors; mret (problem ++ problems)
  end.

Definition verify_anchors (anchors : list Anchor) : M Db (list ChainBreak) :=
  as_write_error (statement ≫= λ _, check_anchors anchors).
End chain.

(** ** A valid chain *)

(** Rows numbered one after the other, each without a defect and linked to the one before. *)
Fixpoint chained (p_seq : Z) (p_hash : pystr) (rows : list Row) : Prop :=
  match rows with
  | [] => True
  | row :: rows =>
      r_seq row = p_seq + 1 ∧ row_defect row p_hash = Ok None ∧ chained (r_seq row) (r_hash row) rows
  end.

Definition head_of (p_seq : Z) (p_hash : pystr) (rows : list Row) : Z * pystr :=
  match last rows with Some r => (r_seq r, r_hash r) | None => (p_seq, p_hash) end.

Definition valid_chain (rows : list Row) : Prop := chained 0 GENESIS_HASH rows.

Lemma head_of_cons p h r rows : head_of p h (r :: rows) = head_of (r_seq r) (r_hash r) rows.
Proof. unfold head_of. rewrite last_cons. by destruct (last rows). Qed.

Lemma chained_app p h l k :
  chained p h (l ++ k) ↔ chained p h l ∧ chained (head_of p h l).1 (head_of p h l).2 k.
Proof.
  revert p h. induction l as [|r l IH]; intros p h; cbn [app chained]; [cbn; tauto|].
  rewrite head_of_cons, IH. tauto.
Qed.

Lemma chained_bounds p h rows :
  chained p h rows → Forall (λ r, p < r_seq r ≤ (head_of p h rows).1) rows
                     ∧ (head_of p h rows).1 = p + Z.of_nat (length rows).
Proof.
  revert p h. induction rows as [|r rows IH]; intros p h H; [split; [constructor|cbn; lia]|].
  destruct H as (Hs & _ & H). rewrite head_of_cons. destruct (IH _ _ H) as [Hb Hl].
  split; [|cbn [length]; lia]. constructor; [lia|]. eapply Forall_impl; [done|]. cbn. intros; lia.
Qed.

(** What it takes for a row to have no defect. *)
Lemma row_defect_none row prev :
  row_defect row prev = Ok None ↔
  hash_canonical (r_canonical row) = Ok (r_hash row) ∧ r_prev_hash row = prev ∧
  ∃ doc ts, loads (r_canonical row) = Some (JObj doc) ∧ format_timestamp (r_occurred_at row) = Ok ts ∧
    Forall (λ c, py_eq c.1.2 c.2 = true) (row_checks row doc ts) ∧
    canonical_json (py_of_json (JObj doc)) = Ok (r_canonical row).
Proof.
  assert (∀ l, first_mismatch l = None ↔ Forall (λ c, py_eq c.1.2 c.2 = true) l) as Hf.
  { induction l as [|[[n a] b] l IH]; cbn [first_mismatch]; [split; [constructor|done]|].
    rewrite Forall_cons. cbn. destruct (py_eq a b); naive_solver. }
  assert (∀ d t, _recanonicalise d = Some t ↔ canonical_json (py_of_json d) = Ok t) as Hr.
  { intros d t. unfold _recanonicalise. destruct (canonical_json _); split; congruence. }
  unfold row_defect. split.
  - intros (h & Hh & H)%bind_ok. destruct (str_eqb (r_hash row) h) eqn:Eh; [|done]. cbn [negb] in H.
    apply str_eqb_true in Eh as <-.
    destruct (loads (r_canonical row)) as [[| | | | | |doc]|] eqn:El; try done.
    destruct (str_eqb (r_prev_hash row) prev) eqn:Ep; [|done]. cbn [negb] in H.
    apply str_eqb_true in Ep. apply bind_ok in H as (ts & Hts & H).
    destruct (first_mismatch _) eqn:Em; [done|]. case_bool_decide as Ec; [|done].
    apply Hf in Em. apply Hr in Ec. split_and!; try done. by exists doc, ts.
  - intros (Hh & Hp & doc & ts & Hl & Hts & Hc & Ht). rewrite Hh, Hl, Hts, Hp. cbn [mbind result_bind].
    rewrite !str_eqb_refl. cbn [negb]. apply Hf in Hc. rewrite Hc. apply Hr in Ht.
    by rewrite bool_decide_eq_true_2.
Qed.

(** A row is sound when its hash is the SHA-256 of its canonical text, that text is an object
    written canonically, and every column says what the object says under the column's name. The
    payload and the number are compared as Python compares JSON. *)
Definition sound_row (row : Row) : Prop :=
  (∃ bytes, utf8 (r_canonical row) = Some bytes ∧ r_hash row = sha256_hex bytes) ∧
  ∃ doc ts, loads (r_canonical row) = Some (JObj doc) ∧
    canonical_json (py_of_json (JObj doc)) = Ok (r_canonical row) ∧
    obj_get doc (u "prev_hash") = Some (JStr (r_prev_hash row)) ∧
    json_eq (default JNull (obj_get doc (u "seq"))) (JInt (r_seq row)) ∧
    obj_get doc (u "event_type") = Some (JStr (r_event_type row)) ∧
    obj_get doc (u "actor") = Some (JStr (r_actor row)) ∧
    json_eq (default JNull (obj_get doc (u "payload"))) (r_payload row) ∧
    format_timestamp (r_occurred_at row) = Ok ts ∧ obj_get doc (u "occurred_at") = Some (JStr ts).

(** Every row is sound, numbered from 1 without gaps, and linked to the hash of the row before. *)
Definition sound_rows (rows : list Row) : Prop :=
  ∀ i row, rows !! i = Some row →
    r_seq row = Z.of_nat i + 1 ∧
    r_prev_hash row = match i with O => GENESIS_HASH | S j => default [] (r_hash <$> rows !! j) end ∧
    sound_row row.

Lemma get_str doc k s : py_eq (get doc k) (JStr s) = true ↔ obj_get doc k = Some (JStr s).
Proof.
  unfold get. split; [intros H%py_eq_str|intros ->; apply str_eqb_refl].
  destruct (obj_get doc k); cbn in H; [by rewrite H|discriminate].
Qed.

Lemma row_defect_sound row prev :
  row_defect row prev = Ok None ↔ r_prev_hash row = prev ∧ sound_row row.
Proof.
  rewrite row_defect_none. unfold sound_row, row_checks, hash_canonical. split.
  - intros (Hh & Hp & doc & ts & Hl & Ht & Hc & Hj). split; [done|]. split.
    { destruct (utf8 _) as [b|]; [|done]. apply Ok_inj in Hh. by exists b. }
    exists doc, ts. rewrite !Forall_cons in Hc. cbn [fst snd] in Hc.
    destruct Hc as (C1 & C2 & C3 & C4 & C5 & C6 & _).
    apply get_str in C1, C3, C4, C6. apply py_eq_true in C2, C5. by split_and!.
  - intros (Hp & (b & Hb & Hh) & doc & ts & Hl & Hj & C1 & C2 & C3 & C4 & C5 & Ht & C6).
    rewrite Hb, Hh. split_and!; [done..|]. exists doc, ts. apply py_eq_true in C2, C5.
    rewrite !Forall_cons. cbn [fst snd]. rewrite !get_str. split_and!; by try constructor.
Qed.

Lemma valid_chain_sound rows : valid_chain rows ↔ sound_rows rows.
Proof.
  unfold sound_rows. induction rows as [|r rows IH] using rev_ind; [by split|].
  unfold valid_chain in *. rewrite chained_app, IH. cbn [chained]. rewrite row_defect_sound.
  assert (head_of 0 GENESIS_HASH rows
    = (Z.of_nat (length rows), match length rows with O => GENESIS_HASH
                               | S j => default [] (r_hash <$> (rows ++ [r]) !! j) end)
    ∨ ¬ ∀ i row, rows !! i = Some row → r_seq row = Z.of_nat i + 1) as Hh.
  { destruct rows as [|x rows _] using rev_ind; [by left|]. rewrite length_app, Nat.add_1_r.
    rewrite lookup_app_l, lookup_app_r, Nat.sub_diag by (rewrite ?length_app; cbn; lia).
    unfold head_of. rewrite last_snoc.
    destruct (decide (r_seq x = Z.of_nat (length rows) + 1)) as [E|E]; [left; cbn; f_equal; lia|right].
    intros H. apply E, (H (length rows)). by rewrite lookup_app_r, Nat.sub_diag by lia. }
  split.
  - intros [H (Hs & [Hp Hr] & _)] i row [Hi|(Hi & Hrow)]%lookup_app_Some.
    + destruct (H i row Hi) as (? & Hp' & ?). split_and!; [done| |done].
      destruct i as [|i]; [done|]. rewrite lookup_app_l; [done|]. apply lookup_lt_Some in Hi. lia.
    + apply list_lookup_singleton_Some in Hrow as [Hi' <-].
      assert (i = length rows) as -> by lia.
      destruct Hh as [Hh|[]]; [|by intros; apply H]. rewrite Hh in Hs, Hp. by split_and!.
  - intros H. assert (sound_rows rows) as Hold.
    { intros i row Hi. destruct (H i row) as (? & Hp & ?); [by apply lookup_app_l_Some|].
      split_and!; [done| |done]. destruct i as [|i]; [exact Hp|].
      rewrite lookup_app_l in Hp; [exact Hp|]. apply lookup_lt_Some in Hi. lia. }
    split; [exact Hold|]. destruct (H (length rows) r) as (? & ? & ?).
    { by rewrite lookup_app_r, Nat.sub_diag by lia. }
    destruct Hh as [-> |[]]; [by split_and!|]. intros i row Hi. by apply Hold.
Qed.

Lemma get_record seq ts et ac p prev :
  let doc := record_doc seq ts et ac p prev in
  get doc (u "prev_hash") = JStr prev ∧ get doc (u "seq") = JInt seq ∧
  get doc (u "event_type") = JStr et ∧ get doc (u "actor") = JStr ac ∧
  get doc (u "payload") = p ∧ get doc (u "occurred_at") = JStr ts.
Proof. repeat split; vm_compute; reflexivity. Qed.

(** ** [_walk] and the statements *)

(** The rows are untouched; replies may have been consumed. *)
Definition same_rows (d d' : Db) : Prop :=
  table d' = table d ∧ txn d' = txn d ∧ replies d' `suffix_of` replies d.
#[export] Instance same_rows_preorder : PreOrder same_rows.
Proof.
  split; [by intros d|]. intros x y z (? & ? & ?) (? & ? & ?). split_and!; try congruence.
  by etransitivity.
Qed.

Lemma statement_same : steps same_rows statement.
Proof.
  intros d. unfold statement, next_reply, mbind, M_bind. destruct (replies d) as [|r rs] eqn:Er;
    [|destruct r]; unfold same_rows; cbn; rewrite ?Er; split_and!; try done; by apply suffix_cons_r.
Qed.
Lemma visible_same : steps same_rows visible.
Proof. done. Qed.
#[export] Hint Resolve statement_same visible_same : s2p.

Lemma walk_same rows : ∀ p h k, steps same_rows (_walk rows p h k).
Proof. induction rows as [|r rows IH]; intros p h k; cbn [_walk]; steps_tac. Qed.
#[export] Hint Resolve walk_same : s2p.

Lemma statement_served d : replies d = [] → statement d = (Ok tt, d).
Proof. unfold statement, next_reply, mbind, M_bind. by intros ->. Qed.

(** The verdict of the walk: every row is sound, or the first unsound one is reported. *)
Lemma walk_verdict rows p h k d res d' :
  _walk rows p h k d = (Ok res, d') →
  (v_head_seq res, v_head_hash res) = head_of p h (take (v_rows_checked res - k - (if v_ok res then 0 else 1)) rows) ∧
  if v_ok res then
    chained p h rows ∧ v_first_break res = None ∧ v_rows_checked res = (k + length rows)%nat
  else
    ∃ good bad rest b, rows = good ++ bad :: rest ∧ chained p h good ∧ ¬ chained p h (good ++ [bad]) ∧
      v_first_break res = Some b ∧ b_seq b = r_seq bad ∧ v_rows_checked res = (k + length good + 1)%nat.
Proof.
  revert p h k d. induction rows as [|r rows IH]; intros p h k d H; cbn [_walk] in H;
    (m_step H; [clear E|discriminate]).
  - injection H as <- <-. cbn. rewrite take_nil. split_and!; (done || lia).
  - destruct (r_seq r =? p + 1) eqn:Es; cbn [negb] in H.
    + apply Z.eqb_eq in Es. m_step H; [|discriminate]. unfold lift in E. injection E as E <-.
      destruct a0 as [[[dn ex] ac]|].
      * injection H as <- <-. cbn. split; [by replace (S k - k - 1)%nat with 0%nat by lia|].
        exists [], r, rows, (mkBreak (r_seq r) dn ex ac). cbn. split_and!; try done; [|lia].
        rewrite E. naive_solver.
      * apply IH in H as [Hh H]. split.
        { rewrite Hh. destruct (v_ok res).
          - destruct H as (_ & _ & ->). replace (S k + length rows - S k - 0)%nat with (length rows) by lia.
            replace (S k + length rows - k - 0)%nat with (S (length rows)) by lia. cbn [take].
            by rewrite head_of_cons.
          - destruct H as (good & bad & rest & b & _ & _ & _ & _ & _ & ->).
            replace (S k + length good + 1 - S k - 1)%nat with (length good) by lia.
            replace (S k + length good + 1 - k - 1)%nat with (S (length good)) by lia. cbn [take].
            by rewrite head_of_cons. }
        destruct (v_ok res).
        { destruct H as (? & ? & ?). cbn. split_and!; try done. lia. }
        destruct H as (good & bad & rest & b & -> & Hg & Hb & ? & ? & ?).
        exists (r :: good), bad, rest, b. cbn. split_and!; try done; [naive_solver|lia].
    + apply Z.eqb_neq in Es. injection H as <- <-. cbn.
      split; [by replace (S k - k - 1)%nat with 0%nat by lia|].
      eexists [], r, rows, _. cbn. split_and!; try done; [naive_solver|lia].
Qed.

Lemma walk_accepts rows p h k d :
  replies d = [] → chained p h rows →
  _walk rows p h k d = (Ok (mkResult true (k + length rows) None (head_of p h rows).1 (head_of p h rows).2), d).
Proof.
  intros Hd. revert p h k. induction rows as [|r rows IH]; intros p h k Hc; cbn [_walk];
    unfold mbind, M_bind; [|destruct Hc as (Hs & Hr & Hc)].
  - rewrite bool_decide_eq_true_2 by done. rewrite orb_true_r, statement_served by done.
    cbn. unfold mret, M_ret. do 2 f_equal. f_equal. lia.
  - assert ((if (k mod BATCH_SIZE =? 0)%nat || bool_decide (r :: rows = []) then statement else mret tt) d
            = (Ok tt, d)) as -> by (destruct (_ || _); [by apply statement_served|done]).
    rewrite (proj2 (Z.eqb_eq _ _) Hs). cbn [negb]. unfold lift. rewrite Hr, IH by congruence.
    rewrite head_of_cons. cbn [length]. by rewrite Nat.add_succ_r.
Qed.

(** ** One append *)

Lemma insert_row_last r x l : r_seq r ≤ r_seq x → insert_row r (l ++ [x]) = insert_row r l ++ [x].
Proof.
  intros H. induction l as [|y l IH]; cbn.
  - by apply Z.leb_le in H as ->.
  - destruct (r_seq r <=? r_seq y); [done|]. by rewrite IH.
Qed.

Lemma insert_row_perm r l : insert_row r l ≡ₚ r :: l.
Proof.
  induction l as [|y l IH]; cbn; [done|]. destruct (r_seq r <=? r_seq y); [done|].
  rewrite IH. constructor.
Qed.

Lemma by_seq_perm l : by_seq l ≡ₚ l.
Proof. induction l as [|x l IH]; cbn; [done|]. rewrite insert_row_perm. by constructor. Qed.

Lemma by_seq_snoc l x : Forall (λ r, r_seq r ≤ r_seq x) l → by_seq (l ++ [x]) = by_seq l ++ [x].
Proof.
  induction 1 as [|r l Hr Hl IH]; [done|]. unfold by_seq in *. cbn. rewrite IH. by apply insert_row_last.
Qed.

(** An event as [make_event] builds it. *)
Definition event_ok (e : AuditEvent) : Prop :=
  loads (e_payload_json e) = Some (e_payload e) ∧ canon_ok 0 (e_payload e) ∧
  norm (e_payload e) = e_payload e.

Lemma make_event_ok et ac p e : make_event et ac p = Ok e → event_ok e ∧ e_event_type e = et ∧ e_actor e = ac.
Proof.
  unfold make_event. intros (_ & _ & H)%bind_ok. apply bind_ok in H as (_ & _ & H).
  destruct p; try discriminate. apply bind_ok in H as (t & Ht & H).
  apply canonical_loads in Ht as (j & _ & Hc & _ & Hl & _). rewrite Hl in H.
  apply Ok_inj in H as <-. split; [|done]. split_and!; cbn; [done|by apply norm_canon|].
  by eapply norm_idemp, canon_ok_json.
Qed.

(** Nothing else than a refusal is raised: the frozen text is JSON. *)
Lemma make_event_fails et ac p e : make_event et ac p = Raise e → exn_kind e = AuditValidationError.
Proof.
  revert e. change (fails_as (λ c, c = AuditValidationError) (make_event et ac p)).
  assert (∀ n v, fails_as (λ c, c = AuditValidationError) (_check_label n v)) as Hl
    by (intros; unfold _check_label; repeat case_match; auto using fails_invalid, fails_ok).
  unfold make_event. apply fails_bind; [done|]. intros _. apply fails_bind; [done|]. intros _.
  destruct p; auto using fails_invalid.
  intros e H. destruct (canonical_json _) as [t|e'] eqn:Et; cbn [mbind result_bind] in H.
  - apply canonical_loads in Et as (j & _ & _ & _ & Hl2 & _). rewrite Hl2 in H. discriminate.
  - apply Raise_inj in H as <-. by eapply fails_canonical_json.
Qed.

(** What is relied on of the jsonb column: it reads back as the document that was written, only the
    order of keys may differ. *)
Definition jsonb_ok (jsonb : pystr → option json) : Prop := ∀ t doc p,
  loads t = Some doc → canon_ok 0 doc → jsonb t = Some p → json_ok p ∧ norm p = norm doc.

Section append.
Context (jsonb : pystr → option json).
(** [row] and [rec] are what the logger makes of [event] after the rows [rows]. *)
Definition appended (event : AuditEvent) (now : datetime) (rows : list Row) (row : Row)
    (rec : AuditRecord) : Prop :=
  let '(seq, prev) := let h := head_of 0 GENESIS_HASH rows in (h.1 + 1, h.2) in
  ∃ canonical digest p,
    build_canonical seq now (e_event_type event) (e_actor event) (py_of_json (e_payload event)) prev
      = Ok canonical ∧
    hash_canonical canonical = Ok digest ∧ jsonb (e_payload_json event) = Some p ∧
    row = mkRow seq now (e_event_type event) (e_actor event) p canonical prev digest ∧
    rec = mkRecord seq now (e_event_type event) (e_actor event) prev digest canonical.

Definition write_failure (c : exn_class) : Prop :=
  c = AuditValidationError ∨ c = PgError ∨ c = OtherError (u "OverflowError").

Lemma statement_inv d r d' :
  statement d = (r, d') → same_rows d d' ∧ (r = Ok tt ∨ r = Raise pg_error).
Proof.
  intros H. pose proof (statement_same d) as Hs. rewrite H in Hs. split; [done|]. clear Hs.
  unfold statement, next_reply, mbind, M_bind in H.
  destruct (replies d) as [|[] rs]; injection H as <- <-; auto.
Qed.

Lemma append_in_txn_inv event now d r d' :
  _append_in_txn jsonb event now d = (r, d') → txn d = [] →
  table d' = table d ∧ replies d' `suffix_of` replies d ∧
  match r with
  | Ok rec => ∃ row, txn d' = [row] ∧ appended event now (by_seq (table d)) row rec
  | Raise e => write_failure (exn_kind e)
  end.
Proof.
  intros H Hn. unfold _append_in_txn in H.
  assert (write_failure PgError) as Hpg by (right; by left).
  do 4 (apply M_bind_inv in H as [(? & d1 & E & H)|(? & E & ->)];
    apply statement_inv in E as [(Et & Ex & Es) Er];
    [rewrite Hn in Ex; rewrite <- Et; clear Er;
     cut (table d' = table d1 ∧ replies d' `suffix_of` replies d1 ∧
          match r with
          | Ok rec => ∃ row, txn d' = [row] ∧ appended event now (by_seq (table d1)) row rec
          | Raise e => write_failure (exn_kind e)
          end); [intros (? & ? & ?); split_and!; [done|by etransitivity|done]|];
     clear Et Es Hn; rename Ex into Hn; clear d; rename d1 into d
    |destruct Er as [|[= ->]]; [done|]; by split_and!]).
  m_step H; [|discriminate]. injection E as <- <-. rewrite Hn, app_nil_r in H.
  set (rows := by_seq _) in *.
  assert (match last rows with
          | Some head => (r_seq head + 1, r_hash head)
          | None => (1, GENESIS_HASH) end
          = ((head_of 0 GENESIS_HASH rows).1 + 1, (head_of 0 GENESIS_HASH rows).2)) as Hh
    by (unfold head_of; by destruct (last rows)).
  rewrite Hh in H. cbv beta iota in H.
  apply M_bind_inv in H as [(can & ? & E & H)|(? & E & ->)]; injection E as E <-.
  2: { split_and!; [done|done|]. eapply fails_build_canonical; [| |done]; [by left|by right; right]. }
  assert (Hc := E). apply build_canonical_ok in Hc as (_ & _ & _ & _ & _ & Ha & _ & _).
  assert (hash_canonical can = Ok (sha256_hex can)) as Hhash
    by (unfold hash_canonical; by rewrite utf8_ascii).
  rewrite Hhash in H.
  apply M_bind_inv in H as [(dig & ? & E2 & H)|(? & E2 & _)]; [injection E2 as <- <-|discriminate].
  apply M_bind_inv in H as [([] & d2 & E2 & H)|(? & E2 & ->)].
  - injection H as <- <-. apply M_bind_inv in E2 as [(? & ? & E3 & E2)|(? & _ & ?)]; [|done].
    apply statement_inv in E3 as [(Et & Ex & Es) _]. cbn in E2.
    destruct (jsonb (e_payload_json event)) as [p|] eqn:Ej; [|discriminate]. injection E2 as <-.
    cbn. split_and!; [done|done|]. eexists. rewrite Ex, Hn. split; [done|].
    eexists can, _, p. by split_and!.
  - apply M_bind_inv in E2 as [(? & ? & E3 & E2)|(? & E3 & [= ->])];
      apply statement_inv in E3 as [(Et & Ex & Es) Er].
    + destruct (jsonb _); [discriminate|]. injection E2 as <- <-. by split_and!.
    + destruct Er as [|[= ->]]; [done|]. by split_and!.
Qed.

Lemma rollback_raises {A} (e : exn) d :
  (_rollback_quietly ≫= λ _, lift (A:=A) (Raise e)) d = (Raise e, mkDb (table d) [] (List.tl (replies d))).
Proof. unfold _rollback_quietly, next_reply, mbind, M_bind. destruct d as [t x [|r rs]]; done. Qed.

(** An append either adds the row it reports, or reports nothing and adds none - unless the
    commit took effect and its acknowledgement was lost. *)
Lemma append_inv event now d r d' :
  append jsonb event now d = (r, d') → txn d = [] →
  txn d' = [] ∧
  match r with
  | Ok rec => ∃ row, table d' = table d ++ [row] ∧ appended event now (by_seq (table d)) row rec
  | Raise e =>
      exn_kind e ∈ [AuditValidationError; AuditWriteError; OtherError (u "OverflowError")] ∧
      (table d' = table d ∨
       Unacknowledged ∈ replies d ∧
       ∃ row rec, table d' = table d ++ [row] ∧ appended event now (by_seq (table d)) row rec)
  end.
Proof.
  unfold append, as_write_error, catch_all. intros H Hn.
  assert (AuditWriteError ∈ [AuditValidationError; AuditWriteError; OtherError (u "OverflowError")])
    as Hw by set_solver.
  destruct ((statement ≫= _) d) as [r0 d0] eqn:E.
  assert (txn d' = txn d0 ∧ table d' = table d0 ∧
          match r0 with
          | Ok a => r = Ok a
          | Raise e => r = Raise (if is_pg e then Exn AuditWriteError (u "audit write failed") else e)
          end) as (-> & -> & Hr).
  { destruct r0; cbn in H; [|unfold lift in H; destruct (is_pg e)]; by injection H as <- <-. }
  apply M_bind_inv in E as [([] & d1 & E1 & E)|(e1 & E1 & ->)];
    apply statement_inv in E1 as [(Et & Ex & Es) Er].
  2: { destruct Er as [|[= ->]]; [done|]. subst r. rewrite Ex, Et. cbn. auto. }
  assert (∀ e, write_failure (exn_kind e) →
    exn_kind (if is_pg e then Exn AuditWriteError (u "audit write failed") else e)
    ∈ [AuditValidationError; AuditWriteError; OtherError (u "OverflowError")]) as Hkind.
  { intros e He. unfold is_pg. case_bool_decide; [done|].
    destruct He as [-> | [? | ->]]; [set_solver|done|set_solver]. }
  destruct ((_append_in_txn jsonb event now ≫= _) d1) as [r2 d2] eqn:E2.
  apply M_bind_inv in E2 as [(rec & d3 & E2 & E3)|(e2 & E2 & ->)];
    apply append_in_txn_inv in E2 as (Et2 & Es2 & H2); try congruence.
  - destruct H2 as (row & Htx & Happ). rewrite Et in *. unfold commit, next_reply in E3.
    unfold mbind, M_bind in E3.
    destruct (replies d3) as [|[] rs] eqn:Er3; cbn in E3; injection E3 as <- <-;
      [| |rewrite rollback_raises in E..]; injection E as <- <-; subst r; cbn; (split; [done|]).
    + exists row. by rewrite Et2, Htx.
    + exists row. by rewrite Et2, Htx.
    + split; [done|]. by left.
    + split; [done|]. right. split; [|exists row, rec; by rewrite Et2, Htx].
      destruct Es as [k1 ->], Es2 as [k2 ->]. set_solver.
  - rewrite rollback_raises in E. injection E as <- <-. subst r. cbn.
    split; [done|]. split; [auto|]. left. congruence.
Qed.

Hypothesis jsonb_law : jsonb_ok jsonb.

(** The row an append adds continues a valid chain. *)
Lemma appended_sound event now rows row rec :
  event_ok event → valid_chain rows → appended event now rows row rec → valid_chain (rows ++ [row]).
Proof.
  intros (Hl & Hc & Hnorm) Hv (can & dig & p & Hcan & Hd & Hj & -> & ->).
  apply chained_app. split; [done|]. cbn. split; [done|]. split; [|done].
  apply row_defect_none. cbn. split; [done|]. split; [done|].
  pose proof (build_canonical_ok _ _ _ _ _ _ _ Hcan) as (doc & ts & Hp & Hts & _ & _ & Hload & Hre).
  apply normalise_shallower in Hp. rewrite normalise_id in Hp by done. apply Ok_inj in Hp as <-.
  rewrite Hnorm in Hload, Hre. eexists _, ts. split_and!; [exact Hload|done| |exact Hre].
  unfold row_checks.
  destruct (get_record ((head_of 0 GENESIS_HASH rows).1 + 1) ts (e_event_type event) (e_actor event)
    (e_payload event) (head_of 0 GENESIS_HASH rows).2) as (-> & -> & -> & -> & -> & ->).
  rewrite !Forall_cons, Forall_nil. cbn. rewrite !str_eqb_refl.
  destruct (jsonb_law _ _ _ Hl Hc Hj) as [Hpo Hpn].
  split_and!; try done; [|apply py_eq_norm; [by eapply canon_ok_json|done|done]]. by rewrite Z.min_id, Z.sub_diag, Z.eqb_refl.
Qed.
End append.

(** ** A run of the logger *)

Record Request := mkRequest { q_event_type : pystr; q_actor : pystr; q_payload : pyval; q_now : datetime }.

Fixpoint run (jsonb : pystr → option json) (reqs : list Request) (d : Db) : list (result AuditRecord) * Db :=
  match reqs with
  | [] => ([], d)
  | q :: reqs =>
      let '(r, d) := record jsonb (q_event_type q) (q_actor q) (q_payload q) (q_now q) d in
      let '(rs, d) := run jsonb reqs d in (r :: rs, d)
  end.

(** A row as the record the logger returned for it. *)
Definition row_record (r : Row) : AuditRecord :=
  mkRecord (r_seq r) (r_occurred_at r) (r_event_type r) (r_actor r) (r_prev_hash r) (r_hash r) (r_canonical r).

Lemma valid_chain_le rows r p h :
  chained p h rows → r_seq r = (head_of p h rows).1 + 1 → Forall (λ x, r_seq x ≤ r_seq r) rows.
Proof.
  intros Hc Hr. apply chained_bounds in Hc as [Hc _]. eapply Forall_impl; [done|]. cbn. lia.
Qed.

(** The rows an append leaves: those it found, and at most one more, in order. *)
Lemma appended_rows jsonb event now t row rec :
  valid_chain (by_seq t) → appended jsonb event now (by_seq t) row rec →
  by_seq (t ++ [row]) = by_seq t ++ [row] ∧ row_record row = rec
  ∧ r_seq row = (head_of 0 GENESIS_HASH (by_seq t)).1 + 1.
Proof.
  intros Hv (can & dig & p & _ & _ & _ & -> & ->). split; [|done].
  apply by_seq_snoc. rewrite <- (by_seq_perm t). by eapply valid_chain_le.
Qed.

Section run.
Context (jsonb : pystr → option json).
Hypothesis jsonb_law : jsonb_ok jsonb.

(** A call of [record] extends the chain by nothing, or by one sound row. *)
Lemma record_inv et ac p now d r d' :
  record jsonb et ac p now d = (r, d') → txn d = [] → valid_chain (by_seq (table d)) →
  txn d' = [] ∧
  ∃ new, table d' = table d ++ new ∧ by_seq (table d') = by_seq (table d) ++ new
    ∧ valid_chain (by_seq (table d'))
    ∧ match r with
      | Ok rec => ∃ row event, new = [row] ∧ row_record row = rec ∧ r_event_type row = et ∧ r_actor row = ac
          ∧ make_event et ac p = Ok event ∧ jsonb (e_payload_json event) = Some (r_payload row)
      | Raise e =>
          exn_kind e ∈ [AuditValidationError; AuditWriteError; OtherError (u "OverflowError")] ∧
          (new = [] ∨ ∃ row event, new = [row] ∧ Unacknowledged ∈ replies d ∧ r_event_type row = et
             ∧ make_event et ac p = Ok event)
      end.
Proof.
  intros H Hn Hv. unfold record in H.
  apply M_bind_inv in H as [(event & d1 & E & H)|(e & E & ->)]; injection E as E <-.
  2: { split; [done|]. exists []. rewrite !app_nil_r. split_and!; try done; [|by left].
       apply make_event_fails in E as ->. left. }
  pose proof E as Hev. apply make_event_ok in E as (He & Het & Hac). apply append_inv in H as [Hx H]; [|done].
  split; [done|]. destruct r as [rec|e].
  - destruct H as (row & Ht & Happ). exists [row].
    destruct (appended_rows _ _ _ _ _ _ Hv Happ) as (Hb & Hr & _).
    rewrite Ht, Hb. split_and!; try done; [by eapply appended_sound|].
    exists row, event. split_and!; try done.
    all: destruct Happ as (can & dig & q & _ & _ & ? & -> & _); cbn; done.
  - destruct H as (Hk & [Ht|(Hu & row & rec & Ht & Happ)]).
    + exists []. rewrite Ht, !app_nil_r. split_and!; try done. by left.
    + exists [row]. destruct (appended_rows _ _ _ _ _ _ Hv Happ) as (Hb & _ & _).
      rewrite Ht, Hb. split_and!; try done; [by eapply appended_sound|]. right. exists row, event.
      split_and!; try done. destruct Happ as (can & dig & q & _ & _ & _ & -> & _). done.
Qed.

Lemma records_run_inv reqs d outs d' :
  run jsonb reqs d = (outs, d') → txn d = [] → valid_chain (by_seq (table d)) →
  txn d' = [] ∧
  ∃ new, table d' = table d ++ new ∧ by_seq (table d') = by_seq (table d) ++ new
    ∧ valid_chain (by_seq (table d'))
    ∧ ∀ rec, Ok rec ∈ outs → rec ∈ row_record <$> new.
Proof.
  revert d outs. induction reqs as [|q reqs IH]; intros d outs H Hn Hv; cbn [run] in H.
  - injection H as <- <-. split; [done|]. exists []. rewrite !app_nil_r. split_and!; try done.
    by intros rec []%elem_of_nil.
  - destruct (record jsonb _ _ _ _ d) as [r d1] eqn:Er. destruct (run jsonb reqs d1) as [rs d2] eqn:Ers.
    injection H as <- <-. apply record_inv in Er as (Hn1 & new1 & Ht1 & Hb1 & Hv1 & Hr); [|done|done].
    apply IH in Ers as (Hn2 & new2 & Ht2 & Hb2 & Hv2 & Hrs); [|done|done].
    split; [done|]. exists (new1 ++ new2). rewrite Ht2, Ht1, <- app_assoc in *.
    rewrite Hb2, Hb1, <- app_assoc in *. split_and!; try done.
    intros rec [<-|Hin]%elem_of_cons; rewrite fmap_app, elem_of_app; [left|right; auto].
    destruct Hr as (row & event & -> & <- & _). cbn. left.
Qed.
End run.

(** ** Tampering *)

(** Two different texts with one hash. *)
Definition collision (l k : list Row) : Prop :=
  ∃ r s, r ∈ l ∧ s ∈ k ∧ r_canonical r ≠ r_canonical s ∧
    hash_canonical (r_canonical r) = hash_canonical (r_canonical s).

(** Both rows hold what the same canonical document says. *)
Definition same_record (r s : Row) : Prop :=
  r_canonical r = r_canonical s ∧ r_seq r = r_seq s ∧ r_event_type r = r_event_type s ∧
  r_actor r = r_actor s ∧ r_prev_hash r = r_prev_hash s ∧ r_hash r = r_hash s ∧
  dt_us (r_occurred_at r) = dt_us (r_occurred_at s) ∧
  ∃ payload, py_eq payload (r_payload r) = true ∧ py_eq payload (r_payload s) = true.

Lemma sound_rows_same r s p q :
  row_defect r p = Ok None → row_defect s q = Ok None → r_seq r = r_seq s →
  r_canonical r = r_canonical s → same_record r s.
Proof.
  intros (Hr & _ & doc & tr & Lr & Tr & Cr & _)%row_defect_none.
  intros (Hs & _ & doc' & ts & Ls & Ts & Cs & _)%row_defect_none Hseq Hc.
  rewrite Hc in Hr, Lr. assert (doc' = doc) as -> by congruence.
  unfold row_checks in Cr, Cs. rewrite !Forall_cons in Cr, Cs. cbn [fst snd] in Cr, Cs.
  destruct Cr as (C1 & _ & C3 & C4 & C5 & C6 & _), Cs as (D1 & _ & D3 & D4 & D5 & D6 & _).
  apply py_eq_str in C1, C3, C4, C6, D1, D3, D4, D6.
  apply format_timestamp_ok in Tr as (_ & Br & ->), Ts as (_ & Bs & ->).
  unfold same_record. split_and!; try congruence.
  - apply utc_text_inj; [done|done|congruence].
  - by exists (get doc (u "payload")).
Qed.

Lemma head_of_snoc p h l r : head_of p h (l ++ [r]) = (r_seq r, r_hash r).
Proof. unfold head_of. by rewrite last_snoc. Qed.

Lemma chained_snoc p h l r :
  chained p h (l ++ [r]) ↔
  chained p h l ∧ r_seq r = (head_of p h l).1 + 1 ∧ row_defect r (head_of p h l).2 = Ok None.
Proof. rewrite chained_app. cbn. tauto. Qed.

Lemma same_head_same_chain l k :
  valid_chain l → valid_chain k → head_of 0 GENESIS_HASH l = head_of 0 GENESIS_HASH k →
  Forall2 same_record l k ∨ collision l k.
Proof.
  revert k. induction l as [|r l IH] using rev_ind; intros k Hl Hk Hh.
  - left. destruct k as [|s k]; [constructor|].
    apply chained_bounds in Hk as [_ Hk]. apply (f_equal fst) in Hh. cbn [length] in *.
    change (head_of 0 GENESIS_HASH []).1 with 0 in Hh. lia.
  - destruct k as [|s k _] using rev_ind.
    { apply chained_bounds in Hl as [_ Hl]. apply (f_equal fst) in Hh. rewrite length_app in Hl.
      change (head_of 0 GENESIS_HASH []).1 with 0 in Hh. cbn [length] in Hl. lia. }
    apply chained_snoc in Hl as (Hl & Sl & Dl), Hk as (Hk & Sk & Dk).
    rewrite !head_of_snoc in Hh. injection Hh as Hseq Hhash.
    destruct (decide (r_canonical r = r_canonical s)) as [Hc|Hc].
    2: { right. exists r, s. split_and!; [set_solver|set_solver|done|].
         apply row_defect_none in Dl as [-> _], Dk as [-> _]. congruence. }
    pose proof (sound_rows_same _ _ _ _ Dl Dk Hseq Hc) as Hrs.
    destruct (IH k Hl Hk) as [Hlk|(x & y & ? & ? & ?)].
    + apply row_defect_none in Dl as (_ & Pl & _), Dk as (_ & Pk & _).
      destruct Hrs as (_ & _ & _ & _ & Hp & _).
      destruct (head_of _ _ l), (head_of _ _ k). cbn in *. f_equal; [lia|congruence].
    + left. apply Forall2_app; [done|]. constructor; [done|constructor].
    + right. exists x, y. set_solver.
Qed.

Lemma in_bounds_all (rows : list Row) : filter (λ r, in_bounds None None r = true) rows = rows.
Proof. induction rows as [|r rows IH]; [done|]. by rewrite filter_cons_True, IH. Qed.

(** The table verifies: every statement is served and the verdict is positive. *)
Lemma verify_valid d :
  txn d = [] → replies d = [] → valid_chain (by_seq (table d)) →
  verify_chain None None d =
  (Ok (mkResult true (length (by_seq (table d))) None (head_of 0 GENESIS_HASH (by_seq (table d))).1
         (head_of 0 GENESIS_HASH (by_seq (table d))).2), d).
Proof.
  intros Hx Hr Hv. unfold verify_chain, as_write_error, catch_all, _predecessor, mbind, M_bind, mret, M_ret.
  rewrite !statement_served by done. unfold visible. rewrite Hx, app_nil_r.
  assert (filter (λ r, in_bounds None None r = true) (by_seq (table d)) = by_seq (table d)) as ->.
  { apply in_bounds_all. }
  cbn [fst snd]. by rewrite walk_accepts.
Qed.

Lemma verify_inv d res d' :
  txn d = [] → verify_chain None None d = (Ok res, d') →
  let rows := by_seq (table d) in
  (v_head_seq res, v_head_hash res)
    = head_of 0 GENESIS_HASH (take (v_rows_checked res - (if v_ok res then 0 else 1)) rows) ∧
  if v_ok res then valid_chain rows ∧ v_first_break res = None ∧ v_rows_checked res = length rows
  else ∃ good bad rest b, rows = good ++ bad :: rest ∧ valid_chain good ∧ ¬ valid_chain (good ++ [bad]) ∧
         v_first_break res = Some b ∧ b_seq b = r_seq bad ∧ v_rows_checked res = (length good + 1)%nat.
Proof.
  intros Hx H rows. unfold verify_chain, as_write_error, catch_all in H.
  destruct ((statement ≫= _) d) as [[res'|e] d0] eqn:E.
  2: { unfold lift in H. destruct (is_pg e); discriminate. }
  injection H as -> ->. m_step E; [|discriminate].
  apply statement_inv in E0 as [(Et & Ex & _) _]. m_step E; [|discriminate]. injection E0 as <- <-.
  m_step E; [|discriminate]. apply statement_inv in E0 as [(Et2 & Ex2 & _) _].
  m_step E; [|discriminate]. injection E0 as <- <-.
  rewrite Ex2, Ex, Hx, Et2, Et, app_nil_r in E. fold rows in E.
  assert (filter (λ r, in_bounds None None r = true) rows = rows) as Hf by apply in_bounds_all.
  rewrite Hf in E. apply walk_verdict in E. cbn [fst snd] in E. by rewrite Nat.sub_0_r in E.
Qed.

Section verifier.
(** What a positive verdict means. *)
Lemma verify_accepts d res d' :
  txn d = [] → verify_chain None None d = (Ok res, d') → v_ok res = true →
  valid_chain (by_seq (table d)) ∧
  (v_head_seq res, v_head_hash res) = head_of 0 GENESIS_HASH (by_seq (table d)).
Proof.
  intros Hx H Hok. apply verify_inv in H as [Hh H]; [|done]. rewrite Hok in Hh, H.
  destruct H as (Hv & _ & Hn). split; [done|]. by rewrite Hh, Hn, Nat.sub_0_r, firstn_all.
Qed.
End verifier.

(** ** Properties *)

(** C7: The audit log is append-only and always verifies. Whatever is recorded, whatever the
    times and whichever statements fail or commits go unacknowledged, a run of the logger on a
    valid chain only adds rows at its end, every record it returned is one of them, and the
    independent verifier accepts the resulting table with the last row as its head. *)
Theorem audit_log_verifies jsonb reqs d outs d' :
  jsonb_ok jsonb →
  run jsonb reqs d = (outs, d') → txn d = [] → valid_chain (by_seq (table d)) →
  txn d' = [] ∧
  ∃ new, by_seq (table d') = by_seq (table d) ++ new ∧ table d' = table d ++ new ∧
    (∀ rec, Ok rec ∈ outs → rec ∈ row_record <$> new) ∧
    verify_chain None None (mkDb (table d') [] [])
    = (Ok (mkResult true (length (by_seq (table d'))) None
             (head_of 0 GENESIS_HASH (by_seq (table d'))).1
             (head_of 0 GENESIS_HASH (by_seq (table d'))).2), mkDb (table d') [] []).
Proof.
  intros Hlaw H Hx Hv. eapply records_run_inv in H as (Hx' & new & Ht & Hb & Hv' & Hr); [|done..].
  split; [done|]. exists new. split_and!; try done.
  by apply (verify_valid (mkDb (table d') [] [])).
Qed.

(** C8: Appending fails closed. [record] returns a record only when its row was committed, as
    the successor of the head it found, with the caller's event type and actor; when it raises -
    only AuditValidationError, AuditWriteError or, for a clock outside the years 1 to 9999,
    OverflowError - nothing was added, unless the server lost the acknowledgement of a commit. *)
Theorem record_fails_closed jsonb et ac p now d r d' :
  jsonb_ok jsonb →
  record jsonb et ac p now d = (r, d') → txn d = [] → valid_chain (by_seq (table d)) →
  match r with
  | Ok rec =>
      ∃ row, table d' = table d ++ [row] ∧ row_record row = rec ∧ a_event_type rec = et ∧ a_actor rec = ac
        ∧ a_seq rec = (head_of 0 GENESIS_HASH (by_seq (table d))).1 + 1
        ∧ a_prev_hash rec = (head_of 0 GENESIS_HASH (by_seq (table d))).2
  | Raise e =>
      exn_kind e ∈ [AuditValidationError; AuditWriteError; OtherError (u "OverflowError")] ∧
      (Unacknowledged ∉ replies d → table d' = table d)
  end.
Proof.
  intros Hlaw H Hx Hv. eapply record_inv in H as (Hx' & new & Ht & Hb & Hv' & Hr); [|done..].
  destruct r as [rec|e].
  - destruct Hr as (row & event & -> & <- & <- & <- & _). exists row. rewrite Hb in Hv'.
    apply chained_snoc in Hv' as (_ & Hs & [_ [Hp _]]%row_defect_none). by split_and!.
  - destruct Hr as [Hk Hr]. split; [done|]. intros Hu. rewrite Ht.
    destruct Hr as [-> | (row & event & -> & ? & _)]; [by rewrite app_nil_r|done].
Qed.

(** C13: The verdict is right. When [verify_chain] of the whole table returns, it accepts exactly
    when every row is numbered from 1 without gaps, its [prev_hash] is the hash of the row before
    (the genesis hash for the first), its hash is the SHA-256 of its canonical text, that text is
    canonical JSON, and every column - previous hash, number, event type, actor, payload,
    instant - equals what the text says; then it reports the count and the head. Otherwise it
    names the first row where that fails, and the head of the sound rows before it. *)
Theorem verify_chain_verdict d res d' :
  txn d = [] → verify_chain None None d = (Ok res, d') →
  let rows := by_seq (table d) in
  (v_ok res = true ↔ sound_rows rows) ∧
  (v_ok res = true → v_rows_checked res = length rows ∧ v_first_break res = None ∧
     (v_head_seq res, v_head_hash res) = head_of 0 GENESIS_HASH rows) ∧
  (v_ok res = false → ∃ good bad rest b, rows = good ++ bad :: rest ∧ sound_rows good ∧
     ¬ sound_rows (good ++ [bad]) ∧ v_first_break res = Some b ∧ b_seq b = r_seq bad ∧
     v_rows_checked res = (length good + 1)%nat ∧
     (v_head_seq res, v_head_hash res) = head_of 0 GENESIS_HASH good).
Proof.
  intros Hx H rows. setoid_rewrite <- valid_chain_sound. pose proof H as Ha.
  apply verify_inv in H as [Hh H]; [|done]. fold rows in Hh, H.
  destruct (v_ok res) eqn:Eok.
  - destruct H as (Hv & Hb & Hn). split_and!; try done. intros _. split_and!; try done.
    apply verify_accepts in Ha as [_ Ha]; done.
  - destruct H as (good & bad & rest & b & Er & Hg & Hbad & Hb & Hs & Hn). split_and!; try done.
    + split; [done|]. intros Hv. destruct Hbad. rewrite Er in Hv.
      replace (good ++ bad :: rest) with ((good ++ [bad]) ++ rest) in Hv by by rewrite <- app_assoc.
      by apply chained_app in Hv as [Hv _].
    + intros _. exists good, bad, rest, b. split_and!; try done.
      rewrite Hh, Hn, Er. replace (length good + 1 - 1)%nat with (length good) by lia.
      by rewrite take_app_length.
Qed.

(** C11: The head hash pins the whole history. If two tables both verify and report the same head,
    then row by row they hold the same canonical texts, numbers, labels, actors, hashes, instants
    and payloads - or two different rows are at hand whose texts collide under SHA-256. *)
Theorem head_pins_history d1 res1 d1' d2 res2 d2' :
  txn d1 = [] → verify_chain None None d1 = (Ok res1, d1') → v_ok res1 = true →
  txn d2 = [] → verify_chain None None d2 = (Ok res2, d2') → v_ok res2 = true →
  v_head_seq res1 = v_head_seq res2 → v_head_hash res1 = v_head_hash res2 →
  Forall2 same_record (by_seq (table d1)) (by_seq (table d2)) ∨
  collision (by_seq (table d1)) (by_seq (table d2)).
Proof.
  intros X1 H1 O1 X2 H2 O2 Hs Hh.
  apply verify_accepts in H1 as [V1 E1]; [|done..]. apply verify_accepts in H2 as [V2 E2]; [|done..].
  apply same_head_same_chain; [done|done|]. rewrite <- E1, <- E2. congruence.
Qed.

(** ** A concrete log *)

Lemma loads_is_jsonb : jsonb_ok loads.
Proof. intros t doc p -> Hc [= <-]. split; [by eapply canon_ok_json|done]. Qed.

Definition sim_request (n : Z) : Request :=
  mkRequest (u "order.submitted") (u "motor") (PMap [(KStr (u "qty"), PInt n); (KStr (u "px"), PStr (u "1.50"))])
    (mkDatetime true (1709251199000000 + n)).
Definition sim_log : list (result AuditRecord) * Db :=
  run loads [sim_request 1; sim_request 2] (mkDb [] [] [Served; Served; Served; Served; Served; Served; Served;
    Served; Served; Served; Served; Served; Served; Unacknowledged]).

Example sim_log_rows : r_canonical <$> table sim_log.2 !! 0%nat =
  Some (qq (u "{'actor':'motor','event_type':'order.submitted','occurred_at':'2024-02-29T23:59:59.000001Z','payload':{'px':'1.50','qty':1},'prev_hash':'0000000000000000000000000000000000000000000000000000000000000000','seq':1,'v':1}")).
Proof. vm_compute. reflexivity. Qed.

Lemma audit_log_verifies_witness :
  (is_ok <$> sim_log.1) = [true; false] ∧ length (table sim_log.2) = 2%nat ∧
  v_ok <$> (verify_chain None None (mkDb (table sim_log.2) [] [])).1 = Ok true.
Proof.
  split; [vm_compute; reflexivity|]. split; [vm_compute; reflexivity|].
  destruct (audit_log_verifies loads [sim_request 1; sim_request 2]
    (mkDb [] [] [Served; Served; Served; Served; Served; Served; Served;
      Served; Served; Served; Served; Served; Served; Unacknowledged]) sim_log.1 sim_log.2)
    as (_ & new & _ & _ & _ & H).
  - exact loads_is_jsonb.
  - unfold sim_log. destruct (run _ _ _). reflexivity.
  - reflexivity.
  - exact I.
  - rewrite H. reflexivity.
Defined.

Lemma record_fails_closed_witness :
  let q := sim_request 1 in
  let out := record loads (q_event_type q) (q_actor q) (q_payload q) (q_now q)
               (mkDb [] [] [Served; Served; Served; Failed]) in
  is_ok out.1 = false ∧ table out.2 = [].
Proof.
  cbv zeta. set (out := record _ _ _ _ _ _).
  assert (is_ok out.1 = false) as Hf by (vm_compute; reflexivity). split; [exact Hf|].
  assert (out = (out.1, out.2)) as E by (destruct out; reflexivity).
  pose proof (record_fails_closed loads _ _ _ _ _ _ _ loads_is_jsonb E eq_refl I) as H.
  destruct out.1 as [rec|e]; [discriminate Hf|]. apply H. cbn. intros Hin.
  repeat (apply elem_of_cons in Hin as [Hin|Hin]; [discriminate Hin|]). by apply elem_of_nil in Hin.
Defined.

(** The actor of the first row is changed behind the logger's back. *)
Definition tampered : list Row :=
  (λ r, if r_seq r =? 1 then mkRow (r_seq r) (r_occurred_at r) (r_event_type r) (u "mallory")
          (r_payload r) (r_canonical r) (r_prev_hash r) (r_hash r) else r) <$> table sim_log.2.

Lemma verify_chain_verdict_witness :
  ∃ b, (v_first_break <$> (verify_chain None None (mkDb tampered [] [])).1) = Ok (Some b) ∧
       b_seq b = 1 ∧ b_defect b = u "actor_mismatch" ∧ ¬ sound_rows (by_seq tampered).
Proof.
  assert (∃ res, (verify_chain None None (mkDb tampered [] [])).1 = Ok res ∧ v_ok res = false ∧
    ∃ b, v_first_break res = Some b ∧ b_seq b = 1 ∧ b_defect b = u "actor_mismatch")
    as (res & Hres & Hok & b & Hb & Hs & Hd).
  { vm_compute. eexists. split; [reflexivity|]. split; [reflexivity|]. eexists.
    split; [reflexivity|]. split; reflexivity. }
  destruct (verify_chain _ _ _) as [o d'] eqn:E. cbn [fst] in *. subst o. exists b. cbn. rewrite Hb.
  split; [reflexivity|]. split; [exact Hs|]. split; [exact Hd|].
  destruct (verify_chain_verdict (mkDb tampered [] []) res d' eq_refl E) as (Hv & _).
  intros Hc. apply Hv in Hc. rewrite Hok in Hc. discriminate Hc.
Defined.

Lemma head_pins_history_witness :
  Forall2 same_record (by_seq (table sim_log.2)) (by_seq (rev (table sim_log.2))) ∨
  collision (by_seq (table sim_log.2)) (by_seq (rev (table sim_log.2))).
Proof.
  destruct (verify_chain None None (mkDb (table sim_log.2) [] [])) as [o1 d1] eqn:E1.
  destruct (verify_chain None None (mkDb (rev (table sim_log.2)) [] [])) as [o2 d2] eqn:E2.
  assert (o1 = o2 ∧ v_ok <$> o1 = Ok true) as [<- Hok].
  { apply (f_equal fst) in E1, E2. cbn [fst] in E1, E2. subst. vm_compute. split; reflexivity. }
  destruct o1 as [res|e]; [|discriminate Hok]. injection Hok as Hok.
  exact (head_pins_history (mkDb (table sim_log.2) [] []) res d1 (mkDb (rev (table sim_log.2)) [] []) res d2
    eq_refl E1 Hok eq_refl E2 Hok eq_refl eq_refl).
Defined.
