(* ===== verification/AuditAnchor.v ===== *)
(** * Audit logger: anchors ([anchor.py])

    The publisher that sends the chain head to a sink outside the database, once or periodically.
    The sink is the [AnchorSink] protocol: it keeps an anchor or raises AnchorError. *)
From S2P Require Import Prelude PyStr PyTime Sha256 Json JsonFacts AuditCanonical AuditChain.

(** The database, the anchors published so far, and how the sink's next calls end ([false]: it
    raises; beyond the script it succeeds). *)
Record World := mkWorld { w_db : Db; w_sink : list Anchor; w_emits : list bool }.

Definition on_db {A} (m : M Db A) : M World A := λ w,
  let '(r, d) := m (w_db w) in (r, mkWorld d (w_sink w) (w_emits w)).

Definition emit (a : Anchor) : M World unit := λ w,
  match w_emits w with
  | false :: es => (raise AnchorError (u "cannot publish"), mkWorld (w_db w) (w_sink w) es)
  | _ => (Ok tt, mkWorld (w_db w) (w_sink w ++ [a]) (List.tl (w_emits w)))
  end.

(** [AnchorPublisher.publish], at the time the clock gives. *)
Definition publish (now : datetime) : M World (option Anchor) :=
  h ← on_db head;
  match h with
  | None => mret None
  | Some (seq, hash) =>
      let anchor := mkAnchor seq hash (utc_text (dt_us now)) in
      emit anchor ≫= λ _, mret (Some anchor)
  end.

(** The loop of [run_periodic]: one element per iteration - the value of [stop.is_set()] at its
    start and the clock; running out of elements is the stop. *)
Fixpoint publish_loop (ticks : list (bool * datetime)) (max_iterations : option Z) (count : Z)
  : M World Z :=
  match ticks with
  | [] => mret count
  | (stopped, now) :: ticks =>
      if stopped : bool then mret count
      else
        publish now ≫= λ _,
        let count := count + 1 in
        if match max_iterations with Some n => n <=? count | None => false end then mret count
        else publish_loop ticks max_iterations count
  end.

Definition run_periodic (interval_positive : bool) (ticks : list (bool * datetime))
    (max_iterations : option Z) : M World Z :=
  if negb interval_positive then lift (raise ValueError (u "interval_s must be positive"))
  else publish_loop ticks max_iterations 0.

(** ** What an anchor proves *)

(** Anchors that the table reproduces. *)
Definition reproduced (rows : list Row) (a : Anchor) : Prop :=
  ∃ r, r ∈ rows ∧ r_seq r = n_seq a ∧ r_hash r = n_hash a.

Lemma check_anchors_inv anchors d problems d' :
  check_anchors anchors d = (Ok problems, d') → txn d = [] →
  problems = [] → Forall (reproduced (by_seq (table d))) anchors.
Proof.
  revert d problems. induction anchors as [|a anchors IH]; intros d problems H Hx ->; [constructor|].
  cbn [check_anchors] in H. m_step H; [|discriminate]. apply statement_inv in E as [(Et & Ex & _) _].
  m_step H; [|discriminate]. injection E as <- <-. rewrite Ex, Hx, Et, app_nil_r in H.
  m_step H; [|discriminate]. injection H as H <-. apply app_eq_nil in H as [Hp ->].
  apply IH in E; [|congruence|done]. rewrite Et in E. constructor; [|done].
  destruct (List.find _ _) as [r|] eqn:Ef; [|done]. apply List.find_some in Ef as [Hin Hs].
  destruct (str_eqb _ _) eqn:Eh; [|done]. apply str_eqb_true in Eh. apply Z.eqb_eq in Hs.
  exists r. split_and!; try done. by apply list_elem_of_In.
Qed.

Lemma as_write_error_ok {A} (m : M Db A) d a d' : as_write_error m d = (Ok a, d') → m d = (Ok a, d').
Proof.
  unfold as_write_error, catch_all, lift. destruct (m d) as [[x|e] d1]; [done|].
  destruct (is_pg e); discriminate.
Qed.

Lemma verify_anchors_inv anchors d d' :
  verify_anchors anchors d = (Ok [], d') → txn d = [] → Forall (reproduced (by_seq (table d))) anchors.
Proof.
  intros H%as_write_error_ok Hx. m_step H; [|discriminate].
  apply statement_inv in E as [(Et & Ex & _) _]. rewrite <- Et.
  eapply check_anchors_inv; [done|congruence|done].
Qed.

Lemma publish_inv now w a w' :
  publish now w = (Ok (Some a), w') → txn (w_db w) = [] →
  head_of 0 GENESIS_HASH (by_seq (table (w_db w))) = (n_seq a, n_hash a) ∧
  by_seq (table (w_db w)) ≠ [] ∧ w_sink w' = w_sink w ++ [a].
Proof.
  unfold publish. intros H Hx. m_step H; [|discriminate]. unfold on_db in E.
  destruct (AuditChain.head (w_db w)) as [o d] eqn:Eh. injection E as E1 E2; subst o s.
  apply as_write_error_ok in Eh. m_step Eh; [|discriminate]. apply statement_inv in E as [(Et & Ex & _) _].
  m_step Eh; [|discriminate]. apply statement_inv in E as [(Et2 & Ex2 & _) _].
  m_step Eh; [|discriminate]. injection E as <- <-. injection Eh as Ea <-.
  rewrite Ex2, Ex, Hx, Et2, Et, app_nil_r in Ea. unfold head_of.
  destruct (last (by_seq (table (w_db w)))) as [r|] eqn:El; cbn in Ea; subst; [|discriminate].
  cbn in H. m_step H; [|discriminate]. injection H as <- <-. unfold emit in E. cbn [w_emits w_sink w_db] in E.
  split; [done|]. split; [by intros E0; rewrite E0 in El|].
  destruct (w_emits w) as [|[] es]; [| |discriminate]; by injection E as _ <-.
Qed.

(** A row of a valid chain ends the prefix that its number counts. *)
Lemma chain_prefix rows r :
  valid_chain rows → r ∈ rows →
  ∃ pre post, rows = pre ++ post ∧ valid_chain pre ∧ head_of 0 GENESIS_HASH pre = (r_seq r, r_hash r).
Proof.
  intros Hv (l & k & ->)%list_elem_of_split. exists (l ++ [r]), k.
  rewrite <- app_assoc. split; [done|]. rewrite head_of_snoc. split; [|done].
  replace (l ++ r :: k) with ((l ++ [r]) ++ k) in Hv by by rewrite <- app_assoc.
  by apply chained_app in Hv as [Hv _].
Qed.

(** C12: Anchors catch what the chain alone cannot. If the head of a verified table was published
    and later a table both verifies and reproduces the published anchor, then the later table
    begins with the very records the log had when the anchor was made - no truncation below the
    anchor, no consistent rewrite - or two rows are at hand whose texts collide under SHA-256. *)
Theorem anchored_history_survives now w a w' res d1 anchors d2 res2 d2' d3 :
  txn (w_db w) = [] → verify_chain None None (w_db w) = (Ok res, d1) → v_ok res = true →
  publish now w = (Ok (Some a), w') →
  txn d2 = [] → verify_chain None None d2 = (Ok res2, d2') → v_ok res2 = true →
  a ∈ anchors → verify_anchors anchors d2 = (Ok [], d3) →
  (∃ pre post, by_seq (table d2) = pre ++ post ∧ Forall2 same_record (by_seq (table (w_db w))) pre) ∨
  collision (by_seq (table (w_db w))) (by_seq (table d2)).
Proof.
  intros X1 H1 O1 Hp X2 H2 O2 Ha Hanch.
  apply verify_accepts in H1 as [V1 _]; [|done..]. apply verify_accepts in H2 as [V2 _]; [|done..].
  apply publish_inv in Hp as (Hh & _ & _); [|done].
  apply verify_anchors_inv in Hanch; [|done]. rewrite Forall_forall in Hanch.
  destruct (Hanch a Ha) as (r & Hin & Hs & Hr).
  destruct (chain_prefix _ _ V2 Hin) as (pre & post & E & Vp & Hpre).
  destruct (same_head_same_chain _ _ V1 Vp) as [Hsame|(x & y & ? & Hy & ?)]; [congruence|left|right].
  - by exists pre, post.
  - exists x, y. split_and!; try naive_solver. rewrite E. set_solver.
Qed.

Definition sim_anchor : Anchor := mkAnchor 1 (match (run loads [sim_request 1] (mkDb [] [] [])).2 with
  | mkDb [r] _ _ => r_hash r | _ => [] end) (utc_text 0).

(** The log of one row is anchored; a second row is appended later. *)
Lemma anchored_history_survives_witness :
  (∃ pre post, by_seq (table sim_log.2) = pre ++ post ∧
     Forall2 same_record (by_seq (table (run loads [sim_request 1] (mkDb [] [] [])).2)) pre) ∨
  collision (by_seq (table (run loads [sim_request 1] (mkDb [] [] [])).2)) (by_seq (table sim_log.2)).
Proof.
  set (t1 := table (run loads [sim_request 1] (mkDb [] [] [])).2).
  destruct (verify_chain None None (mkDb t1 [] [])) as [o1 d1] eqn:E1.
  destruct (verify_chain None None (mkDb (table sim_log.2) [] [])) as [o2 d2] eqn:E2.
  destruct (publish (mkDatetime true 0) (mkWorld (mkDb t1 [] []) [] [])) as [op w'] eqn:Ep.
  destruct (verify_anchors [sim_anchor] (mkDb (table sim_log.2) [] [])) as [oa d3] eqn:Ea.
  assert (v_ok <$> o1 = Ok true ∧ v_ok <$> o2 = Ok true ∧ op = Ok (Some sim_anchor) ∧ oa = Ok [])
    as (H1 & H2 & -> & ->).
  { apply (f_equal fst) in E1, E2, Ep, Ea. cbn [fst] in *. subst. vm_compute. repeat split. }
  destruct o1 as [r1|]; [|discriminate H1]. destruct o2 as [r2|]; [|discriminate H2].
  injection H1 as H1. injection H2 as H2.
  refine (anchored_history_survives (mkDatetime true 0) (mkWorld (mkDb t1 [] []) [] []) sim_anchor w' r1 d1
    [sim_anchor] (mkDb (table sim_log.2) [] []) r2 d2 d3 eq_refl E1 H1 Ep eq_refl E2 H2 _ Ea).
  left.
Defined.
