(* ===== verification/SharpModels.v ===== *)
(** * SHARP promotion gate: proposals, transitions, [fold] ([models.py], [memory_store.py])

    The stages and their order, the validated proposal, one stored transition and its audit
    payload, and [fold], which rebuilds the state of a proposal from its history and re-verifies
    every rule on the way. NFKC normalisation and case folding are the tables of [unicodedata];
    nothing is assumed of them. *)
From S2P Require Import Prelude PyStr Json JsonFacts PyTime.

Inductive Stage := DRAFT | COMPLIANCE | LEGAL | BACKTEST | RISK | CANARY | PROMOTED | REJECTED.
#[export] Instance Stage_eq_dec : EqDecision Stage.
Proof. solve_decision. Defined.

(** [Stage.value]. *)
Definition stage_value (s : Stage) : pystr :=
  match s with
  | DRAFT => u "DRAFT" | COMPLIANCE => u "COMPLIANCE" | LEGAL => u "LEGAL" | BACKTEST => u "BACKTEST"
  | RISK => u "RISK" | CANARY => u "CANARY" | PROMOTED => u "PROMOTED" | REJECTED => u "REJECTED"
  end.

Definition PIPELINE : list Stage := [DRAFT; COMPLIANCE; LEGAL; BACKTEST; RISK; CANARY; PROMOTED].
Definition terminal (s : Stage) : bool := bool_decide (s ∈ [PROMOTED; REJECTED]).

(** [PIPELINE[PIPELINE.index(s) + 1]]; [None] where Python would raise. *)
Fixpoint index_of (s : Stage) (l : list Stage) : option nat :=
  match l with
  | [] => None
  | x :: l => if bool_decide (x = s) then Some 0%nat else S <$> index_of s l
  end.
Definition following (s : Stage) : option Stage := i ← index_of s PIPELINE; PIPELINE !! S i.

Definition MAX_TEXT : nat := 20000.

Definition bad_proposal {A} (msg : pystr) : result A := raise ProposalValidationError msg.
Definition store_error {A} (msg : pystr) : result A := raise StoreError msg.
(** [except ProposalValidationError as exc: raise StoreError]. *)
Definition as_store_error {A} (m : result A) (caught : exn_class → bool) (msg : pystr) : result A :=
  try_except m caught (λ _, store_error msg).

(** A value that must be a [str]: the text. *)
Definition _text (name : pystr) (value : json) : result pystr :=
  match value with
  | JStr s =>
      if is_blank s then bad_proposal (name ++ u " must be a non-empty string")
      else if (MAX_TEXT <? length s)%nat || bool_decide (0%N ∈ s) then
        bad_proposal (name ++ u " is too long or contains NUL")
      else Ok s
  | _ => bad_proposal (name ++ u " must be a non-empty string")
  end.

Record RubricChangeProposal := mkProposal {
  proposal_id : pystr; proposer_id : pystr; description : pystr; proposed_change : pystr;
  rationale : pystr; evidence_refs : list pystr }.

Record TransitionEvent := mkTransition {
  t_proposal_id : pystr; t_version : Z; t_kind : pystr; t_from : option Stage; t_to : Stage;
  t_actor : pystr; t_occurred_at : datetime; t_detail_json : pystr;
  t_audit_seq : option Z; t_audit_hash : option pystr }.

Record AuditEntry := mkEntry {
  n_seq : Z; n_hash : pystr; n_event_type : pystr; n_actor : pystr;
  n_payload : list (pystr * json) }.

(** [evidence_refs] and [note] of an approval are whatever the stored detail holds. *)
Record Approval := mkApproval {
  a_stage : Stage; a_approver_id : pystr; a_occurred_at : datetime;
  a_evidence_refs : list json; a_note : json }.

Record ProposalRecord := mkProposalRecord {
  p_proposal : RubricChangeProposal; p_state : Stage; p_version : Z; p_approvals : list Approval;
  p_rejected_by : option pystr; p_rejection_reason : option pystr }.

Definition next_stage (r : ProposalRecord) : option Stage :=
  if terminal (p_state r) then None else following (p_state r).
Definition is_terminal (r : ProposalRecord) : bool := terminal (p_state r).

(** [AuditLookup.find]: the records that exist, by number, or an exception. *)
Definition AuditLookup : Type := list Z → result (Z → option AuditEntry).

(** [json.dumps(detail, sort_keys=True, separators=(",", ":"))]. *)
Definition dumps_detail (detail : list (pystr * json)) : pystr := dumps_canonical (JObj detail).

Definition get (d : list (pystr * json)) (k : pystr) : json := default JNull (obj_get d k).

(** [moment.astimezone(UTC).strftime(...)]; the host's zone is UTC for a naive moment. *)
Definition utc_iso (m : datetime) : result pystr :=
  if (MIN_US <=? dt_us m) && (dt_us m <=? MAX_US) then Ok (utc_text (dt_us m))
  else raise (OtherError (u "OverflowError")) (u "date value out of range").

Definition transition_payload (e : TransitionEvent) : result (list (pystr * json)) :=
  at_ ← utc_iso (t_occurred_at e);
  match loads (t_detail_json e) with
  | None => raise ValueError (u "not JSON")
  | Some detail =>
      Ok [ (u "proposal_id", JStr (t_proposal_id e));
           (u "version", JInt (t_version e));
           (u "kind", JStr (t_kind e));
           (u "from_state", match t_from e with Some s => JStr (stage_value s) | None => JNull end);
           (u "to_state", JStr (stage_value (t_to e)));
           (u "occurred_at", JStr at_);
           (u "detail", detail) ]
  end.

Definition _stored_detail (e : TransitionEvent) : result (list (pystr * json)) :=
  match loads (t_detail_json e) with
  | None => store_error (u "stored detail is not valid JSON")
  | Some (JObj d) => Ok d
  | Some _ => store_error (u "stored detail is not an object")
  end.

(** [tuple(v)] of decoded JSON. *)
Definition tuple_of (v : json) : result (list json) :=
  match v with
  | JArr l => Ok l
  | JStr s => Ok ((λ c, JStr [c]) <$> s)
  | JObj m => Ok (JStr <$> m.*1)
  | _ => raise TypeError (u "object is not iterable")
  end.

Section identity.
(** [unicodedata.normalize("NFKC", s)] and [str.casefold]. *)
Context (nfkc casefold : pystr → pystr).

Definition normalise_identity (identity : pystr) : result pystr :=
  if is_blank identity then bad_proposal (u "identity must be a non-empty string")
  else if bool_decide (0%N ∈ identity) then bad_proposal (u "identity contains NUL")
  else Ok (casefold (strip (nfkc identity))).

(** ** The proposal *)

Definition identity_text (value : json) : result pystr :=
  match value with
  | JStr s => normalise_identity s ≫= λ _, Ok s
  | _ => bad_proposal (u "identity must be a non-empty string")
  end.

(** [RubricChangeProposal(...)] with its [__post_init__]. *)
Definition make_proposal (pid proposer descr change why : json) (refs : list json)
  : result RubricChangeProposal :=
  pid ← _text (u "proposal_id") pid;
  proposer ← identity_text proposer;
  descr ← _text (u "description") descr;
  change ← _text (u "proposed_change") change;
  why ← _text (u "rationale") why;
  if bool_decide (refs = []) then bad_proposal (u "at least one evidence reference is required")
  else
    refs ← mapR (_text (u "evidence_refs[]")) refs;
    Ok (mkProposal pid proposer descr change why refs).

Definition to_detail (p : RubricChangeProposal) : list (pystr * json) :=
  [ (u "proposal_id", JStr (proposal_id p)); (u "proposer_id", JStr (proposer_id p));
    (u "description", JStr (description p)); (u "proposed_change", JStr (proposed_change p));
    (u "rationale", JStr (rationale p)); (u "evidence_refs", JArr (JStr <$> evidence_refs p)) ].

(** ** Reading a stored event back *)

Definition _stored_identity (e : TransitionEvent) : result pystr :=
  as_store_error (normalise_identity (t_actor e)) (λ c, bool_decide (c = ProposalValidationError))
    (u "invalid actor").

Definition fields : list pystr :=
  [u "proposal_id"; u "proposer_id"; u "description"; u "proposed_change"; u "rationale";
   u "evidence_refs"].

(** [RubricChangeProposal( ** detail)]: a missing or unknown field is a TypeError. *)
Definition proposal_from_detail (detail : list (pystr * json)) : result RubricChangeProposal :=
  match obj_get detail (u "evidence_refs") with
  | None => raise KeyError (u "evidence_refs")
  | Some refs =>
      refs ← tuple_of refs;
      if forallb (λ k, bool_decide (k ∈ detail.*1)) fields && forallb (λ k, bool_decide (k ∈ fields)) detail.*1
      then make_proposal (get detail (u "proposal_id")) (get detail (u "proposer_id"))
             (get detail (u "description")) (get detail (u "proposed_change"))
             (get detail (u "rationale")) refs
      else raise TypeError (u "unexpected or missing keyword argument")
  end.

Definition _stored_proposal (first : TransitionEvent) : result RubricChangeProposal :=
  detail ← _stored_detail first;
  proposal ← as_store_error (proposal_from_detail detail)
    (λ c, bool_decide (c ∈ [TypeError; KeyError; ProposalValidationError]))
    (u "stored proposal is invalid");
  if negb (str_eqb (t_actor first) (proposer_id proposal)) then
    store_error (u "submitted event actor is not the proposer named in the proposal")
  else Ok proposal.

Definition _approval (e : TransitionEvent) : result Approval :=
  detail ← _stored_detail e;
  refs ← tuple_of (default (JArr []) (obj_get detail (u "evidence_refs")));
  Ok (mkApproval (t_to e) (t_actor e) (t_occurred_at e) refs
        (default (JStr []) (obj_get detail (u "note")))).

(** ** The audit records behind the events *)

Definition audit_reference (e : TransitionEvent) : result Z :=
  match t_audit_seq e, t_audit_hash e with
  | Some s, Some _ => Ok s
  | _, _ => store_error (u "transition has no audit reference")
  end.

(** The record says the same thing as the event. *)
Definition entry_matches (e : TransitionEvent) (entry : AuditEntry) : result bool :=
  if negb (bool_decide (Some (n_hash entry) = t_audit_hash e))
     || negb (str_eqb (n_event_type entry) (u "sharp." ++ t_kind e))
     || negb (str_eqb (n_actor entry) (t_actor e)) then Ok false
  else payload ← transition_payload e; Ok (py_eq (JObj (n_payload entry)) (JObj payload)).

Definition check_entry (found : Z → option AuditEntry) (es : TransitionEvent * Z) : result unit :=
  match found es.2 with
  | None => store_error (u "no audit record for transition")
  | Some entry =>
      ok ← entry_matches es.1 entry;
      if ok : bool then Ok tt else store_error (u "audit record does not match transition")
  end.

Definition _verify_audit_records (events : list TransitionEvent) (audit : AuditLookup) : result unit :=
  seqs ← mapR audit_reference events;
  if negb (bool_decide (NoDup seqs)) then
    store_error (u "one audit record is referenced by more than one transition")
  else
    found ← audit seqs;
    foldR (λ _, check_entry found) tt (zip events seqs).

(** ** fold *)

Record FoldState := mkFold {
  f_state : Stage; f_approvals : list Approval; f_signers : list pystr;
  f_rejected_by : option pystr; f_reason : option pystr }.

(** One iteration of the loop, [index] counted from 1. *)
Definition fold_step (proposal : RubricChangeProposal) (submitter : pystr) (st : FoldState)
    (ie : Z * TransitionEvent) : result FoldState :=
  let '(index, event) := ie in
  if negb (t_version event =? index) || negb (str_eqb (t_proposal_id event) (proposal_id proposal)) then
    store_error (u "history out of sequence")
  else if index =? 1 then
    if negb (bool_decide (t_to event = DRAFT)) || negb (bool_decide (t_from event = None)) then
      store_error (u "submitted event must create DRAFT")
    else Ok st
  else if terminal (f_state st) || negb (bool_decide (t_from event = Some (f_state st))) then
    store_error (u "illegal stored transition")
  else if str_eqb (t_kind event) (u "approved") then
    if negb (bool_decide (following (f_state st) = Some (t_to event))) then
      store_error (u "stored stage skip")
    else
      who ← _stored_identity event;
      if str_eqb who submitter then store_error (u "stored self-approval")
      else if bool_decide (who ∈ f_signers st) then store_error (u "stored repeated approver")
      else
        a ← _approval event;
        Ok (mkFold (t_to event) (f_approvals st ++ [a]) (who :: f_signers st)
              (f_rejected_by st) (f_reason st))
  else if str_eqb (t_kind event) (u "rejected") && bool_decide (t_to event = REJECTED) then
    _stored_identity event ≫= λ _,
    detail ← _stored_detail event;
    match get detail (u "reason") with
    | JStr reason =>
        if is_blank reason then store_error (u "stored rejection without a reason")
        else Ok (mkFold (t_to event) (f_approvals st) (f_signers st) (Some (t_actor event)) (Some reason))
    | _ => store_error (u "stored rejection without a reason")
    end
  else store_error (u "unknown event kind").

(** [enumerate(events, start=n)]. *)
Fixpoint enumerate {A} (n : Z) (l : list A) : list (Z * A) :=
  match l with [] => [] | x :: l => (n, x) :: enumerate (n + 1) l end.

Definition start_fold : FoldState := mkFold DRAFT [] [] None None.

Definition fold (events : list TransitionEvent) (audit : AuditLookup) : result ProposalRecord :=
  match events with
  | first :: _ =>
      if negb (str_eqb (t_kind first) (u "submitted")) then
        store_error (u "history must start with a 'submitted' event")
      else
        proposal ← _stored_proposal first;
        submitter ← normalise_identity (proposer_id proposal);
        st ← foldR (fold_step proposal submitter) start_fold (enumerate 1 events);
        _verify_audit_records events audit ≫= λ _,
        Ok (mkProposalRecord proposal (f_state st) (Z.of_nat (length events)) (f_approvals st)
              (f_rejected_by st) (f_reason st))
  | [] => store_error (u "history must start with a 'submitted' event")
  end.
End identity.

(** ** What a history that [fold] accepts is *)

(** The event refers to the audit record [s], and that record says what the event says: it has the
    hash the event names, its kind is the event's under the prefix [sharp.], its actor is the
    event's, and its payload is the event's. *)
Definition audited (lookup : Z → option AuditEntry) (e : TransitionEvent) (s : Z) : Prop :=
  t_audit_seq e = Some s ∧ ∃ entry payload, lookup s = Some entry ∧
    t_audit_hash e = Some (n_hash entry) ∧
    n_event_type entry = u "sharp." ++ t_kind e ∧
    n_actor entry = t_actor e ∧
    transition_payload e = Ok payload ∧ json_eq (JObj (n_payload entry)) (JObj payload).

Lemma entry_matches_true e entry :
  entry_matches e entry = Ok true ↔
  t_audit_hash e = Some (n_hash entry) ∧ n_event_type entry = u "sharp." ++ t_kind e ∧
  n_actor entry = t_actor e ∧
  ∃ payload, transition_payload e = Ok payload ∧ json_eq (JObj (n_payload entry)) (JObj payload).
Proof.
  unfold entry_matches. case_bool_decide as Hh; cbn [negb orb]; [|naive_solver].
  destruct (str_eqb (n_event_type entry) _) eqn:Hk; cbn [negb orb].
  2: { split; [done|]. intros (_ & Hk' & _). rewrite Hk', str_eqb_refl in Hk. done. }
  destruct (str_eqb (n_actor entry) _) eqn:Ha; cbn [negb].
  2: { split; [done|]. intros (_ & _ & Ha' & _). rewrite Ha', str_eqb_refl in Ha. done. }
  apply str_eqb_true in Hk, Ha. split.
  - intros (payload & Hp & H)%bind_ok. apply Ok_inj, py_eq_true in H. by eauto 6.
  - intros (_ & _ & _ & payload & Hp & H%py_eq_true). rewrite Hp. by cbn [mbind result_bind]; rewrite H.
Qed.

Lemma audited_matches lookup e s :
  audited lookup e s ↔
  t_audit_seq e = Some s ∧ ∃ entry, lookup s = Some entry ∧ entry_matches e entry = Ok true.
Proof. unfold audited. setoid_rewrite entry_matches_true. naive_solver. Qed.

Lemma verify_audit_ok events audit :
  _verify_audit_records events audit = Ok tt ↔
  ∃ seqs found, NoDup seqs ∧ audit seqs = Ok found ∧ Forall2 (audited found) events seqs.
Proof.
  assert (∀ found es ss, length es = length ss → mapR audit_reference es = Ok ss →
    foldR (λ _ : unit, check_entry found) tt (zip es ss) = Ok tt ↔ Forall2 (audited found) es ss) as Hf.
  { intros found es ss. revert ss. induction es as [|e es IH]; intros [|s ss] Hl Hm; try done.
    cbn in Hm. apply bind_ok in Hm as (s' & Hs & Hm). apply bind_ok in Hm as (ss' & Hss & Hm).
    injection Hm as <- <-. assert (t_audit_seq e = Some s' ∧ is_Some (t_audit_hash e)) as [Hs' Hh].
    { unfold audit_reference in Hs. destruct (t_audit_seq e), (t_audit_hash e); naive_solver. }
    cbn [zip zip_with foldR]. rewrite bind_ok. split.
    - intros ([] & Hc & H). apply IH in H; [|naive_solver|done]. constructor; [|done]. apply audited_matches. split; [done|].
      unfold check_entry in Hc. cbn in Hc. destruct (found s') as [entry|] eqn:Ef; [|discriminate].
      exists entry. split; [done|]. apply bind_ok in Hc as (ok & Hok & Hc). by destruct ok.
    - inversion 1 as [|? ? ? ? (_ & entry & Hfound & Hm')%audited_matches Hrest]; subst. exists tt.
      split; [|apply IH; [naive_solver|done|done]]. unfold check_entry. cbn. by rewrite Hfound, Hm'. }
  unfold _verify_audit_records. split.
  - intros H. apply bind_ok in H as (seqs & Hs & H).
    destruct (bool_decide (NoDup seqs)) eqn:En; [|discriminate]. apply bool_decide_eq_true in En.
    cbn [negb] in H. apply bind_ok in H as (found & Ha & H). exists seqs, found. split_and!; try done.
    apply Hf; [symmetry; by eapply mapR_length|done|done].
  - intros (seqs & found & Hn & Ha & H).
    assert (mapR audit_reference events = Ok seqs) as Hs.
    { apply mapR_Ok. eapply Forall2_impl; [done|]. intros e s (Hseq & entry & _ & Hm)%audited_matches.
      unfold audit_reference. rewrite Hseq. unfold entry_matches in Hm.
      destruct (t_audit_hash e); [done|]. by rewrite bool_decide_eq_false_2 in Hm. }
    rewrite Hs. cbn [mbind result_bind]. rewrite bool_decide_eq_true_2 by done. cbn [negb].
    rewrite Ha. cbn [mbind result_bind]. apply Hf; [by eapply Forall2_length|done|done].
Qed.

Section fold_facts.
Context (nfkc casefold : pystr → pystr).
#[local] Notation norm_id := (normalise_identity nfkc casefold).

(** The state reached from DRAFT by signatures of pairwise different people, none of whom is the
    proposer; [events] is where the signatures come from. *)
Record fold_ok (submitter : pystr) (events : list TransitionEvent) (st : FoldState) : Prop := {
  fo_stages : a_stage <$> f_approvals st = take (length (f_approvals st)) (tail PIPELINE);
  fo_state : f_state st = REJECTED ∨ PIPELINE !! length (f_approvals st) = Some (f_state st);
  fo_ids : Forall2 (λ a who, norm_id (a_approver_id a) = Ok who) (f_approvals st) (reverse (f_signers st));
  fo_distinct : NoDup (f_signers st);
  fo_not_self : submitter ∉ f_signers st;
  fo_events : Forall (λ a, ∃ e, e ∈ events ∧ t_kind e = u "approved" ∧ t_to e = a_stage a
                               ∧ t_actor e = a_approver_id a) (f_approvals st);
  fo_rejected : f_state st = REJECTED ↔ is_Some (f_rejected_by st);
}.

Lemma following_index k s s' :
  PIPELINE !! k = Some s → following s = Some s' → PIPELINE !! S k = Some s' ∧ s' ≠ REJECTED.
Proof.
  do 7 (destruct k as [|k]; [cbn; intros [= <-]; vm_compute; intros [= <-]; by split|]).
  rewrite lookup_ge_None_2; [done|cbn; lia].
Qed.

Lemma promoted_index k : PIPELINE !! k = Some PROMOTED → k = 6%nat.
Proof.
  do 7 (destruct k as [|k]; [cbn; congruence|]).
  rewrite lookup_ge_None_2; [done|cbn; lia].
Qed.

Lemma following_rejected : following REJECTED = None.
Proof. reflexivity. Qed.

Lemma approval_inv e a :
  _approval e = Ok a → a_stage a = t_to e ∧ a_approver_id a = t_actor e.
Proof. unfold _approval. intros H. ok_inv. by subst. Qed.

Lemma stored_identity_ok e who :
  _stored_identity nfkc casefold e = Ok who → norm_id (t_actor e) = Ok who.
Proof.
  unfold _stored_identity, as_store_error, try_except. intros H.
  destruct (norm_id _) as [w|x]; [done|]. by destruct (bool_decide _).
Qed.

Lemma fold_step_ok proposal submitter events st i e st' :
  e ∈ events → fold_ok submitter events st →
  fold_step nfkc casefold proposal submitter st (i, e) = Ok st' → fold_ok submitter events st'.
Proof.
  intros He Hok. unfold fold_step.
  destruct (negb _ || negb _); [discriminate|].
  destruct (i =? 1). { destruct (negb _ || negb _); [discriminate|]. by intros [= <-]. }
  destruct (terminal (f_state st) || _) eqn:Et; [discriminate|]. apply orb_false_iff in Et as [Et _].
  assert (f_state st ≠ REJECTED) as Hnr by (intros E; by rewrite E in Et).
  destruct (str_eqb (t_kind e) (u "approved")) eqn:Ek.
  - destruct (negb (bool_decide (following (f_state st) = Some (t_to e)))) eqn:Ef; [discriminate|].
    apply negb_false_iff, bool_decide_eq_true in Ef. intros H. apply bind_ok in H as (who & Hw & H).
    apply stored_identity_ok in Hw.
    destruct (str_eqb who submitter) eqn:Es; [discriminate|].
    destruct (bool_decide (who ∈ f_signers st)) eqn:Ei; [discriminate|]. apply bool_decide_eq_false in Ei.
    apply bind_ok in H as (a & Ha & H). apply Ok_inj in H as <-.
    apply approval_inv in Ha as [Hs Hp]. destruct Hok as [H1 H2 H3 H4 H5 H6 H7].
    destruct H2 as [H2|H2]; [done|]. destruct (following_index _ _ _ H2 Ef) as [Hn Hr].
    split; cbn [f_state f_approvals f_signers f_rejected_by f_reason].
    + rewrite length_app, fmap_app, H1, Nat.add_1_r. cbn [fmap list_fmap]. rewrite Hs.
      symmetry. by apply take_S_r.
    + right. by rewrite length_app, Nat.add_1_r.
    + rewrite reverse_cons. apply Forall2_app; [done|]. constructor; [by rewrite Hp|constructor].
    + by apply NoDup_cons.
    + intros [E|?]%elem_of_cons; [|done]. subst who. by rewrite str_eqb_refl in Es.
    + apply Forall_app. split; [done|]. constructor; [|constructor]. exists e.
      apply str_eqb_true in Ek. by split_and!.
    + split; [done|]. intros Hrb. by apply H7 in Hrb.
  - destruct (str_eqb (t_kind e) (u "rejected") && _) eqn:Er; [|discriminate].
    apply andb_true_iff in Er as [_ Er]. apply bool_decide_eq_true in Er.
    intros H. apply bind_ok in H as (who & Hw & H). apply bind_ok in H as (d & Hd & H).
    destruct (get d (u "reason")) as [| | | |s| |]; try discriminate.
    destruct (is_blank s); [discriminate|]. apply Ok_inj in H as <-.
    destruct Hok as [H1 H2 H3 H4 H5 H6 H7]. split; cbn; try done. by left.
Qed.

Lemma enumerate_snd {A} n (l : list A) : (enumerate n l).*2 = l.
Proof. revert n. induction l as [|x l IH]; intros n; cbn; [done|]. by rewrite IH. Qed.

Lemma enumerate_app {A} n (l k : list A) :
  enumerate n (l ++ k) = enumerate n l ++ enumerate (n + Z.of_nat (length l)) k.
Proof.
  revert n. induction l as [|x l IH]; intros n; cbn [app enumerate length]; [by rewrite Z.add_0_r|].
  rewrite IH. replace (n + 1 + Z.of_nat (length l)) with (n + Z.of_nat (S (length l))) by lia. done.
Qed.

(** The pieces of a successful [fold]. *)
Lemma fold_inv events audit rec :
  fold nfkc casefold events audit = Ok rec ↔
  ∃ first rest submitter st,
    events = first :: rest ∧ t_kind first = u "submitted" ∧
    _stored_proposal nfkc casefold first = Ok (p_proposal rec) ∧
    norm_id (proposer_id (p_proposal rec)) = Ok submitter ∧
    foldR (fold_step nfkc casefold (p_proposal rec) submitter) start_fold (enumerate 1 events) = Ok st ∧
    _verify_audit_records events audit = Ok tt ∧
    rec = mkProposalRecord (p_proposal rec) (f_state st) (Z.of_nat (length events)) (f_approvals st)
            (f_rejected_by st) (f_reason st).
Proof.
  destruct events as [|first rest]; cbn [fold]; [split; [discriminate|naive_solver]|]. split.
  - destruct (str_eqb (t_kind first) (u "submitted")) eqn:Ek; [|discriminate]. cbn [negb]. intros H.
    apply bind_ok in H as (p & Hp & H). apply bind_ok in H as (sub & Hs & H).
    apply bind_ok in H as (st & Hst & H). apply bind_ok in H as ([] & Ha & H). apply Ok_inj in H as <-.
    apply str_eqb_true in Ek. exists first, rest, sub, st. by split_and!.
  - intros (first' & rest' & sub & st & [= <- <-] & Hk & Hp & Hs & Hst & Ha & Hr).
    rewrite Hk, str_eqb_refl. cbn [negb]. rewrite Hp. cbn [mbind result_bind]. rewrite Hs.
    cbn [mbind result_bind]. rewrite Hst. cbn [mbind result_bind]. rewrite Ha. cbn [mbind result_bind].
    f_equal. symmetry. exact Hr.
Qed.

Lemma fold_state_ok proposal submitter events st :
  foldR (fold_step nfkc casefold proposal submitter) start_fold (enumerate 1 events) = Ok st →
  fold_ok submitter events st.
Proof.
  apply foldR_inv_elem.
  - split; cbn [f_state f_approvals f_signers f_rejected_by f_reason start_fold].
    + done.
    + by right.
    + apply Forall2_nil_2.
    + apply NoDup_nil_2.
    + by intros ?%elem_of_nil.
    + apply List.Forall_nil.
    + split; [done|]. by intros [].
  - intros s [i e] s' Hin. apply fold_step_ok. rewrite <- (enumerate_snd 1 events).
    apply list_elem_of_fmap. by exists (i, e).
Qed.
End fold_facts.

(** The six gates were signed in order, by six people other than each other and the proposer; each
    approval is an [approved] event of the history; nobody rejected; and every event is backed by
    an audit record of its own. *)
Definition fully_signed (nfkc casefold : pystr → pystr) (events : list TransitionEvent)
    (audit : AuditLookup) (rec : ProposalRecord) : Prop :=
  a_stage <$> p_approvals rec = [COMPLIANCE; LEGAL; BACKTEST; RISK; CANARY; PROMOTED] ∧
  (∃ submitter ids, normalise_identity nfkc casefold (proposer_id (p_proposal rec)) = Ok submitter ∧
     mapR (λ a, normalise_identity nfkc casefold (a_approver_id a)) (p_approvals rec) = Ok ids ∧
     NoDup (submitter :: ids)) ∧
  (∀ a, a ∈ p_approvals rec → ∃ e, e ∈ events ∧ t_kind e = u "approved" ∧ t_to e = a_stage a ∧
     t_actor e = a_approver_id a) ∧
  p_rejected_by rec = None ∧
  ∃ seqs found, NoDup seqs ∧ audit seqs = Ok found ∧ Forall2 (audited found) events seqs.

Lemma promoted_signed nfkc casefold events audit rec :
  fold nfkc casefold events audit = Ok rec → p_state rec = PROMOTED →
  fully_signed nfkc casefold events audit rec.
Proof.
  intros H Hs. apply fold_inv in H as (first & rest & sub & st & _ & _ & _ & Hsub & Hst & Ha & Hr).
  apply fold_state_ok in Hst as [H1 H2 H3 H4 H5 H6 H7]. unfold fully_signed. rewrite Hr in Hs |- *.
  cbn in Hs |- *.
  destruct H2 as [?|H2]; [congruence|]. rewrite Hs in H2.
  assert (length (f_approvals st) = 6%nat) as Hl.
  { clear -H2. by apply promoted_index. }
  split_and!.
  - by rewrite H1, Hl.
  - exists sub, (reverse (f_signers st)). split_and!; [done|by apply mapR_Ok|].
    apply NoDup_cons. rewrite elem_of_reverse. split; [done|]. by rewrite reverse_Permutation.
  - by apply Forall_forall.
  - destruct (f_rejected_by st) eqn:E; [|done]. assert (f_state st = REJECTED) by (apply H7; eauto). congruence.
  - by apply verify_audit_ok.
Qed.

Lemma stage_value_inj s s' : stage_value s = stage_value s' → s = s'.
Proof. by destruct s, s'. Qed.
