(* ===== verification/SharpGate.v ===== *)
(** * SHARP promotion gate: the enforced state machine ([gate.py], [ports.py], [memory_store.py])

    What the gate asks of its store and of the audit log are two interfaces with laws; the gate's
    commands are written against them. Every call of either may fail, and a call that fails may
    have taken effect. The in-memory store is an instance of the first; [SharpAudit] makes the
    hash-chained logger an instance of the second. *)
From S2P Require Import Prelude PyStr Json JsonFacts PyTime SharpModels.

(** ** ports.py *)

(** The store, with the histories it holds as its specification. *)
Class ProposalStore (S : Type) := {
  load : pystr → M S (list TransitionEvent);
  append : TransitionEvent → Z → M S unit;
  history : S → pystr → list TransitionEvent;
}.

(** The event is now the last one of its history, which had the expected length. *)
Definition landed `{ProposalStore St} (e : TransitionEvent) (expected : Z) (s s' : St) : Prop :=
  Z.of_nat (length (history s (t_proposal_id e))) = expected ∧ t_version e = expected + 1 ∧
  history s' (t_proposal_id e) = history s (t_proposal_id e) ++ [e] ∧
  ∀ pid, pid ≠ t_proposal_id e → history s' pid = history s pid.

Class StoreLaws (S : Type) `{ProposalStore St} := {
  load_law : ∀ pid s r s', load pid s = (r, s') →
    (∀ pid', history s' pid' = history s pid') ∧ (∀ l, r = Ok l → l = history s pid);
  append_law : ∀ e n s r s', append e n s = (r, s') →
    landed e n s s' ∨ (∃ x, r = Raise x) ∧ ∀ pid, history s' pid = history s pid;
}.

(** What a committed audit write returns; a sink may return something unusable. *)
Record AuditReceipt := mkReceipt { rc_seq : option Z; rc_hash : option pystr }.

(** The audit log: its sink, its lookup, the records it holds, and when it is sound. *)
Class AuditLog (A : Type) := {
  record : pystr → pystr → list (pystr * json) → M A AuditReceipt;
  find : A → AuditLookup;
  entries : A → Z → option AuditEntry;
  audit_ok : A → Prop;
}.

(** [entry] says what was recorded. *)
Definition says (entry : AuditEntry) (event_type actor : pystr) (payload : list (pystr * json)) : Prop :=
  n_event_type entry = event_type ∧ n_actor entry = actor ∧
  py_eq (JObj (n_payload entry)) (JObj payload) = true.

Class AuditLaws (A : Type) `{AuditLog A} := {
  record_law : ∀ et ac p a r a', audit_ok a → record et ac p a = (r, a') →
    audit_ok a' ∧ (∀ s x, entries a s = Some x → entries a' s = Some x) ∧
    ∀ s h, dict_ok (JObj p) → r = Ok (mkReceipt (Some s) (Some h)) →
      entries a s = None ∧ ∃ entry, entries a' s = Some entry ∧ n_hash entry = h ∧ says entry et ac p;
  find_law : ∀ a seqs f, audit_ok a → find a seqs = Ok f → ∀ s, s ∈ seqs → f s = entries a s;
}.

(** [StaticRoleAuthorizer]: the identities of each stage in comparison form; unlisted stages
    deny everyone. [is_authorized] normalises first, so a bad identity raises. *)
Section authorizer.
Context (nfkc casefold : pystr → pystr).
Definition make_authorizer (allowed : list (Stage * list pystr)) : result (list (Stage * list pystr)) :=
  mapR (λ x, ids ← mapR (normalise_identity nfkc casefold) x.2; Ok (x.1, ids)) allowed.
Definition static_is_authorized (allowed : list (Stage * list pystr)) (identity : pystr) (stage : Stage)
  : result bool :=
  who ← normalise_identity nfkc casefold identity;
  Ok (match List.find (λ x, bool_decide (x.1 = stage)) allowed with
      | Some x => bool_decide (who ∈ x.2)
      | None => false
      end).
End authorizer.

(** ** memory_store.py *)

Abbreviation MemoryStore := (gmap pystr (list TransitionEvent)).
Definition mem_history (m : MemoryStore) (pid : pystr) : list TransitionEvent := default [] (m !! pid).
Definition mem_load (pid : pystr) : M MemoryStore (list TransitionEvent) := λ m, (Ok (mem_history m pid), m).
(** [setdefault] leaves an empty history behind even when the append is refused. *)
Definition mem_append (e : TransitionEvent) (expected : Z) : M MemoryStore unit := λ m,
  let h := mem_history m (t_proposal_id e) in
  let m := <[t_proposal_id e := h]> m in
  if negb (Z.of_nat (length h) =? expected) || negb (t_version e =? expected + 1) then
    (raise ConcurrencyError (u "another transition was recorded first"), m)
  else (Ok tt, <[t_proposal_id e := h ++ [e]]> m).

#[export] Instance memory_store : ProposalStore MemoryStore :=
  { load := mem_load; append := mem_append; history := mem_history }.

Lemma mem_history_eq m k v : mem_history (<[k := v]> m) k = v.
Proof. unfold mem_history. by rewrite lookup_insert_eq. Qed.
Lemma mem_history_ne m k k' v : k' ≠ k → mem_history (<[k := v]> m) k' = mem_history m k'.
Proof. intros. unfold mem_history. by rewrite lookup_insert_ne. Qed.

#[export] Instance memory_store_laws : StoreLaws MemoryStore.
Proof.
  split; cbn [load append history memory_store].
  - by intros pid s r s' [= <- <-]; split; [|intros l [= <-]].
  - intros e n m r m'. unfold mem_append. set (h := mem_history m _).
    assert (∀ pid, mem_history (<[t_proposal_id e := h]> m) pid = mem_history m pid) as Hs.
    { intros pid. destruct (decide (pid = t_proposal_id e)) as [->|];
        [apply mem_history_eq|by apply mem_history_ne]. }
    destruct (negb _ || negb _) eqn:E; intros [= <- <-]; [right; split; [eauto|done]|left].
    apply orb_false_iff in E as [E1 E2]. rewrite negb_false_iff, Z.eqb_eq in E1, E2.
    unfold landed. cbn [history memory_store]. fold h. split_and!; try done; [apply mem_history_eq|].
    intros pid Hp. by rewrite !mem_history_ne.
Qed.

(** ** gate.py *)

Section gate.
Context (nfkc casefold : pystr → pystr).
Context `{ProposalStore St, AuditLog A}.
(** [ApproverAuthorizer.is_authorized]. *)
Context (is_authorized : pystr → Stage → result bool).
#[local] Notation norm_id := (normalise_identity nfkc casefold).

Record Gate := mkGate { g_store : St; g_audit : A }.

Definition on_store {X} (m : M St X) : M Gate X := λ g,
  let '(r, s) := m (g_store g) in (r, mkGate s (g_audit g)).
Definition on_audit {X} (m : M A X) : M Gate X := λ g,
  let '(r, a) := m (g_audit g) in (r, mkGate (g_store g) a).

(** [SharpGate.get]. *)
Definition get_record (pid : pystr) : M Gate ProposalRecord :=
  hist ← on_store (load pid);
  if bool_decide (hist = []) then lift (raise UnknownProposalError (u "unknown proposal"))
  else λ g, (fold nfkc casefold hist (find (g_audit g)), g).

Definition _open (pid : pystr) : M Gate ProposalRecord :=
  record ← get_record pid;
  if is_terminal record then lift (raise ProposalClosedError (u "no further transitions"))
  else mret record.

Definition _event (pid : pystr) (version : Z) (kind : pystr) (from : option Stage) (to : Stage)
    (actor : pystr) (now : datetime) (detail : list (pystr * json)) : TransitionEvent :=
  mkTransition pid version kind from to actor now (dumps_detail detail) None None.

(** [replace(event, **_audit_reference(receipt))]. *)
Definition with_reference (e : TransitionEvent) (r : AuditReceipt) : result TransitionEvent :=
  match rc_seq r, rc_hash r with
  | Some s, Some h =>
      Ok (mkTransition (t_proposal_id e) (t_version e) (t_kind e) (t_from e) (t_to e) (t_actor e)
            (t_occurred_at e) (t_detail_json e) (Some s) (Some h))
  | _, _ => raise AuditFailureError (u "audit sink returned no usable record reference; nothing stored")
  end.

Definition same_reference (e stored : TransitionEvent) : bool :=
  (t_version e =? t_version stored) && bool_decide (t_audit_seq e = t_audit_seq stored)
  && bool_decide (t_audit_hash e = t_audit_hash stored).

(** [_store_outcome]: present, absent or unverified. *)
Definition _store_outcome (stored : TransitionEvent) : M Gate pystr :=
  catch_all
    (hist ← on_store (load (t_proposal_id stored));
     mret (if existsb (λ e, same_reference e stored) hist then u "present" else u "absent"))
    (λ _, mret (u "unverified")).

Definition opt_json {X} (f : X → json) (o : option X) : json := match o with Some x => f x | None => JNull end.

Definition abort_payload (payload : list (pystr * json)) (stored : TransitionEvent) (exc : exn) (outcome : pystr)
  : list (pystr * json) :=
  payload ++ [ (u "audit_seq", opt_json JInt (t_audit_seq stored));
               (u "audit_hash", opt_json JStr (t_audit_hash stored));
               (u "reason", JStr (exn_name (exn_kind exc)));
               (u "store_outcome", JStr outcome) ].

Definition _record_abort (stored : TransitionEvent) (payload : list (pystr * json)) (exc : exn) (outcome : pystr)
  : M Gate unit :=
  catch_all
    (on_audit (record (u "sharp.transition_aborted") (t_actor stored)
                 (abort_payload payload stored exc outcome)) ≫= λ _, mret tt)
    (λ _, lift (raise AbortNotRecordedError (u "transition not stored and not marked"))).

Definition _commit (event : TransitionEvent) (expected_version : Z) : M Gate unit :=
  payload ← lift (transition_payload event);
  receipt ← catch_all (on_audit (record (u "sharp." ++ t_kind event) (t_actor event) payload))
              (λ _, lift (raise AuditFailureError (u "audit refused the transition")));
  stored ← lift (with_reference event receipt);
  catch_all (on_store (append stored expected_version))
    (λ exc,
       outcome ← _store_outcome stored;
       if str_eqb outcome (u "present") then mret tt
       else _record_abort stored payload exc outcome ≫= λ _, lift (Raise exc)).

Definition submit (proposal : RubricChangeProposal) (now : datetime) : M Gate ProposalRecord :=
  hist ← on_store (load (proposal_id proposal));
  if negb (bool_decide (hist = [])) then lift (raise DuplicateProposalError (u "already exists"))
  else
    _commit (_event (proposal_id proposal) 1 (u "submitted") None DRAFT (proposer_id proposal) now
               (to_detail proposal)) 0 ≫= λ _,
    get_record (proposal_id proposal).

(** [any(who == normalise_identity(a.approver_id) for a in record.approvals)]. *)
Fixpoint already_signed (who : pystr) (approvals : list Approval) : result bool :=
  match approvals with
  | [] => Ok false
  | a :: l => id ← norm_id (a_approver_id a); if str_eqb who id then Ok true else already_signed who l
  end.

Definition approve_guards (record : ProposalRecord) (approver : pystr) (gate : Stage) : result unit :=
  guard_raise (negb (bool_decide (next_stage record = Some gate))) StageSkipError (u "not the next stage") ≫= λ _,
  who ← norm_id approver;
  proposer ← norm_id (proposer_id (p_proposal record));
  guard_raise (str_eqb who proposer) SelfApprovalError (u "the proposer cannot approve their own proposal") ≫= λ _,
  signed ← already_signed who (p_approvals record);
  guard_raise signed DistinctApproverError (u "this identity already approved another stage") ≫= λ _,
  ok ← is_authorized approver gate;
  guard_raise (negb ok) NotAuthorizedError (u "may not approve this stage").

Definition approve (pid approver : pystr) (gate : Stage) (refs : list pystr) (note : pystr) (now : datetime)
  : M Gate ProposalRecord :=
  record ← _open pid;
  lift (approve_guards record approver gate) ≫= λ _,
  _commit (_event pid (p_version record + 1) (u "approved") (Some (p_state record)) gate approver now
             [(u "evidence_refs", JArr (JStr <$> refs)); (u "note", JStr note)]) (p_version record) ≫= λ _,
  get_record pid.

Definition reject_guards (record : ProposalRecord) (approver reason : pystr) : result unit :=
  guard_raise (is_blank reason) ProposalValidationError (u "a rejection reason is required") ≫= λ _,
  norm_id approver ≫= λ _,
  ok ← match next_stage record with Some s => is_authorized approver s | None => Ok false end;
  guard_raise (negb ok) NotAuthorizedError (u "may not reject at this stage").

Definition reject (pid approver reason : pystr) (now : datetime) : M Gate ProposalRecord :=
  record ← _open pid;
  lift (reject_guards record approver reason) ≫= λ _,
  _commit (_event pid (p_version record + 1) (u "rejected") (Some (p_state record)) REJECTED approver now
             [(u "reason", JStr reason)]) (p_version record) ≫= λ _,
  get_record pid.
End gate.
