(* ===== verification/SharpFacts.v ===== *)
(** * SHARP promotion gate: its invariant and what its commands promise

    Whatever fails, every history in the store is empty or one that [fold] accepts, each of its
    events backed by the audit log; a command that returns has appended exactly its transition. *)
From S2P Require Import Prelude PyStr Json JsonFacts PyTime SharpModels SharpGate.

(** A lookup that answers. *)
Definition served (entries : Z → option AuditEntry) : AuditLookup := λ _, Ok entries.

Definition grows (f g : Z → option AuditEntry) : Prop := ∀ s x, f s = Some x → g s = Some x.

Section facts.
Context (nfkc casefold : pystr → pystr).
#[local] Notation norm_id := (normalise_identity nfkc casefold).
#[local] Notation fold := (fold nfkc casefold).

Lemma audited_grows f g e s : grows f g → audited f e s → audited g e s.
Proof. intros Hg (? & entry & payload & ? & ?). split; [done|]. exists entry, payload. auto. Qed.

Lemma verify_served events f :
  _verify_audit_records events (served f) = Ok tt ↔ ∃ seqs, NoDup seqs ∧ Forall2 (audited f) events seqs.
Proof.
  rewrite verify_audit_ok. split; [|naive_solver]. by intros (seqs & ? & ? & [= <-] & ?); eauto.
Qed.

Lemma fold_audit events audit audit' rec :
  (_verify_audit_records events audit = Ok tt → _verify_audit_records events audit' = Ok tt) →
  fold events audit = Ok rec → fold events audit' = Ok rec.
Proof.
  intros Ha (first & rest & sub & st & ? & ? & ? & ? & ? & ? & ?)%fold_inv. apply fold_inv.
  exists first, rest, sub, st. split_and!; auto.
Qed.

Lemma fold_grows events f g rec : grows f g → fold events (served f) = Ok rec → fold events (served g) = Ok rec.
Proof.
  intros Hg. apply fold_audit. rewrite !verify_served. intros (seqs & ? & H). exists seqs. split; [done|].
  eapply Forall2_impl; [done|]. intros e s. by apply audited_grows.
Qed.

(** The signers that [fold] collected are those of the approvals it returns. *)
Lemma already_signed_ok who approvals ids :
  Forall2 (λ a w, norm_id (a_approver_id a) = Ok w) approvals ids →
  already_signed nfkc casefold who approvals = Ok (bool_decide (who ∈ ids)).
Proof.
  induction 1 as [|a w approvals ids Ha _ IH]; cbn [already_signed].
  { by rewrite bool_decide_eq_false_2 by apply not_elem_of_nil. }
  rewrite Ha. cbn [mbind result_bind]. destruct (str_eqb who w) eqn:E.
  - apply str_eqb_true in E as ->. rewrite bool_decide_eq_true_2; [done|left].
  - rewrite IH. f_equal. apply bool_decide_ext. rewrite elem_of_cons. split; [auto|].
    intros [->|?]; [by rewrite str_eqb_refl in E|done].
Qed.

(** What is needed of one more event. *)
Definition extends (f g : Z → option AuditEntry) (e : TransitionEvent) : Prop :=
  grows f g ∧ ∃ s, f s = None ∧ audited g e s.

Lemma fold_snoc h f g e rec sub st st' :
  fold h (served f) = Ok rec → extends f g e →
  norm_id (proposer_id (p_proposal rec)) = Ok sub →
  foldR (fold_step nfkc casefold (p_proposal rec) sub) start_fold (enumerate 1 h) = Ok st →
  fold_step nfkc casefold (p_proposal rec) sub st (1 + Z.of_nat (length h), e) = Ok st' →
  fold (h ++ [e]) (served g)
  = Ok (mkProposalRecord (p_proposal rec) (f_state st') (Z.of_nat (length (h ++ [e]))) (f_approvals st')
          (f_rejected_by st') (f_reason st')).
Proof.
  intros (first & rest & sub' & st0 & -> & Hk & Hp & Hs & Hst & Ha & Hr)%fold_inv (Hg & s & Hs0 & He) Hsub Hfold Hstep.
  apply fold_inv. exists first, (rest ++ [e]), sub, st'. cbn [p_proposal].
  split_and!; try done.
  - rewrite enumerate_app, foldR_app, Hfold. cbn [mbind result_bind enumerate foldR].
    by rewrite Hstep.
  - apply verify_served. apply verify_served in Ha as (seqs & Hn & Hf). exists (seqs ++ [s]). split.
    + apply NoDup_app. split_and!; [done| |apply NoDup_singleton]. intros x Hx ->%list_elem_of_singleton.
      apply list_elem_of_lookup in Hx as [i Hi].
      eapply Forall2_lookup_r in Hf as (e' & _ & _ & x & y & Hx & _); [|done]. congruence.
    + apply Forall2_app; [|by constructor; [|constructor]].
      eapply Forall2_impl; [done|]. intros ??. by apply audited_grows.
Qed.

Context `{ProposalStore St, AuditLog A, !StoreLaws St, !AuditLaws A}.
Context (is_authorized : pystr → Stage → result bool).
#[local] Notation G := (Gate (St:=St) (A:=A)).

(** The history of a proposal is sound. *)
Definition sound (pid : pystr) (h : list TransitionEvent) (ents : Z → option AuditEntry) : Prop :=
  h = [] ∨ ∃ rec, fold h (served ents) = Ok rec ∧ proposal_id (p_proposal rec) = pid.

Definition gate_ok (g : G) : Prop :=
  audit_ok (g_audit g) ∧ ∀ pid, sound pid (history (g_store g) pid) (entries (g_audit g)).

Definition same_histories (g g' : G) : Prop :=
  ∀ pid, history (g_store g') pid = history (g_store g) pid.

(** The transition [event] was stored, with a reference to a new audit record that says it. *)
Definition performed (event : TransitionEvent) (expected : Z) (g g' : G) : Prop :=
  ∃ stored s h,
    stored = mkTransition (t_proposal_id event) (t_version event) (t_kind event) (t_from event)
               (t_to event) (t_actor event) (t_occurred_at event) (t_detail_json event) (Some s) (Some h) ∧
    landed stored expected (g_store g) (g_store g') ∧
    extends (entries (g_audit g)) (entries (g_audit g')) stored.

Lemma on_store_inv {X} (m : M St X) (g : G) r g' :
  on_store m g = (r, g') → ∃ s', m (g_store g) = (r, s') ∧ g' = mkGate s' (g_audit g).
Proof. unfold on_store. destruct (m (g_store g)) as [x s]. intros [= <- <-]. eauto. Qed.

Lemma on_audit_inv {X} (m : M A X) (g : G) r g' :
  on_audit m g = (r, g') → ∃ a', m (g_audit g) = (r, a') ∧ g' = mkGate (g_store g) a'.
Proof. unfold on_audit. destruct (m (g_audit g)) as [x s]. intros [= <- <-]. eauto. Qed.

Lemma load_inv pid (g : G) r g' :
  on_store (load pid) g = (r, g') →
  same_histories g g' ∧ g_audit g' = g_audit g ∧ ∀ l, r = Ok l → l = history (g_store g) pid.
Proof.
  intros (s' & Hl & ->)%on_store_inv. apply load_law in Hl as [Hh Hr]. by split_and!.
Qed.

Lemma gate_record_inv et ac p (g : G) r g' :
  on_audit (record et ac p) g = (r, g') → audit_ok (g_audit g) →
  g_store g' = g_store g ∧ audit_ok (g_audit g') ∧ grows (entries (g_audit g)) (entries (g_audit g')) ∧
  ∀ s h, dict_ok (JObj p) → r = Ok (mkReceipt (Some s) (Some h)) →
    entries (g_audit g) s = None ∧
    ∃ entry, entries (g_audit g') s = Some entry ∧ n_hash entry = h ∧ says entry et ac p.
Proof.
  intros (a' & Hl & ->)%on_audit_inv Hok. apply record_law in Hl as (? & ? & ?); [|done]. by split_and!.
Qed.

(** What a call of the gate did to the store and the log, whatever it returned. *)
Definition quiet (g g' : G) : Prop :=
  same_histories g g' ∧ audit_ok (g_audit g') ∧ grows (entries (g_audit g)) (entries (g_audit g')).

Lemma quiet_trans g1 g2 g3 : quiet g1 g2 → quiet g2 g3 → quiet g1 g3.
Proof.
  intros (H1 & _ & G1) (H2 & A2 & G2). split_and!; [|done|].
  - intros pid. by rewrite H2, H1.
  - intros s x Hx. auto.
Qed.

Lemma performed_quiet e n g1 g2 g3 : performed e n g1 g2 → quiet g2 g3 → performed e n g1 g3.
Proof.
  intros (st & s & h & -> & (L1 & L2 & L3 & L4) & Hg & s0 & Hn & Ha) (Hh & _ & G2).
  eexists _, s, h. split_and!; [reflexivity| |].
  - split_and!; [done|done|by rewrite Hh|]. intros pid Hp. rewrite Hh. auto.
  - split; [intros x y Hx; auto|]. exists s0. split; [done|]. by eapply audited_grows.
Qed.

Lemma quiet_performed e n g1 g2 g3 : quiet g1 g2 → performed e n g2 g3 → performed e n g1 g3.
Proof.
  intros (Hh & _ & G1) (st & s & h & -> & (L1 & L2 & L3 & L4) & Hg & s0 & Hn & Ha).
  eexists _, s, h. split_and!; [reflexivity| |].
  - split_and!; [by rewrite <- Hh|done|by rewrite L3, Hh|]. intros pid Hp. rewrite L4 by done. apply Hh.
  - split; [intros x y Hx; auto|]. exists s0. split; [|done].
    destruct (entries (g_audit g1) s0) eqn:E; [|done]. apply G1 in E. congruence.
Qed.

Lemma load_quiet pid (g : G) r g' : on_store (load pid) g = (r, g') → audit_ok (g_audit g) → quiet g g'.
Proof. intros (Hh & Hg & _)%load_inv Ha. split_and!; [done|by rewrite Hg|rewrite Hg; by intros s x]. Qed.

Lemma quiet_refl (g : G) : audit_ok (g_audit g) → quiet g g.
Proof. intros Ha. split_and!; [by intros pid|done|by intros s x]. Qed.

Lemma get_record_inv pid (g : G) r g' :
  get_record nfkc casefold pid g = (r, g') → audit_ok (g_audit g) →
  quiet g g' ∧ ∀ rec, r = Ok rec →
    fold (history (g_store g) pid) (served (entries (g_audit g))) = Ok rec ∧ history (g_store g) pid ≠ [].
Proof.
  intros H1 Ha. unfold get_record in H1. m_step H1.
  - pose proof (load_quiet _ _ _ _ E Ha) as Hq.
    apply load_inv in E as (Hh & Hg & Hl). rewrite (Hl _ eq_refl) in H1.
    case_bool_decide as E0; [by injection H1 as <- <-|]. injection H1 as <- <-. split; [done|].
    intros rec Hf. split; [|done]. rewrite Hg in Hf. revert Hf. apply fold_audit.
    rewrite verify_audit_ok, verify_served. intros (seqs & found & Hn & Hfind & H2). exists seqs.
    split; [done|]. pose proof (find_law _ _ _ Ha Hfind) as Hsame. clear Hfind Hn. rename Hsame into Hfind.
    clear -H2 Hfind. induction H2 as [|e x es ss He _ IH]; [apply Forall2_nil_2|].
    constructor; [|apply IH; intros; apply Hfind; by right].
    destruct He as (? & y & payload & Hy & ?). split; [done|]. exists y, payload. rewrite <- Hfind by left. done.
  - split; [by eapply load_quiet|]. subst r. by intros rec [=].
Qed.

(** Every event of a sound history references a record that exists. *)
Lemma sound_referenced pid h ents e s :
  sound pid h ents → e ∈ h → t_audit_seq e = Some s → is_Some (ents s).
Proof.
  intros [-> | (rec & Hf & _)] He Hs; [by apply elem_of_nil in He|].
  apply fold_inv in Hf as (_ & _ & _ & _ & _ & _ & _ & _ & _ & Ha & _).
  apply verify_served in Ha as (seqs & _ & Ha). apply list_elem_of_lookup in He as [i Hi].
  eapply Forall2_lookup_l in Ha as (s' & _ & Hs' & x & y & Hx & _); [|done].
  rewrite Hs in Hs'. injection Hs' as <-. eauto.
Qed.

Lemma transition_payload_stored e r stored :
  with_reference e r = Ok stored →
  ∃ s h, r = mkReceipt (Some s) (Some h) ∧ transition_payload stored = transition_payload e ∧
    stored = mkTransition (t_proposal_id e) (t_version e) (t_kind e) (t_from e) (t_to e) (t_actor e)
               (t_occurred_at e) (t_detail_json e) (Some s) (Some h).
Proof.
  unfold with_reference. destruct r as [[s|] [h|]]; cbn; try discriminate. intros [= <-].
  by exists s, h.
Qed.

Lemma store_outcome_inv stored g r g' :
  _store_outcome stored g = (r, g') → audit_ok (g_audit g) →
  quiet g g' ∧ ∃ o, r = Ok o ∧
    (o = u "present" → ∃ e, e ∈ history (g_store g) (t_proposal_id stored) ∧ t_audit_seq e = t_audit_seq stored).
Proof.
  unfold _store_outcome, catch_all. intros H1 Ha. destruct ((on_store _ ≫= _) g) as [[o|x] g1] eqn:E.
  - injection H1 as <- <-. m_step E; [|discriminate]. injection E as <- <-.
    split; [by eapply load_quiet|]. eexists. split; [reflexivity|]. intros Hp.
    apply load_inv in E0 as (_ & _ & Hl). rewrite (Hl _ eq_refl) in Hp.
    destruct (existsb _ _) eqn:Ex; [|discriminate Hp]. apply existsb_exists in Ex as (e & Hin & Hs).
    exists e. split; [by apply list_elem_of_In|]. unfold same_reference in Hs.
    by apply andb_true_iff in Hs as [[_ Hs%bool_decide_eq_true]%andb_true_iff _].
  - injection H1 as <- <-. m_step E; [discriminate|].
    split; [by eapply load_quiet|]. eexists. split; [reflexivity|]. discriminate.
Qed.

Lemma record_quiet et ac p (g : G) r g' :
  on_audit (record et ac p) g = (r, g') → audit_ok (g_audit g) → quiet g g'.
Proof. intros H1 Ha. apply gate_record_inv in H1 as (Hs & ? & ? & _); [|done]. split_and!; [|done..]. intros pid. by rewrite Hs. Qed.

Lemma record_abort_inv stored p x o (g : G) r g' :
  _record_abort stored p x o g = (r, g') → audit_ok (g_audit g) → quiet g g'.
Proof.
  unfold _record_abort, catch_all. intros H1 Ha. destruct ((on_audit _ ≫= _) g) as [q g1] eqn:E.
  assert (quiet g g1) as Hq.
  { m_step E; [injection E as <- <-|]; by eapply record_quiet. }
  destruct q; by injection H1 as <- <-.
Qed.

(** A record that was just written backs the event it was written for. *)
Lemma recorded_extends event payload stored s h f f' :
  transition_payload event = Ok payload → transition_payload stored = transition_payload event →
  stored = mkTransition (t_proposal_id event) (t_version event) (t_kind event) (t_from event) (t_to event)
             (t_actor event) (t_occurred_at event) (t_detail_json event) (Some s) (Some h) →
  grows f f' → f s = None →
  (∃ entry, f' s = Some entry ∧ n_hash entry = h ∧ says entry (u "sharp." ++ t_kind event) (t_actor event) payload) →
  extends f f' stored.
Proof.
  intros Hp Hpay Hst Hg Hn (entry & Hentry & Hh & Het & Hac & Heq). split; [done|]. exists s. split; [done|].
  split; [by rewrite Hst|]. exists entry, payload. rewrite Hpay, Hp, Hst. apply py_eq_true in Heq.
  split_and!; cbn; congruence || done.
Qed.

(** The detail of the event is JSON whose dicts are dicts. *)
Definition detail_ok (event : TransitionEvent) : Prop :=
  ∃ d, loads (t_detail_json event) = Some d ∧ dict_ok d.

Lemma payload_dict event payload :
  detail_ok event → transition_payload event = Ok payload → dict_ok (JObj payload).
Proof.
  intros (d & Hl & Hd). unfold transition_payload. intros (at_ & _ & H1)%bind_ok. rewrite Hl in H1.
  apply Ok_inj in H1 as <-. apply dict_ok_obj. split; [by apply (bool_decide_unpack _); vm_compute|].
  rewrite !Forall_cons, Forall_nil. cbn [snd]. split_and!; try done. by destruct (t_from event).
Qed.

(** A commit performs its transition or changes no history. *)
Lemma commit_inv event n (g : G) r g' :
  _commit event n g = (r, g') → gate_ok g → detail_ok event →
  audit_ok (g_audit g') ∧
  ((∃ x, r = Raise x) ∧ quiet g g' ∨ performed event n g g' ∧ is_ok (transition_payload event) = true).
Proof.
  intros H1 [Ha Hsound] Hdet. unfold _commit in H1. m_step H1; unfold lift in E; injection E as E <-.
  2: { split; [done|]. left. split; [by eexists|]. by apply quiet_refl. }
  rename a into payload. apply M_bind_inv in H1 as [(rc & g1 & E1 & H1)|(x & E1 & ->)];
    unfold catch_all in E1; destruct (on_audit _ g) as [q g2] eqn:Er;
    pose proof (record_quiet _ _ _ _ _ _ Er Ha) as Hq.
  2: { destruct q; [discriminate|]. injection E1 as <- <-. destruct Hq as (? & ? & ?).
       split; [done|]. left. split; [by eexists|done]. }
  destruct q as [rc'|]; [|discriminate]. injection E1 as <- <-.
  pose proof (gate_record_inv _ _ _ _ _ _ Er Ha) as (Hs & Ha2 & Hg & Hrec).
  m_step H1; unfold lift in E0; injection E0 as E1 <-.
  2: { split; [done|]. left. split; [by eexists|done]. }
  rename a into stored. apply transition_payload_stored in E1 as (s & h & -> & Hpay & Hst).
  destruct (Hrec s h (payload_dict _ _ Hdet E) eq_refl) as (Hnone & entry & Hentry & Hh & Het & Hac & Heq).
  pose proof (recorded_extends _ _ _ s h _ _ E Hpay Hst Hg Hnone (ex_intro _ entry (conj Hentry (conj Hh (conj Het (conj Hac Heq)))))) as Hext.
  unfold catch_all in H1. destruct (on_store (append stored n) g2) as [q3 g3] eqn:Ea.
  apply on_store_inv in Ea as (s3 & Ea & ->). apply append_law in Ea. rewrite Hs in Ea.
  assert (landed stored n (g_store g) s3 → performed event n g (mkGate s3 (g_audit g2))) as Hperf.
  { intros Hl. by exists stored, s, h. }
  assert ((∀ pid, history s3 pid = history (g_store g) pid) → quiet g (mkGate s3 (g_audit g2))) as Hquiet.
  { intros Hl. by split_and!. }
  destruct q3 as [[]|exc].
  { injection H1 as <- <-. split; [done|]. right. destruct Ea as [Hl|[[x [=]] _]]. by rewrite E; auto. }
  assert (∀ g4, quiet (mkGate s3 (g_audit g2)) g4 → quiet g g4 ∨ performed event n g g4) as Hafter.
  { intros g4 Hq4. destruct Ea as [Hl|[_ Hl]].
    - right. eapply performed_quiet; [by apply Hperf|done].
    - left. eapply quiet_trans; [by apply Hquiet|done]. }
  m_step H1.
  2: { apply store_outcome_inv in E0 as (_ & o & ? & _); [discriminate|done]. }
  pose proof E0 as Ho. apply store_outcome_inv in E0 as (Hq4 & o & [= ->] & Hpres); [|done].
  destruct (str_eqb o (u "present")) eqn:Eo.
  - injection H1 as <- <-. split; [apply Hq4|]. right. apply str_eqb_true in Eo.
    destruct Ea as [Hl|[_ Hl]]; [by rewrite E; split; [eapply performed_quiet; [apply Hperf|]|]|].
    destruct (Hpres Eo) as (e & Hin & Href). cbn [g_store] in Hin. rewrite Hl in Hin.
    rewrite Hst in Href. eapply sound_referenced in Hin as [y Hy]; [|apply Hsound|exact Href].
    congruence.
  - assert (quiet (mkGate s3 (g_audit g2)) g' ∧ ∃ x, r = Raise x) as [Hq5 Hx].
    { apply M_bind_inv in H1 as [([] & g5 & E5 & H1)|(x & E5 & ->)];
        (apply record_abort_inv in E5; [|apply Hq4]).
      - injection H1 as <- <-. split; [by eapply quiet_trans|by eexists].
      - split; [by eapply quiet_trans|by eexists]. }
    split; [apply Hq5|]. rewrite E. destruct (Hafter g' Hq5); auto.
Qed.

Lemma sound_grows pid h f g : grows f g → sound pid h f → sound pid h g.
Proof. intros Hg [->|(rec & Hf & Hp)]; [by left|right]. exists rec. split; [by eapply fold_grows|done]. Qed.

Lemma gate_ok_quiet (g g' : G) : gate_ok g → quiet g g' → gate_ok g'.
Proof.
  intros [_ Hs] (Hh & Ha & Hg). split; [done|]. intros pid. rewrite Hh. eapply sound_grows; [done|apply Hs].
Qed.

(** After a performed transition only its own history needs to be looked at. *)
Lemma gate_ok_performed event n (g g' : G) :
  gate_ok g → audit_ok (g_audit g') → performed event n g g' →
  (∀ stored, extends (entries (g_audit g)) (entries (g_audit g')) stored →
     (∃ s h, stored = mkTransition (t_proposal_id event) (t_version event) (t_kind event) (t_from event)
       (t_to event) (t_actor event) (t_occurred_at event) (t_detail_json event) (Some s) (Some h)) →
     sound (t_proposal_id event) (history (g_store g) (t_proposal_id event) ++ [stored]) (entries (g_audit g'))) →
  gate_ok g'.
Proof.
  intros [_ Hs] Ha (stored & s & h & Hst & (_ & _ & Hl & Ho) & Hext) Hsound. split; [done|]. intros pid.
  assert (t_proposal_id stored = t_proposal_id event) as Hpid by by rewrite Hst.
  rewrite Hpid in Hl, Ho. destruct (decide (pid = t_proposal_id event)) as [->|Hp].
  - rewrite Hl. apply Hsound; [done|by exists s, h].
  - rewrite Ho by done. eapply sound_grows; [apply Hext|apply Hs].
Qed.

(** The record [fold] returns, and the state of its loop. *)
Lemma fold_loop h f rec :
  fold h (served f) = Ok rec →
  ∃ sub st, norm_id (proposer_id (p_proposal rec)) = Ok sub ∧
    foldR (fold_step nfkc casefold (p_proposal rec) sub) start_fold (enumerate 1 h) = Ok st ∧
    fold_ok nfkc casefold sub h st ∧ p_state rec = f_state st ∧ p_approvals rec = f_approvals st ∧
    p_rejected_by rec = f_rejected_by st ∧ p_rejection_reason rec = f_reason st ∧
    p_version rec = Z.of_nat (length h) ∧ h ≠ [].
Proof.
  intros (first & rest & sub & st & -> & _ & _ & Hs & Hst & _ & Hr)%fold_inv. exists sub, st.
  pose proof (fold_state_ok _ _ _ _ _ _ Hst). rewrite Hr. by split_and!.
Qed.

(** Text as it arrives from outside: code points, no lone surrogate. *)
Definition clean (s : pystr) : Prop := str_ok s = true.

Lemma detail_loads d : json_ok (JObj d) → loads (dumps_detail d) = Some (norm (JObj d)).
Proof. apply loads_dumps. Qed.

Lemma clean_strings l : Forall clean l → json_ok (JArr (JStr <$> l)).
Proof. intros Hl. apply json_ok_arr, Forall_fmap. eapply Forall_impl; [done|]. by intros s. Qed.

Lemma norm_strings (l : list pystr) : norm (JArr (JStr <$> l)) = JArr (JStr <$> l).
Proof. cbn. f_equal. rewrite <- list_fmap_compose. by apply list_fmap_ext. Qed.

Definition approve_detail (refs : list pystr) (note : pystr) : list (pystr * json) :=
  [(u "evidence_refs", JArr (JStr <$> refs)); (u "note", JStr note)].

Lemma approve_detail_loads refs note :
  Forall clean refs → clean note →
  loads (dumps_detail (approve_detail refs note)) = Some (JObj (approve_detail refs note)).
Proof.
  intros Hr Hn. rewrite detail_loads.
  - f_equal. unfold approve_detail. rewrite norm_obj.
    change (prod_map id norm <$> sort_keys [(u "evidence_refs", JArr (JStr <$> refs)); (u "note", JStr note)])
      with [(u "evidence_refs", norm (JArr (JStr <$> refs))); (u "note", JStr note)].
    by rewrite norm_strings.
  - apply json_ok_obj. split; [by apply (bool_decide_unpack _); vm_compute|].
    unfold approve_detail. rewrite !Forall_cons, Forall_nil. cbn [fst snd].
    split_and!; try done. by apply clean_strings.
Qed.

Definition reject_detail (reason : pystr) : list (pystr * json) := [(u "reason", JStr reason)].
Lemma reject_detail_loads reason :
  clean reason → loads (dumps_detail (reject_detail reason)) = Some (JObj (reject_detail reason)).
Proof.
  intros Hr. rewrite detail_loads; [done|]. apply json_ok_obj.
  split; [by apply (bool_decide_unpack _); vm_compute|].
  unfold reject_detail. by rewrite Forall_cons, Forall_nil.
Qed.

(** ** The steps of [fold] that the commands add *)

Definition approved_by (pid approver : pystr) (gate : Stage) (refs : list pystr) (note : pystr) (now : datetime)
    (record : ProposalRecord) : TransitionEvent :=
  _event pid (p_version record + 1) (u "approved") (Some (p_state record)) gate approver now
    (approve_detail refs note).

Definition rejected_with (pid approver reason : pystr) (now : datetime) (record : ProposalRecord) : TransitionEvent :=
  _event pid (p_version record + 1) (u "rejected") (Some (p_state record)) REJECTED approver now
    (reject_detail reason).

Lemma guards_ok record approver gate :
  approve_guards nfkc casefold is_authorized record approver gate = Ok tt →
  next_stage record = Some gate ∧ is_authorized approver gate = Ok true ∧
  ∃ who sub, norm_id approver = Ok who ∧ norm_id (proposer_id (p_proposal record)) = Ok sub ∧ who ≠ sub ∧
    already_signed nfkc casefold who (p_approvals record) = Ok false.
Proof.
  unfold approve_guards, guard_raise. destruct (negb (bool_decide _)) eqn:En; [discriminate|].
  apply negb_false_iff, bool_decide_eq_true in En. cbn [mbind result_bind].
  intros (who & Hw & H1)%bind_ok. apply bind_ok in H1 as (sub & Hsub & H1).
  destruct (str_eqb who sub) eqn:Es; [discriminate|]. cbn [mbind result_bind] in H1.
  apply bind_ok in H1 as ([] & Hsig & H1); [discriminate|]. cbn [mbind result_bind] in H1.
  apply bind_ok in H1 as ([] & Hau & H1); [|discriminate].
  split_and!; try done. exists who, sub. split_and!; try done. intros ->. by rewrite str_eqb_refl in Es.
Qed.

(** [fold] accepts the event of an [approve] that passed its guards. *)
Lemma approve_folds h f g e rec approver gate refs note :
  fold h (served f) = Ok rec → is_terminal rec = false →
  approve_guards nfkc casefold is_authorized rec approver gate = Ok tt →
  Forall clean refs → clean note → extends f g e →
  t_proposal_id e = proposal_id (p_proposal rec) → t_version e = p_version rec + 1 →
  t_kind e = u "approved" → t_from e = Some (p_state rec) → t_to e = gate → t_actor e = approver →
  t_detail_json e = dumps_detail (approve_detail refs note) →
  fold (h ++ [e]) (served g)
  = Ok (mkProposalRecord (p_proposal rec) gate (p_version rec + 1)
          (p_approvals rec ++ [mkApproval gate approver (t_occurred_at e) (JStr <$> refs) (JStr note)])
          (p_rejected_by rec) (p_rejection_reason rec)).
Proof.
  intros Hf Ht Hg Hrefs Hnote Hext Hpid Hver Hkind Hfrom Hto Hact Hdet.
  destruct (fold_loop _ _ _ Hf) as (sub & st & Hsub & Hst & Hok & Hstate & Happ & Hrej & Hrea & Hv & Hne).
  apply guards_ok in Hg as (Hnext & _ & who & sub' & Hw & Hsub' & Hself & Hsig).
  assert (sub' = sub) as -> by congruence.
  rewrite Happ, (already_signed_ok _ _ _ (fo_ids _ _ _ _ _ Hok)) in Hsig.
  apply Ok_inj, bool_decide_eq_false in Hsig. rewrite elem_of_reverse in Hsig.
  unfold next_stage, is_terminal in *. rewrite Ht in Hnext. rewrite Hstate in *.
  assert (fold_step nfkc casefold (p_proposal rec) sub st (1 + Z.of_nat (length h), e)
    = Ok (mkFold gate (f_approvals st ++ [mkApproval gate approver (t_occurred_at e) (JStr <$> refs) (JStr note)])
            (who :: f_signers st) (f_rejected_by st) (f_reason st))) as Hstep.
  { unfold fold_step. rewrite Hver, Hv, Hpid, Hkind, Hfrom, Hto.
    replace (Z.of_nat (length h) + 1) with (1 + Z.of_nat (length h)) by lia.
    rewrite Z.eqb_refl, !str_eqb_refl. cbn [negb orb].
    assert (length h ≠ 0%nat) by (by destruct h).
    replace (1 + Z.of_nat (length h) =? 1) with false by (symmetry; apply Z.eqb_neq; lia).
    rewrite Ht, bool_decide_eq_true_2 by done. cbn [negb orb].
    rewrite bool_decide_eq_true_2 by done. cbn [negb].
    unfold _stored_identity, as_store_error, try_except. rewrite Hact, Hw. cbn [mbind result_bind].
    replace (str_eqb who sub) with false
      by (symmetry; apply not_true_is_false; intros E%str_eqb_true; done).
    rewrite bool_decide_eq_false_2 by done.
    unfold _approval, _stored_detail. rewrite Hdet, approve_detail_loads, Hto, Hact by done. reflexivity. }
  pose proof (fold_snoc _ _ _ _ _ _ _ _ Hf Hext Hsub Hst Hstep) as ->.
  cbn [f_state f_approvals f_rejected_by f_reason]. rewrite Hv, Happ, Hrej, Hrea, length_app.
  cbn [length]. by rewrite Nat2Z.inj_add.
Qed.

Lemma reject_guards_ok record approver reason :
  reject_guards nfkc casefold is_authorized record approver reason = Ok tt →
  is_blank reason = false ∧ is_ok (norm_id approver) = true ∧
  ∃ s, next_stage record = Some s ∧ is_authorized approver s = Ok true.
Proof.
  unfold reject_guards, guard_raise. destruct (is_blank reason); [discriminate|]. cbn [mbind result_bind].
  intros (who & Hw & H1)%bind_ok. rewrite Hw. apply bind_ok in H1 as ([] & Hau & H1); [|discriminate].
  split_and!; try done. destruct (next_stage record) as [s|]; [by exists s|discriminate].
Qed.

(** [fold] accepts the event of a [reject] that passed its guards. *)
Lemma reject_folds h f g e rec approver reason :
  fold h (served f) = Ok rec → is_terminal rec = false →
  reject_guards nfkc casefold is_authorized rec approver reason = Ok tt →
  clean reason → extends f g e →
  t_proposal_id e = proposal_id (p_proposal rec) → t_version e = p_version rec + 1 →
  t_kind e = u "rejected" → t_from e = Some (p_state rec) → t_to e = REJECTED → t_actor e = approver →
  t_detail_json e = dumps_detail (reject_detail reason) →
  fold (h ++ [e]) (served g)
  = Ok (mkProposalRecord (p_proposal rec) REJECTED (p_version rec + 1) (p_approvals rec)
          (Some approver) (Some reason)).
Proof.
  intros Hf Ht Hg Hclean Hext Hpid Hver Hkind Hfrom Hto Hact Hdet.
  destruct (fold_loop _ _ _ Hf) as (sub & st & Hsub & Hst & Hok & Hstate & Happ & _ & _ & Hv & Hne).
  apply reject_guards_ok in Hg as (Hb & Hid & _).
  unfold is_terminal in Ht. rewrite Hstate in *.
  assert (fold_step nfkc casefold (p_proposal rec) sub st (1 + Z.of_nat (length h), e)
    = Ok (mkFold REJECTED (f_approvals st) (f_signers st) (Some approver) (Some reason))) as Hstep.
  { unfold fold_step. rewrite Hver, Hv, Hpid, Hkind, Hfrom, Hto.
    replace (Z.of_nat (length h) + 1) with (1 + Z.of_nat (length h)) by lia.
    rewrite Z.eqb_refl, !str_eqb_refl. cbn [negb orb].
    assert (length h ≠ 0%nat) by (by destruct h).
    replace (1 + Z.of_nat (length h) =? 1) with false by (symmetry; apply Z.eqb_neq; lia).
    rewrite Ht, bool_decide_eq_true_2 by done. cbn [negb orb].
    replace (str_eqb (u "rejected") (u "approved")) with false by reflexivity.
    rewrite bool_decide_eq_true_2 by done. cbn [andb].
    unfold _stored_identity, as_store_error, try_except. rewrite Hact.
    destruct (norm_id approver); [|discriminate]. cbn [mbind result_bind].
    unfold _stored_detail. rewrite Hdet, reject_detail_loads by done. cbn [mbind result_bind].
    change (get (reject_detail reason) (u "reason")) with (JStr reason). cbn. by rewrite Hb. }
  pose proof (fold_snoc _ _ _ _ _ _ _ _ Hf Hext Hsub Hst Hstep) as ->.
  cbn [f_state f_approvals f_rejected_by f_reason]. rewrite Hv, Happ, length_app.
  cbn [length]. by rewrite Nat2Z.inj_add.
Qed.

(** ** Submission *)

(** A proposal object: its fields passed [__post_init__]. *)
Definition valid_proposal (p : RubricChangeProposal) : Prop :=
  make_proposal nfkc casefold (JStr (proposal_id p)) (JStr (proposer_id p)) (JStr (description p))
    (JStr (proposed_change p)) (JStr (rationale p)) (JStr <$> evidence_refs p) = Ok p.

Definition clean_proposal (p : RubricChangeProposal) : Prop :=
  clean (proposal_id p) ∧ clean (proposer_id p) ∧ clean (description p) ∧ clean (proposed_change p) ∧
  clean (rationale p) ∧ Forall clean (evidence_refs p).

(** The stored detail of a submission, keys sorted. *)
Definition sorted_detail (p : RubricChangeProposal) : list (pystr * json) :=
  [ (u "description", JStr (description p)); (u "evidence_refs", JArr (JStr <$> evidence_refs p));
    (u "proposal_id", JStr (proposal_id p)); (u "proposed_change", JStr (proposed_change p));
    (u "proposer_id", JStr (proposer_id p)); (u "rationale", JStr (rationale p)) ].

Lemma to_detail_loads p :
  clean_proposal p → loads (dumps_detail (to_detail p)) = Some (JObj (sorted_detail p)).
Proof.
  intros (H1 & H2 & H3 & H4 & H5 & H6). rewrite detail_loads.
  - f_equal. rewrite norm_obj. unfold sorted_detail. rewrite <- (norm_strings (evidence_refs p)). reflexivity.
  - apply json_ok_obj. split; [by apply (bool_decide_unpack _); vm_compute|].
    unfold to_detail. rewrite !Forall_cons, Forall_nil. cbn [fst snd].
    split_and!; try done. by apply clean_strings.
Qed.

Lemma proposal_from_sorted p :
  valid_proposal p → proposal_from_detail nfkc casefold (sorted_detail p) = Ok p.
Proof. intros Hp. exact Hp. Qed.

Lemma valid_proposer p : valid_proposal p → is_ok (norm_id (proposer_id p)) = true.
Proof.
  unfold valid_proposal, make_proposal. intros (pid & _ & H1)%bind_ok. apply bind_ok in H1 as (w & Hw & _).
  unfold identity_text in Hw. by destruct (norm_id _).
Qed.

Lemma submit_folds f g e p :
  valid_proposal p → clean_proposal p → extends f g e →
  t_proposal_id e = proposal_id p → t_version e = 1 → t_kind e = u "submitted" → t_from e = None →
  t_to e = DRAFT → t_actor e = proposer_id p → t_detail_json e = dumps_detail (to_detail p) →
  fold [e] (served g) = Ok (mkProposalRecord p DRAFT 1 [] None None).
Proof.
  intros Hp Hc (_ & s & _ & He) Hpid Hver Hkind Hfrom Hto Hact Hdet.
  pose proof (valid_proposer p Hp) as Hid. destruct (norm_id (proposer_id p)) as [sub|] eqn:Hsub; [|done].
  apply fold_inv. exists e, [], sub, start_fold. cbn [p_proposal]. split_and!; try done.
  - unfold _stored_proposal, _stored_detail. rewrite Hdet, to_detail_loads by done. cbn [mbind result_bind].
    rewrite proposal_from_sorted by done. unfold as_store_error, try_except. cbn [mbind result_bind].
    by rewrite Hact, str_eqb_refl.
  - cbn [enumerate foldR fold_step]. rewrite Hver, Hpid, str_eqb_refl, Hto, Hfrom. reflexivity.
  - apply verify_served. exists [s]. split; [apply NoDup_singleton|]. constructor; [done|apply Forall2_nil_2].
Qed.

(** ** The commands *)

(** [stored] is [event] with some audit reference. *)
Definition reference_of (event stored : TransitionEvent) : Prop :=
  ∃ s h, stored = mkTransition (t_proposal_id event) (t_version event) (t_kind event) (t_from event)
    (t_to event) (t_actor event) (t_occurred_at event) (t_detail_json event) (Some s) (Some h).

(** The end of every command: commit, and read the result back. [R] is what [fold] then says. *)
Lemma commit_get_inv event n (g : G) r g' R :
  (_commit event n ≫= λ _, get_record nfkc casefold (t_proposal_id event)) g = (r, g') → gate_ok g → detail_ok event →
  (∀ stored ents, extends (entries (g_audit g)) ents stored → reference_of event stored →
     fold (history (g_store g) (t_proposal_id event) ++ [stored]) (served ents) = Ok R ∧
     proposal_id (p_proposal R) = t_proposal_id event) →
  gate_ok g' ∧ ((∃ x, r = Raise x) ∧ quiet g g' ∨ performed event n g g' ∧ ∀ rec, r = Ok rec → rec = R).
Proof.
  intros H1 Hok Hdet HR. apply M_bind_inv in H1 as [([] & g1 & E & H1)|(x & E & ->)];
    apply commit_inv in E as (Ha & Hc); try done.
  - destruct Hc as [[[x [=]] _]|[Hp _]].
    assert (gate_ok g1) as Hok1.
    { eapply gate_ok_performed; [done|done|done|]. intros stored Hext Href. right. exists R. by apply HR. }
    apply get_record_inv in H1 as [Hq Hr]; [|done]. split; [by eapply gate_ok_quiet|]. right.
    split; [by eapply performed_quiet|]. intros rec ->. destruct (Hr rec eq_refl) as [Hf _].
    destruct Hp as (stored & s & h & Hst & (_ & _ & Hl & _) & Hext).
    assert (t_proposal_id stored = t_proposal_id event) as Hpid by by rewrite Hst. rewrite Hpid in Hl.
    rewrite Hl in Hf. destruct (HR stored _ Hext ltac:(by exists s, h)) as [HR1 _]. congruence.
  - destruct Hc as [[_ Hq]|[Hp _]].
    + split; [by eapply gate_ok_quiet|]. left. split; [by eexists|done].
    + split; [|right; split; [done|by intros ? [=]]]. eapply gate_ok_performed; [done|done|done|].
      intros stored Hext Href. right. exists R. by apply HR.
Qed.

Lemma open_inv pid (g : G) r g' :
  _open nfkc casefold pid g = (r, g') → audit_ok (g_audit g) →
  quiet g g' ∧ ∀ rec, r = Ok rec →
    fold (history (g_store g) pid) (served (entries (g_audit g))) = Ok rec ∧ is_terminal rec = false.
Proof.
  intros H1 Ha. m_step H1; apply get_record_inv in E as [Hq Hr]; try done.
  - destruct (Hr _ eq_refl) as [Hf _]. destruct (is_terminal a) eqn:Et; injection H1 as <- <-;
      (split; [done|]); [by intros rec [=]|]. by intros rec [= <-].
  - split; [done|]. subst r. by intros rec [=].
Qed.

Inductive command :=
  | Submit (p : RubricChangeProposal)
  | Approve (pid approver : pystr) (gate : Stage) (refs : list pystr) (note : pystr)
  | Reject (pid approver reason : pystr).

(** The arguments are text, and a submitted proposal is a validated object. *)
Definition proper (c : command) : Prop :=
  match c with
  | Submit p => valid_proposal p ∧ clean_proposal p
  | Approve _ _ _ refs note => Forall clean refs ∧ clean note
  | Reject _ _ reason => clean reason
  end.

Definition execute (c : command) (now : datetime) : M G ProposalRecord :=
  match c with
  | Submit p => submit nfkc casefold p now
  | Approve pid approver gate refs note => approve nfkc casefold is_authorized pid approver gate refs note now
  | Reject pid approver reason => reject nfkc casefold is_authorized pid approver reason now
  end.

Definition target (c : command) : pystr :=
  match c with Submit p => proposal_id p | Approve pid _ _ _ _ | Reject pid _ _ => pid end.

(** What a command may do to the proposal it names, and what it returns then. *)
Definition allowed (c : command) (now : datetime) (h : list TransitionEvent) (f : Z → option AuditEntry)
    (event : TransitionEvent) (R : ProposalRecord) : Prop :=
  match c with
  | Submit p =>
      h = [] ∧ event = _event (proposal_id p) 1 (u "submitted") None DRAFT (proposer_id p) now (to_detail p) ∧
      R = mkProposalRecord p DRAFT 1 [] None None
  | Approve pid approver gate refs note =>
      ∃ rec, fold h (served f) = Ok rec ∧ is_terminal rec = false ∧
        approve_guards nfkc casefold is_authorized rec approver gate = Ok tt ∧
        event = approved_by pid approver gate refs note now rec ∧
        R = mkProposalRecord (p_proposal rec) gate (p_version rec + 1)
              (p_approvals rec ++ [mkApproval gate approver now (JStr <$> refs) (JStr note)])
              (p_rejected_by rec) (p_rejection_reason rec)
  | Reject pid approver reason =>
      ∃ rec, fold h (served f) = Ok rec ∧ is_terminal rec = false ∧
        reject_guards nfkc casefold is_authorized rec approver reason = Ok tt ∧
        event = rejected_with pid approver reason now rec ∧
        R = mkProposalRecord (p_proposal rec) REJECTED (p_version rec + 1) (p_approvals rec)
              (Some approver) (Some reason)
  end.

Lemma allowed_folds c now h f g event R stored :
  proper c → allowed c now h f event R → extends f g stored → reference_of event stored →
  (h = [] ∨ ∃ rec, fold h (served f) = Ok rec ∧ proposal_id (p_proposal rec) = target c) →
  fold (h ++ [stored]) (served g) = Ok R ∧ proposal_id (p_proposal R) = target c ∧ t_proposal_id event = target c.
Proof.
  intros Hc Hal Hext (s & hh & ->) Hs. destruct c as [p|pid approver gate refs note|pid approver reason]; cbn in Hal.
  - destruct Hal as (-> & -> & ->), Hc as [Hv Hcl]. split; [|done]. by eapply submit_folds.
  - destruct Hal as (rec & Hf & Ht & Hg & -> & ->), Hc as [Hr Hn].
    destruct Hs as [->|(rec' & Hf' & Hp)]; [discriminate|]. assert (rec' = rec) as -> by congruence.
    split; [|done]. erewrite approve_folds; (done || by rewrite Hp).
  - destruct Hal as (rec & Hf & Ht & Hg & -> & ->).
    destruct Hs as [->|(rec' & Hf' & Hp)]; [discriminate|]. assert (rec' = rec) as -> by congruence.
    split; [|done]. erewrite reject_folds; (done || by rewrite Hp).
Qed.

Lemma extends_grows f g h e : grows f g → extends g h e → extends f h e.
Proof.
  intros Hg [Hh (s & Hs & He)]. split; [intros x y Hx; auto|]. exists s. split; [|done].
  destruct (f s) eqn:E; [|done]. apply Hg in E. congruence.
Qed.

Lemma allowed_detail c now h f event R : proper c → allowed c now h f event R → detail_ok event.
Proof.
  intros Hc Hal. destruct c as [p|pid approver gate refs note|pid approver reason]; cbn in Hal.
  - destruct Hal as (_ & -> & _), Hc as [_ Hc]. exists (JObj (sorted_detail p)).
    split; [by apply to_detail_loads|]. apply dict_ok_obj. split; [by apply (bool_decide_unpack _); vm_compute|].
    unfold sorted_detail. rewrite !Forall_cons, Forall_nil. cbn [snd]. split_and!; try done.
    apply json_ok_dict, clean_strings, Hc.
  - destruct Hal as (rec & _ & _ & _ & -> & _), Hc as [Hr Hn]. exists (JObj (approve_detail refs note)).
    split; [by apply approve_detail_loads|]. apply dict_ok_obj. split; [by apply (bool_decide_unpack _); vm_compute|].
    unfold approve_detail. rewrite !Forall_cons, Forall_nil. cbn [snd]. split_and!; try done.
    by apply json_ok_dict, clean_strings.
  - destruct Hal as (rec & _ & _ & _ & -> & _). exists (JObj (reject_detail reason)).
    split; [by apply reject_detail_loads|]. apply dict_ok_obj. split; [by apply (bool_decide_unpack _); vm_compute|].
    unfold reject_detail. by rewrite Forall_cons, Forall_nil.
Qed.

(** What a command did, given that it was allowed when the gate looked. *)
Definition command_done (c : command) (now : datetime) (g : G) (r : result ProposalRecord) (g' : G) : Prop :=
  (∃ x, r = Raise x) ∧ quiet g g' ∨
  ∃ event n R, allowed c now (history (g_store g) (target c)) (entries (g_audit g)) event R ∧
    performed event n g g' ∧ t_proposal_id event = target c ∧ ∀ rec, r = Ok rec → rec = R.

Lemma execute_tail c now (g g1 : G) event n R r g' :
  gate_ok g → quiet g g1 → proper c → t_proposal_id event = target c →
  allowed c now (history (g_store g) (target c)) (entries (g_audit g)) event R →
  (_commit event n ≫= λ _, get_record nfkc casefold (target c)) g1 = (r, g') →
  gate_ok g' ∧ command_done c now g r g'.
Proof.
  intros Hok Hq Hc Hpid Hal H1. rewrite <- Hpid in H1.
  pose proof Hq as (Hh & _ & Hg).
  apply (commit_get_inv _ _ _ _ _ R) in H1 as [Hok' Hres]; [|by eapply gate_ok_quiet|by eapply allowed_detail|].
  - split; [done|]. destruct Hres as [[? Hq']|[Hp Hr]].
    + left. split; [done|]. by eapply quiet_trans.
    + right. exists event, n, R. split_and!; try done. by eapply quiet_performed.
  - intros stored ents Hext Href. rewrite Hh, Hpid.
    destruct (allowed_folds c now _ _ ents event R stored Hc Hal) as (Hf & Hp & _); try done.
    + by eapply extends_grows.
    + apply Hok.
Qed.

(** A closed proposal allows nothing. *)
Lemma allowed_closed c now h f event R rec :
  allowed c now h f event R → fold h (served f) = Ok rec → is_terminal rec = true → False.
Proof.
  intros Hal Hf Ht. destruct c; cbn in Hal.
  - destruct Hal as (-> & _). discriminate.
  - destruct Hal as (rec' & Hf' & Ht' & _). congruence.
  - destruct Hal as (rec' & Hf' & Ht' & _). congruence.
Qed.

(** Every command: an error that changes no history, or the transition it names. *)
Lemma gate_execute_inv c now (g : G) r g' :
  execute c now g = (r, g') → gate_ok g → proper c → gate_ok g' ∧ command_done c now g r g'.
Proof.
  intros H1 Hok Hc.
  assert (∀ g1 x, quiet g g1 → r = Raise x → g' = g1 → gate_ok g' ∧ command_done c now g r g') as Hfail.
  { intros g1 x Hq -> ->. split; [by eapply gate_ok_quiet|]. left. split; [by eexists|done]. }
  destruct c as [p|pid approver gate refs note|pid approver reason]; cbn [execute] in H1.
  - unfold submit in H1. m_step H1; pose proof (load_quiet _ _ _ _ E (proj1 Hok)) as Hq; [|by eapply Hfail].
    apply load_inv in E as (_ & _ & Hl). destruct (bool_decide (a = [])) eqn:Ea; cbn [negb] in H1.
    2: { injection H1 as <- <-. by eapply Hfail. }
    apply bool_decide_eq_true in Ea. eapply execute_tail; [done|exact Hq|done| | |exact H1]; [done|].
    cbn. rewrite <- (Hl _ eq_refl). by split_and!.
  - unfold approve in H1. m_step H1; apply open_inv in E as [Hq Hr]; try apply Hok; [|by eapply Hfail].
    destruct (Hr _ eq_refl) as [Hf Ht].
    apply M_bind_inv in H1 as [([] & g2 & E2 & H1)|(x & E2 & ->)]; injection E2 as E2 <-; [|by eapply Hfail].
    eapply execute_tail; [done|exact Hq|done| | |exact H1]; [done|]. exists a. by split_and!.
  - unfold reject in H1. m_step H1; apply open_inv in E as [Hq Hr]; try apply Hok; [|by eapply Hfail].
    destruct (Hr _ eq_refl) as [Hf Ht].
    apply M_bind_inv in H1 as [([] & g2 & E2 & H1)|(x & E2 & ->)]; injection E2 as E2 <-; [|by eapply Hfail].
    eapply execute_tail; [done|exact Hq|done| | |exact H1]; [done|]. exists a. by split_and!.
Qed.

(** A sequence of commands, whatever each of them returns. *)
Fixpoint run (cs : list (command * datetime)) (g : G) : list (result ProposalRecord) * G :=
  match cs with
  | [] => ([], g)
  | (c, now) :: cs =>
      let '(r, g) := execute c now g in let '(rs, g) := run cs g in (r :: rs, g)
  end.

Lemma done_prefix c now (g : G) r g' pid :
  command_done c now g r g' → history (g_store g) pid `prefix_of` history (g_store g') pid.
Proof.
  intros [[_ (Hh & _ & _)]|(event & n & R & _ & (stored & s & h & Hst & (_ & _ & Hl & Ho) & _) & _)].
  - by rewrite Hh.
  - destruct (decide (pid = t_proposal_id stored)) as [->|Hp]; [rewrite Hl; by apply prefix_app_r|by rewrite Ho].
Qed.

Lemma gate_run_inv cs (g : G) outs g' :
  run cs g = (outs, g') → gate_ok g → Forall (λ c, proper c.1) cs →
  gate_ok g' ∧ ∀ pid, history (g_store g) pid `prefix_of` history (g_store g') pid.
Proof.
  revert g outs. induction cs as [|[c now] cs IH]; intros g outs H1 Hok Hc; cbn [run] in H1.
  - by injection H1 as <- <-.
  - apply Forall_cons in Hc as [Hc Hcs]. destruct (execute c now g) as [r g1] eqn:E.
    destruct (run cs g1) as [rs g2] eqn:E2. injection H1 as <- <-.
    apply gate_execute_inv in E as [Hok1 Hd]; [|done..]. apply IH in E2 as [Hok2 Hp]; [|done..].
    split; [done|]. intros pid. etransitivity; [by eapply done_prefix|apply Hp].
Qed.
End facts.
