(* ===== verification/SharpAudit.v ===== *)
(** * SHARP promotion gate over the hash-chained audit log ([pg_audit.py] and [afe_audit])

    The logger as the gate's [AuditSink], the lookup over its table, the proof that they keep the
    gate's interface - and the gate's properties, with both parts at work in the examples. *)
From S2P Require Import Prelude PyStr Json JsonFacts PyTime AuditCanonical AuditChain.
From S2P Require Import SharpModels SharpGate SharpFacts Compliance.

(** The logger's database, the times its clock will give (then the epoch), and whether the
    lookup's connection works. *)
Record LoggerState := mkLogger { l_db : Db; l_clock : list datetime; l_lookup_up : bool }.

Definition row_entry (r : Row) : AuditEntry :=
  mkEntry (r_seq r) (r_hash r) (r_event_type r) (r_actor r)
    (match r_payload r with JObj m => m | _ => [] end).

(** The record with this number: [seq] is the table's primary key. *)
Definition entry_at (rows : list Row) (s : Z) : option AuditEntry :=
  row_entry <$> List.find (λ r, r_seq r =? s) rows.

Section logger.
Context (jsonb : pystr → option json).

(** [AuditLogger.record], its record as the receipt. *)
Definition logger_record (et ac : pystr) (payload : list (pystr * json)) : M LoggerState AuditReceipt := λ l,
  let '(r, d) := AuditChain.record jsonb et ac (py_of_json (JObj payload))
                   (default (mkDatetime true 0) (hd_error (l_clock l))) (l_db l) in
  ((λ rec, mkReceipt (Some (AuditChain.a_seq rec)) (Some (AuditChain.a_hash rec))) <$> r,
   mkLogger d (List.tl (l_clock l)) (l_lookup_up l)).

(** [PostgresAuditLookup.find]: the rows among the numbers asked for. *)
Definition logger_find (l : LoggerState) : AuditLookup := λ seqs,
  if bool_decide (seqs = []) then Ok (λ _, None)
  else if negb (l_lookup_up l) then store_error (u "cannot read audit records")
  else Ok (λ s, if bool_decide (s ∈ seqs) then entry_at (by_seq (table (l_db l))) s else None).

#[export] Instance logger_log : AuditLog LoggerState :=
  { record := logger_record;
    find := logger_find;
    entries := λ l, entry_at (by_seq (table (l_db l)));
    audit_ok := λ l, txn (l_db l) = [] ∧ valid_chain (by_seq (table (l_db l))) }.

Lemma find_app_l {A} (f : A → bool) l k x : List.find f l = Some x → List.find f (l ++ k) = Some x.
Proof. induction l as [|y l IH]; cbn; [discriminate|]. by destruct (f y). Qed.

Lemma entry_at_fresh rows s : Forall (λ r, r_seq r < s) rows → entry_at rows s = None.
Proof.
  unfold entry_at. induction 1 as [|r rows Hr _ IH]; [done|]. cbn.
  destruct (Z.eqb_spec (r_seq r) s); [lia|done].
Qed.

Lemma entry_at_snoc rows r :
  Forall (λ x, r_seq x < r_seq r) rows → entry_at (rows ++ [r]) (r_seq r) = Some (row_entry r).
Proof.
  unfold entry_at. induction 1 as [|x rows Hx _ IH]; cbn; [by rewrite Z.eqb_refl|].
  destruct (Z.eqb_spec (r_seq x) (r_seq r)); [lia|done].
Qed.

(** The payload column equals the payload that was passed. *)
Lemma recorded_payload et ac p event q :
  jsonb_ok jsonb → dict_ok (JObj p) → make_event et ac (py_of_json (JObj p)) = Ok event →
  jsonb (e_payload_json event) = Some q → ∃ m, q = JObj m ∧ py_eq (JObj m) (JObj p) = true.
Proof.
  intros Hlaw Hp He Hq. pose proof He as Hm. apply make_event_ok in He as ((Hl & Hc & Hn) & _).
  destruct (Hlaw _ _ _ Hl Hc Hq) as [Hqo Hqn]. unfold make_event in Hm.
  apply bind_ok in Hm as (_ & _ & Hm). apply bind_ok in Hm as (_ & _ & Hm).
  change (py_of_json (JObj p)) with (PMap ((λ kv, (KStr kv.1, py_of_json kv.2)) <$> p)) in Hm. cbv beta iota in Hm.
  apply bind_ok in Hm as (t & Ht & Hm).
  change (PMap ((λ kv, (KStr kv.1, py_of_json kv.2)) <$> p)) with (py_of_json (JObj p)) in Ht.
  apply canonical_loads in Ht as (j & Hj & Hjc & _ & Hlt & _).
  apply normalise_dict in Hj as ->; [|done]. rewrite Hlt in Hm. apply Ok_inj in Hm as <-.
  assert (norm q = norm (JObj p)) as Hqp by (etransitivity; [exact Hqn|exact Hn]).
  destruct q as [| | | | | |m]; try (rewrite norm_obj in Hqp; discriminate Hqp).
  exists m. split; [done|]. apply py_eq_norm; [done|by eapply canon_ok_json|done].
Qed.

Lemma logger_laws : jsonb_ok jsonb → AuditLaws LoggerState.
Proof.
  intros Hlaw. split.
  - intros et ac p l r l' [Hx Hv] H. cbn [record logger_log] in H. unfold logger_record in H.
    destruct (AuditChain.record _ _ _ _ _ _) as [q d] eqn:E. injection H as <- <-.
    apply AuditChain.record_inv in E as (Hx' & new & Ht & Hb & Hv' & Hr); [|done..].
    cbn [audit_ok logger_log entries l_db]. split; [done|]. split.
    + intros s x Hs. rewrite Hb. unfold entry_at in *.
      destruct (List.find _ (by_seq (table (l_db l)))) as [y|] eqn:Ef; [|done].
      by rewrite (find_app_l _ _ _ _ Ef).
    + intros s h Hp. destruct q as [rec|]; [|discriminate]. cbn. intros [= <- <-].
      destruct Hr as (row & event & -> & <- & <- & <- & Hev & Hj). rewrite Hb in Hv'.
      apply chained_snoc in Hv' as (_ & Hs & _). pose proof (chained_bounds _ _ _ Hv) as [Hbound _].
      assert (Forall (λ x, r_seq x < r_seq row) (by_seq (table (l_db l)))) as Hlt.
      { eapply Forall_impl; [done|]. cbn. lia. }
      cbn. split; [by apply entry_at_fresh|]. exists (row_entry row). rewrite Hb.
      split; [by apply entry_at_snoc|]. split; [done|]. split; [done|]. split; [done|].
      destruct (recorded_payload _ _ _ _ _ Hlaw Hp Hev Hj) as (m & Em & Heq). cbn. by rewrite Em.
  - intros l seqs f _ H s Hs. cbn in H. unfold logger_find in H.
    case_bool_decide as E; [by subst; apply elem_of_nil in Hs|]. destruct (l_lookup_up l); [|discriminate].
    injection H as <-. cbn. by rewrite bool_decide_eq_true_2.
Qed.
End logger.

(** ** Properties *)

(** C9: PROMOTED means six signatures. When [fold] reports a history as PROMOTED, its approvals are
    COMPLIANCE, LEGAL, BACKTEST, RISK, CANARY, PROMOTED in that order, each taken from an
    [approved] event of the history; the six signers and the proposer are seven different
    identities in comparison form; nobody rejected; and every event of the history is backed by
    an audit record of its own: no two events refer to one record, the record's hash is the one
    the event names, its kind the event's under the prefix [sharp.], its actor the event's, and
    its payload equal to the event's as Python compares JSON. *)
Theorem promoted_needs_six nfkc casefold events audit rec :
  fold nfkc casefold events audit = Ok rec → p_state rec = PROMOTED →
  fully_signed nfkc casefold events audit rec ∧
  ∃ seqs found, NoDup seqs ∧ audit seqs = Ok found ∧
    Forall2 (λ e s, ∃ entry payload, t_audit_seq e = Some s ∧ found s = Some entry ∧
      t_audit_hash e = Some (n_hash entry) ∧ n_event_type entry = u "sharp." ++ t_kind e ∧
      n_actor entry = t_actor e ∧ transition_payload e = Ok payload ∧
      json_eq (JObj (n_payload entry)) (JObj payload)) events seqs.
Proof.
  intros H Hs. split; [by eapply promoted_signed|].
  apply promoted_signed in H as (_ & _ & _ & _ & seqs & found & Hn & Ha & Hf); [|done].
  exists seqs, found. split_and!; [done..|]. eapply Forall2_impl; [exact Hf|].
  intros e s (? & entry & payload & ? & ? & ? & ? & ? & ?). exists entry, payload. by split_and!.
Qed.

(** C10: The gate never leaves an invalid or unaudited row. From a sound store and log, after any
    sequence of submit, approve and reject - whatever each returns, whichever call of the store or
    the audit log failed or lost its acknowledgement - every history has only grown at its end,
    and is either empty or one that [fold] accepts for that proposal, every event of it backed by
    a matching record of the audit log. *)
Theorem gate_histories_valid {St A} `{ProposalStore St, AuditLog A, !StoreLaws St, !AuditLaws A}
    nfkc casefold is_authorized cs (g g' : Gate (St:=St) (A:=A)) outs :
  run nfkc casefold is_authorized cs g = (outs, g') → gate_ok nfkc casefold g →
  Forall (λ c, proper nfkc casefold c.1) cs →
  ∀ pid, let h := history (g_store g') pid in
    history (g_store g) pid `prefix_of` h ∧
    (h = [] ∨ ∃ rec, fold nfkc casefold h (served (entries (g_audit g'))) = Ok rec ∧
                     proposal_id (p_proposal rec) = pid) ∧
    ∃ seqs, NoDup seqs ∧ Forall2 (audited (entries (g_audit g'))) h seqs.
Proof.
  intros H1 Hok Hc pid h. destruct (gate_run_inv _ _ _ _ _ _ _ H1 Hok Hc) as [[_ Hs] Hp].
  split; [apply Hp|]. pose proof (Hs pid) as Hsound. split; [exact Hsound|].
  destruct Hsound as [Hn|(rec & Hf & _)].
  - exists []. split; [apply NoDup_nil_2|]. unfold h. rewrite Hn. apply Forall2_nil_2.
  - apply fold_inv in Hf as (_ & _ & _ & _ & _ & _ & _ & _ & _ & Ha & _). by apply verify_served in Ha.
Qed.

(** An approval is exactly one signature. When [approve] returns, the proposal was open and the
    gate its next stage, the approver was authorised for it and is neither the proposer nor an
    earlier approver in comparison form; exactly one event was added, to this history only - an
    [approved] one by this approver, with its audit record - and the record returned is the old
    one moved to that stage with this approval appended. *)
Theorem approve_signs_once {St A} `{ProposalStore St, AuditLog A, !StoreLaws St, !AuditLaws A}
    nfkc casefold is_authorized pid approver gate refs note now (g g' : Gate (St:=St) (A:=A)) rec' :
  approve nfkc casefold is_authorized pid approver gate refs note now g = (Ok rec', g') →
  gate_ok nfkc casefold g → Forall clean refs → clean note →
  ∃ rec e s who ids submitter,
    fold nfkc casefold (history (g_store g) pid) (served (entries (g_audit g))) = Ok rec ∧
    next_stage rec = Some gate ∧ is_authorized approver gate = Ok true ∧
    normalise_identity nfkc casefold approver = Ok who ∧
    normalise_identity nfkc casefold (proposer_id (p_proposal rec)) = Ok submitter ∧
    mapR (λ a, normalise_identity nfkc casefold (a_approver_id a)) (p_approvals rec) = Ok ids ∧
    who ∉ submitter :: ids ∧
    history (g_store g') pid = history (g_store g) pid ++ [e] ∧
    (∀ p, p ≠ pid → history (g_store g') p = history (g_store g) p) ∧
    t_kind e = u "approved" ∧ t_to e = gate ∧ t_actor e = approver ∧
    audited (entries (g_audit g')) e s ∧ entries (g_audit g) s = None ∧
    rec' = mkProposalRecord (p_proposal rec) gate (p_version rec + 1)
             (p_approvals rec ++ [mkApproval gate approver now (JStr <$> refs) (JStr note)])
             (p_rejected_by rec) (p_rejection_reason rec).
Proof.
  intros H1 Hok Hr Hn.
  change (execute nfkc casefold is_authorized (Approve pid approver gate refs note) now g = (Ok rec', g')) in H1.
  apply (gate_execute_inv _ _ _ _ _ _ _ _) in H1 as [_ [[[x [=]] _]|(event & n & R & Hal & Hp & _ & HR)]]; [|done|by split].
  destruct Hal as (rec & Hf & _ & Hg & -> & ->). specialize (HR rec' eq_refl) as ->.
  apply guards_ok in Hg as (Hnext & Hau & who & sub & Hw & Hsub & Hself & Hsig).
  destruct (fold_loop _ _ _ _ _ Hf) as (sub' & st & Hsub' & _ & Hfo & _ & Happ & _).
  pose proof (fo_ids _ _ _ _ _ Hfo) as Hids. rewrite <- Happ in Hids.
  rewrite (already_signed_ok _ _ _ _ _ Hids) in Hsig. apply Ok_inj, bool_decide_eq_false in Hsig.
  destruct Hp as (stored & s & h & -> & (_ & _ & Hl & Ho) & _ & s0 & Hnone & Haud). cbn in Hl, Ho.
  exists rec, (mkTransition pid (p_version rec + 1) (u "approved") (Some (p_state rec)) gate approver now
    (dumps_detail (approve_detail refs note)) (Some s) (Some h)), s0, who, (reverse (f_signers st)), sub.
  split_and!; try done; [by apply mapR_Ok|]. rewrite elem_of_cons. intros [?|?]; done.
Qed.

(** PROMOTED and REJECTED are final. Whatever commands follow and whatever fails, the history
    of a proposal that [fold] reports as closed does not change again, and no command on it
    returns a record. *)
Theorem closed_stays_closed {St A} `{ProposalStore St, AuditLog A, !StoreLaws St, !AuditLaws A}
    nfkc casefold is_authorized cs (g g' : Gate (St:=St) (A:=A)) outs pid rec :
  run nfkc casefold is_authorized cs g = (outs, g') → gate_ok nfkc casefold g →
  Forall (λ c, proper nfkc casefold c.1) cs →
  fold nfkc casefold (history (g_store g) pid) (served (entries (g_audit g))) = Ok rec →
  is_terminal rec = true →
  history (g_store g') pid = history (g_store g) pid ∧
  ∀ i c now r, cs !! i = Some (c, now) → outs !! i = Some r → target c = pid → is_ok r = false.
Proof.
  intros H1 Hok Hc Hf Ht. revert g outs H1 Hok Hf. induction cs as [|[c now] cs IH]; intros g outs H1 Hok Hf; cbn [run] in H1.
  { injection H1 as <- <-. by split. }
  apply Forall_cons in Hc as [Hc Hcs]. destruct (execute _ _ _ c now g) as [r g1] eqn:E.
  destruct (run _ _ _ cs g1) as [rs g2] eqn:E2. injection H1 as <- <-.
  destruct (gate_execute_inv _ _ _ _ _ _ _ _ E Hok Hc) as [Hok1 Hd].
  assert ((target c = pid → is_ok r = false) ∧ history (g_store g1) pid = history (g_store g) pid ∧
          grows (entries (g_audit g)) (entries (g_audit g1))) as (Hr & Hh & Hg).
  { destruct Hd as [[[x ->] (Hh & _ & Hg)]|(event & n & R & Hal & Hp & Hpid & _)]; [by split_and!|].
    destruct (decide (target c = pid)) as [<-|Hne].
    { destruct (allowed_closed _ _ _ _ _ _ _ _ _ _ Hal Hf Ht). }
    destruct Hp as (stored & s & h & Hst & (_ & _ & _ & Ho) & Hg & _).
    split_and!; [done| |done]. apply Ho. rewrite Hst. cbn. congruence. }
  assert (fold nfkc casefold (history (g_store g1) pid) (served (entries (g_audit g1))) = Ok rec) as Hf1
    by (rewrite Hh; by eapply fold_grows).
  destruct (IH Hcs g1 rs E2 Hok1 Hf1) as [Hh2 Hall]. split; [by rewrite Hh2|].
  intros [|i] c' now' r' Hci Hri Ht'; cbn in Hci, Hri; [|by eapply Hall].
  injection Hci as <- <-. injection Hri as <-. auto.
Qed.

(** The execution motor only runs what SHARP signed. With the motor's gates built in production
    without the canary opt-in over the SHARP store and [fold], a strategy passes the gate only if
    it is mapped to a proposal whose stored history [fold] accepts as PROMOTED - signed at all six
    gates by six people other than the proposer, every transition backed by the audit log. *)
Theorem released_strategy_is_signed nfkc casefold audit env cfg gates source store map_file
    (load : nat → pystr → result (list TransitionEvent)) n strategy_id :
  compliance_from_env env true = Ok cfg → allow_canary cfg = false →
  build_compliance cfg source store map_file load
    (λ h, (λ rec, stage_value (p_state rec)) <$> fold nfkc casefold h audit) = Ok gates →
  check_strategy gates n strategy_id = None →
  ∃ strategies pid events rec,
    load_strategy_map map_file = Ok strategies ∧ strategies !! strategy_id = Some pid ∧
    load n pid = Ok events ∧ fold nfkc casefold events audit = Ok rec ∧ p_state rec = PROMOTED ∧
    fully_signed nfkc casefold events audit rec.
Proof.
  intros Hcfg Hcanary Hg Hcheck.
  destruct (production_gates _ _ _ _ _ _ _ _ Hcfg Hg) as (_ & _ & H).
  destruct (H n strategy_id Hcheck) as (strategies & pid & h & history & state & Hm & Hs & Hl & Hf & Hst).
  destruct (fold nfkc casefold (h :: history) audit) as [rec|] eqn:Ef; [|discriminate].
  injection Hf as <-. destruct Hst as [Hst|[Hc _]]; [|congruence].
  apply (stage_value_inj _ PROMOTED) in Hst.
  exists strategies, pid, (h :: history), rec. split_and!; try done. by apply promoted_signed.
Qed.

(** ** A proposal on its way *)

Definition sim_proposal : RubricChangeProposal :=
  mkProposal (u "prop-1") (u "reflector") (u "lower edge") (u "raise threshold") (u "drift") [u "signal:7"].
Definition sim_detail (st : Stage) : list (pystr * json) :=
  match st with DRAFT => to_detail sim_proposal | _ => approve_detail [u "doc"] (u "ok") end.
Definition sim_event (v : Z) (kind : pystr) (from : option Stage) (to : Stage) (actor : pystr) : TransitionEvent :=
  mkTransition (u "prop-1") v kind from to actor (mkDatetime true (v * 1000000)) (dumps_detail (sim_detail to))
    (Some (10 + v)) (Some (u "h" ++ str_of_Z v)).
Definition sim_history : list TransitionEvent :=
  [ sim_event 1 (u "submitted") None DRAFT (u "reflector");
    sim_event 2 (u "approved") (Some DRAFT) COMPLIANCE (u "Alice");
    sim_event 3 (u "approved") (Some COMPLIANCE) LEGAL (u "Bob");
    sim_event 4 (u "approved") (Some LEGAL) BACKTEST (u "ci-bot");
    sim_event 5 (u "approved") (Some BACKTEST) RISK (u "Carol");
    sim_event 6 (u "approved") (Some RISK) CANARY (u "Dan");
    sim_event 7 (u "approved") (Some CANARY) PROMOTED (u "Erin") ].
(** The audit log that says the same. *)
Definition sim_entries (s : Z) : option AuditEntry :=
  e ← List.find (λ e, bool_decide (t_audit_seq e = Some s)) sim_history;
  match transition_payload e with
  | Ok p => Some (mkEntry s (default [] (t_audit_hash e)) (u "sharp." ++ t_kind e) (t_actor e) p)
  | Raise _ => None
  end.

Lemma promoted_needs_six_witness :
  ∃ rec, fold id lower sim_history (served sim_entries) = Ok rec ∧
    a_approver_id <$> p_approvals rec = [u "Alice"; u "Bob"; u "ci-bot"; u "Carol"; u "Dan"; u "Erin"] ∧
    fully_signed id lower sim_history (served sim_entries) rec.
Proof.
  destruct (fold id lower sim_history (served sim_entries)) as [rec|] eqn:E; [|vm_compute in E; discriminate E].
  exists rec. split; [reflexivity|].
  assert ((λ rec, (p_state rec, a_approver_id <$> p_approvals rec)) <$> fold id lower sim_history (served sim_entries)
    = Ok (PROMOTED, [u "Alice"; u "Bob"; u "ci-bot"; u "Carol"; u "Dan"; u "Erin"])) as Hs
    by (vm_compute; reflexivity).
  rewrite E in Hs. injection Hs as Hs1 Hs2. split; [exact Hs2|].
  exact (proj1 (promoted_needs_six id lower sim_history (served sim_entries) rec E Hs1)).
Defined.

Lemma released_strategy_is_signed_witness :
  ∃ cfg gates, compliance_from_env sim_compliance_env true = Ok cfg ∧
    build_compliance cfg (Ok tt) (Ok (λ _ _ _, Ok [])) sim_map (λ _ _, Ok sim_history)
      (λ h, (λ rec, stage_value (p_state rec)) <$> fold id lower h (served sim_entries)) = Ok gates ∧
    ∃ rec, fold id lower sim_history (served sim_entries) = Ok rec ∧ p_state rec = PROMOTED.
Proof.
  destruct (compliance_from_env sim_compliance_env true) as [cfg|] eqn:E; [|vm_compute in E; discriminate].
  destruct (build_compliance cfg (Ok tt) (Ok (λ _ _ _, Ok [])) sim_map (λ _ _, Ok sim_history)
      (λ h, (λ rec, stage_value (p_state rec)) <$> fold id lower h (served sim_entries))) as [gates|] eqn:Eg.
  2: { vm_compute in E. apply Ok_inj in E. rewrite <- E in Eg. vm_compute in Eg. discriminate. }
  exists cfg, gates. split; [reflexivity|]. split; [exact Eg|].
  assert (allow_canary cfg = false ∧ check_strategy gates 0 (u "strat-1") = None) as [Hc Hk].
  { vm_compute in E. apply Ok_inj in E. rewrite <- E in Eg |- *. split; [reflexivity|].
    vm_compute in Eg. apply Ok_inj in Eg. rewrite <- Eg. vm_compute. reflexivity. }
  destruct (released_strategy_is_signed id lower (served sim_entries) sim_compliance_env cfg gates (Ok tt)
    (Ok (λ _ _ _, Ok [])) sim_map (λ _ _, Ok sim_history) 0 (u "strat-1") E Hc Eg Hk)
    as (strategies & pid & events & rec & _ & _ & Hl & Hf & Hp & _).
  injection Hl as <-. exists rec. split; [exact Hf|exact Hp].
Defined.

(** ** The gate at work over the in-memory store and the hash-chained log *)

#[local] Instance sim_log : AuditLog LoggerState := logger_log loads.
#[local] Instance sim_log_laws : AuditLaws LoggerState := logger_laws loads loads_is_jsonb.

Definition sim_authorized (who : pystr) (st : Stage) : result bool :=
  static_is_authorized id lower [(COMPLIANCE, [u "alice"]); (LEGAL, [u "bob"; u "alice"])] who st.
(** [rs] is how the audit database answers. *)
Definition sim_gate (rs : list reply) : Gate (St:=MemoryStore) (A:=LoggerState) :=
  mkGate ∅ (mkLogger (mkDb [] [] rs) [mkDatetime true 1000000; mkDatetime true 2000000] true).

Lemma sim_gate_ok rs : gate_ok id lower (sim_gate rs).
Proof. split; [split; [done|exact I]|]. intros pid. left. done. Qed.

Definition sim_submit : command * datetime := (Submit sim_proposal, mkDatetime true 500000).
Definition sim_approve (who : pystr) (st : Stage) : command * datetime :=
  (Approve (u "prop-1") who st [u "doc"] (u "ok"), mkDatetime true 700000).

Definition sim_reject : command * datetime := (Reject (u "prop-1") (u "Alice") (u "no"), mkDatetime true 600000).

(** Arguments that are text. *)
Ltac sim_clean := cbn [fst proper sim_approve sim_reject]; repeat split; repeat constructor.

Lemma sim_proper : proper id lower sim_submit.1.
Proof. split; [vm_compute; reflexivity|]. repeat split; repeat constructor. Qed.

(** The acknowledgement of the second append is lost: its approval is refused although the log
    has the row, and the retry signs once. *)
Definition sim_faults : list reply := repeat Served 13 ++ [Unacknowledged].
Definition sim_commands : list (command * datetime) :=
  [sim_submit; sim_approve (u "Alice") COMPLIANCE; sim_approve (u "Alice") COMPLIANCE].

Lemma sim_commands_proper : Forall (λ c, proper id lower c.1) sim_commands.
Proof.
  apply List.Forall_cons; [apply sim_proper|]. repeat constructor.
Qed.

Lemma gate_histories_valid_witness :
  ∃ outs g, SharpFacts.run id lower sim_authorized sim_commands (sim_gate sim_faults) = (outs, g) ∧
    is_ok <$> outs = [true; false; true] ∧ length (table (l_db (g_audit g))) = 3%nat ∧
    length (history (g_store g) (u "prop-1")) = 2%nat ∧
    ∃ seqs, NoDup seqs ∧
      Forall2 (audited (entries (g_audit g))) (history (g_store g) (u "prop-1")) seqs.
Proof.
  destruct (SharpFacts.run id lower sim_authorized sim_commands (sim_gate sim_faults)) as [outs g] eqn:E.
  exists outs, g. split; [reflexivity|].
  assert ((λ x : list (result ProposalRecord) * Gate, (is_ok <$> x.1, (length (table (l_db (g_audit x.2))),
      length (history (g_store x.2) (u "prop-1")))))
    (SharpFacts.run id lower sim_authorized sim_commands (sim_gate sim_faults))
    = ([true; false; true], (3%nat, 2%nat))) as Hs by (vm_compute; reflexivity).
  rewrite E in Hs. cbn [fst snd] in Hs. injection Hs as H1 H2 H3.
  split; [exact H1|]. split; [exact H2|]. split; [exact H3|].
  exact (proj2 (proj2 (gate_histories_valid id lower sim_authorized sim_commands (sim_gate sim_faults) g outs E
    (sim_gate_ok sim_faults) sim_commands_proper (u "prop-1")))).
Defined.

(** The gate once a proposal is in. *)
Definition sim_open : Gate (St:=MemoryStore) (A:=LoggerState) :=
  (SharpFacts.run id lower sim_authorized [sim_submit] (sim_gate [])).2.

Lemma sim_open_ok : gate_ok id lower sim_open.
Proof.
  refine (proj1 (gate_run_inv id lower sim_authorized _ _ _ _ (surjective_pairing _) (sim_gate_ok []) _)).
  constructor; [apply sim_proper|constructor].
Qed.

Lemma approve_signs_once_witness :
  ∃ rec g, approve id lower sim_authorized (u "prop-1") (u "Alice") COMPLIANCE [u "doc"] (u "ok")
             (mkDatetime true 700000) sim_open = (Ok rec, g) ∧
    ∃ e, history (g_store g) (u "prop-1") = history (g_store sim_open) (u "prop-1") ++ [e] ∧
      t_actor e = u "Alice" ∧ t_to e = COMPLIANCE ∧ p_version rec = 2.
Proof.
  destruct (approve id lower sim_authorized (u "prop-1") (u "Alice") COMPLIANCE [u "doc"] (u "ok")
    (mkDatetime true 700000) sim_open) as [r g] eqn:E.
  assert (p_version <$> (approve id lower sim_authorized (u "prop-1") (u "Alice") COMPLIANCE [u "doc"] (u "ok")
    (mkDatetime true 700000) sim_open).1 = Ok 2) as Hv by (vm_compute; reflexivity).
  rewrite E in Hv. destruct r as [rec|]; [|discriminate Hv]. injection Hv as Hv.
  exists rec, g. split; [reflexivity|].
  destruct (approve_signs_once id lower sim_authorized (u "prop-1") (u "Alice") COMPLIANCE [u "doc"] (u "ok")
    (mkDatetime true 700000) sim_open g rec E sim_open_ok) as (old & e & s & who & ids & submitter & H).
  - sim_clean.
  - sim_clean.
  - destruct H as (_ & _ & _ & _ & _ & _ & _ & Hh & _ & _ & Ht & Ha & _).
    exists e. split; [exact Hh|]. split; [exact Ha|]. split; [exact Ht|exact Hv].
Defined.

(** The gate once the proposal was rejected. *)
Definition sim_closed : Gate (St:=MemoryStore) (A:=LoggerState) :=
  (SharpFacts.run id lower sim_authorized [sim_reject] sim_open).2.

Lemma sim_closed_ok : gate_ok id lower sim_closed.
Proof.
  refine (proj1 (gate_run_inv id lower sim_authorized _ _ _ _ (surjective_pairing _) sim_open_ok _)).
  constructor; [sim_clean|constructor].
Qed.

Lemma closed_stays_closed_witness :
  ∃ rec outs g,
    fold id lower (history (g_store sim_closed) (u "prop-1")) (served (entries (g_audit sim_closed))) = Ok rec ∧
    is_terminal rec = true ∧
    SharpFacts.run id lower sim_authorized [sim_approve (u "Alice") COMPLIANCE] sim_closed = (outs, g) ∧
    history (g_store g) (u "prop-1") = history (g_store sim_closed) (u "prop-1").
Proof.
  destruct (fold id lower (history (g_store sim_closed) (u "prop-1")) (served (entries (g_audit sim_closed))))
    as [rec|] eqn:E.
  2: { exfalso. assert (is_ok (fold id lower (history (g_store sim_closed) (u "prop-1"))
         (served (entries (g_audit sim_closed)))) = true) as Hok by (vm_compute; reflexivity).
       rewrite E in Hok. discriminate Hok. }
  assert (is_terminal <$> fold id lower (history (g_store sim_closed) (u "prop-1"))
    (served (entries (g_audit sim_closed))) = Ok true) as Ht by (vm_compute; reflexivity).
  rewrite E in Ht. injection Ht as Ht.
  destruct (SharpFacts.run id lower sim_authorized [sim_approve (u "Alice") COMPLIANCE] sim_closed)
    as [outs g] eqn:Er.
  exists rec, outs, g. split; [reflexivity|]. split; [exact Ht|]. split; [reflexivity|].
  refine (proj1 (closed_stays_closed id lower sim_authorized _ sim_closed g outs (u "prop-1") rec Er sim_closed_ok
    _ E Ht)).
  constructor; [sim_clean|constructor].
Defined.
