(* ===== verification/Hitl.v ===== *)
(** * HITL backend: holds and decisions ([holds.py], [service.py])

    The book of final holds and replies, the handlers with every call they make - Aegis, the
    motor, the audit log, the clock - and what they leave behind when one of those fails. The
    whole of [decide] after the parsing of the body runs under one lock, so a decision is one
    step of the model. [HitlFacts] proves what it promises. *)
From S2P Require Import Prelude PyStr PyFloat PyDecimal Json SharpGate Compliance Service.

(** ** Messages ([aegis.proto], [trade_signal.proto]), as far as they are read *)

Abbreviation obj := (list (pystr * json)).

(** The estimates and scores of a signal are binary floats that pass through unread. *)
Record Signal := mkSignal {
  sg_signal_id : pystr; sg_symbol : pystr; sg_created_at_ns : Z; sg_side : Z;
  sg_quantity_nanos : Z; sg_price_limit_nanos : Z;
  sg_spread_cost_nanos : Z; sg_market_impact_nanos : Z; sg_venue_fees_nanos : Z; sg_total_cost_nanos : Z;
  sg_omega : json; sg_expected_value : json; sg_p_success : json; sg_p_failure : json;
  sg_reward_estimate : json; sg_risk_estimate : json;
  sg_regime : Z; sg_regime_confidence : json; sg_strategy_id : pystr; sg_debate_summary : pystr;
  sg_valid_until_ns : Z }.
Record ControlResult := mkControl {
  ct_control_id : pystr; ct_is_hard : bool; ct_passed : bool; ct_reason : Z;
  ct_threshold : pystr; ct_observed : pystr; ct_detail : pystr }.
(** A decision that holds the signal for a human. *)
Record HoldDecision := mkHoldDecision {
  hd_hold_id : pystr; hd_hold_expires_at_ns : Z; hd_decided_at_ns : Z; hd_reasons : list Z;
  hd_results : list ControlResult }.
Record HeldSignal := mkHeld { held_decision : HoldDecision; held_signal : Signal }.

(** [ResolveHoldRequest], and the decision Aegis answers with, as the motor reads it too. *)
Record ResolveRequest := mkResolve {
  rq_hold_id : pystr; rq_approve : bool; rq_note : pystr; rq_distress_score : json;
  rq_cooling_enforced : bool }.
Record Resolution := mkResolution { rs_decision : AegisDecision; rs_reasons : list Z }.

Record HITLOverrideRecord := mkOverride {
  ov_operator_id : pystr; ov_timestamp_ns : Z; ov_text : pystr; ov_distress_score : json;
  ov_cooling_enforced : bool; ov_decision : pystr }.
(** The [ExecuteRequest] that is relayed. *)
Record RelayRequest := mkRelay {
  ry_decision : AegisDecision; ry_signal : Signal; ry_symbol : pystr; ry_regime : Z;
  ry_ingestion_ns : Z; ry_judge_synthesis : pystr; ry_override : HITLOverrideRecord;
  ry_model_versions : list (pystr * pystr) }.

(** ** holds.py *)

Definition NANOS : decimal := D 1000000000.

(** [enum.Name(value)] of the generated enums; it raises ValueError on an unknown value. *)
Definition enums : Type := pystr → Z → option pystr.
Definition _enum_name (names : enums) (enum : pystr) (value : Z) : pystr :=
  default (str_of_Z value) (names enum value).

Definition required_approvals (s : Signal) (quantity_threshold : decimal)
    (notional_threshold_usd : option decimal) : result Z :=
  quantity ← ddiv (D (sg_quantity_nanos s)) NANOS;
  big ← dge quantity quantity_threshold;
  if big : bool then Ok 2
  else match notional_threshold_usd with
  | None => Ok 1
  | Some threshold =>
      if sg_price_limit_nanos s <=? 0 then Ok 1
      else
        product ← dmul quantity (D (sg_price_limit_nanos s));
        notional ← ddiv product NANOS;
        over ← dge notional threshold;
        Ok (if over : bool then 2 else 1)
  end.

Definition control_json (names : enums) (c : ControlResult) : json :=
  JObj [ (u "controlId", JStr (ct_control_id c)); (u "isHard", JBool (ct_is_hard c));
         (u "passed", JBool (ct_passed c));
         (u "reason", JStr (_enum_name names (u "ReasonCode") (ct_reason c)));
         (u "threshold", JStr (ct_threshold c)); (u "observed", JStr (ct_observed c));
         (u "detail", JStr (ct_detail c)) ].

Definition hold_json (names : enums) (h : HeldSignal) (status : pystr) (required : Z)
    (approvals : list json) : obj :=
  let d := held_decision h in
  let s := held_signal h in
  let int z := JStr (str_of_Z z) in
  [ (u "holdId", JStr (hd_hold_id d));
    (u "signalId", JStr (sg_signal_id s));
    (u "symbol", JStr (sg_symbol s));
    (u "createdAtNs", int (sg_created_at_ns s));
    (u "side", JStr (_enum_name names (u "SignalSide") (sg_side s)));
    (u "quantityNanos", int (sg_quantity_nanos s));
    (u "priceLimitNanos", int (sg_price_limit_nanos s));
    (u "estimatedSpreadCostNanos", int (sg_spread_cost_nanos s));
    (u "estimatedMarketImpactNanos", int (sg_market_impact_nanos s));
    (u "estimatedVenueFeesNanos", int (sg_venue_fees_nanos s));
    (u "estimatedTotalCostNanos", int (sg_total_cost_nanos s));
    (u "omega", sg_omega s);
    (u "expectedValue", sg_expected_value s);
    (u "pSuccess", sg_p_success s);
    (u "pFailure", sg_p_failure s);
    (u "rewardEstimate", sg_reward_estimate s);
    (u "riskEstimate", sg_risk_estimate s);
    (u "regime", JStr (_enum_name names (u "RegimeLabel") (sg_regime s)));
    (u "regimeConfidence", sg_regime_confidence s);
    (u "strategyId", JStr (sg_strategy_id s));
    (u "debateSummary", JStr (sg_debate_summary s));
    (u "validUntilNs", int (sg_valid_until_ns s));
    (u "holdExpiresAtNs", int (hd_hold_expires_at_ns d));
    (u "heldReasons", JArr ((λ r, JStr (_enum_name names (u "ReasonCode") r)) <$> hd_reasons d));
    (u "controls", JArr (control_json names <$> hd_results d));
    (u "hitlStatus", JStr status);
    (u "requiredApprovals", JInt required);
    (u "approvals", JArr approvals) ].

(** ** service.py *)

Record Policy := mkPolicy {
  quantity_threshold : decimal; notional_threshold_usd : option decimal;
  cooling_period_s : pyfloat; unscored_dev : bool }.

Record Operator := mkOperator { op_sub : pystr; op_role : pystr; op_amr : list pystr }.

Definition MIN_REASON : nat := 10.
Definition MAX_REASON : nat := 1000.
Definition _NOTE_CHARS : nat := 480.
Definition APPROVED_DECISION : Z := 1.

(** [raise ApiError(status, code, message)]. *)
Definition api_error {A} (status : Z) (code message : pystr) : result A :=
  raise (ApiError status code) (slice_to 500 message).

Definition hold_id_char (c : N) : bool := is_alnum c || one_of [95; 45]%N c.
Definition _check_hold_id (hold_id : pystr) : result unit :=
  guard_raise (negb (class_rep hold_id_char 1 64 hold_id)) (ApiError 404 (u "not_found")) (u "unknown hold").

Definition _CONTROL (c : N) : bool :=
  in_range 0 8 c || one_of [11; 12]%N c || in_range 14 31 c || bool_decide (c = 127%N).

(** [str(request_id)] of the JSON values whose text can be a UUID: the text of a list, of a
    non-empty dict, of [None], of a boolean and of a float never is. *)
Definition uuid_text (v : json) : option pystr :=
  match v with
  | JStr s => if uuid_ok s then Some s else None
  | JInt z => let s := str_of_Z z in if uuid_ok s then Some s else None
  | _ => None
  end.

Definition _parse_body (body : json) : result (pystr * pystr * pystr) :=
  match body with
  | JObj m =>
      let get k := default JNull (obj_get m k) in
      match get (u "decision") with
      | JStr decision =>
          if negb (bool_decide (decision ∈ [u "APPROVE"; u "REJECT"])) then
            api_error 422 (u "invalid_request") (u "decision must be APPROVE or REJECT")
          else match get (u "reason") with
          | JStr reason =>
              let reason := strip reason in
              if negb (bool_decide (MIN_REASON ≤ length reason ≤ MAX_REASON)%nat) || existsb _CONTROL reason
              then api_error 422 (u "reason_missing") (u "reason must be 10..1000 chars")
              else match uuid_text (get (u "clientRequestId")) with
              | Some request_id => Ok (decision, reason, request_id)
              | None => api_error 422 (u "invalid_request") (u "clientRequestId must be a UUID")
              end
          | _ => api_error 422 (u "reason_missing") (u "reason is required")
          end
      | _ => api_error 422 (u "invalid_request") (u "decision must be APPROVE or REJECT")
      end
  | _ => api_error 422 (u "invalid_request") (u "body must be a JSON object")
  end.

Definition _hitl_status (aegis_decision : Z) (approve : bool) : pystr :=
  if negb approve then u "REJECTED"
  else if aegis_decision =? APPROVED_DECISION then u "APPROVED" else u "RELEASE_DENIED".

(** What the generated stubs raise. *)
Definition is_rpc (c : exn_class) : bool := match c with RpcError _ => true | _ => false end.
Definition rpc_code (x : exn) : pystr := match exn_kind x with RpcError c => c | _ => [] end.

Definition aegis_unavailable {A} (x : exn) : result A :=
  api_error 503 (u "aegis_unavailable") (u "Aegis call failed: " ++ rpc_code x).

(** [except grpc.RpcError as exc: raise _map_resolve_error(exc)]. *)
Definition _map_resolve_error {A} (x : exn) : result A :=
  let code := rpc_code x in
  let detail := slice_to 300 (exn_msg x) in
  if str_eqb code (u "NOT_FOUND") then
    api_error 410 (u "expired") (u "the hold expired or is unknown to Aegis")
  else if str_eqb code (u "FAILED_PRECONDITION") then
    api_error 422 (u "aegis_refused") (u "Aegis refused the release: " ++ detail)
  else if str_eqb code (u "PERMISSION_DENIED") then
    api_error 503 (u "aegis_permission") (u "this service is not allowed to resolve holds")
  else api_error 503 (u "aegis_unavailable") (u "outcome unknown (" ++ code ++ u "); reload to verify").

Definition _error (code message : pystr) : json :=
  JObj [(u "error", JObj [(u "code", JStr code); (u "message", JStr (slice_to 500 message))])].

(** ** HitlService *)

(** What the service calls: each answer may depend on how many calls were made before. *)
Record HitlEnv := mkHitlEnv {
  names : enums;
  holds_list : nat → result (list HeldSignal);
  holds_get : nat → pystr → result HeldSignal;
  holds_resolve : nat → ResolveRequest → result Resolution;
  relay : option (nat → RelayRequest → result ExecuteAck);
  hitl_clock : nat → Z;
  policy : Policy;
  via : pystr                        (** [_Actor]: the name of this service in audit payloads *)
}.

(** The decision book, the audit log, and what was sent to Aegis (with its answer) and to the
    motor. *)
Record Hitl (A : Type) := mkHitl {
  finals : gmap pystr obj; replies : gmap pystr (Z * json); h_audit : A; h_calls : nat;
  resolves : list (ResolveRequest * result Resolution); executes : list RelayRequest }.
Arguments mkHitl {A}.
Arguments finals {A}.
Arguments replies {A}.
Arguments h_audit {A}.
Arguments h_calls {A}.
Arguments resolves {A}.
Arguments executes {A}.

Section service.
Context {A : Type} `{AuditLog A} (e : HitlEnv).

Abbreviation HM := (M (Hitl A)).

Definition tick : HM nat := λ s,
  (Ok (h_calls s), mkHitl (finals s) (replies s) (h_audit s) (S (h_calls s)) (resolves s) (executes s)).
Definition clock : HM Z := n ← tick; mret (hitl_clock e n).
Definition book_final (hold_id : pystr) : HM (option obj) := λ s, (Ok (finals s !! hold_id), s).
Definition add_final (hold_id : pystr) (hold : obj) : HM unit :=
  modify (λ s, mkHitl (<[hold_id := hold]> (finals s)) (replies s) (h_audit s) (h_calls s)
                 (resolves s) (executes s)).
Definition book_reply (key : pystr) : HM (option (Z * json)) := λ s, (Ok (replies s !! key), s).
Definition add_reply (key : pystr) (reply : Z * json) : HM unit :=
  modify (λ s, mkHitl (finals s) (<[key := reply]> (replies s)) (h_audit s) (h_calls s)
                 (resolves s) (executes s)).

(** [_Actor.record]: the payload with this service's name. *)
Definition audit_record (event actor : pystr) (payload : obj) : HM unit := λ s,
  let '(r, a) := record event actor (obj_set payload (u "via") (JStr (via e))) (h_audit s) in
  ((λ _, tt) <$> r, mkHitl (finals s) (replies s) a (h_calls s) (resolves s) (executes s)).

Definition _audit_or_refuse (event : pystr) (op : Operator) (payload : obj) : HM unit :=
  catch_all (audit_record event (op_sub op) payload)
    (λ _, lift (api_error 503 (u "audit_unavailable") (u "audit log unavailable; decision refused"))).
Definition _audit_quietly (event : pystr) (op : Operator) (payload : obj) : HM unit :=
  catch_all (audit_record event (op_sub op) payload) (λ _, mret tt).

Definition _fetch (hold_id : pystr) : HM HeldSignal :=
  n ← tick;
  lift (try_except (holds_get e n hold_id) is_rpc (λ x,
    if str_eqb (rpc_code x) (u "NOT_FOUND") then api_error 404 (u "not_found") (u "unknown or expired hold")
    else aegis_unavailable x)).

Definition _required (held : HeldSignal) : result Z :=
  required_approvals (held_signal held) (quantity_threshold (policy e)) (notional_threshold_usd (policy e)).

Definition _pending_json (held : HeldSignal) : result obj :=
  required ← _required held; Ok (hold_json (names e) held (u "PENDING") required []).

Definition list_pending : HM json :=
  n ← tick;
  holds ← lift (try_except (holds_list e n) is_rpc aegis_unavailable);
  pending ← lift (mapR _pending_json holds);
  mret (JObj [(u "holds", JArr (JObj <$> pending))]).

Definition get (hold_id : pystr) : HM json :=
  lift (_check_hold_id hold_id) ≫= λ _,
  final ← book_final hold_id;
  match final with
  | Some hold => mret (JObj hold)
  | None => held ← _fetch hold_id; hold ← lift (_pending_json held); mret (JObj hold)
  end.

(** [self._holds.resolve(...)]: sent, whatever comes back. *)
Definition send_resolve (request : ResolveRequest) : HM Resolution :=
  n ← tick;
  stateful (λ s,
    let answer := holds_resolve e n request in
    (answer, mkHitl (finals s) (replies s) (h_audit s) (h_calls s)
               (resolves s ++ [(request, answer)]) (executes s))).

Definition send_execute (call : nat → RelayRequest → result ExecuteAck) (request : RelayRequest)
  : HM ExecuteAck :=
  n ← tick;
  stateful (λ s, (call n request, mkHitl (finals s) (replies s) (h_audit s) (h_calls s)
                                    (resolves s) (executes s ++ [request]))).

Definition _override_record (op : Operator) (reason : pystr) (now : Z) (score : json) (cooling approve : bool)
  : HITLOverrideRecord :=
  mkOverride (op_sub op) now reason score cooling (if approve then u "approved" else u "rejected").

Definition relay_request (result : Resolution) (held : HeldSignal) (override : HITLOverrideRecord)
  : RelayRequest :=
  let signal := held_signal held in
  mkRelay (rs_decision result) signal (sg_symbol signal) (sg_regime signal) (sg_created_at_ns signal)
    (sg_debate_summary signal) override
    [(u "hitl-backend", u "ali-156"); (u "snapshot-source", u "hold-signal-only")].

Definition not_relayed (detail : pystr) : json :=
  JObj [(u "relayed", JBool false); (u "detail", JStr detail)].

(** [_relay_release]: only an RpcError of the motor is answered for. *)
Definition _relay_release (result : Resolution) (held : HeldSignal) (override : HITLOverrideRecord) : HM json :=
  match relay e with
  | None => mret (not_relayed (u "no execution-motor configured (dev)"))
  | Some call =>
      catch_all
        (ack ← send_execute call (relay_request result held override);
         mret (JObj [ (u "relayed", JBool true); (u "accepted", JBool (ack_accepted ack));
                      (u "status", JStr (ack_status ack));
                      (u "rejectReason", JStr (ack_reject_reason ack));
                      (u "detail", JStr (slice_to 300 (ack_detail ack))) ]))
        (λ x, if is_rpc (exn_kind x) then
                mret (not_relayed (u "execution-motor call failed: " ++ rpc_code x))
              else lift (Raise x))
  end.

(** [cooling_period_s > 0]. *)
Definition cooling : bool := float_ltb (round_int 0) (cooling_period_s (policy e)).

(** What must hold before an approval is sent. *)
Definition approval_guards (held : HeldSignal) (required now : Z) : result unit :=
  guard_raise (1 <? required) (ApiError 422 (u "second_approver_signing_unavailable"))
    (u "this hold needs two approvers; signed second approvals are not implemented") ≫= λ _,
  guard_raise (negb (unscored_dev (policy e))) (ApiError 422 (u "distress_classifier_unavailable"))
    (u "no reverse-guardrail distress classifier is configured") ≫= λ _,
  let waited_s := float_div (round_int (now - hd_decided_at_ns (held_decision held))) (round_int 1000000000) in
  guard_raise (cooling && float_ltb waited_s (cooling_period_s (policy e)))
    (ApiError 422 (u "cooling_period")) (u "the cooling period has not elapsed").

Definition approval_json (op : Operator) (decision reason : pystr) (now : Z) : json :=
  JObj [ (u "approverSub", JStr (op_sub op)); (u "decision", JStr decision);
         (u "reason", JStr reason); (u "decidedAtNs", JStr (str_of_Z now)) ].

(** The first half of [_decide_locked]: the refusals before anything is done. *)
Definition decision_checks (op : Operator) (hold_id : pystr) (approve : bool) : HM (HeldSignal * Z * Z) :=
  lift (guard_raise (negb (str_eqb (op_role op) (u "approver"))) (ApiError 403 (u "role_not_allowed"))
          (u "only approvers can decide")) ≫= λ _,
  final ← book_final hold_id;
  lift (guard_raise (bool_decide (is_Some final)) (ApiError 409 (u "already_final"))
          (u "this hold already has a final decision")) ≫= λ _,
  held ← _fetch hold_id;
  now ← clock;
  lift (guard_raise (Z.min (sg_valid_until_ns (held_signal held)) (hd_hold_expires_at_ns (held_decision held)) <=? now)
          (ApiError 410 (u "expired")) (u "the hold has expired")) ≫= λ _,
  required ← lift (_required held);
  lift (if approve then approval_guards held required now else Ok tt) ≫= λ _,
  mret (held, now, required).

(** [score = 0.0]. *)
Definition no_score : json := JFloat (u "0.0").

Definition decision_request (op : Operator) (hold_id reason : pystr) (approve : bool) : ResolveRequest :=
  mkResolve hold_id approve (slice_to _NOTE_CHARS (op_sub op ++ u ": " ++ reason)) no_score cooling.

Definition result_payload (op : Operator) (attempt : obj) (now : Z) (status : pystr)
    (result : Resolution) (override : HITLOverrideRecord) (execution : json) : obj :=
  attempt ++
  [ (u "hitl_status", JStr status);
    (u "aegis_decision", JInt (d_decision (rs_decision result)));
    (u "aegis_reasons", JArr (JInt <$> rs_reasons result));
    (u "execution", execution);
    (u "hitl_override", JObj
      [ (u "operator_id", JStr (op_sub op)); (u "override_timestamp_ns", JInt now);
        (u "decision", JStr (ov_decision override)); (u "distress_score", no_score);
        (u "distress_scored", JBool false); (u "cooling_period_enforced", JBool cooling) ]) ].

Definition _decide_locked (op : Operator) (hold_id decision reason : pystr) (attempt : obj) : HM (Z * json) :=
  let approve := str_eqb decision (u "APPROVE") in
  checked ← decision_checks op hold_id approve;
  let '(held, now, required) := checked in
  _audit_or_refuse (u "hitl.decision.attempt") op attempt ≫= λ _,
  result ← catch_all (send_resolve (decision_request op hold_id reason approve))
             (λ x, if is_rpc (exn_kind x) then lift (_map_resolve_error x) else lift (Raise x));
  let status := _hitl_status (d_decision (rs_decision result)) approve in
  let hold := hold_json (names e) held status required [approval_json op decision reason now] in
  let override := _override_record op reason now no_score cooling approve in
  execution ← (if str_eqb status (u "APPROVED") then
                 x ← _relay_release result held override; mret (Some x)
               else mret None : HM (option json));
  let hold := match execution with Some x => obj_set hold (u "execution") x | None => hold end in
  add_final hold_id hold ≫= λ _,
  _audit_quietly (u "hitl.decision.result") op
    (result_payload op attempt now status result override (default JNull execution)) ≫= λ _,
  mret (200, JObj hold).

(** The key of a reply: the operator's [sub], a NUL, the request id. *)
Definition reply_key (op : Operator) (request_id : pystr) : pystr := op_sub op ++ [0%N] ++ request_id.

Definition attempt_payload (op : Operator) (hold_id decision reason request_id : pystr) : obj :=
  [ (u "hold_id", JStr hold_id); (u "decision", JStr decision); (u "reason", JStr reason);
    (u "client_request_id", JStr request_id); (u "role", JStr (op_role op));
    (u "amr", JArr (JStr <$> op_amr op)) ].

(** [except ApiError as err]: the refusal as a reply, audited unless the audit log is what failed. *)
Definition refused (op : Operator) (attempt : obj) (x : exn) : HM (Z * json) :=
  match exn_kind x with
  | ApiError status code =>
      (if str_eqb code (u "audit_unavailable") then mret tt
       else _audit_quietly (u "hitl.decision.denied") op (attempt ++ [(u "code", JStr code)])) ≫= λ _,
      mret (status, _error code (exn_msg x))
  | _ => lift (Raise x)
  end.

Definition decide (op : Operator) (hold_id : pystr) (body : json) : HM (Z * json) :=
  parsed ← lift (_parse_body body);
  let '(decision, reason, request_id) := parsed in
  lift (_check_hold_id hold_id) ≫= λ _,
  let attempt := attempt_payload op hold_id decision reason request_id in
  let key := reply_key op request_id in
  replay ← book_reply key;
  match replay with
  | Some reply => _audit_or_refuse (u "hitl.decision.replayed") op attempt ≫= λ _, mret reply
  | None =>
      reply ← catch_all (_decide_locked op hold_id decision reason attempt) (refused op attempt);
      (if reply.1 <? 500 then add_reply key reply else mret tt) ≫= λ _,
      mret reply
  end.
End service.
