(* ===== verification/HitlFacts.v ===== *)
(** * HITL backend: what a decision does

    A decision that reaches Aegis passed every gate and was audited first; a hold is decided at
    most once; a repeated request gets its first reply. Proved for every audit log that keeps the
    interface of [SharpGate] and says which record it wrote. *)
From S2P Require Import Prelude PyStr PyFloat PyDecimal Json JsonFacts SharpModels SharpGate SharpFacts.
From S2P Require Import Compliance Service Hitl.

(** A write that returns names its record. *)
Class ReceiptLaw (A : Type) `{AuditLog A} := {
  receipt_law : ∀ et ac p a rc a', record et ac p a = (Ok rc, a') → ∃ s h, rc = mkReceipt (Some s) (Some h) }.

(** ** Request ids and reply keys *)

Lemma replace_keeps c old new s : c ∉ old → c ∈ s → c ∈ replace_all old new s.
Proof.
  intros Hc. unfold replace_all. generalize (length s) as fuel. intros fuel. revert s.
  induction fuel as [|fuel IH]; intros s Hs; [done|]. destruct s as [|x s]; [done|]. cbn [replace_from].
  case_bool_decide as E.
  - apply elem_of_app. right. apply IH. rewrite <- (take_drop (length old) (x :: s)) in Hs.
    apply elem_of_app in Hs as [Hs|Hs]; [by rewrite E in Hs|done].
  - apply elem_of_cons in Hs as [->|Hs]; [by left|right; auto].
Qed.

Lemma lstrip_set_keeps c cs s : c ∉ cs → c ∈ s → c ∈ lstrip_set cs s.
Proof.
  intros Hc. induction s as [|x s IH]; [done|]. intros Hs. cbn. case_bool_decide; [|done].
  apply elem_of_cons in Hs as [->|Hs]; [done|auto].
Qed.
Lemma strip_set_keeps c cs s : c ∉ cs → c ∈ s → c ∈ strip_set cs s.
Proof. intros Hc Hs. unfold strip_set. apply elem_of_reverse, lstrip_set_keeps, elem_of_reverse, lstrip_set_keeps; done. Qed.

Lemma lstrip_keeps c s : is_space c = false → c ∈ s → c ∈ lstrip s.
Proof.
  intros Hc. induction s as [|x s IH]; [done|]. intros Hs. cbn. destruct (is_space x) eqn:E; [|done].
  apply elem_of_cons in Hs as [->|Hs]; [congruence|auto].
Qed.
Lemma strip_keeps c s : is_space c = false → c ∈ s → c ∈ strip s.
Proof. intros Hc Hs. unfold strip. apply elem_of_reverse, lstrip_keeps, elem_of_reverse, lstrip_keeps; done. Qed.

Lemma hex_digits_no_nul p acc s n : hex_digits p acc s = Some n → 0%N ∉ s.
Proof.
  revert p acc. induction s as [|c s IH]; intros p acc; cbn; [intros _; apply not_elem_of_nil|].
  intros H [<-|Hin]%elem_of_cons; [discriminate H|].
  destruct (hex_digit c); [by eapply IH|]. destruct (_ && p); [by eapply IH|done].
Qed.

Lemma int_sign_keeps c s : c ≠ 45%N → c ≠ 43%N → c ∈ s → c ∈ (int_sign s).2.
Proof.
  intros ?? Hs. unfold int_sign. repeat case_match; subst; try done;
    by apply elem_of_cons in Hs as [->|Hs].
Qed.
Lemma hex_prefix_keeps s : 0%N ∈ s → 0%N ∈ hex_prefix s.
Proof.
  intros Hs. unfold hex_prefix. repeat case_match; subst; try done;
    repeat (apply elem_of_cons in Hs as [Hs|Hs]; [subst; discriminate|]); try done; set_solver.
Qed.

Lemma hex_of_str_no_nul s n : hex_of_str s = Some n → 0%N ∉ s.
Proof.
  unfold hex_of_str. intros H Hin. apply (strip_keeps 0%N), (int_sign_keeps 0%N) in Hin; [|done..].
  destruct (int_sign (strip s)) as [neg body]. apply bind_Some in H as (m & H & _).
  by apply hex_digits_no_nul in H; apply H, hex_prefix_keeps.
Qed.

Lemma uuid_no_nul s : uuid_ok s = true → 0%N ∉ s.
Proof.
  unfold uuid_ok. rewrite andb_true_iff. intros [_ H] Hin. destruct (hex_of_str _) eqn:E; [|done].
  apply hex_of_str_no_nul in E. apply E.
  repeat first [apply replace_keeps | apply strip_set_keeps]; try done;
    by apply (bool_decide_unpack _); vm_compute.
Qed.

Lemma split_last_nul a b a' b' :
  0%N ∉ b → 0%N ∉ b' → a ++ [0%N] ++ b = a' ++ [0%N] ++ b' → a = a' ∧ b = b'.
Proof.
  intros Hb Hb' E. revert a' E. induction a as [|x a IH]; intros [|y a']; cbn.
  - by intros [= ->].
  - intros [= <- E]. destruct Hb. rewrite E. apply elem_of_app. right. by left.
  - intros [= -> E]. destruct Hb'. rewrite <- E. apply elem_of_app. right. by left.
  - intros [= -> E]. by destruct (IH a' E) as [-> ->].
Qed.

Lemma uuid_text_no_nul v s : uuid_text v = Some s → 0%N ∉ s.
Proof. unfold uuid_text. intros H. repeat case_match; try done; injection H as <-; by apply uuid_no_nul. Qed.

Lemma parse_body_id body decision reason rid : _parse_body body = Ok (decision, reason, rid) → 0%N ∉ rid.
Proof. unfold _parse_body. intros H. repeat case_match; try done. injection H as <- <- <-. by eapply uuid_text_no_nul. Qed.
Lemma parse_body_decision body decision reason rid :
  _parse_body body = Ok (decision, reason, rid) → decision = u "APPROVE" ∨ decision = u "REJECT".
Proof.
  unfold _parse_body. intros H. repeat case_match; try done. injection H as <- <- <-.
  rewrite negb_false_iff in *. match goal with H : bool_decide (_ ∈ _) = true |- _ => apply bool_decide_eq_true in H end.
  set_solver.
Qed.

Lemma reply_key_inj op op' rid rid' :
  0%N ∉ rid → 0%N ∉ rid' → reply_key op rid = reply_key op' rid' → op_sub op = op_sub op' ∧ rid = rid'.
Proof. intros ??. by apply split_last_nul. Qed.

(** ** What a call leaves behind *)

Lemma attempt_dict op i decision reason rid name :
  dict_ok (JObj (obj_set (attempt_payload op i decision reason rid) (u "via") (JStr name))).
Proof.
  apply dict_ok_obj. split; [by apply (bool_decide_unpack _); vm_compute|].
  change (obj_set (attempt_payload op i decision reason rid) (u "via") (JStr name))
    with (attempt_payload op i decision reason rid ++ [(u "via", JStr name)]).
  cbn. rewrite !Forall_cons, Forall_nil. split_and!; try done.
  cbn [snd]. apply dict_ok_arr, Forall_fmap. by apply List.Forall_forall.
Qed.

Section facts.
Context {A : Type} `{AuditLog A, !AuditLaws A, !ReceiptLaw A} (e : HitlEnv).
Implicit Types s : Hitl A.

(** Neither the book nor the outside was touched. *)
Definition untouched s s' : Prop :=
  finals s' = finals s ∧ replies s' = replies s ∧ resolves s' = resolves s ∧ executes s' = executes s.
(** The audit log stays sound and keeps its records. *)
Definition logged s s' : Prop :=
  audit_ok (h_audit s) → audit_ok (h_audit s') ∧ grows (entries (h_audit s)) (entries (h_audit s')).
Definition calm s s' : Prop := untouched s s' ∧ logged s s'.

#[export] Instance logged_preorder : PreOrder logged.
Proof.
  split; [intros s Hok; split; [done|by intros i x]|]. intros s1 s2 s3 H1 H2 Hok. destruct (H1 Hok) as [Hok2 G1].
  destruct (H2 Hok2) as [Hok3 G2]. split; [done|]. intros i x Hx. auto.
Qed.
#[export] Instance calm_preorder : PreOrder calm.
Proof.
  split; [intros s; split; [by split_and!|reflexivity]|].
  intros s1 s2 s3 [(? & ? & ? & ?) L1] [(? & ? & ? & ?) L2]. split; [|by etransitivity].
  split_and!; congruence.
Qed.

Lemma audit_record_inv event actor p s r s' :
  audit_record e event actor p s = (r, s') →
  calm s s' ∧
  (audit_ok (h_audit s) → dict_ok (JObj (obj_set p (u "via") (JStr (via e)))) → r = Ok tt →
   ∃ q entry, entries (h_audit s) q = None ∧ entries (h_audit s') q = Some entry ∧
     says entry event actor (obj_set p (u "via") (JStr (via e)))).
Proof.
  unfold audit_record. destruct (record _ _ _ _) as [q a] eqn:E. intros [= <- <-].
  split.
  - split; [by split_and!|]. intros Hok. destruct (record_law _ _ _ _ _ _ Hok E) as (Hok' & Hg & _). by split.
  - intros Hok Hd Hr. destruct q as [rc|]; [|discriminate]. destruct (receipt_law _ _ _ _ _ _ E) as (i & h & ->).
    destruct (record_law _ _ _ _ _ _ Hok E) as (_ & _ & Hl).
    destruct (Hl i h Hd eq_refl) as (Hn & entry & He & _ & Hs). cbn. eauto.
Qed.

Lemma tick_calm : steps calm (tick (A:=A)).
Proof. intros s. split; [by split_and!|]. change (logged s s). reflexivity. Qed.
Lemma record_calm event actor p : steps calm (audit_record (A:=A) e event actor p).
Proof. intros s. by destruct (audit_record_inv _ _ _ _ _ _ (surjective_pairing (audit_record e event actor p s))). Qed.
Lemma book_final_calm i : steps calm (book_final (A:=A) i).
Proof. intros s. reflexivity. Qed.
Lemma book_reply_calm i : steps calm (book_reply (A:=A) i).
Proof. intros s. reflexivity. Qed.
#[local] Hint Resolve tick_calm record_calm book_final_calm book_reply_calm : s2p.

Lemma quietly_calm event op p : steps calm (_audit_quietly (A:=A) e event op p).
Proof. unfold _audit_quietly. steps_tac. Qed.
Lemma or_refuse_calm event op p : steps calm (_audit_or_refuse (A:=A) e event op p).
Proof. unfold _audit_or_refuse. steps_tac. Qed.
Lemma fetch_calm i : steps calm (_fetch (A:=A) e i).
Proof. unfold _fetch. steps_tac. Qed.
Lemma clock_calm : steps calm (clock (A:=A) e).
Proof. unfold clock. steps_tac. Qed.
Lemma refused_calm op attempt x : steps calm (refused (A:=A) e op attempt x).
Proof.
  unfold refused. destruct (exn_kind x); try apply (steps_lift calm).
  apply (steps_bind calm); [|intros; apply (steps_ret calm)].
  destruct (str_eqb _ _); [apply (steps_ret calm)|apply quietly_calm].
Qed.
Lemma get_calm i : steps calm (get (A:=A) e i).
Proof. pose proof (fetch_calm i). unfold get. steps_tac. Qed.
Lemma list_pending_calm : steps calm (list_pending (A:=A) e).
Proof. unfold list_pending. steps_tac. Qed.

Lemma calm_step {X} (m : M (Hitl A) X) s r s' : steps calm m → m s = (r, s') → calm s s'.
Proof. intros Hm E. specialize (Hm s). by rewrite E in Hm. Qed.

Lemma or_refuse_inv event op p s r s' :
  _audit_or_refuse e event op p s = (r, s') →
  calm s s' ∧
  ((∃ m, r = Raise (Exn (ApiError 503 (u "audit_unavailable")) m)) ∨
   r = Ok tt ∧
   (audit_ok (h_audit s) → dict_ok (JObj (obj_set p (u "via") (JStr (via e)))) →
    ∃ q entry, entries (h_audit s) q = None ∧ entries (h_audit s') q = Some entry ∧
      says entry event (op_sub op) (obj_set p (u "via") (JStr (via e))))).
Proof.
  intros E. split; [by eapply calm_step; [apply or_refuse_calm|]|].
  unfold _audit_or_refuse, catch_all in E. destruct (audit_record e event (op_sub op) p s) as [[[]|x] s1] eqn:Er.
  - injection E as <- <-. right. split; [done|]. intros Hok Hd. by eapply audit_record_inv.
  - injection E as <- <-. left. unfold api_error, raise. eauto.
Qed.

(** What holds when a decision is sent to Aegis. *)
Definition send_gates (op : Operator) (hold_id : pystr) (approve : bool) (f : gmap pystr obj)
    (held : HeldSignal) (now : Z) : Prop :=
  op_role op = u "approver" ∧ f !! hold_id = None ∧
  (∃ n, holds_get e n hold_id = Ok held) ∧ (∃ n, hitl_clock e n = now) ∧
  now < sg_valid_until_ns (held_signal held) ∧ now < hd_hold_expires_at_ns (held_decision held) ∧
  (approve = true →
   (∃ k, _required e held = Ok k ∧ k ≤ 1) ∧ unscored_dev (policy e) = true ∧
   (cooling e = true →
    float_ltb (float_div (round_int (now - hd_decided_at_ns (held_decision held))) (round_int 1000000000))
      (cooling_period_s (policy e)) = false)).

(** The attempt is in the log. *)
Definition attempt_logged (op : Operator) (attempt : obj) s s' : Prop :=
  ∃ q entry, entries (h_audit s) q = None ∧ entries (h_audit s') q = Some entry ∧
    says entry (u "hitl.decision.attempt") (op_sub op) (obj_set attempt (u "via") (JStr (via e))).

Lemma send_resolve_inv req s r s' :
  send_resolve e req s = (r, s') →
  resolves s' = resolves s ++ [(req, r)] ∧ finals s' = finals s ∧ replies s' = replies s ∧
  executes s' = executes s ∧ h_audit s' = h_audit s.
Proof. unfold send_resolve. cbn. by intros [= <- <-]. Qed.

Lemma relay_release_inv result held ov s r s' :
  _relay_release e result held ov s = (r, s') →
  finals s' = finals s ∧ replies s' = replies s ∧ resolves s' = resolves s ∧ h_audit s' = h_audit s ∧
  (executes s' = executes s ∨ executes s' = executes s ++ [relay_request result held ov]) ∧
  ((∃ x, r = Ok x) ∨ ∃ call n x, relay e = Some call ∧ call n (relay_request result held ov) = Raise x ∧
      is_rpc (exn_kind x) = false ∧ r = Raise x).
Proof.
  unfold _relay_release. destruct (relay e) as [call|] eqn:Er.
  2: { intros [= <- <-]. split_and!; eauto. }
  unfold catch_all. intros E.
  match type of E with match ?m with _ => _ end = _ => destruct m as [q s1] eqn:E1 end.
  assert (finals s1 = finals s ∧ replies s1 = replies s ∧ resolves s1 = resolves s ∧ h_audit s1 = h_audit s ∧
    executes s1 = executes s ++ [relay_request result held ov] ∧
    (∀ x, q = Raise x → call (h_calls s) (relay_request result held ov) = Raise x)) as (? & ? & ? & ? & ? & Hq).
  { revert E1. unfold send_execute, stateful, mbind, M_bind. cbn. destruct (call (h_calls s) (relay_request result held ov)) as [ack|y] eqn:Ec; cbn.
    all: intros Hp; apply pair_equal_spec in Hp as [<- <-]; split_and!; try done.
    by intros x [= ->]. }
  destruct q as [x|x].
  - injection E as <- <-. split_and!; eauto.
  - destruct (is_rpc (exn_kind x)) eqn:Ex; injection E as <- <-; split_and!; eauto 10.
Qed.

Lemma approval_guards_ok held required now :
  approval_guards e held required now = Ok tt →
  required ≤ 1 ∧ unscored_dev (policy e) = true ∧
  (cooling e = true →
    float_ltb (float_div (round_int (now - hd_decided_at_ns (held_decision held))) (round_int 1000000000))
      (cooling_period_s (policy e)) = false).
Proof.
  unfold approval_guards. intros E. apply bind_ok in E as ([] & E1 & E). apply bind_ok in E as ([] & E2 & E3).
  ok_inv. rewrite negb_false_iff in *. split_and!; [lia|done|]. intros Hc. by rewrite Hc in *.
Qed.

Lemma fetch_inv i s r s' :
  _fetch e i s = (r, s') → calm s s' ∧ ∀ held, r = Ok held → ∃ n, holds_get e n i = Ok held.
Proof.
  intros E. split; [by eapply calm_step; [apply fetch_calm|]|]. unfold _fetch in E. m_step E.
  - injection E0 as <- <-. unfold lift in E. injection E as <- <-. intros held Hr. exists (h_calls s).
    unfold try_except in Hr. destruct (holds_get e (h_calls s) i) as [|x]; [done|].
    destruct (is_rpc _); [|done]. by destruct (str_eqb _ _).
  - discriminate E0.
Qed.

Lemma decision_checks_calm op i approve : steps calm (decision_checks (A:=A) e op i approve).
Proof. pose proof (fetch_calm i). pose proof clock_calm. unfold decision_checks. steps_tac. Qed.

Lemma decision_checks_ok op i approve s held now required s' :
  decision_checks e op i approve s = (Ok (held, now, required), s') →
  send_gates op i approve (finals s) held now.
Proof.
  unfold decision_checks. intros E. m_step E; [|discriminate].
  unfold lift in E0. injection E0 as E0 <-. ok_inv. rewrite negb_false_iff, str_eqb_true in *.
  m_step E; [|discriminate]. injection E1 as <- <-.
  m_step E; [|discriminate]. unfold lift in E1. injection E1 as E1 <-. ok_inv. rewrite bool_decide_eq_false in *.
  m_step E; [|discriminate]. apply fetch_inv in E2 as [_ Hf]. destruct (Hf _ eq_refl) as [n Hget].
  m_step E; [|discriminate]. unfold clock in E2. cbn in E2. injection E2 as <- <-.
  m_step E; [|discriminate]. unfold lift in E2. injection E2 as E2 <-. ok_inv.
  m_step E; [|discriminate]. unfold lift in E3. injection E3 as E3 <-.
  m_step E; [|discriminate]. unfold lift in E4. injection E4 as E4 <-.
  injection E as -> <- -> <-. unfold send_gates.
  split_and!; try done; [by destruct (finals s !! i); [destruct Heqb0|]|eauto|eauto|lia|lia|].
  intros ->. destruct a4. apply approval_guards_ok in E4 as (? & ? & ?). split_and!; eauto.
Qed.

(** What [_decide_locked] left behind. *)
Definition decision_effect (op : Operator) (i reason : pystr) (approve : bool) (attempt : obj)
    s (r : result (Z * json)) s' : Prop :=
  (∃ x, r = Raise x) ∧ calm s s' ∨
  ∃ held now answer s1,
    calm s s1 ∧ send_gates op i approve (finals s) held now ∧
    (audit_ok (h_audit s) → dict_ok (JObj (obj_set attempt (u "via") (JStr (via e)))) →
     attempt_logged op attempt s s1) ∧
    logged s1 s' ∧ replies s' = replies s ∧
    resolves s' = resolves s ++ [(decision_request e op i reason approve, answer)] ∧
    match answer with
    | Raise _ => (∃ x, r = Raise x) ∧ finals s' = finals s ∧ executes s' = executes s
    | Ok result =>
        (executes s' = executes s ∨
         _hitl_status (d_decision (rs_decision result)) approve = u "APPROVED" ∧
         ∃ ov, executes s' = executes s ++ [relay_request result held ov]) ∧
        ((∃ hold, r = Ok (200, JObj hold) ∧ finals s' = <[i := hold]> (finals s)) ∨
         (∃ call n req x, relay e = Some call ∧ call n req = Raise x ∧ is_rpc (exn_kind x) = false ∧ r = Raise x) ∧
         finals s' = finals s)
    end.

Lemma maybe_relay_inv status result held ov s (r : Prelude.result (option json)) s' :
  (if str_eqb status (u "APPROVED") then x ← _relay_release e result held ov; mret (Some x)
   else mret None) s = (r, s') →
  finals s' = finals s ∧ replies s' = replies s ∧ resolves s' = resolves s ∧ h_audit s' = h_audit s ∧
  (executes s' = executes s ∨
   status = u "APPROVED" ∧ ∃ ov', executes s' = executes s ++ [relay_request result held ov']) ∧
  ((∃ x, r = Ok x) ∨ ∃ call n req x, relay e = Some call ∧ call n req = Raise x ∧
      is_rpc (exn_kind x) = false ∧ r = Raise x).
Proof.
  destruct (str_eqb status (u "APPROVED")) eqn:Es.
  2: { intros [= <- <-]. split_and!; eauto. }
  apply str_eqb_true in Es. intros E.
  apply M_bind_inv in E as [(x & s1 & E & E1)|(x & E & ->)]; apply relay_release_inv in E as (? & ? & ? & ? & Hx & Hr).
  - injection E1 as <- <-. split_and!; eauto. destruct Hx; eauto.
  - split_and!; eauto; [destruct Hx; eauto|]. right. destruct Hr as [[? [=]]|(c & n & y & ? & ? & ? & [= ->])]. eauto 10.
Qed.

Lemma record_final_inv i hold event op p v s r s' :
  (add_final i hold ≫= λ _, _audit_quietly e event op p ≫= λ _, mret v) s = (r, s') →
  r = Ok (v : Z * json) ∧ finals s' = <[i := hold]> (finals s) ∧ replies s' = replies s ∧
  resolves s' = resolves s ∧ executes s' = executes s ∧ logged s s'.
Proof.
  intros E. m_step E; [injection E0 as <- <-|discriminate E0].
  m_step E; pose proof (calm_step _ _ _ _ (quietly_calm _ _ _) E0) as [(? & ? & ? & ?) L].
  - injection E as <- <-. by split_and!.
  - unfold _audit_quietly, catch_all in E0. destruct (audit_record _ _ _ _ _) as [[] ?]; discriminate E0.
Qed.

Lemma decide_locked_inv op i decision reason attempt s r s' :
  _decide_locked e op i decision reason attempt s = (r, s') →
  decision_effect op i reason (str_eqb decision (u "APPROVE")) attempt s r s'.
Proof.
  unfold _decide_locked. generalize (str_eqb decision (u "APPROVE")) as approve. intros approve E.
  m_step E; pose proof (calm_step _ _ _ _ (decision_checks_calm _ _ _) E0) as C1.
  2: { left. split; [by eauto|done]. }
  destruct a as [[held now] required]. apply decision_checks_ok in E0 as Hg.
  m_step E; apply or_refuse_inv in E1 as [C2 Ho].
  2: { left. split; [by eauto|by etransitivity]. }
  destruct Ho as [[m [=]]|[_ Hlog]].
  assert (calm s s1) as C12 by by etransitivity.
  assert (audit_ok (h_audit s) → dict_ok (JObj (obj_set attempt (u "via") (JStr (via e)))) →
    attempt_logged op attempt s s1) as Hatt.
  { intros Hok Hd. destruct C1 as [_ L1]. destruct (L1 Hok) as [Hok1 G1].
    destruct (Hlog Hok1 Hd) as (q & entry & Hn & He). exists q, entry. split; [|done].
    destruct (entries (h_audit s) q) eqn:Eq; [|done]. apply G1 in Eq. congruence. }
  right. pose proof C12 as [(F1 & R1 & S1 & X1) _].
  apply M_bind_inv in E as [(result & s2 & E2 & E)|(x & E2 & ->)];
    unfold catch_all in E2; destruct (send_resolve e _ s1) as [q s3] eqn:Es;
    apply send_resolve_inv in Es as (Sr & F3 & R3 & X3 & A3).
  2: { assert (∃ y, q = Raise y ∧ s3 = s') as (y & -> & ->).
       { destruct q as [?|y]; [discriminate|]. exists y. split; [done|].
         destruct (is_rpc _); unfold lift in E2; congruence. }
       exists held, now, (Raise y), s1. rewrite R3, F3, X3, Sr, R1, F1, X1, S1. split_and!; eauto.
       intros Hok. rewrite A3. split; [done|by intros k z]. }
  destruct q as [result'|y]; [|destruct (is_rpc _); unfold lift, _map_resolve_error, api_error, raise in E2; repeat case_match; discriminate E2].
  injection E2 as -> ->.
  exists held, now, (Ok result), s1.
  apply M_bind_inv in E as [(x & s3 & E2 & E)|(x & E2 & ->)]; apply maybe_relay_inv in E2 as (F4 & R4 & S4 & A4 & X4 & Hr).
  - apply record_final_inv in E as (-> & F5 & R5 & S5 & X5 & L5).
    rewrite F5, R5, S5, X5, F4, R4, S4, F3, R3, Sr, F1, R1, S1.
    split_and!; eauto; [|rewrite X3, X1 in X4; exact X4].
    intros Hok. rewrite <- A3, <- A4 in Hok |- *. by apply L5.
  - rewrite F4, R4, S4, F3, R3, Sr, F1, R1, S1. split_and!; eauto; [|rewrite X3, X1 in X4; exact X4|].
    + intros Hok. rewrite A4, A3. split; [done|by intros k z].
    + right. destruct Hr as [[? [=]]|(c & n & req & y & ? & ? & ? & [= ->])]. split; [eauto 10|done].
Qed.

(** What a call of [decide] left behind. *)
Definition fresh_decision (op : Operator) (i decision reason rid : pystr) s (r : result (Z * json)) s' : Prop :=
  ∃ q s1, decision_effect op i reason (str_eqb decision (u "APPROVE")) (attempt_payload op i decision reason rid) s q s1 ∧
    finals s' = finals s1 ∧ resolves s' = resolves s1 ∧ executes s' = executes s1 ∧ logged s1 s' ∧
    (∀ reply, q = Ok reply → r = Ok reply) ∧
    (replies s' = replies s ∧ (∀ reply, r = Ok reply → 500 ≤ reply.1) ∨
     ∃ reply, r = Ok reply ∧ reply.1 < 500 ∧ replies s' = <[reply_key op rid := reply]> (replies s)).

Lemma decision_effect_replies op i reason approve attempt s r s' :
  decision_effect op i reason approve attempt s r s' → replies s' = replies s.
Proof. by intros [[_ [(? & ? & ? & ?) _]]|(held & now & answer & s1 & _ & _ & _ & _ & ? & _)]. Qed.

Lemma refused_inv op attempt x s r s' :
  refused e op attempt x s = (r, s') → calm s s'.
Proof. apply calm_step, refused_calm. Qed.

Lemma decide_inv op i body s r s' :
  decide e op i body s = (r, s') →
  (∃ x, r = Raise x ∧ (_parse_body body = Raise x ∨ _check_hold_id i = Raise x)) ∧ s' = s ∨
  ∃ decision reason rid, _parse_body body = Ok (decision, reason, rid) ∧ _check_hold_id i = Ok tt ∧
    ((∃ reply, replies s !! reply_key op rid = Some reply ∧ calm s s' ∧
        (r = Ok reply ∨ ∃ m, r = Raise (Exn (ApiError 503 (u "audit_unavailable")) m))) ∨
     replies s !! reply_key op rid = None ∧ fresh_decision op i decision reason rid s r s').
Proof.
  unfold decide. intros E. m_step E; unfold lift in E0; injection E0 as E0 <-; [|left; by eauto 10].
  destruct a as [[decision reason] rid].
  m_step E; unfold lift in E1; injection E1 as E1 <-; [destruct a|left; by eauto 10].
  right. exists decision, reason, rid. split; [done|]. split; [done|].
  m_step E; [injection E2 as <- <-|discriminate E2].
  destruct (replies s !! reply_key op rid) as [reply|] eqn:Ek.
  - left. exists reply. split; [done|]. m_step E; apply or_refuse_inv in E2 as [C Ho].
    + injection E as <- <-. split; [done|by left].
    + split; [done|]. right. by destruct Ho as [[m [= ->]]|[[=] _]]; eauto.
  - right. split; [done|].
    apply M_bind_inv in E as [(reply & s2 & E2 & E)|(x & E2 & ->)]; unfold catch_all in E2;
      destruct (_decide_locked e op i decision reason _ s) as [q s1] eqn:El; apply decide_locked_inv in El;
      pose proof (decision_effect_replies _ _ _ _ _ _ _ _ El) as Hrep.
    + assert (calm s1 s2 ∧ ∀ reply', q = Ok reply' → reply' = reply) as [[(F & R & S & X) L] Hq].
      { destruct q as [reply'|x]; [injection E2 as -> ->; split; [reflexivity|by intros ? [= ->]]|].
        apply refused_inv in E2. by split. }
      exists q, s1. split; [done|].
      destruct (Z.ltb_spec reply.1 500); unfold add_reply, modify, mbind, M_bind in E; cbn in E;
        injection E as <- <-; cbn; (split_and!; [done..|by intros y Hy; rewrite (Hq y Hy)|]).
      * right. exists reply. by rewrite R, Hrep.
      * left. rewrite R, Hrep. split; [done|]. by intros y [= <-].
    + assert (calm s1 s') as [(F & R & S & X) L].
      { destruct q as [reply'|y]; [discriminate|]. by apply refused_inv in E2. }
      exists q, s1. split_and!; try done; [by destruct q|]. left. by rewrite R, Hrep.
Qed.

(** ** Sequences of requests *)

Inductive hitl_command := Decide (op : Operator) (hold_id : pystr) (body : json) | Get (hold_id : pystr) | ListPending.

Definition hitl_execute (c : hitl_command) : M (Hitl A) (Z * json) :=
  match c with
  | Decide op i body => decide e op i body
  | Get i => x ← get e i; mret (200, x)
  | ListPending => x ← list_pending e; mret (200, x)
  end.

Fixpoint hitl_run (cs : list hitl_command) s : list (result (Z * json)) * Hitl A :=
  match cs with
  | [] => ([], s)
  | c :: cs => let '(r, s1) := hitl_execute c s in let '(rs, s2) := hitl_run cs s1 in (r :: rs, s2)
  end.

(** The holds Aegis answered a decision for. *)
Definition answered (l : list (ResolveRequest * result Resolution)) : list pystr :=
  omap (λ x, match x.2 with Ok _ => Some (rq_hold_id x.1) | Raise _ => None end) l.

(** The book agrees with what was sent: every answered hold is final, and was answered once. *)
Definition book_ok s : Prop :=
  NoDup (answered (resolves s)) ∧ ∀ i, i ∈ answered (resolves s) ↔ is_Some (finals s !! i).

(** The motor's stub raises nothing but RpcError. *)
Definition stub_raises_rpc : Prop :=
  ∀ call n req x, relay e = Some call → call n req = Raise x → is_rpc (exn_kind x) = true.

Definition progress s s' : Prop :=
  finals s ⊆ finals s' ∧ replies s ⊆ replies s' ∧ resolves s `prefix_of` resolves s' ∧ logged s s' ∧
  (stub_raises_rpc → book_ok s → book_ok s').

#[export] Instance progress_preorder : PreOrder progress.
Proof.
  split; [intros s; by split_and!|]. intros s1 s2 s3 (F1 & R1 & P1 & L1 & B1) (F2 & R2 & P2 & L2 & B2).
  split_and!; [by etransitivity..|auto].
Qed.

Lemma calm_progress s s' : calm s s' → progress s s'.
Proof.
  intros [(F & R & S & X) L]. split_and!; [by rewrite F|by rewrite R|by rewrite S|done|].
  intros _. unfold book_ok. by rewrite F, S.
Qed.

Lemma effect_progress op i reason approve attempt s r s' :
  decision_effect op i reason approve attempt s r s' →
  finals s ⊆ finals s' ∧ resolves s `prefix_of` resolves s' ∧ logged s s' ∧ (stub_raises_rpc → book_ok s → book_ok s').
Proof.
  intros [[_ C]|(held & now & answer & s1 & [_ L1] & Hg & _ & L2 & _ & Hs & Ha)].
  { destruct (calm_progress _ _ C) as (? & ? & ? & ? & ?). by split_and!. }
  destruct Hg as (_ & Hnone & _).
  assert (logged s s') as L by by etransitivity.
  assert (resolves s `prefix_of` resolves s') as Hp by (rewrite Hs; by apply prefix_app_r).
  destruct answer as [result|x].
  - destruct Ha as [_ [(hold & _ & Hf)|[(call & n & req & x & Hc & Hr & Hx & _) Hf]]].
    + rewrite Hf. split_and!; [by apply insert_subseteq|done|done|]. intros _ [Hn Hb]. unfold book_ok, answered.
      rewrite Hs, Hf, omap_app. cbn. fold (answered (resolves s)). split.
      * apply NoDup_app. split_and!; [done| |apply NoDup_singleton]. intros j Hj ->%list_elem_of_singleton.
        apply Hb in Hj. rewrite Hnone in Hj. by destruct Hj.
      * intros j. rewrite elem_of_app, list_elem_of_singleton, lookup_insert_is_Some, Hb.
        destruct (base.decide (i = j)); naive_solver.
    + rewrite Hf. split_and!; try done. intros Hrpc. by rewrite (Hrpc _ _ _ _ Hc Hr) in Hx.
  - destruct Ha as (_ & Hf & _). rewrite Hf. split_and!; try done. intros _ [Hn Hb]. unfold book_ok, answered.
    rewrite Hs, Hf, omap_app. cbn. by rewrite app_nil_r.
Qed.

Lemma execute_progress c s r s' : hitl_execute c s = (r, s') → progress s s'.
Proof.
  destruct c as [op i body|i|]; cbn [hitl_execute].
  - intros [[_ ->]|(decision & reason & rid & _ & _ & H1)]%decide_inv; [reflexivity|].
    destruct H1 as [(reply & _ & C & _)|(Hnone & q & s1 & He & F & S & X & L & _ & Hrep)]; [by apply calm_progress|].
    apply effect_progress in He as (HF & HS & HL & HB). unfold progress. rewrite F, S.
    split_and!; [done| |done|by etransitivity|unfold book_ok; by rewrite F, S].
    destruct Hrep as [[-> _]|(reply & _ & _ & ->)]; [done|by apply insert_subseteq].
  - intros E. apply calm_progress. revert E. apply calm_step. pose proof (get_calm i). steps_tac.
  - intros E. apply calm_progress. revert E. apply calm_step. pose proof list_pending_calm. steps_tac.
Qed.

Lemma hitl_run_progress cs s outs s' : hitl_run cs s = (outs, s') → progress s s'.
Proof.
  revert s outs. induction cs as [|c cs IH]; intros s outs; cbn [hitl_run]; [intros [= _ <-]; reflexivity|].
  destruct (hitl_execute c s) as [r s1] eqn:E. destruct (hitl_run cs s1) as [rs s2] eqn:E2. intros [= _ <-].
  etransitivity; [by eapply execute_progress|by eapply IH].
Qed.
End facts.
