(* ===== verification/HitlAudit.v ===== *)
(** * HITL backend over the hash-chained audit log: properties

    The general properties of a decision, for any audit log that keeps the interface, and what
    the decisions leave in the real one - with the service at work over it in the examples. *)
From S2P Require Import Prelude PyStr PyFloat PyDecimal Json JsonFacts PyTime AuditCanonical AuditChain.
From S2P Require Import SharpModels SharpGate SharpFacts SharpAudit Compliance Service Hitl HitlFacts.

(** ** A payload with a float is never written *)

Lemma py_of_json_map m : py_of_json (JObj m) = PMap ((λ kv, (KStr kv.1, py_of_json kv.2)) <$> m).
Proof. reflexivity. Qed.

(** A mapping one of whose items is refused is refused. *)
Lemma normalise_item_fails d k v m :
  (k, v) ∈ m → (∀ j, _normalise (py_of_json v) (S d) ≠ Ok j) → ∀ j, _normalise (py_of_json (JObj m)) d ≠ Ok j.
Proof.
  intros Hin Hv j. rewrite py_of_json_map, normalise_map. case_match; [done|].
  intros (out & Ho & _)%bind_ok. revert Ho. generalize (@nil (pystr * json)) as acc. revert Hin.
  induction m as [|[k' v'] m IH]; [by intros []%not_elem_of_nil|]. intros [[= <- <-]|Hin]%elem_of_cons acc Ho.
  - cbn in Ho. apply bind_ok in Ho as (x & Hx & _). by apply Hv in Hx.
  - cbn in Ho. apply bind_ok in Ho as (x & _ & Ho). apply bind_ok in Ho as (y & _ & Ho). by eapply IH.
Qed.

Lemma obj_set_keeps k v k' v' m : k ≠ k' → (k, v) ∈ m → (k, v) ∈ obj_set m k' v'.
Proof.
  intros Hk. induction m as [|[k2 v2] m IH]; [by intros []%not_elem_of_nil|]. intros Hin. cbn.
  destruct (str_eqb k' k2) eqn:E; apply elem_of_cons in Hin as [[= -> ->]|Hin].
  - apply str_eqb_true in E. congruence.
  - by right.
  - by left.
  - right. auto.
Qed.

Lemma result_refused e op attempt now status result ov execution name j :
  _normalise (py_of_json (JObj (obj_set (result_payload e op attempt now status result ov execution)
                                  (u "via") (JStr name)))) 0 ≠ Ok j.
Proof.
  eapply (normalise_item_fails 0 (u "hitl_override")).
  { apply obj_set_keeps; [by apply (bool_decide_unpack _); vm_compute|]. unfold result_payload.
    apply elem_of_app. right. do 4 right. by left. }
  apply (normalise_item_fails 1 (u "distress_score") no_score); [do 3 right; by left|done].
Qed.

Lemma make_event_normal et ac v event : make_event et ac v = Ok event → ∃ j, _normalise v 0 = Ok j.
Proof.
  unfold make_event. intros (_ & _ & H)%bind_ok. apply bind_ok in H as (_ & _ & H). destruct v; try discriminate.
  apply bind_ok in H as (t & Ht & _). apply canonical_loads in Ht as (j & Hj & _). eauto.
Qed.

Section logger.
Context (jsonb : pystr → option json) (jsonb_law : jsonb_ok jsonb).
#[local] Instance hitl_logger : AuditLog LoggerState := logger_log jsonb.

#[local] Instance logger_receipts : ReceiptLaw LoggerState.
Proof.
  split. intros et ac p l rc l'. cbn. unfold logger_record. destruct (AuditChain.record _ _ _ _ _ _) as [[rec|x] d].
  - intros [= <- <-]. eauto.
  - discriminate.
Qed.

(** Every record of a decision's result that is there was there before. *)
Definition no_new_results (s s' : Hitl LoggerState) : Prop :=
  audit_ok (h_audit s) → audit_ok (h_audit s') ∧
  ∀ row, row ∈ by_seq (table (l_db (h_audit s'))) → r_event_type row = u "hitl.decision.result" →
    row ∈ by_seq (table (l_db (h_audit s))).

#[local] Instance no_new_results_preorder : PreOrder no_new_results.
Proof.
  split; [by intros s Hok; split|]. intros s1 s2 s3 H1 H2 Hok. destruct (H1 Hok) as [Hok2 R1].
  destruct (H2 Hok2) as [Hok3 R2]. split; [done|]. auto.
Qed.

Lemma record_no_result e event actor p :
  event ≠ u "hitl.decision.result" ∨
    (∀ j, _normalise (py_of_json (JObj (obj_set p (u "via") (JStr (via e))))) 0 ≠ Ok j) →
  steps no_new_results (audit_record (A:=LoggerState) e event actor p).
Proof.
  intros Hev s Hok. unfold audit_record. cbn. unfold logger_record.
  destruct (AuditChain.record _ _ _ _ _ _) as [r d] eqn:E. destruct Hok as [Hx Hv].
  apply AuditChain.record_inv in E as (Hx' & new & _ & Hb & Hv' & Hr); [|done..]. cbn. split; [done|].
  intros row Hin Hres. rewrite Hb in Hin. apply elem_of_app in Hin as [Hin|Hin]; [done|]. exfalso.
  assert (∃ ev, r_event_type row = event ∧
    make_event event actor (py_of_json (JObj (obj_set p (u "via") (JStr (via e))))) = Ok ev) as (ev & Het & Hm).
  { destruct r as [rec|x].
    - destruct Hr as (row' & ev & -> & _ & Het & _ & Hm & _). apply list_elem_of_singleton in Hin as ->. eauto.
    - destruct Hr as [_ [-> | (row' & ev & -> & _ & Het & Hm)]]; [by apply elem_of_nil in Hin|].
      apply list_elem_of_singleton in Hin as ->. eauto. }
  destruct Hev as [Hev|Hev]; [congruence|]. apply make_event_normal in Hm as [j Hj]. by apply Hev in Hj.
Qed.

Lemma same_log_no_result s s' : h_audit s' = h_audit s → no_new_results s s'.
Proof. intros E Hok. rewrite E. by split. Qed.

Lemma quietly_no_result e event op p :
  event ≠ u "hitl.decision.result" ∨
    (∀ j, _normalise (py_of_json (JObj (obj_set p (u "via") (JStr (via e))))) 0 ≠ Ok j) →
  steps no_new_results (_audit_quietly (A:=LoggerState) e event op p).
Proof. intros Hev. pose proof (record_no_result e event (op_sub op) p Hev). unfold _audit_quietly. steps_tac. Qed.
Lemma or_refuse_no_result e event op p :
  event ≠ u "hitl.decision.result" → steps no_new_results (_audit_or_refuse (A:=LoggerState) e event op p).
Proof.
  intros Hev. pose proof (record_no_result e event (op_sub op) p (or_introl Hev)). unfold _audit_or_refuse. steps_tac.
Qed.

Lemma pure_no_result {X} (m : M (Hitl LoggerState) X) :
  (∀ s, h_audit (m s).2 = h_audit s) → steps no_new_results m.
Proof. intros Hm s. by apply same_log_no_result. Qed.

Lemma tick_no_result : steps no_new_results (tick (A:=LoggerState)).
Proof. by apply pure_no_result. Qed.
Lemma book_final_no_result i : steps no_new_results (book_final (A:=LoggerState) i).
Proof. by apply pure_no_result. Qed.
Lemma book_reply_no_result i : steps no_new_results (book_reply (A:=LoggerState) i).
Proof. by apply pure_no_result. Qed.
Lemma add_final_no_result i h : steps no_new_results (add_final (A:=LoggerState) i h).
Proof. by apply pure_no_result. Qed.
Lemma add_reply_no_result k x : steps no_new_results (add_reply (A:=LoggerState) k x).
Proof. by apply pure_no_result. Qed.
Lemma send_resolve_no_result e q : steps no_new_results (send_resolve (A:=LoggerState) e q).
Proof. by apply pure_no_result. Qed.
Lemma send_execute_no_result c q : steps no_new_results (send_execute (A:=LoggerState) c q).
Proof. by apply pure_no_result. Qed.
#[local] Hint Resolve tick_no_result book_final_no_result book_reply_no_result add_final_no_result
  add_reply_no_result send_resolve_no_result send_execute_no_result : s2p.

Ltac audit_event :=
  first [apply record_no_result; left | apply or_refuse_no_result | apply quietly_no_result; left];
  by apply (bool_decide_unpack _); vm_compute.

Lemma checks_no_result e op i approve : steps no_new_results (decision_checks (A:=LoggerState) e op i approve).
Proof. unfold decision_checks, _fetch, clock. steps_tac. Qed.
Lemma relay_no_result e r h o : steps no_new_results (_relay_release (A:=LoggerState) e r h o).
Proof. unfold _relay_release. steps_tac. Qed.
Lemma result_no_result e op p now st r o x :
  steps no_new_results (_audit_quietly (A:=LoggerState) e (u "hitl.decision.result") op
    (result_payload e op p now st r o x)).
Proof. apply quietly_no_result. right. intros j. apply result_refused. Qed.
#[local] Hint Resolve checks_no_result relay_no_result result_no_result : s2p.

Lemma locked_no_result e op i d r p : steps no_new_results (_decide_locked (A:=LoggerState) e op i d r p).
Proof. unfold _decide_locked. steps_tac. audit_event. Qed.
Lemma refused_no_result e op p x : steps no_new_results (refused (A:=LoggerState) e op p x).
Proof. unfold refused. steps_tac. audit_event. Qed.
#[local] Hint Resolve locked_no_result refused_no_result : s2p.

Lemma execute_no_result e c : steps no_new_results (hitl_execute (A:=LoggerState) e c).
Proof.
  destruct c as [op i body|i|]; cbn [hitl_execute]; unfold decide, get, list_pending, _fetch; steps_tac.
  all: audit_event.
Qed.

Lemma run_no_result e cs s outs s' : hitl_run e cs s = (outs, s') → no_new_results s s'.
Proof.
  revert s outs. induction cs as [|c cs IH]; intros s outs; cbn [hitl_run]; [intros [= _ <-]; reflexivity|].
  pose proof (execute_no_result e c s) as H1. destruct (hitl_execute e c s) as [r s1] eqn:E.
  destruct (hitl_run e cs s1) as [rs s2] eqn:E2. intros [= _ <-]. etransitivity; [exact H1|by eapply IH].
Qed.
End logger.

(** ** Properties *)

(** C20: Every decision that reaches Aegis was allowed and audited first. A call of [decide] sends
    Aegis at most one decision; if it sends one, the operator is an approver, the hold had no
    final decision and was open by the service's clock, an approval needed no second approver, was
    permitted without a distress score and waited out the cooling period, and the audit log
    holds a new [hitl.decision.attempt] record by that operator with exactly that request. The
    motor is sent something only for an approval that Aegis approved: that decision and the held
    signal. *)
Theorem decision_gated {A} `{AuditLog A, !AuditLaws A, !ReceiptLaw A} e op i body (s : Hitl A) r s' :
  decide e op i body s = (r, s') → audit_ok (h_audit s) →
  resolves s' = resolves s ∧ executes s' = executes s ∨
  ∃ decision reason rid answer held now,
    _parse_body body = Ok (decision, reason, rid) ∧
    let approve := str_eqb decision (u "APPROVE") in
    resolves s' = resolves s ++ [(decision_request e op i reason approve, answer)] ∧
    send_gates e op i approve (finals s) held now ∧
    (∃ q entry, entries (h_audit s) q = None ∧ entries (h_audit s') q = Some entry ∧
       says entry (u "hitl.decision.attempt") (op_sub op)
         (obj_set (attempt_payload op i decision reason rid) (u "via") (JStr (via e)))) ∧
    (executes s' = executes s ∨
     ∃ result ov, answer = Ok result ∧ approve = true ∧ d_decision (rs_decision result) = APPROVED_DECISION ∧
       executes s' = executes s ++ [relay_request result held ov]).
Proof.
  intros [[_ ->]|(decision & reason & rid & Hp & _ & H1)]%decide_inv Hok; [by left|].
  destruct H1 as [(reply & _ & [(_ & _ & S & X) _] & _)|(_ & q & s1 & He & F & S & X & L & _)]; [by left|].
  rewrite S, X. destruct He as [[_ [(_ & _ & S1 & X1) _]]|(held & now & answer & s2 & [_ L1] & Hg & Hatt & L2 & _ & Hs & Ha)];
    [by left|]. right.
  exists decision, reason, rid, answer, held, now. split; [done|]. cbv zeta. split_and!; try done.
  - destruct (Hatt Hok (attempt_dict _ _ _ _ _ _)) as (k & entry & Hn & He & Hsay).
    destruct (L1 Hok) as [Hok1 _]. destruct (L2 Hok1) as [Hok2 G2]. destruct (L Hok2) as [_ G3].
    exists k, entry. split_and!; auto.
  - destruct answer as [result|]; [|by left; apply Ha]. destruct Ha as [[Hx|(Hst & ov & Hx)] _]; [by left|].
    right. exists result, ov. unfold _hitl_status in Hst.
    destruct (str_eqb decision _); [|discriminate]. cbn [negb] in Hst.
    destruct (Z.eqb_spec (d_decision (rs_decision result)) APPROVED_DECISION); [by split_and!|discriminate].
Qed.

(** C21: A hold is decided at most once. Whatever requests come, in whatever order, Aegis answers
    at most one decision per hold and the book knows every one it answered; a final decision is
    never changed or forgotten while the service runs. This supposes, as gRPC documents of its
    stubs, that a call of the motor's stub raises nothing but an RpcError. *)
Theorem hold_decided_once {A} `{AuditLog A, !AuditLaws A, !ReceiptLaw A} e cs (s s' : Hitl A) outs :
  hitl_run e cs s = (outs, s') → book_ok s → stub_raises_rpc e →
  NoDup (answered (resolves s')) ∧ (∀ i, i ∈ answered (resolves s') ↔ is_Some (finals s' !! i)) ∧
  finals s ⊆ finals s'.
Proof. intros (HF & _ & _ & _ & HB)%hitl_run_progress Hb Hrpc. by destruct (HB Hrpc Hb). Qed.

(** A repeated request gets its first reply. Once a request was answered below 500, a later
    one by the same operator with the same request id - whatever hold, decision or reason it
    names, and whatever happened in between - gets the same reply, or 503 when the audit log
    fails; nothing is sent to Aegis or the motor and the book stays as it is. No other operator
    and no other request id shares its key. *)
Theorem replies_are_replayed {A} `{AuditLog A, !AuditLaws A, !ReceiptLaw A} e op i body decision reason rid
    cs op' i' body' decision' reason' (s s1 s2 s3 : Hitl A) reply outs r :
  _parse_body body = Ok (decision, reason, rid) → decide e op i body s = (Ok reply, s1) → reply.1 < 500 →
  hitl_run e cs s1 = (outs, s2) →
  op_sub op' = op_sub op → _parse_body body' = Ok (decision', reason', rid) → _check_hold_id i' = Ok tt →
  decide e op' i' body' s2 = (r, s3) →
  (r = Ok reply ∨ ∃ m, r = Raise (Exn (ApiError 503 (u "audit_unavailable")) m)) ∧ untouched s2 s3 ∧
  ∀ op2 body2 d2 r2 rid2, _parse_body body2 = Ok (d2, r2, rid2) → reply_key op2 rid2 = reply_key op rid →
    op_sub op2 = op_sub op ∧ rid2 = rid.
Proof.
  intros Hp E Hlt Er Hsub Hp' Hi' E'.
  assert (replies s1 !! reply_key op rid = Some reply) as Hk.
  { apply decide_inv in E as [[(x & [=] & _) _]|(d & rs & id & Hp2 & _ & H1)]. rewrite Hp in Hp2. injection Hp2 as <- <- <-.
    destruct H1 as [(reply' & Hk & [(_ & Hrep & _ & _) _] & [[= <-]|[m [=]]])|(_ & q & s0 & _ & _ & _ & _ & _ & _ & Hrep)];
      [by rewrite Hrep|].
    destruct Hrep as [[_ Hge]|(reply' & [= <-] & _ & ->)]; [specialize (Hge _ eq_refl); lia|apply lookup_insert_eq]. }
  apply hitl_run_progress in Er as (_ & Hrep & _). eapply lookup_weaken in Hk; [|exact Hrep].
  assert (reply_key op' rid = reply_key op rid) as Hkey by (unfold reply_key; by rewrite Hsub).
  rewrite <- Hkey in Hk. split_and!.
  3: { intros op2 body2 d2 r2 rid2 Hp2. apply reply_key_inj; by eapply parse_body_id. }
  all: apply decide_inv in E' as [[(x & _ & [Hx|Hx]) _]|(d & rs & id & Hp2 & _ & H1)]; [congruence..|].
  all: rewrite Hp' in Hp2; injection Hp2 as <- <- <-; rewrite Hk in H1;
    destruct H1 as [(reply' & [= <-] & [Hu _] & Hr)|[[=] _]]; done.
Qed.

(** The outcome of a decision never reaches the audit log. The [hitl.decision.result] payload
    carries the distress score as a float, which the logger refuses and the service ignores: over
    the hash-chained log, whatever requests come, no record of a result is ever added. *)
Theorem result_never_audited jsonb e cs (s s' : Hitl LoggerState) outs :
  hitl_run (H:=logger_log jsonb) e cs s = (outs, s') → jsonb_ok jsonb →
  audit_ok (AuditLog:=logger_log jsonb) (h_audit s) →
  ∀ row, row ∈ by_seq (table (l_db (h_audit s'))) → r_event_type row = u "hitl.decision.result" →
    row ∈ by_seq (table (l_db (h_audit s))).
Proof. intros E Hlaw Hok. by apply (run_no_result jsonb Hlaw _ _ _ _ _ E Hok). Qed.

(** ** The service at work *)

#[local] Instance hitl_sim_log : AuditLog LoggerState := logger_log loads.
#[local] Instance hitl_sim_laws : AuditLaws LoggerState := logger_laws loads loads_is_jsonb.
#[local] Instance hitl_sim_receipts : ReceiptLaw LoggerState := logger_receipts loads.

(** The status of a reply. *)
Definition status_of (r : Prelude.result (Z * json)) : Prelude.result Z := fst <$> r.
Definition zero_float : json := JFloat (u "0.5").
Definition sim_signal : Signal :=
  mkSignal (u "sig-1") (u "AAPL") 1000 1 5000000000 100000000000 0 0 0 0 zero_float zero_float zero_float
    zero_float zero_float zero_float 1 zero_float (u "strat-1") (u "buy the dip") (10 ^ 15).
Definition sim_held : HeldSignal := mkHeld (mkHoldDecision (u "hold-1") (10 ^ 15) 1000 [7] []) sim_signal.
Definition sim_policy : Policy := mkPolicy (D 10) (Some (D 10000)) (float_of_text (u "30")) true.
(** One hold, sixty seconds after Aegis decided; Aegis approves and the motor accepts. *)
Definition sim_hitl_env : HitlEnv :=
  mkHitlEnv (λ _ _, None) (λ _, Ok [sim_held])
    (λ _ i, if str_eqb i (u "hold-1") then Ok sim_held else raise (RpcError (u "NOT_FOUND")) [])
    (λ _ q, Ok (mkResolution (mkAegisDecision 1 (u "sig-1") None None) []))
    (Some (λ _ _, Ok (mkAck true (u "sig-1") (u "accepted") [] [])))
    (λ _, 60000000000) sim_policy (u "hitl-backend").
Definition sim_hitl : Hitl LoggerState :=
  mkHitl ∅ ∅ (mkLogger (mkDb [] [] []) [mkDatetime true 1000000; mkDatetime true 2000000] true) 0 [] [].
Definition sim_alice : Operator := mkOperator (u "alice") (u "approver") [u "pwd"; u "mfa"].
Definition sim_rid : pystr := u "123e4567-e89b-12d3-a456-426614174000".
Definition sim_rid2 : pystr := u "123e4567-e89b-12d3-a456-426614174001".
Definition sim_body (decision rid : pystr) : json :=
  JObj [ (u "decision", JStr decision); (u "reason", JStr (u "  within the mandate  "));
         (u "clientRequestId", JStr rid) ].

Lemma sim_hitl_ok : audit_ok (h_audit sim_hitl).
Proof. by split. Qed.

Lemma decision_gated_witness :
  ∃ r s', decide sim_hitl_env sim_alice (u "hold-1") (sim_body (u "APPROVE") sim_rid) sim_hitl = (r, s') ∧
    fst <$> r = Ok 200 ∧ length (executes s') = 1%nat ∧
    ∃ q entry, entries (h_audit s') q = Some entry ∧ n_event_type entry = u "hitl.decision.attempt" ∧
      n_actor entry = u "alice".
Proof.
  destruct (decide sim_hitl_env sim_alice (u "hold-1") (sim_body (u "APPROVE") sim_rid) sim_hitl) as [r s'] eqn:E.
  exists r, s'. split; [reflexivity|].
  assert ((λ x : Prelude.result (Z * json) * Hitl LoggerState, (fst <$> x.1, (length (executes x.2), length (resolves x.2))))
    (decide sim_hitl_env sim_alice (u "hold-1") (sim_body (u "APPROVE") sim_rid) sim_hitl) = (Ok 200, (1%nat, 1%nat)))
    as Hs by (vm_compute; reflexivity).
  rewrite E in Hs. cbn [fst snd] in Hs. injection Hs as H1 H2 H3. split; [exact H1|]. split; [exact H2|].
  destruct (decision_gated sim_hitl_env sim_alice (u "hold-1") (sim_body (u "APPROVE") sim_rid) sim_hitl r s' E sim_hitl_ok)
    as [[Hr _]|(d & rs & rid & a & held & now & _ & _ & _ & (q & entry & _ & He & Het & Hac & _) & _)].
  - rewrite Hr in H3. discriminate H3.
  - exists q, entry. split; [exact He|]. split; [exact Het|exact Hac].
Defined.

Definition sim_requests : list hitl_command :=
  [ Decide sim_alice (u "hold-1") (sim_body (u "APPROVE") sim_rid); Get (u "hold-1");
    Decide (mkOperator (u "bob") (u "approver") [u "mfa"]) (u "hold-1") (sim_body (u "REJECT") sim_rid2) ].

Lemma sim_stub : stub_raises_rpc sim_hitl_env.
Proof. intros call n req x H. injection H as <-. discriminate. Qed.

Lemma hold_decided_once_witness :
  ∃ outs s', hitl_run sim_hitl_env sim_requests sim_hitl = (outs, s') ∧
    status_of <$> outs = [Ok 200; Ok 200; Ok 409] ∧
    NoDup (answered (resolves s')) ∧ answered (resolves s') = [u "hold-1"].
Proof.
  destruct (hitl_run sim_hitl_env sim_requests sim_hitl) as [outs s'] eqn:E. exists outs, s'. split; [reflexivity|].
  assert ((λ x : list (Prelude.result (Z * json)) * Hitl LoggerState, (status_of <$> x.1, answered (resolves x.2)))
    (hitl_run sim_hitl_env sim_requests sim_hitl) = ([Ok 200; Ok 200; Ok 409], [u "hold-1"]))
    as Hs by (vm_compute; reflexivity).
  rewrite E in Hs. cbn [fst snd] in Hs. injection Hs as H1 H2. split; [exact H1|].
  split; [|exact H2].
  refine (proj1 (hold_decided_once sim_hitl_env sim_requests sim_hitl s' outs E _ sim_stub)).
  split; [apply NoDup_nil_2|]. intros i. split; [intros []%not_elem_of_nil|intros [x [=]]].
Defined.

Lemma replies_are_replayed_witness :
  ∃ reply s1 r s3,
    decide sim_hitl_env sim_alice (u "hold-1") (sim_body (u "REJECT") sim_rid) sim_hitl = (Ok reply, s1) ∧
    decide sim_hitl_env sim_alice (u "hold-2") (sim_body (u "APPROVE") sim_rid) s1 = (r, s3) ∧
    (r = Ok reply ∨ ∃ m, r = Raise (Exn (ApiError 503 (u "audit_unavailable")) m)) ∧ untouched s1 s3.
Proof.
  destruct (decide sim_hitl_env sim_alice (u "hold-1") (sim_body (u "REJECT") sim_rid) sim_hitl) as [q s1] eqn:E.
  assert (fst <$> (decide sim_hitl_env sim_alice (u "hold-1") (sim_body (u "REJECT") sim_rid) sim_hitl).1 = Ok 200)
    as Hs by (vm_compute; reflexivity).
  rewrite E in Hs. destruct q as [reply|]; [|discriminate Hs]. injection Hs as Hs.
  destruct (decide sim_hitl_env sim_alice (u "hold-2") (sim_body (u "APPROVE") sim_rid) s1) as [r s3] eqn:E3.
  exists reply, s1, r, s3. split; [reflexivity|]. split; [exact E3|].
  destruct (replies_are_replayed sim_hitl_env sim_alice (u "hold-1") (sim_body (u "REJECT") sim_rid) (u "REJECT")
    (u "within the mandate") sim_rid [] sim_alice (u "hold-2") (sim_body (u "APPROVE") sim_rid) (u "APPROVE")
    (u "within the mandate") sim_hitl s1 s1 s3 reply [] r) as (Hr & Hu & _).
  - vm_compute; reflexivity.
  - exact E.
  - rewrite Hs. reflexivity.
  - reflexivity.
  - reflexivity.
  - vm_compute; reflexivity.
  - vm_compute; reflexivity.
  - exact E3.
  - split; [exact Hr|exact Hu].
Defined.

Lemma result_never_audited_witness :
  ∃ outs s', hitl_run sim_hitl_env sim_requests sim_hitl = (outs, s') ∧
    r_event_type <$> by_seq (table (l_db (h_audit s'))) = [u "hitl.decision.attempt"; u "hitl.decision.denied"] ∧
    ∀ row, row ∈ by_seq (table (l_db (h_audit s'))) → r_event_type row ≠ u "hitl.decision.result".
Proof.
  destruct (hitl_run sim_hitl_env sim_requests sim_hitl) as [outs s'] eqn:E. exists outs, s'. split; [reflexivity|].
  split.
  - assert (r_event_type <$> by_seq (table (l_db (h_audit (hitl_run sim_hitl_env sim_requests sim_hitl).2)))
      = [u "hitl.decision.attempt"; u "hitl.decision.denied"]) as Hs by (vm_compute; reflexivity).
    rewrite E in Hs. exact Hs.
  - intros row Hin Het.
    exact (not_elem_of_nil row (result_never_audited loads sim_hitl_env sim_requests sim_hitl s' outs E loads_is_jsonb
      sim_hitl_ok row Hin Het)).
Defined.
