(* ===== verification/HitlServer.v ===== *)
(** * HITL backend: who may ask, and with what settings ([auth.py], [config.py], [__main__.py])

    The token check is a parameter with its options; the settings are read once and refused as a
    whole when anything is missing. The last part puts the settings and the service together. *)
From S2P Require Import Prelude PyStr PyFloat PyDecimal Json JsonFacts PyRepr PyTime AuditCanonical AuditChain.
From S2P Require Import SharpModels SharpGate SharpFacts SharpAudit MotorConfig ServerConfig Compliance Service.
From S2P Require Import Hitl HitlFacts HitlAudit.

(** ** auth.py *)

Definition ROLES : list pystr := [u "approver"; u "viewer"].
Definition _MAX_SUB : nat := 128.

Record Authenticator := mkAuth {
  au_secret : pystr; au_issuer : option pystr; au_audience : option pystr; au_service_token : option pystr }.

(** The arguments of [jwt.decode]. *)
Record JwtOptions := mkJwt {
  jo_algorithms : list pystr; jo_require : list pystr; jo_issuer : option pystr;
  jo_audience : option pystr; jo_verify_aud : bool }.

Definition auth_error {A} (status : Z) (code message : pystr) : result A := raise (AuthError status code) message.

(** [a.encode() == b.encode()], in constant time. *)
Definition same_bytes (a b : pystr) : result bool :=
  match utf8 a, utf8 b with
  | Some x, Some y => Ok (bool_decide (x = y))
  | _, _ => raise (OtherError (u "UnicodeEncodeError")) (u "surrogates not allowed")
  end.

(** [header.partition(" ")], without the separator. *)
Definition partition_space (s : pystr) : pystr * pystr :=
  match split_on 32 s with
  | [] => ([], [])
  | scheme :: rest => (scheme, join [32%N] rest)
  end.

(** [role in ROLES]: a list or a dict has no hash. *)
Definition in_roles (role : json) : result bool :=
  match role with
  | JArr _ | JObj _ => raise TypeError (u "unhashable type")
  | JStr r => Ok (bool_decide (r ∈ ROLES))
  | _ => Ok false
  end.

Section authenticate.
Context (jwt_decode : pystr → pystr → JwtOptions → result (list (pystr * json))) (is_pyjwt : exn_class → bool).

Definition jwt_options (a : Authenticator) : JwtOptions :=
  mkJwt [u "HS256"] [u "exp"; u "sub"] (au_issuer a) (au_audience a) (bool_decide (is_Some (au_audience a))).

Definition operator_of (claims : list (pystr * json)) : result Operator :=
  let get k := default JNull (obj_get claims k) in
  match get (u "sub") with
  | JStr sub =>
      if is_blank sub || (_MAX_SUB <? length sub)%nat then
        auth_error 401 (u "token_invalid") (u "token has no usable sub")
      else
        known ← in_roles (get (u "role"));
        match get (u "role") with
        | JStr role =>
            if negb known then auth_error 403 (u "role_not_allowed") (u "role must be approver or viewer")
            else match get (u "amr") with
            | JArr amr =>
                if negb (existsb (λ v, match v with JStr s => str_eqb s (u "mfa") | _ => false end) amr) then
                  auth_error 403 (u "mfa_required") (u "multi-factor authentication is required")
                else Ok (mkOperator sub role (plain_str <$> amr))
            | _ => auth_error 403 (u "mfa_required") (u "multi-factor authentication is required")
            end
        | _ => auth_error 403 (u "role_not_allowed") (u "role must be approver or viewer")
        end
  | _ => auth_error 401 (u "token_invalid") (u "token has no usable sub")
  end.

(** [headers.get(name) or ""]. *)
Definition authenticate (a : Authenticator) (headers : pystr → option pystr) : result Operator :=
  (match au_service_token a with
   | Some expected =>
       same ← same_bytes (default [] (headers (u "X-Service-Token"))) expected;
       if same : bool then Ok tt
       else auth_error 401 (u "service_token_invalid") (u "service token missing or invalid")
   | None => Ok tt
   end) ≫= λ _,
  let '(scheme, token) := partition_space (default [] (headers (u "Authorization"))) in
  if negb (str_eqb scheme (u "Bearer")) || is_blank token then
    auth_error 401 (u "token_missing") (u "bearer token required")
  else
    claims ← try_except (jwt_decode (strip token) (au_secret a) (jwt_options a)) is_pyjwt
               (λ x, auth_error 401 (u "token_invalid") (u "token rejected: " ++ exn_name (exn_kind x)));
    operator_of claims.
End authenticate.

(** ** config.py *)

Definition MIN_SECRET_LENGTH : nat := 32.
Definition PLACEHOLDER_FRAGMENTS : list pystr :=
  [ u "change-me"; u "change_me"; u "changeme"; u "replace-me"; u "replaceme"; u "placeholder";
    u "your-secret"; u "yoursecret"; u "example"; u "default"; u "password" ].
Definition _TRUE : list pystr := [u "1"; u "true"; u "yes"].

Record TlsFiles := mkTlsFiles { tf_ca : pystr; tf_cert : pystr; tf_key : pystr }.

Record Settings := mkSettings {
  production : bool; listen_host : pystr; listen_port : Z; jwt_secret : pystr;
  jwt_issuer : option pystr; jwt_audience : option pystr; service_token : option pystr;
  aegis_target : pystr; aegis_identity : pystr; aegis_tls : option TlsFiles; aegis_timeout_s : pyfloat;
  motor_target : option pystr; motor_tls : option TlsFiles; motor_timeout_s : pyfloat;
  four_eyes_quantity_threshold : decimal; four_eyes_notional_threshold_usd : option decimal;
  st_cooling_period_s : pyfloat; st_unscored_dev : bool; audit_actor : pystr }.

(** [env.get(name, "").strip() or None]. *)
Definition env_opt (env : environ) (name : pystr) : option pystr :=
  let v := env_get env name in if bool_decide (v = []) then None else Some v.

Definition is_none {A} (o : option A) : bool := match o with None => true | Some _ => false end.
Definition config_error {A} (msg : pystr) : result A := raise ConfigError msg.

Definition _check_secret (secret : pystr) : result unit :=
  if (length secret <? MIN_SECRET_LENGTH)%nat then
    config_error (u "HITL_JWT_SECRET must be at least 32 characters")
  else guard_raise (existsb (λ f, contains f (lower secret)) PLACEHOLDER_FRAGMENTS) ConfigError
         (u "HITL_JWT_SECRET looks like a placeholder").

Definition _listen (raw : pystr) : result (pystr * Z) :=
  let '(host, port) := rpartition 58 (strip raw) in
  match int_of_str port with
  | None => config_error (u "HITL_BACKEND_LISTEN must be host:port")
  | Some number =>
      if bool_decide (host = []) || negb ((0 <? number) && (number <? 65536)) then
        config_error (u "HITL_BACKEND_LISTEN must be host:port")
      else Ok (strip_set (u "[]") host, number)
  end.

Definition _tls (env : environ) (prefix : pystr) : result (option TlsFiles) :=
  let ca := env_get env (prefix ++ u "_CA") in
  let cert := env_get env (prefix ++ u "_CERT") in
  let key := env_get env (prefix ++ u "_KEY") in
  let set v := negb (bool_decide (v = [] :> pystr)) in
  if negb (set ca || set cert || set key) then Ok None
  else if negb (set ca && set cert && set key) then config_error (u "set all or none of the TLS files")
  else Ok (Some (mkTlsFiles ca cert key)).

(** [env.get(name, default).strip() or default]. *)
Definition env_or (env : environ) (name default_ : pystr) : pystr :=
  let v := strip (default default_ (env !! name)) in if bool_decide (v = []) then default_ else v.

(** The texts that [float] reads and [Decimal] does not are none; of those [Decimal] alone reads
    (NaN with a payload, sNaN) both answers are the refusal below. *)
Definition _float (env : environ) (name default_ : pystr) : result pyfloat :=
  let raw := env_or env name default_ in
  match dec_of_str raw with
  | None => config_error (name ++ u " must be a number")
  | Some _ => match float_of_text raw with
              | FFin m e => Ok (FFin m e)
              | _ => config_error (name ++ u " must be finite")
              end
  end.
Definition _positive (env : environ) (name default_ : pystr) : result pyfloat :=
  value ← _float env name default_;
  if negb (float_ltb (round_int 0) value) then config_error (name ++ u " must be positive") else Ok value.
Definition _non_negative (env : environ) (name default_ : pystr) : result pyfloat :=
  value ← _float env name default_;
  if float_ltb value (round_int 0) then config_error (name ++ u " must be >= 0") else Ok value.

Definition _decimal (env : environ) (name default_ : pystr) : result decimal :=
  match dec_of_str (env_or env name default_) with
  | None => config_error (name ++ u " must be a decimal number")
  | Some value =>
      if negb (is_finite value) then config_error (name ++ u " must be a finite number >= 0")
      else neg ← dlt value D_ZERO;
           if neg : bool then config_error (name ++ u " must be a finite number >= 0") else Ok value
  end.
Definition _optional_decimal (env : environ) (name : pystr) : result (option decimal) :=
  match env_opt env name with
  | None => Ok None
  | Some _ => d ← _decimal env name (u "0"); Ok (Some d)
  end.

Definition hitl_from_env (env : environ) : result Settings :=
  let production := bool_decide (lower (strip (default (u "production") (env !! u "HITL_ENV"))) ∈ [[]; u "production"]) in
  let secret := default [] (env !! u "HITL_JWT_SECRET") in
  _check_secret secret ≫= λ _,
  let issuer := env_opt env (u "HITL_JWT_ISSUER") in
  let audience := env_opt env (u "HITL_JWT_AUDIENCE") in
  guard_raise (production && (is_none issuer || is_none audience)) ConfigError
    (u "HITL_JWT_ISSUER and HITL_JWT_AUDIENCE are required in production") ≫= λ _,
  listen ← _listen (default (u "127.0.0.1:8090") (env !! u "HITL_BACKEND_LISTEN"));
  let target := env_get env (u "AEGIS_TARGET") in
  guard_raise (bool_decide (target = [])) ConfigError (u "AEGIS_TARGET (host:port) is required") ≫= λ _,
  let identity := env_get env (u "HITL_AEGIS_IDENTITY") in
  guard_raise (bool_decide (identity = [])) ConfigError (u "HITL_AEGIS_IDENTITY is required") ≫= λ _,
  aegis ← _tls env (u "HITL_AEGIS_TLS");
  let motor_target := env_opt env (u "MOTOR_TARGET") in
  motor ← _tls env (u "HITL_MOTOR_TLS");
  guard_raise (production && (is_none aegis || negb (is_none motor_target) && is_none motor))
    ConfigError (u "production requires mTLS material for Aegis (and the motor)") ≫= λ _,
  guard_raise (production && is_none motor_target) ConfigError
    (u "MOTOR_TARGET is required in production") ≫= λ _,
  let unscored := bool_decide (lower (env_get env (u "HITL_UNSCORED_DEV")) ∈ _TRUE) in
  guard_raise (production && unscored) ConfigError (u "HITL_UNSCORED_DEV is refused in production") ≫= λ _,
  let token := env_opt env (u "HITL_API_TOKEN") in
  guard_raise (match token with Some t => (length t <? 16)%nat | None => false end) ConfigError
    (u "HITL_API_TOKEN must be at least 16 characters when set") ≫= λ _,
  aegis_timeout ← _positive env (u "HITL_AEGIS_TIMEOUT_S") (u "2");
  motor_timeout ← _positive env (u "HITL_MOTOR_TIMEOUT_S") (u "2");
  quantity ← _decimal env (u "HITL_FOUR_EYES_QUANTITY_THRESHOLD") (u "0");
  notional ← _optional_decimal env (u "HITL_FOUR_EYES_NOTIONAL_THRESHOLD_USD");
  cooling ← _non_negative env (u "HITL_COOLING_PERIOD_S") (u "0");
  Ok (mkSettings production listen.1 listen.2 secret issuer audience token target identity aegis
        aegis_timeout motor_target motor motor_timeout quantity notional cooling unscored
        (env_or env (u "HITL_AUDIT_ACTOR") (u "hitl-backend"))).

(** ** [build] *)

Definition policy_of (st : Settings) : Policy :=
  mkPolicy (four_eyes_quantity_threshold st) (four_eyes_notional_threshold_usd st)
    (st_cooling_period_s st) (st_unscored_dev st).
Definition authenticator_of (st : Settings) : Authenticator :=
  mkAuth (jwt_secret st) (jwt_issuer st) (jwt_audience st) (service_token st).

(** ** Lemmas *)

Lemma obj_get_str m k s : default JNull (obj_get m k) = JStr s → obj_get m k = Some (JStr s).
Proof. destruct (obj_get m k); cbn; [by intros ->|done]. Qed.

Lemma operator_of_ok claims op :
  operator_of claims = Ok op →
  obj_get claims (u "sub") = Some (JStr (op_sub op)) ∧ is_blank (op_sub op) = false ∧
  (length (op_sub op) ≤ _MAX_SUB)%nat ∧
  obj_get claims (u "role") = Some (JStr (op_role op)) ∧ op_role op ∈ ROLES ∧ u "mfa" ∈ op_amr op.
Proof.
  unfold operator_of. intros E. destruct (default JNull (obj_get claims (u "sub"))) as [| | | |sub| |] eqn:Es; try discriminate.
  destruct (is_blank sub || _) eqn:Eb; [discriminate|]. apply orb_false_iff in Eb as [Eb El].
  apply bind_ok in E as (known & Hk & E).
  destruct (default JNull (obj_get claims (u "role"))) as [| | | |role| |] eqn:Er; try discriminate.
  injection Hk as <-. destruct (negb _) eqn:Ek; [discriminate|]. rewrite negb_false_iff, bool_decide_eq_true in Ek.
  destruct (default JNull (obj_get claims (u "amr"))) as [| | | | |amr|] eqn:Ea; try discriminate.
  destruct (negb _) eqn:Em; [discriminate|]. rewrite negb_false_iff in Em. apply existsb_exists in Em as (v & Hin & Hv).
  injection E as <-. cbn [op_sub op_role op_amr]. apply obj_get_str in Es, Er. apply Nat.ltb_ge in El.
  split_and!; try done. apply list_elem_of_In in Hin. destruct v as [| | | |s| |]; try discriminate.
  apply str_eqb_true in Hv as ->. apply list_elem_of_fmap. by exists (JStr (u "mfa")).
Qed.

Lemma hitl_from_env_production env st :
  hitl_from_env env = Ok st → production st = true →
  is_Some (jwt_issuer st) ∧ is_Some (jwt_audience st) ∧ is_Some (aegis_tls st) ∧
  is_Some (motor_target st) ∧ is_Some (motor_tls st) ∧ st_unscored_dev st = false.
Proof.
  unfold hitl_from_env. intros E Hp. ok_inv. subst st. cbn [production jwt_issuer jwt_audience aegis_tls motor_target
    motor_tls st_unscored_dev] in *.
  rewrite Hp in *. cbn [andb] in *. unfold is_none in *.
  repeat match goal with H : (_ || _) = false |- _ => apply orb_false_iff in H as [? ?] end.
  split_and!; repeat case_match; try done.
Qed.

Lemma hitl_status_approved d approve : _hitl_status d approve = u "APPROVED" → approve = true.
Proof. unfold _hitl_status. by destruct approve. Qed.

(** No approval was sent, and nothing to the motor. *)
Definition only_rejections {A} (s s' : Hitl A) : Prop :=
  executes s' = executes s ∧ ∃ new, resolves s' = resolves s ++ new ∧ Forall (λ x, rq_approve x.1 = false) new.

#[local] Instance only_rejections_preorder {A} : PreOrder (only_rejections (A:=A)).
Proof.
  split; [intros s; split; [done|exists []; by rewrite app_nil_r]|].
  intros s1 s2 s3 (X1 & n1 & R1 & F1) (X2 & n2 & R2 & F2). split; [congruence|].
  exists (n1 ++ n2). rewrite R2, R1, app_assoc. split; [done|]. by apply Forall_app.
Qed.

Section unscored.
Context {A : Type} `{AuditLog A, !AuditLaws A, !ReceiptLaw A} (e : HitlEnv) (no_score_dev : unscored_dev (policy e) = false).

Lemma calm_only_rejections (s s' : Hitl A) : calm s s' → only_rejections s s'.
Proof. intros [(_ & _ & S & X) _]. split; [done|]. exists []. by rewrite S, app_nil_r. Qed.

Lemma execute_only_rejections c (s : Hitl A) r s' : hitl_execute e c s = (r, s') → only_rejections s s'.
Proof.
  destruct c as [op i body|i|]; cbn [hitl_execute].
  - intros [[_ ->]|(d & rs & rid & _ & _ & H1)]%decide_inv; [reflexivity|].
    destruct H1 as [(reply & _ & C & _)|(_ & q & s1 & He & _ & S & X & _)]; [by apply calm_only_rejections|].
    unfold only_rejections. rewrite S, X.
    destruct He as [[_ C]|(held & now & answer & s2 & _ & Hg & _ & _ & _ & Hs & Ha)]; [by apply calm_only_rejections|].
    destruct Hg as (_ & _ & _ & _ & _ & _ & Hg). destruct (str_eqb d (u "APPROVE")).
    { destruct (Hg eq_refl) as (_ & Hu & _). congruence. }
    split; [|eexists; split; [exact Hs|]; by apply List.Forall_cons].
    destruct answer as [result|x]; [|by apply Ha]. by destruct Ha as [[Hx|[Hst _]] _]; [|apply hitl_status_approved in Hst].
  - intros E. apply calm_only_rejections. revert E. apply calm_step. pose proof (get_calm e i). steps_tac.
  - intros E. apply calm_only_rejections. revert E. apply calm_step. pose proof (list_pending_calm (A:=A) e). steps_tac.
Qed.

Lemma run_only_rejections cs (s : Hitl A) outs s' : hitl_run e cs s = (outs, s') → only_rejections s s'.
Proof.
  revert s outs. induction cs as [|c cs IH]; intros s outs; cbn [hitl_run]; [intros [= _ <-]; reflexivity|].
  destruct (hitl_execute e c s) as [r s1] eqn:E. destruct (hitl_run e cs s1) as [rs s2] eqn:E2. intros [= _ <-].
  etransitivity; [by eapply execute_only_rejections|by eapply IH].
Qed.
End unscored.

(** ** Properties *)

(** In production no hold is ever released by this service. Settings that are accepted in
    production have an issuer, an audience, mutual TLS to Aegis and to a configured motor, and do
    not allow unscored approvals - and with them, whatever requests come, every decision sent to
    Aegis is a rejection and the motor is sent nothing. *)
Theorem production_never_approves {A} `{AuditLog A, !AuditLaws A, !ReceiptLaw A} env st e cs (s s' : Hitl A) outs :
  hitl_from_env env = Ok st → production st = true → policy e = policy_of st →
  hitl_run e cs s = (outs, s') →
  (is_Some (jwt_issuer st) ∧ is_Some (jwt_audience st) ∧ is_Some (aegis_tls st) ∧
   is_Some (motor_target st) ∧ is_Some (motor_tls st)) ∧
  executes s' = executes s ∧
  ∃ new, resolves s' = resolves s ++ new ∧ Forall (λ x, rq_approve x.1 = false) new.
Proof.
  intros E Hp He Hr. destruct (hitl_from_env_production _ _ E Hp) as (? & ? & ? & ? & ? & Hu).
  split; [by split_and!|]. eapply run_only_rejections; [|exact Hr]. by rewrite He.
Qed.

(** An operator is who the token says. When [authenticate] returns an operator, the service
    token (if one is set) was given exactly, and the bearer token was verified by [jwt.decode] with
    the configured secret, HS256 only, requiring [exp] and [sub] and the configured issuer and
    audience; the claims name a known role and multi-factor authentication, and the operator is the
    token's non-blank [sub]. *)
Theorem operator_is_verified jwt_decode is_pyjwt a headers op :
  authenticate jwt_decode is_pyjwt a headers = Ok op →
  (∀ t, au_service_token a = Some t → default [] (headers (u "X-Service-Token")) = t) ∧
  ∃ token claims,
    partition_space (default [] (headers (u "Authorization"))) = (u "Bearer", token) ∧
    jwt_decode (strip token) (au_secret a) (jwt_options a) = Ok claims ∧
    jo_algorithms (jwt_options a) = [u "HS256"] ∧ jo_require (jwt_options a) = [u "exp"; u "sub"] ∧
    obj_get claims (u "sub") = Some (JStr (op_sub op)) ∧ is_blank (op_sub op) = false ∧
    (length (op_sub op) ≤ _MAX_SUB)%nat ∧
    obj_get claims (u "role") = Some (JStr (op_role op)) ∧ op_role op ∈ ROLES ∧ u "mfa" ∈ op_amr op.
Proof.
  unfold authenticate. intros E. apply bind_ok in E as ([] & Ht & E). split.
  - intros t Hat. rewrite Hat in Ht. apply bind_ok in Ht as (same & Hs & Ht). unfold same_bytes in Hs.
    destruct (utf8 (default [] _)) as [x|] eqn:E1; [|discriminate].
    destruct (utf8 t) as [y|] eqn:E2; [|discriminate]. ok_inv. destruct same; [|discriminate].
    apply bool_decide_eq_true in Hs as ->. by eapply utf8_inj.
  - destruct (partition_space _) as [scheme token]. destruct (negb _ || _) eqn:Eb; [discriminate|].
    apply orb_false_iff in Eb as [Eb _]. rewrite negb_false_iff, str_eqb_true in Eb. subst scheme.
    apply bind_ok in E as (claims & Hc & Ho). exists token, claims. split; [done|].
    assert (jwt_decode (strip token) (au_secret a) (jwt_options a) = Ok claims) as Hd.
    { unfold try_except in Hc. destruct (jwt_decode _ _ _); [done|]. by destruct (is_pyjwt _). }
    split; [done|]. split; [done|]. split; [done|]. by apply operator_of_ok.
Qed.

(** ** A deployment *)

Definition sim_hitl_settings : environ :=
  list_to_map
    [ (u "HITL_JWT_SECRET", u "0123456789abcdef0123456789abcdef"); (u "HITL_JWT_ISSUER", u "afe");
      (u "HITL_JWT_AUDIENCE", u "hitl"); (u "AEGIS_TARGET", u "aegis:50051");
      (u "HITL_AEGIS_IDENTITY", u "hitl-backend");
      (u "HITL_AEGIS_TLS_CA", u "/ca"); (u "HITL_AEGIS_TLS_CERT", u "/crt"); (u "HITL_AEGIS_TLS_KEY", u "/key");
      (u "MOTOR_TARGET", u "motor:50061");
      (u "HITL_MOTOR_TLS_CA", u "/ca"); (u "HITL_MOTOR_TLS_CERT", u "/crt"); (u "HITL_MOTOR_TLS_KEY", u "/key");
      (u "HITL_FOUR_EYES_QUANTITY_THRESHOLD", u "1000") ].
Definition with_policy (p : Policy) (e : HitlEnv) : HitlEnv :=
  mkHitlEnv (names e) (holds_list e) (holds_get e) (holds_resolve e) (relay e) (hitl_clock e) p (via e).

#[local] Instance server_sim_log : AuditLog LoggerState := logger_log loads.
#[local] Instance server_sim_laws : AuditLaws LoggerState := logger_laws loads loads_is_jsonb.
#[local] Instance server_sim_receipts : ReceiptLaw LoggerState := logger_receipts loads.

Lemma production_never_approves_witness :
  ∃ st outs s', hitl_from_env sim_hitl_settings = Ok st ∧ production st = true ∧
    hitl_run (with_policy (policy_of st) sim_hitl_env) sim_requests sim_hitl = (outs, s') ∧
    status_of <$> outs = [Ok 422; Ok 200; Ok 200] ∧ executes s' = [].
Proof.
  destruct (hitl_from_env sim_hitl_settings) as [st|] eqn:E; [|vm_compute in E; discriminate E].
  assert ((λ st, (production st, policy_of st)) <$> hitl_from_env sim_hitl_settings
    = Ok (true, mkPolicy (D 1000) None (FFin 0 0) false)) as Hs by (vm_compute; reflexivity).
  rewrite E in Hs. injection Hs as Hp P1 P2 P3 P4.
  destruct (hitl_run (with_policy (policy_of st) sim_hitl_env) sim_requests sim_hitl) as [outs s'] eqn:Er.
  exists st, outs, s'. split; [reflexivity|]. split; [exact Hp|]. split; [exact Er|].
  destruct (production_never_approves sim_hitl_settings st (with_policy (policy_of st) sim_hitl_env) sim_requests
    sim_hitl s' outs E Hp eq_refl Er) as (_ & Hx & _).
  split; [|exact Hx].
  assert (status_of <$> (hitl_run (with_policy (mkPolicy (D 1000) None (FFin 0 0) false) sim_hitl_env) sim_requests
    sim_hitl).1 = [Ok 422; Ok 200; Ok 200]) as Ho by (vm_compute; reflexivity).
  assert (policy_of st = mkPolicy (D 1000) None (FFin 0 0) false) as Hpo by (unfold policy_of; rewrite P1, P2, P3, P4; reflexivity).
  rewrite <- Hpo, Er in Ho. exact Ho.
Defined.

Definition sim_claims : list (pystr * json) :=
  [ (u "sub", JStr (u "alice")); (u "role", JStr (u "approver")); (u "amr", JArr [JStr (u "pwd"); JStr (u "mfa")]) ].
Definition sim_headers (name : pystr) : option pystr :=
  if str_eqb name (u "Authorization") then Some (u "Bearer a.b.c") else None.

Lemma operator_is_verified_witness :
  ∃ op, authenticate (λ _ _ _, Ok sim_claims) (λ _, false) (mkAuth (u "s") None None None) sim_headers = Ok op ∧
    op_sub op = u "alice" ∧ op_role op ∈ ROLES ∧ u "mfa" ∈ op_amr op.
Proof.
  destruct (authenticate (λ _ _ _, Ok sim_claims) (λ _, false) (mkAuth (u "s") None None None) sim_headers)
    as [op|] eqn:E; [|vm_compute in E; discriminate E].
  exists op. split; [reflexivity|].
  assert (op_sub <$> authenticate (λ _ _ _, Ok sim_claims) (λ _, false) (mkAuth (u "s") None None None) sim_headers
    = Ok (u "alice")) as Hs by (vm_compute; reflexivity).
  rewrite E in Hs. injection Hs as Hs. split; [exact Hs|].
  destruct (operator_is_verified (λ _ _ _, Ok sim_claims) (λ _, false) (mkAuth (u "s") None None None) sim_headers op E)
    as (_ & token & claims & H). exact (proj2 (proj2 (proj2 (proj2 (proj2 (proj2 (proj2 (proj2 H)))))))).
Defined.
