(* ===== verification/Refdata.v ===== *)
(** * Reference-data bridge ([refdata_bridge]: mapping.py, batch.py, aegis_client.py, service.py, health.py)

    Messages of the two Redis channels become snapshots and labels or are refused; the batch state
    keeps the newest per symbol and what Aegis took last; a push cycle sends what is newer. A
    cycle awaits Aegis in its middle, and messages arrive meanwhile: its start and its end are
    two steps of the model. *)
From Stdlib Require Import Sorted.
From S2P Require Import Prelude PyStr PyFloat PyDecimal Json.

(** ** mapping.py *)

Definition symbol_char (c : N) : bool := is_upper c || one_of [46; 45]%N c.
Definition symbol_ok (s : pystr) : bool := class_rep symbol_char 1 10 s.

Definition KNOWN_REGIME_LABELS : list pystr :=
  [ u "REGIME_UNKNOWN"; u "TRENDING_BULL"; u "TRENDING_BEAR"; u "HIGH_VOL_CHOP"; u "LOW_VOL_CHOP"; u "CRISIS" ].
Definition _NANOS : decimal := D 1000000000.

Definition mapping_error {A} (msg : pystr) : result A := raise MappingError msg.

(** [isinstance(v, int)]: a bool is one. *)
Definition int_of (v : json) : option Z :=
  match v with JInt z => Some z | JBool b => Some (if b then 1 else 0) | _ => None end.

(** [math.isfinite(v)] of an int or a float; an int beyond the floats raises. *)
Definition isfinite (v : json) : result bool :=
  match v with
  | JInt z => match round_int z with
              | FFin _ _ => Ok true
              | _ => raise (OtherError (u "OverflowError")) (u "int too large to convert to float")
              end
  | JFloat t => Ok (match float_of_text t with FFin _ _ => true | _ => false end)
  | JBool _ => Ok true
  | _ => Ok false
  end.

(** [str(v)] of a number. *)
Definition number_text (v : json) : pystr :=
  match v with
  | JInt z => str_of_Z z | JFloat t => float_str t | JBool b => if b then u "True" else u "False"
  | _ => []
  end.

Definition to_nanos (value : json) (name : pystr) : result Z :=
  finite ← isfinite value;
  if negb finite then mapping_error (name ++ u " is not a finite number")
  else match dec_of_str (number_text value) with
  | None => mapping_error (name ++ u " is not a valid decimal")
  | Some d =>
      neg ← dlt d D_ZERO;
      if neg : bool then mapping_error (name ++ u " must not be negative")
      else scaled ← dmul d _NANOS; to_integral_int scaled
  end.

Record ReferenceSnapshotData := mkSnapshotData {
  rs_symbol : pystr; rs_mid_price_nanos : Z; rs_adv_30d_nanos : Z; rs_as_of_ns : Z; rs_is_stale : bool }.
Record RegimeLabelData := mkRegime {
  rl_symbol : pystr; rl_label : pystr; rl_confidence : pyfloat; rl_timestamp_ns : Z; rl_state_index : Z }.

(** [bool(v)] of decoded JSON. *)
Definition plain_bool (v : json) : bool :=
  match v with
  | JNull => false | JBool b => b | JInt z => negb (z =? 0)
  | JFloat t => negb (float_eqb (float_of_text t) (float_of_int 0))
  | JStr s => negb (bool_decide (s = [])) | JArr l => negb (length l =? 0)%nat
  | JObj m => negb (length m =? 0)%nat
  end.

(** [payload.get(k)]; what is not a dict has no [get]. *)
Definition payload_items (payload : json) : result (list (pystr * json)) :=
  match payload with JObj m => Ok m | _ => raise (OtherError (u "AttributeError")) (u "no attribute 'get'") end.

Definition checked_symbol (v : json) : result pystr :=
  match v with
  | JStr s => if symbol_ok s then Ok s else mapping_error (u "invalid or missing symbol")
  | _ => mapping_error (u "invalid or missing symbol")
  end.
Definition positive_int (v : json) (msg : pystr) : result Z :=
  match int_of v with
  | Some z => if z <=? 0 then mapping_error msg else Ok z
  | None => mapping_error msg
  end.

Definition parse_snapshot (payload : json) (now_ns stale_after_ns : Z) : result ReferenceSnapshotData :=
  items ← payload_items payload;
  let get k := default JNull (obj_get items k) in
  symbol ← checked_symbol (get (u "symbol"));
  as_of_ns ← positive_int (get (u "ingestion_ts_ns")) (u "invalid or missing ingestion_ts_ns");
  match get (u "mid_price"), get (u "adv_30d") with
  | JNull, _ | _, JNull => mapping_error (u "snapshot missing mid_price or adv_30d")
  | mid_price, adv_30d =>
      mid_price_nanos ← to_nanos mid_price (u "mid_price");
      adv_30d_nanos ← to_nanos adv_30d (u "adv_30d");
      if (mid_price_nanos <=? 0) || (adv_30d_nanos <=? 0) then
        mapping_error (u "mid_price and adv_30d must be strictly positive")
      else
        let source_stale := plain_bool (default (JBool false) (obj_get items (u "is_stale"))) in
        let warmup := plain_bool (default (JBool true) (obj_get items (u "warmup"))) in
        let age_ns := now_ns - as_of_ns in
        let clock_stale := (age_ns <? 0) || (stale_after_ns <? age_ns) in
        Ok (mkSnapshotData symbol mid_price_nanos adv_30d_nanos as_of_ns (source_stale || warmup || clock_stale))
  end.

(** The float a number denotes. *)
Definition float_value (v : json) : pyfloat :=
  match v with JInt z => round_int z | JFloat t => float_of_text t | JBool b => round_int (if b then 1 else 0) | _ => FNaN end.
(** [0.0 <= v <= 1.0], exact. *)
Definition unit_interval (v : json) : bool :=
  let f := match v with JInt z => float_of_int z | _ => float_value v end in
  negb (float_ltb f (round_int 0)) && negb (float_ltb (round_int 1) f).

Definition parse_regime (payload : json) : result RegimeLabelData :=
  items ← payload_items payload;
  let get k := default JNull (obj_get items k) in
  symbol ← checked_symbol (get (u "symbol"));
  match get (u "label") with
  | JStr label =>
      if negb (bool_decide (label ∈ KNOWN_REGIME_LABELS)) then mapping_error (u "unknown or missing regime label")
      else
        let confidence := get (u "confidence") in
        finite ← isfinite confidence;
        if negb finite then mapping_error (u "confidence is not a finite number")
        else if negb (unit_interval confidence) then mapping_error (u "confidence outside [0, 1]")
        else
          ts_ns ← positive_int (get (u "ts_ns")) (u "invalid or missing ts_ns");
          Ok (mkRegime symbol label (float_value confidence) ts_ns 0)
  | _ => mapping_error (u "unknown or missing regime label")
  end.

(** ** batch.py *)

(** A dict in insertion order. *)
Section dict.
Context {V : Type}.
Fixpoint dict_get (d : list (pystr * V)) (k : pystr) : option V :=
  match d with [] => None | (k', v) :: d => if str_eqb k k' then Some v else dict_get d k end.
Fixpoint dict_set (d : list (pystr * V)) (k : pystr) (v : V) : list (pystr * V) :=
  match d with
  | [] => [(k, v)]
  | (k', v') :: d => if str_eqb k k' then (k', v) :: d else (k', v') :: dict_set d k v
  end.

(** [list.sort(key=...)]: stable. *)
Context (key : V → Z).
Fixpoint sort_insert (x : V) (l : list V) : list V :=
  match l with [] => [x] | y :: l' => if key x <=? key y then x :: l else y :: sort_insert x l' end.
Definition sort_by : list V → list V := foldr sort_insert [].
End dict.

Record PendingBatch := mkBatch { pb_snapshots : list ReferenceSnapshotData; pb_regimes : list RegimeLabelData }.
Definition is_empty (b : PendingBatch) : bool :=
  match pb_snapshots b, pb_regimes b with [], [] => true | _, _ => false end.

Record BatchState := mkState {
  _latest : list (pystr * ReferenceSnapshotData); _last_pushed_as_of : list (pystr * Z);
  _latest_regimes : list (pystr * RegimeLabelData); _last_pushed_regime_ts : list (pystr * Z) }.

Definition record_snapshot (data : ReferenceSnapshotData) (s : BatchState) : BatchState :=
  match dict_get (_latest s) (rs_symbol data) with
  | Some current =>
      if rs_as_of_ns data <? rs_as_of_ns current then s
      else mkState (dict_set (_latest s) (rs_symbol data) data) (_last_pushed_as_of s)
             (_latest_regimes s) (_last_pushed_regime_ts s)
  | None => mkState (dict_set (_latest s) (rs_symbol data) data) (_last_pushed_as_of s)
              (_latest_regimes s) (_last_pushed_regime_ts s)
  end.

Definition record_regime (data : RegimeLabelData) (s : BatchState) : BatchState :=
  match dict_get (_latest_regimes s) (rl_symbol data) with
  | Some current =>
      if rl_timestamp_ns data <? rl_timestamp_ns current then s
      else mkState (_latest s) (_last_pushed_as_of s)
             (dict_set (_latest_regimes s) (rl_symbol data) data) (_last_pushed_regime_ts s)
  | None => mkState (_latest s) (_last_pushed_as_of s)
              (dict_set (_latest_regimes s) (rl_symbol data) data) (_last_pushed_regime_ts s)
  end.

(** [.get(symbol, 0)]. *)
Definition watermark (d : list (pystr * Z)) (symbol : pystr) : Z := default 0 (dict_get d symbol).

Definition due_snapshots (s : BatchState) : list ReferenceSnapshotData :=
  sort_by rs_as_of_ns
    (snd <$> filter (λ x, watermark (_last_pushed_as_of s) x.1 < rs_as_of_ns x.2) (_latest s)).
Definition due_regimes (s : BatchState) : list RegimeLabelData :=
  sort_by rl_timestamp_ns
    (snd <$> filter (λ x, watermark (_last_pushed_regime_ts s) x.1 < rl_timestamp_ns x.2) (_latest_regimes s)).

(** [l[:n]]: a negative bound counts from the end. *)
Definition slice_z {V} (n : Z) (l : list V) : list V :=
  take (Z.to_nat (if n <? 0 then Z.of_nat (length l) + n else n)) l.

Definition build_batch (max_snapshots : Z) (max_regimes : option Z) (s : BatchState) : PendingBatch :=
  mkBatch (slice_z max_snapshots (due_snapshots s)) (slice_z (default max_snapshots max_regimes) (due_regimes s)).

Definition mark_symbol (s : BatchState) (symbol : pystr) : BatchState :=
  match dict_get (_latest s) symbol with
  | Some snap => mkState (_latest s) (dict_set (_last_pushed_as_of s) symbol (rs_as_of_ns snap))
                   (_latest_regimes s) (_last_pushed_regime_ts s)
  | None => s
  end.
Definition mark_regime (s : BatchState) (regime : RegimeLabelData) : BatchState :=
  mkState (_latest s) (_last_pushed_as_of s) (_latest_regimes s)
    (dict_set (_last_pushed_regime_ts s) (rl_symbol regime)
       (Z.max (watermark (_last_pushed_regime_ts s) (rl_symbol regime)) (rl_timestamp_ns regime))).
Definition mark_applied (applied_symbols : list pystr) (applied_regimes : list RegimeLabelData) (s : BatchState)
  : BatchState :=
  fold_left mark_regime applied_regimes (fold_left mark_symbol applied_symbols s).

Definition known_symbols (s : BatchState) : Z := Z.of_nat (length (_latest s)).

(** ** aegis_client.py *)

Definition REGIME_KEY_PREFIX : pystr := u "regime:".
Record Rejection := mkRejection { rj_key : pystr; rj_reason : pystr }.
Record PushResult := mkPushResult {
  applied_snapshot_symbols : list pystr; applied_regimes : list RegimeLabelData; rejected : list Rejection }.
(** [PushReferenceDataResponse]. *)
Record PushResponse := mkPushResponse { rejections : list Rejection; applied_symbol_regimes : Z }.

Definition _parse_response (r : PushResponse) (batch : PendingBatch) : PushResult :=
  let rejected_keys := rj_key <$> rejections r in
  let symbols := filter (λ k, k ∉ rejected_keys) (rs_symbol <$> pb_snapshots batch) in
  let regimes := filter (λ x, (REGIME_KEY_PREFIX ++ rl_symbol x) ∉ rejected_keys) (pb_regimes batch) in
  let regimes := if Z.of_nat (length regimes) =? applied_symbol_regimes r then regimes else [] in
  mkPushResult symbols regimes (rejections r).

(** ** health.py *)

Record HealthState := mkHealthState {
  last_success_ns : option Z; last_attempt_ns : option Z; last_error : option pystr }.
Definition record_success (now_ns : Z) (h : HealthState) : HealthState := mkHealthState (Some now_ns) (Some now_ns) None.
Definition record_failure (now_ns : Z) (error : pystr) (h : HealthState) : HealthState :=
  mkHealthState (last_success_ns h) (Some now_ns) (Some error).

(** ** service.py *)

(** [on_snapshot_message]: refused messages are dropped, any other exception leaves the handler. *)
Definition is_refusal (c : exn_class) : bool := bool_decide (c = MappingError).

Definition on_snapshot_message (raw : pystr) (now_ns stale_after_ns : Z) (s : BatchState) : result BatchState :=
  match loads raw with
  | None => Ok s
  | Some payload =>
      try_except (snapshot ← parse_snapshot payload now_ns stale_after_ns; Ok (record_snapshot snapshot s))
        is_refusal (λ _, Ok s)
  end.
Definition on_regime_message (raw : pystr) (s : BatchState) : result BatchState :=
  match loads raw with
  | None => Ok s
  | Some payload =>
      try_except (regime ← parse_regime payload; Ok (record_regime regime s)) is_refusal (λ _, Ok s)
  end.

(** The bridge: its batch state, its health, the batch Aegis is being awaited for with the time of
    the cycle, and the batches Aegis answered with the items it took (oldest first). *)
Record Bridge := mkBridge {
  b_state : BatchState; b_health : HealthState; b_inflight : option (PendingBatch * Z);
  b_applied : list (list ReferenceSnapshotData * list RegimeLabelData) }.

(** Settings of the service. *)
Record BridgeConfig := mkBridgeConfig { max_batch_snapshots : Z; snapshot_stale_after_ns : Z }.

(** [_push_once] up to [await self._client.push(batch)]. *)
Definition push_start (c : BridgeConfig) (now_ns : Z) (b : Bridge) : Bridge :=
  let batch := build_batch (max_batch_snapshots c) None (b_state b) in
  if is_empty batch then b
  else mkBridge (b_state b) (b_health b) (Some (batch, now_ns)) (b_applied b).

(** The rest of it: [Raise] is any failure of the call, a PushError. *)
Definition push_end (answer : result PushResponse) (b : Bridge) : Bridge :=
  match b_inflight b with
  | None => b
  | Some (batch, now_ns) =>
      match answer with
      | Raise x => mkBridge (b_state b) (record_failure now_ns (exn_msg x) (b_health b)) None (b_applied b)
      | Ok response =>
          let result := _parse_response response batch in
          mkBridge (mark_applied (applied_snapshot_symbols result) (applied_regimes result) (b_state b))
            (record_success now_ns (b_health b)) None
            (b_applied b ++ [(filter (λ s, rs_symbol s ∈ applied_snapshot_symbols result) (pb_snapshots batch),
                              applied_regimes result)])
      end
  end.

(** What can happen; a push cycle starts only when the last one ended. *)
Inductive bridge_event :=
  | SnapshotMessage (raw : pystr) (now_ns : Z)
  | RegimeMessage (raw : pystr)
  | PushStart (now_ns : Z)
  | PushEnd (answer : result PushResponse).

Definition bridge_step (c : BridgeConfig) (b : Bridge) (ev : bridge_event) : Bridge :=
  let keep (r : result BatchState) :=
    match r with Ok s => mkBridge s (b_health b) (b_inflight b) (b_applied b) | Raise _ => b end in
  match ev with
  | SnapshotMessage raw now_ns => keep (on_snapshot_message raw now_ns (snapshot_stale_after_ns c) (b_state b))
  | RegimeMessage raw => keep (on_regime_message raw (b_state b))
  | PushStart now_ns => match b_inflight b with None => push_start c now_ns b | Some _ => b end
  | PushEnd answer => push_end answer b
  end.
Definition bridge_run (c : BridgeConfig) (evs : list bridge_event) (b : Bridge) : Bridge :=
  fold_left (bridge_step c) evs b.

Definition fresh_bridge : Bridge := mkBridge (mkState [] [] [] []) (mkHealthState None None None) None [].

(** ** Lemmas *)

Lemma dict_get_set {V} (d : list (pystr * V)) k v k' :
  dict_get (dict_set d k v) k' = if str_eqb k' k then Some v else dict_get d k'.
Proof.
  induction d as [|[k2 v2] d IH]; [done|]. cbn. destruct (str_eqb k k2) eqn:E1; cbn.
  - apply str_eqb_true in E1 as ->. by destruct (str_eqb k' k2).
  - destruct (str_eqb k' k2) eqn:E2; [|done]. apply str_eqb_true in E2 as ->.
    destruct (str_eqb k2 k) eqn:E3; [|done]. apply str_eqb_true in E3 as ->. by rewrite str_eqb_refl in E1.
Qed.

Lemma dict_get_in {V} (d : list (pystr * V)) k v : dict_get d k = Some v → (k, v) ∈ d.
Proof.
  induction d as [|[k' v'] d IH]; cbn; [done|]. destruct (str_eqb k k') eqn:E; [|by right; auto].
  apply str_eqb_true in E as ->. intros [= ->]. by left.
Qed.

Lemma sort_insert_perm {V} (key : V → Z) x l : sort_insert key x l ≡ₚ x :: l.
Proof. induction l as [|y l IH]; cbn; [done|]. destruct (_ <=? _); [done|]. rewrite IH. by constructor. Qed.
Lemma sort_by_perm {V} (key : V → Z) l : sort_by key l ≡ₚ l.
Proof. induction l as [|x l IH]; cbn; [done|]. by rewrite sort_insert_perm, IH. Qed.

(** The newest timestamp of a symbol among some labels, 0 when there is none. *)
Definition newest (sym : pystr) (l : list RegimeLabelData) : Z :=
  foldr Z.max 0 (rl_timestamp_ns <$> filter (λ r, rl_symbol r = sym) l).

Lemma newest_app sym l k : newest sym (l ++ k) = Z.max (newest sym l) (newest sym k).
Proof.
  unfold newest. rewrite filter_app, fmap_app. generalize (rl_timestamp_ns <$> filter (λ r, rl_symbol r = sym) l) as a.
  intros a. induction a as [|x a IH]; cbn; [|lia].
  induction (rl_timestamp_ns <$> _) as [|y b IHb]; cbn; lia.
Qed.

Lemma newest_below sym l z : (∀ r, r ∈ l → rl_symbol r = sym → rl_timestamp_ns r < z) → 0 < z → newest sym l < z.
Proof.
  intros Hl Hz. unfold newest. induction l as [|r l IH]; [done|]. rewrite filter_cons.
  assert (foldr Z.max 0 (rl_timestamp_ns <$> filter (λ r, rl_symbol r = sym) l) < z) by (apply IH; intros; apply Hl; [by right|done]).
  case_decide; cbn; [|done]. assert (rl_timestamp_ns r < z) by (apply Hl; [by left|done]). lia.
Qed.

Lemma watermark_set d k v k' : watermark (dict_set d k v) k' = if str_eqb k' k then v else watermark d k'.
Proof. unfold watermark. rewrite dict_get_set. by destruct (str_eqb k' k). Qed.

Lemma newest_cons sym r l :
  newest sym (r :: l) = if str_eqb sym (rl_symbol r) then Z.max (rl_timestamp_ns r) (newest sym l) else newest sym l.
Proof.
  unfold newest. rewrite filter_cons. destruct (str_eqb sym (rl_symbol r)) eqn:E.
  - apply str_eqb_true in E as ->. by rewrite decide_True.
  - rewrite decide_False; [done|]. intros <-. by rewrite str_eqb_refl in E.
Qed.

Lemma mark_regimes_watermark rs s sym :
  0 ≤ watermark (_last_pushed_regime_ts s) sym →
  watermark (_last_pushed_regime_ts (fold_left mark_regime rs s)) sym
  = Z.max (watermark (_last_pushed_regime_ts s) sym) (newest sym rs).
Proof.
  revert s. induction rs as [|r rs IH]; intros s Hw; cbn [fold_left]; [cbn; lia|].
  assert (watermark (_last_pushed_regime_ts (mark_regime s r)) sym =
    if str_eqb sym (rl_symbol r) then Z.max (watermark (_last_pushed_regime_ts s) sym) (rl_timestamp_ns r)
    else watermark (_last_pushed_regime_ts s) sym) as Hm.
  { unfold mark_regime. cbn [_last_pushed_regime_ts]. rewrite watermark_set. destruct (str_eqb _ _) eqn:E; [|done]. by apply str_eqb_true in E as <-. }
  rewrite IH, Hm, newest_cons; destruct (str_eqb sym (rl_symbol r)); lia.
Qed.

Lemma mark_symbols_regimes ks s :
  _last_pushed_regime_ts (fold_left mark_symbol ks s) = _last_pushed_regime_ts s ∧
  _latest_regimes (fold_left mark_symbol ks s) = _latest_regimes s.
Proof.
  revert s. induction ks as [|k ks IH]; intros s; [done|]. cbn [fold_left]. destruct (IH (mark_symbol s k)) as [-> ->].
  unfold mark_symbol. by destruct (dict_get _ _).
Qed.

(** The labels Aegis took. *)
Definition taken_regimes (b : Bridge) : list RegimeLabelData := concat (b_applied b).*2.

(** The label watermark of every symbol is the newest label of it that Aegis took. *)
Definition watermarks_ok (b : Bridge) : Prop :=
  ∀ sym, watermark (_last_pushed_regime_ts (b_state b)) sym = newest sym (taken_regimes b).

Lemma newest_nonneg sym l : 0 ≤ newest sym l.
Proof. induction l as [|r l IH]; [done|]. rewrite newest_cons. destruct (str_eqb _ _); lia. Qed.

Lemma on_message_watermarks s s' raw now stale :
  on_snapshot_message raw now stale s = Ok s' ∨ on_regime_message raw s = Ok s' →
  _last_pushed_regime_ts s' = _last_pushed_regime_ts s.
Proof.
  unfold on_snapshot_message, on_regime_message, try_except. intros [E|E]; destruct (loads raw); try (by ok_inv; subst).
  - destruct (parse_snapshot _ _ _); cbn in E; [|by case_match; ok_inv; subst]. ok_inv. subst.
    unfold record_snapshot. by repeat case_match.
  - destruct (parse_regime _); cbn in E; [|by case_match; ok_inv; subst]. ok_inv. subst.
    unfold record_regime. by repeat case_match.
Qed.

Lemma bridge_step_watermarks c b ev : watermarks_ok b → watermarks_ok (bridge_step c b ev).
Proof.
  intros H. destruct ev as [raw now|raw|now|answer]; cbn [bridge_step].
  - destruct (on_snapshot_message _ _ _ _) as [s'|] eqn:E; [|done]. intros sym. cbn.
    rewrite (on_message_watermarks _ _ _ _ _ (or_introl E)). apply H.
  - destruct (on_regime_message _ _) as [s'|] eqn:E; [|done]. intros sym. cbn.
    rewrite (on_message_watermarks _ _ _ 0 0 (or_intror E)). apply H.
  - unfold push_start. by repeat case_match.
  - unfold push_end. destruct (b_inflight b) as [[batch now]|]; [|done]. destruct answer as [response|]; [|done].
    generalize (_parse_response response batch) as res. intros res sym. unfold taken_regimes. cbn [b_state b_applied].
    rewrite fmap_app, concat_app. cbn [fmap list_fmap snd concat]. rewrite app_nil_r, newest_app.
    unfold mark_applied. destruct (mark_symbols_regimes (applied_snapshot_symbols res) (b_state b)) as [E _].
    rewrite mark_regimes_watermark; rewrite E, (H sym); [done|apply newest_nonneg].
Qed.

Lemma bridge_run_watermarks c evs b : watermarks_ok b → watermarks_ok (bridge_run c evs b).
Proof. intros H. unfold bridge_run. apply fold_left_inv; [done|]. intros. by apply bridge_step_watermarks. Qed.

(** Snapshots are held under their own symbol. *)
Definition keys_ok (s : BatchState) : Prop := ∀ k v, (k, v) ∈ _latest s → rs_symbol v = k.

Lemma dict_set_in {V} (d : list (pystr * V)) k v k' v' : (k', v') ∈ dict_set d k v → (k', v') = (k, v) ∨ (k', v') ∈ d.
Proof.
  induction d as [|[k2 v2] d IH]; cbn; [rewrite list_elem_of_singleton; by left|].
  destruct (str_eqb k k2) eqn:E; rewrite !elem_of_cons; [apply str_eqb_true in E as ->; naive_solver|].
  intros [?|?]; [tauto|]. destruct (IH H); tauto.
Qed.

Lemma mark_applied_latest ks rs s : _latest (mark_applied ks rs s) = _latest s.
Proof.
  unfold mark_applied. transitivity (_latest (fold_left mark_symbol ks s)).
  - apply (fold_left_inv (λ s', _latest s' = _latest (fold_left mark_symbol ks s))); [done|by intros].
  - apply (fold_left_inv (λ s', _latest s' = _latest s)); [done|]. intros s' k H. unfold mark_symbol. by case_match.
Qed.

Lemma mark_regimes_as_of rs s : _last_pushed_as_of (fold_left mark_regime rs s) = _last_pushed_as_of s.
Proof. apply (fold_left_inv (λ s', _last_pushed_as_of s' = _last_pushed_as_of s)); [done|by intros]. Qed.

Lemma bridge_step_keys c b ev : keys_ok (b_state b) → keys_ok (b_state (bridge_step c b ev)).
Proof.
  intros H. destruct ev as [raw now|raw|now|answer]; cbn [bridge_step].
  - destruct (on_snapshot_message _ _ _ _) as [s'|] eqn:E; [|done]. cbn. revert E.
    unfold on_snapshot_message, try_except. destruct (loads raw); [|by intros [= <-]].
    destruct (parse_snapshot _ _ _); cbn; [|by case_match; intros [= <-]]. intros [= <-].
    unfold record_snapshot. destruct (dict_get _ _); [destruct (_ <? _); [done|]|];
      intros k v [[= -> ->]|Hin]%dict_set_in; auto.
  - destruct (on_regime_message _ _) as [s'|] eqn:E; [|done]. cbn. revert E.
    unfold on_regime_message, try_except. destruct (loads raw); [|by intros [= <-]].
    destruct (parse_regime _); cbn; [|by case_match; intros [= <-]]. intros [= <-].
    unfold record_regime. by repeat case_match.
  - unfold push_start. by repeat case_match.
  - unfold push_end. destruct (b_inflight b) as [[batch now]|]; [|done]. destruct answer; [|done].
    cbn [b_state]. unfold keys_ok. by rewrite mark_applied_latest.
Qed.

Lemma mark_symbols_watermark ks s sym y :
  dict_get (_latest s) sym = Some y →
  sym ∈ ks ∨ watermark (_last_pushed_as_of s) sym = rs_as_of_ns y →
  watermark (_last_pushed_as_of (fold_left mark_symbol ks s)) sym = rs_as_of_ns y.
Proof.
  revert s. induction ks as [|k ks IH]; intros s Hy Hs; cbn [fold_left]; [by destruct Hs as [[]%not_elem_of_nil|]|].
  apply IH; [unfold mark_symbol; by case_match|]. rewrite elem_of_cons in Hs. unfold mark_symbol.
  destruct (str_eqb sym k) eqn:E.
  - apply str_eqb_true in E as <-. right. rewrite Hy. cbn [_last_pushed_as_of]. by rewrite watermark_set, str_eqb_refl.
  - assert (sym ≠ k) by (intros ->; by rewrite str_eqb_refl in E). destruct Hs as [[?|?]|Hs]; [done|by left|right].
    destruct (dict_get (_latest s) k); [|done]. cbn [_last_pushed_as_of]. by rewrite watermark_set, E.
Qed.

(** *** What was received, held, taken and sent, told from the events *)

(** The labels of the regime messages that were not refused, in order. *)
Definition received_of (ev : bridge_event) : list RegimeLabelData :=
  match ev with
  | RegimeMessage raw =>
      match loads raw with
      | Some payload => match parse_regime payload with Ok r => [r] | Raise _ => [] end
      | None => []
      end
  | _ => []
  end.
Definition received (evs : list bridge_event) : list RegimeLabelData := mbind received_of evs.

(** [o] is the newest label of [sym] among [l], the last of them when several are as new. *)
Definition newest_label (l : list RegimeLabelData) (sym : pystr) (o : option RegimeLabelData) : Prop :=
  match o with
  | None => ∀ r, r ∈ l → rl_symbol r ≠ sym
  | Some r => ∃ before after, l = before ++ r :: after ∧ rl_symbol r = sym ∧
      (∀ r', r' ∈ before → rl_symbol r' = sym → rl_timestamp_ns r' ≤ rl_timestamp_ns r) ∧
      (∀ r', r' ∈ after → rl_symbol r' = sym → rl_timestamp_ns r' < rl_timestamp_ns r)
  end.

(** Aegis took [r]: it answered a batch that held [r] without rejecting [r] under its key, and
    counted as many labels as it did not reject. *)
Inductive taken (c : BridgeConfig) (evs : list bridge_event) (r : RegimeLabelData) : Prop :=
  taken_in before response after batch now :
    evs = before ++ PushEnd (Ok response) :: after →
    b_inflight (bridge_run c before fresh_bridge) = Some (batch, now) →
    r ∈ pb_regimes batch → (u "regime:" ++ rl_symbol r) ∉ rj_key <$> rejections response →
    applied_symbol_regimes response
    = Z.of_nat (length (filter (λ x, (u "regime:" ++ rl_symbol x) ∉ rj_key <$> rejections response) (pb_regimes batch))) →
    taken c evs r.

Lemma bridge_run_snoc c evs ev b : bridge_run c (evs ++ [ev]) b = bridge_step c (bridge_run c evs b) ev.
Proof. apply fold_left_app. Qed.
Lemma received_snoc evs ev : received (evs ++ [ev]) = received evs ++ received_of ev.
Proof. unfold received. rewrite bind_app. cbn. by rewrite app_nil_r. Qed.
Lemma received_positive evs r : r ∈ received evs → 0 < rl_timestamp_ns r.
Proof.
  unfold received. intros ([| raw | |] & Hr & _)%list_elem_of_bind; try by apply elem_of_nil in Hr. cbn in Hr.
  destruct (loads raw) as [payload|]; [|by apply elem_of_nil in Hr].
  destruct (parse_regime payload) as [r'|] eqn:E; [|by apply elem_of_nil in Hr]. apply list_elem_of_singleton in Hr as ->.
  unfold parse_regime in E. apply bind_ok in E as (items & _ & E). apply bind_ok in E as (sym & _ & E).
  destruct (default JNull _) as [| | | |label| |]; try discriminate E. destruct (negb _); [discriminate E|].
  apply bind_ok in E as (fin & _ & E). destruct (negb fin); [discriminate E|]. destruct (negb _); [discriminate E|].
  apply bind_ok in E as (ts & Hts & E). injection E as <-. cbn. unfold positive_int in Hts.
  destruct (int_of _); [|discriminate Hts]. destruct (Z.leb_spec z 0); [discriminate Hts|]. by injection Hts as <-.
Qed.

(** A step holds what the message brings, and nothing else touches what is held. *)
Lemma bridge_step_held c b ev :
  _latest_regimes (b_state (bridge_step c b ev)) = _latest_regimes (foldr record_regime (b_state b) (received_of ev)).
Proof.
  destruct ev as [raw now|raw|now|answer]; cbn [bridge_step received_of].
  - destruct (on_snapshot_message _ _ _ _) as [s'|] eqn:E; [|done]. cbn. revert E.
    unfold on_snapshot_message, try_except. destruct (loads raw); [|by intros [= <-]].
    destruct (parse_snapshot _ _ _); cbn; [|by case_match; intros [= <-]]. intros [= <-].
    unfold record_snapshot. by repeat case_match.
  - unfold on_regime_message, try_except. destruct (loads raw); [|done].
    destruct (parse_regime _) as [r|e]; cbn; [done|]. by destruct (is_refusal _).
  - cbn. destruct (b_inflight b); [done|]. unfold push_start. by case_match.
  - cbn. unfold push_end. destruct (b_inflight b) as [[batch now]|]; [|done]. destruct answer as [response|]; [|done].
    cbn [b_state]. unfold mark_applied.
    apply (fold_left_inv (λ s', _latest_regimes s' = _latest_regimes (b_state b))); [|by intros].
    by apply mark_symbols_regimes.
Qed.

Lemma record_regime_newest l s r :
  (∀ sym, newest_label l sym (dict_get (_latest_regimes s) sym)) →
  ∀ sym, newest_label (l ++ [r]) sym (dict_get (_latest_regimes (record_regime r s)) sym).
Proof.
  intros H sym. specialize (H sym).
  assert (dict_get (_latest_regimes (record_regime r s)) sym
    = match decide (sym = rl_symbol r), dict_get (_latest_regimes s) sym with
      | left _, Some cur => if rl_timestamp_ns r <? rl_timestamp_ns cur then Some cur else Some r
      | left _, None => Some r
      | right _, o => o
      end) as ->.
  { unfold record_regime. destruct (decide (sym = rl_symbol r)) as [->|Hne].
    - destruct (dict_get (_latest_regimes s) (rl_symbol r)) as [cur|] eqn:E; [destruct (_ <? _)|]; cbn [_latest_regimes];
        by rewrite ?dict_get_set, ?str_eqb_refl.
    - assert (str_eqb sym (rl_symbol r) = false) as Hf.
      { destruct (str_eqb _ _) eqn:E; [|done]. by apply str_eqb_true in E. }
      destruct (dict_get (_latest_regimes s) (rl_symbol r)); [destruct (_ <? _)|]; cbn [_latest_regimes]; try done;
        by rewrite dict_get_set, Hf. }
  assert (∀ r', r' ∈ @nil RegimeLabelData → False) as Hnil by (by intros ? ?%elem_of_nil).
  destruct (decide (sym = rl_symbol r)) as [->|Hne]; destruct (dict_get (_latest_regimes s) _) as [cur|].
  - destruct H as (before & after & -> & Hs & Hb & Ha).
    destruct (Z.ltb_spec (rl_timestamp_ns r) (rl_timestamp_ns cur)) as [Hlt|Hle].
    + exists before, (after ++ [r]). rewrite <- app_assoc. split_and!; try done.
      intros r' [Hin| ->%list_elem_of_singleton]%elem_of_app ?; [by apply Ha|done].
    + exists (before ++ cur :: after), []. split_and!; try done; [|by intros ? ?%Hnil].
      intros r' [Hin|[->|Hin]%elem_of_cons]%elem_of_app ?; [specialize (Hb _ Hin ltac:(done))|lia|specialize (Ha _ Hin ltac:(done))]; lia.
  - exists l, []. split_and!; try done; [|by intros ? ?%Hnil]. intros r' Hin ?. by destruct (H r' Hin).
  - destruct H as (before & after & -> & Hs & Hb & Ha). exists before, (after ++ [r]). rewrite <- app_assoc. split_and!; try done.
    intros r' [Hin| ->%list_elem_of_singleton]%elem_of_app ?; [by apply Ha|congruence].
  - intros r' [Hin| ->%list_elem_of_singleton]%elem_of_app; [by apply H|congruence].
Qed.

Lemma bridge_holds_newest c evs sym :
  newest_label (received evs) sym (dict_get (_latest_regimes (b_state (bridge_run c evs fresh_bridge))) sym).
Proof.
  revert sym. induction evs as [|ev evs IH] using rev_ind; [by intros sym r []%elem_of_nil|]. intros sym.
  rewrite received_snoc, bridge_run_snoc, bridge_step_held.
  assert (received_of ev = [] ∨ ∃ r, received_of ev = [r]) as [-> |[r ->]].
  { destruct ev; cbn; auto. destruct (loads raw); [|auto]. destruct (parse_regime _); eauto. }
  - rewrite app_nil_r. apply IH.
  - by apply record_regime_newest.
Qed.

(** The instrumented list of what was taken is what the events say. *)
Lemma taken_regimes_taken c evs r : r ∈ taken_regimes (bridge_run c evs fresh_bridge) ↔ taken c evs r.
Proof.
  induction evs as [|ev evs IH] using rev_ind.
  { split; [by intros []%elem_of_nil|]. intros [before response after batch now E _ _ _ _]. by destruct before. }
  rewrite bridge_run_snoc.
  assert (taken c (evs ++ [ev]) r ↔ taken c evs r ∨ ∃ response batch now, ev = PushEnd (Ok response) ∧
    b_inflight (bridge_run c evs fresh_bridge) = Some (batch, now) ∧ r ∈ applied_regimes (_parse_response response batch)) as ->.
  { assert (∀ response batch, r ∈ applied_regimes (_parse_response response batch) ↔
      r ∈ pb_regimes batch ∧ (u "regime:" ++ rl_symbol r) ∉ rj_key <$> rejections response ∧
      applied_symbol_regimes response = Z.of_nat (length
        (filter (λ x, (u "regime:" ++ rl_symbol x) ∉ rj_key <$> rejections response) (pb_regimes batch)))) as Hp.
    { intros response batch. unfold _parse_response, REGIME_KEY_PREFIX. cbn [applied_regimes].
      destruct (Z.eqb_spec (Z.of_nat (length (filter (λ x, (u "regime:" ++ rl_symbol x) ∉ rj_key <$> rejections response)
        (pb_regimes batch)))) (applied_symbol_regimes response)) as [->|Hne].
      - rewrite list_elem_of_filter. naive_solver.
      - split; [by intros []%elem_of_nil|]. intros (_ & _ & E). by destruct Hne. }
    split.
    - intros [before response after batch now E Hf H1 H2 H3]. destruct after as [|x after _] using rev_ind.
      + apply app_inj_tail in E as [-> ->]. right. exists response, batch, now. split_and!; try done. by apply Hp.
      + left. rewrite app_comm_cons, app_assoc in E. apply app_inj_tail in E as [-> _]. by econstructor.
    - intros [[before response after batch now -> Hf H1 H2 H3]|(response & batch & now & -> & Hf & (H1 & H2 & H3)%Hp)].
      + eapply (taken_in _ _ _ before response (after ++ [ev])); [by rewrite <- app_assoc|done..].
      + by eapply (taken_in _ _ _ evs response []). }
  rewrite <- IH. set (b := bridge_run c evs fresh_bridge).
  destruct ev as [raw now|raw|now|answer]; cbn [bridge_step].
  - destruct (on_snapshot_message _ _ _ _); unfold taken_regimes; cbn [b_applied]; naive_solver.
  - destruct (on_regime_message _ _); unfold taken_regimes; cbn [b_applied]; naive_solver.
  - assert (taken_regimes (match b_inflight b with None => push_start c now b | Some _ => b end) = taken_regimes b) as ->
      by (unfold push_start; by repeat case_match). naive_solver.
  - unfold push_end. destruct (b_inflight b) as [[batch now]|]; [|naive_solver]. destruct answer as [response|]; [|naive_solver].
    unfold taken_regimes. cbn [b_applied]. rewrite fmap_app, concat_app, elem_of_app. cbn [fmap list_fmap snd concat].
    rewrite app_nil_r. naive_solver.
Qed.

Lemma newest_above sym l r : r ∈ l → rl_symbol r = sym → rl_timestamp_ns r ≤ newest sym l.
Proof.
  intros Hin <-. induction l as [|x l IH]; [by apply elem_of_nil in Hin|]. rewrite newest_cons.
  apply elem_of_cons in Hin as [->|Hin]; [rewrite str_eqb_refl; lia|]. specialize (IH Hin). destruct (str_eqb _ _); lia.
Qed.
Lemma newest_reached sym l : newest sym l = 0 ∨ ∃ r, r ∈ l ∧ rl_symbol r = sym ∧ rl_timestamp_ns r = newest sym l.
Proof.
  induction l as [|x l IH]; [by left|]. rewrite newest_cons. destruct (str_eqb sym (rl_symbol x)) eqn:E.
  - apply str_eqb_true in E. destruct (Z.max_spec (rl_timestamp_ns x) (newest sym l)) as [[? ->]|[? ->]].
    + destruct IH as [?|(r & ? & ? & ?)]; [by left|right]. exists r. split; [by right|done].
    + right. exists x. split; [by left|done].
  - destruct IH as [?|(r & ? & ? & ?)]; [by left|right]. exists r. split; [by right|done].
Qed.

(** *** The labels of a batch: the oldest that are due *)

Lemma sort_by_sorted {V} (key : V → Z) l : StronglySorted (λ x y, key x ≤ key y) (sort_by key l).
Proof.
  induction l as [|x l IH]; [constructor|]. cbn. set (k := sort_by key l) in *. clearbody k.
  induction IH as [|y k Hk IH Hy]; cbn; [by repeat constructor|]. destruct (Z.leb_spec (key x) (key y)).
  - constructor; [by constructor|]. constructor; [done|]. eapply Forall_impl; [done|]. cbn. lia.
  - constructor; [done|]. apply Forall_forall. intros z Hz. rewrite sort_insert_perm in Hz.
    apply elem_of_cons in Hz as [->|Hz]; [lia|]. rewrite Forall_forall in Hy. by apply Hy.
Qed.
Lemma sorted_app {V} (R : V → V → Prop) l k x y : StronglySorted R (l ++ k) → x ∈ l → y ∈ k → R x y.
Proof.
  intros Hs Hx Hy. induction l as [|z l IH]; [by apply elem_of_nil in Hx|]. apply StronglySorted_inv in Hs as [Hs Hz].
  apply elem_of_cons in Hx as [->|Hx]; [|by apply IH]. rewrite Forall_forall in Hz. apply Hz. set_solver.
Qed.
Lemma take_smallest {V} (key : V → Z) n l x :
  x ∈ sort_by key l → x ∈ take n (sort_by key l)
  ∨ length (take n (sort_by key l)) = n ∧ ∀ y, y ∈ take n (sort_by key l) → key y ≤ key x.
Proof.
  pose proof (sort_by_sorted key l) as Hs. intros Hx. rewrite <- (take_drop n (sort_by key l)) in Hs, Hx.
  apply elem_of_app in Hx as [Hx|Hx]; [by left|right]. split.
  - rewrite length_take. apply Nat.min_l. destruct (decide (n ≤ length (sort_by key l))%nat); [done|].
    rewrite drop_ge in Hx by lia. by apply elem_of_nil in Hx.
  - intros y Hy. by apply (sorted_app _ _ _ _ _ Hs).
Qed.

(** Labels are held under their own symbol. *)
Lemma held_keys c evs k x :
  (k, x) ∈ _latest_regimes (b_state (bridge_run c evs fresh_bridge)) → rl_symbol x = k.
Proof.
  revert k x. induction evs as [|ev evs IH] using rev_ind; [by intros k x []%elem_of_nil|]. intros k x.
  rewrite bridge_run_snoc, bridge_step_held.
  assert (∀ l s, (∀ k x, (k, x) ∈ _latest_regimes s → rl_symbol x = k) →
    (k, x) ∈ _latest_regimes (foldr record_regime s l) → rl_symbol x = k) as Hf.
  { clear. intros l s Hs. revert k x. induction l as [|r l IH]; intros k x; cbn [foldr]; [apply Hs|].
    unfold record_regime at 1. destruct (dict_get _ _); [destruct (_ <? _)|]; cbn [_latest_regimes]; try apply IH;
      intros [[= -> ->]|?]%dict_set_in; auto. }
  apply Hf. apply IH.
Qed.

(** ** Properties *)

(** C36: No regime label is lost. After any messages, push cycles and answers of Aegis, the bridge
    holds of every symbol exactly the newest label it received, and the watermark of the symbol is
    the newest label of it that Aegis took: one it was sent in a batch, did not reject, in an answer
    whose count agrees (0 before the first). When no batch is in flight the next push cycle sends a batch with
    every held label that is newer than all those Aegis took of its symbol, unless the batch is full
    of labels that are no newer; and nothing in it was taken before, nor anything newer of its symbol. *)
Theorem regimes_are_not_lost c evs now :
  0 < max_batch_snapshots c →
  let b := bridge_run c evs fresh_bridge in
  (∀ sym, newest_label (received evs) sym (dict_get (_latest_regimes (b_state b)) sym)) ∧
  (∀ sym, let w := watermark (_last_pushed_regime_ts (b_state b)) sym in
     (∀ r, taken c evs r → rl_symbol r = sym → rl_timestamp_ns r ≤ w) ∧
     (w = 0 ∨ ∃ r, taken c evs r ∧ rl_symbol r = sym ∧ rl_timestamp_ns r = w)) ∧
  (b_inflight b = None →
   (∀ sym r, dict_get (_latest_regimes (b_state b)) sym = Some r →
      (∀ r', taken c evs r' → rl_symbol r' = sym → rl_timestamp_ns r' < rl_timestamp_ns r) →
      ∃ batch, b_inflight (bridge_step c b (PushStart now)) = Some (batch, now) ∧
        (r ∈ pb_regimes batch ∨
         Z.of_nat (length (pb_regimes batch)) = max_batch_snapshots c ∧
         ∀ x, x ∈ pb_regimes batch → rl_timestamp_ns x ≤ rl_timestamp_ns r)) ∧
   (∀ batch t, b_inflight (bridge_step c b (PushStart now)) = Some (batch, t) → ∀ x, x ∈ pb_regimes batch →
      ∀ r', taken c evs r' → rl_symbol r' = rl_symbol x → rl_timestamp_ns r' < rl_timestamp_ns x)).
Proof.
  intros Hmax b. assert (watermarks_ok b) as Hw by (apply bridge_run_watermarks; by intros sym).
  split; [apply bridge_holds_newest|]. split.
  { intros sym w. unfold w. rewrite (Hw sym). setoid_rewrite <- taken_regimes_taken. fold b.
    split; [intros; by apply newest_above|]. apply newest_reached. }
  intros Hidle. cbn [bridge_step]. rewrite Hidle. unfold push_start.
  set (batch := build_batch _ None (b_state b)).
  assert (pb_regimes batch = take (Z.to_nat (max_batch_snapshots c)) (due_regimes (b_state b))) as Hb.
  { unfold batch, build_batch, slice_z. cbn [pb_regimes default]. by rewrite (proj2 (Z.ltb_ge _ _)) by lia. }
  split.
  - intros sym r Hr Hall. assert (r ∈ due_regimes (b_state b)) as Hdue.
    { unfold due_regimes. rewrite sort_by_perm. apply list_elem_of_fmap. exists (sym, r). split; [done|].
      apply list_elem_of_filter. split; [|by apply dict_get_in]. cbn. rewrite Hw. apply newest_below.
      - intros r' Hin%taken_regimes_taken. by apply Hall.
      - pose proof (bridge_holds_newest c evs sym) as Hn. fold b in Hn. rewrite Hr in Hn.
        destruct Hn as (l1 & l2 & E & _). apply (received_positive evs). rewrite E. set_solver. }
    assert (r ∈ pb_regimes batch ∨ Z.of_nat (length (pb_regimes batch)) = max_batch_snapshots c ∧
      ∀ x, x ∈ pb_regimes batch → rl_timestamp_ns x ≤ rl_timestamp_ns r) as Hin.
    { rewrite Hb. destruct (take_smallest rl_timestamp_ns (Z.to_nat (max_batch_snapshots c)) _ _ Hdue) as [?|[El Hle]];
        [by left|right]. unfold due_regimes at 1. split; [rewrite El; lia|exact Hle]. }
    assert (is_empty batch = false) as ->.
    { unfold is_empty. destruct (pb_snapshots batch); [|done]. destruct (pb_regimes batch); [|done]. exfalso.
      destruct Hin as [?%elem_of_nil|[E _]]; [done|]. cbn in E. lia. }
    exists batch. split; [done|exact Hin].
  - intros batch' t E x Hx. assert (batch' = batch) as ->.
    { destruct (is_empty batch); cbn in E; [congruence|]. by injection E. }
    rewrite Hb in Hx. apply elem_of_take in Hx as (k & Hx & _). apply list_elem_of_lookup_2 in Hx.
    unfold due_regimes in Hx. rewrite sort_by_perm in Hx.
    apply list_elem_of_fmap in Hx as ([key y] & -> & [Hlt Hin]%list_elem_of_filter). cbn [fst snd] in *.
    apply held_keys in Hin as Hk. intros r' Ht%taken_regimes_taken Hs. rewrite Hk in Hs. rewrite (Hw key) in Hlt.
    pose proof (newest_above key _ r' Ht Hs). fold b in H. lia.
Qed.

(** A snapshot is passed on as fresh only when nothing speaks against it. What [parse_snapshot]
    accepts has a plain symbol and positive prices and volumes; it is marked fresh exactly when
    the source did not flag it, said it is out of warm-up, and it is neither from the future nor
    older than the limit by this bridge's clock. *)
Theorem fresh_means_fresh payload now stale_after snap :
  parse_snapshot payload now stale_after = Ok snap →
  symbol_ok (rs_symbol snap) = true ∧ 0 < rs_mid_price_nanos snap ∧ 0 < rs_adv_30d_nanos snap ∧ 0 < rs_as_of_ns snap ∧
  ∃ items, payload = JObj items ∧ obj_get items (u "symbol") = Some (JStr (rs_symbol snap)) ∧
    (rs_is_stale snap = false ↔
     (∀ v, obj_get items (u "is_stale") = Some v → plain_bool v = false) ∧
     (∃ v, obj_get items (u "warmup") = Some v ∧ plain_bool v = false) ∧
     now - stale_after ≤ rs_as_of_ns snap ≤ now).
Proof.
  unfold parse_snapshot. intros E. apply bind_ok in E as (items & Hi & E).
  destruct payload as [| | | | | |m]; try discriminate. injection Hi as <-.
  apply bind_ok in E as (symbol & Hs & E). apply bind_ok in E as (as_of & Ha & E).
  assert (∃ mid adv, to_nanos (default JNull (obj_get m (u "mid_price"))) (u "mid_price") = Ok mid ∧
    to_nanos (default JNull (obj_get m (u "adv_30d"))) (u "adv_30d") = Ok adv ∧
    (mid <=? 0) || (adv <=? 0) = false ∧
    snap = mkSnapshotData symbol mid adv as_of
      (plain_bool (default (JBool false) (obj_get m (u "is_stale")))
       || plain_bool (default (JBool true) (obj_get m (u "warmup")))
       || ((now - as_of <? 0) || (stale_after <? now - as_of)))) as (mid & adv & _ & _ & Hp & ->).
  { destruct (default JNull (obj_get m (u "mid_price"))); try discriminate;
      destruct (default JNull (obj_get m (u "adv_30d"))); try discriminate;
      apply bind_ok in E as (mid & Hm & E); apply bind_ok in E as (adv & Hv & E);
      destruct (_ || _) eqn:Eb in E; try discriminate; injection E as <-; by exists mid, adv. }
  apply orb_false_iff in Hp as [Hp1 Hp2]. cbn [rs_symbol rs_mid_price_nanos rs_adv_30d_nanos rs_as_of_ns rs_is_stale].
  assert (symbol_ok symbol = true ∧ obj_get m (u "symbol") = Some (JStr symbol)) as [Hok Hget].
  { unfold checked_symbol in Hs. destruct (obj_get m (u "symbol")) as [[| | | |s| |]|]; try discriminate. cbn in Hs.
    destruct (symbol_ok s) eqn:Es; [|discriminate]. by injection Hs as <-. }
  assert (0 < as_of) as Hpos.
  { unfold positive_int in Ha. destruct (int_of _); [|discriminate]. destruct (Z.leb_spec z 0); [discriminate|].
    by injection Ha as <-. }
  split_and!; try done; try lia. exists m. split_and!; try done.
  rewrite !orb_false_iff, !Z.ltb_ge. split.
  - intros [[H1 H2] H3]. split_and!; try lia.
    + intros v Hv. by rewrite Hv in H1.
    + destruct (obj_get m (u "warmup")) as [v|]; [by exists v|discriminate].
  - intros (H1 & (v & Hv & H2) & H3). rewrite Hv. cbn. split_and!; try lia; [|done].
    destruct (obj_get m (u "is_stale")) as [w|]; [by apply H1|done].
Qed.

(** A snapshot that arrives while a push is awaited is never sent. When Aegis accepts a batch
    with a symbol, the watermark moves to the snapshot held by then, whatever was in the batch: if
    a newer one arrived in between, it is not due in any later batch until a still newer one
    replaces it. *)
Theorem snapshot_in_flight_is_skipped c evs batch now response sym y :
  let b := bridge_run c evs fresh_bridge in
  b_inflight b = Some (batch, now) →
  sym ∈ rs_symbol <$> pb_snapshots batch → sym ∉ rj_key <$> rejections response →
  dict_get (_latest (b_state b)) sym = Some y →
  let b' := bridge_step c b (PushEnd (Ok response)) in
  watermark (_last_pushed_as_of (b_state b')) sym = rs_as_of_ns y ∧
  dict_get (_latest (b_state b')) sym = Some y ∧ y ∉ due_snapshots (b_state b').
Proof.
  intros b Hf Hin Hrej Hy b'.
  assert (keys_ok (b_state b)) as Hk.
  { apply (fold_left_inv (λ b, keys_ok (b_state b))); [by intros k v []%not_elem_of_nil|].
    intros. by apply bridge_step_keys. }
  assert (b_state b' = mark_applied (applied_snapshot_symbols (_parse_response response batch))
    (applied_regimes (_parse_response response batch)) (b_state b)) as Hb by (unfold b'; cbn; unfold push_end; by rewrite Hf).
  assert (watermark (_last_pushed_as_of (b_state b')) sym = rs_as_of_ns y) as Hw.
  { rewrite Hb. unfold mark_applied. rewrite mark_regimes_as_of. apply mark_symbols_watermark; [done|]. left. cbn.
    by apply list_elem_of_filter. }
  split; [exact Hw|]. rewrite Hb, mark_applied_latest. split; [exact Hy|].
  unfold due_snapshots. rewrite sort_by_perm, mark_applied_latest, <- Hb.
  intros ([k v] & -> & [Hlt Hin2]%list_elem_of_filter)%list_elem_of_fmap. cbn in *.
  apply dict_get_in, Hk in Hy. apply Hk in Hin2. subst k. rewrite Hy, Hw in Hlt. lia.
Qed.

(** ** Two snapshots and a push between them *)

Definition sim_snapshot (ts : pystr) : pystr :=
  qq (u "{'symbol':'AAPL','ingestion_ts_ns':" ++ ts ++ u ",'mid_price':187.25,'adv_30d':5.5e7,'warmup':false}").
Definition sim_bridge : BridgeConfig := mkBridgeConfig 64 2000.
Definition sim_events : list bridge_event :=
  [SnapshotMessage (sim_snapshot (u "1000")) 1500; PushStart 1600; SnapshotMessage (sim_snapshot (u "1700")) 1800].

Lemma snapshot_in_flight_is_skipped_witness :
  ∃ y, dict_get (_latest (b_state (bridge_run sim_bridge sim_events fresh_bridge))) (u "AAPL") = Some y ∧
    rs_as_of_ns y = 1700 ∧
    let b' := bridge_step sim_bridge (bridge_run sim_bridge sim_events fresh_bridge) (PushEnd (Ok (mkPushResponse [] 0))) in
    rs_as_of_ns <$> concat (b_applied b').*1 = [1000] ∧ y ∉ due_snapshots (b_state b').
Proof.
  exists (mkSnapshotData (u "AAPL") 187250000000 55000000000000000 1700 false).
  split; [vm_compute; reflexivity|]. split; [reflexivity|]. split; [vm_compute; reflexivity|].
  refine (proj2 (proj2 (snapshot_in_flight_is_skipped sim_bridge sim_events
    (mkBatch [mkSnapshotData (u "AAPL") 187250000000 55000000000000000 1000 false] []) 1600 (mkPushResponse [] 0)
    (u "AAPL") _ _ _ _ _))).
  - vm_compute; reflexivity.
  - cbn. left.
  - cbn. apply not_elem_of_nil.
  - vm_compute; reflexivity.
Defined.

Lemma fresh_means_fresh_witness :
  ∃ v snap, loads (sim_snapshot (u "1000")) = Some v ∧ parse_snapshot v 1500 2000 = Ok snap ∧
    rs_is_stale snap = false ∧ 0 < rs_mid_price_nanos snap.
Proof.
  destruct (loads (sim_snapshot (u "1000"))) as [v|] eqn:E; [|vm_compute in E; discriminate E].
  assert (parse_snapshot v 1500 2000 = Ok (mkSnapshotData (u "AAPL") 187250000000 55000000000000000 1000 false)) as Hs.
  { vm_compute in E. injection E as <-. vm_compute. reflexivity. }
  exists v, (mkSnapshotData (u "AAPL") 187250000000 55000000000000000 1000 false).
  split; [reflexivity|]. split; [exact Hs|]. split; [reflexivity|].
  exact (proj1 (proj2 (fresh_means_fresh v 1500 2000 _ Hs))).
Defined.

(** A newer label arrives while Aegis is awaited; Aegis takes the older one, and the next batch
    holds the newer. *)
Definition sim_regime (ts : pystr) : pystr :=
  qq (u "{'symbol':'AAPL','label':'CRISIS','confidence':0.5,'ts_ns':" ++ ts ++ u "}").
Definition sim_labels : list bridge_event :=
  [RegimeMessage (sim_regime (u "100")); PushStart 1600; RegimeMessage (sim_regime (u "200"));
   PushEnd (Ok (mkPushResponse [] 1))].
#[local] Abbreviation sim_after := (bridge_run sim_bridge sim_labels fresh_bridge).
Lemma sim_labels_run :
  rl_timestamp_ns <$> taken_regimes sim_after = [100] ∧ b_inflight sim_after = None ∧
  (rl_timestamp_ns <$> dict_get (_latest_regimes (b_state sim_after)) (u "AAPL")) = Some 200.
Proof. vm_compute. done. Qed.

Lemma regimes_are_not_lost_witness :
  ∃ r batch, rl_timestamp_ns r = 200 ∧ watermark (_last_pushed_regime_ts (b_state sim_after)) (u "AAPL") = 100 ∧
    b_inflight (bridge_step sim_bridge sim_after (PushStart 1900)) = Some (batch, 1900) ∧
    (r ∈ pb_regimes batch ∨ Z.of_nat (length (pb_regimes batch)) = 64).
Proof.
  destruct sim_labels_run as (Ht & Hidle & Hr).
  destruct (regimes_are_not_lost sim_bridge sim_labels 1900 eq_refl) as (_ & _ & Hnext).
  destruct (dict_get (_latest_regimes (b_state sim_after)) (u "AAPL")) as [r|] eqn:E; [|discriminate Hr].
  injection Hr as Hr. destruct (proj1 (Hnext Hidle) (u "AAPL") r E) as (batch & Hb & Hin).
  { intros r' Hin _. apply taken_regimes_taken in Hin.
    assert (rl_timestamp_ns r' ∈ rl_timestamp_ns <$> taken_regimes sim_after) as Hts
      by (apply list_elem_of_fmap; exists r'; split; [reflexivity|exact Hin]).
    rewrite Ht in Hts. apply list_elem_of_singleton in Hts. rewrite Hts, Hr. reflexivity. }
  exists r, batch. split; [exact Hr|]. split; [vm_compute; reflexivity|]. split; [exact Hb|].
  destruct Hin as [Hin|[Hin _]]; [left; exact Hin|right; exact Hin].
Defined.
