(* ===== verification/ManifestCanonical.v ===== *)
(** * Compliance manifest: canonical messages ([canonical.py])

    A protobuf message, read through its descriptor, becomes a JSON document: every declared field,
    numbers exact, doubles as their shortest decimal. The descriptors are those of the [.proto]
    files; a message is the list of the fields that are set in it, as generated classes keep them. *)
From S2P Require Import Prelude PyStr PyFloat Sha256 Json.

(** ** Messages *)

(** [FieldDescriptor.type], with what belongs to it. [TYPE_INT] stands for the integer types. *)
Inductive ftype :=
  | TYPE_DOUBLE | TYPE_INT | TYPE_BOOL | TYPE_STRING | TYPE_BYTES
  | TYPE_ENUM (values_by_number : list (Z * pystr))
  | TYPE_MESSAGE (full_name : pystr) (map_entry : bool).
Record FieldDescriptor := mkField { f_name : pystr; f_type : ftype; f_repeated : bool }.

(** A Python object that may be a message: its type's full name and the fields set in it. *)
Inductive pbval :=
  | VDouble (x : pyfloat)
  | VInt (z : Z)                                          (** an integer or an enum number *)
  | VBool (b : bool)
  | VStr (s : pystr)
  | VBytes (b : pybytes)
  | VRep (l : list pbval)
  | VMsg (full_name : pystr) (fields : list (pystr * pbval)).

Section pbval_ind'.
Context (P : pbval → Prop).
Context (Hdouble : ∀ x, P (VDouble x)) (Hint : ∀ z, P (VInt z)) (Hbool : ∀ b, P (VBool b))
  (Hstr : ∀ s, P (VStr s)) (Hbytes : ∀ b, P (VBytes b)) (Hrep : ∀ l, Forall P l → P (VRep l))
  (Hmsg : ∀ n m, Forall (λ kv, P kv.2) m → P (VMsg n m)).
Fixpoint pbval_ind' (v : pbval) : P v :=
  match v with
  | VDouble x => Hdouble x | VInt z => Hint z | VBool b => Hbool b | VStr s => Hstr s
  | VBytes b => Hbytes b
  | VRep l => Hrep l ((fix go l : Forall P l := match l with
      | [] => List.Forall_nil P | v :: l => @List.Forall_cons _ P v l (pbval_ind' v) (go l) end) l)
  | VMsg n m => Hmsg n m ((fix go m : Forall (λ kv, P kv.2) m := match m with
      | [] => List.Forall_nil (λ kv, P kv.2)
      | kv :: m => @List.Forall_cons _ (λ kv, P kv.2) kv m (pbval_ind' kv.2) (go m) end) m)
  end.
End pbval_ind'.

(** The value under a name. *)
Fixpoint assoc {A} (m : list (pystr * A)) (k : pystr) : option A :=
  match m with [] => None | (k', x) :: m => if str_eqb k k' then Some x else assoc m k end.

(** ** Descriptors of the messages ([shared/proto]) *)

Definition fields (t : ftype) (names : list pystr) : list FieldDescriptor :=
  (λ n, mkField n t false) <$> names.

Definition RegimeLabel : ftype := TYPE_ENUM
  [ (0, u "REGIME_UNKNOWN"); (1, u "TRENDING_BULL"); (2, u "TRENDING_BEAR");
    (3, u "HIGH_VOL_CHOP"); (4, u "LOW_VOL_CHOP"); (5, u "CRISIS") ].
Definition PTCType : ftype := TYPE_ENUM [(0, u "PTC_UNKNOWN"); (1, u "HARD_BLOCK"); (2, u "SOFT_BLOCK")].
Definition SignalSide : ftype :=
  TYPE_ENUM [(0, u "SIDE_UNKNOWN"); (1, u "BUY"); (2, u "SELL"); (3, u "SELL_SHORT")].
Definition SignalStatus : ftype := TYPE_ENUM
  [ (0, u "SIGNAL_PENDING"); (1, u "SIGNAL_APPROVED"); (2, u "SIGNAL_REJECTED_HARD_BLOCK");
    (3, u "SIGNAL_SOFT_BLOCK_PENDING"); (4, u "SIGNAL_ABSTAIN"); (5, u "SIGNAL_EXPIRED") ].
Definition OrderSide : ftype :=
  TYPE_ENUM [(0, u "ORDER_SIDE_UNKNOWN"); (1, u "ORDER_BUY"); (2, u "ORDER_SELL")].
Definition OrderTypeEnum : ftype := TYPE_ENUM
  [(0, u "ORDER_TYPE_UNKNOWN"); (1, u "MARKET"); (2, u "LIMIT"); (3, u "STOP"); (4, u "STOP_LIMIT")].
Definition ExecAlgoEnum : ftype :=
  TYPE_ENUM [(0, u "ALGO_UNKNOWN"); (1, u "DIRECT"); (2, u "ICEBERG"); (3, u "POV")].
Definition OrderStatus : ftype := TYPE_ENUM
  [ (0, u "ORDER_PENDING"); (1, u "ORDER_SENT"); (2, u "ORDER_PARTIAL"); (3, u "ORDER_FILLED");
    (4, u "ORDER_CANCELLED"); (5, u "ORDER_REJECTED") ].

Definition MARKET_SNAPSHOT : pystr := u "afe.shared.MarketSnapshot".
Definition TRADE_SIGNAL : pystr := u "afe.shared.TradeSignal".
Definition ORDER_REQUEST : pystr := u "afe.shared.OrderRequest".
Definition PTC_CHECK_RESULT : pystr := u "afe.shared.PTCCheckResult".
Definition HITL_OVERRIDE_RECORD : pystr := u "afe.shared.HITLOverrideRecord".
Definition POST_TRADE_METRICS : pystr := u "afe.shared.PostTradeMetrics".
Definition COMPLIANCE_MANIFEST : pystr := u "afe.shared.ComplianceManifest".

Definition MarketSnapshot_fields : list FieldDescriptor :=
  fields TYPE_STRING [u "symbol"]
  ++ fields TYPE_INT [u "ingestion_timestamp_ns"; u "exchange_timestamp_ns"]
  ++ fields TYPE_DOUBLE [u "mid_price"; u "bid_price"; u "ask_price"; u "bid_size"; u "ask_size";
       u "spread"; u "last_trade_price"; u "last_trade_size"; u "z_score"; u "mad_score"]
  ++ fields TYPE_BOOL [u "z_mad_divergence"]
  ++ fields TYPE_DOUBLE [u "order_flow_imbalance"; u "realized_volatility"; u "adv_30d"]
  ++ fields RegimeLabel [u "regime"] ++ fields TYPE_BOOL [u "is_stale"]
  ++ fields TYPE_STRING [u "stale_reason"].

Definition TradeSignal_fields : list FieldDescriptor :=
  fields TYPE_STRING [u "signal_id"; u "symbol"] ++ fields TYPE_INT [u "created_at_ns"]
  ++ fields SignalSide [u "side"]
  ++ fields TYPE_DOUBLE [u "quantity"; u "omega"; u "expected_value"; u "p_success"; u "p_failure";
       u "reward_estimate"; u "risk_estimate"; u "estimated_spread_cost"; u "estimated_market_impact";
       u "estimated_venue_fees"; u "estimated_total_cost"]
  ++ fields RegimeLabel [u "regime"] ++ fields TYPE_DOUBLE [u "regime_confidence"]
  ++ fields TYPE_STRING [u "debate_summary"] ++ fields TYPE_DOUBLE [u "price_limit"]
  ++ fields TYPE_INT [u "valid_until_ns"] ++ fields SignalStatus [u "status"]
  ++ fields TYPE_INT [u "quantity_nanos"; u "price_limit_nanos"; u "estimated_total_cost_nanos"]
  ++ fields TYPE_STRING [u "strategy_id"]
  ++ fields TYPE_INT [u "estimated_spread_cost_nanos"; u "estimated_market_impact_nanos";
       u "estimated_venue_fees_nanos"].

Definition OrderRequest_fields : list FieldDescriptor :=
  fields TYPE_STRING [u "order_id"; u "signal_id"; u "symbol"] ++ fields TYPE_INT [u "created_at_ns"]
  ++ fields OrderSide [u "side"] ++ fields OrderTypeEnum [u "order_type"]
  ++ fields TYPE_DOUBLE [u "quantity"; u "limit_price"; u "stop_price"]
  ++ fields TYPE_BYTES [u "hsm_signature"] ++ fields TYPE_STRING [u "hsm_key_id"; u "preferred_venue"]
  ++ fields TYPE_DOUBLE [u "max_venue_toxicity"] ++ fields ExecAlgoEnum [u "algo"]
  ++ fields TYPE_DOUBLE [u "pov_target_rate"; u "iceberg_display_size"]
  ++ fields OrderStatus [u "status"]
  ++ fields TYPE_INT [u "quantity_nanos"; u "limit_price_nanos"; u "stop_price_nanos";
       u "attestation_expires_at_ns"].

Definition PTCCheckResult_fields : list FieldDescriptor :=
  fields TYPE_STRING [u "check_name"] ++ fields PTCType [u "ptc_type"] ++ fields TYPE_BOOL [u "passed"]
  ++ fields TYPE_STRING [u "reason"] ++ fields TYPE_DOUBLE [u "threshold_value"; u "actual_value"].

Definition HITLOverrideRecord_fields : list FieldDescriptor :=
  fields TYPE_STRING [u "operator_id"] ++ fields TYPE_INT [u "override_timestamp_ns"]
  ++ fields TYPE_STRING [u "override_text"] ++ fields TYPE_DOUBLE [u "reverse_guardrail_distress_score"]
  ++ fields TYPE_BOOL [u "cooling_period_enforced"]
  ++ fields TYPE_STRING [u "second_approver_id"; u "decision"].

Definition PostTradeMetrics_fields : list FieldDescriptor :=
  fields TYPE_DOUBLE [u "fill_price"; u "arrival_price"; u "slippage_bps"; u "market_impact_bps";
    u "total_cost_bps"; u "venue_toxicity_score"]
  ++ fields TYPE_STRING [u "venue_used"] ++ fields TYPE_BOOL [u "adverse_selection"]
  ++ fields TYPE_INT [u "fill_timestamp_ns"].

Definition message (full_name : pystr) : ftype := TYPE_MESSAGE full_name false.
Definition ComplianceManifest_fields : list FieldDescriptor :=
  fields TYPE_STRING [u "manifest_id"; u "prev_manifest_hash"] ++ fields TYPE_INT [u "created_at_ns"]
  ++ fields (message MARKET_SNAPSHOT) [u "snapshot"]
  ++ fields TYPE_DOUBLE [u "omega"; u "expected_value"]
  ++ fields TYPE_STRING [u "blue_node_thesis"; u "red_node_challenge"; u "judge_synthesis"]
  ++ [ mkField (u "compression_summaries") TYPE_STRING true;
       mkField (u "ptc_checks") (message PTC_CHECK_RESULT) true ]
  ++ fields TYPE_BOOL [u "hard_block_triggered"; u "soft_block_triggered"]
  ++ fields TYPE_STRING [u "soft_block_reason"] ++ fields TYPE_BOOL [u "hitl_override_occurred"]
  ++ fields (message HITL_OVERRIDE_RECORD) [u "hitl_override"]
  ++ fields (message TRADE_SIGNAL) [u "signal"] ++ fields (message ORDER_REQUEST) [u "order"]
  ++ fields (message POST_TRADE_METRICS) [u "post_trade"]
  ++ fields TYPE_BOOL [u "mar_flag_triggered"] ++ fields TYPE_STRING [u "mar_flag_reason"].

(** [message.DESCRIPTOR.fields], by the message's full name. *)
Definition descriptors : list (pystr * list FieldDescriptor) :=
  [ (MARKET_SNAPSHOT, MarketSnapshot_fields); (TRADE_SIGNAL, TradeSignal_fields);
    (ORDER_REQUEST, OrderRequest_fields); (PTC_CHECK_RESULT, PTCCheckResult_fields);
    (HITL_OVERRIDE_RECORD, HITLOverrideRecord_fields); (POST_TRADE_METRICS, PostTradeMetrics_fields);
    (COMPLIANCE_MANIFEST, ComplianceManifest_fields) ].
Definition fields_of (full_name : pystr) : list FieldDescriptor :=
  default [] (assoc descriptors full_name).

(** ** Reading a field: the value set, else the default of its type *)

Definition default_of (f : FieldDescriptor) : pbval :=
  if f_repeated f then VRep []
  else match f_type f with
       | TYPE_DOUBLE => VDouble (FFin 0 0) | TYPE_INT | TYPE_ENUM _ => VInt 0
       | TYPE_BOOL => VBool false | TYPE_STRING => VStr [] | TYPE_BYTES => VBytes []
       | TYPE_MESSAGE n _ => VMsg n []
       end.

Definition field_named (full_name name : pystr) : option FieldDescriptor :=
  List.find (λ f, str_eqb (f_name f) name) (fields_of full_name).

(** [getattr(message, name)] of a declared field. *)
Definition getattr (m : pbval) (name : pystr) : pbval :=
  match m with
  | VMsg n vals =>
      match assoc vals name with
      | Some v => v
      | None => match field_named n name with Some f => default_of f | None => VRep [] end
      end
  | _ => VRep []
  end.
Definition HasField (m : pbval) (name : pystr) : bool :=
  match m with VMsg _ vals => bool_decide (is_Some (assoc vals name)) | _ => false end.

Definition str_attr (m : pbval) (name : pystr) : pystr :=
  match getattr m name with VStr s => s | _ => [] end.
Definition int_attr (m : pbval) (name : pystr) : Z :=
  match getattr m name with VInt z => z | _ => 0 end.
Definition bool_attr (m : pbval) (name : pystr) : bool :=
  match getattr m name with VBool b => b | _ => false end.
Definition float_attr (m : pbval) (name : pystr) : pyfloat :=
  match getattr m name with VDouble x => x | _ => FFin 0 0 end.

(** ** canonical.py *)

Definition build_error {A} (msg : pystr) : result A := raise ManifestBuildError msg.

Definition float_text (value : pyfloat) : result pystr :=
  match value with
  | FFin m e => Ok (fin_text m e)
  | _ => build_error (u "non-finite floating point value in message")
  end.

Definition enum_name (values : list (Z * pystr)) (z : Z) : option pystr :=
  snd <$> List.find (λ v, v.1 =? z) values.

Definition _scalar (t : ftype) (value : pbval) : result json :=
  match t, value with
  | TYPE_DOUBLE, VDouble x => s ← float_text x; Ok (JStr s)
  | TYPE_ENUM values, VInt z =>
      match enum_name values z with
      | Some name => Ok (JStr name)
      | None => build_error (u "unknown enum number " ++ str_of_Z z)
      end
  | TYPE_BYTES, VBytes b => Ok (JStr (hex b))
  | TYPE_INT, VInt z => Ok (JInt z)
  | TYPE_BOOL, VBool b => Ok (JBool b)
  | TYPE_STRING, VStr s => Ok (JStr s)
  | _, _ => build_error (u "unsupported field type")
  end.

(** One field of [message_to_canonical]: [done] holds the canonical form of what is set. *)
Definition canonical_field (set : list (pystr * result json)) (f : FieldDescriptor)
  : result (pystr * json) :=
  match f_type f with
  | TYPE_MESSAGE _ true => build_error (u "map field " ++ f_name f ++ u " is not supported")
  | t =>
      v ← match assoc set (f_name f) with
          | Some v => v
          | None =>
              if f_repeated f then Ok (JArr [])
              else match t with
                   | TYPE_MESSAGE _ _ => Ok JNull
                   | _ => _scalar t (default_of f)
                   end
          end;
      Ok (f_name f, v)
  end.

(** [_value] of a field's content; for a message, [message_to_canonical]. *)
Fixpoint _value (t : ftype) (value : pbval) : result json :=
  match value with
  | VRep l => items ← mapR id ((λ v, _value t v) <$> l); Ok (JArr items)
  | VMsg n vals =>
      let set := (λ kv, (kv.1, match field_named n kv.1 with
                               | Some f => _value (f_type f) kv.2
                               | None => build_error (u "unknown field")
                               end)) <$> vals in
      doc ← mapR (canonical_field set) (fields_of n); Ok (JObj doc)
  | _ => _scalar t value
  end.

Definition message_to_canonical (m : pbval) : result json := _value (message []) m.

(** A document with its floats as [json.dumps] writes them; NaN and infinities have no text. *)
Fixpoint finite_floats (v : json) : option json :=
  match v with
  | JFloat t => match float_of_text t with FFin _ _ => Some (JFloat (float_str t)) | _ => None end
  | JArr l => JArr <$> (fix go l := match l with
      | [] => Some [] | x :: l => y ← finite_floats x; k ← go l; Some (y :: k) end) l
  | JObj m => JObj <$> (fix go m := match m with
      | [] => Some [] | (k, x) :: m => y ← finite_floats x; n ← go m; Some ((k, y) :: n) end) m
  | _ => Some v
  end.

(** [json.dumps(v, sort_keys=True, separators=(",", ":"), ensure_ascii=True, allow_nan=False)]. *)
Definition dumps_finite (v : json) : result pystr :=
  match finite_floats v with
  | Some w => Ok (dumps_canonical w)
  | None => raise ValueError (u "Out of range float values are not JSON compliant")
  end.

Definition is_type_or_value (c : exn_class) : bool :=
  match c with TypeError | ValueError => true | _ => false end.

Definition canonical_text (document : list (pystr * json)) : result pystr :=
  try_except (dumps_finite (JObj document)) is_type_or_value (λ exc,
    build_error (u "document is not canonically serialisable: " ++ exn_msg exc)).

Definition digest_text (text : pystr) : result pystr :=
  match utf8 text with
  | Some b => Ok (sha256_hex b)
  | None => raise (OtherError (u "UnicodeEncodeError")) (u "surrogates not allowed")
  end.

Definition digest_of (value : json) : result pystr :=
  text ← dumps_finite value; digest_text text.

(** ** Examples *)

Definition ptc_example : pbval :=
  VMsg PTC_CHECK_RESULT [(u "check_name", VStr (u "c1")); (u "ptc_type", VInt 1); (u "passed", VBool true);
    (u "actual_value", VDouble (FFin 1 (-1)))].
Example message_example :
  message_to_canonical ptc_example
  = Ok (JObj [ (u "check_name", JStr (u "c1")); (u "ptc_type", JStr (u "HARD_BLOCK"));
      (u "passed", JBool true); (u "reason", JStr []); (u "threshold_value", JStr (u "0.0"));
      (u "actual_value", JStr (u "0.5")) ]).
Proof. vm_compute. reflexivity. Qed.
Example message_refused :
  is_ok (message_to_canonical (VMsg PTC_CHECK_RESULT [(u "ptc_type", VInt 7)])) = false
  ∧ is_ok (message_to_canonical (VMsg PTC_CHECK_RESULT [(u "actual_value", VDouble FNaN)])) = false.
Proof. vm_compute. split; reflexivity. Qed.
Example digest_example :
  digest_of (JObj [(u "b", JFloat (u "1.50")); (u "a", JNull)]) = digest_text (qq (u "{'a':null,'b':1.5}"))
  ∧ is_ok (canonical_text [(u "a", JFloat (u "NaN"))]) = false.
Proof. vm_compute. split; reflexivity. Qed.
