(* ===== verification/Manifest.v ===== *)
(** * Compliance manifest: building and verifying ([model.py], [retention.py], [builder.py],
    [verify.py])

    What a manifest is built from, the checks that refuse an unsafe combination, the envelope with
    its digests and retention block, and the verification that recomputes all of it from a
    document. [uuid4], the clock and the import of the generated modules are parameters. *)
From S2P Require Import Prelude PyStr PyDecimal PyFloat PyRepr PyTime Sha256 Json ManifestCanonical.

(** ** model.py *)

Definition GENESIS_HASH : pystr := replicate 64 48%N.
Definition SCHEMA_VERSION : Z := 1.
Definition INPUT_SECTIONS : list pystr :=
  [ u "snapshot"; u "signal"; u "order"; u "ptc_checks"; u "hitl_override"; u "cognitive_outputs";
    u "model_versions" ].

Record CognitiveOutputs := mkCognitive {
  blue_node_thesis : pystr; red_node_challenge : pystr; judge_synthesis : pystr;
  compression_summaries : list pystr }.

(** The messages are any Python objects, [None] for an absent one. *)
Record ManifestInputs := mkInputs {
  snapshot : pbval; signal : pbval; order : option pbval;
  model_versions : list (pystr * pystr);
  ptc_checks : list pbval;
  prev_manifest_hash : pystr;
  hitl_override : option pbval;
  cognitive : CognitiveOutputs;
  mar_flag_triggered : bool; mar_flag_reason : pystr }.

Record BuiltManifest := mkBuilt {
  manifest_id : pystr; digest : pystr; document_json : pystr; proto : pbval }.

Definition JSONDecodeError : exn := Exn ValueError (u "JSONDecodeError").

(** [manifest.document]. *)
Definition document (m : BuiltManifest) : result json :=
  match loads (document_json m) with Some doc => Ok doc | None => Raise JSONDecodeError end.

Record VerificationReport := mkReport { ok : bool; problems : list pystr }.

(** ** retention.py *)

Definition RETENTION_YEARS : Z := 7.
Definition RETENTION_SOURCES : list pystr :=
  [ u "agent-core/README.md"; u "agent-core/shared/proto/compliance_manifest.proto";
    u "agent-core/docs/regulatory/eu-ai-act-limited-risk-disclosure.md";
    u "agent-core/infrastructure/docker-compose.yml" ].

Definition OverflowError : exn_class := OtherError (u "OverflowError").

(** Microseconds since the epoch; outside of years 1 to 9999 the addition overflows. *)
Definition datetime_from_ns (ns : Z) : result Z :=
  let us := ns / 1000 in
  if (MIN_US <=? us) && (us <=? MAX_US) then Ok us
  else raise OverflowError (u "date value out of range").

Definition C_INT_MAX : Z := 2 ^ 31 - 1.

(** [datetime(y, m, d) + the time of day t], as [replace] checks its arguments. *)
Definition make_date (y m d t : Z) : result Z :=
  if (C_INT_MAX <? y) || (y <? - C_INT_MAX - 1) then
    raise OverflowError (u "Python int too large to convert to C int")
  else if (y <? 1) || (9999 <? y) then raise ValueError (u "year is out of range")
  else if days_in_month y m <? d then raise ValueError (u "day is out of range for month")
  else Ok ((ymd2ord y m d - EPOCH_ORDINAL) * US_PER_DAY + t).

Definition add_years (moment : Z) (years : Z) : result Z :=
  let '(y, m, d) := ord2ymd (moment / US_PER_DAY + EPOCH_ORDINAL) in
  let t := moment mod US_PER_DAY in
  try_except (make_date (y + years) m d t) (λ c, bool_decide (c = ValueError)) (λ _,
    make_date (y + years) 3 1 t).

Definition retain_until_ns (created_at_ns years : Z) : result Z :=
  start ← datetime_from_ns created_at_ns;
  end_ ← add_years start years;
  Ok (end_ * 1000 + created_at_ns mod 1000).

Definition format_ns_utc (ns : Z) : result pystr := utc_text <$> datetime_from_ns ns.

(** 2024-02-29T12:00Z + 7 years is 2031-03-01T12:00Z; 2023-05-06 + 7 is 2030-05-06. *)
Example retention_examples :
  retain_until_ns 1709208000000000123 7 = Ok 1930132800000000123
  ∧ (n ← retain_until_ns 1709208000000000123 7; format_ns_utc n) = Ok (u "2031-03-01T12:00:00.000000Z")
  ∧ (n ← retain_until_ns 1683331200000000000 7; format_ns_utc n) = Ok (u "2030-05-06T00:00:00.000000Z")
  ∧ (n ← retain_until_ns 1709208000000000123 8; format_ns_utc n) = Ok (u "2032-02-29T12:00:00.000000Z")
  ∧ is_ok (retain_until_ns 1709208000000000123 9000) = false.
Proof. vm_compute. repeat split. Qed.

(** ** builder.py *)

Definition MAX_COMPRESSION_SUMMARIES : nat := 3.
Definition _HITL_DECISIONS : list pystr := [u "approved"; u "rejected"].
Definition HARD_BLOCK : Z := 1.
Definition SOFT_BLOCK : Z := 2.

(** [DESCRIPTOR.full_name], when the object has one. *)
Definition full_name_of (m : pbval) : option pystr := match m with VMsg n _ => Some n | _ => None end.

Definition _expect (m : pbval) (full_name label : pystr) : result unit :=
  guard_raise (negb (bool_decide (full_name_of m = Some full_name))) ManifestBuildError
    (label ++ u " must be a " ++ full_name ++ u " message").

Definition build_guard (bad : bool) (msg : pystr) : result unit := guard_raise bad ManifestBuildError msg.

Definition _check_common (inputs : ManifestInputs) : result unit :=
  _ ← _expect (snapshot inputs) MARKET_SNAPSHOT (u "snapshot");
  _ ← _expect (signal inputs) TRADE_SIGNAL (u "signal");
  _ ← match order inputs with Some o => _expect o ORDER_REQUEST (u "order") | None => Ok tt end;
  _ ← build_guard (negb (hash_re (prev_manifest_hash inputs)))
        (u "prev_manifest_hash must be 64 lowercase hex chars (genesis: zeros)");
  _ ← build_guard (bool_decide (model_versions inputs = []))
        (u "model_versions must identify at least one model/version");
  _ ← build_guard (existsb (λ kv, is_blank kv.1 || is_blank kv.2) (model_versions inputs))
        (u "model_versions keys and values must be non-empty");
  build_guard (MAX_COMPRESSION_SUMMARIES <? length (compression_summaries (cognitive inputs)))%nat
    (u "at most 3 compression summaries").

Definition isfinite (x : pyfloat) : bool := match x with FFin _ _ => true | _ => false end.

(** [x or y] on strings. *)
Definition str_or (x y : pystr) : pystr := if bool_decide (x = []) then y else x.

(** One turn of the loop of [_check_ptc]: what failed so far, and the reasons of the soft ones. *)
Definition check_one (acc : bool * bool * list pystr) (check : pbval) : result (bool * bool * list pystr) :=
  let '(hard, soft, soft_reasons) := acc in
  let name := str_attr check (u "check_name") in
  let ptc_type := int_attr check (u "ptc_type") in
  _ ← _expect check PTC_CHECK_RESULT (u "ptc check");
  _ ← build_guard (is_blank name) (u "every PTC check needs a check_name");
  _ ← build_guard (negb ((ptc_type =? HARD_BLOCK) || (ptc_type =? SOFT_BLOCK)))
        (u "PTC check " ++ repr_str name ++ u " has no HARD/SOFT type");
  _ ← build_guard (negb (isfinite (float_attr check (u "threshold_value"))
                         && isfinite (float_attr check (u "actual_value"))))
        (u "PTC check " ++ repr_str name ++ u " has non-finite values");
  if bool_attr check (u "passed") then Ok acc
  else if ptc_type =? HARD_BLOCK then Ok (true, soft, soft_reasons)
  else Ok (hard, true, soft_reasons ++ [str_or (str_attr check (u "reason")) name]).

(** [stubs] is the import of the generated module. *)
Definition _check_ptc (stubs : result unit) (inputs : ManifestInputs) : result (bool * bool * pystr) :=
  _ ← build_guard (bool_decide (ptc_checks inputs = []))
        (u "pre-trade-control results are required (none supplied)");
  _ ← stubs;
  '(hard, soft, soft_reasons) ← foldR check_one (false, false, []) (ptc_checks inputs);
  Ok (hard, soft, join (u "; ") soft_reasons).

Definition decision_of (hitl : pbval) : pystr := str_attr hitl (u "decision").

Definition _check_consistency (inputs : ManifestInputs) (hard soft : bool) : result unit :=
  let snap := snapshot inputs in
  let sig := signal inputs in
  _ ← build_guard (negb (str_eqb (str_attr snap (u "symbol")) (str_attr sig (u "symbol")))
                   || bool_decide (str_attr snap (u "symbol") = []))
        (u "snapshot and signal must reference the same non-empty symbol");
  _ ← match hitl_override inputs with
      | None => Ok tt
      | Some hitl =>
          _ ← _expect hitl HITL_OVERRIDE_RECORD (u "hitl_override");
          build_guard (negb (bool_decide (decision_of hitl ∈ _HITL_DECISIONS))
                       || is_blank (str_attr hitl (u "operator_id")))
            (u "HITL record needs operator_id and decision approved|rejected")
      end;
  match order inputs with
  | None => Ok tt
  | Some o =>
      _ ← build_guard (negb (str_eqb (str_attr o (u "signal_id")) (str_attr sig (u "signal_id")))
                       || negb (str_eqb (str_attr o (u "symbol")) (str_attr sig (u "symbol"))))
            (u "order does not belong to the signal (signal_id/symbol mismatch)");
      _ ← build_guard hard (u "a hard-block PTC failed: an order must not exist for this trade");
      _ ← build_guard (bool_attr snap (u "is_stale")) (u "order was derived from a stale market snapshot");
      _ ← build_guard (match hitl_override inputs with
                       | Some hitl => bool_decide (decision_of hitl = u "rejected") | None => false end)
            (u "HITL rejected the trade: an order must not exist");
      build_guard (soft && negb (match hitl_override inputs with
                       | Some hitl => bool_decide (decision_of hitl = u "approved") | None => false end))
        (u "soft-block PTC failed: an approved HITL record is required for an order")
  end.

(** What the generated class does with a string or an int64 it is given. *)
Definition pb_string (s : pystr) : result pbval :=
  if str_ok s then Ok (VStr s) else raise (OtherError (u "UnicodeEncodeError")) (u "surrogates not allowed").
Definition pb_int64 (z : Z) : result pbval :=
  if (- 2 ^ 63 <=? z) && (z <? 2 ^ 63) then Ok (VInt z) else raise ValueError (u "Value out of range").

Definition set_field (name : pystr) (v : result pbval) : result (pystr * pbval) := x ← v; Ok (name, x).
Definition optional_field (name : pystr) (m : option pbval) : list (pystr * pbval) :=
  match m with Some v => [(name, v)] | None => [] end.

Definition _assemble_proto (stubs : result unit) (inputs : ManifestInputs) (manifest_id : pystr)
  (created_at_ns : Z) (hard soft : bool) (reason : pystr) : result pbval :=
  let cog := cognitive inputs in
  let sig := signal inputs in
  _ ← stubs;
  scalars ← mapR (λ kv, set_field kv.1 kv.2)
    [ (u "manifest_id", pb_string manifest_id);
      (u "prev_manifest_hash", pb_string (prev_manifest_hash inputs));
      (u "created_at_ns", pb_int64 created_at_ns);
      (u "omega", Ok (VDouble (float_attr sig (u "omega"))));
      (u "expected_value", Ok (VDouble (float_attr sig (u "expected_value"))));
      (u "blue_node_thesis", pb_string (blue_node_thesis cog));
      (u "red_node_challenge", pb_string (red_node_challenge cog));
      (u "judge_synthesis", pb_string (str_or (judge_synthesis cog) (str_attr sig (u "debate_summary"))));
      (u "compression_summaries", l ← mapR pb_string (compression_summaries cog); Ok (VRep l));
      (u "hard_block_triggered", Ok (VBool hard));
      (u "soft_block_triggered", Ok (VBool soft));
      (u "soft_block_reason", pb_string reason);
      (u "hitl_override_occurred", Ok (VBool (bool_decide (is_Some (hitl_override inputs)))));
      (u "mar_flag_triggered", Ok (VBool (mar_flag_triggered inputs)));
      (u "mar_flag_reason", pb_string (mar_flag_reason inputs)) ];
  Ok (VMsg COMPLIANCE_MANIFEST (scalars
      ++ [ (u "snapshot", snapshot inputs); (u "signal", sig); (u "ptc_checks", VRep (ptc_checks inputs)) ]
      ++ optional_field (u "order") (order inputs)
      ++ optional_field (u "hitl_override") (hitl_override inputs))).

(** ** Sections and their digests *)

Definition AttributeError : exn_class := OtherError (u "AttributeError").

(** [v[key]] of decoded JSON. *)
Definition getitem (v : json) (key : pystr) : result json :=
  match v with
  | JObj m => match obj_get m key with Some x => Ok x | None => raise KeyError (repr_str key) end
  | _ => raise TypeError (u "indices must be integers")
  end.

(** [list(x)] of an element given to [dict]. *)
Definition sequence (x : json) : option (list json) :=
  match x with
  | JArr l => Some l
  | JStr s => Some ((λ c, JStr [c]) <$> s)
  | JObj m => Some ((λ kv, JStr kv.1) <$> m)
  | _ => None
  end.
Definition hashable (x : json) : bool := match x with JArr _ | JObj _ => false | _ => true end.

Fixpoint dict_set (m : list (json * json)) (k v : json) : list (json * json) :=
  match m with
  | [] => [(k, v)]
  | (k', v') :: m => if py_eq k k' then (k', v) :: m else (k', v') :: dict_set m k v
  end.

(** [dict(v)]: of a mapping, or of a sequence of pairs. *)
Definition dict_item (m : list (json * json)) (x : json) : result (list (json * json)) :=
  match sequence x with
  | None => raise TypeError (u "cannot convert dictionary update sequence element to a sequence")
  | Some [k; v] => if hashable k then Ok (dict_set m k v) else raise TypeError (u "unhashable type")
  | Some _ => raise ValueError (u "dictionary update sequence element has wrong length; 2 is required")
  end.
Definition dict (v : json) : result (list (json * json)) :=
  match v with
  | JObj m => Ok (prod_map JStr id <$> m)
  | JArr l => foldR dict_item [] l
  | JStr s => foldR dict_item [] ((λ c, JStr [c]) <$> s)
  | _ => raise TypeError (u "object is not iterable")
  end.

(** A dict as [json.dumps] writes it with [sort_keys]: keys of other types than [str] are turned
    into text after sorting, and keys of different kinds cannot be sorted. *)
Definition str_key (kv : json * json) : option (pystr * json) :=
  match kv.1 with JStr k => Some (k, kv.2) | _ => None end.
Definition key_text (k : json) : pystr :=
  match k with
  | JNull => u "null" | JBool b => if b then u "true" else u "false"
  | JInt z => str_of_Z z | JFloat t => float_str t | JStr s => s | _ => []
  end.
Definition num_ltb (a b : json) : bool :=
  match num_of a, num_of b with Some x, Some y => float_ltb x y | _, _ => false end.
Fixpoint insert_num (kv : json * json) (l : list (json * json)) : list (json * json) :=
  match l with
  | [] => [kv]
  | x :: l' => if num_ltb x.1 kv.1 then x :: insert_num kv l' else kv :: l
  end.
Definition dumps_item (kv : json * json) : result pystr :=
  key ← dumps_finite kv.1; v ← dumps_finite kv.2; Ok (quoted (key_text kv.1) ++ u ":" ++ v).
Definition dumps_dict (items : list (json * json)) : result pystr :=
  match mapM str_key items with
  | Some m => dumps_finite (JObj m)
  | None =>
      if (1 <? length items)%nat && negb (forallb (λ kv, bool_decide (is_Some (num_of kv.1))) items) then
        raise TypeError (u "'<' not supported between instances of different types")
      else
        texts ← mapR dumps_item (foldr insert_num [] items);
        Ok (u "{" ++ join (u ",") texts ++ u "}")
  end.

(** A digested section: part of the document, or the dict made of [model_versions]. *)
Inductive section := Doc (v : json) | Dict (items : list (json * json)).
Definition section_digest (s : section) : result pystr :=
  match s with Doc v => digest_of v | Dict items => text ← dumps_dict items; digest_text text end.

Definition COGNITIVE_KEYS : list pystr :=
  [ u "blue_node_thesis"; u "red_node_challenge"; u "judge_synthesis"; u "compression_summaries";
    u "omega"; u "expected_value" ].

Definition input_sections (proto_doc model_versions : json) : result (list (pystr * section)) :=
  direct ← mapR (λ key, v ← getitem proto_doc key; Ok (key, Doc v))
             [u "snapshot"; u "signal"; u "order"; u "ptc_checks"; u "hitl_override"];
  outputs ← mapR (λ key, v ← getitem proto_doc key; Ok (key, v)) COGNITIVE_KEYS;
  versions ← dict model_versions;
  Ok (direct ++ [(u "cognitive_outputs", Doc (JObj outputs)); (u "model_versions", Dict versions)]).

(** [sections[name]] for the names of [INPUT_SECTIONS]. *)
Definition section_named (sections : list (pystr * section)) (name : pystr) : section :=
  default (Doc JNull) (assoc sections name).

(** ** build_manifest *)

Definition versions_doc (inputs : ManifestInputs) : json := JObj (prod_map id JStr <$> model_versions inputs).

Definition retention_doc (years created_at_ns until : Z) (until_text : pystr) : json :=
  JObj [ (u "years", JInt years); (u "created_at_ns", JInt created_at_ns);
         (u "retain_until_ns", JInt until); (u "retain_until", JStr until_text);
         (u "basis", JArr (JStr <$> RETENTION_SOURCES)) ].

Definition build_manifest (stubs : result unit) (clock_ns : Z) (id_factory : pystr)
  (retention_years : Z) (inputs : ManifestInputs) : result BuiltManifest :=
  _ ← build_guard (retention_years <? RETENTION_YEARS) (u "retention_years must be >= 7");
  _ ← _check_common inputs;
  '(hard, soft, reason) ← _check_ptc stubs inputs;
  _ ← _check_consistency inputs hard soft;
  let created_at_ns := clock_ns in
  _ ← build_guard (created_at_ns <=? 0) (u "clock returned a non-positive timestamp");
  let manifest_id := id_factory in
  _ ← build_guard (is_blank manifest_id) (u "manifest_id must be non-empty");
  proto ← _assemble_proto stubs inputs manifest_id created_at_ns hard soft reason;
  proto_doc ← message_to_canonical proto;
  sections ← input_sections proto_doc (versions_doc inputs);
  until ← retain_until_ns created_at_ns retention_years;
  digests ← mapR (λ name, d ← section_digest (section_named sections name); Ok (name, JStr d)) INPUT_SECTIONS;
  until_text ← format_ns_utc until;
  let doc := [ (u "schema_version", JInt SCHEMA_VERSION); (u "manifest", proto_doc);
               (u "model_versions", versions_doc inputs); (u "input_digests", JObj digests);
               (u "retention", retention_doc retention_years created_at_ns until until_text) ] in
  text ← canonical_text doc;
  digest ← digest_text text;
  document_json ← canonical_text (doc ++ [(u "manifest_digest", JStr digest)]);
  Ok (mkBuilt manifest_id digest document_json proto).

(** ** verify.py *)

Definition _REQUIRED : list pystr :=
  [ u "schema_version"; u "manifest"; u "model_versions"; u "input_digests"; u "retention";
    u "manifest_digest" ].

Definition has_key (doc : list (pystr * json)) (key : pystr) : bool :=
  bool_decide (is_Some (obj_get doc key)).
(** [repr(v)]. *)
Definition plain_repr : json → pystr := repr_with float_str.

Definition _structure_problems (doc : list (pystr * json)) : list pystr :=
  let version := default JNull (obj_get doc (u "schema_version")) in
  ((λ key, u "missing key: " ++ key) <$> filter (λ key, has_key doc key = false) _REQUIRED)
  ++ (if py_eq version (JInt SCHEMA_VERSION) then []
      else [u "unsupported schema_version: " ++ plain_repr version]).

(** [int(v)] of decoded JSON. *)
Definition to_int (v : json) : result Z :=
  match v with
  | JInt z => Ok z
  | JBool b => Ok (if b then 1 else 0)
  | JFloat t =>
      match float_of_text t with
      | FFin m e => Ok (if 0 <=? e then m * 2 ^ e else Z.quot m (2 ^ (- e)))
      | FInf _ => raise OverflowError (u "cannot convert float infinity to integer")
      | FNaN => raise ValueError (u "cannot convert float NaN to integer")
      end
  | JStr s => match int_of_str s with Some z => Ok z
              | None => raise ValueError (u "invalid literal for int()") end
  | _ => raise TypeError (u "int() argument must be a string or a number")
  end.

Definition is_malformed (c : exn_class) : bool :=
  match c with KeyError | TypeError | ValueError => true | _ => false end.

(** The body of the [try] of [_retention_problems]: the problems found before it ended, and how. *)
Definition retention_body (ret manifest : json) : M (list pystr) unit :=
  years ← lift (y ← getitem ret (u "years"); to_int y);
  created ← lift (c ← getitem ret (u "created_at_ns"); to_int c);
  (if years <? RETENTION_YEARS
   then modify (λ ps, ps ++ [u "retention years " ++ str_of_Z years ++ u " below the required 7"])
   else mret tt) ≫= λ _,
  manifest_created ← lift (getitem manifest (u "created_at_ns"));
  (if py_eq (JInt created) manifest_created then mret tt
   else modify (λ ps, ps ++ [u "retention.created_at_ns differs from manifest.created_at_ns"])) ≫= λ _,
  recorded ← lift (getitem ret (u "retain_until_ns"));
  until ← lift (retain_until_ns created years);
  if py_eq recorded (JInt until) then mret tt
  else modify (λ ps, ps ++ [u "retention.retain_until_ns is not created_at + years"]).

Definition _retention_problems (doc : list (pystr * json)) : result (list pystr) :=
  ret ← getitem (JObj doc) (u "retention");
  manifest ← getitem (JObj doc) (u "manifest");
  match retention_body ret manifest [] with
  | (Ok _, ps) => Ok ps
  | (Raise e, ps) =>
      if is_malformed (exn_kind e) then Ok (ps ++ [u "retention block is malformed"]) else Raise e
  end.

(** [v.get(key, default_)]. *)
Definition dict_get (v : json) (key : pystr) (default_ : json) : result json :=
  match v with
  | JObj m => Ok (default default_ (obj_get m key))
  | _ => raise AttributeError (u "object has no attribute 'get'")
  end.

Definition is_key_or_type (c : exn_class) : bool :=
  match c with KeyError | TypeError => true | _ => false end.

Definition _digest_problems (doc : list (pystr * json)) : result (list pystr) :=
  manifest ← getitem (JObj doc) (u "manifest");
  match (versions ← getitem (JObj doc) (u "model_versions"); input_sections manifest versions) with
  | Raise e => if is_key_or_type (exn_kind e) then Ok [u "manifest block is malformed"] else Raise e
  | Ok sections =>
      recorded ← getitem (JObj doc) (u "input_digests");
      mismatches ← mapR (λ name,
        r ← dict_get recorded name JNull;
        d ← section_digest (section_named sections name);
        Ok (if py_eq r (JStr d) then [] else [u "input digest mismatch: " ++ name])) INPUT_SECTIONS;
      let body := filter (λ kv, kv.1 ≠ u "manifest_digest") doc in
      recorded_digest ← getitem (JObj doc) (u "manifest_digest");
      text ← canonical_text body;
      d ← digest_text text;
      prev ← dict_get manifest (u "prev_manifest_hash") (JStr []);
      Ok (concat mismatches
          ++ (if py_eq recorded_digest (JStr d) then [] else [u "manifest_digest mismatch"])
          ++ (if hash_re (plain_str prev) then [] else [u "prev_manifest_hash is not a sha256 hex string"]))
  end.

(** [json.loads] gives any value; the methods used are those of a dict. *)
Definition verify_document (doc : list (pystr * json)) : result VerificationReport :=
  let problems := _structure_problems doc in
  problems ← (if bool_decide (problems = []) then
                ds ← _digest_problems doc; rs ← _retention_problems doc; Ok (ds ++ rs)
              else Ok problems);
  Ok (mkReport (bool_decide (problems = [])) problems).

(** A [ManifestError] of [message_to_canonical] is reported. *)
Definition is_manifest_error (c : exn_class) : bool :=
  match c with
  | ManifestError | ManifestBuildError | ManifestStoreError | ManifestAuditError _ _ => true
  | _ => false
  end.

Definition verify (manifest : BuiltManifest) : result VerificationReport :=
  decoded ← document manifest;
  match decoded with
  | JObj doc =>
      report ← verify_document doc;
      text ← canonical_text doc;
      agreement ← try_except
        (d ← message_to_canonical (proto manifest);
         Ok (if py_eq d (default JNull (obj_get doc (u "manifest"))) then []
             else [u "protobuf message differs from the manifest section of the document"]))
        is_manifest_error
        (λ exc, Ok [u "protobuf message cannot be canonicalised: " ++ exn_msg exc]);
      let problems := problems report
        ++ (if str_eqb (document_json manifest) text then [] else [u "document_json is not in canonical form"])
        ++ (if py_eq (default JNull (obj_get doc (u "manifest_digest"))) (JStr (digest manifest)) then []
            else [u "digest attribute differs from manifest_digest in the document"])
        ++ agreement in
      Ok (mkReport (bool_decide (problems = [])) problems)
  | JNull | JBool _ | JInt _ | JFloat _ => raise TypeError (u "argument is not iterable")
  | JStr _ | JArr _ => raise AttributeError (u "object has no attribute 'get'")
  end.

(** ** Example: a trade with a soft block that the operator approved *)

Definition ptc_check (name : pystr) (ptc_type : Z) (passed : bool) : pbval :=
  VMsg PTC_CHECK_RESULT [ (u "check_name", VStr name); (u "ptc_type", VInt ptc_type);
    (u "passed", VBool passed); (u "threshold_value", VDouble (FFin 1 0)) ].
Definition example_inputs : ManifestInputs := mkInputs
  (VMsg MARKET_SNAPSHOT [(u "symbol", VStr (u "AAPL")); (u "mid_price", VDouble (FFin 401 (-2)))])
  (VMsg TRADE_SIGNAL [(u "signal_id", VStr (u "sig-1")); (u "symbol", VStr (u "AAPL")); (u "side", VInt 1)])
  (Some (VMsg ORDER_REQUEST [(u "order_id", VStr (u "o1")); (u "signal_id", VStr (u "sig-1"));
    (u "symbol", VStr (u "AAPL")); (u "hsm_signature", VBytes [0; 255]%N)]))
  [(u "judge", u "v1"); (u "aegis", u "2.0")]
  [ptc_check (u "c1") 1 true; ptc_check (u "c2") 2 false]
  GENESIS_HASH
  (Some (VMsg HITL_OVERRIDE_RECORD [(u "operator_id", VStr (u "bob")); (u "decision", VStr (u "approved"))]))
  (mkCognitive (u "buy") (u "why") [] [u "s1"]) false [].
Definition example_manifest : result BuiltManifest :=
  build_manifest (Ok tt) 1709208000000000123 (u "m-1") 7 example_inputs.

Example example_refused :
  is_ok (build_manifest (Ok tt) 1 (u "m") 7 (mkInputs (snapshot example_inputs) (signal example_inputs)
    (order example_inputs) (model_versions example_inputs) (ptc_checks example_inputs) GENESIS_HASH None
    (cognitive example_inputs) false [])) = false
  ∧ is_ok (build_manifest (Ok tt) 1 (u "m") 6 example_inputs) = false.
Proof. vm_compute. split; reflexivity. Qed.
