(* ===== verification/ManifestFacts.v ===== *)
(** * Compliance manifest: what a built manifest promises

    The canonical form of a valid message is a document without floats, so reading a manifest back
    gives the document that was written: a built manifest verifies, its retention is long enough,
    and the order in it was allowed to exist. *)
From S2P Require Import Prelude PyStr PyDecimal PyFloat PyRepr PyTime Sha256 Json JsonFacts AuditCanonical.
From S2P Require Import ManifestCanonical Manifest.

(** ** Documents without floats *)

Lemma finite_floats_id v : json_ok v → finite_floats v = Some v.
Proof.
  induction v as [|b|z|t|s|l IH|m IH] using json_ind'; intros H; try done.
  - apply json_ok_arr in H. cbn. assert (∀ k, Forall json_ok k → Forall (λ v, json_ok v → finite_floats v = Some v) k →
      (fix go l := match l with
      | [] => Some [] | x :: l => y ← finite_floats x; k ← go l; Some (y :: k) end) k = Some k) as ->; [|done..].
    clear. intros k. induction k as [|x k IHk]; [done|].
    intros [Hx Hk]%Forall_cons [Ex Ek]%Forall_cons. by rewrite Ex, IHk.
  - apply json_ok_obj in H as [_ H]. cbn. assert (∀ k : list (pystr * json), Forall (λ kv, json_ok kv.2) k →
      Forall (λ kv, json_ok kv.2 → finite_floats kv.2 = Some kv.2) k →
      (fix go m := match m with
      | [] => Some [] | (k, x) :: m => y ← finite_floats x; n ← go m; Some ((k, y) :: n) end) k = Some k) as ->;
      [|done|eapply Forall_impl; [done|]; by intros ? []|done].
    clear. intros k. induction k as [|[x v] k IHk]; [done|].
    intros [Hx Hk]%Forall_cons [Ex Ek]%Forall_cons. cbn in Ex. by rewrite Ex, IHk.
Qed.

Lemma dumps_finite_ok v : json_ok v → dumps_finite v = Ok (dumps_canonical v).
Proof. intros H. unfold dumps_finite. by rewrite finite_floats_id. Qed.

Lemma canonical_text_ok m : json_ok (JObj m) → canonical_text m = Ok (dumps_canonical (JObj m)).
Proof. intros H. unfold canonical_text. by rewrite dumps_finite_ok. Qed.

Lemma digest_text_ascii t : is_ascii t = true → digest_text t = Ok (sha256_hex t).
Proof. intros H. unfold digest_text. by rewrite utf8_ascii. Qed.

Lemma digest_of_ok v : json_ok v → digest_of v = Ok (sha256_hex (dumps_canonical v)).
Proof.
  intros H. unfold digest_of. rewrite dumps_finite_ok by done. cbn.
  by apply digest_text_ascii, dumps_ascii.
Qed.

(** ** The canonical form of a message *)

(** What protobuf accepts as a value: UTF-8 text, bytes, 64-bit integers. *)
Fixpoint pb_ok (v : pbval) : Prop :=
  match v with
  | VStr s => str_ok s = true
  | VInt z => INT64_MIN ≤ z ≤ INT64_MAX
  | VBytes b => Forall (λ x, (x < 256)%N) b
  | VRep l => (fix go l := match l with [] => True | x :: l => pb_ok x ∧ go l end) l
  | VMsg _ m => (fix go m := match m with [] => True | (_, x) :: m => pb_ok x ∧ go m end) m
  | VDouble _ | VBool _ => True
  end.
Lemma pb_ok_rep l : pb_ok (VRep l) ↔ Forall pb_ok l.
Proof.
  cbn. induction l as [|x l IH]; [by split|].
  split; [intros (? & ?)|intros [? ?]%Forall_cons]; try apply Forall_cons; naive_solver.
Qed.
Lemma pb_ok_msg n m : pb_ok (VMsg n m) ↔ Forall (λ kv, pb_ok kv.2) m.
Proof.
  cbn. induction m as [|[k x] m IH]; [by split|].
  split; [intros (? & ?)|intros [? ?]%Forall_cons]; try apply Forall_cons; naive_solver.
Qed.

Definition type_ok (t : ftype) : bool :=
  match t with TYPE_ENUM vs => forallb (λ v, str_ok v.2) vs | _ => true end.
Definition field_ok (f : FieldDescriptor) : bool := str_ok (f_name f) && type_ok (f_type f).

Lemma descriptors_ok n :
  forallb field_ok (fields_of n) = true ∧ NoDup (f_name <$> fields_of n).
Proof.
  unfold fields_of. destruct (assoc descriptors n) as [fs|] eqn:E; cbn [default]; [|split; [done|constructor]].
  assert (forallb (λ d, forallb field_ok d.2 && bool_decide (NoDup (f_name <$> d.2))) descriptors = true) as H
    by (vm_compute; reflexivity).
  assert (∃ k, (k, fs) ∈ descriptors) as [k Hin].
  { revert E. generalize descriptors. induction l as [|[k' x] l IH]; cbn; [done|].
    destruct (str_eqb n k'); [intros [= ->]; exists k'; apply list_elem_of_here|].
    intros Hl. destruct (IH Hl) as [k Hk]. exists k. by apply list_elem_of_further. }
  rewrite forallb_forall in H. apply list_elem_of_In in Hin. apply H in Hin.
  cbn [snd] in Hin. rewrite andb_true_iff, bool_decide_eq_true in Hin. exact Hin.
Qed.

Lemma zeros_ascii z : is_ascii (zeros z) = true.
Proof. unfold zeros. induction (Z.to_nat z); [done|]. cbn. done. Qed.
Lemma take_ascii n s : is_ascii s = true → is_ascii (take n s) = true.
Proof. unfold is_ascii. rewrite !forallb_forall. intros H x Hx. apply H. rewrite <- (take_drop n s). apply in_or_app. auto. Qed.
Lemma drop_ascii n s : is_ascii s = true → is_ascii (drop n s) = true.
Proof. unfold is_ascii. rewrite !forallb_forall. intros H x Hx. apply H. rewrite <- (take_drop n s). apply in_or_app. auto. Qed.

Lemma fin_text_ascii m e : is_ascii (fin_text m e) = true.
Proof.
  unfold fin_text. destruct (m =? 0); [done|]. destruct (shortest _ _ _ _ _) as [c x].
  rewrite is_ascii_app. apply andb_true_iff. split; [by destruct (m <? 0)|].
  unfold PyFloat.float_text. destruct (strip_to _ _ _ _) as [c' x'].
  pose proof (str_of_Z_ascii c') as H. pose proof (str_of_Z_ascii (Z.abs (Z.of_nat (length (str_of_Z c')) + x' - 1))) as H'.
  repeat case_match; rewrite ?is_ascii_app, ?zeros_ascii, ?take_ascii, ?drop_ascii, ?H, ?H' by done; done.
Qed.

Lemma hex_ascii b : Forall (λ x, (x < 256)%N) b → is_ascii (hex b) = true.
Proof.
  induction 1 as [|x b Hx Hb IH]; [done|]. unfold hex in *. cbn [mbind list_bind].
  rewrite is_ascii_app, IH, andb_true_r. cbn. rewrite andb_true_r.
  assert (∀ d, (d < 16)%N → (Sha256.hex_digit d <? 128)%N = true) as Hd.
  { intros d Hd. unfold Sha256.hex_digit. destruct (d <? 10)%N eqn:?; apply N.ltb_lt; lia. }
  rewrite !Hd by divlia. done.
Qed.

Lemma enum_name_ok vs z n : forallb (λ v, str_ok v.2) vs = true → enum_name vs z = Some n → str_ok n = true.
Proof.
  unfold enum_name. rewrite forallb_forall. intros H E.
  destruct (List.find _ vs) as [v|] eqn:Ef; [|done]. apply find_some in Ef as [Hin _].
  injection E as <-. by apply H.
Qed.

Lemma scalar_ok t v j : type_ok t = true → pb_ok v → _scalar t v = Ok j → json_ok j.
Proof.
  intros Ht Hv. unfold _scalar, float_text, build_error. intros H.
  repeat case_match; ok_inv; subst; cbn [json_ok]; try done.
  - by apply is_ascii_ok, fin_text_ascii.
  - by apply int64_digits.
  - by apply is_ascii_ok, hex_ascii.
  - by eapply enum_name_ok.
Qed.

Definition set_of (n : pystr) (vals : list (pystr * pbval)) : list (pystr * result json) :=
  (λ kv, (kv.1, match field_named n kv.1 with
                | Some f => _value (f_type f) kv.2
                | None => build_error (u "unknown field")
                end)) <$> vals.

Lemma assoc_set n vals k :
  assoc (set_of n vals) k =
  (λ v, match field_named n k with Some f => _value (f_type f) v | None => build_error (u "unknown field") end)
  <$> assoc vals k.
Proof.
  induction vals as [|[k' v] vals IH]; cbn; [done|]. destruct (str_eqb k k') eqn:E; [|done].
  by apply str_eqb_true in E as ->.
Qed.

Lemma assoc_elem {A} (m : list (pystr * A)) k v : assoc m k = Some v → (k, v) ∈ m.
Proof.
  induction m as [|[k' x] m IH]; cbn; [done|]. destruct (str_eqb k k') eqn:E.
  - apply str_eqb_true in E as ->. intros [= ->]. apply list_elem_of_here.
  - intros H. apply list_elem_of_further; auto.
Qed.

Lemma value_msg t n vals :
  _value t (VMsg n vals) = (doc ← mapR (canonical_field (set_of n vals)) (fields_of n); Ok (JObj doc)).
Proof. reflexivity. Qed.

(** A message is walked by its own descriptor. *)
Lemma value_message a b v : _value (TYPE_MESSAGE a b) v = message_to_canonical v.
Proof.
  unfold message_to_canonical. induction v as [x|z|t|s|t|l IH|n m IH] using pbval_ind'; try done.
  cbn [_value]. f_equal. f_equal. apply list_fmap_ext. intros k x Hx. rewrite Forall_lookup in IH. by eapply IH.
Qed.

Lemma field_named_ok n k f : field_named n k = Some f → type_ok (f_type f) = true ∧ str_ok (f_name f) = true ∧ f_name f = k ∧ f ∈ fields_of n.
Proof.
  unfold field_named. intros H. apply find_some in H as [Hin Hk%str_eqb_true].
  destruct (descriptors_ok n) as [Hok _]. rewrite forallb_forall in Hok. pose proof (Hok f Hin) as Hf.
  unfold field_ok in Hf. rewrite andb_true_iff in Hf. apply list_elem_of_In in Hin. tauto.
Qed.

Lemma field_named_in n f : f ∈ fields_of n → field_named n (f_name f) = Some f.
Proof.
  unfold field_named. destruct (descriptors_ok n) as [_ Hn]. revert Hn.
  generalize (fields_of n). induction l as [|g l IH]; [by intros _ []%elem_of_nil|].
  cbn. intros [Hg Hn]%NoDup_cons [->|Hin]%elem_of_cons; [by rewrite str_eqb_refl|].
  destruct (str_eqb (f_name g) (f_name f)) eqn:E; [|auto]. apply str_eqb_true in E.
  destruct Hg. rewrite E. apply list_elem_of_fmap. eauto.
Qed.

Lemma canonical_field_name set f kv : canonical_field set f = Ok kv → kv.1 = f_name f.
Proof. unfold canonical_field, build_error. intros H. repeat case_match; ok_inv; by subst. Qed.

Lemma canonical_names set fs doc : mapR (canonical_field set) fs = Ok doc → doc.*1 = f_name <$> fs.
Proof.
  intros H%mapR_Ok. induction H as [|f kv fs doc Hf _ IH]; cbn; [done|].
  by rewrite IH, (canonical_field_name _ _ _ Hf).
Qed.

Lemma value_json_ok v : ∀ t j, type_ok t = true → pb_ok v → _value t v = Ok j → json_ok j.
Proof.
  induction v as [x|z|b|s|b|l IH|n m IH] using pbval_ind'; intros t j Ht Hv H; try by eapply scalar_ok.
  - cbn [_value] in H. ok_inv. subst. apply mapR_Ok in E. apply json_ok_arr.
    apply pb_ok_rep in Hv. revert a E. induction l as [|x l IHl]; cbn; intros a E; inversion E as [|? y ? ys Ex Eys]; subst; [done|].
    apply Forall_cons in IH as [? ?], Hv as [? ?]. apply Forall_cons. split; eauto.
  - rewrite value_msg in H. ok_inv. subst.
    destruct (descriptors_ok n) as [Hok Hn].
    pose proof (canonical_names _ _ _ E) as En. apply mapR_Ok in E.
    apply json_ok_obj. split; [by rewrite En|].
    rewrite forallb_forall in Hok. rewrite Forall_forall.
    intros [k x] (i & Hi)%list_elem_of_lookup. destruct (Forall2_lookup_r _ _ _ _ _ E Hi) as (f & Hf & Ef).
    apply list_elem_of_lookup_2 in Hf.
    pose proof (canonical_field_name _ _ _ Ef) as Ek. cbn in Ek. subst k.
    destruct (field_named_ok n (f_name f) f) as (Hft & Hfn & _); [by apply field_named_in|].
    split; [done|]. cbn. unfold canonical_field, build_error in Ef. apply pb_ok_msg in Hv.
    rewrite assoc_set, field_named_in in Ef by done.
    destruct (assoc m (f_name f)) as [y|] eqn:Ey; cbn [fmap option_fmap option_map] in Ef.
    + apply assoc_elem in Ey. rewrite Forall_forall in IH, Hv.
      repeat case_match; ok_inv; simplify_eq;
        (eapply (IH _ Ey); [|by apply (Hv _ Ey)|done]); by rewrite ?Hft.
    + assert (pb_ok (default_of f)) as Hd by (unfold default_of; repeat case_match; cbn; unfold INT64_MIN, INT64_MAX; try done; lia).
      repeat case_match; ok_inv; simplify_eq; try done; eapply scalar_ok; try done.
Qed.

(** ** Retention *)

Definition leaps (n : Z) : Z := n / 4 - n / 100 + n / 400.
Lemma days_before_year_leaps y : days_before_year y = 365 * (y - 1) + leaps (y - 1).
Proof. unfold days_before_year, leaps. lia. Qed.

Lemma leaps_step n : leaps (n + 1) = leaps n + (if is_leap (n + 1) then 1 else 0).
Proof.
  unfold leaps, is_leap.
  destruct (Z.eqb_spec ((n + 1) mod 4) 0), (Z.eqb_spec ((n + 1) mod 100) 0), (Z.eqb_spec ((n + 1) mod 400) 0);
    cbn; divlia.
Qed.

Lemma leaps_mono a (k : nat) : leaps a ≤ leaps (a + Z.of_nat k) ≤ leaps a + Z.of_nat k.
Proof.
  induction k as [|k IH]; [rewrite Z.add_0_r; lia|].
  replace (a + Z.of_nat (S k)) with (a + Z.of_nat k + 1) by lia. rewrite leaps_step. destruct (is_leap _); lia.
Qed.

(** Between the starts of two years: 365 days a year, and the leap days of the years gone by. *)
Lemma year_starts y k : 1 ≤ k →
  days_before_year y + 365 * k + (if is_leap y then 1 else 0) ≤ days_before_year (y + k)
  ≤ days_before_year y + 366 * k.
Proof.
  intros Hk. rewrite !days_before_year_leaps. pose proof (leaps_step (y - 1)) as H1.
  replace (y - 1 + 1) with y in H1 by lia.
  pose proof (leaps_mono y (Z.to_nat (k - 1))) as H2. rewrite Z2Nat.id in H2 by lia.
  replace (y + (k - 1)) with (y + k - 1) in H2 by lia. destruct (is_leap y); lia.
Qed.

Lemma month_lengths y m : 1 ≤ m ≤ 12 →
  days_before_month y (Z.to_nat m) =
  nth (Z.to_nat m) [0; 0; 31; 59; 90; 120; 151; 181; 212; 243; 273; 304; 334] 0
  + (if (2 <? m) && is_leap y then 1 else 0).
Proof.
  intros Hm. assert (m = 1 ∨ m = 2 ∨ m = 3 ∨ m = 4 ∨ m = 5 ∨ m = 6 ∨ m = 7 ∨ m = 8 ∨ m = 9 ∨ m = 10 ∨ m = 11 ∨ m = 12)
    as Hc by lia. destruct Hc as [->|[->|[->|[->|[->|[->|[->|[->|[->|[->|[->| ->]]]]]]]]]]];
    cbv -[is_leap]; destruct (is_leap y); reflexivity.
Qed.

(** The date [years] later: the same day, or the first of March when there is no such day. *)
Definition later_date (y m d years : Z) : Z * Z :=
  if days_in_month (y + years) m <? d then (3, 1) else (m, d).

Lemma later_date_after y m d years :
  1 ≤ y → 1 ≤ m ≤ 12 → 1 ≤ d ≤ days_in_month y m → 1 ≤ years →
  let '(m', d') := later_date y m d years in
  ymd2ord y m d + 365 * years ≤ ymd2ord (y + years) m' d' ≤ ymd2ord y m d + 366 * years + 1.
Proof.
  intros Hy Hm Hd Hk. pose proof (year_starts y years Hk) as Hs. unfold later_date, ymd2ord.
  destruct (Z.ltb_spec (days_in_month (y + years) m) d) as [Hlt|Hge].
  - assert (m = 2 ∧ is_leap y = true ∧ is_leap (y + years) = false ∧ d = 29) as (-> & H1 & H2 & ->).
    { unfold days_in_month in *. destruct (Z.eqb_spec m 2) as [->|]; [|case_match; lia].
      destruct (is_leap y), (is_leap (y + years)); split_and!; try done; lia. }
    rewrite H1 in Hs. rewrite !month_lengths by lia. rewrite H1, H2. cbv [Z.ltb Z.compare Pos.compare Pos.compare_cont andb nth Z.to_nat Pos.to_nat Pos.iter_op Nat.add]. lia.
  - rewrite !month_lengths by done. destruct (2 <? m), (is_leap y), (is_leap (y + years)); cbn [andb]; lia.
Qed.

Definition NS_PER_DAY : Z := 86400000000000.

Lemma make_date_ok y m d t r :
  make_date y m d t = Ok r ↔
  1 ≤ y ≤ 9999 ∧ d ≤ days_in_month y m ∧ r = (ymd2ord y m d - EPOCH_ORDINAL) * US_PER_DAY + t.
Proof.
  unfold make_date, raise, C_INT_MAX.
  destruct (Z.ltb_spec (2 ^ 31 - 1) y); cbn [orb]; [split; [done|lia]|].
  destruct (Z.ltb_spec y (- (2 ^ 31 - 1) - 1)); cbn [orb]; [split; [done|lia]|].
  destruct (Z.ltb_spec y 1); cbn [orb]; [split; [done|lia]|].
  destruct (Z.ltb_spec 9999 y); cbn [orb]; [split; [done|lia]|].
  destruct (Z.ltb_spec (days_in_month y m) d); [split; [done|lia]|].
  split; [intros [= <-]; lia|]. intros (_ & _ & ->). done.
Qed.

Lemma add_years_ok moment years r y m d :
  ord2ymd (moment / US_PER_DAY + EPOCH_ORDINAL) = (y, m, d) →
  add_years moment years = Ok r →
  1 ≤ y + years ≤ 9999 ∧
  let '(m', d') := later_date y m d years in
  r = (ymd2ord (y + years) m' d' - EPOCH_ORDINAL) * US_PER_DAY + moment mod US_PER_DAY.
Proof.
  intros E. unfold add_years. rewrite E. unfold try_except.
  destruct (make_date (y + years) m d _) as [x|e] eqn:E1.
  - intros [= <-]. apply make_date_ok in E1 as (Hy & Hd & ->). split; [done|].
    unfold later_date. destruct (Z.ltb_spec (days_in_month (y + years) m) d); [lia|done].
  - case_match; [|done]. intros (Hy & Hd & ->)%make_date_ok. split; [done|].
    unfold later_date. destruct (Z.ltb_spec (days_in_month (y + years) m) d) as [|Hle]; [done|].
    exfalso. assert (make_date (y + years) m d (moment mod US_PER_DAY)
      = Ok ((ymd2ord (y + years) m d - EPOCH_ORDINAL) * US_PER_DAY + moment mod US_PER_DAY)) as E2
      by by apply make_date_ok. congruence.
Qed.

Lemma datetime_from_ns_ok ns us :
  datetime_from_ns ns = Ok us ↔ MIN_US ≤ ns / 1000 ≤ MAX_US ∧ us = ns / 1000.
Proof.
  unfold datetime_from_ns, raise.
  destruct (Z.leb_spec MIN_US (ns / 1000)), (Z.leb_spec (ns / 1000) MAX_US); cbn [andb];
    (split; [intros [= <-]; lia|intros [? ->]; first [done|lia]]).
Qed.

(** The instant kept until: the same time of day, on the later date. *)
Lemma retain_until_inv created years until y m d :
  1 ≤ years → retain_until_ns created years = Ok until →
  ord2ymd (created / NS_PER_DAY + EPOCH_ORDINAL) = (y, m, d) →
  y + years ≤ 9999 ∧ until mod NS_PER_DAY = created mod NS_PER_DAY ∧
  (let '(m', d') := later_date y m d years in
   until / NS_PER_DAY + EPOCH_ORDINAL = ymd2ord (y + years) m' d') ∧
  created + years * 365 * NS_PER_DAY ≤ until ≤ created + (years * 366 + 1) * NS_PER_DAY.
Proof.
  intros Hk H E. unfold retain_until_ns in H. apply bind_ok in H as (us & Hus & H).
  apply datetime_from_ns_ok in Hus as [Hin ->]. apply bind_ok in H as (r & Hr & [= <-]).
  assert (created / 1000 / US_PER_DAY = created / NS_PER_DAY) as Ed
    by (unfold US_PER_DAY, NS_PER_DAY; by rewrite Z.div_div by done).
  rewrite <- Ed in E. eapply add_years_ok in Hr as [Hy Hr]; [|done].
  apply ord2ymd_valid in E as (Hm & Hd & Hy1 & Eo);
    [|unfold MIN_US, US_PER_DAY, EPOCH_ORDINAL in *; divlia].
  pose proof (later_date_after y m d years Hy1 Hm Hd Hk) as Ha.
  destruct (later_date y m d years) as [m' d']. rewrite Eo, Ed in Ha. subst.
  unfold US_PER_DAY, NS_PER_DAY, EPOCH_ORDINAL in *.
  split; [lia|]. clear -Ha. generalize dependent (ymd2ord (y + years) m' d'). intros o Ho. split_and!; divlia.
Qed.

(** ** Building *)

(** The envelope without its digest. *)
Definition core_doc (proto_doc versions digests retention : json) : list (pystr * json) :=
  [ (u "schema_version", JInt SCHEMA_VERSION); (u "manifest", proto_doc);
    (u "model_versions", versions); (u "input_digests", digests); (u "retention", retention) ].
Definition full_doc (core : list (pystr * json)) (d : pystr) : list (pystr * json) :=
  core ++ [(u "manifest_digest", JStr d)].

Lemma core_ok core d : json_ok (JObj (full_doc core d)) → json_ok (JObj core).
Proof.
  unfold full_doc. rewrite !json_ok_obj, fmap_app, NoDup_app, Forall_app. tauto.
Qed.

(** What protobuf guarantees of the messages, and Python of the mapping. *)
Definition inputs_ok (i : ManifestInputs) : Prop :=
  pb_ok (snapshot i) ∧ pb_ok (signal i) ∧ Forall pb_ok (option_list (order i))
  ∧ Forall pb_ok (ptc_checks i) ∧ Forall pb_ok (option_list (hitl_override i))
  ∧ NoDup (model_versions i).*1
  ∧ Forall (λ kv, str_ok kv.1 = true ∧ str_ok kv.2 = true) (model_versions i).

(** A build that returned, step by step. *)
Lemma build_inv stubs c id years i m :
  build_manifest stubs c id years i = Ok m →
  7 ≤ years ∧ 0 < c ∧ _check_common i = Ok tt ∧
  ∃ hard soft reason proto proto_doc sections until digests until_text text d json,
    _check_ptc stubs i = Ok (hard, soft, reason) ∧ _check_consistency i hard soft = Ok tt ∧
    _assemble_proto stubs i id c hard soft reason = Ok proto ∧
    message_to_canonical proto = Ok proto_doc ∧
    input_sections proto_doc (versions_doc i) = Ok sections ∧
    retain_until_ns c years = Ok until ∧
    mapR (λ name, d ← section_digest (section_named sections name); Ok (name, JStr d)) INPUT_SECTIONS
      = Ok digests ∧
    format_ns_utc until = Ok until_text ∧
    let core := core_doc proto_doc (versions_doc i) (JObj digests) (retention_doc years c until until_text) in
    canonical_text core = Ok text ∧ digest_text text = Ok d ∧ canonical_text (full_doc core d) = Ok json ∧
    m = mkBuilt id d json proto.
Proof.
  unfold build_manifest. intros H.
  apply bind_ok in H as (? & Hy & H). apply bind_ok in H as ([] & Hc & H).
  apply bind_ok in H as ([[hard soft] reason] & Hp & H). apply bind_ok in H as ([] & Hs & H).
  apply bind_ok in H as (? & Ht & H). apply bind_ok in H as (? & Hi & H).
  apply bind_ok in H as (proto & Hproto & H). apply bind_ok in H as (proto_doc & Hdoc & H).
  apply bind_ok in H as (sections & Hsec & H). apply bind_ok in H as (until & Hu & H).
  apply bind_ok in H as (digests & Hd & H). apply bind_ok in H as (ut & Hut & H).
  apply bind_ok in H as (text & Htext & H). apply bind_ok in H as (d & Hdig & H).
  apply bind_ok in H as (json & Hj & [= <-]).
  unfold build_guard, guard_raise, RETENTION_YEARS in *.
  destruct (Z.ltb_spec years 7); [done|]. destruct (Z.leb_spec c 0); [done|].
  split; [done|]. split; [done|]. split; [done|].
  by exists hard, soft, reason, proto, proto_doc, sections, until, digests, ut, text, d, json.
Qed.

(** ** The built document reads back *)

Lemma sha256_hex_ascii b : is_ascii (sha256_hex b) = true.
Proof. apply hex_ascii, sha256_byte. Qed.

Lemma digits_bounded z : - 2 ^ 127 ≤ z ≤ 2 ^ 127 → (length (digits (Z.abs_N z)) ≤ max_int_digits)%nat.
Proof.
  intros Hz. pose proof (digits_length (Z.abs_N z)).
  assert (N.size (Z.abs_N z) ≤ 128)%N; [|unfold max_int_digits; lia].
  assert (Z.abs_N z < 2 ^ 128)%N as Hb by (cbn in *; lia).
  destruct (N.eq_dec (Z.abs_N z) 0%N) as [->|Hn]; [cbn; lia|].
  rewrite N.size_log2 by done. apply N.log2_lt_pow2 in Hb; lia.
Qed.

Lemma pb_string_inv s v : pb_string s = Ok v → str_ok s = true ∧ v = VStr s.
Proof. unfold pb_string, raise. intros H. destruct (str_ok s) eqn:E; [|done]. by injection H as <-. Qed.
Lemma pb_int64_inv z v : pb_int64 z = Ok v → - 2 ^ 63 ≤ z < 2 ^ 63 ∧ v = VInt z.
Proof.
  unfold pb_int64, raise. intros H. destruct (_ && _) eqn:E; [|done]. injection H as <-.
  apply andb_true_iff in E as [?%Z.leb_le ?%Z.ltb_lt]. done.
Qed.

Lemma optional_ok name m : Forall pb_ok (option_list m) → Forall (λ kv, pb_ok kv.2) (optional_field name m).
Proof. destruct m; cbn; [|by constructor]. intros [? _]%Forall_cons. by repeat constructor. Qed.

Lemma set_field_inv n v kv : set_field n v = Ok kv → ∃ x, v = Ok x ∧ kv = (n, x).
Proof. unfold set_field. intros H%bind_ok. destruct H as (x & ? & [= <-]). eauto. Qed.

Lemma assemble_inv stubs i id c hard soft reason p :
  _assemble_proto stubs i id c hard soft reason = Ok p →
  - 2 ^ 63 ≤ c < 2 ^ 63 ∧
  ∃ scalars, p = VMsg COMPLIANCE_MANIFEST (scalars
      ++ [ (u "snapshot", snapshot i); (u "signal", signal i); (u "ptc_checks", VRep (ptc_checks i)) ]
      ++ optional_field (u "order") (order i) ++ optional_field (u "hitl_override") (hitl_override i))
    ∧ Forall (λ kv, pb_ok kv.2) scalars
    ∧ scalars.*1 = [u "manifest_id"; u "prev_manifest_hash"; u "created_at_ns"; u "omega"; u "expected_value";
        u "blue_node_thesis"; u "red_node_challenge"; u "judge_synthesis"; u "compression_summaries";
        u "hard_block_triggered"; u "soft_block_triggered"; u "soft_block_reason"; u "hitl_override_occurred";
        u "mar_flag_triggered"; u "mar_flag_reason"]
    ∧ assoc scalars (u "manifest_id") = Some (VStr id)
    ∧ assoc scalars (u "prev_manifest_hash") = Some (VStr (prev_manifest_hash i))
    ∧ assoc scalars (u "created_at_ns") = Some (VInt c).
Proof.
  unfold _assemble_proto. intros H. apply bind_ok in H as (_ & _ & H).
  apply bind_ok in H as (scalars & Hs & [= <-]). apply mapR_Ok in Hs.
  repeat match goal with
  | H : Forall2 _ (_ :: _) _ |- _ =>
      let x := fresh "x" in let E := fresh "E" in
      apply Forall2_cons_inv_l in H as (? & ? & (x & E & ->)%set_field_inv & H & ->)
  end.
  apply Forall2_nil_inv_l in Hs as ->. cbn [fst snd] in *.
  apply pb_string_inv in E as [? ->], E0 as [? ->]. apply pb_int64_inv in E1 as [Hc ->].
  split; [done|]. eexists. split; [reflexivity|]. split; [|done].
  repeat match goal with
  | H : pb_string _ = Ok _ |- _ => apply pb_string_inv in H as [? ->]
  | H : Ok _ = Ok _ |- _ => apply Ok_inj in H as <-
  end.
  apply bind_ok in E7 as (l & Hl & [= <-]).
  repeat first [apply Forall_cons; split | apply Forall_nil]; cbn [snd]; try done.
  { cbn. unfold INT64_MIN, INT64_MAX. lia. }
  apply pb_ok_rep. apply mapR_Ok in Hl. clear -Hl.
  induction Hl as [|a b ? ? Hab]; constructor; [|done]. apply pb_string_inv in Hab as [? ->]. done.
Qed.

(** ** Sections of the document read back *)

Lemma getitem_norm v k x : json_ok v → getitem v k = Ok x → getitem (norm v) k = Ok (norm x).
Proof.
  unfold getitem, raise. destruct v as [| | | | | |m]; try done. intros [Hn _]%json_ok_obj H.
  rewrite norm_obj. destruct (obj_get m k) as [y|] eqn:E; [|done]. injection H as ->.
  by rewrite (norm_get m k x).
Qed.

Lemma getitem_json_ok v k x : json_ok v → getitem v k = Ok x → json_ok x.
Proof.
  unfold getitem, raise. destruct v as [| | | | | |m]; try done. intros [_ Hm]%json_ok_obj H.
  destruct (obj_get m k) as [y|] eqn:E; [|done]. injection H as ->.
  apply obj_get_elem in E. rewrite Forall_forall in Hm. by apply (Hm _ E).
Qed.

Lemma dumps_fmap_norm m : NoDup m.*1 →
  dumps_canonical (JObj (prod_map id norm <$> m)) = dumps_canonical (JObj m).
Proof.
  intros Hn. rewrite <- (dumps_norm (JObj m)), norm_obj. apply dumps_perm.
  - rewrite <- list_fmap_compose. exact Hn.
  - by rewrite sort_keys_perm.
Qed.

Lemma digest_of_same v w : json_ok v → json_ok w → dumps_canonical v = dumps_canonical w →
  digest_of v = digest_of w.
Proof. intros Hv Hw E. rewrite !digest_of_ok by done. by rewrite E. Qed.

Lemma str_items (m : list (pystr * json)) : mapM str_key (prod_map JStr id <$> m) = Some m.
Proof. induction m as [|[k v] m IH]; cbn; [done|]. by rewrite IH. Qed.
Lemma section_dict m : section_digest (Dict (prod_map JStr id <$> m)) = digest_of (JObj m).
Proof. unfold section_digest, dumps_dict, digest_of. by rewrite str_items. Qed.

Definition same_section (a b : pystr * section) : Prop :=
  a.1 = b.1 ∧ section_digest a.2 = section_digest b.2.
Lemma same_sections l k name : Forall2 same_section l k →
  section_digest (section_named l name) = section_digest (section_named k name).
Proof.
  unfold section_named. induction 1 as [|[a x] [b y] l k [Hab Hxy] _ IH]; [done|].
  cbn in *. subst b. destruct (str_eqb name a); [done|]. exact IH.
Qed.

Lemma sections_norm pd vs s :
  json_ok pd → json_ok (JObj vs) → input_sections pd (JObj vs) = Ok s →
  ∃ s', input_sections (norm pd) (norm (JObj vs)) = Ok s' ∧ Forall2 same_section s' s.
Proof.
  intros Hpd Hvs H. unfold input_sections in H.
  apply bind_ok in H as (direct & Hd & H). apply bind_ok in H as (outs & Ho & H).
  cbn [dict] in H. injection H as <-.
  apply mapR_Ok in Hd, Ho.
  assert (∀ keys l, Forall2 (λ key kv, (v ← getitem pd key; Ok (key, Doc v)) = Ok kv) keys l →
    ∃ l', mapR (λ key, v ← getitem (norm pd) key; Ok (key, Doc v)) keys = Ok l' ∧ Forall2 same_section l' l) as Hdir.
  { induction 1 as [|key kv keys l Hk _ (l' & El & Hl')]; [by exists []|].
    apply bind_ok in Hk as (v & Hv & [= <-]). cbn [mapR]. rewrite (getitem_norm pd key v) by done.
    cbn. rewrite El. eexists. split; [reflexivity|]. constructor; [|done]. split; [done|].
    pose proof (getitem_json_ok _ _ _ Hpd Hv). apply digest_of_same; [by apply norm_json_ok|done|apply dumps_norm]. }
  assert (∀ keys l, Forall2 (λ key kv, (v ← getitem pd key; Ok (key, v)) = Ok kv) keys l →
    mapR (λ key, v ← getitem (norm pd) key; Ok (key, v)) keys = Ok (prod_map id norm <$> l)
    ∧ l.*1 = keys ∧ Forall (λ kv, json_ok kv.2) l) as Hout.
  { induction 1 as [|key kv keys l Hk _ (IH & Hn & Hl)]; [done|].
    apply bind_ok in Hk as (v & Hv & [= <-]). cbn [mapR]. rewrite (getitem_norm pd key v) by done.
    cbn. rewrite IH, Hn. split_and!; [done..|]. constructor; [|done]. exact (getitem_json_ok _ _ _ Hpd Hv). }
  apply Hdir in Hd as (l' & Hl' & Hsame). apply Hout in Ho as (Ho & Hon & Hoks). clear Hdir Hout.
  unfold input_sections. rewrite Hl'. cbn [mbind result_bind]. rewrite Ho. cbn [mbind result_bind].
  rewrite norm_obj. cbn [dict mbind result_bind]. eexists. split; [reflexivity|].
  assert (json_ok (JObj outs)) as Hjo.
  { apply json_ok_obj. rewrite Hon. split; [by apply (bool_decide_unpack (NoDup COGNITIVE_KEYS))|].
    apply Forall_forall. intros kv Hin. split; [|by rewrite Forall_forall in Hoks; apply Hoks].
    assert (kv.1 ∈ COGNITIVE_KEYS) as Hk by (rewrite <- Hon; by apply list_elem_of_fmap_2).
    assert (forallb str_ok COGNITIVE_KEYS = true) as Hall by reflexivity.
    rewrite forallb_forall in Hall. by apply Hall, list_elem_of_In. }
  apply Forall2_app; [done|]. apply json_ok_obj in Hjo as Hjo'. apply json_ok_obj in Hvs as Hvs'.
  repeat constructor; cbn [snd].
  - apply digest_of_same; [|done|apply dumps_fmap_norm, Hjo'].
    apply json_ok_obj. rewrite <- list_fmap_compose. split; [apply Hjo'|].
    apply Forall_fmap. destruct Hjo' as [_ Hjo']. eapply Forall_impl; [apply Hjo'|].
    intros [k x] []. split; [done|]. by apply norm_json_ok.
  - rewrite !section_dict. rewrite <- norm_obj. apply digest_of_same; [by apply norm_json_ok|done|apply dumps_norm].
Qed.

(** ** The built manifest verifies *)

Lemma retention_bounds c years until : 0 < c → 1 ≤ years → retain_until_ns c years = Ok until →
  years ≤ 9998 ∧ c + years * 365 * NS_PER_DAY ≤ until ≤ c + (years * 366 + 1) * NS_PER_DAY.
Proof.
  intros Hc Hy H. destruct (ord2ymd (c / NS_PER_DAY + EPOCH_ORDINAL)) as [[y m] d] eqn:E.
  pose proof (retain_until_inv _ _ _ _ _ _ Hy H E) as (Hm & _ & _ & Hb). split; [|done].
  apply ord2ymd_valid in E as (_ & _ & Hy1 & _); [lia|].
  pose proof (Z.div_pos c NS_PER_DAY ltac:(lia) ltac:(done)). unfold EPOCH_ORDINAL. lia.
Qed.

Lemma versions_ok i : inputs_ok i → json_ok (versions_doc i).
Proof.
  intros (_ & _ & _ & _ & _ & Hn & Hv). apply json_ok_obj. rewrite <- list_fmap_compose. split; [done|].
  apply Forall_fmap. eapply Forall_impl; [exact Hv|]. done.
Qed.

Lemma assembled_ok stubs i id c hard soft reason p :
  inputs_ok i → _assemble_proto stubs i id c hard soft reason = Ok p → pb_ok p.
Proof.
  intros (Hsn & Hsg & Ho & Hp & Hh & _) H. apply assemble_inv in H as (_ & scalars & -> & Hs & _).
  apply pb_ok_msg. rewrite !Forall_app. split_and!; [done| |by apply optional_ok..].
  repeat constructor; [done..|]. by apply pb_ok_rep.
Qed.

Lemma digests_ok sections names digests :
  mapR (λ name, d ← section_digest (section_named sections name); Ok (name, JStr d)) names = Ok digests →
  digests.*1 = names ∧ Forall (λ kv, json_ok kv.2) digests ∧
  ∀ name, name ∈ names → NoDup names → ∃ d, section_digest (section_named sections name) = Ok d ∧
    obj_get digests name = Some (JStr d).
Proof.
  intros H%mapR_Ok.
  assert (digests.*1 = names) as En.
  { induction H as [|n kv names ds Hk _ IH]; [done|]. apply bind_ok in Hk as (d & _ & [= <-]). cbn. by f_equal. }
  split; [done|]. split.
  - clear En. induction H as [|n kv names ds Hk _ IH]; constructor; [|done].
    apply bind_ok in Hk as (d & Hd & [= <-]). cbn.
    assert (∃ b, d = sha256_hex b) as [b ->]; [|apply is_ascii_ok, sha256_hex_ascii].
    unfold section_digest, digest_of, digest_text, raise in Hd.
    destruct (section_named sections n); apply bind_ok in Hd as (t & _ & Hd);
      (destruct (utf8 t) as [b|]; [|done]); injection Hd as <-; eauto.
  - intros name Hin Hn. apply list_elem_of_lookup in Hin as [j Hj].
    destruct (Forall2_lookup_l _ _ _ _ _ H Hj) as (kv & Hkv & E).
    apply bind_ok in E as (d & Hd & [= <-]). exists d. split; [done|].
    apply obj_get_NoDup; [by rewrite En|]. by eapply list_elem_of_lookup_2.
Qed.

Lemma built_doc_ok i proto_doc sections digests years c until ut d :
  inputs_ok i → json_ok proto_doc → 0 < c < 2 ^ 63 → 1 ≤ years →
  mapR (λ name, d ← section_digest (section_named sections name); Ok (name, JStr d)) INPUT_SECTIONS = Ok digests →
  retain_until_ns c years = Ok until → format_ns_utc until = Ok ut → is_ascii d = true →
  json_ok (JObj (full_doc (core_doc proto_doc (versions_doc i) (JObj digests)
                             (retention_doc years c until ut)) d)).
Proof.
  intros Hi Hp Hc Hy Hd Hu Ht Ha. pose proof (versions_ok i Hi) as Hv.
  pose proof (retention_bounds c years until ltac:(lia) Hy Hu) as Hb.
  apply digests_ok in Hd as (Hdn & Hdo & _).
  assert (json_ok (JObj digests)) as Hdig.
  { apply json_ok_obj. rewrite Hdn. split; [by apply (bool_decide_unpack (NoDup INPUT_SECTIONS))|].
    apply Forall_forall. intros kv Hin. split; [|by rewrite Forall_forall in Hdo; apply Hdo].
    assert (kv.1 ∈ INPUT_SECTIONS) as Hk by (rewrite <- Hdn; by apply list_elem_of_fmap_2).
    assert (forallb str_ok INPUT_SECTIONS = true) as Hall by reflexivity.
    rewrite forallb_forall in Hall. by apply Hall, list_elem_of_In. }
  assert (str_ok ut = true) as Hut.
  { unfold format_ns_utc in Ht. destruct (datetime_from_ns until) as [us|]; [|done]. injection Ht as <-.
    apply is_ascii_ok, utc_text_ascii. }
  assert (∀ z, - 2 ^ 127 ≤ z ≤ 2 ^ 127 → json_ok (JInt z)) as Hint by exact digits_bounded.
  assert (json_ok (retention_doc years c until ut)) as Hr.
  { unfold retention_doc. apply json_ok_obj. split; [by apply (bool_decide_unpack (NoDup [_; _; _; _; _]))|].
    unfold NS_PER_DAY in Hb.
    repeat (apply Forall_cons; split); try (split; [done|]; cbn [snd]); [..|constructor];
      [apply Hint; lia..|done|]. apply json_ok_arr. by repeat constructor. }
  apply json_ok_obj. split; [by apply (bool_decide_unpack (NoDup [_; _; _; _; _; _]))|].
  repeat (apply Forall_cons; split); try (split; [done|]; cbn [snd]); try done; [by apply Hint|by apply is_ascii_ok].
Qed.

(** The document of a manifest, as it is read back: keys sorted. *)
Definition read_back (m : list (pystr * json)) : list (pystr * json) := prod_map id norm <$> sort_keys m.

Lemma canonical_read_back m : json_ok (JObj m) →
  canonical_text (read_back m) = Ok (dumps_canonical (JObj m)) ∧ read_back m ≡ₚ prod_map id norm <$> m.
Proof.
  intros H. unfold read_back. split.
  - rewrite canonical_text_ok; rewrite <- norm_obj; [by rewrite dumps_norm|by apply norm_json_ok].
  - by rewrite sort_keys_perm.
Qed.

Lemma filter_none {A} (P : A → Prop) `{∀ x, Decision (P x)} l : Forall (λ x, ¬ P x) l → filter P l = [].
Proof. induction 1 as [|x l Hx _ IH]; [done|]. by rewrite filter_cons_False. Qed.

Lemma structure_read_back proto_doc vs digests ret d :
  let D := full_doc (core_doc proto_doc vs digests ret) d in
  NoDup D.*1 → _structure_problems (read_back D) = [].
Proof.
  cbv zeta. intros Hn. set (D := full_doc _ _) in *.
  assert (∀ k x, obj_get D k = Some x → obj_get (read_back D) k = Some (norm x)) as Hget
    by (intros; by apply norm_get).
  unfold _structure_problems. rewrite (Hget _ (JInt SCHEMA_VERSION)) by reflexivity.
  cbn [default]. change (norm (JInt SCHEMA_VERSION)) with (JInt SCHEMA_VERSION).
  replace (py_eq _ _) with true by done. rewrite app_nil_r.
  rewrite filter_none; [done|]. unfold _REQUIRED, has_key.
  repeat (apply Forall_cons; split); [..|constructor]; erewrite Hget by reflexivity; done.
Qed.

Lemma body_read_back core d : json_ok (JObj (full_doc core d)) → core.*1 = take 5 _REQUIRED →
  canonical_text (filter (λ kv, kv.1 ≠ u "manifest_digest") (read_back (full_doc core d)))
  = Ok (dumps_canonical (JObj core)).
Proof.
  intros Hok Hk.
  assert (filter (λ kv, kv.1 ≠ u "manifest_digest") (read_back (full_doc core d)) ≡ₚ prod_map id norm <$> core) as Hp.
  { unfold read_back. rewrite sort_keys_perm. unfold full_doc. rewrite fmap_app, filter_app.
    change (filter _ (prod_map id norm <$> [_])) with (@nil (pystr * json)). rewrite app_nil_r.
    clear -Hk. do 5 (destruct core as [|[? ?] core]; [done|]). destruct core; [|done].
    cbn in Hk. simplify_eq. reflexivity. }
  pose proof (core_ok _ _ Hok) as Hc. apply json_ok_obj in Hc as Hc'. destruct Hc' as [Hn Hf].
  assert (json_ok (JObj (prod_map id norm <$> core))) as Hc2.
  { apply json_ok_obj. rewrite <- list_fmap_compose. split; [exact Hn|]. apply Forall_fmap.
    eapply Forall_impl; [exact Hf|]. intros [k x] []. split; [done|]. by apply norm_json_ok. }
  rewrite canonical_text_ok.
  - f_equal. rewrite <- (dumps_fmap_norm core) by done. apply dumps_perm; [|done].
    rewrite Hp, <- list_fmap_compose. exact Hn.
  - apply json_ok_obj in Hc2 as [? ?]. apply json_ok_obj. by rewrite !Hp.
Qed.

Lemma canonical_get n vals j f v :
  message_to_canonical (VMsg n vals) = Ok j → f ∈ fields_of n → assoc vals (f_name f) = Some v →
  ∃ x, _value (f_type f) v = Ok x ∧ getitem j (f_name f) = Ok x.
Proof.
  unfold message_to_canonical. rewrite value_msg. intros H Hf Hv.
  apply bind_ok in H as (doc & Hd & [= <-]). pose proof (canonical_names _ _ _ Hd) as Hn.
  apply mapR_Ok in Hd. destruct (descriptors_ok n) as [_ Hnd].
  apply list_elem_of_lookup in Hf as [k Hk]. destruct (Forall2_lookup_l _ _ _ _ _ Hd Hk) as ([name x] & Hx & E).
  apply list_elem_of_lookup_2 in Hk, Hx.
  pose proof (canonical_field_name _ _ _ E) as En. cbn in En. subst name.
  unfold canonical_field, build_error in E. rewrite assoc_set, Hv, (field_named_in n f) in E by done.
  assert (_value (f_type f) v = Ok x) as Ex by (cbn in E; repeat case_match; ok_inv; simplify_eq; done).
  exists x. split; [done|]. cbn. by rewrite (obj_get_NoDup doc (f_name f) x) by (by rewrite ?Hn).
Qed.

Lemma assoc_app {A} (l k : list (pystr * A)) name :
  assoc (l ++ k) name = match assoc l name with Some x => Some x | None => assoc k name end.
Proof. induction l as [|[n x] l IH]; cbn; [done|]. by destruct (str_eqb name n). Qed.

Lemma check_common_hash i : _check_common i = Ok tt → hash_re (prev_manifest_hash i) = true.
Proof.
  unfold _check_common, build_guard, guard_raise. intros H.
  do 3 (apply bind_ok in H as (? & _ & H)). apply bind_ok in H as (? & Hh & _).
  destruct (hash_re _); done.
Qed.

(** What a build leaves: the document read back, and the three fields the store looks at. *)
Lemma build_spec stubs c id years i m :
  inputs_ok i → build_manifest stubs c id years i = Ok m →
  ∃ proto_doc sections digests until ut,
    let core := core_doc proto_doc (versions_doc i) (JObj digests) (retention_doc years c until ut) in
    let D := full_doc core (digest m) in
    0 < c < 2 ^ 63 ∧ 7 ≤ years ∧
    message_to_canonical (proto m) = Ok proto_doc ∧ json_ok proto_doc ∧ json_ok (JObj D) ∧
    input_sections proto_doc (versions_doc i) = Ok sections ∧
    (∀ name, name ∈ INPUT_SECTIONS → ∃ d, section_digest (section_named sections name) = Ok d ∧
       obj_get digests name = Some (JStr d)) ∧
    retain_until_ns c years = Ok until ∧ format_ns_utc until = Ok ut ∧
    digest m = sha256_hex (dumps_canonical (JObj core)) ∧
    document_json m = dumps_canonical (JObj D) ∧
    getitem proto_doc (u "manifest_id") = Ok (JStr (manifest_id m)) ∧
    getitem proto_doc (u "prev_manifest_hash") = Ok (JStr (prev_manifest_hash i)) ∧
    getitem proto_doc (u "created_at_ns") = Ok (JInt c).
Proof.
  intros Hi H. apply build_inv in H as (Hy & Hc & Hcommon & H).
  destruct H as (hard & soft & reason & p & pd & sections & until & digests & ut & text & d & json & H).
  cbv zeta in H. destruct H as (_ & _ & Hp & Hpd & Hs & Hu & Hd & Ht & Htext & Hdig & Hjson & ->).
  cbn [digest proto document_json manifest_id].
  pose proof (assembled_ok _ _ _ _ _ _ _ _ Hi Hp) as Hpok.
  pose proof (value_json_ok _ (message []) _ eq_refl Hpok Hpd) as Hjp.
  apply assemble_inv in Hp as (Hcb & scalars & Ep & _ & _ & Aid & Aprev & Ac).
  pose proof (λ a, built_doc_ok i pd sections digests years c until ut a Hi Hjp ltac:(lia) ltac:(lia) Hd Hu Ht) as Hok.
  set (core := core_doc pd (versions_doc i) (JObj digests) (retention_doc years c until ut)) in *.
  pose proof (core_ok _ _ (Hok [] eq_refl)) as Hcore.
  rewrite canonical_text_ok in Htext by done. apply Ok_inj in Htext as <-.
  rewrite digest_text_ascii in Hdig by by apply dumps_ascii. apply Ok_inj in Hdig as <-.
  specialize (Hok (sha256_hex (dumps_canonical (JObj core))) (sha256_hex_ascii _)).
  rewrite canonical_text_ok in Hjson by done. apply Ok_inj in Hjson as <-.
  exists pd, sections, digests, until, ut. apply digests_ok in Hd as (_ & _ & Hd).
  assert (∀ k f v, field_named COMPLIANCE_MANIFEST k = Some f → assoc scalars k = Some v →
    ∃ x, _value (f_type f) v = Ok x ∧ getitem pd k = Ok x) as Hget.
  { intros k f v Hf Hv. apply field_named_ok in Hf as (_ & _ & <- & Hin). subst p.
    eapply canonical_get; [done|done|]. by rewrite assoc_app, Hv. }
  destruct (Hget (u "manifest_id") _ _ eq_refl Aid) as (x1 & [= <-] & G1).
  destruct (Hget (u "prev_manifest_hash") _ _ eq_refl Aprev) as (x2 & [= <-] & G2).
  destruct (Hget (u "created_at_ns") _ _ eq_refl Ac) as (x3 & [= <-] & G3).
  split_and!; try done; [lia|]. intros name Hin. apply Hd; [done|]. by apply (bool_decide_unpack (NoDup INPUT_SECTIONS)).
Qed.

Definition accepted : VerificationReport := mkReport true [].

Lemma retention_read_back c years until ut pd :
  7 ≤ years → retain_until_ns c years = Ok until → getitem pd (u "created_at_ns") = Ok (JInt c) →
  json_ok pd → json_ok (retention_doc years c until ut) →
  retention_body (norm (retention_doc years c until ut)) (norm pd) [] = (Ok tt, []).
Proof.
  intros Hy Hu Hc Hpd Hr.
  pose proof (λ k x, getitem_norm _ k x Hr) as Hget.
  pose proof (getitem_norm _ _ _ Hpd Hc) as Hcn. cbn [norm] in Hcn.
  unfold retention_body.
  rewrite (Hget (u "years") (JInt years) eq_refl), (Hget (u "created_at_ns") (JInt c) eq_refl),
    (Hget (u "retain_until_ns") (JInt until) eq_refl), Hcn.
  cbv [lift modify mbind M_bind mret M_ret result_bind]. cbn [norm to_int].
  assert (∀ z, py_eq (JInt z) (JInt z) = true) as Heq.
  { intros z. cbn. rewrite Z.min_id, Z.sub_diag. apply Z.eqb_refl. }
  unfold RETENTION_YEARS. rewrite (proj2 (Z.ltb_ge years 7)) by done. cbn beta iota.
  rewrite Hu. rewrite !Heq. done.
Qed.

Lemma mapR_all {A B} (f : A → result B) (g : A → B) l :
  (∀ x, x ∈ l → f x = Ok (g x)) → mapR f l = Ok (g <$> l).
Proof.
  intros H. apply mapR_Ok. induction l as [|x l IH]; constructor.
  - apply H, list_elem_of_here.
  - apply IH. intros y Hy. by apply H, list_elem_of_further.
Qed.

Lemma verify_read_back stubs c id years i m :
  inputs_ok i → build_manifest stubs c id years i = Ok m →
  ∃ doc, loads (document_json m) = Some (JObj doc) ∧ canonical_text doc = Ok (document_json m) ∧
    verify_document doc = Ok accepted ∧
    obj_get doc (u "manifest_digest") = Some (JStr (digest m)) ∧
    ∃ pd, message_to_canonical (proto m) = Ok pd ∧ json_ok pd ∧ obj_get doc (u "manifest") = Some (norm pd) ∧
      getitem (norm pd) (u "prev_manifest_hash") = Ok (JStr (prev_manifest_hash i)) ∧
      getitem (norm pd) (u "manifest_id") = Ok (JStr (manifest_id m)) ∧
      ∃ ret until, getitem (JObj doc) (u "retention") = Ok ret ∧ getitem ret (u "retain_until") = Ok until.
Proof.
  intros Hi H. pose proof H as (_ & _ & Hcommon%check_common_hash & _)%build_inv.
  apply build_spec in H as (pd & sections & digests & until & ut & H); [|done]. cbv zeta in H.
  set (core := core_doc _ _ _ _) in H. set (D := full_doc core (digest m)) in H.
  destruct H as (Hc & Hy & Hpd & Hjp & HD & Hs & Hdig & Hu & Ht & Hd & Hj & Gid & Gprev & Gc).
  apply json_ok_obj in HD as HD'. destruct HD' as [Hn Hf].
  assert (∀ k x, obj_get D k = Some x → getitem (JObj (read_back D)) k = Ok (norm x)) as Hget.
  { intros k x Hx. unfold getitem, read_back. by rewrite (norm_get D k x). }
  exists (read_back D). destruct (canonical_read_back D HD) as [Hct _].
  pose proof (getitem_norm _ _ _ Hjp Gprev) as Gprev'. pose proof (getitem_norm _ _ _ Hjp Gid) as Gid'.
  split_and!.
  - rewrite Hj, loads_dumps by done. by rewrite norm_obj.
  - by rewrite Hj.
  - assert (json_ok (JObj digests) ∧ json_ok (retention_doc years c until ut)) as [[Hnd _]%json_ok_obj Hret].
    { rewrite Forall_forall in Hf.
      split; [apply (Hf (u "input_digests", JObj digests))|apply (Hf (u "retention", retention_doc years c until ut))];
        apply list_elem_of_In; cbn; tauto. }
    unfold verify_document. subst D core. rewrite structure_read_back by done.
    rewrite bool_decide_true by done. set (core := core_doc _ _ _ _) in *. set (D := full_doc core (digest m)) in *.
    assert (_digest_problems (read_back D) = Ok []) as ->.
    { unfold _digest_problems.
      rewrite (Hget (u "manifest") pd eq_refl). cbn [mbind result_bind].
      rewrite (Hget (u "model_versions") (versions_doc i) eq_refl). cbn [mbind result_bind].
      destruct (sections_norm pd _ sections Hjp (versions_ok i Hi) Hs) as (s' & Hs' & Hsame).
      unfold versions_doc at 1. rewrite Hs'.
      rewrite (Hget (u "input_digests") (JObj digests) eq_refl). cbn [mbind result_bind].
      rewrite (mapR_all _ (λ _, [])).
      2: { intros name Hin. destruct (Hdig name Hin) as (d & Hsd & Hod).
           rewrite norm_obj. cbn [dict_get mbind result_bind]. rewrite (norm_get digests name (JStr d)) by done.
           rewrite (same_sections _ _ _ Hsame), Hsd. cbn [default norm mbind result_bind].
           unfold Datatypes.id. assert (∀ t, py_eq (JStr t) (JStr t) = true) as -> by apply str_eqb_refl. done. }
      cbn [mbind result_bind].
      rewrite (Hget (u "manifest_digest") (JStr (digest m)) eq_refl). cbn [mbind result_bind norm].
      unfold D at 1. rewrite body_read_back by done. cbn [mbind result_bind].
      rewrite digest_text_ascii by by apply dumps_ascii, (core_ok _ _ HD). rewrite <- Hd. cbn [mbind result_bind].
      assert (∀ t, py_eq (JStr t) (JStr t) = true) as -> by apply str_eqb_refl.
      assert (∃ l, norm pd = JObj l ∧ obj_get l (u "prev_manifest_hash") = Some (JStr (prev_manifest_hash i)))
        as (l & -> & Hl).
      { unfold getitem, raise in Gprev'. destruct (norm pd) as [| | | | | |l]; try done.
        destruct (obj_get l _) as [x|] eqn:El; [|done]. injection Gprev' as ->. by exists l. }
      cbn [dict_get mbind result_bind]. rewrite Hl. cbn [default]. unfold plain_str, str_with.
      unfold Datatypes.id. by rewrite Hcommon. }
    cbn [mbind result_bind].
    assert (_retention_problems (read_back D) = Ok []) as ->; [|done].
    unfold _retention_problems.
    rewrite (Hget (u "retention") (retention_doc years c until ut) eq_refl),
      (Hget (u "manifest") pd eq_refl). cbn [mbind result_bind].
    by rewrite retention_read_back by done.
  - unfold read_back. by rewrite (norm_get D (u "manifest_digest") (JStr (digest m))).
  - exists pd. split_and!; try done. by exists (norm (retention_doc years c until ut)), (JStr ut).
Qed.

(** ** What the checks say of an order *)

Definition failed (ptc_type : Z) (check : pbval) : bool :=
  negb (bool_attr check (u "passed")) && (int_attr check (u "ptc_type") =? ptc_type).
Definition soft_reason (check : pbval) : pystr :=
  str_or (str_attr check (u "reason")) (str_attr check (u "check_name")).
Definition check_valid (check : pbval) : Prop :=
  full_name_of check = Some PTC_CHECK_RESULT ∧ is_blank (str_attr check (u "check_name")) = false ∧
  (int_attr check (u "ptc_type") = HARD_BLOCK ∨ int_attr check (u "ptc_type") = SOFT_BLOCK) ∧
  isfinite (float_attr check (u "threshold_value")) = true ∧ isfinite (float_attr check (u "actual_value")) = true.

Lemma build_guard_ok b msg x : build_guard b msg = Ok x ↔ b = false.
Proof. unfold build_guard, guard_raise, raise. destruct b, x; naive_solver. Qed.
Lemma expect_ok m n l x : _expect m n l = Ok x ↔ full_name_of m = Some n.
Proof.
  unfold _expect, guard_raise, raise. destruct x. case_bool_decide; cbn; naive_solver.
Qed.

Lemma check_one_ok hard soft rs check acc :
  check_one (hard, soft, rs) check = Ok acc →
  check_valid check ∧
  acc = (hard || failed HARD_BLOCK check, soft || failed SOFT_BLOCK check,
         rs ++ if failed SOFT_BLOCK check then [soft_reason check] else []).
Proof.
  unfold check_one. intros H.
  apply bind_ok in H as (? & H1%expect_ok & H). apply bind_ok in H as (? & H2%build_guard_ok & H).
  apply bind_ok in H as (? & H3%build_guard_ok & H). apply bind_ok in H as (? & H4%build_guard_ok & H).
  apply negb_false_iff in H3, H4. apply andb_true_iff in H4. apply orb_true_iff in H3.
  rewrite !Z.eqb_eq in H3. split; [by unfold check_valid|]. unfold failed, soft_reason.
  destruct (bool_attr check (u "passed")); cbn [negb andb].
  - injection H as <-. by rewrite !orb_false_r, app_nil_r.
  - destruct H3 as [H3|H3]; rewrite H3 in *; cbn in *; injection H as <-;
      by rewrite ?orb_true_r, ?orb_false_r, ?app_nil_r.
Qed.

Lemma check_fold checks : ∀ hard soft rs acc,
  foldR check_one (hard, soft, rs) checks = Ok acc →
  Forall check_valid checks ∧
  acc = (hard || existsb (failed HARD_BLOCK) checks, soft || existsb (failed SOFT_BLOCK) checks,
         rs ++ (soft_reason <$> List.filter (failed SOFT_BLOCK) checks)).
Proof.
  induction checks as [|check checks IH]; intros hard soft rs acc H; cbn in H.
  { injection H as <-. cbn. by rewrite !orb_false_r, app_nil_r. }
  apply bind_ok in H as (a & [Hv ->]%check_one_ok & H). apply IH in H as [Hf ->].
  split; [by constructor|]. cbn. rewrite <- !orb_assoc, <- app_assoc. by destruct (failed SOFT_BLOCK check).
Qed.

Lemma check_ptc_ok stubs i hard soft reason :
  _check_ptc stubs i = Ok (hard, soft, reason) →
  ptc_checks i ≠ [] ∧ Forall check_valid (ptc_checks i) ∧
  hard = existsb (failed HARD_BLOCK) (ptc_checks i) ∧ soft = existsb (failed SOFT_BLOCK) (ptc_checks i) ∧
  reason = join (u "; ") (soft_reason <$> List.filter (failed SOFT_BLOCK) (ptc_checks i)).
Proof.
  unfold _check_ptc. intros H. apply bind_ok in H as (? & Hn%build_guard_ok & H).
  apply bool_decide_eq_false in Hn. apply bind_ok in H as (? & _ & H).
  apply bind_ok in H as ([[h s] rs] & [Hv [= -> -> ->]]%check_fold & [= <- <- <-]). done.
Qed.

(** What the checks of [build_manifest] amount to for inputs with an order. *)
Lemma built_order_ok stubs c id years i m o :
  inputs_ok i → build_manifest stubs c id years i = Ok m → order i = Some o →
  ptc_checks i ≠ [] ∧ Forall check_valid (ptc_checks i) ∧
  existsb (failed HARD_BLOCK) (ptc_checks i) = false ∧
  (existsb (failed SOFT_BLOCK) (ptc_checks i) = true → ∃ h, hitl_override i = Some h ∧
     decision_of h = u "approved" ∧ is_blank (str_attr h (u "operator_id")) = false) ∧
  bool_attr (snapshot i) (u "is_stale") = false ∧
  (∀ h, hitl_override i = Some h → decision_of h ≠ u "rejected") ∧
  str_attr (snapshot i) (u "symbol") = str_attr (signal i) (u "symbol") ∧
  str_attr o (u "symbol") = str_attr (signal i) (u "symbol") ∧ str_attr o (u "symbol") ≠ [] ∧
  str_attr o (u "signal_id") = str_attr (signal i) (u "signal_id") ∧
  ∃ pd x, message_to_canonical (proto m) = Ok pd ∧ message_to_canonical o = Ok x ∧
    getitem pd (u "order") = Ok x.
Proof.
  intros Hi H Ho. apply build_inv in H as (_ & _ & _ & H).
  destruct H as (hard & soft & reason & p & pd & ? & ? & ? & ? & ? & ? & ? & H). cbv zeta in H.
  destruct H as ((Hne & Hv & Hh & Hs & _)%check_ptc_ok & Hc & Hp & Hpd & _ & _ & _ & _ & _ & _ & _ & ->).
  unfold _check_consistency in Hc. rewrite Ho in Hc.
  apply bind_ok in Hc as (? & H1%build_guard_ok & Hc). apply bind_ok in Hc as (? & H2 & Hc).
  apply bind_ok in Hc as (? & H3%build_guard_ok & Hc). apply bind_ok in Hc as (? & H4%build_guard_ok & Hc).
  apply bind_ok in Hc as (? & H5%build_guard_ok & Hc). apply bind_ok in Hc as (? & H6%build_guard_ok & H7%build_guard_ok).
  apply orb_false_iff in H1 as [H1%negb_false_iff%str_eqb_true H1'%bool_decide_eq_false].
  apply orb_false_iff in H3 as [H3%negb_false_iff%str_eqb_true H3'%negb_false_iff%str_eqb_true].
  rewrite <- Hh, <- Hs. split_and!; try done.
  - intros ->. cbn in H7. apply negb_false_iff in H7. destruct (hitl_override i) as [h|]; [|done].
    apply bool_decide_eq_true in H7. exists h. split_and!; [done..|].
    apply bind_ok in H2 as (? & _ & H2%build_guard_ok). by apply orb_false_iff in H2 as [_ ?].
  - intros h Eh. rewrite Eh in H6. by apply bool_decide_eq_false in H6.
  - congruence.
  - cbn [proto]. apply assemble_inv in Hp as (_ & scalars & -> & _ & Hn & _).
    destruct (canonical_get _ _ _ (mkField (u "order") (message ORDER_REQUEST) false) o Hpd) as (co & Hx & Hg).
    + by apply (field_named_ok COMPLIANCE_MANIFEST (u "order")).
    + cbn [f_name]. rewrite assoc_app. destruct (assoc scalars (u "order")) as [y|] eqn:E.
      * apply assoc_elem, (list_elem_of_fmap_2 fst) in E. rewrite Hn in E. cbn in E.
        by apply (bool_decide_eq_true_2 (_ ∈ _)) in E.
      * rewrite Ho. reflexivity.
    + exists pd, co. by rewrite <- (value_message ORDER_REQUEST false o).
Qed.

Lemma verify_built stubs c id years i m :
  inputs_ok i → build_manifest stubs c id years i = Ok m → verify m = Ok accepted.
Proof.
  intros Hi H. destruct (verify_read_back _ _ _ _ _ _ Hi H)
    as (doc & Hl & Hc & Hv & Hd & pd & Hpd & Hok & Hm & Hprev & _ & _).
  unfold verify, document. rewrite Hl. cbn [mbind result_bind]. rewrite Hv. cbn [mbind result_bind].
  rewrite Hc. cbn [mbind result_bind]. rewrite Hpd, Hm, Hd. cbn [mbind result_bind try_except default].
  unfold Datatypes.id. rewrite str_eqb_refl.
  assert (∀ t, py_eq (JStr t) (JStr t) = true) as -> by apply str_eqb_refl.
  by rewrite py_eq_norm by (rewrite ?norm_idemp; auto using norm_json_ok).
Qed.

(** ** What can refuse a build *)

(** The steps of [build_manifest] before anything is hashed or written out. *)
Definition build_checks (stubs : result unit) (c : Z) (id : pystr) (years : Z) (i : ManifestInputs)
  : result unit :=
  _ ← build_guard (years <? RETENTION_YEARS) (u "retention_years must be >= 7");
  _ ← _check_common i;
  '(hard, soft, reason) ← _check_ptc stubs i;
  _ ← _check_consistency i hard soft;
  _ ← build_guard (c <=? 0) (u "clock returned a non-positive timestamp");
  _ ← build_guard (is_blank id) (u "manifest_id must be non-empty");
  proto ← _assemble_proto stubs i id c hard soft reason;
  _ ← message_to_canonical proto;
  until ← retain_until_ns c years;
  _ ← format_ns_utc until;
  Ok tt.

Lemma sections_digested i pd sections : inputs_ok i → json_ok pd →
  input_sections pd (versions_doc i) = Ok sections → Forall (λ s, ∃ d, section_digest s.2 = Ok d) sections.
Proof.
  intros Hi Hp H. unfold input_sections in H. apply bind_ok in H as (direct & Hd & H).
  apply bind_ok in H as (outputs & Ho & H). apply bind_ok in H as (versions & Hv & [= <-]).
  assert (∀ v, json_ok v → ∃ d, section_digest (Doc v) = Ok d) as Hdoc.
  { intros v Hj. eexists. cbn [section_digest]. by apply digest_of_ok. }
  apply mapR_Ok in Hd, Ho. apply Forall_app. split; [|constructor; [|constructor; [|constructor]]]; cbn [snd].
  - eapply Forall2_Forall_r; [exact Hd|]. apply Forall_forall. intros k _ [k' s] E.
    apply bind_ok in E as (v & Hg & [= <- <-]). apply Hdoc. by eapply getitem_json_ok.
  - apply Hdoc, json_ok_obj.
    assert (outputs.*1 = COGNITIVE_KEYS ∧ Forall (λ kv, json_ok kv.2) outputs) as [En Ho'].
    { clear -Ho Hp. induction Ho as [|k [k' v] ks out E _ [IH IH']]; [done|].
      apply bind_ok in E as (v' & Hg & [= <- <-]). cbn. rewrite IH. split; [done|]. constructor; [|done].
      by eapply getitem_json_ok. }
    rewrite En. split; [by apply (bool_decide_unpack (NoDup COGNITIVE_KEYS))|].
    apply Forall_forall. intros kv Hin. split; [|by rewrite Forall_forall in Ho'; apply Ho'].
    assert (kv.1 ∈ COGNITIVE_KEYS) as Hk by (rewrite <- En; by apply list_elem_of_fmap_2).
    assert (forallb str_ok COGNITIVE_KEYS = true) as Hall by reflexivity.
    rewrite forallb_forall in Hall. by apply Hall, list_elem_of_In.
  - injection Hv as <-. rewrite section_dict. eexists. by apply digest_of_ok, versions_ok.
Qed.

Lemma canonical_sections stubs i id c hard soft reason p pd :
  _assemble_proto stubs i id c hard soft reason = Ok p → message_to_canonical p = Ok pd →
  ∃ sections, input_sections pd (versions_doc i) = Ok sections.
Proof.
  intros Hp Hpd. apply assemble_inv in Hp as (_ & scalars & -> & _).
  unfold message_to_canonical in Hpd. rewrite value_msg in Hpd. apply bind_ok in Hpd as (doc & Hd & [= <-]).
  assert (∀ k, k ∈ f_name <$> fields_of COMPLIANCE_MANIFEST → ∃ v, getitem (JObj doc) k = Ok v) as Hget.
  { intros k Hin. rewrite <- (canonical_names _ _ _ Hd) in Hin. apply list_elem_of_fmap in Hin as ([k' v] & -> & Hin).
    cbn [getitem]. destruct (obj_get doc _) as [x|] eqn:E; [by eexists|]. exfalso.
    apply obj_get_None in E. apply E. by apply list_elem_of_fmap_2. }
  assert (∀ {B} (g : pystr → json → B) ks,
    forallb (λ k, bool_decide (k ∈ f_name <$> fields_of COMPLIANCE_MANIFEST)) ks = true →
    ∃ l, mapR (λ k, v ← getitem (JObj doc) k; Ok (g k v)) ks = Ok l) as Hmap.
  { intros B g ks Hks. apply mapR_total. intros k Hk. rewrite forallb_forall in Hks.
    apply list_elem_of_In, Hks, bool_decide_eq_true in Hk. destruct (Hget k Hk) as [v ->]. by eexists. }
  unfold input_sections.
  destruct (Hmap _ (λ k v, (k, Doc v)) [u "snapshot"; u "signal"; u "order"; u "ptc_checks"; u "hitl_override"] eq_refl)
    as [direct ->]. cbn [mbind result_bind].
  destruct (Hmap _ (λ k v, (k, v)) COGNITIVE_KEYS eq_refl) as [outputs ->]. cbn [mbind result_bind].
  by eexists.
Qed.

Lemma all_digested i pd sections : inputs_ok i → json_ok pd →
  input_sections pd (versions_doc i) = Ok sections →
  ∃ digests, mapR (λ name, d ← section_digest (section_named sections name); Ok (name, JStr d)) INPUT_SECTIONS
    = Ok digests.
Proof.
  intros Hi Hp Hs. apply mapR_total. intros name _.
  assert (∃ d, section_digest (section_named sections name) = Ok d) as [d ->]; [|by eexists].
  pose proof (sections_digested i pd sections Hi Hp Hs) as Hall. unfold section_named.
  destruct (assoc sections name) as [s|] eqn:E.
  - apply assoc_elem in E. rewrite Forall_forall in Hall. exact (Hall _ E).
  - eexists. apply (digest_of_ok JNull). exact I.
Qed.

Lemma build_checked stubs c id years i : inputs_ok i →
  match build_checks stubs c id years i with
  | Ok _ => ∃ m, build_manifest stubs c id years i = Ok m
  | Raise e => build_manifest stubs c id years i = Raise e
  end.
Proof.
  intros Hi. unfold build_checks, build_manifest.
  destruct (build_guard (years <? RETENTION_YEARS) _) as [[]|e] eqn:Hy; [|done]. cbn [mbind result_bind].
  destruct (_check_common i) as [[]|e]; [|done]. cbn [mbind result_bind].
  destruct (_check_ptc stubs i) as [[[hard soft] reason]|e]; [|done]. cbn [mbind result_bind].
  destruct (_check_consistency i hard soft) as [[]|e]; [|done]. cbn [mbind result_bind].
  destruct (build_guard (c <=? 0) _) as [[]|e] eqn:Hcg; [|done]. cbn [mbind result_bind].
  destruct (build_guard (is_blank id) _) as [[]|e]; [|done]. cbn [mbind result_bind].
  destruct (_assemble_proto stubs i id c hard soft reason) as [p|e] eqn:Hp; [|done]. cbn [mbind result_bind].
  destruct (message_to_canonical p) as [pd|e] eqn:Hpd; [|done]. cbn [mbind result_bind].
  pose proof (assembled_ok _ _ _ _ _ _ _ _ Hi Hp) as Hpok.
  pose proof (value_json_ok _ (message []) _ eq_refl Hpok Hpd) as Hjp.
  destruct (canonical_sections stubs i id c hard soft reason p pd Hp Hpd) as [sections Hs].
  rewrite Hs. cbn [mbind result_bind].
  destruct (retain_until_ns c years) as [until|e] eqn:Hu; [|done]. cbn [mbind result_bind].
  destruct (all_digested i pd sections Hi Hjp Hs) as [digests Hd]. rewrite Hd. cbn [mbind result_bind].
  destruct (format_ns_utc until) as [ut|e] eqn:Ht; [|done]. cbn [mbind result_bind].
  apply build_guard_ok, Z.ltb_ge in Hy. apply build_guard_ok, Z.leb_gt in Hcg. apply assemble_inv in Hp as (Hcb & _).
  unfold RETENTION_YEARS in Hy.
  pose proof (λ a, built_doc_ok i pd sections digests years c until ut a Hi Hjp ltac:(lia) ltac:(lia) Hd Hu Ht) as Hok.
  change (∃ m, (text ← canonical_text (core_doc pd (versions_doc i) (JObj digests) (retention_doc years c until ut));
    d ← digest_text text; json ← canonical_text (full_doc (core_doc pd (versions_doc i) (JObj digests)
      (retention_doc years c until ut)) d); Ok (mkBuilt id d json p)) = Ok m).
  rewrite canonical_text_ok by (eapply core_ok, (Hok [] eq_refl)). cbn [mbind result_bind].
  rewrite digest_text_ascii by (apply dumps_ascii, (core_ok _ _ (Hok [] eq_refl))). cbn [mbind result_bind].
  rewrite canonical_text_ok by (apply Hok, sha256_hex_ascii). eexists. reflexivity.
Qed.

(** C15: An order in a manifest was allowed to exist. When [build_manifest] returns for inputs with
    an order, there were pre-trade controls, each named, typed and finite; no hard one failed, and
    when a soft one did a named operator approved; the snapshot is not stale, nobody rejected the
    trade, and snapshot, signal and order are of the same symbol and the same signal. The manifest
    carries the canonical form of that very order. *)
Theorem order_is_justified stubs c id years i m o :
  inputs_ok i → build_manifest stubs c id years i = Ok m → order i = Some o →
  ptc_checks i ≠ [] ∧ Forall check_valid (ptc_checks i) ∧
  existsb (failed HARD_BLOCK) (ptc_checks i) = false ∧
  (existsb (failed SOFT_BLOCK) (ptc_checks i) = true → ∃ h, hitl_override i = Some h ∧
     decision_of h = u "approved" ∧ is_blank (str_attr h (u "operator_id")) = false) ∧
  bool_attr (snapshot i) (u "is_stale") = false ∧
  (∀ h, hitl_override i = Some h → decision_of h ≠ u "rejected") ∧
  str_attr (snapshot i) (u "symbol") = str_attr (signal i) (u "symbol") ∧
  str_attr o (u "symbol") = str_attr (signal i) (u "symbol") ∧ str_attr o (u "symbol") ≠ [] ∧
  str_attr o (u "signal_id") = str_attr (signal i) (u "signal_id") ∧
  ∃ pd x, message_to_canonical (proto m) = Ok pd ∧ message_to_canonical o = Ok x ∧
    getitem pd (u "order") = Ok x.
Proof. apply built_order_ok. Qed.

(** Only the checks refuse a manifest. For valid messages, whether [build_manifest] returns is
    decided by the steps before anything is hashed - the guards, the canonical form of the message
    and the retention date; the exception is theirs, and past them hashing and serialising succeed. *)
Theorem only_checks_refuse stubs c id years i : inputs_ok i →
  match build_checks stubs c id years i with
  | Ok _ => ∃ m, build_manifest stubs c id years i = Ok m
  | Raise e => build_manifest stubs c id years i = Raise e
  end.
Proof. apply build_checked. Qed.

(** C18: A manifest that was built verifies. [verify] finds no problem in it; its text reads back as a
    document that [verify_document] accepts - every digest recomputed, the retention block checked -
    whose canonical text is the text it was read from, which carries the manifest's digest, and which
    names the manifest before it. *)
Theorem manifest_verifies stubs c id years i m :
  inputs_ok i → build_manifest stubs c id years i = Ok m →
  verify m = Ok accepted ∧
  ∃ doc, loads (document_json m) = Some (JObj doc) ∧ verify_document doc = Ok accepted ∧
    canonical_text doc = Ok (document_json m) ∧
    obj_get doc (u "manifest_digest") = Some (JStr (digest m)) ∧
    (pd ← getitem (JObj doc) (u "manifest"); getitem pd (u "prev_manifest_hash"))
      = Ok (JStr (prev_manifest_hash i)).
Proof.
  intros Hi H. destruct (verify_read_back _ _ _ _ _ _ Hi H)
    as (doc & Hl & Hc & Hv & Hd & pd & Hpd & Hok & Hm & Hprev & _ & _).
  split; [by eapply verify_built|].
  exists doc. split_and!; try done. cbn [getitem]. rewrite Hm. exact Hprev.
Qed.

(** C19: The retention is long enough. A manifest is only built for a retention of at least seven
    years; it then ends on the same calendar day that many years later - on the first of March when
    there is no such day - at the same nanosecond of the day, never earlier than 365 days a year
    after the creation. *)
Theorem retention_long_enough stubs c id years i m y mo d :
  inputs_ok i → build_manifest stubs c id years i = Ok m →
  ord2ymd (c / NS_PER_DAY + EPOCH_ORDINAL) = (y, mo, d) →
  7 ≤ years ∧ ∃ until doc ret,
    loads (document_json m) = Some (JObj doc) ∧ getitem (JObj doc) (u "retention") = Ok ret ∧
    getitem ret (u "retain_until_ns") = Ok (JInt until) ∧ getitem ret (u "created_at_ns") = Ok (JInt c) ∧
    c + years * 365 * NS_PER_DAY ≤ until ≤ c + (years * 366 + 1) * NS_PER_DAY ∧
    until mod NS_PER_DAY = c mod NS_PER_DAY ∧
    until / NS_PER_DAY + EPOCH_ORDINAL =
      let '(mo', d') := later_date y mo d years in ymd2ord (y + years) mo' d'.
Proof.
  intros Hi H Ed. apply build_spec in H as (pd & sections & digests & until & ut & H); [|done]. cbv zeta in H.
  set (ret := retention_doc _ _ _ _) in H. set (D := full_doc _ _) in H.
  destruct H as (_ & Hy & _ & _ & HD & _ & _ & Hu & _ & _ & Hj & _). split; [done|].
  exists until, (read_back D), (norm ret). rewrite Hj, loads_dumps, norm_obj by done.
  apply json_ok_obj in HD as HD'. destruct HD' as [Hn _].
  destruct (retain_until_inv c years until y mo d ltac:(lia) Hu Ed) as (_ & Hmod & Hday & Hb).
  split_and!; try done; [apply Hb..|by destruct (later_date y mo d years)].
Qed.

(** ** The examples *)

Definition value_or {A} (default_ : A) (r : result A) : A :=
  match r with Ok a => a | Raise _ => default_ end.
Definition sim_manifest : BuiltManifest := value_or (mkBuilt [] [] [] (VBool false)) example_manifest.
Lemma example_inputs_ok : inputs_ok example_inputs.
Proof.
  unfold inputs_ok, example_inputs. cbn [snapshot signal order ptc_checks hitl_override model_versions].
  assert (∀ z, (INT64_MIN <=? z) = true → (z <=? INT64_MAX) = true → INT64_MIN ≤ z ≤ INT64_MAX) as Hz
    by (intros z ?%Z.leb_le ?%Z.leb_le; done).
  split; [|split; [|split; [|split; [|split; [|split]]]]].
  - apply pb_ok_msg. by repeat constructor.
  - apply pb_ok_msg. repeat (apply Forall_cons; split); try done; by apply Hz.
  - repeat constructor.
  - unfold ptc_check. repeat (apply Forall_cons; split); try apply Forall_nil; try done;
      apply pb_ok_msg; repeat (apply Forall_cons; split); try done; by apply Hz.
  - repeat constructor.
  - by apply (bool_decide_unpack (NoDup [_; _])).
  - repeat constructor.
Qed.
Lemma sim_manifest_built :
  build_manifest (Ok tt) 1709208000000000123 (u "m-1") 7 example_inputs = Ok sim_manifest.
Proof.
  pose proof (build_checked (Ok tt) 1709208000000000123 (u "m-1") 7 example_inputs example_inputs_ok) as H.
  replace (build_checks _ _ _ _ _) with (Ok tt) in H by (vm_compute; reflexivity). destruct H as [m H].
  unfold sim_manifest, example_manifest. rewrite H. reflexivity.
Qed.

Lemma order_is_justified_witness :
  ∃ h, hitl_override example_inputs = Some h ∧ decision_of h = u "approved".
Proof.
  destruct (order_is_justified _ _ _ _ _ _ _ example_inputs_ok sim_manifest_built eq_refl)
    as (_ & _ & _ & H & _).
  destruct (H eq_refl) as (h & Hh & Hd & _). exists h. split; [exact Hh|exact Hd].
Defined.

Lemma only_checks_refuse_witness :
  (∃ m, build_manifest (Ok tt) 1709208000000000123 (u "m-1") 7 example_inputs = Ok m) ∧
  is_ok (build_manifest (Ok tt) 1709208000000000123 (u "m-1") 6 example_inputs) = false.
Proof.
  pose proof (only_checks_refuse (Ok tt) 1709208000000000123 (u "m-1") 7 example_inputs example_inputs_ok) as H1.
  pose proof (only_checks_refuse (Ok tt) 1709208000000000123 (u "m-1") 6 example_inputs example_inputs_ok) as H2.
  replace (build_checks _ _ _ 7 _) with (Ok tt) in H1 by (vm_compute; reflexivity).
  destruct (build_checks _ _ _ 6 _) as [[]|e] eqn:E; [vm_compute in E; discriminate E|].
  split; [exact H1|]. rewrite H2. reflexivity.
Defined.

Lemma manifest_verifies_witness : verify sim_manifest = Ok accepted.
Proof. exact (proj1 (manifest_verifies _ _ _ _ _ _ example_inputs_ok sim_manifest_built)). Defined.

(** Created on a leap day: kept until the first of March, 2031. *)
Lemma retention_long_enough_witness :
  ∃ until, until / NS_PER_DAY + EPOCH_ORDINAL = ymd2ord 2031 3 1.
Proof.
  destruct (retention_long_enough _ _ _ _ _ _ 2024 2 29 example_inputs_ok sim_manifest_built eq_refl)
    as (_ & until & _ & _ & _ & _ & _ & _ & _ & _ & H).
  exists until. exact H.
Defined.
