(* ===== verification/ManifestStore.v ===== *)
(** * Compliance manifest: the write-once store ([store.py], [audit.py])

    One file per manifest, named by its position in the chain and created exclusively; each write
    is recorded in an audit log. The directory is shared: other writers may create files before any
    system call, and any call may fail, a write with part of the text on disk. *)
From S2P Require Import Prelude PyStr PyRepr PyTime Json JsonFacts JsonPrefix SharpGate.
From S2P Require Import ManifestCanonical Manifest ManifestFacts.

(** ** The directory *)

(** The text of a file, [None] when it is not UTF-8. *)
Abbreviation content := (option pystr).
Abbreviation Files := (gmap pystr content).

(** What happens at a system call: the files other writers create before it, and whether it fails -
    a write with so many characters on disk. *)
Record Io := mkIo { io_others : list (pystr * content); io_fault : option nat }.
Record Dir := mkDir { d_files : Files; d_io : list Io }.

(** Files are only ever created. *)
Definition create (fs : Files) (f : pystr * content) : Files :=
  match fs !! f.1 with Some _ => fs | None => <[f.1 := f.2]> fs end.

(** The next system call: after the script nothing else happens and calls succeed. *)
Definition syscall : M Dir (option nat) := λ d,
  match d_io d with
  | [] => (Ok None, d)
  | i :: io => (Ok (io_fault i), mkDir (fold_left create (io_others i) (d_files d)) io)
  end.
Definition files : M Dir Files := λ d, (Ok (d_files d), d).

(** ** Names *)

Definition name_ok : pystr → bool :=
  match_dollar (λ s, forallb is_digit (take 12 s) && bool_decide (length s = 17%nat)
                     && str_eqb (drop 12 s) (u ".json")).
(** [int(match.group(1))]. *)
Definition name_seq (name : pystr) : Z := Z.of_N (num_of_digits 0 (take 12 name)).
(** [f"{seq:012d}.json"]. *)
Definition _path (seq : Z) : pystr :=
  (if seq <? 10 ^ 12 then zp 12 seq else str_of_Z seq) ++ u ".json".

Definition store_error {A} (msg : pystr) : result A := raise ManifestStoreError msg.

(** [_files]: sorting by number and path is sorting by name. *)
Definition list_files (fs : Files) : list (pystr * content) :=
  sort_keys (filter (λ f, name_ok f.1 = true) (map_to_list fs)).
Definition _files : M Dir (list (Z * pystr)) :=
  fault ← syscall;
  match fault with
  | Some _ => lift (raise OSError (u "iterdir"))
  | None => fs ← files; mret ((λ f, (name_seq f.1, f.1)) <$> list_files fs)
  end.

(** What [json.loads(path.read_text())] makes of a file. *)
Definition decode_file (name : pystr) (c : option content) : result (list (pystr * json)) :=
  match c with
  | Some (Some text) =>
      match loads text with
      | Some (JObj doc) => Ok doc
      | Some _ => store_error (name ++ u " is not a JSON object")
      | None => store_error (u "cannot read manifest file " ++ name)
      end
  | _ => store_error (u "cannot read manifest file " ++ name)
  end.
Definition _read (name : pystr) : M Dir (list (pystr * json)) :=
  fault ← syscall;
  match fault with
  | Some _ => lift (store_error (u "cannot read manifest file " ++ name))
  | None => fs ← files; lift (decode_file name (fs !! name))
  end.

(** ** Reads *)

Record StoredManifest := mkStored { s_seq : Z; s_manifest_id : json; s_digest : json; s_path : pystr }.
Record StoreVerification := mkStoreVerification {
  sv_ok : bool; manifests_checked : nat; sv_problems : list pystr }.

Definition latest_digest : M Dir pystr :=
  found ← _files;
  match last found with
  | None => mret GENESIS_HASH
  | Some (_, name) =>
      doc ← _read name;
      report ← lift (verify_document doc);
      if ok report then
        doc ← _read name; d ← lift (getitem (JObj doc) (u "manifest_digest")); mret (plain_str d)
      else lift (store_error (u "newest stored manifest is corrupt"))
  end.

Definition get (seq : Z) : M Dir (list (pystr * json)) :=
  _ ← syscall;                                           (* path.exists() *)
  fs ← files;
  match fs !! _path seq with
  | None => lift (store_error (u "no manifest at sequence " ++ str_of_Z seq))
  | Some _ =>
      doc ← _read (_path seq);
      report ← lift (verify_document doc);
      if ok report then mret doc
      else lift (store_error (u "manifest " ++ str_of_Z seq ++ u " failed verification"))
  end.

(** [except ManifestStoreError as exc]: the problem it is reported as. *)
Definition read_or_problem (name : pystr) : M Dir (list (pystr * json) + pystr) := λ d,
  match _read name d with
  | (Ok doc, d) => (Ok (inl doc), d)
  | (Raise e, d) =>
      if bool_decide (exn_kind e = ManifestStoreError) then (Ok (inr (name ++ u ": " ++ exn_msg e)), d)
      else (Raise e, d)
  end.

(** The loop of [verify_store], from position [index] with the digest before it; the problem that
    ended it, if any. *)
Fixpoint verify_files (index : Z) (previous : json) (found : list (Z * pystr)) : M Dir (list pystr) :=
  match found with
  | [] => mret []
  | (seq, name) :: found =>
      if negb (seq =? index) then
        mret [u "sequence gap: expected " ++ str_of_Z index ++ u ", found " ++ str_of_Z seq]
      else
        doc ← read_or_problem name;
        match doc with
        | inr problem => mret [problem]
        | inl doc =>
            report ← lift (verify_document doc);
            if negb (ok report) then mret [name ++ u ": " ++ join (u "; ") (problems report)]
            else
              prev ← lift (m ← getitem (JObj doc) (u "manifest"); getitem m (u "prev_manifest_hash"));
              if negb (py_eq prev previous) then mret [name ++ u ": hash chain broken"]
              else digest ← lift (getitem (JObj doc) (u "manifest_digest"));
                   verify_files (index + 1) digest found
        end
  end.
Definition verify_store : M Dir StoreVerification :=
  found ← _files;
  ps ← verify_files 1 (JStr GENESIS_HASH) found;
  mret (mkStoreVerification (bool_decide (ps = [])) (length found) ps).

(** ** Writes *)

Definition put_file (name : pystr) (c : content) : M Dir unit :=
  modify (λ d, mkDir (<[name := c]> (d_files d)) (d_io d)).

Definition _write_exclusive (name data : pystr) : M Dir unit :=
  fault ← syscall;                                       (* os.open, O_CREAT | O_EXCL *)
  fs ← files;
  match fault, fs !! name with
  | Some _, _ => lift (store_error (u "cannot create " ++ name))
  | None, Some _ => lift (store_error (name ++ u " already exists: write-once violation or concurrent writer"))
  | None, None =>
      put_file name (Some []) ≫= λ _,
      fault ← syscall;                                   (* write, flush, fsync *)
      match fault with
      | Some n => put_file name (Some (take n data)) ≫= λ _, lift (store_error (u "cannot write " ++ name))
      | None => put_file name (Some data)
      end
  end.

(** ** The store over an audit log *)

Section store.
Context {A : Type} `{AuditLog A}.

(** The constructor's [actor] and [audit_event_type]. *)
Context (actor event_type : pystr).

Definition on_dir {B} (m : M Dir B) : M (Dir * A) B := λ s, let '(r, d) := m s.1 in (r, (d, s.2)).

Definition make_store : result unit :=
  if is_blank actor then store_error (u "actor (identity of the writing service) is required") else Ok tt.

Definition audit_payload (stored : StoredManifest) (data : list (pystr * json))
  : result (list (pystr * json)) :=
  manifest ← getitem (JObj data) (u "manifest");
  prev ← getitem manifest (u "prev_manifest_hash");
  retention ← getitem (JObj data) (u "retention");
  until ← getitem retention (u "retain_until");
  Ok [ (u "manifest_id", s_manifest_id stored); (u "seq", JInt (s_seq stored));
       (u "manifest_digest", s_digest stored); (u "prev_manifest_hash", prev);
       (u "retain_until", until); (u "file", JStr (s_path stored)) ].

(** [self._audit.record(...)]; whatever it raises, the file is there. *)
Definition record_stored (stored : StoredManifest) (payload : list (pystr * json)) : M (Dir * A) unit :=
  λ s, match record event_type actor payload s.2 with
       | (Ok _, a) => (Ok tt, (s.1, a))
       | (Raise e, a) =>
           (raise (ManifestAuditError (s_seq stored) (plain_str (s_manifest_id stored)))
              (u "manifest " ++ plain_str (s_manifest_id stored) ++ u " written at seq "
               ++ str_of_Z (s_seq stored) ++ u " but NOT audited: " ++ exn_msg e), (s.1, a))
       end.

Definition _emit_audit (stored : StoredManifest) (data : list (pystr * json)) : M (Dir * A) unit :=
  payload ← lift (audit_payload stored data); record_stored stored payload.

(** [manifest.document], where a dict is needed. *)
Definition dict_document (m : BuiltManifest) : result (list (pystr * json)) :=
  d ← document m;
  match d with JObj doc => Ok doc | _ => raise TypeError (u "indices must be integers") end.

Definition put (manifest : BuiltManifest) : M (Dir * A) StoredManifest :=
  report ← lift (verify manifest);
  (if ok report then mret tt else lift (store_error (u "refusing to store an invalid manifest"))) ≫= λ _,
  head ← on_dir latest_digest;
  doc ← lift (dict_document manifest);
  prev ← lift (m ← getitem (JObj doc) (u "manifest"); getitem m (u "prev_manifest_hash"));
  (if py_eq prev (JStr head) then mret tt
   else lift (store_error (u "prev_manifest_hash does not match the current chain head"))) ≫= λ _,
  found ← on_dir _files;
  let seq := Z.of_nat (length found) + 1 in
  on_dir (_write_exclusive (_path seq) (document_json manifest ++ [10%N])) ≫= λ _,
  let stored := mkStored seq (JStr (manifest_id manifest)) (JStr (digest manifest)) (_path seq) in
  _emit_audit stored doc ≫= λ _,
  mret stored.

Definition reaudit (seq : Z) : M (Dir * A) unit :=
  doc ← on_dir (get seq);
  m ← lift (getitem (JObj doc) (u "manifest"));
  manifest_id ← lift (getitem m (u "manifest_id"));
  digest ← lift (getitem (JObj doc) (u "manifest_digest"));
  _emit_audit (mkStored seq manifest_id digest (_path seq)) doc.
End store.
