(* ===== verification/ManifestChain.v ===== *)
(** * Compliance manifest: what the store keeps

    The reference for a store - files numbered without gaps whose documents verify and are linked -
    the equivalence of [verify_store] with it, and what [put] does to it, whatever fails: nothing
    written is ever changed, a chain stays a chain, and two chains with one head are one. *)
From S2P Require Import Prelude PyStr PyRepr PyTime Sha256 Json JsonFacts JsonPrefix SharpGate.
From S2P Require Import ManifestCanonical Manifest ManifestFacts ManifestStore.
From S2P Require AuditChain SharpAudit.

(** ** The reference *)

Definition prev_of (doc : list (pystr * json)) : result json :=
  m ← getitem (JObj doc) (u "manifest"); getitem m (u "prev_manifest_hash").

(** A document that verifies, with the digest before it and its own. *)
Definition link (prev : pystr) (doc : list (pystr * json)) (d : pystr) : Prop :=
  verify_document doc = Ok accepted ∧ prev_of doc = Ok (JStr prev) ∧
  getitem (JObj doc) (u "manifest_digest") = Ok (JStr d).

Inductive chain : pystr → list (list (pystr * json)) → pystr → Prop :=
  | chain_nil h : chain h [] h
  | chain_cons prev doc d docs h : link prev doc d → chain d docs h → chain prev (doc :: docs) h.

Lemma chain_snoc prev docs h doc d : chain prev docs h → link h doc d → chain prev (docs ++ [doc]) d.
Proof. induction 1; intros Hl; cbn; econstructor; eauto. constructor. Qed.

Lemma chain_app prev docs doc h : chain prev (docs ++ [doc]) h →
  ∃ mid, chain prev docs mid ∧ link mid doc h.
Proof.
  revert prev. induction docs as [|x docs IH]; intros prev H; inversion H as [|? ? d ? ? Hl Hc]; subst.
  - inversion Hc; subst. exists prev. split; [constructor|done].
  - apply IH in Hc as (mid & ? & ?). exists mid. split; [by econstructor|done].
Qed.

(** The files found hold these documents, numbered from [i]. *)
Fixpoint holds (i : Z) (found : list (pystr * content)) (docs : list (list (pystr * json))) : Prop :=
  match found, docs with
  | [], [] => True
  | (name, c) :: found, doc :: docs =>
      name_seq name = i ∧ decode_file name (Some c) = Ok doc ∧ holds (i + 1) found docs
  | _, _ => False
  end.

(** A sound store. *)
Definition store_sound (fs : Files) (docs : list (list (pystr * json))) (h : pystr) : Prop :=
  holds 1 (list_files fs) docs ∧ chain GENESIS_HASH docs h.

(** ** The directory *)

Lemma create_subset fs f : fs ⊆ create fs f.
Proof. unfold create. destruct (fs !! f.1) eqn:E; [done|]. by apply insert_subseteq. Qed.
Lemma creates_subset l : ∀ fs, fs ⊆ fold_left create l fs.
Proof. induction l as [|f l IH]; intros fs; cbn; [done|]. etrans; [apply create_subset|apply IH]. Qed.

(** Nobody else writes, and nothing fails. *)
Definition quiet (d : Dir) : Prop := Forall (λ i, io_others i = []) (d_io d).

Lemma syscall_inv d r d' : syscall d = (r, d') →
  (∃ f, r = Ok f) ∧ d_files d ⊆ d_files d' ∧ (quiet d → quiet d' ∧ d_files d' = d_files d).
Proof.
  unfold syscall, quiet. destruct (d_io d) as [|i io] eqn:E; intros [= <- <-].
  - split; [eauto|]. split; [done|]. by rewrite E.
  - split; [eauto|]. split; [apply creates_subset|]. intros [Hi Hq]%Forall_cons. cbn. by rewrite Hi.
Qed.

(** What an operation that only reads leaves. *)
Definition reads_to (d d' : Dir) : Prop := d_files d ⊆ d_files d' ∧ (quiet d → quiet d' ∧ d_files d' = d_files d).
Definition reads {B} (m : M Dir B) : Prop := ∀ d r d', m d = (r, d') → reads_to d d'.
Lemma reads_to_trans d d1 d2 : reads_to d d1 → reads_to d1 d2 → reads_to d d2.
Proof.
  intros [H1 H2] [H3 H4]. split; [by etrans|]. intros Hq. destruct (H2 Hq) as [Hq' E].
  destruct (H4 Hq') as [? E']. split; [done|congruence].
Qed.

Lemma reads_syscall : reads syscall.
Proof. intros d r d' (_ & H)%syscall_inv. exact H. Qed.
Lemma reads_pure {B} (r : result B) : reads (lift r).
Proof. intros d r' d' [= <- <-]. done. Qed.
Lemma reads_ret {B} (b : B) : reads (mret b).
Proof. intros d r' d' [= <- <-]. done. Qed.
Lemma reads_files : reads files.
Proof. intros d r' d' [= <- <-]. done. Qed.
Lemma reads_bind {B C} (m : M Dir B) (f : B → M Dir C) : reads m → (∀ b, reads (f b)) → reads (m ≫= f).
Proof.
  intros Hm Hf d r d' H. apply M_bind_inv in H as [(b & s & E & H)|(e & E & ->)].
  - apply Hm in E. apply Hf in H. by eapply reads_to_trans.
  - by apply Hm in E.
Qed.
#[export] Hint Resolve reads_syscall reads_pure reads_ret reads_files : s2p.
Ltac reads_tac := repeat (intros; first [solve [auto with s2p] | apply reads_bind | case_match]).

Lemma reads_list : reads _files. Proof. unfold _files. reads_tac. Qed.
Lemma reads_read name : reads (_read name). Proof. unfold _read. reads_tac. Qed.
#[export] Hint Resolve reads_list reads_read : s2p.
Lemma reads_latest : reads latest_digest. Proof. unfold latest_digest. reads_tac. Qed.
Lemma reads_get seq : reads (get seq). Proof. unfold get. reads_tac. Qed.
Lemma reads_problem name : reads (read_or_problem name).
Proof.
  intros d r d'. unfold read_or_problem. destruct (_read name d) as [[doc|e] d1] eqn:E.
  - intros [= <- <-]. by eapply reads_read.
  - case_bool_decide; intros [= <- <-]; by eapply reads_read.
Qed.
#[export] Hint Resolve reads_latest reads_get reads_problem : s2p.
Lemma reads_verify found : ∀ i prev, reads (verify_files i prev found).
Proof. induction found as [|[seq name] found IH]; intros i prev; cbn [verify_files]; reads_tac. Qed.
#[export] Hint Resolve reads_verify : s2p.
Lemma reads_verify_store : reads verify_store. Proof. unfold verify_store. reads_tac. Qed.

(** Creating a file never changes another one. *)
Lemma write_exclusive_inv name data d r d' : _write_exclusive name data d = (r, d') →
  d_files d ⊆ d_files d' ∧
  ((∃ e, r = Raise e ∧ (quiet d → d_files d' = d_files d))
   ∨ ∃ c, d_files d !! name = None ∧ d_files d' !! name = Some (Some c) ∧
       (quiet d → d_files d' = <[name := Some c]> (d_files d)) ∧
       ((r = Ok tt ∧ c = data) ∨ ((∃ n, c = take n data) ∧ r = Raise (Exn ManifestStoreError (u "cannot write " ++ name)))))
  ∧ (quiet d → quiet d').
Proof.
  unfold _write_exclusive. intros H. m_step H; [|apply syscall_inv in E as [[? [=]] _]].
  apply syscall_inv in E as (_ & Hsub & Hq). m_step H; [|done]. injection E as <- <-.
  destruct a as [n|].
  { injection H as <- <-. split; [done|]. split; [|naive_solver]. left. eexists. split; [done|]. naive_solver. }
  destruct (d_files s !! name) as [c|] eqn:En.
  { injection H as <- <-. split; [done|]. split; [|naive_solver]. left. eexists. split; [done|]. naive_solver. }
  m_step H; [|done]. injection E as <- <-. cbn [d_files d_io] in *. m_step H; [|apply syscall_inv in E as [[? [=]] _]].
  apply syscall_inv in E as (_ & Hsub' & Hq'). cbn [d_files] in *.
  assert (∀ c, d_files d ⊆ <[name := Some c]> (d_files s0)) as Hfin.
  { intros c. etrans; [exact Hsub|]. transitivity (<[name := Some c]> (d_files s)); [by apply insert_subseteq|].
    rewrite <- (insert_insert_eq (d_files s) name (Some c) (Some [])). by apply insert_mono. }
  assert (∀ c, quiet d → <[name := Some c]> (d_files s0) = <[name := Some c]> (d_files d)
                ∧ quiet (mkDir (<[name := Some c]> (d_files s0)) (d_io s0))) as Hqf.
  { intros c Hd. destruct (Hq Hd) as [Hs Es]. destruct (Hq' Hs) as [? Es0].
    cbn [d_files] in Es0. rewrite Es0, insert_insert_eq, Es. done. }
  assert (d_files d !! name = None) as Hnone by by eapply lookup_weaken_None.
  destruct a as [n|].
  - m_step H; [|done]. injection E as <- <-. injection H as <- <-. cbn [d_files].
    split; [apply Hfin|]. split; [|intros Hd; by apply Hqf]. right. exists (take n data).
    split_and!; [done|by rewrite lookup_insert_eq|intros Hd; by apply Hqf|]. right. eauto.
  - injection H as <- <-. cbn [d_files]. split; [apply Hfin|]. split; [|intros Hd; by apply Hqf].
    right. exists data. split_and!; [done|by rewrite lookup_insert_eq|intros Hd; by apply Hqf|]. by left.
Qed.

(** ** Names in order *)

Lemma str_ltb_app a b x y : length a = length b →
  str_ltb (a ++ [x]) (b ++ [y]) = str_ltb a b || (str_eqb a b && (x <? y)%N).
Proof.
  revert b. induction a as [|c a IH]; intros [|d b] Hl; try done.
  - cbn. by rewrite str_eqb_refl, andb_false_r, orb_false_r.
  - injection Hl as Hl. cbn. rewrite IH by done.
    assert (str_eqb (c :: a) (d :: b) = (c =? d)%N && str_eqb a b) as ->.
    { apply eq_true_iff_eq. rewrite andb_true_iff, !str_eqb_true, N.eqb_eq. naive_solver. }
    destruct (c <? d)%N eqn:E1, (c =? d)%N eqn:E2, (str_ltb a b), (str_eqb a b), (x <? y)%N; done.
Qed.

Lemma zpad_ltb k : ∀ a b, (a < b < 10 ^ N.of_nat k)%N → str_ltb (zpad k a) (zpad k b) = true.
Proof.
  induction k as [|k IH]; intros a b Hab; [cbn in Hab; lia|].
  cbn [zpad]. rewrite str_ltb_app by by rewrite !zpad_length.
  assert (10 ^ N.of_nat (S k) = 10 * 10 ^ N.of_nat k)%N as Hp
    by by rewrite Nat2N.inj_succ, N.pow_succ_r by lia.
  destruct (N.eq_dec (a / 10)%N (b / 10)%N) as [E|Hne].
  - rewrite E, str_eqb_refl. apply orb_true_iff. right. cbn. apply N.ltb_lt.
    pose proof (N.div_mod a 10 ltac:(done)). pose proof (N.div_mod b 10 ltac:(done)). lia.
  - rewrite IH; [done|]. pose proof (N.Div0.div_le_mono a b 10 ltac:(lia)).
    pose proof (N.Div0.div_lt_upper_bound b 10 (10 ^ N.of_nat k)%N ltac:(lia)). lia.
Qed.

Definition name_bound : Z := 10 ^ 12.

Lemma path_text i : i < name_bound → _path i = zp 12 i ++ u ".json".
Proof. intros H. unfold _path. by rewrite (proj2 (Z.ltb_lt i (10 ^ 12))). Qed.

Lemma str_ltb_common a b t : length a = length b → str_ltb a b = true → str_ltb (a ++ t) (b ++ t) = true.
Proof.
  revert b. induction a as [|c a IH]; intros [|d b] Hl; try done.
  injection Hl as Hl. cbn. rewrite !orb_true_iff, !andb_true_iff. intros [?|[? ?]]; auto.
Qed.

Lemma path_ltb i j : 0 ≤ i → i < j → j < name_bound → str_ltb (_path i) (_path j) = true.
Proof.
  intros Hi Hij Hj. rewrite !path_text by lia. apply str_ltb_common; [unfold zp; by rewrite !zpad_length|].
  apply zpad_ltb. unfold name_bound in Hj. change (10 ^ N.of_nat 12)%N with (Z.to_N (10 ^ 12)). lia.
Qed.

Lemma path_ok i : 0 ≤ i < name_bound → name_ok (_path i) = true ∧ name_seq (_path i) = i.
Proof.
  intros Hi. rewrite path_text by lia. unfold name_ok, name_seq, match_dollar, zp.
  rewrite take_app_length' by by rewrite zpad_length. rewrite drop_app_length' by by rewrite zpad_length.
  rewrite zpad_digits, str_eqb_refl, length_app, zpad_length. split; [done|].
  rewrite zpad_value; [lia|]. unfold name_bound in Hi. change (10 ^ N.of_nat 12)%N with (Z.to_N (10 ^ 12)). lia.
Qed.

(** The files of a store written by this code. *)
Fixpoint named (i : Z) (cs : list content) : list (pystr * content) :=
  match cs with [] => [] | c :: cs => (_path i, c) :: named (i + 1) cs end.

Lemma named_snoc i cs c : named i (cs ++ [c]) = named i cs ++ [(_path (i + Z.of_nat (length cs)), c)].
Proof.
  revert i. induction cs as [|x cs IH]; intros i; cbn.
  - by rewrite Z.add_0_r.
  - rewrite IH. by replace (i + 1 + Z.of_nat (length cs)) with (i + Z.of_nat (S (length cs))) by lia.
Qed.
Lemma named_length i cs : length (named i cs) = length cs.
Proof. revert i. induction cs as [|c cs IH]; intros i; cbn; auto. Qed.
Lemma named_lookup i cs k : named i cs !! k = (λ c, (_path (i + Z.of_nat k), c)) <$> cs !! k.
Proof.
  revert i k. induction cs as [|c cs IH]; intros i [|k]; cbn; [done|done|by rewrite Z.add_0_r|].
  rewrite IH. by replace (i + 1 + Z.of_nat k) with (i + Z.of_nat (S k)) by lia.
Qed.

Lemma list_files_elem fs name c : (name, c) ∈ list_files fs ↔ name_ok name = true ∧ fs !! name = Some c.
Proof.
  unfold list_files. rewrite (sort_keys_perm _), list_elem_of_filter, elem_of_map_to_list. done.
Qed.
Lemma list_files_NoDup fs : NoDup (list_files fs).*1.
Proof.
  unfold list_files. rewrite (sort_keys_perm _). pose proof (NoDup_fst_map_to_list fs) as H. revert H.
  generalize (map_to_list fs). induction l as [|x l IH]; [done|].
  rewrite fmap_cons. intros [Hx Hl]%NoDup_cons.
  rewrite filter_cons. case_decide; [|auto]. rewrite fmap_cons. apply NoDup_cons. split; [|auto].
  intros (y & E & Hy)%list_elem_of_fmap. apply list_elem_of_filter in Hy as [_ Hy]. apply Hx.
  rewrite E. by apply list_elem_of_fmap_2.
Qed.

(** A file whose name comes after all others is the last one. *)
Lemma list_files_insert fs name c : fs !! name = None → name_ok name = true →
  (∀ f, f ∈ list_files fs → str_leb f.1 name = true) →
  list_files (<[name := c]> fs) = list_files fs ++ [(name, c)].
Proof.
  intros Hn Hok Hlast. apply sorted_keys_unique.
  - apply sort_keys_sorted.
  - assert (Sorted.Sorted key_le (list_files fs)) as Hs by apply sort_keys_sorted. revert Hs Hlast.
    generalize (list_files fs). induction 1 as [|x l Hs IH Hd]; intros Hlast; [by repeat constructor|].
    cbn. constructor; [apply IH; intros f Hf; apply Hlast; by apply list_elem_of_further|].
    destruct Hd; cbn; constructor; [|done]. apply (Hlast x), list_elem_of_here.
  - apply list_files_NoDup.
  - unfold list_files. rewrite !sort_keys_perm, map_to_list_insert by done.
    rewrite filter_cons_True by done. rewrite Permutation_app_comm. done.
Qed.

(** ** [verify_store] decides soundness *)

Lemma verify_document_ok doc r : verify_document doc = Ok r → ok r = true → r = accepted.
Proof.
  unfold verify_document. intros H Hok. apply bind_ok in H as (ps & _ & [= <-]).
  cbn in Hok. apply bool_decide_eq_true in Hok as ->. done.
Qed.

Definition body_of (doc : list (pystr * json)) : list (pystr * json) :=
  filter (λ kv, kv.1 ≠ u "manifest_digest") doc.

(** An accepted document names its digest, and the digest before it is a hash. *)
Lemma accepted_digest doc : verify_document doc = Ok accepted →
  ∃ text d, canonical_text (body_of doc) = Ok text ∧ digest_text text = Ok d ∧
    getitem (JObj doc) (u "manifest_digest") = Ok (JStr d).
Proof.
  unfold verify_document. intros H. apply bind_ok in H as (ps & H & E). injection E as _ ->.
  destruct (bool_decide (_structure_problems doc = [])) eqn:Eb.
  - apply bind_ok in H as (ds & Hds & H). apply bind_ok in H as (rs & _ & [= H]).
    apply app_eq_nil in H as [-> _]. unfold _digest_problems in Hds.
    apply bind_ok in Hds as (m & _ & Hds). destruct (_ : result (list (pystr * section))) as [s|e] eqn:Es;
      [|destruct (is_key_or_type _); discriminate].
    apply bind_ok in Hds as (? & _ & Hds). apply bind_ok in Hds as (mm & _ & Hds).
    apply bind_ok in Hds as (rd & Hrd & Hds). apply bind_ok in Hds as (text & Ht & Hds).
    apply bind_ok in Hds as (d & Hd & Hds). apply bind_ok in Hds as (? & _ & [= Hds]).
    apply app_eq_nil in Hds as [_ Hds]. apply app_eq_nil in Hds as [Hds _].
    exists text, d. split_and!; [done..|]. destruct (py_eq rd (JStr d)) eqn:Ep; [|done].
    apply py_eq_str in Ep as ->. done.
  - injection H as H. rewrite H in Eb. discriminate.
Qed.

Lemma read_at_rest name fs : _read name (mkDir fs []) = (decode_file name (fs !! name), mkDir fs []).
Proof. reflexivity. Qed.

Lemma decode_error name c e : decode_file name c = Raise e → exn_kind e = ManifestStoreError.
Proof. unfold decode_file, store_error, raise. intros H. repeat case_match; simplify_eq; done. Qed.

Lemma M_bind_ok {S B C} (m : M S B) (f : B → M S C) s b s' : m s = (Ok b, s') → (m ≫= f) s = f b s'.
Proof. unfold mbind, M_bind. by intros ->. Qed.
Lemma M_bind_raise {S B C} (m : M S B) (f : B → M S C) s e s' : m s = (Raise e, s') → (m ≫= f) s = (Raise e, s').
Proof. unfold mbind, M_bind. by intros ->. Qed.

Lemma lift_inv {S B} (m : result B) (s : S) r s' : lift m s = (r, s') → m = r ∧ s = s'.
Proof. by intros [= <- <-]. Qed.

Lemma problem_at_rest name fs : read_or_problem name (mkDir fs []) =
  (Ok (match decode_file name (fs !! name) with
       | Ok doc => inl doc | Raise e => inr (name ++ u ": " ++ exn_msg e) end), mkDir fs []).
Proof.
  unfold read_or_problem. rewrite read_at_rest. destruct (decode_file _ _) as [doc|e] eqn:E; [done|].
  by rewrite bool_decide_true by by eapply decode_error.
Qed.

Lemma verify_files_spec fs found : (∀ f, f ∈ found → fs !! f.1 = Some f.2) → ∀ i prev,
  ∃ r, verify_files i (JStr prev) ((λ f, (name_seq f.1, f.1)) <$> found) (mkDir fs []) = (r, mkDir fs []) ∧
    (r = Ok [] ↔ ∃ docs h, holds i found docs ∧ chain prev docs h).
Proof.
  induction found as [|[name c] found IH]; intros Hfs i prev.
  { exists (Ok []). split; [done|]. split; [|done]. intros _. exists [], prev. split; [done|constructor]. }
  assert (fs !! name = Some c) as Hname by exact (Hfs (name, c) ltac:(apply list_elem_of_here)).
  assert (∀ f, f ∈ found → fs !! f.1 = Some f.2) as Hfs' by (intros; apply Hfs; by apply list_elem_of_further).
  rewrite fmap_cons. cbn [verify_files fst snd].
  destruct (Z.eqb_spec (name_seq name) i) as [Hseq|Hseq]; cbn [negb].
  2: { eexists. split; [reflexivity|]. split; [done|]. intros (docs & h & Hh & _). destruct docs; [done|].
       by destruct Hh. }
  rewrite (M_bind_ok _ _ _ _ _ (problem_at_rest name fs)), Hname.
  destruct (decode_file name (Some c)) as [doc|e] eqn:Ed.
  2: { eexists. split; [reflexivity|]. split; [done|].
       intros (docs & h & Hh & _). destruct docs; [done|]. destruct Hh as (_ & Hd & _). congruence. }
  assert (∀ docs h, holds i ((name, c) :: found) docs ∧ chain prev docs h ↔
    ∃ d docs', docs = doc :: docs' ∧ link prev doc d ∧ holds (i + 1) found docs' ∧ chain d docs' h) as Hsplit.
  { intros docs h. split.
    - intros [Hh Hc]. destruct docs as [|doc' docs]; [done|]. destruct Hh as (_ & E & Hh).
      assert (doc' = doc) as -> by congruence. inversion Hc; subst. eauto 10.
    - intros (d & docs' & -> & Hl & Hh & Hc). split; [done|by econstructor]. }
  destruct (verify_document doc) as [report|e] eqn:Ev.
  2: { rewrite (M_bind_raise _ _ _ e (mkDir fs [])) by done. eexists. split; [reflexivity|]. split; [done|]. intros (docs & h & H%Hsplit).
       destruct H as (d & ? & _ & (Hv & _) & _). congruence. }
  rewrite (M_bind_ok _ _ _ report (mkDir fs [])) by done. destruct (ok report) eqn:Eok; cbn [negb].
  2: { eexists. split; [reflexivity|]. split; [done|]. intros (docs & h & H%Hsplit).
       destruct H as (d & ? & _ & (Hv & _) & _). rewrite Ev in Hv. injection Hv as ->. done. }
  apply verify_document_ok in Ev as E; [|done]. subst report.
  fold (prev_of doc). destruct (prev_of doc) as [p|e] eqn:Ep.
  2: { rewrite (M_bind_raise _ _ _ e (mkDir fs [])) by done. eexists. split; [reflexivity|]. split; [done|]. intros (docs & h & H%Hsplit).
       destruct H as (d & ? & _ & (_ & Hp & _) & _). congruence. }
  rewrite (M_bind_ok _ _ _ p (mkDir fs [])) by done. destruct (py_eq p (JStr prev)) eqn:Epe; cbn [negb].
  2: { eexists. split; [reflexivity|]. split; [done|]. intros (docs & h & H%Hsplit).
       destruct H as (d & ? & _ & (_ & Hp & _) & _). rewrite Ep in Hp. injection Hp as ->.
       cbn in Epe. by rewrite str_eqb_refl in Epe. }
  apply py_eq_str in Epe as ->. destruct (accepted_digest doc Ev) as (_ & d & _ & _ & Hd).
  rewrite Hd, (M_bind_ok _ _ _ (JStr d) (mkDir fs [])) by done. destruct (IH Hfs' (i + 1) d) as (r & Hr & Hiff). exists r. split; [exact Hr|].
  rewrite Hiff. split.
  - intros (docs & h & Hh & Hc). exists (doc :: docs), h. apply Hsplit. exists d, docs. by split_and!.
  - intros (docs & h & (d' & docs' & -> & (_ & _ & Hl) & Hh & Hc)%Hsplit). rewrite Hd in Hl. injection Hl as <-. eauto.
Qed.

(** C17: [verify_store] decides soundness. On a directory at rest it changes nothing, and it answers
    ok exactly when the files found are numbered from 1 without a gap, each holds a document that
    [verify_document] accepts, and each names the digest of the one before it, the first the genesis
    hash. *)
Theorem verify_store_reference fs :
  ∃ r, verify_store (mkDir fs []) = (r, mkDir fs []) ∧
    ((∃ v, r = Ok v ∧ sv_ok v = true) ↔ ∃ docs h, store_sound fs docs h) ∧
    (∀ v, r = Ok v → manifests_checked v = length (list_files fs)).
Proof.
  destruct (verify_files_spec fs (list_files fs)) with (i := 1) (prev := GENESIS_HASH) as (r & Hr & Hiff).
  { intros [name c] [_ H]%list_files_elem. done. }
  unfold verify_store, _files. cbv [mbind M_bind mret M_ret syscall d_io files]. cbn [d_files].
  rewrite Hr. destruct r as [ps|e].
  - eexists. split; [reflexivity|]. split; [|intros v [= <-]; by rewrite length_fmap]. unfold store_sound.
    rewrite <- Hiff. split.
    + intros (v & [= <-] & Hok). cbn in Hok. apply bool_decide_eq_true in Hok as ->. done.
    + intros [= ->]. eexists. split; [reflexivity|done].
  - eexists. split; [reflexivity|]. split; [|done]. unfold store_sound. rewrite <- Hiff. split; [by intros (? & ? & _)|done].
Qed.

(** ** A store written by this code *)

Definition holds_doc (c : content) (doc : list (pystr * json)) : Prop :=
  ∃ t, c = Some t ∧ loads t = Some (JObj doc).

(** Files named by position, holding a chain. *)
Definition shelf (fs : Files) (cs : list content) (docs : list (list (pystr * json))) (h : pystr) : Prop :=
  list_files fs = named 1 cs ∧ Forall2 holds_doc cs docs ∧ chain GENESIS_HASH docs h.
(** The same, and after it a file that a failed write left, which is no JSON object. *)
Definition torn (fs : Files) (cs : list content) (docs : list (list (pystr * json))) (h : pystr) : Prop :=
  ∃ t, list_files fs = named 1 (cs ++ [Some t]) ∧ Forall2 holds_doc cs docs ∧ chain GENESIS_HASH docs h ∧
    ∀ doc, loads t ≠ Some (JObj doc).

Lemma decode_doc name c doc : holds_doc c doc → decode_file name (Some c) = Ok doc.
Proof. intros (t & -> & H). cbn. by rewrite H. Qed.

Lemma shelf_sound fs cs docs h : Z.of_nat (length cs) < name_bound - 1 → shelf fs cs docs h → store_sound fs docs h.
Proof.
  intros Hb (Hl & Hd & Hc). split; [|done]. rewrite Hl. clear Hl Hc.
  assert (∀ i, 0 ≤ i → i + Z.of_nat (length cs) < name_bound → holds i (named i cs) docs) as H; [|apply H; lia].
  clear Hb. induction Hd as [|c doc cs docs Hcd _ IH]; intros i Hi Hb; [done|]. cbn [length] in Hb.
  split_and!; [apply path_ok; lia|by apply decode_doc|apply IH; lia].
Qed.

Lemma named_last fs cs c : list_files fs = named 1 (cs ++ [c]) →
  fs !! _path (Z.of_nat (length (cs ++ [c]))) = Some c.
Proof.
  intros Hl. rewrite named_snoc in Hl.
  assert ((_path (1 + Z.of_nat (length cs)), c) ∈ list_files fs) as H
    by (rewrite Hl; apply elem_of_app; right; apply list_elem_of_here).
  apply list_files_elem in H as [_ H]. rewrite length_app. cbn.
  by replace (Z.of_nat (length cs + 1)) with (1 + Z.of_nat (length cs)) by lia.
Qed.

(** [_files] on a directory where nobody else writes. *)
Lemma files_quiet d r d' : quiet d → _files d = (r, d') →
  (∃ e, r = Raise e) ∨ r = Ok ((λ f, (name_seq f.1, f.1)) <$> list_files (d_files d)).
Proof.
  intros Hq H. unfold _files in H. m_step H; [|apply syscall_inv in E as [[? [=]] _]].
  apply syscall_inv in E as (_ & _ & Hf). destruct (Hf Hq) as [_ Hf']. destruct a.
  - injection H as <- <-. left. eauto.
  - m_step H; [|done]. injection E as <- <-. injection H as <- <-. right. by rewrite Hf'.
Qed.

Lemma read_quiet name d r d' : quiet d → _read name d = (r, d') →
  (∃ e, r = Raise e) ∨ r = decode_file name (d_files d !! name).
Proof.
  intros Hq H. unfold _read in H. m_step H; [|apply syscall_inv in E as [[? [=]] _]].
  apply syscall_inv in E as (_ & _ & Hf). destruct (Hf Hq) as [_ Hf']. destruct a.
  - injection H as <- <-. left. unfold store_error, raise. eauto.
  - m_step H; [|done]. injection E as <- <-. injection H as <- <-. right. by rewrite Hf'.
Qed.

Lemma last_named cs c i : last ((λ f : pystr * content, (name_seq f.1, f.1)) <$> named i (cs ++ [c]))
  = Some (name_seq (_path (i + Z.of_nat (length cs))), _path (i + Z.of_nat (length cs))).
Proof. rewrite named_snoc, fmap_app. apply last_snoc. Qed.

Lemma latest_shelf d cs docs h r d' : quiet d → shelf (d_files d) cs docs h → latest_digest d = (r, d') →
  (∃ e, r = Raise e) ∨ r = Ok h.
Proof.
  intros Hq (Hl & Hd & Hc) H. unfold latest_digest in H. m_step H; [|eauto].
  pose proof (reads_list _ _ _ E) as [_ Hr]. destruct (Hr Hq) as [Hq1 Hf1].
  apply files_quiet in E as [[? [=]]|[= ->]]; [|done].
  destruct cs as [|c cs' _] using rev_ind.
  { rewrite Hl in H. cbn in H. injection H as <- <-. right. inversion Hd; subst. by inversion Hc. }
  rewrite Hl, last_named in H. apply Forall2_app_inv_l in Hd as (docs' & dl & Hd' & Hlast & ->).
  apply Forall2_cons_inv_l in Hlast as (doc & ? & Hdoc & Hnil & ->). apply Forall2_nil_inv_l in Hnil as ->.
  pose proof (named_last _ _ _ Hl) as Hname. rewrite length_app in Hname. cbn [length] in Hname.
  replace (Z.of_nat (length cs' + 1)) with (1 + Z.of_nat (length cs')) in Hname by lia.
  set (name := _path (1 + Z.of_nat (length cs'))) in *.
  apply chain_app in Hc as (mid & _ & Hv & _ & Hdig).
  m_step H; [|eauto]. pose proof (reads_read _ _ _ _ E) as [_ Hr1]. destruct (Hr1 Hq1) as [Hq2 Hf2].
  apply read_quiet in E as [[? [=]]|E]; [|done]. rewrite Hf1, Hname, (decode_doc _ _ doc) in E by done.
  injection E as ->. m_step H; [|eauto]. apply lift_inv in E as [E <-]. rewrite Hv in E. injection E as <-. cbn [ok accepted] in H.
  m_step H; [|eauto]. pose proof (reads_read _ _ _ _ E) as [_ Hr2]. destruct (Hr2 Hq2) as [Hq3 Hf3].
  apply read_quiet in E as [[? [=]]|E]; [|done]. rewrite Hf2, Hf1, Hname, (decode_doc _ _ doc) in E by done.
  injection E as ->. m_step H; [|eauto]. apply lift_inv in E as [E <-]. rewrite Hdig in E. injection E as <-.
  injection H as <- <-. by right.
Qed.

Lemma latest_torn d cs docs h r d' : quiet d → torn (d_files d) cs docs h → latest_digest d = (r, d') →
  ∃ e, r = Raise e.
Proof.
  intros Hq (t & Hl & _ & _ & Ht) H. unfold latest_digest in H. m_step H; [|eauto].
  pose proof (reads_list _ _ _ E) as [_ Hr]. destruct (Hr Hq) as [Hq1 Hf1].
  apply files_quiet in E as [[? [=]]|[= ->]]; [|done].
  rewrite Hl, last_named in H. pose proof (named_last _ _ _ Hl) as Hname. rewrite length_app in Hname.
  cbn [length] in Hname. replace (Z.of_nat (length cs + 1)) with (1 + Z.of_nat (length cs)) in Hname by lia.
  m_step H; [|eauto]. exfalso. apply read_quiet in E as [[? [=]]|E]; [|done].
  rewrite Hf1, Hname in E. cbn in E. destruct (loads t) as [[]|] eqn:El; try discriminate. by eapply Ht.
Qed.

Definition built (m : BuiltManifest) : Prop :=
  ∃ stubs c id years i, inputs_ok i ∧ build_manifest stubs c id years i = Ok m.

Lemma built_doc m : built m →
  verify m = Ok accepted ∧ ∃ doc prev, loads (document_json m) = Some (JObj doc) ∧ link prev doc (digest m) ∧
    ∀ stored, ∃ payload, audit_payload stored doc = Ok payload.
Proof.
  intros (stubs & c & id & years & i & Hi & H). split; [by eapply verify_built|].
  destruct (verify_read_back _ _ _ _ _ _ Hi H)
    as (doc & Hl & _ & Hv & Hd & pd & _ & _ & Hm & Hp & _ & ret & until & Hret & Huntil).
  assert (getitem (JObj doc) (u "manifest") = Ok (norm pd)) as Hman by (unfold getitem; by rewrite Hm).
  exists doc, (prev_manifest_hash i). split; [done|]. split; [split; [done|split]|].
  - unfold prev_of. rewrite Hman. exact Hp.
  - unfold getitem. by rewrite Hd.
  - intros stored. unfold audit_payload. rewrite Hman. cbn [mbind result_bind]. rewrite Hp. cbn [mbind result_bind].
    rewrite Hret. cbn [mbind result_bind]. rewrite Huntil. eexists. reflexivity.
Qed.

(** A file with the manifest's text, or with the front of it. *)
Lemma written_file m doc t : loads (document_json m) = Some (JObj doc) →
  t = document_json m ++ [10%N] ∨ (∃ n, t = take n (document_json m ++ [10%N])) →
  loads t = Some (JObj doc) ∨ ∀ doc', loads t ≠ Some (JObj doc').
Proof.
  intros Hl Ht. assert (loads (document_json m ++ [10%N]) = Some (JObj doc)) as Hfull
    by by rewrite (loads_app _ _ _ Hl).
  destruct Ht as [->|[n ->]]; [by left|].
  set (t := take n _). destruct (loads t) as [v|] eqn:E; [|by right].
  destruct v as [| | | | | |m']; try by right. left.
  apply (loads_app _ (drop n (document_json m ++ [10%N]))) in E as E'. unfold t in E'. rewrite take_drop, Hfull in E'.
  case_bool_decide; [|done]. by injection E' as ->.
Qed.

Lemma shelf_write fs cs docs h m doc t :
  Z.of_nat (length cs) < name_bound - 1 → shelf fs cs docs h →
  loads (document_json m) = Some (JObj doc) → link h doc (digest m) →
  fs !! _path (Z.of_nat (length cs) + 1) = None →
  t = document_json m ++ [10%N] ∨ (∃ n, t = take n (document_json m ++ [10%N])) →
  let fs' := <[_path (Z.of_nat (length cs) + 1) := Some t]> fs in
  shelf fs' (cs ++ [Some t]) (docs ++ [doc]) (digest m) ∨ torn fs' cs docs h.
Proof.
  intros Hb (Hl & Hd & Hc) Hj Hlink Hnew Ht. cbv zeta. set (n := Z.of_nat (length cs) + 1) in *.
  assert (list_files (<[_path n := Some t]> fs) = named 1 (cs ++ [Some t])) as Hl'.
  { rewrite list_files_insert, Hl, named_snoc.
    - do 2 f_equal. unfold n. by rewrite Z.add_comm.
    - done.
    - apply path_ok. unfold n, name_bound in *. lia.
    - intros f. rewrite Hl. intros (k & Hk)%list_elem_of_lookup. rewrite named_lookup in Hk.
      destruct (cs !! k) as [c|] eqn:Ek; [|done]. injection Hk as <-. apply lookup_lt_Some in Ek. cbn [fst].
      unfold str_leb. destruct (str_ltb (_path n) _) eqn:E; [|done].
      assert (str_ltb (_path (1 + Z.of_nat k)) (_path n) = true) as E' by (apply path_ltb; unfold n; lia).
      pose proof (str_ltb_trans _ _ _ E E') as Hx. by rewrite str_ltb_irrefl in Hx. }
  destruct (written_file m doc t Hj Ht) as [Hok|Hbad].
  - left. split; [done|]. split; [|by eapply chain_snoc]. apply Forall2_app; [done|].
    constructor; [by exists t|constructor].
  - right. exists t. done.
Qed.

(** ** Putting *)

Section put.
Context {A : Type} `{L : AuditLog A} (actor event_type : pystr).

Lemma on_dir_inv {B} (m : M Dir B) (s : Dir * A) r s' : on_dir m s = (r, s') →
  ∃ d', m s.1 = (r, d') ∧ s' = (d', s.2).
Proof. unfold on_dir. destruct (m s.1) as [r' d']. intros [= <- <-]. eauto. Qed.

Lemma emit_audit_eq stored doc payload d a rr a' B (f : unit → M (Dir * A) B) :
  audit_payload stored doc = Ok payload → record event_type actor payload a = (rr, a') →
  (_emit_audit actor event_type stored doc ≫= f) (d, a)
  = match rr with
    | Ok _ => f tt (d, a')
    | Raise e => (raise (ManifestAuditError (s_seq stored) (plain_str (s_manifest_id stored)))
        (u "manifest " ++ plain_str (s_manifest_id stored) ++ u " written at seq " ++ str_of_Z (s_seq stored)
         ++ u " but NOT audited: " ++ exn_msg e), (d, a'))
    end.
Proof.
  intros Hp Hr. unfold _emit_audit, record_stored. rewrite Hp. cbv [mbind M_bind lift snd fst]. rewrite Hr.
  by destruct rr.
Qed.

(** The way through [put]: it only read and then raised, or it wrote, and recorded what it wrote. *)
Lemma put_inv m d a r d' a' : built m → put actor event_type m (d, a) = (r, (d', a')) →
  (reads_to d d' ∧ a' = a ∧ ∃ e, r = Raise e) ∨
  ∃ d1 d2 d3 head found doc r3,
    loads (document_json m) = Some (JObj doc) ∧ link head doc (digest m) ∧
    latest_digest d = (Ok head, d1) ∧ _files d1 = (Ok found, d2) ∧
    let n := Z.of_nat (length found) + 1 in
    _write_exclusive (_path n) (document_json m ++ [10%N]) d2 = (r3, d3) ∧ d' = d3 ∧
    ((∃ e, r3 = Raise e ∧ r = Raise e ∧ a' = a) ∨
     (r3 = Ok tt ∧ ∃ rr, (∃ payload, record event_type actor payload a = (rr, a')) ∧
        ((∃ rc, rr = Ok rc) ∧ r = Ok (mkStored n (JStr (manifest_id m)) (JStr (digest m)) (_path n))
         ∨ ∃ e, rr = Raise e ∧ ∃ msg, r = raise (ManifestAuditError n (manifest_id m)) msg))).
Proof.
  intros Hb H. destruct (built_doc m Hb) as (Hv & doc & prev & Hl & Hlink & Haud).
  pose proof Hlink as (_ & Hprev & _). unfold put in H. rewrite Hv in H.
  rewrite (M_bind_ok _ _ _ accepted (d, a)) in H by done. cbn [ok accepted] in H.
  rewrite (M_bind_ok _ _ _ tt (d, a)) in H by done.
  apply M_bind_inv in H as [(head & s1 & E1 & H)|(e & E1 & ->)].
  2: { apply on_dir_inv in E1 as (dx & E1 & [= -> ->]). left. split; [by eapply reads_latest|]. eauto. }
  apply on_dir_inv in E1 as (d1 & E1 & ->). cbn [fst snd] in *. pose proof (reads_latest _ _ _ E1) as R1.
  assert (dict_document m = Ok doc) as Hdoc by (unfold dict_document, document; by rewrite Hl).
  rewrite Hdoc in H. rewrite (M_bind_ok _ _ _ doc (d1, a)) in H by done.
  fold (prev_of doc) in H. rewrite Hprev in H. rewrite (M_bind_ok _ _ _ (JStr prev) (d1, a)) in H by done.
  destruct (py_eq (JStr prev) (JStr head)) eqn:Ep.
  2: { rewrite (M_bind_raise _ _ _ (Exn ManifestStoreError (u "prev_manifest_hash does not match the current chain head"))
         (d1, a)) in H by done. injection H as <- <- <-. left. eauto. }
  apply py_eq_str in Ep as [= ->]. rewrite (M_bind_ok _ _ _ tt (d1, a)) in H by done.
  apply M_bind_inv in H as [(found & s2 & E2 & H)|(e & E2 & ->)].
  2: { apply on_dir_inv in E2 as (dx & E2 & [= -> ->]). cbn in E2. left.
       split; [eapply reads_to_trans; [done|by eapply reads_list]|]. eauto. }
  apply on_dir_inv in E2 as (d2 & E2 & ->). cbn [fst snd] in *.
  right. exists d1, d2. set (n := Z.of_nat (length found) + 1) in *.
  apply M_bind_inv in H as [([] & s3 & E3 & H)|(e & E3 & ->)].
  2: { apply on_dir_inv in E3 as (d3 & E3 & [= -> ->]). exists d3, head, found, doc, (Raise e).
       split_and!; try done. left. eauto. }
  apply on_dir_inv in E3 as (d3 & E3 & ->). cbn [fst snd] in *. exists d3, head, found, doc, (Ok tt).
  destruct (Haud (mkStored n (JStr (manifest_id m)) (JStr (digest m)) (_path n))) as [payload Hpay].
  destruct (record event_type actor payload a) as [rr ax] eqn:Er.
  rewrite (emit_audit_eq _ doc payload d3 a rr ax _ _ Hpay Er) in H.
  split_and!; try done; destruct rr as [rc|e]; injection H as <- <- <-; try done.
  - right. split; [done|]. exists (Ok rc). split; [eauto|]. left. eauto.
  - right. split; [done|]. exists (Raise e). split; [eauto|]. right. eauto.
Qed.

(** The other way round: when every step succeeds, [put] returns. *)
Lemma put_returns m doc head found d d1 d2 d3 a a' :
  built m → loads (document_json m) = Some (JObj doc) → link head doc (digest m) →
  latest_digest d = (Ok head, d1) → _files d1 = (Ok found, d2) →
  let n := Z.of_nat (length found) + 1 in
  _write_exclusive (_path n) (document_json m ++ [10%N]) d2 = (Ok tt, d3) →
  (∀ payload, ∃ rc, record event_type actor payload a = (Ok rc, a')) →
  put actor event_type m (d, a)
  = (Ok (mkStored n (JStr (manifest_id m)) (JStr (digest m)) (_path n)), (d3, a')).
Proof.
  intros Hb Hl (_ & Hprev & _) E1 E2 n E3 Hrec. destruct (built_doc m Hb) as (Hv & doc' & prev & Hl' & _ & Haud).
  rewrite Hl in Hl'. injection Hl' as <-. unfold put. rewrite Hv.
  rewrite (M_bind_ok _ _ _ accepted (d, a)) by done. cbn [ok accepted].
  rewrite (M_bind_ok _ _ _ tt (d, a)) by done.
  rewrite (M_bind_ok (on_dir latest_digest) _ _ head (d1, a)) by (unfold on_dir; cbn [fst]; by rewrite E1).
  assert (dict_document m = Ok doc) as Hdoc by (unfold dict_document, document; by rewrite Hl).
  rewrite Hdoc, (M_bind_ok _ _ _ doc (d1, a)) by done.
  fold (prev_of doc). rewrite Hprev, (M_bind_ok _ _ _ (JStr head) (d1, a)) by done.
  replace (py_eq (JStr head) (JStr head)) with true by (symmetry; apply str_eqb_refl).
  rewrite (M_bind_ok _ _ _ tt (d1, a)) by done.
  rewrite (M_bind_ok (on_dir _files) _ _ found (d2, a)) by (unfold on_dir; cbn [fst]; by rewrite E2).
  fold n. rewrite (M_bind_ok (on_dir _) _ _ tt (d3, a)) by (unfold on_dir; cbn [fst]; by rewrite E3).
  cbn [snd]. destruct (Haud (mkStored n (JStr (manifest_id m)) (JStr (digest m)) (_path n))) as [payload Hpay].
  destruct (Hrec payload) as [rc Hr]. by rewrite (emit_audit_eq _ doc payload _ a _ _ _ _ Hpay Hr).
Qed.

Lemma put_grows m d a r d' a' : built m → put actor event_type m (d, a) = (r, (d', a')) → d_files d ⊆ d_files d'.
Proof.
  intros Hb H. apply put_inv in H as [([? _] & _)|H]; [done| |done].
  destruct H as (d1 & d2 & d3 & head & found & doc & r3 & _ & _ & E1 & E2 & E3 & -> & _).
  apply reads_latest in E1 as [E1 _]. apply reads_list in E2 as [E2 _]. apply write_exclusive_inv in E3 as [E3 _].
  etrans; [exact E1|]. by etrans.
Qed.

(** One [put] on a store nobody else writes to. *)
Lemma put_step m d a r d' a' cs docs h :
  built m → quiet d → Z.of_nat (length cs) < name_bound - 1 → put actor event_type m (d, a) = (r, (d', a')) →
  quiet d' ∧
  (torn (d_files d) cs docs h → torn (d_files d') cs docs h ∧ ∃ e, r = Raise e) ∧
  (shelf (d_files d) cs docs h →
     (shelf (d_files d') cs docs h ∧ ∃ e, r = Raise e) ∨ (torn (d_files d') cs docs h ∧ ∃ e, r = Raise e) ∨
     ∃ c doc, shelf (d_files d') (cs ++ [c]) (docs ++ [doc]) (digest m) ∧
       loads (document_json m) = Some (JObj doc) ∧
       ∀ s, r = Ok s → s_seq s = Z.of_nat (length docs) + 1 ∧
         d_files d' !! s_path s = Some (Some (document_json m ++ [10%N]))).
Proof.
  intros Hb Hq Hbound H. apply put_inv in H as [([_ Hr] & _ & He)|H]; [| |done].
  { destruct (Hr Hq) as [? ->]. split; [done|]. tauto. }
  destruct H as (d1 & d2 & d3 & head & found & doc & r3 & Hl & Hlink & E1 & E2 & E3 & -> & Hres).
  destruct (reads_latest _ _ _ E1) as [_ R1]. destruct (R1 Hq) as [Hq1 F1].
  destruct (reads_list _ _ _ E2) as [_ R2]. destruct (R2 Hq1) as [Hq2 F2].
  pose proof (files_quiet _ _ _ Hq1 E2) as [[? [=]]|[= ->]].
  apply write_exclusive_inv in E3 as (_ & Hw & Hq3). split; [by apply Hq3|].
  split.
  { intros Ht. destruct (latest_torn _ _ _ _ _ _ Hq Ht E1) as [? [=]]. }
  intros Hs. pose proof (latest_shelf _ _ _ _ _ _ Hq Hs E1) as [[? [=]]|[= ->]].
  pose proof Hs as (Hlf & Hd & _). rewrite F1, Hlf, length_fmap, named_length in Hw, Hres.
  destruct Hw as [(e & -> & Hsame)|(t & Hnone & Hsome & Hins & Hrt)].
  { left. rewrite Hsame, F2, F1 by done. split; [done|].
    destruct Hres as [(e' & _ & -> & _)|([=] & _)]. eauto. }
  rewrite (Hins Hq2), F2, F1 in *.
  assert (t = document_json m ++ [10%N] ∨ ∃ n, t = take n (document_json m ++ [10%N])) as Ht by naive_solver.
  destruct (shelf_write _ _ _ _ m doc t Hbound Hs Hl Hlink Hnone Ht) as [Hshelf|Htorn].
  - right. right. exists (Some t), doc. split; [done|]. split; [done|]. intros s ->.
    destruct Hres as [(? & _ & [=] & _)|(-> & rr & _ & Hr)].
    destruct Hr as [(_ & [= ->])|(e & _ & msg & [=])]. cbn [s_seq s_path].
    rewrite (Forall2_length _ _ _ Hd). split; [done|]. destruct Hrt as [[_ ->]|[_ [=]]].
    by rewrite lookup_insert_eq.
  - right. left. split; [done|]. destruct Hrt as [[-> ->]|[_ ->]].
    + exfalso. destruct Htorn as (t & Hlt & _ & _ & Hbad).
      assert (loads (document_json m ++ [10%N]) = Some (JObj doc)) as Hfull by by rewrite (loads_app _ _ _ Hl).
      pose proof (named_last _ _ _ Hlt) as Hlast. rewrite length_app in Hlast. cbn [length] in Hlast.
      replace (Z.of_nat (length cs + 1)) with (Z.of_nat (length cs) + 1) in Hlast by lia.
      rewrite lookup_insert_eq in Hlast. injection Hlast as <-. by eapply Hbad.
    + destruct Hres as [(e' & _ & -> & _)|([=] & _)]. eauto.
Qed.

(** A sequence of [put]s, whatever each returns. *)
Fixpoint puts (ms : list BuiltManifest) (s : Dir * A) : list (result StoredManifest) * (Dir * A) :=
  match ms with
  | [] => ([], s)
  | m :: ms => let '(r, s) := put actor event_type m s in let '(rs, s) := puts ms s in (r :: rs, s)
  end.

Lemma puts_torn ms : ∀ d a rs d' a' cs docs h,
  Forall built ms → quiet d → Z.of_nat (length cs) < name_bound - 1 → torn (d_files d) cs docs h →
  puts ms (d, a) = (rs, (d', a')) →
  torn (d_files d') cs docs h ∧ d_files d ⊆ d_files d' ∧ Forall (λ r, is_ok r = false) rs.
Proof.
  induction ms as [|m ms IH]; intros d a rs d' a' cs docs h Hb Hq Hbound Ht H; cbn in H.
  { injection H as <- <- <-. split_and!; [done..|constructor]. }
  apply Forall_cons in Hb as [Hm Hms]. destruct (put _ _ m (d, a)) as [r [d1 a1]] eqn:E.
  destruct (puts ms (d1, a1)) as [rs' [d2 a2]] eqn:E'. injection H as <- <- <-.
  destruct (put_step _ _ _ _ _ _ cs docs h Hm Hq Hbound E) as (Hq1 & Ht1 & _).
  destruct (Ht1 Ht) as [Ht' [e ->]]. destruct (IH _ _ _ _ _ _ _ _ Hms Hq1 Hbound Ht' E') as (? & ? & ?).
  split_and!; [done| |by constructor]. etrans; [|done]. by eapply put_grows.
Qed.

Lemma puts_shelf ms : ∀ d a rs d' a' cs docs h,
  Forall built ms → quiet d → Z.of_nat (length cs) + Z.of_nat (length ms) < name_bound →
  shelf (d_files d) cs docs h → puts ms (d, a) = (rs, (d', a')) →
  d_files d ⊆ d_files d' ∧ ∃ cs' new h',
    (shelf (d_files d') (cs ++ cs') (docs ++ new) h' ∨ torn (d_files d') (cs ++ cs') (docs ++ new) h') ∧
    Z.of_nat (length cs') ≤ Z.of_nat (length ms) ∧
    ∀ k m s, ms !! k = Some m → rs !! k = Some (Ok s) →
      d_files d' !! s_path s = Some (Some (document_json m ++ [10%N])) ∧
      ∃ doc, (docs ++ new) !! Z.to_nat (s_seq s - 1) = Some doc ∧ loads (document_json m) = Some (JObj doc).
Proof.
  induction ms as [|m ms IH]; intros d a rs d' a' cs docs h Hb Hq Hbound Hs H; cbn in H.
  { injection H as <- <- <-. split; [done|]. exists [], [], h. rewrite !app_nil_r. split; [by left|]. done. }
  apply Forall_cons in Hb as [Hm Hms]. destruct (put _ _ m (d, a)) as [r [d1 a1]] eqn:E.
  destruct (puts ms (d1, a1)) as [rs' [d2 a2]] eqn:E'. injection H as <- <- <-. cbn [length] in Hbound.
  pose proof (put_grows _ _ _ _ _ _ Hm E) as Hg.
  destruct (put_step _ _ _ _ _ _ cs docs h Hm Hq ltac:(lia) E) as (Hq1 & _ & Hs1).
  destruct (Hs1 Hs) as [[Hs' [e ->]]|[[Ht [e ->]]|(c & doc & Hs' & Hl & Hok)]].
  - destruct (IH _ _ _ _ _ cs docs h Hms Hq1 ltac:(lia) Hs' E') as (Hsub & cs' & new & h' & Hfin & Hlen & Hall).
    split; [by etrans|]. exists cs', new, h'. split; [done|]. split; [cbn; lia|].
    intros [|k] m' s Hk Hr; [done|]. by eapply Hall.
  - destruct (puts_torn _ _ _ _ _ _ cs docs h Hms Hq1 ltac:(lia) Ht E') as (Ht' & Hsub & Hbad).
    split; [by etrans|]. exists [], [], h. rewrite !app_nil_r. split; [by right|]. split; [cbn; lia|].
    intros [|k] m' s Hk Hr; [done|]. rewrite Forall_lookup in Hbad. by apply Hbad in Hr.
  - destruct (IH _ _ _ _ _ (cs ++ [c]) (docs ++ [doc]) (digest m) Hms Hq1 ltac:(rewrite length_app; cbn; lia) Hs' E')
      as (Hsub & cs' & new & h' & Hfin & Hlen & Hall).
    split; [by etrans|]. exists (c :: cs'), (doc :: new), h'. rewrite !cons_middle, !app_assoc.
    split; [done|]. split; [cbn; lia|]. intros [|k] m' s Hk Hr; [|by eapply Hall].
    injection Hk as <-. injection Hr as ->. destruct (Hok s eq_refl) as [Hseq Hfile].
    split; [by eapply lookup_weaken|]. exists doc. split; [|done]. rewrite Hseq.
    replace (Z.to_nat (Z.of_nat (length docs) + 1 - 1)) with (length docs) by lia.
    rewrite lookup_app_l by (rewrite length_app; cbn; lia). by apply list_lookup_middle.
Qed.
End put.

(** C16: The store stays a chain and keeps what it was given. Take a directory holding a chain of
    manifests that nobody else writes to, and any sequence of [put]s of built manifests, whatever
    system calls fail and whatever the audit log does. No file that was there changes; the files are
    still one chain that continues the old one, possibly followed by one file which a failed write
    left and which is no JSON object - and after which no [put] returns; and every [put] that
    returned has its manifest, complete, at its position in the chain. *)
Theorem store_keeps_chain {A} `{L : AuditLog A} actor event_type ms d (a : A) rs d' a' cs docs h :
  Forall built ms → quiet d → Z.of_nat (length cs) + Z.of_nat (length ms) < name_bound - 1 →
  shelf (d_files d) cs docs h → puts actor event_type ms (d, a) = (rs, (d', a')) →
  d_files d ⊆ d_files d' ∧ ∃ cs' new h',
    (shelf (d_files d') (cs ++ cs') (docs ++ new) h' ∧ store_sound (d_files d') (docs ++ new) h'
     ∨ torn (d_files d') (cs ++ cs') (docs ++ new) h') ∧
    ∀ k m s, ms !! k = Some m → rs !! k = Some (Ok s) →
      d_files d' !! s_path s = Some (Some (document_json m ++ [10%N])) ∧
      ∃ doc, (docs ++ new) !! Z.to_nat (s_seq s - 1) = Some doc ∧ loads (document_json m) = Some (JObj doc).
Proof.
  intros Hb Hq Hbound Hs H.
  destruct (puts_shelf actor event_type ms _ _ _ _ _ cs docs h Hb Hq ltac:(lia) Hs H)
    as (Hsub & cs' & new & h' & Hfin & Hlen & Hall).
  split; [done|]. exists cs', new, h'. split; [|done]. destruct Hfin as [Hf|Hf]; [left|by right].
  split; [done|]. apply (shelf_sound _ (cs ++ cs')); [|done]. rewrite length_app. lia.
Qed.

(** ** The head pins the manifests *)

Lemma body_perm doc d : json_ok (JObj doc) → getitem (JObj doc) (u "manifest_digest") = Ok (JStr d) →
  doc ≡ₚ full_doc (body_of doc) d ∧ json_ok (JObj (body_of doc)).
Proof.
  intros Hok H. unfold getitem, raise in H. destruct (obj_get doc _) as [x|] eqn:E; [|done]. injection H as ->.
  apply obj_get_elem in E. apply json_ok_obj in Hok as [Hn Hf].
  apply elem_of_Permutation in E as [k Hk].
  assert (body_of doc ≡ₚ k) as Hb.
  { unfold body_of. rewrite Hk. rewrite filter_cons_False by (cbn; tauto).
    rewrite Hk, fmap_cons in Hn. apply NoDup_cons in Hn as [Hn _]. clear -Hn.
    induction k as [|y k IH]; [done|]. rewrite fmap_cons, not_elem_of_cons in Hn. destruct Hn as [Hy Hn].
    rewrite filter_cons_True by (intros E; by rewrite E in Hy). by rewrite IH. }
  split.
  - unfold full_doc. etrans; [exact Hk|]. rewrite Hb. by rewrite Permutation_app_comm.
  - apply json_ok_obj. rewrite !Hb. rewrite Hk in Hn. rewrite fmap_cons in Hn. apply NoDup_cons in Hn as [_ ?].
    split; [done|]. rewrite Hk in Hf. by apply Forall_cons in Hf as [_ ?].
Qed.

Definition same_doc (a b : list (pystr * json)) : Prop := norm (JObj a) = norm (JObj b).
Definition sha256_collision : Prop := ∃ x y, x ≠ y ∧ sha256_hex x = sha256_hex y.
Definition genesis_preimage : Prop := ∃ x, sha256_hex x = GENESIS_HASH.

Lemma link_digest prev doc d : json_ok (JObj doc) → link prev doc d →
  d = sha256_hex (dumps_canonical (JObj (body_of doc))).
Proof.
  intros Hok (Hv & _ & Hd). destruct (accepted_digest doc Hv) as (text & d' & Ht & Hd' & E).
  rewrite Hd in E. injection E as <-. destruct (body_perm doc d Hok Hd) as [_ Hb].
  rewrite canonical_text_ok in Ht by done. apply Ok_inj in Ht as <-.
  rewrite digest_text_ascii in Hd' by by apply dumps_ascii. by apply Ok_inj in Hd' as <-.
Qed.

Lemma same_prev doc1 doc2 : json_ok (JObj doc1) → json_ok (JObj doc2) → same_doc doc1 doc2 →
  ∀ p1 p2, prev_of doc1 = Ok (JStr p1) → prev_of doc2 = Ok (JStr p2) → p1 = p2.
Proof.
  intros H1 H2 Hs p1 p2 E1 E2.
  assert (∀ doc p, json_ok (JObj doc) → prev_of doc = Ok (JStr p) →
    (m ← getitem (norm (JObj doc)) (u "manifest"); getitem m (u "prev_manifest_hash")) = Ok (JStr p)) as Hp.
  { intros doc p Hok H. unfold prev_of in H. apply bind_ok in H as (m & Hm & H).
    pose proof (getitem_json_ok _ _ _ Hok Hm). rewrite (getitem_norm _ _ m Hok Hm). cbn [mbind result_bind].
    by rewrite (getitem_norm _ _ (JStr p)). }
  apply Hp in E1, E2; [|done..]. unfold same_doc in Hs. rewrite Hs, E2 in E1. by injection E1.
Qed.

Lemma same_link p1 p2 doc1 doc2 d : json_ok (JObj doc1) → json_ok (JObj doc2) →
  link p1 doc1 d → link p2 doc2 d → (same_doc doc1 doc2 ∧ p1 = p2) ∨ sha256_collision.
Proof.
  intros H1 H2 L1 L2. pose proof (link_digest _ _ _ H1 L1) as E1. pose proof (link_digest _ _ _ H2 L2) as E2.
  destruct L1 as (_ & P1 & D1), L2 as (_ & P2 & D2).
  destruct (body_perm _ _ H1 D1) as [B1 K1], (body_perm _ _ H2 D2) as [B2 K2].
  destruct (decide (dumps_canonical (JObj (body_of doc1)) = dumps_canonical (JObj (body_of doc2)))) as [E|Hne].
  2: { right. eexists _, _. split; [exact Hne|congruence]. }
  left. apply dumps_canonical_inj in E; [|done..].
  assert (same_doc doc1 doc2) as Hs.
  { unfold same_doc. apply json_ok_obj in H1 as [N1 _], H2 as [N2 _].
    rewrite (norm_perm _ _ N1 B1), (norm_perm _ _ N2 B2). unfold full_doc.
    rewrite !norm_obj in E |- *. injection E as E. f_equal.
    rewrite <- !sort_keys_fmap in E |- *. rewrite !fmap_app.
    apply sort_keys_unique.
    - rewrite <- fmap_app, <- list_fmap_compose. change (fst ∘ prod_map id norm) with (@fst pystr json).
      rewrite B1 in N1. exact N1.
    - apply Permutation_app_tail. by rewrite <- (sort_keys_perm (prod_map id norm <$> body_of doc1)), E, sort_keys_perm. }
  split; [done|]. exact (same_prev _ _ H1 H2 Hs _ _ P1 P2).
Qed.

(** The head pins every manifest. If two stores are sound and end with the same digest, then one
    by one they hold the same documents - or two texts with the same SHA-256 are at hand, or a text
    whose SHA-256 is the genesis hash. Documents are taken without floats, as [build_manifest] writes
    them. *)
Theorem head_pins_manifests fs1 fs2 docs1 docs2 h :
  store_sound fs1 docs1 h → store_sound fs2 docs2 h →
  Forall (λ doc, json_ok (JObj doc)) docs1 → Forall (λ doc, json_ok (JObj doc)) docs2 →
  Forall2 same_doc docs1 docs2 ∨ sha256_collision ∨ genesis_preimage.
Proof.
  intros [_ H1] [_ H2]. revert h docs2 H1 H2.
  induction docs1 as [|doc1 docs1 IH] using rev_ind; intros h docs2 H1 H2 Hok1 Hok2.
  - inversion H1; subst. destruct docs2 as [|doc2 docs2 _] using rev_ind; [by left; constructor|].
    right. right. apply chain_app in H2 as (mid & _ & Hl). apply Forall_app in Hok2 as [_ [Hok _]%Forall_cons].
    eexists. symmetry. by eapply link_digest.
  - apply chain_app in H1 as (mid1 & C1 & L1). apply Forall_app in Hok1 as [Hok1 [K1 _]%Forall_cons].
    destruct docs2 as [|doc2 docs2 _] using rev_ind.
    { inversion H2; subst. right. right. eexists. symmetry. by eapply link_digest. }
    apply chain_app in H2 as (mid2 & C2 & L2). apply Forall_app in Hok2 as [Hok2 [K2 _]%Forall_cons].
    destruct (same_link _ _ _ _ _ K1 K2 L1 L2) as [[Hs ->]|?]; [|by right; left].
    destruct (IH _ _ C1 C2 Hok1 Hok2) as [H|H]; [|by right]. left. apply Forall2_app; [done|]. by repeat constructor.
Qed.

(** ** The store at work *)

(** A log that accepts every record. *)
Definition accepting_log : AuditLog unit := {|
  record := λ _ _ _ a, (Ok (mkReceipt None None), a);
  find := λ _ _, Ok (λ _, None); entries := λ _ _, None; audit_ok := λ _, True |}.

#[local] Instance chain_sim_log : AuditLog SharpAudit.LoggerState := SharpAudit.logger_log loads.
Definition sim_logger : SharpAudit.LoggerState :=
  SharpAudit.mkLogger (AuditChain.mkDb [] [] []) [mkDatetime true 1000000] true.
Definition sim_puts (d : Dir) : list (Prelude.result StoredManifest) * (Dir * SharpAudit.LoggerState) :=
  puts (u "motor") (u "manifest.stored") [sim_manifest; sim_manifest] (d, sim_logger).

(** The manifest is never computed: what is needed of it follows from its being built. *)
#[local] Opaque sim_manifest.
Lemma sim_built : built sim_manifest.
Proof.
  exists (Ok tt), 1709208000000000123, (u "m-1"), 7, example_inputs. split; [exact example_inputs_ok|exact sim_manifest_built].
Qed.

Lemma empty_shelf : shelf ∅ [] [] GENESIS_HASH.
Proof. split; [reflexivity|]. split; constructor. Qed.

(** The same manifest twice, on an empty directory. *)
Lemma store_keeps_chain_witness :
  ∃ rs s' cs docs h, sim_puts (mkDir ∅ []) = (rs, s') ∧
    (shelf (d_files s'.1) cs docs h ∧ store_sound (d_files s'.1) docs h ∨ torn (d_files s'.1) cs docs h).
Proof.
  destruct (sim_puts (mkDir ∅ [])) as [rs [d' a']] eqn:E.
  destruct (store_keeps_chain (u "motor") (u "manifest.stored") [sim_manifest; sim_manifest] (mkDir ∅ []) sim_logger
              rs d' a' [] [] GENESIS_HASH) as (_ & cs & docs & h & Hfin & _).
  - constructor; [exact sim_built|]. constructor; [exact sim_built|constructor].
  - constructor.
  - reflexivity.
  - exact empty_shelf.
  - exact E.
  - exists rs, (d', a'), cs, docs, h. split; [reflexivity|]. exact Hfin.
Defined.

Lemma built_json_ok m doc : built m → loads (document_json m) = Some (JObj doc) → json_ok (JObj doc).
Proof.
  intros (stubs & c & id & years & i & Hi & H). apply build_spec in H as (pd & sections & digests & until & ut & H);
    [|done]. cbv zeta in H. destruct H as (_ & _ & _ & _ & HD & _ & _ & _ & _ & _ & Hj & _).
  rewrite Hj, loads_dumps by done. intros E%(inj Some). rewrite <- E. by apply norm_json_ok.
Qed.

(** A store that holds one manifest, the first of a chain. *)
Definition store_of (m : BuiltManifest) : Files := <[_path 1 := Some (document_json m ++ [10%N])]> ∅.

Lemma store_of_sound m doc : loads (document_json m) = Some (JObj doc) →
  link GENESIS_HASH doc (digest m) → store_sound (store_of m) [doc] (digest m).
Proof.
  intros Hl Hlink.
  destruct (shelf_write ∅ [] [] GENESIS_HASH m doc (document_json m ++ [10%N]))
    as [Hs|Ht]; [done|exact empty_shelf|done|done|done|by left| |].
  - by apply (shelf_sound _ [Some (document_json m ++ [10%N])]).
  - exfalso. destruct Ht as (t & Hlt & _ & _ & Hbad).
    assert (loads (document_json m ++ [10%N]) = Some (JObj doc)) as Hfull by by rewrite (loads_app _ _ _ Hl).
    pose proof (named_last _ _ _ Hlt) as Hlast. cbn [length app Z.of_nat] in Hlast.
    change (Z.of_nat 0 + 1) with 1 in Hlast. change (Z.of_nat 1) with 1 in Hlast.
    rewrite lookup_insert_eq in Hlast. injection Hlast as <-. by eapply Hbad.
Qed.

Lemma first_manifest stubs c id years i m : inputs_ok i → prev_manifest_hash i = GENESIS_HASH →
  build_manifest stubs c id years i = Ok m →
  ∃ doc, loads (document_json m) = Some (JObj doc) ∧ link GENESIS_HASH doc (digest m) ∧ json_ok (JObj doc).
Proof.
  intros Hi Hp Hm. assert (built m) as Hb by (exists stubs, c, id, years, i; done).
  destruct (verify_read_back _ _ _ _ _ _ Hi Hm) as (doc & Hl & _ & Hv & Hd & pd & _ & _ & Hmd & Hprev & _).
  exists doc. split; [done|]. split; [|by eapply built_json_ok]. split; [done|]. rewrite Hp in Hprev.
  assert (getitem (JObj doc) (u "manifest") = Ok (norm pd)) as Hman by (unfold getitem; by rewrite Hmd).
  unfold prev_of. rewrite Hman. split; [exact Hprev|]. unfold getitem. by rewrite Hd.
Qed.

Lemma head_pins_manifests_witness :
  ∃ doc, Forall2 same_doc [doc] [doc] ∨ sha256_collision ∨ genesis_preimage.
Proof.
  destruct (first_manifest _ _ _ _ _ _ example_inputs_ok eq_refl sim_manifest_built) as (doc & Hl & Hlink & Hj).
  pose proof (store_of_sound sim_manifest doc Hl Hlink) as Hs.
  assert (Forall (λ doc, json_ok (JObj doc)) [doc]) as Hok by (constructor; [exact Hj|constructor]).
  exists doc. exact (head_pins_manifests _ _ [doc] [doc] _ Hs Hs Hok Hok).
Defined.
