(* ===== verification/ManifestRace.v ===== *)
(** * Compliance manifest: two writers at once

    [put] checks the head of the chain and then lists the directory again for its own number. The
    comment in [store.py] says that of two writers racing for the same sequence number the loser is
    refused; a writer whose manifest lands between the two listings shows that the number is taken
    from the second one, and both are stored. *)
From S2P Require Import Prelude PyStr PyRepr PyTime Sha256 Json JsonFacts JsonPrefix SharpGate.
From S2P Require Import ManifestCanonical Manifest ManifestFacts ManifestStore ManifestChain.

(** Built as the first manifest of a chain. *)
Definition opens (m : BuiltManifest) : Prop :=
  ∃ stubs c id years i, inputs_ok i ∧ prev_manifest_hash i = GENESIS_HASH ∧
    build_manifest stubs c id years i = Ok m.

(** The text [put] writes. *)
Definition file_of (m : BuiltManifest) : content := Some (document_json m ++ [10%N]).

(** An empty directory in which another writer's [m] appears before the second system call. *)
Definition racing (m : BuiltManifest) : Dir :=
  mkDir ∅ [mkIo [] None; mkIo [(_path 1, file_of m)] None].

Definition after_race (m1 m2 : BuiltManifest) : Files :=
  <[_path 2 := file_of m2]> (<[_path 2 := Some []]> (<[_path 1 := file_of m1]> ∅)).

Lemma path_2_free m : (<[_path 1 := file_of m]> ∅ : Files) !! _path 2 = None.
Proof. by rewrite lookup_insert_ne. Qed.

Lemma list_files_one m : list_files (<[_path 1 := file_of m]> ∅) = [(_path 1, file_of m)].
Proof.
  rewrite list_files_insert; [reflexivity|done|by apply path_ok|].
  intros f Hf. change (list_files ∅) with (@nil (pystr * content)) in Hf. by apply elem_of_nil in Hf.
Qed.

Lemma list_files_two m1 m2 : list_files (after_race m1 m2) = [(_path 1, file_of m1); (_path 2, file_of m2)].
Proof.
  unfold after_race. rewrite insert_insert_eq.
  rewrite list_files_insert; [by rewrite list_files_one|apply path_2_free|by apply path_ok|].
  intros f. rewrite list_files_one. intros ->%list_elem_of_singleton. vm_compute. reflexivity.
Qed.

Lemma file_of_doc m doc : loads (document_json m) = Some (JObj doc) → holds_doc (file_of m) doc.
Proof. intros Hl. exists (document_json m ++ [10%N]). by rewrite (loads_app _ _ _ Hl). Qed.

(** Two openings in a row are no chain. *)
Lemma after_race_broken m1 m2 doc1 doc2 docs h :
  loads (document_json m1) = Some (JObj doc1) → link GENESIS_HASH doc1 (digest m1) → json_ok (JObj doc1) →
  loads (document_json m2) = Some (JObj doc2) → link GENESIS_HASH doc2 (digest m2) →
  store_sound (after_race m1 m2) docs h → genesis_preimage.
Proof.
  intros L1 (V1 & P1 & D1) J1 L2 (V2 & P2 & D2) [Hh Hc]. rewrite list_files_two in Hh.
  destruct docs as [|x1 [|x2 [|x3 docs]]]; try (cbn in Hh; tauto). destruct Hh as (_ & E1 & _ & E2 & _).
  rewrite (decode_doc _ _ doc1) in E1 by by apply file_of_doc.
  rewrite (decode_doc _ _ doc2) in E2 by by apply file_of_doc.
  apply Ok_inj in E1 as <-. apply Ok_inj in E2 as <-.
  inversion Hc as [|? ? d ? ? Hl1 Hc1]; subst. inversion Hc1 as [|? ? d2 ? ? (_ & Hp2 & _) _]; subst.
  rewrite P2 in Hp2. injection Hp2 as <-. eexists. symmetry. by eapply link_digest.
Qed.

Lemma list_race m : _files (mkDir ∅ [mkIo [(_path 1, file_of m)] None])
  = (Ok [(1, _path 1)], mkDir (<[_path 1 := file_of m]> ∅) []).
Proof.
  unfold _files. rewrite (M_bind_ok syscall _ _ None (mkDir (<[_path 1 := file_of m]> ∅) [])) by reflexivity.
  cbv iota. rewrite (M_bind_ok files _ _ (<[_path 1 := file_of m]> ∅) (mkDir (<[_path 1 := file_of m]> ∅) []))
    by reflexivity.
  rewrite list_files_one. reflexivity.
Qed.

Lemma write_race m1 m2 :
  _write_exclusive (_path 2) (document_json m2 ++ [10%N]) (mkDir (<[_path 1 := file_of m1]> ∅) [])
  = (Ok tt, mkDir (after_race m1 m2) []).
Proof.
  unfold _write_exclusive. set (d := mkDir (<[_path 1 := file_of m1]> ∅) []).
  rewrite (M_bind_ok syscall _ _ None d) by reflexivity.
  rewrite (M_bind_ok files _ _ (d_files d) d) by reflexivity. unfold d at 1. cbn [d_files].
  rewrite path_2_free. reflexivity.
Qed.

Section race.
Context {A : Type} `{L : AuditLog A} (actor event_type : pystr).

(** Two writers can both be stored. Both manifests are built as the first of an empty store; the
    other writer's appears, complete, after this [put] has checked the head and before it lists the
    directory for its number. Then [put] returns: its manifest is stored at position 2, the other's
    stays at position 1, and no [verify_store] accepts the result - the chain is forked - unless some
    text has the genesis hash for its SHA-256. *)
Theorem race_forks_chain m1 m2 a a' :
  opens m1 → opens m2 → (∀ payload, ∃ rc, record event_type actor payload a = (Ok rc, a')) →
  ∃ st d', put actor event_type m2 (racing m1, a) = (Ok st, (d', a')) ∧ s_seq st = 2 ∧
    d_files d' !! _path 1 = Some (file_of m1) ∧ d_files d' !! _path 2 = Some (file_of m2) ∧
    ((∃ docs h, store_sound (d_files d') docs h) → genesis_preimage).
Proof.
  intros (st1 & c1 & id1 & y1 & i1 & Hi1 & Hp1 & Hm1) (st2 & c2 & id2 & y2 & i2 & Hi2 & Hp2 & Hm2) Hrec.
  destruct (first_manifest _ _ _ _ _ _ Hi1 Hp1 Hm1) as (doc1 & Hl1 & Hlink1 & Hj1).
  destruct (first_manifest _ _ _ _ _ _ Hi2 Hp2 Hm2) as (doc & Hl & Hlink & _).
  assert (built m2) as Hb by (exists st2, c2, id2, y2, i2; done).
  exists (mkStored 2 (JStr (manifest_id m2)) (JStr (digest m2)) (_path 2)), (mkDir (after_race m1 m2) []). split; [|split; [reflexivity|split; [|split]]].
  - eapply (put_returns actor event_type m2 doc GENESIS_HASH [(1, _path 1)] (racing m1) _ _ _ a a' Hb Hl Hlink);
      [reflexivity|apply list_race|apply write_race|exact Hrec].
  - cbn [d_files]. unfold after_race. rewrite !(lookup_insert_ne _ (_ 2)) by done. apply lookup_insert_eq.
  - apply lookup_insert_eq.
  - intros (docs & h & Hs). exact (after_race_broken m1 m2 doc1 doc docs h Hl1 Hlink1 Hj1 Hl Hlink Hs).
Qed.
End race.

(** ** Two manifests of one trade *)

#[local] Existing Instance accepting_log.

Lemma race_forks_chain_witness :
  ∃ m1 m2 st d', put (u "motor") (u "manifest.stored") m2 (racing m1, tt) = (Ok st, (d', tt)) ∧ s_seq st = 2.
Proof.
  assert (∀ id, build_checks (Ok tt) 1709208000000000123 id 7 example_inputs = Ok tt → ∃ m, opens m) as Hm.
  { intros id Hc. pose proof (build_checked (Ok tt) 1709208000000000123 id 7 example_inputs example_inputs_ok) as H.
    rewrite Hc in H. destruct H as [m H]. exists m. exists (Ok tt), 1709208000000000123, id, 7, example_inputs.
    split; [exact example_inputs_ok|]. split; [reflexivity|exact H]. }
  destruct (Hm (u "m-1")) as [m1 H1]; [vm_compute; reflexivity|].
  destruct (Hm (u "m-2")) as [m2 H2]; [vm_compute; reflexivity|].
  assert (∀ payload, ∃ rc, record (u "manifest.stored") (u "motor") payload tt = (Ok rc, tt)) as Hr
    by (intros payload; eexists; reflexivity).
  destruct (race_forks_chain (u "motor") (u "manifest.stored") m1 m2 tt tt H1 H2 Hr)
    as (st & d' & Hput & Hseq & _).
  exists m1, m2, st, d'. split; [exact Hput|exact Hseq].
Defined.
