(* ===== verification/ManifestMotor.v ===== *)
(** * Compliance manifest: the order path ([AfeManifestWriter] of [compliance.py])

    What the execution motor writes before an order goes out: the Aegis decision and the caller's
    context, their messages in full, become one manifest that is built and stored. The service sees
    the messages through the views at the end of the definitions. *)
From S2P Require Import Prelude PyStr PyDecimal PyFloat PyRepr PyTime Sha256 Json JsonFacts.
From S2P Require Import AuditCanonical ManifestCanonical Manifest ManifestFacts.
From S2P Require Import SharpGate ManifestStore ManifestChain.
From S2P Require MotorModels Limits Attest MotorConfig Halt Motor ProtoAdapter Compliance Service.

(** ** Messages ([aegis.proto], [execution_motor.proto]) *)

Record ControlResult := mkControl {
  control_id : pystr; is_hard : bool; c_passed : bool; c_reason : Z; threshold : pystr;
  observed : pystr; detail : pystr }.

(** The [ReasonCode] of [aegis.proto], in the order of their numbers. *)
Definition ReasonCode : list pystr :=
  [ u "REASON_UNSPECIFIED"; u "REASON_KILL_SWITCH_ACTIVE"; u "REASON_INVALID_SIGNAL";
    u "REASON_SYMBOL_NOT_ALLOWED"; u "REASON_SHORT_SELLING_DISABLED"; u "REASON_OUTSIDE_TRADING_SESSION";
    u "REASON_SIGNAL_EXPIRED"; u "REASON_SIGNAL_FROM_FUTURE"; u "REASON_DUPLICATE_SIGNAL";
    u "REASON_REPLAY_PAYLOAD_MISMATCH"; u "REASON_STALE_REFERENCE_PRICE"; u "REASON_PRICE_COLLAR";
    u "REASON_MAX_ORDER_QUANTITY"; u "REASON_MAX_ORDER_NOTIONAL"; u "REASON_ORDER_SIZE_ADV";
    u "REASON_POSITION_LIMIT_SYMBOL"; u "REASON_GROSS_EXPOSURE_LIMIT"; u "REASON_DAILY_DRAWDOWN";
    u "REASON_RATE_LIMIT"; u "REASON_LOW_OMEGA"; u "REASON_REGIME_LOW_CONFIDENCE";
    u "REASON_REGIME_MISMATCH"; u "REASON_UNUSUAL_ORDER_SIZE"; u "REASON_STATE_UNAVAILABLE";
    u "REASON_HSM_UNAVAILABLE"; u "REASON_AUDIT_UNAVAILABLE"; u "REASON_INTERNAL_ERROR";
    u "REASON_HOLD_EXPIRED"; u "REASON_HOLD_REJECTED_BY_OPERATOR" ].

(** [None] for a message field that is not set. *)
Record Decision := mkDecision {
  g_decision : Z; g_signal_id : pystr; g_order : option pbval; g_results : list ControlResult;
  g_attestation : option ProtoAdapter.AttestationMsg; aegis_version : pystr }.
Record Context := mkContext {
  x_snapshot : option pbval; x_signal : option pbval; x_hitl_override : option pbval;
  x_model_versions : list (pystr * pystr); x_cognitive : CognitiveOutputs }.

(** ** Aegis to manifest *)

Definition _decimal_to_float (text : pystr) : pyfloat :=
  match float_of_text text with FFin m e => FFin m e | _ => FFin 0 0 end.

Definition reason_name (reason : Z) : pystr :=
  if reason <? 0 then str_of_Z reason
  else default (str_of_Z reason) (ReasonCode !! Z.to_nat reason).

Definition reason_text (result : ControlResult) : pystr :=
  reason_name (c_reason result) ++ u "; threshold=" ++ repr_str (threshold result)
  ++ u "; observed=" ++ repr_str (observed result)
  ++ (if bool_decide (detail result = []) then [] else u "; " ++ detail result).

Definition ptc_check_of (result : ControlResult) : pbval :=
  VMsg PTC_CHECK_RESULT
    [ (u "check_name", VStr (control_id result));
      (u "ptc_type", VInt (if is_hard result then HARD_BLOCK else SOFT_BLOCK));
      (u "passed", VBool (c_passed result));
      (u "reason", VStr (reason_text result));
      (u "threshold_value", VDouble (_decimal_to_float (threshold result)));
      (u "actual_value", VDouble (_decimal_to_float (observed result))) ].

Definition ptc_checks_from_decision (decision : Decision) : list pbval :=
  ptc_check_of <$> g_results decision.

(** [d.setdefault(key, value)], when [value] is not empty. *)
Definition setdefault (m : list (pystr * pystr)) (key value : pystr) : list (pystr * pystr) :=
  if bool_decide (value = []) then m
  else if bool_decide (key ∈ m.*1) then m else m ++ [(key, value)].

Definition limits_config_sha256 (decision : Decision) : pystr :=
  match g_attestation decision with
  | Some t => ProtoAdapter.t_limits_config_sha256 t | None => [] end.

Definition versions_of (decision : Decision) (context : Context) : list (pystr * pystr) :=
  setdefault (setdefault (x_model_versions context) (u "aegis") (aegis_version decision))
    (u "aegis-limits-sha256") (limits_config_sha256 decision).

Definition inputs_of (decision : Decision) (context : Context) (prev : pystr) : ManifestInputs :=
  mkInputs (default (VMsg MARKET_SNAPSHOT []) (x_snapshot context))
    (default (VMsg TRADE_SIGNAL []) (x_signal context))
    (Some (default (VMsg ORDER_REQUEST []) (g_order decision)))
    (versions_of decision context) (ptc_checks_from_decision decision) prev
    (x_hitl_override context) (x_cognitive context) false [].

(** ** The writer; the lock makes [latest_digest] and [put] one step of this process *)

Section writer.
Context {A : Type} `{AuditLog A} (actor event_type : pystr).

Definition write (stubs : Prelude.result unit) (clock_ns : Z) (id_factory : pystr)
    (decision : Decision) (context : Context) : M (Dir * A) pystr :=
  head ← on_dir latest_digest;
  built ← lift (build_manifest stubs clock_ns id_factory RETENTION_YEARS (inputs_of decision context head));
  _ ← put actor event_type built;
  mret (digest built).
End writer.

(** ** What the service reads of the messages *)

Definition double_repr (x : pyfloat) : pystr :=
  match x with
  | FFin m e => fin_text m e | FInf neg => if neg then u "-inf" else u "inf" | FNaN => u "nan" end.
Definition bytes_attr (m : pbval) (name : pystr) : pybytes :=
  match getattr m name with VBytes b => b | _ => [] end.

Definition order_view (o : pbval) : ProtoAdapter.OrderRequest :=
  ProtoAdapter.mkOrderRequest (str_attr o (u "order_id")) (str_attr o (u "signal_id"))
    (str_attr o (u "symbol")) (int_attr o (u "created_at_ns")) (int_attr o (u "side"))
    (int_attr o (u "order_type")) (int_attr o (u "algo")) (int_attr o (u "status"))
    (int_attr o (u "quantity_nanos")) (int_attr o (u "limit_price_nanos"))
    (int_attr o (u "stop_price_nanos")) (str_attr o (u "preferred_venue"))
    (double_repr (float_attr o (u "max_venue_toxicity"))) (double_repr (float_attr o (u "pov_target_rate")))
    (double_repr (float_attr o (u "iceberg_display_size"))) (bytes_attr o (u "hsm_signature"))
    (str_attr o (u "hsm_key_id")) (int_attr o (u "attestation_expires_at_ns")).
Definition decision_view (d : Decision) : Compliance.AegisDecision :=
  Compliance.mkAegisDecision (g_decision d) (g_signal_id d) (order_view <$> g_order d) (g_attestation d).
Definition signal_view (m : pbval) : Compliance.TradeSignal :=
  Compliance.mkTradeSignal (str_attr m (u "signal_id")) (str_attr m (u "symbol")) (str_attr m (u "strategy_id")).
Definition context_view (c : Context) : Compliance.ExecutionContext :=
  Compliance.mkContext (signal_view <$> x_signal c)
    ((λ m, Compliance.mkSnapshot (str_attr m (u "symbol"))) <$> x_snapshot c).

Example control_example :
  reason_text (mkControl (u "C11") true false 11 (u "0.05") (u "0.07") (u "ref 100")) =
    u "REASON_PRICE_COLLAR; threshold='0.05'; observed='0.07'; ref 100"
  ∧ reason_text (mkControl (u "C2") false true 99 (u "") (u "x") (u "")) =
    u "99; threshold=''; observed='x'"
  ∧ _decimal_to_float (u "x") = FFin 0 0 ∧ _decimal_to_float (u "1E+999") = FFin 0 0
  ∧ float_eqb (_decimal_to_float (u "0.25")) (FFin 1 (-2)) = true
  ∧ length ReasonCode = 29%nat.
Proof. vm_compute. repeat split. Qed.

(** ** Valid messages *)

(** What protobuf guarantees: UTF-8 text, 64-bit integers, map keys that are distinct. *)
Definition control_ok (r : ControlResult) : Prop :=
  str_ok (control_id r) = true ∧ str_ok (threshold r) = true ∧ str_ok (observed r) = true ∧
  str_ok (detail r) = true.
Definition messages_ok (d : Decision) (c : Context) : Prop :=
  Forall pb_ok (option_list (g_order d)) ∧ Forall pb_ok (option_list (x_snapshot c)) ∧
  Forall pb_ok (option_list (x_signal c)) ∧ Forall pb_ok (option_list (x_hitl_override c)) ∧
  Forall control_ok (g_results d) ∧ str_ok (aegis_version d) = true ∧
  str_ok (limits_config_sha256 d) = true ∧ NoDup (x_model_versions c).*1 ∧
  Forall (λ kv, str_ok kv.1 = true ∧ str_ok kv.2 = true) (x_model_versions c).

Lemma str_ok_bind (f : N → pystr) (s : pystr) : (∀ c, char_ok c = true → str_ok (f c) = true) →
  str_ok s = true → str_ok (s ≫= f) = true.
Proof.
  intros Hf. induction s as [|c s IH]; [done|]. cbn. intros [Hc Hs]%andb_true_iff.
  rewrite str_ok_app, Hf by done. by apply IH.
Qed.

Lemma hex_char_ok n : (n < 16)%N → char_ok (if (n <? 10)%N then 48 + n else 87 + n)%N = true.
Proof.
  intros Hn. unfold char_ok, is_surrogate, in_range.
  destruct (n <? 10)%N; apply andb_true_iff; (split; [apply N.ltb_lt; lia|]);
    apply negb_true_iff, andb_false_iff; left; apply N.leb_gt; lia.
Qed.

Lemma str_ok_repr s : str_ok s = true → str_ok (repr_str s) = true.
Proof.
  intros H. unfold repr_str. set (q := if bool_decide (39%N ∈ s) && negb (bool_decide (34%N ∈ s)) then 34%N else 39%N).
  assert (char_ok q = true) as Hq by (unfold q; by case_match).
  cbn [str_ok forallb]. fold str_ok. rewrite Hq. cbn [andb].
  change (str_ok ((s ≫= repr_char q) ++ [q]) = true). rewrite str_ok_app. apply andb_true_iff. split.
  - apply str_ok_bind; [|done]. intros c Hc. unfold repr_char. cbn zeta.
    assert (∀ l, forallb char_ok l = true → str_ok l = true) as Hl by done. apply Hl.
    destruct ((c =? q) || (c =? 92))%N; [cbn [forallb]; by rewrite Hc|].
    destruct (c =? 10)%N; [done|]. destruct (c =? 13)%N; [done|]. destruct (c =? 9)%N; [done|].
    destruct ((c <? 32) || (c =? 127))%N eqn:Ec; [|cbn [forallb]; by rewrite Hc].
    assert (c < 128)%N as Hlt by (apply orb_true_iff in Ec as [?%N.ltb_lt| ->%N.eqb_eq]; lia).
    cbn [forallb]. rewrite !hex_char_ok; [done|apply N.mod_lt; lia|apply N.Div0.div_lt_upper_bound; lia].
  - unfold str_ok. cbn [forallb]. by rewrite Hq.
Qed.

Lemma str_ok_reason z : str_ok (reason_name z) = true.
Proof.
  unfold reason_name. destruct (z <? 0); [apply is_ascii_ok, str_of_Z_ascii|].
  destruct (ReasonCode !! Z.to_nat z) as [n|] eqn:E; [|apply is_ascii_ok, str_of_Z_ascii].
  assert (forallb str_ok ReasonCode = true) as Hall by reflexivity. rewrite forallb_forall in Hall.
  by eapply Hall, list_elem_of_In, list_elem_of_lookup_2.
Qed.

Lemma setdefault_ok m k v : NoDup m.*1 → Forall (λ kv, str_ok kv.1 = true ∧ str_ok kv.2 = true) m →
  str_ok k = true → str_ok v = true →
  NoDup (setdefault m k v).*1 ∧ Forall (λ kv, str_ok kv.1 = true ∧ str_ok kv.2 = true) (setdefault m k v).
Proof.
  intros Hn Hf Hk Hv. unfold setdefault. case_bool_decide; [done|]. case_bool_decide as Hin; [done|].
  rewrite fmap_app. split.
  - apply NoDup_app. split; [done|]. split; [|apply NoDup_singleton]. intros x Hx ->%list_elem_of_singleton. done.
  - apply Forall_app. split; [done|]. by constructor.
Qed.

Lemma default_pb_ok n (o : option pbval) : Forall pb_ok (option_list o) → pb_ok (default (VMsg n []) o).
Proof. destruct o; [|done]. by intros [? _]%Forall_cons. Qed.

Lemma ptc_check_ok r : control_ok r → pb_ok (ptc_check_of r).
Proof.
  intros (Hi & Ht & Ho & Hd). apply pb_ok_msg.
  assert (str_ok (reason_text r) = true) as Hr.
  { unfold reason_text. rewrite !str_ok_app, str_ok_reason, !str_ok_repr by done. cbn [andb].
    case_bool_decide; [done|]. by rewrite str_ok_app, Hd. }
  repeat (apply Forall_cons; split); cbn [pb_ok snd]; try done.
  destruct (is_hard r); by compute.
Qed.

Lemma inputs_of_ok d c prev : messages_ok d c → inputs_ok (inputs_of d c prev).
Proof.
  intros (Ho & Hsn & Hsg & Hh & Hr & Ha & Hl & Hn & Hv).
  destruct (setdefault_ok _ (u "aegis") (aegis_version d) Hn Hv eq_refl Ha) as [Hn1 Hv1].
  destruct (setdefault_ok _ (u "aegis-limits-sha256") _ Hn1 Hv1 eq_refl Hl) as [Hn2 Hv2].
  unfold inputs_ok, inputs_of. cbn [snapshot signal order ptc_checks hitl_override model_versions].
  split_and!; try done.
  - by apply default_pb_ok.
  - by apply default_pb_ok.
  - constructor; [|constructor]. by apply default_pb_ok.
  - apply Forall_fmap. eapply Forall_impl; [exact Hr|]. intros r. by apply ptc_check_ok.
Qed.

(** ** What a write leaves *)

Section put_outcome.
Context {A : Type} `{L : AuditLog A} (actor event_type : pystr).

(** A [put] that returned wrote a new file with the manifest's text and recorded it, whoever else
    writes to the directory and whatever fails. *)
Lemma put_ok m d a st d' a' : built m → put actor event_type m (d, a) = (Ok st, (d', a')) →
  d_files d !! s_path st = None ∧ d_files d' !! s_path st = Some (Some (document_json m ++ [10%N])) ∧
  d_files d ⊆ d_files d' ∧ s_digest st = JStr (digest m) ∧ s_manifest_id st = JStr (manifest_id m) ∧
  ∃ payload rc, record event_type actor payload a = (Ok rc, a').
Proof.
  intros Hb H. pose proof (put_grows _ _ _ _ _ _ _ _ Hb H) as Hg.
  apply put_inv in H as [(_ & _ & e & [=])|H]; [|done].
  destruct H as (d1 & d2 & d3 & head & found & doc & r3 & _ & _ & E1 & E2 & E3 & -> & Hres).
  destruct Hres as [(e & _ & [=] & _)|(-> & rr & [payload Hrec] & Hr)].
  destruct Hr as [([rc ->] & [= ->])|(e & _ & msg & [=])]. cbn [s_path s_digest s_manifest_id].
  apply reads_latest in E1 as [S1 _]. apply reads_list in E2 as [S2 _].
  apply write_exclusive_inv in E3 as (_ & Hw & _).
  destruct Hw as [(e & [=] & _)|(t & Hnone & Hsome & _ & [[_ ->]|[_ [=]]])].
  split_and!; try done; [|by eauto]. eapply lookup_weaken_None; [exact Hnone|]. by transitivity (d_files d1).
Qed.

(** On an empty directory. *)
Lemma latest_empty : latest_digest (mkDir ∅ []) = (Ok GENESIS_HASH, mkDir ∅ []).
Proof. reflexivity. Qed.

Lemma put_first m doc (a a' : A) :
  built m → loads (document_json m) = Some (JObj doc) → link GENESIS_HASH doc (digest m) →
  (∀ payload, ∃ rc, record event_type actor payload a = (Ok rc, a')) →
  ∃ st d', put actor event_type m (mkDir ∅ [], a) = (Ok st, (d', a')).
Proof. intros Hb Hl Hk Hrec. eexists _, _. eapply put_returns; eauto using latest_empty; reflexivity. Qed.

(** What is true of the directory, the log and the manifest after a write that returned. *)
Definition stored (c : Z) (stubs : Prelude.result unit) (id : pystr) (D : Decision) (C : Context)
    (s s' : Dir * A) (m : BuiltManifest) (name : pystr) : Prop :=
  (∃ head, build_manifest stubs c id RETENTION_YEARS (inputs_of D C head) = Ok m) ∧
  d_files s.1 !! name = None ∧ d_files s'.1 !! name = Some (Some (document_json m ++ [10%N])) ∧
  d_files s.1 ⊆ d_files s'.1 ∧
  ∃ payload rc, record event_type actor payload s.2 = (Ok rc, s'.2).

Lemma write_ok stubs c id D C s dig s' : messages_ok D C →
  write actor event_type stubs c id D C s = (Ok dig, s') →
  ∃ m name, stored c stubs id D C s s' m name ∧ dig = digest m.
Proof.
  destruct s as [d a], s' as [d' a']. intros Hok H. unfold write in H.
  apply M_bind_inv in H as [(head & s1 & E1 & H)|(e & _ & [=])].
  apply on_dir_inv in E1 as (d1 & E1 & ->). cbn [fst snd] in *.
  apply reads_latest in E1 as [S1 _].
  apply M_bind_inv in H as [(m & s2 & E2 & H)|(e & _ & [=])]. injection E2 as E2 <-.
  apply M_bind_inv in H as [(st & s3 & E3 & H)|(e & _ & [=])]. injection H as <- ->.
  assert (built m) as Hb by (exists stubs, c, id, RETENTION_YEARS, (inputs_of D C head); split; [by apply inputs_of_ok|done]).
  destruct (put_ok _ _ _ _ _ _ Hb E3) as (Hnone & Hsome & S2 & _ & _ & Hrec).
  exists m, (s_path st). split; [|done]. split; [by exists head|]. split_and!; try done; cbn [fst snd].
  - by eapply lookup_weaken_None.
  - by transitivity (d_files d1).
Qed.
(** The writer on an empty directory, when nothing refuses the manifest. *)
Lemma write_first stubs c id D C (a a' : A) : messages_ok D C →
  build_checks stubs c id RETENTION_YEARS (inputs_of D C GENESIS_HASH) = Ok tt →
  (∀ payload, ∃ rc, record event_type actor payload a = (Ok rc, a')) →
  ∃ dig, (write actor event_type stubs c id D C (mkDir ∅ [], a)).1 = Ok dig.
Proof.
  intros Hok Hb Hrec. pose proof (inputs_of_ok D C GENESIS_HASH Hok) as Hi.
  pose proof (build_checked stubs c id RETENTION_YEARS _ Hi) as H. rewrite Hb in H. destruct H as [m Hm].
  destruct (first_manifest _ _ _ _ _ _ Hi eq_refl Hm) as (doc & Hl & Hlink & _).
  assert (built m) as Hbuilt by (exists stubs, c, id, RETENTION_YEARS, (inputs_of D C GENESIS_HASH); done).
  destruct (put_first m doc a a' Hbuilt Hl Hlink Hrec) as (st & d' & Hput).
  exists (digest m). unfold write. rewrite (M_bind_ok (on_dir latest_digest) _ _ GENESIS_HASH (mkDir ∅ [], a)), Hm by done.
  rewrite (M_bind_ok _ _ _ m (mkDir ∅ [], a)) by done. by rewrite (M_bind_ok _ _ _ _ _ Hput).
Qed.
End put_outcome.

(** ** What was checked *)

Definition soft_failed (r : ControlResult) : bool := negb (is_hard r) && negb (c_passed r).
Definition approved_by_operator (h : pbval) : Prop :=
  decision_of h = u "approved" ∧ is_blank (str_attr h (u "operator_id")) = false.

(** The order was allowed: Aegis reported controls, none of the hard ones failed, a failed soft one
    was approved by an operator, nobody rejected the trade, and the snapshot is not stale. *)
Definition justified (D : Decision) (C : Context) : Prop :=
  g_results D ≠ [] ∧ Forall (λ r, is_hard r = true → c_passed r = true) (g_results D) ∧
  (existsb soft_failed (g_results D) = true →
     ∃ h, x_hitl_override C = Some h ∧ approved_by_operator h) ∧
  (∀ h, x_hitl_override C = Some h → decision_of h ≠ u "rejected") ∧
  (∀ m, x_snapshot C = Some m → bool_attr m (u "is_stale") = false).

Lemma failed_check t r : failed t (ptc_check_of r)
  = negb (c_passed r) && ((if is_hard r then HARD_BLOCK else SOFT_BLOCK) =? t).
Proof. reflexivity. Qed.

Lemma existsb_map {X Y} (f : X → Y) p l : existsb p (f <$> l) = existsb (λ x, p (f x)) l.
Proof. induction l as [|x l IH]; [done|]. cbn. by rewrite <- IH. Qed.

Lemma inputs_justified stubs c id years D C prev m : messages_ok D C →
  build_manifest stubs c id years (inputs_of D C prev) = Ok m → justified D C.
Proof.
  intros Hok H. eapply built_order_ok in H as (Hne & _ & Hh & Hs & Hst & Hr & _); [|by apply inputs_of_ok|done].
  cbn [ptc_checks inputs_of hitl_override snapshot] in *. unfold ptc_checks_from_decision in *.
  rewrite existsb_map in Hh, Hs. split_and!.
  - intros E. by rewrite E in Hne.
  - apply Forall_forall. intros r Hin Ehard.
    assert (failed HARD_BLOCK (ptc_check_of r) = false) as E.
    { apply not_true_iff_false. intros Ht. apply not_true_iff_false in Hh. apply Hh.
      apply existsb_exists. exists r. split; [by apply list_elem_of_In|done]. }
    rewrite failed_check, Ehard in E. by rewrite andb_true_r in E; apply negb_false_iff in E.
  - intros E. apply Hs. rewrite <- E. clear E. generalize (g_results D) as l.
    assert (∀ r, failed SOFT_BLOCK (ptc_check_of r) = soft_failed r) as Hf
      by (intros r; rewrite failed_check; unfold soft_failed; destruct (is_hard r), (c_passed r); done).
    intros l. induction l as [|r l IH]; [done|]. cbn. by rewrite Hf, IH.
  - done.
  - intros s Es. by rewrite Es in Hst.
Qed.

(** ** An order and its manifest *)

Section released.
Context {A : Type} `{L : AuditLog A} (actor event_type : pystr).

(** The motor's writer: at the n-th external call it finds the directory and the log as [world n]
    says, at the clock [clk n], with [ids n] for an identifier. *)
Definition manifest_writer (stubs : Prelude.result unit) (clk : nat → Z) (ids : nat → pystr)
    (world : nat → Dir * A) (D : Decision) (C : Context) : Compliance.ManifestWriter :=
  λ n _ _, (write actor event_type stubs (clk n) (ids n) D C (world n)).1.

(** C14: An order that is sent has its manifest. Let [ExecuteWithContext] run with the manifest gate
    on, on any store and audit log, whoever else uses them and whatever fails. When an order is
    sent, the order is the decision's; and just before, at one of the external calls, a manifest of
    the decision and the context was built, written complete to a file that was not there, without
    changing any other, and recorded in the audit log. That order was allowed: there were control
    results, no hard control failed, a soft one only with an operator's approval, nobody rejected
    the trade and the snapshot is not stale. *)
Theorem released_order_has_manifest {St} `{Limits.IdempotencyLaws St} env reporter gates
    stubs clk ids world D C (q : Service.ExecuteRequest) (s : Service.ServiceState St) r s' :
  Compliance.manifest gates = Some (manifest_writer stubs clk ids world D C) → messages_ok D C →
  Service.r_decision q = decision_view D → Service.r_context q = Some (context_view C) →
  Service.ExecuteWithContext env reporter gates q s = (r, s') →
  Motor.submits (Service.svc_motor s') = Motor.submits (Service.svc_motor s) ∨
  ∃ x a n m name, Service.sent_one s s' x ∧ Service.approved env (decision_view D) a ∧
    Motor.sent_request x = Motor.broker_request (MotorModels.order a) ∧
    justified D C ∧
    stored actor event_type (clk n) stubs (ids n) D C (world n)
      (write actor event_type stubs (clk n) (ids n) D C (world n)).2 m name.
Proof.
  intros Hg Hok Hq Hc Hex. unfold Service.ExecuteWithContext in Hex.
  apply M_bind_inv in Hex as [(now & s0 & E & Hex)|(e & E & ->)]; apply Service.on_motor_inv in E as [E _]; [|done].
  injection E as _ Em.
  assert (Motor.submits (Service.svc_motor s0) = Motor.submits (Service.svc_motor s)) as Hsub by by rewrite <- Em.
  assert (∃ r1, Service.handle_request env reporter gates q now None s0 = (r1, s')) as [r1 Hr1].
  { apply M_bind_inv in Hex as [(rep & s1 & E1 & Hex)|(e & E1 & ->)]; [|by eauto]. injection Hex as _ <-. eauto. }
  apply Service.handle_request_inv, Service.handled_sends in Hr1 as
    [(Hr1 & _)|(x & a & chk & Hs & Ha & Hcomp & Hrel & Hx & _)]; [left; congruence|right].
  destruct Hcomp as (c & signal & snap & n0 & Hc' & _ & _ & _ & _ & ->).
  unfold Service.sent_one in *. rewrite <- Hsub.
  unfold Compliance.release_check in Hrel. rewrite Hg in Hrel. destruct Hrel as [n Hn].
  unfold manifest_writer in Hn. destruct (write _ _ _ (clk n) _ D C (world n)) as [[dig|e] w'] eqn:Ew; [|done].
  destruct (write_ok _ _ _ _ _ _ _ _ _ _ Hok Ew) as (m & name & Hst & _). rewrite Hq in Ha.
  exists x, a, n, m, name. split_and!; try done; [|by rewrite Ew].
  destruct Hst as [[head Hb] _]. by eapply inputs_justified.
Qed.
End released.

(** ** The writer at work *)

Definition sim_order : pbval :=
  VMsg ORDER_REQUEST
    [ (u "order_id", VStr (u "sig-1")); (u "signal_id", VStr (u "sig-1")); (u "symbol", VStr (u "AAPL"));
      (u "created_at_ns", VInt 1); (u "side", VInt 2); (u "order_type", VInt 2); (u "algo", VInt 1);
      (u "quantity_nanos", VInt 1500000000); (u "limit_price_nanos", VInt 100250000000);
      (u "hsm_signature", VBytes [7]%N); (u "hsm_key_id", VStr (u "hsm-1"));
      (u "attestation_expires_at_ns", VInt 5000) ].
Definition sim_controls : list ControlResult :=
  [ mkControl (u "C01") true true 0 (u "") (u "") (u "");
    mkControl (u "C19") false false 22 (u "100") (u "150.5") (u "adv 30d") ].
Definition sim_full_decision : Decision :=
  mkDecision 1 (u "sig-1") (Some sim_order) sim_controls
    (Some (ProtoAdapter.sim_attestation (u "sig-1"))) (u "aegis 2.0").
Definition sim_context : Context :=
  mkContext (Some (snapshot example_inputs))
    (Some (VMsg TRADE_SIGNAL [(u "signal_id", VStr (u "sig-1")); (u "symbol", VStr (u "AAPL"));
                              (u "side", VInt 2); (u "strategy_id", VStr (u "strat-1"))]))
    (hitl_override example_inputs) [(u "judge", u "v1")] (cognitive example_inputs).

#[local] Existing Instances Limits.mem_store Limits.mem_laws.

#[local] Existing Instance accepting_log.
Definition sim_world : Dir * unit := (mkDir ∅ [], tt).
Definition sim_clock : Z := 1709208000000000123.
Definition sim_writer : Compliance.ManifestWriter :=
  manifest_writer (u "execution-motor") (u "manifest.stored") (Ok tt) (λ _, sim_clock)
    (λ _, u "m-1") (λ _, sim_world) sim_full_decision sim_context.
Definition gates_with (w : Compliance.ManifestWriter) : Compliance.ComplianceGates :=
  Compliance.mkGates (Some w) (Compliance.strategy_gate Service.sim_gates).
Definition sim_manifest_request : Service.ExecuteRequest :=
  Service.mkExecuteRequest (decision_view sim_full_decision) (Some (context_view sim_context)).
Definition sim_run (w : Compliance.ManifestWriter) :=
  Service.ExecuteWithContext Service.sim_service_env Service.sim_reporter (gates_with w)
    sim_manifest_request Service.sim_service.

Example sim_views :
  decision_view sim_full_decision = Service.sim_decision
  ∧ context_view sim_context = Compliance.mkContext
      (Some (Compliance.mkTradeSignal (u "sig-1") (u "AAPL") (u "strat-1"))) (Some (Compliance.mkSnapshot (u "AAPL"))).
Proof. vm_compute. split; reflexivity. Qed.

Lemma sim_messages_ok : messages_ok sim_full_decision sim_context.
Proof.
  assert (∀ z, (INT64_MIN <=? z) = true → (z <=? INT64_MAX) = true → INT64_MIN ≤ z ≤ INT64_MAX) as Hz
    by (intros z ?%Z.leb_le ?%Z.leb_le; done).
  unfold messages_ok. cbn [g_order sim_full_decision option_list x_snapshot x_signal x_hitl_override sim_context].
  split_and!.
  - constructor; [|done]. apply pb_ok_msg. repeat (apply Forall_cons; split); try apply Forall_nil; try done; by apply Hz.
  - repeat constructor.
  - constructor; [|done]. apply pb_ok_msg. repeat (apply Forall_cons; split); try apply Forall_nil; try done; by apply Hz.
  - repeat constructor.
  - repeat constructor.
  - done.
  - done.
  - apply (bool_decide_unpack (NoDup [_])). done.
  - repeat constructor.
Qed.

(** When the writer accepts, the order goes out. *)
Lemma sim_run_sends dig :
  length (Motor.submits (Service.svc_motor (sim_run (λ _ _ _, Ok dig)).2)) = 1%nat.
Proof. vm_compute. reflexivity. Qed.

Lemma sim_writes : ∃ dig, sim_writer = λ _ _ _, Ok dig.
Proof.
  destruct (write_first (u "execution-motor") (u "manifest.stored") (Ok tt) sim_clock (u "m-1")
              sim_full_decision sim_context tt tt sim_messages_ok) as [dig H].
  - vm_compute. reflexivity.
  - intros payload. by eexists.
  - exists dig. unfold sim_writer, manifest_writer, sim_world. by rewrite H.
Qed.

Lemma released_order_has_manifest_witness :
  ∃ r s' m name, sim_run sim_writer = (r, s') ∧
    length (Motor.submits (Service.svc_motor s')) = 1%nat ∧ justified sim_full_decision sim_context ∧
    stored (u "execution-motor") (u "manifest.stored") sim_clock (Ok tt) (u "m-1") sim_full_decision sim_context
      sim_world (write (u "execution-motor") (u "manifest.stored") (Ok tt) sim_clock (u "m-1") sim_full_decision
                   sim_context sim_world).2 m name.
Proof.
  assert (length (Motor.submits (Service.svc_motor (sim_run sim_writer).2)) = 1%nat) as Hlen
    by (destruct sim_writes as [dig ->]; apply sim_run_sends).
  destruct (sim_run sim_writer) as [r s'] eqn:E. unfold sim_run in E.
  destruct (released_order_has_manifest (u "execution-motor") (u "manifest.stored") _ _ (gates_with sim_writer)
              (Ok tt) (λ _, sim_clock) (λ _, u "m-1") (λ _, sim_world) sim_full_decision sim_context
              sim_manifest_request _ _ _ eq_refl sim_messages_ok eq_refl eq_refl E) as [Hs|(x & a & n & m & name & _ & _ & _ & Hj & Hst)].
  - cbn [snd] in Hlen. rewrite Hs in Hlen. discriminate Hlen.
  - exists r, s', m, name. split; [reflexivity|]. split; [exact Hlen|]. split; [exact Hj|exact Hst].
Defined.
