(* ===== verification/CogModels.v ===== *)
(** * Cognitive core: state models ([models.py])

    The values of a debate and the trade signal it ends in, with the checks pydantic makes of the
    declared fields. Models that a language model fills in are decoded from JSON, strictly; the text
    of a number is read as the float it denotes. *)
From S2P Require Import Prelude PyStr PyFloat Json.

Definition MAX_SUMMARY_TOKENS : Z := 200.
Definition CHARS_PER_TOKEN : Z := 4.
Definition PROB_SUM_TOLERANCE : pyfloat := fl "1e-6".

Inductive SignalSide := SIDE_UNKNOWN | BUY | SELL | SELL_SHORT.
Inductive SignalStatus :=
  | SIGNAL_PENDING | SIGNAL_APPROVED | SIGNAL_REJECTED_HARD_BLOCK | SIGNAL_SOFT_BLOCK_PENDING
  | SIGNAL_ABSTAIN | SIGNAL_EXPIRED.
Inductive RegimeLabel :=
  | REGIME_UNKNOWN | TRENDING_BULL | TRENDING_BEAR | HIGH_VOL_CHOP | LOW_VOL_CHOP | CRISIS.

#[export] Instance SignalSide_eq_dec : EqDecision SignalSide. Proof. solve_decision. Defined.
#[export] Instance SignalStatus_eq_dec : EqDecision SignalStatus. Proof. solve_decision. Defined.
#[export] Instance RegimeLabel_eq_dec : EqDecision RegimeLabel. Proof. solve_decision. Defined.

(** [.value] of the members. *)
Definition side_value (s : SignalSide) : pystr :=
  match s with
  | SIDE_UNKNOWN => u "SIDE_UNKNOWN" | BUY => u "BUY" | SELL => u "SELL" | SELL_SHORT => u "SELL_SHORT" end.
Definition status_value (s : SignalStatus) : pystr :=
  match s with
  | SIGNAL_PENDING => u "SIGNAL_PENDING" | SIGNAL_APPROVED => u "SIGNAL_APPROVED"
  | SIGNAL_REJECTED_HARD_BLOCK => u "SIGNAL_REJECTED_HARD_BLOCK"
  | SIGNAL_SOFT_BLOCK_PENDING => u "SIGNAL_SOFT_BLOCK_PENDING"
  | SIGNAL_ABSTAIN => u "SIGNAL_ABSTAIN" | SIGNAL_EXPIRED => u "SIGNAL_EXPIRED" end.
Definition regime_value (r : RegimeLabel) : pystr :=
  match r with
  | REGIME_UNKNOWN => u "REGIME_UNKNOWN" | TRENDING_BULL => u "TRENDING_BULL"
  | TRENDING_BEAR => u "TRENDING_BEAR" | HIGH_VOL_CHOP => u "HIGH_VOL_CHOP"
  | LOW_VOL_CHOP => u "LOW_VOL_CHOP" | CRISIS => u "CRISIS" end.

(** The member with a value: [Enum(value)]. *)
Definition SIDES : list SignalSide := [SIDE_UNKNOWN; BUY; SELL; SELL_SHORT].
Definition STATUSES : list SignalStatus :=
  [ SIGNAL_PENDING; SIGNAL_APPROVED; SIGNAL_REJECTED_HARD_BLOCK; SIGNAL_SOFT_BLOCK_PENDING;
    SIGNAL_ABSTAIN; SIGNAL_EXPIRED ].
Definition REGIMES : list RegimeLabel :=
  [REGIME_UNKNOWN; TRENDING_BULL; TRENDING_BEAR; HIGH_VOL_CHOP; LOW_VOL_CHOP; CRISIS].
Definition member {A} (value : A → pystr) (members : list A) (v : json) : option A :=
  match v with JStr s => List.find (λ m, str_eqb (value m) s) members | _ => None end.
Definition side_of : json → option SignalSide := member side_value SIDES.
Definition regime_of : json → option RegimeLabel := member regime_value REGIMES.

Definition ACTIONABLE_STATUSES : list SignalStatus :=
  [SIGNAL_PENDING; SIGNAL_APPROVED; SIGNAL_SOFT_BLOCK_PENDING].

(** [text[:max_tokens * CHARS_PER_TOKEN]]. *)
Definition truncate_summary (text : pystr) (max_tokens : Z) : pystr :=
  slice_to (Z.to_nat (max_tokens * CHARS_PER_TOKEN)) text.

(** ** Fields *)

Definition f0 : pyfloat := FFin 0 0.
Definition f1 : pyfloat := FFin 1 0.

(** [Annotated[float, Field(...)]]: finite and within the bounds. *)
Definition FiniteFloat (x : pyfloat) : bool := is_finite_float x.
Definition NonNegFloat (x : pyfloat) : bool := is_finite_float x && float_leb f0 x.
Definition UnitFloat (x : pyfloat) : bool := is_finite_float x && float_leb f0 x && float_leb x f1.

Definition max_length (n : nat) (s : pystr) : bool := (length s <=? n)%nat.
Definition min_length (n : nat) (s : pystr) : bool := (n <=? length s)%nat.

(** Strict decoding of a JSON value: a number for a float, nothing coerced. *)
Definition strict_float (v : json) : option pyfloat :=
  match v with JInt z => Some (round_int z) | JFloat t => Some (float_of_text t) | _ => None end.
Definition strict_bool (v : json) : option bool := match v with JBool b => Some b | _ => None end.
Definition strict_str (v : json) : option pystr := match v with JStr s => Some s | _ => None end.
Definition checked {A} (p : A → bool) (x : option A) : option A :=
  match x with Some a => if p a then Some a else None | None => None end.
Definition float_field (p : pyfloat → bool) (v : json) : option pyfloat := checked p (strict_float v).
Definition ShortText (v : json) : option pystr := checked (max_length 4000) (strict_str v).
Definition FactorList (v : json) : option (list pystr) :=
  match v with
  | JArr l => if (length l <=? 25)%nat then mapM (λ x, checked (max_length 500) (strict_str x)) l else None
  | _ => None
  end.

(** A field of an object: required, or with a default. *)
Definition required {A} (m : list (pystr * json)) (k : pystr) (f : json → option A) : option A :=
  match obj_get m k with Some v => f v | None => None end.
Definition optional {A} (m : list (pystr * json)) (k : pystr) (f : json → option A) (default_ : A) : option A :=
  match obj_get m k with Some v => f v | None => Some default_ end.
(** [extra="forbid"]. *)
Definition only_keys (m : list (pystr * json)) (keys : list pystr) : bool :=
  forallb (λ kv, bool_decide (kv.1 ∈ keys)) m.

(** ** The models *)

Record MarketContext := mkMarketContext {
  symbol : pystr; mid_price : pyfloat; z_score : pyfloat; mad_score : pyfloat; ofi : pyfloat;
  realized_vol : pyfloat; adv_30d : pyfloat }.

Record BlueThesis := mkBlue {
  b_side : SignalSide; rationale : pystr; key_factors : list pystr; b_forced : bool }.
Record RedChallenge := mkRed {
  counter_factors : list pystr; failure_patterns : list pystr; r_forced : bool }.
Record JudgeVerdict := mkVerdict {
  v_side : SignalSide; omega : pyfloat; p_success : pyfloat; p_failure : pyfloat;
  reward_estimate : pyfloat; risk_estimate : pyfloat; defaulted_abstain : bool }.

(** [abs(p + q - 1.0) > PROB_SUM_TOLERANCE] is an error. *)
Definition probabilities_ok (p q : pyfloat) : bool :=
  negb (float_ltb PROB_SUM_TOLERANCE (float_abs (float_sub (float_add p q) f1))).

(** A symbol with a lone surrogate is refused too. *)
Definition market_context_ok (c : MarketContext) : bool :=
  min_length 1 (symbol c) && max_length 32 (symbol c) && str_ok (symbol c)
  && is_finite_float (mid_price c) && float_ltb f0 (mid_price c)
  && FiniteFloat (z_score c) && FiniteFloat (mad_score c)
  && is_finite_float (ofi c) && float_leb (float_neg f1) (ofi c) && float_leb (ofi c) f1
  && NonNegFloat (realized_vol c) && NonNegFloat (adv_30d c).

(** [MarketContext(...)]; a symbol that is no string fails too. *)
Definition make_market_context (sym : option json) (mid z mad o vol adv : pyfloat) : option MarketContext :=
  match sym with
  | Some (JStr s) => checked market_context_ok (Some (mkMarketContext s mid z mad o vol adv))
  | _ => None
  end.

Definition validate_blue (v : json) : option BlueThesis :=
  match v with
  | JObj m =>
      if only_keys m [u "side"; u "rationale"; u "key_factors"; u "forced_completion"] then
        side ← required m (u "side") side_of;
        rationale ← required m (u "rationale") ShortText;
        key_factors ← optional m (u "key_factors") FactorList [];
        forced ← optional m (u "forced_completion") strict_bool false;
        Some (mkBlue side rationale key_factors forced)
      else None
  | _ => None
  end.

Definition validate_red (v : json) : option RedChallenge :=
  match v with
  | JObj m =>
      if only_keys m [u "counter_factors"; u "failure_patterns"; u "forced_completion"] then
        counter_factors ← optional m (u "counter_factors") FactorList [];
        failure_patterns ← optional m (u "failure_patterns") FactorList [];
        forced ← optional m (u "forced_completion") strict_bool false;
        Some (mkRed counter_factors failure_patterns forced)
      else None
  | _ => None
  end.

Definition verdict_ok (v : JudgeVerdict) : bool :=
  UnitFloat (omega v) && UnitFloat (p_success v) && UnitFloat (p_failure v)
  && NonNegFloat (reward_estimate v) && NonNegFloat (risk_estimate v)
  && probabilities_ok (p_success v) (p_failure v).

Definition validate_verdict (v : json) : option JudgeVerdict :=
  match v with
  | JObj m =>
      if only_keys m [ u "side"; u "omega"; u "p_success"; u "p_failure"; u "reward_estimate";
                       u "risk_estimate"; u "defaulted_abstain" ] then
        side ← required m (u "side") side_of;
        omega ← required m (u "omega") strict_float;
        p_success ← required m (u "p_success") strict_float;
        p_failure ← required m (u "p_failure") strict_float;
        reward ← required m (u "reward_estimate") strict_float;
        risk ← required m (u "risk_estimate") strict_float;
        defaulted ← optional m (u "defaulted_abstain") strict_bool false;
        checked verdict_ok (Some (mkVerdict side omega p_success p_failure reward risk defaulted))
      else None
  | _ => None
  end.

Definition expected_value (v : JudgeVerdict) : pyfloat :=
  float_sub (float_mul (p_success v) (reward_estimate v)) (float_mul (p_failure v) (risk_estimate v)).

Definition default_abstain : JudgeVerdict := mkVerdict SIDE_UNKNOWN f0 f0 f1 f0 f0 true.

(** ** TradeSignal *)

Record TradeSignal := mkTradeSignal {
  signal_id : pystr; sig_symbol : pystr; created_at_ns : Z; side : SignalSide; quantity : pyfloat;
  sig_omega : pyfloat; sig_expected_value : pyfloat; sig_p_success : pyfloat; sig_p_failure : pyfloat;
  sig_reward_estimate : pyfloat; sig_risk_estimate : pyfloat;
  estimated_spread_cost : pyfloat; estimated_market_impact : pyfloat; estimated_venue_fees : pyfloat;
  estimated_total_cost : pyfloat;
  regime : RegimeLabel; regime_confidence : pyfloat; debate_summary : pystr; price_limit : pyfloat;
  valid_until_ns : Z; status : SignalStatus }.

Definition ValidationError : exn_class := OtherError (u "ValidationError").

Definition signal_fields_ok (s : TradeSignal) : bool :=
  min_length 1 (signal_id s) && min_length 1 (sig_symbol s) && max_length 32 (sig_symbol s)
  && (0 <=? created_at_ns s) && NonNegFloat (quantity s) && UnitFloat (sig_omega s)
  && FiniteFloat (sig_expected_value s) && UnitFloat (sig_p_success s) && UnitFloat (sig_p_failure s)
  && NonNegFloat (sig_reward_estimate s) && NonNegFloat (sig_risk_estimate s)
  && NonNegFloat (estimated_spread_cost s) && NonNegFloat (estimated_market_impact s)
  && NonNegFloat (estimated_venue_fees s) && NonNegFloat (estimated_total_cost s)
  && UnitFloat (regime_confidence s) && NonNegFloat (price_limit s) && (0 <=? valid_until_ns s).

Definition _signal_invariants (s : TradeSignal) : bool :=
  probabilities_ok (sig_p_success s) (sig_p_failure s)
  && (if bool_decide (status s ∈ ACTIONABLE_STATUSES) then
        negb (bool_decide (side s = SIDE_UNKNOWN))
        && (float_ltb f0 (quantity s) && is_finite_float (quantity s))
        && (created_at_ns s <? valid_until_ns s)
      else true)
  && (if bool_decide (status s = SIGNAL_ABSTAIN) then
        bool_decide (side s = SIDE_UNKNOWN) && float_eqb (quantity s) f0
      else true).

(** [TradeSignal(...)]: the summary is cut, then every field and the invariants are checked. *)
Definition make_signal (s : TradeSignal) : result TradeSignal :=
  let s := mkTradeSignal (signal_id s) (sig_symbol s) (created_at_ns s) (side s) (quantity s) (sig_omega s)
    (sig_expected_value s) (sig_p_success s) (sig_p_failure s) (sig_reward_estimate s) (sig_risk_estimate s)
    (estimated_spread_cost s) (estimated_market_impact s) (estimated_venue_fees s) (estimated_total_cost s)
    (regime s) (regime_confidence s) (truncate_summary (debate_summary s) MAX_SUMMARY_TOKENS) (price_limit s)
    (valid_until_ns s) (status s) in
  if signal_fields_ok s && _signal_invariants s then Ok s
  else raise ValidationError (u "TradeSignal").

(** ** DebateState *)

Inductive PrecedentStatus := none_configured | precedents_ok | unavailable.
#[export] Instance PrecedentStatus_eq_dec : EqDecision PrecedentStatus. Proof. solve_decision. Defined.
Definition MAX_PRECEDENTS : nat := 5.
Definition MAX_PRECEDENT_CHARS : nat := 400.

Record DebateState := mkDebate {
  market_context : MarketContext; d_regime : RegimeLabel; d_regime_confidence : pyfloat;
  precedents : list pystr; precedents_status : PrecedentStatus;
  debate_started_at : option pyfloat;
  blue_thesis : option BlueThesis; red_challenge : option RedChallenge;
  judge_verdict : option JudgeVerdict; d_summary : option pystr }.

(** ** The Reflector's proposal *)

Record TradeOutcome := mkOutcome {
  realised_pnl : pyfloat; regime_at_close : RegimeLabel; description : pystr }.
Record ReflectorDraft := mkDraft { proposed_change : pystr; draft_rationale : pystr }.

Definition draft_text (v : json) : option pystr :=
  checked (λ s, min_length 1 s && max_length 4000 s) (strict_str v).
Definition validate_draft (v : json) : option ReflectorDraft :=
  match v with
  | JObj m =>
      if only_keys m [u "proposed_change"; u "rationale"] then
        proposed_change ← required m (u "proposed_change") draft_text;
        rationale ← required m (u "rationale") draft_text;
        Some (mkDraft proposed_change rationale)
      else None
  | _ => None
  end.

Inductive ProposalStage := COMPLIANCE | LEGAL | BACKTEST | RISK | CANARY.
Definition REQUIRED_STAGES : list ProposalStage := [COMPLIANCE; LEGAL; BACKTEST; RISK; CANARY].

(** The literals [status="DRAFT"] and [requires_human_signoff=True] leave no other value. *)
Record RubricChangeProposal := mkProposal {
  proposal_id : pystr; trigger_signal_id : pystr; p_created_at_ns : Z;
  observed_underperformance : pystr; p_proposed_change : pystr; p_rationale : pystr;
  p_realised_pnl : pyfloat; p_regime_at_close : RegimeLabel; debate_history : pystr;
  p_status : pystr; requires_human_signoff : bool; required_stages : list ProposalStage }.
Definition proposal_ok (p : RubricChangeProposal) : bool :=
  min_length 1 (proposal_id p) && min_length 1 (trigger_signal_id p) && (0 <=? p_created_at_ns p)
  && min_length 1 (p_proposed_change p) && max_length 4000 (p_proposed_change p)
  && min_length 1 (p_rationale p) && max_length 4000 (p_rationale p) && FiniteFloat (p_realised_pnl p).

(** ** Examples *)

Example verdict_examples :
  is_Some (validate_verdict (JObj
     [ (u "side", JStr (u "BUY")); (u "omega", JFloat (u "0.7")); (u "p_success", JFloat (u "0.6"));
       (u "p_failure", JFloat (u "0.4")); (u "reward_estimate", JInt 120); (u "risk_estimate", JFloat (u "40.0")) ]))
  ∧ validate_verdict (JObj
     [ (u "side", JStr (u "BUY")); (u "omega", JFloat (u "0.7")); (u "p_success", JFloat (u "0.6"));
       (u "p_failure", JFloat (u "0.5")); (u "reward_estimate", JInt 120); (u "risk_estimate", JFloat (u "40.0")) ]) = None
  ∧ validate_verdict (JObj [(u "side", JStr (u "HOLD"))]) = None
  ∧ validate_blue (JObj [(u "side", JStr (u "SELL")); (u "rationale", JStr (u "r"))])
    = Some (mkBlue SELL (u "r") [] false)
  ∧ validate_blue (JObj [(u "side", JStr (u "SELL")); (u "rationale", JStr (u "r")); (u "x", JNull)]) = None
  ∧ verdict_ok default_abstain = true.
Proof. vm_compute. split; [by eexists|]. repeat split. Qed.
