(* ===== verification/CogSizing.v ===== *)
(** * Cognitive core: position sizing ([sizing.py])

    The volatility-scaled number of shares, in decimals, rounded down. The caps it states hold up
    to the rounding of 28-digit arithmetic. *)
From S2P Require Import Prelude PyStr PyDecimal DecimalFacts PyFloat PyFloatFacts.

Definition MAX_RISK_PER_TRADE : decimal := DFin 5 (-2).

(** [repr(value)] of a finite float. *)
Definition repr_float (x : pyfloat) : pystr :=
  match x with FFin m e => fin_text m e | FInf true => u "-inf" | FInf false => u "inf" | FNaN => u "nan" end.

Definition _decimal (value : pyfloat) : option decimal :=
  if is_finite_float value then dec_of_str (repr_float value) else None.

Record VolScaledSizer := mkSizer {
  equity_usd : decimal; risk_per_trade : decimal; max_order_notional_usd : decimal }.

(** [x.is_finite() and x > 0]. *)
Definition dec_positive (x : decimal) : bool :=
  match x with DFin c _ => 0 <? c | _ => false end.

(** [VolScaledSizer(...)] with its [__post_init__]. *)
Definition make_sizer (s : VolScaledSizer) : result VolScaledSizer :=
  if negb (dec_positive (equity_usd s)) then raise ValueError (u "equity_usd must be a positive finite amount")
  else if negb (dec_positive (risk_per_trade s)
                && match dle (risk_per_trade s) MAX_RISK_PER_TRADE with Ok b => b | Raise _ => false end)
  then raise ValueError (u "risk_per_trade must be in (0, 0.05]")
  else if negb (dec_positive (max_order_notional_usd s)) then
    raise ValueError (u "max_order_notional_usd must be a positive finite amount")
  else Ok s.

(** [int(d.to_integral_value(rounding=ROUND_FLOOR))]. *)
Definition floor_int (d : decimal) : result Z :=
  match d with
  | DFin c e => Ok (if 0 <=? e then c * 10 ^ e else c / 10 ^ (- e))
  | DInf _ => raise Overflow (u "cannot convert Infinity to integer")
  | DNaN => raise ValueError (u "cannot convert NaN to integer")
  end.

Definition shares (s : VolScaledSizer) (price realized_vol omega : pyfloat) : result Z :=
  match _decimal price, _decimal realized_vol, _decimal omega with
  | Some p, Some vol, Some conf =>
      if negb (dec_positive p) || negb (dec_positive vol) || negb (dec_positive conf)
         || negb (match dle conf D_ONE with Ok b => b | Raise _ => false end) then Ok 0
      else
        b ← dmul (equity_usd s) (risk_per_trade s);
        budget ← dmul b conf;
        pv ← dmul p vol;
        q ← ddiv budget pv;
        by_risk ← floor_int q;
        c ← ddiv (max_order_notional_usd s) p;
        by_cap ← floor_int c;
        Ok (Z.max 0 (Z.min by_risk by_cap))
  | _, _, _ => Ok 0
  end.

Definition OverflowError : exn_class := OtherError (u "OverflowError").

(** [float(n)]. *)
Definition float_int (n : Z) : result pyfloat :=
  if is_finite_float (round_int n) then Ok (round_int n)
  else raise OverflowError (u "int too large to convert to float").

Definition size (s : VolScaledSizer) (price realized_vol omega : pyfloat) : result pyfloat :=
  n ← shares s price realized_vol omega; float_int n.

(** ** Examples *)

Definition sizer_example : VolScaledSizer := mkSizer (D 100000) (DFin 1 (-2)) (D 20000).
Example size_examples :
  make_sizer sizer_example = Ok sizer_example
  ∧ shares sizer_example (fl "100.0") (fl "0.2") (fl "0.7") = Ok 35
  ∧ shares sizer_example (fl "100.0") (fl "0.01") (fl "0.7") = Ok 200
  ∧ shares sizer_example (fl "100.0") (fl "0.0") (fl "0.7") = Ok 0
  ∧ shares sizer_example (fl "0.3") (fl "0.2") (fl "1.5") = Ok 0
  ∧ make_sizer (mkSizer (D 1) (DFin 51 (-3)) (D 1)) = raise ValueError (u "risk_per_trade must be in (0, 0.05]").
Proof. vm_compute. repeat split. Qed.
Example size_overflows :
  size sizer_example (fl "5e-324") (fl "5e-324") (fl "1.0")
  = raise OverflowError (u "int too large to convert to float").
Proof. vm_compute. reflexivity. Qed.
