(* ===== verification/CogConfig.v ===== *)
(** * Cognitive core: configuration and halt gate ([config.py], [runner_config.py], [halt.py])

    The settings of the debate and of the runner, read from the environment, every invalid value
    refused; the gate that keeps the runner still while halted. *)
From S2P Require Import Prelude PyStr PyDecimal PyFloat Json CogSizing.
From S2P Require ServerConfig.

#[local] Abbreviation environ := (gmap pystr pystr).

(** ** [float(text)] *)

(** Underscores stand between digits only. *)
Fixpoint underscores_ok (prev_digit : bool) (s : pystr) : bool :=
  match s with
  | [] => true
  | 95%N :: s => prev_digit && match s with c :: _ => is_digit c | [] => false end && underscores_ok false s
  | c :: s => underscores_ok (is_digit c) s
  end.

(** [None] is the ValueError. *)
Definition float_parse (raw : pystr) : option pyfloat :=
  let s := strip raw in
  if negb (underscores_ok false s) then None
  else
    let t := filter (λ c, c ≠ 95%N) s in
    let '(neg, l) := take_sign (lower t) in
    if bool_decide (l = u "inf") || bool_decide (l = u "infinity") then Some (FInf neg)
    else if bool_decide (l = u "nan") then Some FNaN
    else match dec_of_str t with Some (DFin _ _) => Some (float_of_text t) | _ => None end.

(** ** Debate settings ([config.py]) *)

Definition BLUE_RED_COMBINED_CEILING_S : pyfloat := fl "1.5".
Definition OVERALL_DEADLINE_CEILING_S : pyfloat := fl "2.2".
Definition MAX_SUMMARY_TOKENS_CEILING : Z := 200.
Definition OMEGA_THRESHOLD_FLOOR : pyfloat := fl "0.5".
Definition _FLOAT_EPS : pyfloat := fl "1e-9".

Record CognitiveSettings := mkSettings {
  blue_model : pystr; red_model : pystr; judge_model : pystr; compression_model : pystr;
  reflector_model : pystr; bedrock_region : option pystr; bedrock_endpoint_url : option pystr;
  blue_latency_budget_s : pyfloat; red_latency_budget_s : pyfloat; judge_latency_budget_s : pyfloat;
  compression_latency_budget_s : pyfloat; overall_deadline_s : pyfloat; reflector_timeout_s : pyfloat;
  blue_red_max_tokens : Z; judge_max_tokens : Z; compression_max_tokens : Z; reflector_max_tokens : Z;
  omega_threshold : pyfloat; signal_ttl_ms : Z }.

(** The constraints of the fields. *)
Definition ModelId (s : pystr) : bool := (1 <=? length s)%nat && (length s <=? 256)%nat && str_ok s.
Definition within_open (x hi : pyfloat) : bool :=
  is_finite_float x && float_ltb (FFin 0 0) x && float_leb x hi.
Definition PositiveSeconds (x : pyfloat) : bool := within_open x (fl "30.0").
Definition int_within (n hi : Z) : bool := (0 <? n) && (n <=? hi).

Definition settings_fields_ok (s : CognitiveSettings) : bool :=
  ModelId (blue_model s) && ModelId (red_model s) && ModelId (judge_model s)
  && ModelId (compression_model s) && ModelId (reflector_model s)
  && PositiveSeconds (blue_latency_budget_s s) && PositiveSeconds (red_latency_budget_s s)
  && PositiveSeconds (judge_latency_budget_s s) && PositiveSeconds (compression_latency_budget_s s)
  && within_open (overall_deadline_s s) OVERALL_DEADLINE_CEILING_S
  && PositiveSeconds (reflector_timeout_s s)
  && int_within (blue_red_max_tokens s) 8192 && int_within (judge_max_tokens s) 8192
  && int_within (compression_max_tokens s) MAX_SUMMARY_TOKENS_CEILING
  && int_within (reflector_max_tokens s) 8192
  && (is_finite_float (omega_threshold s) && float_leb OMEGA_THRESHOLD_FLOOR (omega_threshold s)
      && float_leb (omega_threshold s) (fl "1.0"))
  && int_within (signal_ttl_ms s) 60000.

Definition _budgets_within_spec (s : CognitiveSettings) : bool :=
  negb (float_ltb (float_add BLUE_RED_COMBINED_CEILING_S _FLOAT_EPS)
                  (float_add (blue_latency_budget_s s) (red_latency_budget_s s)))
  && match bedrock_endpoint_url s with Some url => starts_with (u "https://") url | None => true end.

Definition settings_ok (s : CognitiveSettings) : bool := settings_fields_ok s && _budgets_within_spec s.

Definition summary_char_cap (s : CognitiveSettings) : Z := compression_max_tokens s * 4.

(** The parsers of [_SPEC]; a ValueError names the variable. *)
Definition _optional_str (raw : pystr) : option pystr :=
  let stripped := strip raw in if bool_decide (stripped = []) then None else Some stripped.
Definition _finite (raw : pystr) : option pyfloat :=
  match float_parse raw with Some x => if is_finite_float x then Some x else None | None => None end.
Definition field {A : Type} (source : environ) (var : pystr) (parse : pystr → option A) (default_ : pystr) : result A :=
  match parse (default default_ (source !! var)) with
  | Some a => Ok a
  | None => raise ConfigError (var ++ u " is not valid")
  end.

Definition load_settings (source : environ) : result CognitiveSettings :=
  let model var d := strip (default (u d) (source !! u var)) in
  let text var := match source !! u var with Some raw => _optional_str raw | None => None end in
  let seconds var d := field source (u var) _finite (u d) in
  let int var d := field source (u var) int_of_str (u d) in
  blue_s ← seconds "COGNITIVE_BLUE_LATENCY_BUDGET_S" "0.75";
  red_s ← seconds "COGNITIVE_RED_LATENCY_BUDGET_S" "0.75";
  judge_s ← seconds "COGNITIVE_JUDGE_LATENCY_BUDGET_S" "0.5";
  compression_s ← seconds "COGNITIVE_COMPRESSION_LATENCY_BUDGET_S" "0.2";
  overall_s ← seconds "COGNITIVE_OVERALL_DEADLINE_S" "2.2";
  reflector_s ← seconds "COGNITIVE_REFLECTOR_TIMEOUT_S" "5.0";
  blue_red_tokens ← int "COGNITIVE_BLUE_RED_MAX_TOKENS" "4096";
  judge_tokens ← int "COGNITIVE_JUDGE_MAX_TOKENS" "2048";
  compression_tokens ← int "COGNITIVE_COMPRESSION_MAX_TOKENS" "200";
  reflector_tokens ← int "COGNITIVE_REFLECTOR_MAX_TOKENS" "1024";
  threshold ← seconds "COGNITIVE_OMEGA_THRESHOLD" "0.55";
  ttl ← int "COGNITIVE_SIGNAL_TTL_MS" "2000";
  let s :=
    {| blue_model := model "COGNITIVE_BLUE_MODEL" "mistral.mistral-large-2407-v1:0";
       red_model := model "COGNITIVE_RED_MODEL" "mistral.mistral-large-2407-v1:0";
       judge_model := model "COGNITIVE_JUDGE_MODEL" "anthropic.claude-sonnet-4-6";
       compression_model := model "COGNITIVE_COMPRESSION_MODEL" "anthropic.claude-haiku-4-5-20251001-v1:0";
       reflector_model := model "COGNITIVE_REFLECTOR_MODEL" "anthropic.claude-haiku-4-5-20251001-v1:0";
       bedrock_region := text "COGNITIVE_BEDROCK_REGION";
       bedrock_endpoint_url := text "COGNITIVE_BEDROCK_ENDPOINT_URL";
       blue_latency_budget_s := blue_s; red_latency_budget_s := red_s; judge_latency_budget_s := judge_s;
       compression_latency_budget_s := compression_s; overall_deadline_s := overall_s;
       reflector_timeout_s := reflector_s; blue_red_max_tokens := blue_red_tokens;
       judge_max_tokens := judge_tokens; compression_max_tokens := compression_tokens;
       reflector_max_tokens := reflector_tokens; omega_threshold := threshold; signal_ttl_ms := ttl |} in
  if settings_ok s then Ok s else raise ConfigError (u "invalid cognitive-core settings").

(** ** Runner settings ([runner_config.py]) *)

Definition _TRUE : list pystr := [u "1"; u "true"; u "yes"; u "on"].
Definition _FALSE : list pystr := [u "0"; u "false"; u "no"; u "off"].
Definition MAX_PORT : Z := 65535.
Definition DEFAULT_MOTOR_TARGET : pystr := u "execution-motor:50052".

(** [source.get(name, default).strip()], parsed; [None] of [parse] is the ValueError. *)
Definition _read {A : Type} (source : environ) (name default_ : pystr) (parse : pystr → option A) : result A :=
  let raw := strip (default default_ (source !! name)) in
  match parse raw with
  | Some a => Ok a
  | None => raise ConfigError (name ++ u "=" ++ repr_str raw ++ u " is invalid")
  end.

Definition _bool (raw : pystr) : option bool :=
  let lowered := lower raw in
  if bool_decide (lowered ∈ _TRUE) then Some true
  else if bool_decide (lowered ∈ _FALSE) then Some false else None.
Definition _int (low high : Z) (raw : pystr) : option Z :=
  match int_of_str raw with
  | Some value => if (low <=? value) && (value <=? high) then Some value else None
  | None => None
  end.
Definition _float (low high : pyfloat) (raw : pystr) : option pyfloat :=
  match float_parse raw with
  | Some value =>
      if is_finite_float value && float_leb low value && float_leb value high then Some value else None
  | None => None
  end.

(** [[A-Za-z0-9]([A-Za-z0-9.\-]{0,251}[A-Za-z0-9])?] and [[A-Z0-9.\-]{1,32}], full matches. *)
Definition _HOST (s : pystr) : bool :=
  match s with
  | [] => false
  | c :: r =>
      is_alnum c && (length s <=? 253)%nat
      && match last r with
         | None => true
         | Some z => is_alnum z && forallb (λ c, is_alnum c || one_of (u ".-") c) r
         end
  end.
Definition _SYMBOL : pystr → bool := class_rep (λ c, is_digit c || is_upper c || one_of (u ".-") c) 1 32.

Definition _host (raw : pystr) : option pystr := if _HOST raw then Some raw else None.
Definition _text (raw : pystr) : option pystr := if bool_decide (raw = []) then None else Some raw.
Definition _symbols (raw : pystr) : option (gset pystr) :=
  let items := filter (λ p, p ≠ []) (strip <$> ServerConfig.split_on 44 raw) in
  if forallb _SYMBOL items then Some (list_to_set items) else None.

Inductive SinkKind := SinkGrpc | SinkLog.
Definition _sink (raw : pystr) : option SinkKind :=
  if str_eqb raw (u "grpc") then Some SinkGrpc else if str_eqb raw (u "log") then Some SinkLog else None.

Definition env_strip (source : environ) (name : pystr) : pystr := strip (default [] (source !! name)).

Definition _redis_url (source : environ) : result pystr :=
  let url := env_strip source (u "REDIS_URL") in
  if negb (bool_decide (url = [])) then
    if starts_with (u "redis://") url || starts_with (u "rediss://") url then Ok url
    else raise ConfigError (u "REDIS_URL must start with redis:// or rediss://")
  else
    host ← _read source (u "REDIS_HOST") (u "localhost") _host;
    port ← _read source (u "REDIS_PORT") (u "6379") (_int 1 MAX_PORT);
    Ok (u "redis://" ++ host ++ u ":" ++ str_of_Z port).

Definition _SIZER_VARS : list pystr :=
  [u "COGNITIVE_SIZER_EQUITY_USD"; u "COGNITIVE_SIZER_RISK_PER_TRADE"; u "COGNITIVE_SIZER_MAX_ORDER_NOTIONAL_USD"].

Definition _required_decimal (source : environ) (name : pystr) : result decimal :=
  let raw := env_strip source name in
  if bool_decide (raw = []) then raise ConfigError (u "COGNITIVE_SIZER=vol_scaled requires " ++ name)
  else match dec_of_str raw with
       | None => raise ConfigError (name ++ u " is not a decimal number")
       | Some value => if is_finite value then Ok value else raise ConfigError (name ++ u " must be finite")
       end.

Definition _sizer (source : environ) : result (option VolScaledSizer) :=
  let kind0 := lower (strip (default (u "fixed") (source !! u "COGNITIVE_SIZER"))) in
  let kind := if bool_decide (kind0 = []) then u "fixed" else kind0 in
  if str_eqb kind (u "fixed") then
    if existsb (λ name, negb (bool_decide (env_strip source name = []))) _SIZER_VARS then
      raise ConfigError (u "set but COGNITIVE_SIZER is fixed: set vol_scaled")
    else Ok None
  else if negb (str_eqb kind (u "vol_scaled")) then
    raise ConfigError (u "COGNITIVE_SIZER must be 'fixed' or 'vol_scaled'")
  else
    equity ← _required_decimal source (u "COGNITIVE_SIZER_EQUITY_USD");
    risk ← _required_decimal source (u "COGNITIVE_SIZER_RISK_PER_TRADE");
    cap ← _required_decimal source (u "COGNITIVE_SIZER_MAX_ORDER_NOTIONAL_USD");
    match make_sizer (mkSizer equity risk cap) with
    | Ok s => Ok (Some s)
    | Raise e => raise ConfigError (u "vol_scaled sizer: " ++ exn_msg e)
    end.

Record RunnerSettings := mkRunner {
  health_host : pystr; health_port : Z; order_quantity : pyfloat; strategy_id : pystr;
  min_debate_interval_s : pyfloat; max_context_age_s : pyfloat; symbols : gset pystr;
  emit_abstain : bool; sink : SinkKind; memory_enabled : bool; memory_required : bool;
  memory_top_k : Z; memory_timeout_s : pyfloat; heartbeat_interval_s : pyfloat; redis_url : pystr;
  snapshot_channel : pystr; aegis_host : pystr; aegis_port : Z; aegis_timeout_s : pyfloat;
  motor_target : pystr; motor_timeout_s : pyfloat; proto_dir : option pystr;
  sizer : option VolScaledSizer }.

Definition max_beat_age_s (r : RunnerSettings) : pyfloat :=
  float_max (fl "30.0") (float_mul (fl "10.0") (heartbeat_interval_s r)).

Definition production (source : environ) : bool := str_eqb (lower (env_strip source (u "ENVIRONMENT"))) (u "production").

Definition runner_from_env (source : environ) : result RunnerSettings :=
  quantity ← _read source (u "COGNITIVE_ORDER_QUANTITY") (u "0") (_float (fl "0.0") (fl "1e9"));
  sz ← _sizer source;
  if production source && match sz with None => true | Some _ => false end && float_leb quantity (fl "0.0") then
    raise ConfigError (u "ENVIRONMENT=production requires COGNITIVE_ORDER_QUANTITY")
  else
    health_host ← _read source (u "COGNITIVE_HEALTH_HOST") (u "127.0.0.1") _host;
    health_port ← _read source (u "COGNITIVE_HEALTH_PORT") (u "8080") (_int 0 MAX_PORT);
    strategy ← _read source (u "COGNITIVE_STRATEGY_ID") (u "AFE-STRATEGY-001") _text;
    interval ← _read source (u "COGNITIVE_MIN_DEBATE_INTERVAL_S") (u "60") (_float (fl "0.0") (fl "86400.0"));
    age ← _read source (u "COGNITIVE_MAX_CONTEXT_AGE_S") (u "5") (_float (fl "0.001") (fl "3600.0"));
    syms ← _read source (u "COGNITIVE_SYMBOLS") [] _symbols;
    emit ← _read source (u "COGNITIVE_EMIT_ABSTAIN") (u "false") _bool;
    kind ← _read source (u "COGNITIVE_SINK") (u "grpc") _sink;
    mem ← _read source (u "COGNITIVE_MEMORY_ENABLED") (u "false") _bool;
    mem_required ← _read source (u "COGNITIVE_MEMORY_REQUIRED") (u "true") _bool;
    top_k ← _read source (u "COGNITIVE_MEMORY_TOP_K") (u "3") (_int 1 5);
    mem_timeout ← _read source (u "COGNITIVE_MEMORY_TIMEOUT_S") (u "0.3") (_float (fl "0.01") (fl "2.0"));
    heartbeat ← _read source (u "COGNITIVE_HEARTBEAT_INTERVAL_S") (u "1.0") (_float (fl "0.05") (fl "60.0"));
    redis ← _redis_url source;
    channel ← _read source (u "SNAPSHOT_CHANNEL") (u "sensory:snapshots") _text;
    a_host ← _read source (u "ZONE_B_GRPC_HOST") (u "aegis") _host;
    a_port ← _read source (u "ZONE_B_GRPC_PORT") (u "50051") (_int 1 MAX_PORT);
    a_timeout ← _read source (u "COGNITIVE_AEGIS_TIMEOUT_S") (u "1.0") (_float (fl "0.05") (fl "30.0"));
    target ← _read source (u "MOTOR_TARGET") DEFAULT_MOTOR_TARGET _text;
    m_timeout ← _read source (u "COGNITIVE_MOTOR_TIMEOUT_S") (u "1.0") (_float (fl "0.05") (fl "30.0"));
    Ok (mkRunner health_host health_port quantity strategy interval age syms emit kind mem mem_required top_k
          mem_timeout heartbeat redis channel a_host a_port a_timeout target m_timeout
          (_optional_str (default [] (source !! u "AFE_PROTO_DIR"))) sz).

(** ** The halt gate ([halt.py]) *)

Record HaltStatus := mkHalt { halted : bool; reason : pystr }.
Definition RUNNING : HaltStatus := mkHalt false [].

(** What [stat] answers about the file: it is there, or an OSError of class [name]. *)
Inductive file_probe := Present | StatError (errno : Z) (name : pystr).

(** [Path.exists] of Python 3.12: ENOENT, ENOTDIR, EBADF and ELOOP read as "no such file". *)
Definition _IGNORED_ERRNOS : list Z := [2; 20; 9; 40].
Definition path_exists (probe : file_probe) : bool + pystr :=
  match probe with
  | Present => inl true
  | StatError errno name => if bool_decide (errno ∈ _IGNORED_ERRNOS) then inl false else inr name
  end.

Record HaltGate := mkGate { gate_env : environ; gate_file : option pystr }.

Definition make_gate (env : environ) (halt_file : option pystr) : HaltGate :=
  let raw_file := match halt_file with Some f => f | None => default [] (env !! u "COGNITIVE_HALT_FILE") end in
  mkGate env (if bool_decide (strip raw_file = []) then None else Some raw_file).

Definition _check_env (g : HaltGate) : option HaltStatus :=
  match gate_env g !! u "COGNITIVE_HALT" with
  | None => None
  | Some raw =>
      let value := lower (strip raw) in
      if bool_decide (value ∈ [] :: _FALSE) then None
      else if bool_decide (value ∈ _TRUE) then Some (mkHalt true (u "COGNITIVE_HALT is set"))
      else Some (mkHalt true (u "COGNITIVE_HALT=" ++ repr_str raw ++ u " is not a boolean (fail closed)"))
  end.

Definition _check_file (g : HaltGate) (probe : file_probe) : option HaltStatus :=
  match gate_file g with
  | None => None
  | Some f =>
      match path_exists probe with
      | inr name => Some (mkHalt true (u "cannot inspect halt file (" ++ name ++ u ")"))
      | inl true => Some (mkHalt true (u "halt file " ++ f ++ u " exists"))
      | inl false => None
      end
  end.

Definition check (g : HaltGate) (probe : file_probe) : HaltStatus :=
  match _check_env g with
  | Some s => s
  | None => match _check_file g probe with Some s => s | None => RUNNING end
  end.

(** ** Examples *)

Example defaults_load :
  is_ok (load_settings ∅) = true ∧ is_ok (runner_from_env ∅) = true
  ∧ is_ok (runner_from_env {[ u "ENVIRONMENT" := u " Production " ]}) = false
  ∧ is_ok (runner_from_env {[ u "ENVIRONMENT" := u "production"; u "COGNITIVE_ORDER_QUANTITY" := u "10" ]}) = true
  ∧ is_ok (load_settings {[ u "COGNITIVE_OMEGA_THRESHOLD" := u "0.49" ]}) = false
  ∧ is_ok (load_settings {[ u "COGNITIVE_BLUE_LATENCY_BUDGET_S" := u "0.76" ]}) = false
  ∧ float_parse (u " 1_0.5 ") = Some (fl "10.5") ∧ float_parse (u "1__0") = None ∧ float_parse (u "nan1") = None.
Proof. vm_compute. repeat split. Qed.
Definition no_file : file_probe := StatError 2 (u "FileNotFoundError").
Example halt_examples :
  check (make_gate ∅ None) Present = RUNNING
  ∧ halted (check (make_gate {[ u "COGNITIVE_HALT" := u "maybe" ]} None) no_file) = true
  ∧ halted (check (make_gate {[ u "COGNITIVE_HALT" := u " OFF " ]} (Some (u "/run/halt"))) no_file) = false
  ∧ halted (check (make_gate ∅ (Some (u "/run/halt"))) (StatError 13 (u "PermissionError"))) = true.
Proof. vm_compute. repeat split. Qed.

(** ** The gate *)

(** The gate says "running" only when nothing asks for a halt: the variable is unset or spells
    false, and, where a halt file is configured, the lookup answered that there is none. A value
    that is no boolean, or a lookup that failed otherwise, is a halt. *)
Theorem running_means_no_halt g probe :
  halted (check g probe) = false ↔
  (∀ raw, gate_env g !! u "COGNITIVE_HALT" = Some raw → lower (strip raw) ∈ [] :: _FALSE)
  ∧ (gate_file g = None ∨ path_exists probe = inl false).
Proof.
  unfold check, _check_env, _check_file. split.
  - intros H. split.
    + intros raw Hraw. rewrite Hraw in H. case_bool_decide; [done|]. by case_bool_decide.
    + destruct (gate_file g) as [f|]; [right|by left].
      destruct (gate_env g !! u "COGNITIVE_HALT") as [raw|].
      * case_bool_decide; [|by case_bool_decide]. by destruct (path_exists probe) as [[]|].
      * by destruct (path_exists probe) as [[]|].
  - intros [Henv Hfile].
    assert (E : match gate_file g with
                | None => None
                | Some f => match path_exists probe with
                    | inr name => Some (mkHalt true (u "cannot inspect halt file (" ++ name ++ u ")"))
                    | inl true => Some (mkHalt true (u "halt file " ++ f ++ u " exists"))
                    | inl false => None end end = None).
    { destruct Hfile as [-> | ->]; [done|]. by destruct (gate_file g). }
    destruct (gate_env g !! u "COGNITIVE_HALT") as [raw|].
    + rewrite bool_decide_true by (by apply Henv). by rewrite E.
    + by rewrite E.
Qed.

(** A halt file that is a loop of symbolic links (ELOOP) reads as absent: [Path.exists]
    swallows that error, and the runner goes on. *)
Theorem looping_halt_file_is_absent g f :
  gate_file g = Some f → _check_env g = None →
  halted (check g (StatError 40 (u "OSError"))) = false.
Proof. intros Hf He. unfold check, _check_file. by rewrite He, Hf. Qed.
Lemma looping_halt_file_is_absent_witness :
  gate_file (make_gate ∅ (Some (u "/run/halt"))) = Some (u "/run/halt")
  ∧ halted (check (make_gate ∅ (Some (u "/run/halt"))) (StatError 40 (u "OSError"))) = false.
Proof. split; [reflexivity|]. apply (looping_halt_file_is_absent _ (u "/run/halt")); reflexivity. Defined.

(** Settings that load satisfy every bound. *)
Lemma load_settings_ok source s : load_settings source = Ok s → settings_ok s = true.
Proof. unfold load_settings. intros H. ok_inv. case_hyp H; ok_inv; by subst. Qed.
