(* ===== verification/CogSignal.v ===== *)
(** * Cognitive core: from a debate to a signal ([signals.py])

    A debate becomes an actionable signal only when every condition holds; anything else is an
    ABSTAIN with no side and no quantity. The conversion never fails on validated values. *)
From S2P Require Import Prelude PyStr PyFloat PyFloatFacts Json CogModels CogConfig.

Definition NS_PER_MS : Z := 1000000.
Definition NO_SUMMARY : pystr := u "no debate summary available".

Inductive AbstainReason :=
  | missing_upstream_node | upstream_forced_completion | judge_defaulted_abstain | omega_below_threshold
  | side_unknown | quantity_not_positive | non_positive_expected_value.

(** The reasons, in the code's order. *)
Definition abstain_reasons (state : DebateState) (verdict : JudgeVerdict) (settings : CognitiveSettings)
    (quantity : pyfloat) : list AbstainReason :=
  match blue_thesis state, red_challenge state with
  | Some blue, Some red => if b_forced blue || r_forced red then [upstream_forced_completion] else []
  | _, _ => [missing_upstream_node]
  end
  ++ (if defaulted_abstain verdict then [judge_defaulted_abstain] else [])
  ++ (if float_ltb (omega verdict) (omega_threshold settings) then [omega_below_threshold] else [])
  ++ (if bool_decide (v_side verdict = SIDE_UNKNOWN) then [side_unknown] else [])
  ++ (if negb (is_finite_float quantity) || float_leb quantity f0 then [quantity_not_positive] else [])
  ++ (if float_leb (expected_value verdict) f0 then [non_positive_expected_value] else []).

(** [new_id] is [str(uuid.uuid4())]. *)
Definition _build (new_id : pystr) (state : DebateState) (verdict : JudgeVerdict) (settings : CognitiveSettings)
    (actionable : bool) (quantity : pyfloat) (now_ns : Z) : result TradeSignal :=
  let summary := match d_summary state with
                 | Some s => if bool_decide (s = []) then NO_SUMMARY else s | None => NO_SUMMARY end in
  make_signal
    {| signal_id := new_id; sig_symbol := symbol (market_context state); created_at_ns := now_ns;
       side := if actionable then v_side verdict else SIDE_UNKNOWN;
       quantity := if actionable then quantity else f0;
       sig_omega := omega verdict; sig_expected_value := expected_value verdict;
       sig_p_success := p_success verdict; sig_p_failure := p_failure verdict;
       sig_reward_estimate := reward_estimate verdict; sig_risk_estimate := risk_estimate verdict;
       estimated_spread_cost := f0; estimated_market_impact := f0; estimated_venue_fees := f0;
       estimated_total_cost := f0; regime := d_regime state; regime_confidence := d_regime_confidence state;
       debate_summary := truncate_summary summary (compression_max_tokens settings); price_limit := f0;
       valid_until_ns := now_ns + signal_ttl_ms settings * NS_PER_MS;
       status := if actionable then SIGNAL_PENDING else SIGNAL_ABSTAIN |}.

Definition to_trade_signal (new_id : pystr) (created : Z) (state : DebateState) (settings : CognitiveSettings)
    (quantity : pyfloat) : result TradeSignal :=
  match judge_verdict state with
  | None => _build new_id state default_abstain settings false f0 created
  | Some verdict =>
      let reasons := abstain_reasons state verdict settings quantity in
      _build new_id state verdict settings (match reasons with [] => true | _ => false end) quantity created
  end.

Definition abstain_signal (new_id : pystr) (created : Z) (state : DebateState) (settings : CognitiveSettings)
    (summary : pystr) : result TradeSignal :=
  let aborted := {| market_context := market_context state; d_regime := d_regime state;
    d_regime_confidence := d_regime_confidence state; precedents := precedents state;
    precedents_status := precedents_status state; debate_started_at := debate_started_at state;
    blue_thesis := blue_thesis state; red_challenge := red_challenge state;
    judge_verdict := judge_verdict state; d_summary := Some summary |} in
  _build new_id aborted default_abstain settings false f0 created.

(** ** What a verdict is known to satisfy *)

(** The floats of a verdict that was read, or that is the default, lie in the range of the floats. *)
Definition verdict_in_range (v : JudgeVerdict) : Prop :=
  fits_float (omega v) ∧ fits_float (p_success v) ∧ fits_float (p_failure v)
  ∧ fits_float (reward_estimate v) ∧ fits_float (risk_estimate v).
Definition verdict_valid (v : JudgeVerdict) : Prop := verdict_ok v = true ∧ verdict_in_range v.

Lemma strict_float_in_range v x : strict_float v = Some x → is_finite_float x = true → fits_float x.
Proof.
  destruct v; try done; intros [= <-]; [apply round_int_in_range|apply text_in_range].
Qed.

Lemma default_abstain_valid : verdict_valid default_abstain.
Proof. split; [by vm_compute|]. by vm_compute. Qed.

Lemma required_inv {A} m k (f : json → option A) a :
  required m k f = Some a → ∃ v, obj_get m k = Some v ∧ f v = Some a.
Proof. unfold required. destruct (obj_get m k); [by eauto|done]. Qed.

Lemma validate_verdict_valid v x : validate_verdict v = Some x → verdict_valid x.
Proof.
  destruct v as [| | | | | |m]; try done. cbn. destruct (only_keys m _); [|done]. intros H.
  repeat (apply bind_Some in H as (? & ? & H)). unfold checked in H.
  destruct (verdict_ok _) eqn:Hok; [|done]. injection H as <-. split; [done|].
  unfold verdict_ok, UnitFloat, NonNegFloat in Hok. cbn in Hok. rewrite !andb_true_iff in Hok.
  repeat match goal with H : required _ _ strict_float = Some _ |- _ => apply required_inv in H as (? & ? & H) end.
  unfold verdict_in_range. cbn. destruct_and!. ands; by eapply strict_float_in_range.
Qed.

Lemma expected_value_finite v : verdict_valid v → is_finite_float (expected_value v) = true.
Proof.
  intros [Hok (Ho & Hp & Hq & Hr & Hk)]. unfold verdict_ok, UnitFloat, NonNegFloat in Hok.
  rewrite !andb_true_iff in Hok. destruct_and!. unfold expected_value.
  apply sub_finite; apply mul_unit_nonneg; try done; by apply nonneg_intro.
Qed.

(** ** The conversion never fails *)

(** A state whose context and confidence were validated, with a verdict that was. *)
Record state_valid (s : DebateState) : Prop := {
  sv_context : market_context_ok (market_context s) = true;
  sv_confidence : UnitFloat (d_regime_confidence s) = true;
  sv_verdict v : judge_verdict s = Some v → verdict_valid v }.

Lemma truncate_nonneg text n : (length (truncate_summary text n) <= Z.to_nat (n * CHARS_PER_TOKEN))%nat.
Proof. unfold truncate_summary, slice_to. rewrite length_take. lia. Qed.

Lemma truncate_truncate text n m :
  n <= m → truncate_summary (truncate_summary text n) m = truncate_summary text n.
Proof.
  intros H. unfold truncate_summary, slice_to. apply take_ge. rewrite length_take.
  unfold CHARS_PER_TOKEN. lia.
Qed.

Lemma settings_ttl s : settings_ok s = true → 0 < signal_ttl_ms s ∧ compression_max_tokens s <= MAX_SUMMARY_TOKENS.
Proof.
  unfold settings_ok, settings_fields_ok, int_within. rewrite !andb_true_iff. intros H. destruct_and!.
  rewrite ?Z.ltb_lt, ?Z.leb_le in *. unfold MAX_SUMMARY_TOKENS_CEILING, MAX_SUMMARY_TOKENS in *. lia.
Qed.

(** The signal that [_build] makes. *)
Definition built (new_id : pystr) (state : DebateState) (verdict : JudgeVerdict) (settings : CognitiveSettings)
    (actionable : bool) (q : pyfloat) (now_ns : Z) (s : TradeSignal) : Prop :=
  signal_id s = new_id ∧ sig_symbol s = symbol (market_context state) ∧ created_at_ns s = now_ns
  ∧ side s = (if actionable then v_side verdict else SIDE_UNKNOWN)
  ∧ quantity s = (if actionable then q else f0)
  ∧ sig_omega s = omega verdict ∧ sig_expected_value s = expected_value verdict
  ∧ regime s = d_regime state ∧ valid_until_ns s = now_ns + signal_ttl_ms settings * NS_PER_MS
  ∧ (length (debate_summary s) <= 800)%nat
  ∧ status s = (if actionable then SIGNAL_PENDING else SIGNAL_ABSTAIN).

Lemma signal_built_inv new_id state verdict settings actionable q now_ns s :
  _build new_id state verdict settings actionable q now_ns = Ok s →
  built new_id state verdict settings actionable q now_ns s ∧ signal_fields_ok s = true ∧ _signal_invariants s = true.
Proof.
  unfold _build, make_signal. cbn -[signal_fields_ok _signal_invariants truncate_summary].
  case_match eqn:Hok; [|done]. intros [= <-]. apply andb_true_iff in Hok as [H1 H2].
  split; [|by split]. unfold built. cbn -[truncate_summary]. ands; try done.
  etransitivity; [apply truncate_nonneg|]. unfold MAX_SUMMARY_TOKENS, CHARS_PER_TOKEN. lia.
Qed.

(** What the code checks before it calls a signal actionable. *)
Definition tradable (verdict : JudgeVerdict) (q : pyfloat) : Prop :=
  v_side verdict ≠ SIDE_UNKNOWN ∧ is_finite_float q = true ∧ float_leb q f0 = false.

Lemma tradable_positive q : is_finite_float q = true → float_leb q f0 = false → float_ltb f0 q = true ∧ NonNegFloat q = true.
Proof.
  intros Hq H. unfold NonNegFloat. rewrite Hq. destruct (finite_at_exp q Hq) as (K & HK & Hat).
  rewrite (float_leb_sc K) in H by (apply Hat || (cbn; lia); lia). apply Z.leb_gt in H.
  rewrite (float_leb_sc K), (float_ltb_sc K) by (apply Hat || (cbn; lia); lia). split; [by apply Z.ltb_lt|].
  cbn [andb]. apply Z.leb_le. lia.
Qed.

Lemma build_total new_id state verdict settings actionable q now_ns :
  settings_ok settings = true → state_valid state → verdict_valid verdict → new_id ≠ [] → 0 <= now_ns →
  (actionable = true → tradable verdict q) →
  ∃ s, _build new_id state verdict settings actionable q now_ns = Ok s.
Proof.
  intros Hset Hstate Hv Hid Hnow Hact. pose proof (settings_ttl _ Hset) as [Httl _].
  pose proof (expected_value_finite _ Hv) as Hev. pose proof (sv_confidence _ Hstate) as Hconf.
  pose proof (sv_context _ Hstate) as Hctx. unfold market_context_ok in Hctx. rewrite !andb_true_iff in Hctx.
  destruct Hv as [Hok _]. unfold verdict_ok in Hok. rewrite !andb_true_iff in Hok. destruct_and!.
  unfold _build, make_signal. cbn -[signal_fields_ok _signal_invariants truncate_summary].
  case_match eqn:E; [by eexists|exfalso].
  apply andb_false_iff in E as [E|E].
  - unfold signal_fields_ok in E. cbn -[UnitFloat NonNegFloat FiniteFloat truncate_summary min_length max_length] in E.
    rewrite !andb_false_iff, ?Z.leb_gt in E. unfold NS_PER_MS in E.
    assert (min_length 1 new_id = true) by (by destruct new_id).
    assert (NonNegFloat (if actionable then q else f0) = true).
    { destruct actionable; [|done]. destruct (Hact eq_refl) as (_ & Hq & Hq'). by apply tradable_positive. }
    change (NonNegFloat f0) with true in E. unfold FiniteFloat in E.
    repeat match goal with H : _ ∨ _ |- _ => destruct H as [H|H] end; (congruence || lia).
  - unfold _signal_invariants in E. cbn -[truncate_summary float_ltb float_eqb is_finite_float Z.add Z.mul] in E.
    rewrite !andb_false_iff in E. destruct actionable.
    + destruct (Hact eq_refl) as (Hside & Hq & Hq'). destruct (tradable_positive q Hq Hq') as [Hpos _].
      rewrite (bool_decide_false (v_side verdict = SIDE_UNKNOWN)), Hpos, Hq in E by done. unfold NS_PER_MS in E.
      rewrite (proj2 (Z.ltb_lt now_ns _)) in E by lia.
      change (bool_decide (SIGNAL_PENDING ∈ ACTIONABLE_STATUSES)) with true in E.
      change (bool_decide (SIGNAL_PENDING = SIGNAL_ABSTAIN)) with false in E. cbn in E.
      repeat match goal with H : _ ∨ _ |- _ => destruct H as [H|H] end; congruence.
    + change (bool_decide (SIGNAL_ABSTAIN ∈ ACTIONABLE_STATUSES)) with false in E.
      change (bool_decide (SIGNAL_ABSTAIN = SIGNAL_ABSTAIN)) with true in E.
      change (bool_decide (SIDE_UNKNOWN = SIDE_UNKNOWN)) with true in E.
      change (float_eqb f0 f0) with true in E. cbn in E.
      repeat match goal with H : _ ∨ _ |- _ => destruct H as [H|H] end; congruence.
Qed.

Lemma reasons_tradable state verdict settings q :
  abstain_reasons state verdict settings q = [] →
  (∃ blue red, blue_thesis state = Some blue ∧ red_challenge state = Some red
   ∧ b_forced blue = false ∧ r_forced red = false)
  ∧ defaulted_abstain verdict = false ∧ float_ltb (omega verdict) (omega_threshold settings) = false
  ∧ tradable verdict q ∧ float_leb (expected_value verdict) f0 = false.
Proof.
  unfold abstain_reasons, tradable. intros H. repeat (apply app_eq_nil in H as [? H]).
  repeat match goal with H : (if ?b then [_] else []) = [] |- _ => destruct b eqn:?; [done|clear H] end.
  destruct (blue_thesis state) as [blue|], (red_challenge state) as [red|]; try done.
  destruct (b_forced blue || r_forced red) eqn:Ef; [done|]. apply orb_false_iff in Ef as [? ?].
  rewrite bool_decide_eq_false in *. rewrite orb_false_iff, negb_false_iff in *. destruct_and!.
  ands; eauto 10.
Qed.

Lemma to_trade_signal_total new_id created state settings q :
  settings_ok settings = true → state_valid state → new_id ≠ [] → 0 <= created →
  ∃ s, to_trade_signal new_id created state settings q = Ok s.
Proof.
  intros Hset Hstate Hid Hnow. unfold to_trade_signal. destruct (judge_verdict state) as [v|] eqn:Ev.
  - apply build_total; [done|done|by apply (sv_verdict _ Hstate)|done|done|].
    destruct (abstain_reasons state v settings q) eqn:Er; [|done]. intros _. by apply reasons_tradable in Er as (_ & _ & _ & ? & _).
  - apply build_total; try done.
Qed.
