(* ===== verification/CogDebate.v ===== *)
(** * Cognitive core: the debate ([graph.py], [reflector.py])

    Blue, Red, Judge and Compression in that order, each calling its model under a time limit, any
    failure degraded to a forced or abstaining output; then the conversion to a signal. The models,
    the clock and the two library functions that read and write JSON are parameters. *)
From S2P Require Import Prelude PyStr PyFloat PyFloatFacts Json CogModels CogText CogSizing CogConfig CogSignal.

Inductive Node := Blue | Red | Judge | Compression | Reflector.
#[export] Instance Node_eq_dec : EqDecision Node. Proof. solve_decision. Defined.

(** What awaiting a client gives: a text, a value that is no [str], or an exception (the time
    limit of [wait_for] included). *)
Inductive Reply := Text (s : pystr) | NotText (name : pystr) | Fails (e : exn).

Record Call := mkCall { c_node : Node; c_prompt : pystr; c_max_tokens : Z; c_timeout : pyfloat }.

(** How often the clock was read, and the calls made. *)
Record World := mkWorld { readings : nat; calls : list Call }.

Definition CancelledError : exn_class := OtherError (u "CancelledError").
Definition TimeoutError : exn_class := OtherError (u "TimeoutError").

(** [except asyncio.CancelledError: raise], then [except Exception]. *)
Definition except_failure {S A} (m : M S A) (h : exn → M S A) : M S A :=
  catch_all m (λ e, if bool_decide (exn_kind e = CancelledError) then lift (Raise e) else h e).

Definition DEGRADED_OMEGA_FACTOR : pyfloat := fl "0.5".

(** ** Updates of the state *)

Definition set_blue (started : pyfloat) (b : BlueThesis) (s : DebateState) : DebateState :=
  {| market_context := market_context s; d_regime := d_regime s; d_regime_confidence := d_regime_confidence s;
     precedents := precedents s; precedents_status := precedents_status s; debate_started_at := Some started;
     blue_thesis := Some b; red_challenge := red_challenge s; judge_verdict := judge_verdict s; d_summary := d_summary s |}.
Definition set_red (r : RedChallenge) (s : DebateState) : DebateState :=
  {| market_context := market_context s; d_regime := d_regime s; d_regime_confidence := d_regime_confidence s;
     precedents := precedents s; precedents_status := precedents_status s; debate_started_at := debate_started_at s;
     blue_thesis := blue_thesis s; red_challenge := Some r; judge_verdict := judge_verdict s; d_summary := d_summary s |}.
Definition set_verdict (v : JudgeVerdict) (s : DebateState) : DebateState :=
  {| market_context := market_context s; d_regime := d_regime s; d_regime_confidence := d_regime_confidence s;
     precedents := precedents s; precedents_status := precedents_status s; debate_started_at := debate_started_at s;
     blue_thesis := blue_thesis s; red_challenge := red_challenge s; judge_verdict := Some v; d_summary := d_summary s |}.
Definition set_summary (t : pystr) (s : DebateState) : DebateState :=
  {| market_context := market_context s; d_regime := d_regime s; d_regime_confidence := d_regime_confidence s;
     precedents := precedents s; precedents_status := precedents_status s; debate_started_at := debate_started_at s;
     blue_thesis := blue_thesis s; red_challenge := red_challenge s; judge_verdict := judge_verdict s; d_summary := Some t |}.

Definition _blue_unusable (blue : option BlueThesis) : bool :=
  match blue with None => true | Some b => b_forced b || bool_decide (b_side b = SIDE_UNKNOWN) end.

Definition _cap_degraded (settings : CognitiveSettings) (v : JudgeVerdict) : JudgeVerdict :=
  let cap := float_mul (omega_threshold settings) DEGRADED_OMEGA_FACTOR in
  if float_leb (omega v) cap then v
  else mkVerdict (v_side v) cap (p_success v) (p_failure v) (reward_estimate v) (risk_estimate v) (defaulted_abstain v).

Definition forced_blue (name : pystr) : BlueThesis :=
  mkBlue SIDE_UNKNOWN (u "blue_node failed (" ++ name ++ u ") - forced completion") [] true.
Definition skipped_red : RedChallenge := mkRed [] [u "red_node skipped: no usable Blue thesis"] true.
Definition forced_red (name : pystr) : RedChallenge :=
  mkRed [] [u "red_node failed (" ++ name ++ u ") - forced completion"] true.

Definition _fallback_summary (settings : CognitiveSettings) (s : DebateState) : pystr :=
  let rationale := match blue_thesis s with Some b => slice_to 200 (rationale b) | None => [] end in
  let counters := match red_challenge s with Some r => slice_to 200 (join (u "; ") (counter_factors r)) | None => [] end in
  let text := strip_set (u " |") (rationale ++ u " | " ++ counters) in
  truncate_summary (if bool_decide (text = []) then NO_SUMMARY else text) (compression_max_tokens settings).

Section debate.
(** The [n]-th reading of [time.monotonic()]; a client's answer to its prompt, given the number of
    calls made before; pydantic's JSON reader and writers. *)
Context (monotonic : nat → pyfloat) (client : Node → nat → pystr → Z → pyfloat → Reply).
Context (parse_json : pystr → option json).
Context (dump_context : MarketContext → pystr) (dump_blue : BlueThesis → pystr)
  (dump_red : RedChallenge → pystr) (dump_verdict : JudgeVerdict → pystr).
Context (settings : CognitiveSettings).

Definition now_s : M World pyfloat := λ w,
  (Ok (monotonic (readings w)), mkWorld (S (readings w)) (calls w)).

Definition _remaining_s (s : DebateState) : M World pyfloat :=
  match debate_started_at s with
  | None => mret (overall_deadline_s settings)
  | Some started => now ← now_s; mret (float_sub (float_add started (overall_deadline_s settings)) now)
  end.

Definition ainvoke (node : Node) (prompt : pystr) (max_tokens : Z) (timeout : pyfloat) : M World Reply := λ w,
  (Ok (client node (length (calls w)) prompt max_tokens timeout),
   mkWorld (readings w) (calls w ++ [mkCall node prompt max_tokens timeout])).

Definition _call (node : Node) (prompt : pystr) (max_tokens : Z) (budget_s : pyfloat) (s : DebateState)
  : M World pystr :=
  remaining ← _remaining_s s;
  let timeout_s := float_min budget_s remaining in
  if float_leb timeout_s f0 then lift (raise TimeoutError (u "overall debate deadline exhausted"))
  else
    reply ← ainvoke node prompt max_tokens timeout_s;
    match reply with
    | Text s => mret s
    | NotText name => lift (raise ModelOutputError (u "client returned " ++ name ++ u ", expected str"))
    | Fails e => lift (Raise e)
    end.

Definition _blue_step (s : DebateState) : M World DebateState :=
  started ← match debate_started_at s with Some t => mret t | None => now_s end;
  let timed := set_blue started (forced_blue []) s in
  prompt ← lift (str_format BLUE_SYSTEM_PROMPT
    [ (u "market_context", dump_context (market_context s)); (u "regime", regime_value (d_regime s));
      (u "regime_confidence", repr_float (d_regime_confidence s)) ]);
  thesis ← except_failure
    (raw ← _call Blue prompt (blue_red_max_tokens settings) (blue_latency_budget_s settings) timed;
     lift (parse_json_model parse_json validate_blue raw))
    (λ e, mret (forced_blue (exn_name (exn_kind e))));
  mret (set_blue started thesis s).

Definition _red_step (s : DebateState) : M World DebateState :=
  match blue_thesis s with
  | Some blue =>
      if _blue_unusable (Some blue) then mret (set_red skipped_red s)
      else
        prompt ← lift (str_format RED_SYSTEM_PROMPT
          [ (u "blue_thesis", wrap_untrusted (u "blue") (dump_blue blue)); (u "regime", regime_value (d_regime s)) ]);
        let prompt := prompt ++ precedent_section (precedents_status s) (precedents s) in
        challenge ← except_failure
          (raw ← _call Red prompt (blue_red_max_tokens settings) (red_latency_budget_s settings) s;
           lift (parse_json_model parse_json validate_red raw))
          (λ e, mret (forced_red (exn_name (exn_kind e))));
        mret (set_red challenge s)
  | None => mret (set_red skipped_red s)
  end.

Definition _judge_step (s : DebateState) : M World DebateState :=
  match blue_thesis s, red_challenge s with
  | Some blue, Some red =>
      if _blue_unusable (Some blue) then mret (set_verdict default_abstain s)
      else
        prompt ← lift (str_format JUDGE_SYSTEM_PROMPT
          [ (u "blue_thesis", wrap_untrusted (u "blue") (dump_blue blue));
            (u "red_challenge", wrap_untrusted (u "red") (dump_red red)); (u "regime", regime_value (d_regime s));
            (u "regime_confidence", repr_float (d_regime_confidence s)) ]);
        let prompt := prompt ++ precedent_section (precedents_status s) (precedents s) in
        verdict ← except_failure
          (raw ← _call Judge prompt (judge_max_tokens settings) (judge_latency_budget_s settings) s;
           verdict ← lift (parse_json_model parse_json validate_verdict raw);
           mret (if r_forced red then _cap_degraded settings verdict else verdict))
          (λ _, mret default_abstain);
        mret (set_verdict verdict s)
  | _, _ => mret (set_verdict default_abstain s)
  end.

Definition _compression_step (s : DebateState) : M World DebateState :=
  match blue_thesis s, red_challenge s, judge_verdict s with
  | Some blue, Some red, Some verdict =>
      prompt ← lift (str_format COMPRESSION_SYSTEM_PROMPT
        [ (u "max_tokens", str_of_Z (compression_max_tokens settings));
          (u "blue_thesis", wrap_untrusted (u "blue") (dump_blue blue));
          (u "red_challenge", wrap_untrusted (u "red") (dump_red red));
          (u "judge_verdict", wrap_untrusted (u "judge") (dump_verdict verdict)) ]);
      summary ← except_failure
        (summary ← _call Compression prompt (compression_max_tokens settings)
                     (compression_latency_budget_s settings) s;
         if bool_decide (strip summary = []) then lift (raise ModelOutputError (u "empty compression summary"))
         else mret (truncate_summary (strip summary) (compression_max_tokens settings)))
        (λ _, mret (_fallback_summary settings s));
      mret (set_summary summary s)
  | _, _, _ => mret (set_summary (_fallback_summary settings s) s)
  end.

(** The compiled graph: blue, red, judge, compression. *)
Definition graph_ainvoke (s : DebateState) : M World DebateState :=
  s ← _blue_step s; s ← _red_step s; s ← _judge_step s; _compression_step s.

(** ** A debate *)

(** [expired]: the overall deadline cancels the graph, and [wait_for] turns that cancellation into
    a TimeoutError. [library]: LangGraph or the validation of its result fails by itself. *)
Definition graph_under_deadline (expired : bool) (library : option exn) (s : DebateState) : M World DebateState :=
  catch_all
    (final ← graph_ainvoke s;
     match library with Some e => lift (Raise e) | None => mret final end)
    (λ e, if bool_decide (exn_kind e = CancelledError) && expired then lift (raise TimeoutError [])
          else lift (Raise e)).

Abbreviation PositionSizer := (pyfloat → pyfloat → pyfloat → result pyfloat).

Definition _sized_quantity (sizer : PositionSizer) (s : DebateState) : pyfloat :=
  match judge_verdict s with
  | None => f0
  | Some verdict =>
      match sizer (mid_price (market_context s)) (realized_vol (market_context s)) (omega verdict) with
      | Ok q => q
      | Raise _ => f0
      end
  end.

Definition run_debate_with_state (expired : bool) (library : option exn) (new_id : pystr) (created : Z)
    (initial : DebateState) (quantity : pyfloat) (sizer : option PositionSizer)
  : M World (TradeSignal * option DebateState) :=
  r ← except_failure
        (final ← graph_under_deadline expired library initial; mret (inl final))
        (λ e, mret (inr (exn_name (exn_kind e))));
  match r with
  | inr name =>
      aborted ← lift (abstain_signal new_id created initial settings
                        (u "debate aborted (" ++ name ++ u ") - abstain"));
      mret (aborted, None)
  | inl final =>
      let quantity := match sizer with Some sz => _sized_quantity sz final | None => quantity end in
      signal ← lift (to_trade_signal new_id created final settings quantity);
      mret (signal, Some final)
  end.

Definition run_debate (expired : bool) (library : option exn) (new_id : pystr) (created : Z)
    (initial : DebateState) (quantity : pyfloat) (sizer : option PositionSizer) : M World TradeSignal :=
  r ← run_debate_with_state expired library new_id created initial quantity sizer; mret r.1.

End debate.

(** ** The Reflector ([reflector.py]) *)

Section reflector.
Context (client : Node → nat → pystr → Z → pyfloat → Reply) (parse_json : pystr → option json).
Context (dump_signal : TradeSignal → pystr) (settings : CognitiveSettings).

Definition reflector_prompt (sig : TradeSignal) (outcome : TradeOutcome) (observed : pystr) : result pystr :=
  str_format REFLECTOR_SYSTEM_PROMPT
    [ (u "trade_signal", dump_signal sig); (u "realised_pnl", repr_float (realised_pnl outcome));
      (u "regime_at_close", regime_value (regime_at_close outcome));
      (u "outcome_notes", wrap_untrusted (u "outcome") (description outcome));
      (u "observed_underperformance", wrap_untrusted (u "analyst") observed);
      (u "debate_history", wrap_untrusted (u "debate") (debate_summary sig)) ].

(** [RubricChangeProposal(...)]: status, sign-off and stages are the defaults. *)
Definition make_proposal (p : RubricChangeProposal) : result RubricChangeProposal :=
  if proposal_ok p then Ok p else raise CogModels.ValidationError (u "RubricChangeProposal").

Definition build_rubric_change_proposal (new_id : pystr) (created : Z) (sig : TradeSignal)
    (outcome : TradeOutcome) (observed : pystr) : M World (option RubricChangeProposal) :=
  prompt ← lift (reflector_prompt sig outcome observed);
  draft ← except_failure
    (reply ← ainvoke client Reflector prompt (reflector_max_tokens settings) (reflector_timeout_s settings);
     match reply with
     | Text raw => draft ← lift (parse_json_model parse_json validate_draft raw); mret (Some draft)
     | NotText name => lift (raise ModelOutputError (u "expected str reply, got " ++ name))
     | Fails e => lift (Raise e)
     end)
    (λ _, mret None);
  match draft with
  | None => mret None
  | Some draft =>
      p ← lift (make_proposal
        {| proposal_id := new_id; trigger_signal_id := signal_id sig; p_created_at_ns := created;
           observed_underperformance := observed; p_proposed_change := proposed_change draft;
           p_rationale := draft_rationale draft; p_realised_pnl := realised_pnl outcome;
           p_regime_at_close := regime_at_close outcome; debate_history := debate_summary sig;
           p_status := u "DRAFT"; requires_human_signoff := true; required_stages := REQUIRED_STAGES |});
      mret (Some p)
  end.
End reflector.

(** ** Facts *)

Lemma except_failure_inv {S A} (m : M S A) h w r w' :
  except_failure m h w = (r, w') →
  (∃ a, m w = (Ok a, w') ∧ r = Ok a)
  ∨ (∃ e, m w = (Raise e, w') ∧ exn_kind e = CancelledError ∧ r = Raise e)
  ∨ (∃ e w1, m w = (Raise e, w1) ∧ exn_kind e ≠ CancelledError ∧ h e w1 = (r, w')).
Proof.
  unfold except_failure, catch_all. destruct (m w) as [[a|e] w1]; [intros [= <- <-]; by eauto|].
  case_bool_decide; [intros [= <- <-]; by eauto 8|intros; by eauto 8].
Qed.

(** The outcome of a node: it returns with [P] of its result, or it was cancelled. *)
Definition returns {A} (P : A → Prop) (r : result A) : Prop :=
  match r with Ok a => P a | Raise e => exn_kind e = CancelledError end.

Lemma returns_mono {A} (P Q : A → Prop) r : returns P r → (∀ a, P a → Q a) → returns Q r.
Proof. destruct r; cbn; auto. Qed.

(** [except Exception] with a handler that returns: whatever happens inside, a value of [P]. *)
Lemma except_failure_returns {S A} (P : A → Prop) (m : M S A) (h : exn → A) w :
  (∀ a w', m w = (Ok a, w') → P a) → (∀ e, P (h e)) → returns P (except_failure m (λ e, mret (h e)) w).1.
Proof.
  intros Hm Hh. destruct (except_failure m (λ e, mret (h e)) w) as [r w'] eqn:E. cbn.
  apply except_failure_inv in E as [(a & E & ->)|[(e & E & He & ->)|(e & w1 & E & He & H)]]; cbn; [by eapply Hm|done|].
  cbv [mret M_ret] in H. injection H as <- <-. apply Hh.
Qed.

Lemma returns_bind {S A B} (P : A → Prop) (Q : B → Prop) (m : M S A) (f : A → M S B) w :
  returns P (m w).1 → (∀ a w', P a → returns Q (f a w').1) → returns Q ((m ≫= f) w).1.
Proof. unfold mbind, M_bind. destruct (m w) as [[a|e] w1]; cbn; auto. Qed.

Lemma format_ok (t : pystr) args : is_ok (str_format t args) = true → ∃ p, str_format t args = Ok p.
Proof. destruct (str_format t args); [by eauto|done]. Qed.
Lemma blue_prompt_ok a b c :
  is_ok (str_format BLUE_SYSTEM_PROMPT [(u "market_context", a); (u "regime", b); (u "regime_confidence", c)]) = true.
Proof. vm_compute. reflexivity. Qed.
Lemma red_prompt_ok a b : is_ok (str_format RED_SYSTEM_PROMPT [(u "blue_thesis", a); (u "regime", b)]) = true.
Proof. vm_compute. reflexivity. Qed.
Lemma judge_prompt_ok a b c d :
  is_ok (str_format JUDGE_SYSTEM_PROMPT
    [(u "blue_thesis", a); (u "red_challenge", b); (u "regime", c); (u "regime_confidence", d)]) = true.
Proof. vm_compute. reflexivity. Qed.
Lemma compression_prompt_ok a b c d :
  is_ok (str_format COMPRESSION_SYSTEM_PROMPT
    [(u "max_tokens", a); (u "blue_thesis", b); (u "red_challenge", c); (u "judge_verdict", d)]) = true.
Proof. vm_compute. reflexivity. Qed.
Lemma reflector_prompt_ok a b c d e f :
  is_ok (str_format REFLECTOR_SYSTEM_PROMPT
    [(u "trade_signal", a); (u "realised_pnl", b); (u "regime_at_close", c); (u "outcome_notes", d);
     (u "observed_underperformance", e); (u "debate_history", f)]) = true.
Proof. vm_compute. reflexivity. Qed.

Section facts.
Context (monotonic : nat → pyfloat) (client : Node → nat → pystr → Z → pyfloat → Reply).
Context (parse_json : pystr → option json).
Context (dump_context : MarketContext → pystr) (dump_blue : BlueThesis → pystr)
  (dump_red : RedChallenge → pystr) (dump_verdict : JudgeVerdict → pystr).
Context (settings : CognitiveSettings).

#[local] Abbreviation blue_step := (_blue_step monotonic client parse_json dump_context settings).
#[local] Abbreviation red_step := (_red_step monotonic client parse_json dump_blue settings).
#[local] Abbreviation judge_step := (_judge_step monotonic client parse_json dump_blue dump_red settings).
#[local] Abbreviation compression_step := (_compression_step monotonic client dump_blue dump_red dump_verdict settings).
#[local] Abbreviation graph := (graph_ainvoke monotonic client parse_json dump_context dump_blue dump_red dump_verdict settings).

(** The value is what the node's model wrote, read strictly. *)
Definition replied {A} (node : Node) (validate : json → option A) (a : A) : Prop :=
  ∃ n prompt tokens timeout raw,
    client node n prompt tokens timeout = Text raw ∧ parse_json_model parse_json validate raw = Ok a.

Lemma call_inv node prompt tokens budget s w raw w' :
  _call monotonic client settings node prompt tokens budget s w = (Ok raw, w') →
  ∃ n timeout, client node n prompt tokens timeout = Text raw.
Proof.
  unfold _call. intros H. m_step H; [|done].
  case_match; [done|]. m_step H; [|done]. unfold ainvoke in *. injection E0 as <- <-.
  case_match; [|done|done]. injection H as <- <-. eauto.
Qed.

(** A node that calls its model and reads the reply, or falls back. *)
Lemma ask_returns {A} (P : A → Prop) node prompt tokens budget s (validate : json → option A) (h : exn → A) w :
  (∀ a, replied node validate a → P a) → (∀ e, P (h e)) →
  returns P (except_failure
    (raw ← _call monotonic client settings node prompt tokens budget s;
     lift (parse_json_model parse_json validate raw)) (λ e, mret (h e)) w).1.
Proof.
  intros Hf Hh. apply except_failure_returns; [|done]. intros a w' H. m_step H; [|done].
  apply Hf. apply call_inv in E as (n & timeout & E). unfold lift in H. injection H as Hp _.
  unfold replied. eauto 10.
Qed.

(** The parts of the state no node touches. *)
Definition same_input (s0 s : DebateState) : Prop :=
  market_context s = market_context s0 ∧ d_regime s = d_regime s0
  ∧ d_regime_confidence s = d_regime_confidence s0 ∧ precedents s = precedents s0
  ∧ precedents_status s = precedents_status s0.

Definition blue_done (s0 s : DebateState) : Prop :=
  same_input s0 s ∧ ∃ b, blue_thesis s = Some b ∧ (b_forced b = true ∨ replied Blue validate_blue b).
Definition red_done (s0 s : DebateState) : Prop :=
  blue_done s0 s ∧ ∃ r, red_challenge s = Some r
  ∧ (r_forced r = true ∨ replied Red validate_red r ∧ _blue_unusable (blue_thesis s) = false).
Definition judge_done (s0 s : DebateState) : Prop :=
  red_done s0 s ∧ ∃ v, judge_verdict s = Some v
  ∧ (v = default_abstain
     ∨ ∃ r v0, red_challenge s = Some r ∧ replied Judge validate_verdict v0
       ∧ v = (if r_forced r then _cap_degraded settings v0 else v0) ∧ _blue_unusable (blue_thesis s) = false).

Lemma blue_step_done s0 w : returns (blue_done s0) (blue_step s0 w).1.
Proof.
  unfold _blue_step. apply (returns_bind (λ _, True)); [by destruct (debate_started_at s0)|].
  intros started w1 _. destruct (format_ok _ _ (blue_prompt_ok (dump_context (market_context s0))
    (regime_value (d_regime s0)) (repr_float (d_regime_confidence s0)))) as [p ->].
  apply (returns_bind (λ _, True)); [done|]. intros p' w2 _.
  apply (returns_bind (λ b, b_forced b = true ∨ replied Blue validate_blue b)).
  - apply ask_returns; [by right|by left].
  - intros b w3 Hb. cbn. split; [done|]. eauto.
Qed.

Lemma red_step_done s0 s w : blue_done s0 s → returns (red_done s0) (red_step s w).1.
Proof.
  intros (Hsame & b & Eb & Hb). unfold _red_step. rewrite Eb.
  destruct (_blue_unusable (Some b)) eqn:Eu.
  { cbn. split; [split; [done|]; by eauto|]. eexists. split; [done|by left]. }
  destruct (format_ok _ _ (red_prompt_ok (wrap_untrusted (u "blue") (dump_blue b)) (regime_value (d_regime s)))) as [p ->].
  apply (returns_bind (λ _, True)); [done|]. intros p' w2 _.
  apply (returns_bind (λ r, r_forced r = true ∨ replied Red validate_red r)).
  - apply ask_returns; [by right|by left].
  - intros r w3 Hr. cbn. split; [split; [done|]; by eauto|]. exists r. split; [done|]. cbn. rewrite Eb, Eu. tauto.
Qed.

Lemma judge_step_done s0 s w : red_done s0 s → returns (judge_done s0) (judge_step s w).1.
Proof.
  intros Hred. pose proof Hred as ((Hsame & b & Eb & Hb) & r & Er & Hr). unfold _judge_step. rewrite Eb, Er.
  destruct (_blue_unusable (Some b)) eqn:Eu.
  { cbn. split; [exact Hred|]. eexists. split; [done|by left]. }
  destruct (format_ok _ _ (judge_prompt_ok (wrap_untrusted (u "blue") (dump_blue b))
    (wrap_untrusted (u "red") (dump_red r)) (regime_value (d_regime s)) (repr_float (d_regime_confidence s)))) as [p ->].
  apply (returns_bind (λ _, True)); [done|]. intros p' w2 _.
  apply (returns_bind (λ v, v = default_abstain ∨ ∃ v0, replied Judge validate_verdict v0
    ∧ v = if r_forced r then _cap_degraded settings v0 else v0)).
  - apply except_failure_returns; [|by left]. intros v w' H. m_step H; [|done]. m_step H; [|done].
    apply call_inv in E as (n & timeout & E). unfold lift in E0. injection E0 as Hp _.
    right. exists a0. split; [unfold replied; eauto 10|]. by injection H as <- _.
  - intros v w3 Hv. cbn. split; [exact Hred|]. exists v. split; [done|]. cbn. rewrite Eb, Eu.
    destruct Hv as [->|(v0 & ? & ?)]; [by left|]. right. by exists r, v0.
Qed.

Lemma compression_step_done s0 s w : judge_done s0 s → returns (judge_done s0) (compression_step s w).1.
Proof.
  intros H. pose proof H as (((Hsame & b & Eb & Hb) & r & Er & Hr) & v & Ev & Hv).
  unfold _compression_step. rewrite Eb, Er, Ev.
  destruct (format_ok _ _ (compression_prompt_ok (str_of_Z (compression_max_tokens settings))
    (wrap_untrusted (u "blue") (dump_blue b)) (wrap_untrusted (u "red") (dump_red r))
    (wrap_untrusted (u "judge") (dump_verdict v)))) as [p ->].
  apply (returns_bind (λ _, True)); [done|]. intros p' w2 _.
  apply (returns_bind (λ _, True)); [by apply except_failure_returns|]. intros t w3 _. exact H.
Qed.

Lemma graph_done s0 w : returns (judge_done s0) (graph s0 w).1.
Proof.
  unfold graph_ainvoke. eapply returns_bind; [apply blue_step_done|]. intros s1 w1 H1.
  eapply returns_bind; [by apply red_step_done|]. intros s2 w2 H2.
  eapply returns_bind; [by apply judge_step_done|]. intros s3 w3 H3. by apply compression_step_done.
Qed.

(** ** A degraded debate *)

Lemma threshold_facts :
  settings_ok settings = true →
  is_finite_float (omega_threshold settings) = true ∧ float_leb (FFin (2 ^ 52) (-53)) (omega_threshold settings) = true
  ∧ float_leb (omega_threshold settings) f1 = true ∧ nonneg (omega_threshold settings).
Proof.
  unfold settings_ok, settings_fields_ok. rewrite !andb_true_iff. intros H. destruct_and!.
  change OMEGA_THRESHOLD_FLOOR with (FFin (2 ^ 52) (-53)) in *.
  assert (Hone : float_leb (omega_threshold settings) f1 = true)
    by (by apply (float_le_trans _ (fl "1.0"))).
  split; [done|]. split; [done|]. split; [exact Hone|]. apply unit_nonneg; [done| |exact Hone].
  by apply (float_le_trans _ (FFin (2 ^ 52) (-53))).
Qed.

Lemma half_nonneg : nonneg (FFin (2 ^ 52) (-53)).
Proof.
  split; [by vm_compute|]. intros K. unfold sc. pose proof (Z.pow_nonneg 2 (K + -53)). lia.
Qed.

(** The cap lies strictly below the threshold, so a capped verdict does too. *)
Lemma cap_below v :
  settings_ok settings = true → verdict_valid v →
  verdict_valid (_cap_degraded settings v)
  ∧ float_ltb (omega (_cap_degraded settings v)) (omega_threshold settings) = true.
Proof.
  intros Hs Hv. destruct (threshold_facts Hs) as (Hf & Hhalf & Hone & Hnn).
  pose proof (half_below _ (proj1 Hnn) Hhalf) as Hlt.
  set (cap := float_mul (omega_threshold settings) (FFin (2 ^ 52) (-53))) in *.
  assert (Hcap : nonneg cap) by (apply mul_unit_nonneg; [exact Hnn|exact Hone|exact half_nonneg]).
  unfold _cap_degraded. change (float_mul (omega_threshold settings) DEGRADED_OMEGA_FACTOR) with cap.
  destruct Hv as [Hok Hr]. pose proof Hok as Hok'. unfold verdict_ok, UnitFloat in Hok. rewrite !andb_true_iff in Hok.
  destruct_and!. pose proof (in_range_finite _ (proj1 Hcap)) as Hfin.
  destruct (float_leb (omega v) cap) eqn:E.
  - split; [by split|]. by apply (float_le_lt_trans _ cap).
  - split; [|exact Hlt]. destruct Hr as (_ & ? & ? & ? & ?). split.
    + unfold verdict_ok, UnitFloat. cbn. rewrite !andb_true_iff. ands; try done; [by apply nonneg_leb|].
      apply (float_le_trans _ (omega_threshold settings)); try done. by apply float_lt_le.
    + unfold verdict_in_range. cbn. ands; try done. apply Hcap.
Qed.

Lemma parse_inv {A} (validate : json → option A) raw a :
  parse_json_model parse_json validate raw = Ok a → ∃ v, validate v = Some a.
Proof.
  unfold parse_json_model. case_match; [done|]. destruct (parse_json _) as [v|]; [|done]. cbn.
  destruct (validate v) eqn:E; [|done]. intros [= <-]. eauto.
Qed.

Lemma judge_done_valid s0 s : settings_ok settings = true → state_valid s0 → judge_done s0 s → state_valid s.
Proof.
  intros Hs [Hc Hr _] (((Hsame & _) & _) & v & Ev & Hv). destruct Hsame as (E1 & _ & E2 & _).
  split; [by rewrite E1|by rewrite E2|]. intros v' Ev'. rewrite Ev in Ev'. injection Ev' as <-.
  destruct Hv as [->|(r & v0 & _ & Hrep & -> & _)]; [exact default_abstain_valid|].
  destruct Hrep as (n & p & t & tm & raw & _ & Hp). apply parse_inv in Hp as (j & Hj).
  apply validate_verdict_valid in Hj. destruct (r_forced r); [by apply cap_below|done].
Qed.

Context (expired : bool) (library : option exn) (new_id : pystr) (created : Z).
Context (sizer : option (pyfloat → pyfloat → pyfloat → result pyfloat)).

#[local] Abbreviation debate := (run_debate_with_state monotonic client parse_json dump_context dump_blue dump_red dump_verdict
  settings expired library new_id created).

(** The quantity a debate that ended in [final] is converted with. *)
Definition chosen_quantity (given : pyfloat) (final : DebateState) : pyfloat :=
  match sizer with Some sz => _sized_quantity sz final | None => given end.

Lemma under_deadline_done s0 w :
  match (graph_under_deadline monotonic client parse_json dump_context dump_blue dump_red dump_verdict settings
           expired library s0 w).1 with
  | Ok s => judge_done s0 s | Raise _ => True end.
Proof.
  unfold graph_under_deadline, catch_all. unfold mbind at 1, M_bind at 1.
  pose proof (graph_done s0 w) as H. destruct (graph s0 w) as [[s|e] w1]; cbn in H |- *; [|by destruct (_ && expired)].
  destruct library; cbn; [by destruct (_ && expired)|done].
Qed.

(** The debate ended with all four nodes, or it was aborted, or cancelled. *)
Lemma debate_inv s0 given w r w' :
  debate s0 given sizer w = (r, w') →
  (∃ final, judge_done s0 final
   ∧ r = (sig ← to_trade_signal new_id created final settings (chosen_quantity given final); Ok (sig, Some final)))
  ∨ (∃ name, r = (sig ← abstain_signal new_id created s0 settings
                     (u "debate aborted (" ++ name ++ u ") - abstain"); Ok (sig, None)))
  ∨ (∃ e, exn_kind e = CancelledError ∧ r = Raise e).
Proof.
  unfold run_debate_with_state. intros H. m_step H.
  2: { subst r. apply except_failure_inv in E as [(? & _ & [=])|[(e1 & _ & He & [= <-])|(e1 & w2 & _ & _ & [=])]]. eauto 10. }
  apply except_failure_inv in E as [(x & E & [= ->])|[(? & _ & _ & [=])|(e1 & w2 & _ & _ & [= <- <-])]].
  - m_step E; [|done]. injection E as <- <-. rename a into final. left. exists final.
    pose proof (under_deadline_done s0 w) as Hd. rewrite E0 in Hd. split; [exact Hd|].
    cbn in H. fold (chosen_quantity given final) in H. unfold lift, mbind, M_bind in H. cbn in H.
    destruct (to_trade_signal _ _ _ _ _); cbn in H |- *; by injection H as <- <-.
  - right. left. exists (exn_name (exn_kind e1)). cbn in H. unfold lift, mbind, M_bind in H. cbn in H.
    destruct (abstain_signal _ _ _ _ _); cbn in H |- *; by injection H as <- <-.
Qed.

(** ** What a trade presupposes *)

(** A whole debate behind a signal: Blue, Red and Judge each answered, each answer was read strictly,
    none was forced or defaulted, the Judge's confidence reaches the threshold, its expected value
    is positive, it names a side, and the quantity is a positive finite number. The signal says what
    the Judge said. *)
Definition whole_debate (given : pyfloat) (sig : TradeSignal) (st : option DebateState) : Prop :=
  ∃ final blue red v,
    st = Some final ∧ blue_thesis final = Some blue ∧ red_challenge final = Some red ∧ judge_verdict final = Some v
    ∧ replied Blue validate_blue blue ∧ b_forced blue = false
    ∧ replied Red validate_red red ∧ r_forced red = false
    ∧ replied Judge validate_verdict v ∧ defaulted_abstain v = false
    ∧ float_ltb (omega v) (omega_threshold settings) = false
    ∧ float_leb (expected_value v) f0 = false
    ∧ v_side v ≠ SIDE_UNKNOWN ∧ side sig = v_side v ∧ sig_omega sig = omega v
    ∧ quantity sig = chosen_quantity given final
    ∧ is_finite_float (quantity sig) = true ∧ float_leb (quantity sig) f0 = false.

(** A signal that may trade comes from a whole debate, about the symbol it started from. *)
Theorem trade_needs_whole_debate s0 given w sig st w' :
  debate s0 given sizer w = (Ok (sig, st), w') → status sig = SIGNAL_PENDING →
  whole_debate given sig st ∧ sig_symbol sig = symbol (market_context s0).
Proof.
  intros H Hst. apply debate_inv in H as [(final & Hd & Hr)|[(name & Hr)|(e & _ & [=])]].
  2: { symmetry in Hr. apply bind_ok in Hr as (x & Hx & [= <- <-]). unfold abstain_signal in Hx.
       apply signal_built_inv in Hx as [Hx _]. destruct Hx as (_ & _ & _ & _ & _ & _ & _ & _ & _ & _ & Hx). by rewrite Hx in Hst. }
  symmetry in Hr. apply bind_ok in Hr as (x & Hx & [= <- <-]).
  destruct Hd as (((Hsame & b & Eb & Hb) & r & Er & Hr) & v & Ev & Hv).
  unfold to_trade_signal in Hx. rewrite Ev in Hx.
  destruct (abstain_reasons final v settings (chosen_quantity given final)) eqn:Ereasons.
  2: { apply signal_built_inv in Hx as [(_ & _ & _ & _ & _ & _ & _ & _ & _ & _ & Hx) _]. by rewrite Hx in Hst. }
  apply signal_built_inv in Hx as [(_ & Hsym & _ & Hside & Hq & Hom & _) _].
  apply reasons_tradable in Ereasons as ((b' & r' & Eb' & Er' & Hbf & Hrf) & Hdef & Hthr & (Hs1 & Hq1 & Hq2) & Hev).
  rewrite Eb in Eb'. injection Eb' as <-. rewrite Er in Er'. injection Er' as <-.
  destruct Hsame as (Hctx & _). split; [|by rewrite Hsym, Hctx]. exists final, b, r, v. rewrite Hq, Hside, Hom.
  destruct Hb as [Hb|Hb]; [by rewrite Hb in Hbf|]. destruct Hr as [Hr|[Hr _]]; [by rewrite Hr in Hrf|].
  destruct Hv as [->|(r' & v0 & Er' & Hrep & Hv & _)]; [done|].
  rewrite Er in Er'. injection Er' as <-. rewrite Hrf in Hv. subst v0.
  repeat match goal with |- _ ∧ _ => split; [assumption || reflexivity|] end. assumption.
Qed.

(** A debate trades or abstains, about the symbol it started from. *)
Lemma debate_trades_or_abstains s0 given w sig st w' :
  debate s0 given sizer w = (Ok (sig, st), w') →
  sig_symbol sig = symbol (market_context s0)
  ∧ (status sig = SIGNAL_ABSTAIN ∨ status sig = SIGNAL_PENDING ∧ whole_debate given sig st).
Proof.
  intros H.
  assert (sig_symbol sig = symbol (market_context s0) ∧ (status sig = SIGNAL_ABSTAIN ∨ status sig = SIGNAL_PENDING)) as [Hsym Hst].
  { apply debate_inv in H as [(final & Hd & Hr)|[(name & Hr)|(e & _ & [=])]];
      symmetry in Hr; apply bind_ok in Hr as (x & Hx & [= <- <-]).
    - destruct Hd as ((((Hctx & _) & _) & _) & v & Ev & _). unfold to_trade_signal in Hx. rewrite Ev in Hx.
      destruct (abstain_reasons _ _ _ _); apply signal_built_inv in Hx as [(_ & Hs & _ & _ & _ & _ & _ & _ & _ & _ & Hx) _];
        rewrite Hs, Hctx, Hx; auto.
    - unfold abstain_signal in Hx. apply signal_built_inv in Hx as [(_ & Hs & _ & _ & _ & _ & _ & _ & _ & _ & Hx) _].
      rewrite Hs, Hx. auto. }
  split; [done|]. destruct Hst as [?|Hst]; [by left|]. right. split; [done|].
  exact (proj1 (trade_needs_whole_debate _ _ _ _ _ _ H Hst)).
Qed.

(** C27: A debate always ends in a signal that meets every invariant of [TradeSignal]; only a
    cancellation of the task passes through. No reply, no failure of a model, of the graph library
    or of the sizer, and no deadline, makes it raise. The settings and the state it starts from
    are those their validators accept, the new id is not empty and the clock not negative. *)
Theorem debate_always_answers s0 given w :
  settings_ok settings = true → state_valid s0 → new_id ≠ [] → 0 <= created →
  returns (λ '(sig, _), signal_fields_ok sig = true ∧ _signal_invariants sig = true
                        ∧ status sig ∈ [SIGNAL_PENDING; SIGNAL_ABSTAIN]
                        ∧ valid_until_ns sig = created + signal_ttl_ms settings * NS_PER_MS)
          (debate s0 given sizer w).1.
Proof.
  intros Hs Hv Hid Hc. destruct (debate s0 given sizer w) as [r w'] eqn:E. cbn.
  assert (Hbuilt : ∀ state verdict act q x, _build new_id state verdict settings act q created = Ok x →
    signal_fields_ok x = true ∧ _signal_invariants x = true ∧ status x ∈ [SIGNAL_PENDING; SIGNAL_ABSTAIN]
    ∧ valid_until_ns x = created + signal_ttl_ms settings * NS_PER_MS).
  { intros state verdict act q x Hx. apply signal_built_inv in Hx as [(_ & _ & _ & _ & _ & _ & _ & _ & Hvu & _ & Hst) [? ?]].
    ands; try done. rewrite Hst. destruct act; set_solver. }
  apply debate_inv in E as [(final & Hd & ->)|[(name & ->)|(e & He & ->)]]; [| |done].
  - destruct (to_trade_signal_total new_id created final settings (chosen_quantity given final)) as [x Hx];
      [done|by eapply judge_done_valid|done|done|]. rewrite Hx. cbn.
    unfold to_trade_signal in Hx. case_match; by eapply Hbuilt.
  - destruct (build_total new_id (set_summary (u "debate aborted (" ++ name ++ u ") - abstain") s0) default_abstain
      settings false f0 created) as [x Hx]; [done|by destruct Hv; split|exact default_abstain_valid|done|done|done|].
    unfold abstain_signal. unfold set_summary in Hx. rewrite Hx. cbn. by eapply Hbuilt.
Qed.

(** A degraded debate never trades: when Blue or Red was forced (or Blue had no side), the
    verdict's confidence is strictly below the threshold, whatever the Judge replied, and the
    signal abstains. *)
Theorem degraded_debate_abstains s0 given w sig final w' :
  settings_ok settings = true → debate s0 given sizer w = (Ok (sig, Some final), w') →
  _blue_unusable (blue_thesis final) = true ∨ (∃ r, red_challenge final = Some r ∧ r_forced r = true) →
  status sig = SIGNAL_ABSTAIN ∧ side sig = SIDE_UNKNOWN ∧ quantity sig = f0
  ∧ ∃ v, judge_verdict final = Some v ∧ float_ltb (omega v) (omega_threshold settings) = true.
Proof.
  intros Hs H Hdeg. apply debate_inv in H as [(x & Hd & Hr)|[(name & Hr)|(e & _ & [=])]].
  2: { symmetry in Hr. by apply bind_ok in Hr as (? & _ & [=]). }
  symmetry in Hr. apply bind_ok in Hr as (y & Hy & [= <- <-]).
  destruct Hd as (((_ & b & Eb & _) & r & Er & _) & v & Ev & Hv).
  assert (Hlow : float_ltb (omega v) (omega_threshold settings) = true).
  { destruct (threshold_facts Hs) as (Hf & Hhalf & _ & _). destruct Hv as [->|(r' & v0 & Er' & Hrep & -> & Hu)].
    - by apply (float_lt_le_trans _ (FFin (2 ^ 52) (-53))).
    - destruct Hdeg as [Hdeg|(r'' & Er'' & Hforced)]; [congruence|].
      assert (r' = r'') as -> by congruence. rewrite Hforced. apply cap_below; [done|].
      destruct Hrep as (n & p & t & tm & raw & _ & Hp). apply parse_inv in Hp as (j & Hj).
      by eapply validate_verdict_valid. }
  unfold to_trade_signal in Hy. rewrite Ev in Hy. 
  destruct (abstain_reasons x v settings (chosen_quantity given x)) eqn:Er2.
  { apply reasons_tradable in Er2 as (_ & _ & Hthr & _). by rewrite Hthr in Hlow. }
  apply signal_built_inv in Hy as [(_ & _ & _ & Hside & Hq & _ & _ & _ & _ & _ & Hst) _]. eauto 10.
Qed.

(** ** The calls a debate makes *)

Definition node_budget (node : Node) : pyfloat :=
  match node with
  | Blue => blue_latency_budget_s settings | Red => red_latency_budget_s settings
  | Judge => judge_latency_budget_s settings | Compression => compression_latency_budget_s settings
  | Reflector => reflector_timeout_s settings
  end.
Definition node_tokens (node : Node) : Z :=
  match node with
  | Blue | Red => blue_red_max_tokens settings | Judge => judge_max_tokens settings
  | Compression => compression_max_tokens settings | Reflector => reflector_max_tokens settings
  end.
Definition bounded (c : Call) : Prop :=
  c_max_tokens c = node_tokens (c_node c) ∧ float_leb (c_timeout c) f0 = false
  ∧ float_leb (c_timeout c) (node_budget (c_node c)) = true.

(** The computation calls at most these nodes, in this order, within their bounds. *)
Definition emits {A} (nodes : list Node) (m : M World A) : Prop :=
  ∀ w, ∃ new, calls (m w).2 = calls w ++ new ∧ sublist (c_node <$> new) nodes ∧ Forall bounded new.

Lemma emits_quiet {A} (m : M World A) : (∀ w, calls (m w).2 = calls w) → emits [] m.
Proof. intros H w. exists []. rewrite H, app_nil_r. by ands. Qed.
Lemma emits_weaken {A} ns ns' (m : M World A) : sublist ns ns' → emits ns m → emits ns' m.
Proof. intros Hs H w. destruct (H w) as (new & ? & ? & ?). exists new. ands; [done|by etransitivity|done]. Qed.
Lemma emits_bind {A B} ns1 ns2 (m : M World A) (f : A → M World B) :
  emits ns1 m → (∀ a, emits ns2 (f a)) → emits (ns1 ++ ns2) (m ≫= f).
Proof.
  intros Hm Hf w. destruct (Hm w) as (n1 & E1 & S1 & B1). unfold mbind, M_bind.
  destruct (m w) as [[a|e] w1]; cbn in E1 |- *.
  - destruct (Hf a w1) as (n2 & E2 & S2 & B2). exists (n1 ++ n2). rewrite E2, E1, fmap_app, app_assoc.
    ands; [done|by apply sublist_app|by apply Forall_app].
  - exists n1. ands; [done|by apply sublist_inserts_r|done].
Qed.
Lemma emits_then {A B} ns (m : M World A) (f : A → M World B) :
  (∀ w, calls (m w).2 = calls w) → (∀ a, emits ns (f a)) → emits ns (m ≫= f).
Proof. intros Hm Hf. by apply (emits_bind [] ns); [apply emits_quiet|]. Qed.
Lemma emits_ret_bind {A B} ns (m : M World A) (f : A → B) : emits ns m → emits ns (a ← m; mret (f a)).
Proof. intros H. rewrite <- (app_nil_r ns). apply emits_bind; [done|]. intros a. by apply emits_quiet. Qed.
Lemma emits_except {A} ns (m : M World A) (h : exn → A) : emits ns m → emits ns (except_failure m (λ e, mret (h e))).
Proof.
  intros H w. destruct (H w) as (new & E & S & B). unfold except_failure, catch_all.
  destruct (m w) as [[a|e] w1]; cbn in E |- *; [by exists new|].
  case_bool_decide; cbn; by exists new.
Qed.

Lemma emits_call node prompt s :
  is_finite_float (node_budget node) = true →
  emits [node] (_call monotonic client settings node prompt (node_tokens node) (node_budget node) s).
Proof.
  intros Hb. unfold _call. apply emits_then.
  { intros w. unfold _remaining_s. by destruct (debate_started_at s). }
  intros remaining w. destruct (float_leb _ f0) eqn:Ez; [exists []; by rewrite app_nil_r; ands; try done; apply sublist_nil_l|].
  exists [mkCall node prompt (node_tokens node) (float_min (node_budget node) remaining)]. ands.
  - unfold ainvoke, mbind, M_bind. cbn. by case_match.
  - done.
  - constructor; [|done]. split; [done|]. split; [done|]. cbn. unfold float_min. case_match eqn:E.
    + unfold float_leb. by rewrite E.
    + rewrite float_leb_gt by done. destruct (finite_at_exp _ Hb) as (K & _ & Hat).
      rewrite (float_ltb_sc K) by (apply Hat; lia). by rewrite Z.ltb_irrefl.
Qed.

Lemma budget_finite node : settings_ok settings = true → is_finite_float (node_budget node) = true.
Proof.
  unfold settings_ok, settings_fields_ok, PositiveSeconds, within_open. rewrite !andb_true_iff. intros H.
  destruct_and!. by destruct node.
Qed.

Section ordered.
Context (Hs : settings_ok settings = true).

Lemma emits_ask {A} node prompt s (validate : pystr → result A) (h : exn → A) :
  emits [node] (except_failure
    (raw ← _call monotonic client settings node prompt (node_tokens node) (node_budget node) s; lift (validate raw))
    (λ e, mret (h e))).
Proof.
  apply emits_except. apply (emits_bind [node] []); [by apply emits_call, budget_finite|].
  intros raw. by apply emits_quiet.
Qed.

Lemma blue_emits s : emits [Blue] (blue_step s).
Proof.
  unfold _blue_step. apply emits_then; [by intros w; destruct (debate_started_at s)|]. intros started.
  apply emits_then; [done|]. intros p. apply (emits_ret_bind [Blue]).
  apply (emits_ask Blue p _ (parse_json_model parse_json validate_blue) (λ e, forced_blue (exn_name (exn_kind e)))).
Qed.
Lemma red_emits s : emits [Red] (red_step s).
Proof.
  unfold _red_step. destruct (blue_thesis s) as [b|]; [|by apply (emits_weaken []); [apply sublist_nil_l|apply emits_quiet]].
  destruct (_blue_unusable _); [by apply (emits_weaken []); [apply sublist_nil_l|apply emits_quiet]|].
  apply emits_then; [done|]. intros p. apply (emits_ret_bind [Red]).
  apply (emits_ask Red _ _ (parse_json_model parse_json validate_red) (λ e, forced_red (exn_name (exn_kind e)))).
Qed.
Lemma judge_emits s : emits [Judge] (judge_step s).
Proof.
  unfold _judge_step. destruct (blue_thesis s) as [b|]; [|by apply (emits_weaken []); [apply sublist_nil_l|apply emits_quiet]].
  destruct (red_challenge s) as [r|]; [|by apply (emits_weaken []); [apply sublist_nil_l|apply emits_quiet]].
  destruct (_blue_unusable _); [by apply (emits_weaken []); [apply sublist_nil_l|apply emits_quiet]|].
  apply emits_then; [done|]. intros p. apply (emits_ret_bind [Judge]). apply (emits_except [Judge] _ (λ _, default_abstain)).
  apply (emits_bind [Judge] []); [by apply (emits_call Judge), budget_finite|]. intros raw.
  apply emits_then; [done|]. intros v. by apply emits_quiet.
Qed.
Lemma compression_emits s : emits [Compression] (compression_step s).
Proof.
  unfold _compression_step.
  assert (Hq : ∀ t, emits [Compression] (mret (M := M World) (set_summary t s)))
    by (intros t; apply (emits_weaken []); [apply sublist_nil_l|by apply emits_quiet]).
  destruct (blue_thesis s), (red_challenge s), (judge_verdict s); try apply Hq.
  apply emits_then; [done|]. intros p. apply (emits_ret_bind [Compression]).
  apply (emits_except [Compression] _ (λ _, _fallback_summary settings s)).
  apply (emits_bind [Compression] []); [by apply (emits_call Compression), budget_finite|]. intros t.
  apply emits_quiet. intros w. by case_bool_decide.
Qed.

Lemma graph_emits s : emits [Blue; Red; Judge; Compression] (graph s).
Proof.
  unfold graph_ainvoke. apply (emits_bind [Blue]); [apply blue_emits|]. intros s1.
  apply (emits_bind [Red]); [apply red_emits|]. intros s2.
  apply (emits_bind [Judge] [Compression]); [apply judge_emits|]. intros s3. apply compression_emits.
Qed.

(** However it ends, a debate asks each model at most once, in the order Blue, Red, Judge,
    Compression, with the node's own token budget and a time limit that is positive and within the
    node's latency budget. *)
Theorem debate_calls_bounded s0 given w :
  ∃ new, calls (debate s0 given sizer w).2 = calls w ++ new
  ∧ sublist (c_node <$> new) [Blue; Red; Judge; Compression] ∧ Forall bounded new.
Proof.
  revert w. change (emits [Blue; Red; Judge; Compression] (debate s0 given sizer)).
  unfold run_debate_with_state. rewrite <- (app_nil_r [Blue; Red; Judge; Compression]). apply emits_bind.
  - apply (emits_except _ _ (λ e, inr (exn_name (exn_kind e)))). apply emits_ret_bind.
    intros w. destruct (graph_emits s0 w) as (new & E & S & B). exists new. rewrite <- E. ands; [|done|done].
    unfold graph_under_deadline, catch_all. unfold mbind at 1, M_bind at 1.
    destruct (graph s0 w) as [[s|e] w1]; [destruct library|]; cbn; try by destruct (_ && expired). done.
  - intros [final|name]; apply emits_quiet; intros w; cbn; unfold lift, mbind, M_bind; cbn;
      [by destruct (to_trade_signal _ _ _ _ _)|by destruct (abstain_signal _ _ _ _ _)].
Qed.
End ordered.
End facts.

(** Every proposal of the Reflector is a draft that needs a human and the whole promotion gate;
    any failure gives no proposal. *)
Section reflector_facts.
Context (client : Node → nat → pystr → Z → pyfloat → Reply) (parse_json : pystr → option json).
Context (dump_signal : TradeSignal → pystr) (settings : CognitiveSettings).

(** The Reflector returns a proposal only when its model's reply was a well-formed draft, and
    then in state DRAFT, requiring a human sign-off and all five stages in order; no failure of the
    model raises, it gives no proposal. *)
Theorem reflector_only_drafts new_id created sig outcome observed w :
  new_id ≠ [] → 0 <= created → signal_id sig ≠ [] → FiniteFloat (realised_pnl outcome) = true →
  returns (λ p, match p with
    | None => True
    | Some p => p_status p = u "DRAFT" ∧ requires_human_signoff p = true ∧ required_stages p = REQUIRED_STAGES
                ∧ trigger_signal_id p = signal_id sig
                ∧ ∃ d, replied client parse_json Reflector validate_draft d
                       ∧ p_proposed_change p = proposed_change d ∧ p_rationale p = draft_rationale d
    end)
    (build_rubric_change_proposal client parse_json dump_signal settings new_id created sig outcome observed w).1.
Proof.
  intros Hid Hc Hsid Hpnl. unfold build_rubric_change_proposal, reflector_prompt.
  match goal with |- context [str_format _ ?args] => destruct (format_ok REFLECTOR_SYSTEM_PROMPT args (reflector_prompt_ok _ _ _ _ _ _)) as [p ->] end.
  apply (returns_bind (λ _, True)); [done|]. intros p' w1 _.
  apply (returns_bind (λ d, match d with None => True | Some d => replied client parse_json Reflector validate_draft d end)).
  - apply (except_failure_returns _ _ (λ _, None)); [|done]. intros d w' H. m_step H; [|done].
    unfold ainvoke in E. injection E as E <-. destruct a as [raw| |]; [|done|done]. m_step H; [|done].
    injection H as <- <-. unfold lift in E0. injection E0 as Hp _. unfold replied. eauto 10.
  - intros [d|] w2 Hd; [|done].
    assert (Hok : min_length 1 (proposed_change d) && max_length 4000 (proposed_change d) = true
                  ∧ min_length 1 (draft_rationale d) && max_length 4000 (draft_rationale d) = true).
    { destruct Hd as (n & pr & t & tm & raw & _ & Hp). apply parse_inv in Hp as (j & Hj).
      destruct j as [| | | | | |m]; try done. cbn in Hj. destruct (only_keys m _); [|done].
      apply bind_Some in Hj as (x & Hx & Hj). apply bind_Some in Hj as (y & Hy & [= <-]).
      apply required_inv in Hx as (jx & _ & Hx). apply required_inv in Hy as (jy & _ & Hy).
      unfold draft_text, checked in Hx, Hy. cbn [proposed_change draft_rationale].
      destruct (strict_str jx) as [x'|]; [|done]. destruct (strict_str jy) as [y'|]; [|done].
      destruct (min_length 1 x' && max_length 4000 x') eqn:E1; [|done]. injection Hx as <-.
      destruct (min_length 1 y' && max_length 4000 y') eqn:E2; [|done]. by injection Hy as <-. }
    destruct Hok as [[Ha Hb]%andb_true_iff [He Hf]%andb_true_iff].
    unfold make_proposal, proposal_ok. cbn -[min_length max_length FiniteFloat Z.leb].
    rewrite Ha, Hb, He, Hf, Hpnl. rewrite (proj2 (Z.leb_le 0 created)) by done.
    assert (Hm1 : min_length 1 new_id = true) by (by destruct new_id).
    assert (Hm2 : min_length 1 (signal_id sig) = true) by (by destruct (signal_id sig)).
    rewrite Hm1, Hm2. unfold lift, mbind, M_bind. cbn. ands; try done. by exists d.
Qed.
End reflector_facts.

(** ** A debate that trades *)

Definition settings_example : CognitiveSettings :=
  mkSettings (u "m") (u "m") (u "m") (u "m") (u "m") None None (fl "0.75") (fl "0.75") (fl "0.5") (fl "0.2") (fl "2.2")
    (fl "5.0") 4096 2048 200 1024 (fl "0.55") 2000.
Definition client_example (node : Node) (n : nat) (prompt : pystr) (tokens : Z) (timeout : pyfloat) : Reply :=
  Text (match node with
        | Blue => tx "{`side`: `BUY`, `rationale`: `momentum`}"
        | Red => tx "{`counter_factors`: [`crowded`]}"
        | Judge => tx "{`side`: `BUY`, `omega`: 0.7, `p_success`: 0.6, `p_failure`: 0.4, `reward_estimate`: 120.0, `risk_estimate`: 40.0}"
        | Compression => u "Buy."
        | Reflector => tx "{`proposed_change`: `c`, `rationale`: `r`}" end).
(** The same, with Red unreachable. *)
Definition client_degraded (node : Node) (n : nat) (prompt : pystr) (tokens : Z) (timeout : pyfloat) : Reply :=
  if bool_decide (node = Red) then Fails (Exn TimeoutError []) else client_example node n prompt tokens timeout.
Definition context_example : MarketContext :=
  mkMarketContext (u "AAPL") (fl "190.5") (fl "1.0") (fl "0.5") (fl "0.1") (fl "0.2") (fl "1e6").
Definition state_example : DebateState :=
  mkDebate context_example TRENDING_BULL (fl "0.8") [] none_configured None None None None None.
#[local] Abbreviation debate_example client :=
  (run_debate_with_state (λ _, f0) client loads (λ _, u "{}") (λ _, u "{}") (λ _, u "{}") (λ _, u "{}") settings_example
    false None (u "id-1") 1000 state_example f0 (Some (size sizer_example))).

Lemma state_example_valid : state_valid state_example.
Proof. split; [by vm_compute|by vm_compute|done]. Qed.

Example example_trades :
  match (debate_example client_example (mkWorld 0 [])).1 with
  | Ok (sig, _) => status sig = SIGNAL_PENDING ∧ side sig = BUY ∧ float_eqb (quantity sig) (fl "18") = true
                   ∧ debate_summary sig = u "Buy."
  | Raise _ => False end.
Proof. vm_compute. repeat split. Qed.
Example example_degraded :
  match (debate_example client_degraded (mkWorld 0 [])).1 with
  | Ok (sig, _) => status sig = SIGNAL_ABSTAIN ∧ float_eqb (sig_omega sig) (fl "0.275") = true
  | Raise _ => False end.
Proof. vm_compute. repeat split. Qed.

(** The value of a computation that is evaluated. *)
Lemma evaluates {A S} (x : result A * S) (P : A → bool) :
  match x.1 with Ok a => P a | Raise _ => false end = true → ∃ a s, x = (Ok a, s) ∧ P a = true.
Proof. destruct x as [[a|e] s]; cbn; [by eauto|done]. Qed.

Definition is_final (P : TradeSignal → DebateState → bool) (r : TradeSignal * option DebateState) : bool :=
  match r.2 with Some final => P r.1 final | None => false end.
Definition red_forced (s : DebateState) : bool := match red_challenge s with Some r => r_forced r | None => false end.
Lemma example_runs : ∃ r w', debate_example client_example (mkWorld 0 []) = (Ok r, w')
  ∧ is_final (λ sig _, bool_decide (status sig = SIGNAL_PENDING)) r = true.
Proof. apply evaluates. vm_compute. reflexivity. Qed.
Lemma degraded_runs : ∃ r w', debate_example client_degraded (mkWorld 0 []) = (Ok r, w')
  ∧ is_final (λ _ final, red_forced final) r = true.
Proof. apply evaluates. vm_compute. reflexivity. Qed.
Definition signal_example : TradeSignal :=
  mkTradeSignal (u "id-1") (u "AAPL") 1 BUY f1 f1 f1 f1 f0 f1 f1 f0 f0 f0 f0 CRISIS f1 (u "s") f0 2 SIGNAL_PENDING.
#[local] Abbreviation reflector_example :=
  (build_rubric_change_proposal client_example loads (λ _, u "{}") settings_example (u "p-1") 5 signal_example
    (mkOutcome (fl "-12.5") CRISIS []) (u "drawdown")).
Lemma reflector_runs : ∃ r w', reflector_example (mkWorld 0 []) = (Ok r, w') ∧ bool_decide (is_Some r) = true.
Proof. apply evaluates. vm_compute. reflexivity. Qed.
Lemma settings_example_ok : settings_ok settings_example = true.
Proof. vm_compute. reflexivity. Qed.

Lemma trade_needs_whole_debate_witness :
  ∃ sig st w', debate_example client_example (mkWorld 0 []) = (Ok (sig, st), w') ∧ status sig = SIGNAL_PENDING
  ∧ ∃ final v, st = Some final ∧ judge_verdict final = Some v ∧ side sig = v_side v.
Proof.
  destruct example_runs as ([sig st] & w' & E & Hst). exists sig, st, w'.
  destruct st as [final|]; [|discriminate Hst]. apply bool_decide_eq_true in Hst. cbn [fst snd] in Hst.
  split; [exact E|]. split; [exact Hst|].
  destruct (trade_needs_whole_debate _ _ _ _ _ _ _ _ _ _ _ _ _ _ _ _ _ _ _ E Hst)
    as ((x & b & r & v & H1 & H2 & H3 & H4 & H5 & H6 & H7 & H8 & H9 & H10 & H11 & H12 & H13 & H14 & _) & _).
  exists x, v. split; [exact H1|]. split; [exact H4|exact H14].
Defined.

Lemma debate_always_answers_witness :
  settings_ok settings_example = true
  ∧ returns (λ '(sig, _), signal_fields_ok sig = true ∧ _signal_invariants sig = true
                          ∧ status sig ∈ [SIGNAL_PENDING; SIGNAL_ABSTAIN]
                          ∧ valid_until_ns sig = 1000 + signal_ttl_ms settings_example * NS_PER_MS)
      (debate_example client_degraded (mkWorld 0 [])).1.
Proof.
  split; [exact settings_example_ok|].
  exact (debate_always_answers (λ _, f0) client_degraded loads (λ _, u "{}") (λ _, u "{}") (λ _, u "{}") (λ _, u "{}")
           settings_example false None (u "id-1") 1000 (Some (size sizer_example)) state_example f0 (mkWorld 0 [])
           settings_example_ok state_example_valid ltac:(discriminate) ltac:(lia)).
Defined.

Lemma degraded_debate_abstains_witness :
  ∃ sig final w', debate_example client_degraded (mkWorld 0 []) = (Ok (sig, Some final), w')
  ∧ status sig = SIGNAL_ABSTAIN.
Proof.
  destruct degraded_runs as ([sig [final|]] & w' & E & Hr); [|discriminate Hr].
  exists sig, final, w'. split; [exact E|]. unfold is_final, red_forced in Hr. cbn in Hr.
  refine (proj1 (degraded_debate_abstains _ _ _ _ _ _ _ _ _ _ _ _ _ _ _ _ _ _ _ settings_example_ok E _)).
  right. destruct (red_challenge final) as [r|]; [|discriminate Hr]. exists r. split; [reflexivity|exact Hr].
Defined.

Lemma debate_calls_bounded_witness :
  settings_ok settings_example = true
  ∧ ∃ new, calls (debate_example client_degraded (mkWorld 0 [])).2 = [] ++ new
    ∧ sublist (c_node <$> new) [Blue; Red; Judge; Compression].
Proof.
  split; [exact settings_example_ok|].
  destruct (debate_calls_bounded (λ _, f0) client_degraded loads (λ _, u "{}") (λ _, u "{}") (λ _, u "{}") (λ _, u "{}")
    settings_example false None (u "id-1") 1000 (Some (size sizer_example))
    settings_example_ok state_example f0 (mkWorld 0 [])) as (new & H1 & H2 & _).
  exists new. split; [exact H1|exact H2].
Defined.

Lemma reflector_only_drafts_witness :
  ∃ p w', reflector_example (mkWorld 0 []) = (Ok (Some p), w') ∧ p_status p = u "DRAFT" ∧ requires_human_signoff p = true.
Proof.
  destruct reflector_runs as ([p|] & w' & E & H); [|discriminate H]. exists p, w'. split; [exact E|].
  pose proof (reflector_only_drafts client_example loads (λ _, u "{}") settings_example (u "p-1") 5 signal_example
    (mkOutcome (fl "-12.5") CRISIS []) (u "drawdown") (mkWorld 0 []) ltac:(discriminate) ltac:(lia) ltac:(discriminate)
    ltac:(vm_compute; reflexivity)) as Ht.
 rewrite E in Ht. cbn in Ht. split; apply Ht.
Defined.
