(* ===== verification/CogContext.v ===== *)
(** * Cognitive core: snapshots and memory ([context.py], [memory.py])

    A snapshot message becomes the input of a debate only if everything about it can be trusted;
    precedents are recalled from, and finished debates written to, an optional store that is allowed
    to fail. *)
From S2P Require Import Prelude PyStr PyDecimal PyFloat PyFloatFacts Json PyRepr CogModels CogConfig CogSizing CogSignal.

(** ** [bytes.decode("utf-8")] *)

Definition continuation (c : N) : bool := in_range 128 191 c.

(** One character: its code and what follows; overlong forms, surrogates and codes above U+10FFFF
    are errors. *)
Definition utf8_next (s : pybytes) : option (N * pybytes) :=
  match s with
  | [] => None
  | a :: s =>
      if (a <? 128)%N then Some (a, s)
      else if in_range 194 223 a then
        match s with
        | b :: s => if continuation b then Some ((a - 192) * 64 + (b - 128), s)%N else None
        | _ => None end
      else if in_range 224 239 a then
        match s with
        | b :: c :: s =>
            let n := ((a - 224) * 4096 + (b - 128) * 64 + (c - 128))%N in
            if continuation b && continuation c && (2048 <=? n)%N && negb (is_surrogate n) then Some (n, s) else None
        | _ => None end
      else if in_range 240 244 a then
        match s with
        | b :: c :: d :: s =>
            let n := ((a - 240) * 262144 + (b - 128) * 4096 + (c - 128) * 64 + (d - 128))%N in
            if continuation b && continuation c && continuation d && (65536 <=? n)%N && (n <? 1114112)%N
            then Some (n, s) else None
        | _ => None end
      else None
  end.
Fixpoint utf8_decode_from (fuel : nat) (s : pybytes) : option pystr :=
  match fuel, s with
  | _, [] => Some []
  | O, _ => None
  | S fuel, s => '(c, r) ← utf8_next s; t ← utf8_decode_from fuel r; Some (c :: t)
  end.
Definition utf8_decode (s : pybytes) : option pystr := utf8_decode_from (length s) s.

(** ** Snapshots ([context.py]) *)

Definition NS_PER_S : Z := 1000000000.
Definition MAX_MESSAGE_BYTES : Z := 64 * 1024.
Definition FUTURE_TOLERANCE_NS : Z := NS_PER_S.
Definition ContextError : exn_class := OtherError (u "ContextError").
Definition JSONDecodeError : exn_class := OtherError (u "JSONDecodeError").
Definition RecursionError : exn_class := OtherError (u "RecursionError").

Record DebateInput := mkInput {
  in_context : MarketContext; in_regime : RegimeLabel; in_confidence : pyfloat; ingestion_ts_ns : Z }.

Inductive message := MsgBytes (b : pybytes) | MsgStr (s : pystr) | MsgOther.

(** The text outside of string literals; in valid JSON an upper-case N or I stands only there, in
    the constants NaN and Infinity. *)
Fixpoint outside_strings (in_string : bool) (s : pystr) : pystr :=
  match s with
  | [] => []
  | c :: s =>
      if in_string then
        if (c =? 92)%N then match s with _ :: s' => outside_strings true s' | [] => [] end
        else outside_strings (negb (c =? 34)%N) s
      else if (c =? 34)%N then outside_strings true s else c :: outside_strings false s
  end.
Definition has_constant (s : pystr) : bool := existsb (one_of (u "NI")) (outside_strings false s).

Section snapshot.
(** What [json.loads] raises on a text it does not read: its syntax error, RecursionError, or the
    plain ValueError of an integer with more than 4300 digits; and whether a text that is valid
    JSON nests too deeply for it. *)
Context (json_failure : pystr → exn_class) (too_deep : pystr → bool).

Definition json_loads (raw : pystr) : result json :=
  match loads raw with
  | Some v =>
      if has_constant raw then raise ContextError (u "non-finite JSON constant")
      else if too_deep raw then raise RecursionError []
      else Ok v
  | None => raise (json_failure raw) []
  end.

Definition _decode (raw : message) : result (list (pystr * json)) :=
  text ← match raw with
         | MsgBytes b =>
             if MAX_MESSAGE_BYTES <? Z.of_nat (length b) then raise ContextError (u "message too large")
             else match utf8_decode b with
                  | Some s => Ok s
                  | None => raise ContextError (u "message is not valid UTF-8") end
         | MsgStr s =>
             if MAX_MESSAGE_BYTES <? Z.of_nat (length s) then raise ContextError (u "message is not a bounded string")
             else Ok s
         | MsgOther => raise ContextError (u "message is not a bounded string")
         end;
  payload ← try_except (json_loads text)
              (λ c, bool_decide (c = JSONDecodeError) || bool_decide (c = RecursionError))
              (λ _, raise ContextError (u "message is not valid JSON"));
  match payload with JObj m => Ok m | _ => raise ContextError (u "message is not a JSON object") end.

(** [math.isfinite] of an integer too large for a float raises OverflowError. *)
Definition _number (payload : list (pystr * json)) (key : pystr) : result pyfloat :=
  match obj_get payload key with
  | Some (JInt z) => float_int z
  | Some (JFloat t) =>
      if is_finite_float (float_of_text t) then Ok (float_of_text t)
      else raise ContextError (key ++ u " is not finite")
  | _ => raise ContextError (key ++ u " missing or not a number")
  end.

Definition _flag (payload : list (pystr * json)) (key : pystr) : result bool :=
  match obj_get payload key with
  | Some (JBool b) => Ok b
  | _ => raise ContextError (key ++ u " missing or not a boolean")
  end.

Definition parse_snapshot (raw : message) (now_ns : Z) (max_age_s : pyfloat) : result DebateInput :=
  payload ← _decode raw;
  stale ← _flag payload (u "is_stale");
  if stale : bool then raise ContextError (u "snapshot flagged stale by sensory-array")
  else
    warm ← _flag payload (u "warmup");
    if warm : bool then raise ContextError (u "snapshot is still in warm-up")
    else
      match obj_get payload (u "ingestion_ts_ns") with
      | Some (JInt ingestion_ns) =>
          if ingestion_ns <=? 0 then raise ContextError (u "ingestion_ts_ns missing or invalid")
          else
            let age_ns := now_ns - ingestion_ns in
            if float_ltb (float_mul max_age_s (round_int NS_PER_S)) (float_of_int age_ns) then
              raise ContextError (u "snapshot is old")
            else if age_ns <? - FUTURE_TOLERANCE_NS then raise ContextError (u "snapshot timestamp is in the future")
            else
              match v ← obj_get payload (u "regime_label"); regime_of v with
              | None => raise ContextError (u "unknown regime_label")
              | Some REGIME_UNKNOWN => raise ContextError (u "regime is REGIME_UNKNOWN")
              | Some regime =>
                  confidence ← _number payload (u "regime_confidence");
                  if negb (float_leb f0 confidence && float_leb confidence f1) then
                    raise ContextError (u "regime_confidence outside [0, 1]")
                  else
                    mid ← _number payload (u "mid_price");
                    z ← _number payload (u "z_score");
                    mad ← _number payload (u "mad_score");
                    o ← _number payload (u "order_flow_imbalance");
                    vol ← _number payload (u "realized_volatility");
                    adv ← _number payload (u "adv_30d");
                    match make_market_context (obj_get payload (u "symbol")) mid z mad o vol adv with
                    | Some context => Ok (mkInput context regime confidence ingestion_ns)
                    | None => raise ContextError (u "market context invalid")
                    end
              end
      | _ => raise ContextError (u "ingestion_ts_ns missing or invalid")
      end.
End snapshot.

(** ** Memory ([memory.py]) *)

Definition FLOW_THRESHOLD : pyfloat := fl "0.2".
Definition STRETCH_Z : pyfloat := fl "1.5".

Definition build_recall_query (c : MarketContext) (regime : RegimeLabel) : pystr :=
  let flow :=
    if float_ltb FLOW_THRESHOLD (ofi c) then u "buy_pressure"
    else if float_ltb (ofi c) (float_neg FLOW_THRESHOLD) then u "sell_pressure" else u "flat_flow" in
  let stretch :=
    if float_ltb STRETCH_Z (z_score c) then u "stretched_up"
    else if float_ltb (z_score c) (float_neg STRETCH_Z) then u "stretched_down" else u "in_range" in
  symbol c ++ u " " ++ regime_value regime ++ u " " ++ flow ++ u " " ++ stretch.

(** [f"{x:.2f}"]. *)
Definition fixed2 (x : pyfloat) : pystr :=
  match x with
  | FFin m e =>
      let c := div_half_even (Z.abs m * 100 * 2 ^ Z.max 0 e) (2 ^ Z.max 0 (- e)) in
      (if m <? 0 then u "-" else []) ++ str_of_Z (c / 100) ++ u "."
        ++ (if c mod 100 <? 10 then u "0" else []) ++ str_of_Z (c mod 100)
  | FInf neg => if neg then u "-inf" else u "inf"
  | FNaN => u "nan"
  end.

(** [s.split()]. *)
Fixpoint split_ws (word : pystr) (s : pystr) : list pystr :=
  let flush := match word with [] => [] | _ :: _ => [reverse word] end in
  match s with
  | [] => flush
  | c :: s => if is_space c then flush ++ split_ws [] s else split_ws (c :: word) s
  end.

Record PrecedentLike := mkPrecedent {
  pr_text : pystr; pr_outcome : pystr; pr_regime : pystr; pr_symbol : pystr; pr_distance : pyfloat }.

Definition _one_line (p : PrecedentLike) : pystr :=
  slice_to MAX_PRECEDENT_CHARS
    (u "[" ++ pr_outcome p ++ u "] regime=" ++ pr_regime p ++ u " symbol=" ++ pr_symbol p
     ++ u " distance=" ++ fixed2 (pr_distance p) ++ u ": " ++ join (u " ") (split_ws [] (pr_text p))).

Record RecallResult := mkRecall { rc_status : PrecedentStatus; rc_precedents : list pystr }.

(** The arguments of [provider.recall]. *)
Record RecallArgs := mkRecallArgs { ra_symbol : pystr; ra_regime : pystr; ra_query : pystr; ra_limit : Z }.

(** [provider]: the store's answer, or its exception (a timeout, a value that cannot be read). *)
Definition recall_precedents (provider : option (RecallArgs → result (list PrecedentLike)))
    (context : MarketContext) (regime : RegimeLabel) (top_k : Z) : result RecallResult :=
  match provider with
  | None => Ok (mkRecall none_configured [])
  | Some recall =>
      match recall (mkRecallArgs (symbol context) (regime_value regime) (build_recall_query context regime)
                      (Z.min top_k (Z.of_nat MAX_PRECEDENTS))) with
      | Ok found => Ok (mkRecall precedents_ok (_one_line <$> take MAX_PRECEDENTS found))
      | Raise e =>
          if bool_decide (exn_kind e = OtherError (u "CancelledError")) then Raise e
          else Ok (mkRecall unavailable [])
      end
  end.

Definition apply_recall (s : DebateState) (r : RecallResult) : DebateState :=
  {| market_context := market_context s; d_regime := d_regime s; d_regime_confidence := d_regime_confidence s;
     precedents := rc_precedents r; precedents_status := rc_status r; debate_started_at := debate_started_at s;
     blue_thesis := blue_thesis s; red_challenge := red_challenge s; judge_verdict := judge_verdict s;
     d_summary := d_summary s |}.

Definition is_recordable (s : option DebateState) : bool :=
  match s with
  | Some s =>
      match blue_thesis s, red_challenge s, judge_verdict s with
      | Some blue, Some red, Some verdict =>
          negb (defaulted_abstain verdict) && negb (b_forced blue || r_forced red)
      | _, _, _ => false
      end
  | None => false
  end.

(** The keyword arguments of [write_debate] and [write_reflection]. *)
Record DebateRecord := mkRecord {
  rec_signal_id : pystr; rec_symbol : pystr; rec_regime : pystr; rec_ts_ms : Z; rec_outcome : pystr; rec_text : pystr }.

Definition debate_record_args (s : TradeSignal) : DebateRecord :=
  mkRecord (signal_id s) (sig_symbol s) (regime_value (regime s)) (created_at_ns s / NS_PER_MS)
    (if bool_decide (status s = SIGNAL_ABSTAIN) then u "abstain" else u "pending")
    (side_value (side s) ++ u " omega=" ++ fixed2 (sig_omega s) ++ u ": " ++ debate_summary s).

(** [writer]: the writer's outcome; true only if the record was written. *)
Definition write_record (writer : option (DebateRecord → result unit)) (r : DebateRecord) : result bool :=
  match writer with
  | None => Ok false
  | Some write =>
      match write r with
      | Ok _ => Ok true
      | Raise e => if bool_decide (exn_kind e = OtherError (u "CancelledError")) then Raise e else Ok false
      end
  end.
Definition write_debate_record (writer : option (DebateRecord → result unit)) (s : TradeSignal) : result bool :=
  write_record writer (debate_record_args s).
Definition write_reflection_record (writer : option (DebateRecord → result unit)) (s : TradeSignal)
    (outcome text : pystr) (ts_ms : Z) : result bool :=
  write_record writer (mkRecord (signal_id s) (sig_symbol s) (regime_value (regime s)) ts_ms outcome text).

Example context_examples :
  utf8_decode [226; 130; 172; 65]%N = Some [8364; 65]%N ∧ utf8_decode [192; 128]%N = None
  ∧ utf8_decode [237; 160; 128]%N = None ∧ utf8_decode [240; 159; 152; 128]%N = Some [128512]%N
  ∧ has_constant (qq (u "{'NaN': [1, -Infinity]}")) = true ∧ has_constant (qq (u "{'NaN': 'I\'N'}")) = false
  ∧ fixed2 (fl "0.125") = u "0.12" ∧ fixed2 (fl "-1.999") = u "-2.00" ∧ fixed2 (fl "12.375") = u "12.38"
  ∧ split_ws [] (u "  a b   c ") = [u "a"; u "b"; u "c"].
Proof. vm_compute. repeat split. Qed.

(** ** Facts *)

Section snapshot_facts.
Context (json_failure : pystr → exn_class) (too_deep : pystr → bool).

Lemma flag_ok payload key b : _flag payload key = Ok b → obj_get payload key = Some (JBool b).
Proof. unfold _flag. destruct (obj_get payload key) as [[]|]; try done. by intros [= ->]. Qed.

(** The object gives the finite number [x] under [key]; an integer is rounded to a float. *)
Definition gives (payload : list (pystr * json)) (key : pystr) (x : pyfloat) : Prop :=
  is_finite_float x = true ∧
  ((∃ z, obj_get payload key = Some (JInt z) ∧ x = round_int z)
   ∨ ∃ t, obj_get payload key = Some (JFloat t) ∧ x = float_of_text t).

Lemma number_given payload key x : _number payload key = Ok x → gives payload key x.
Proof.
  unfold _number, float_int, gives. destruct (obj_get payload key) as [[]|]; try done; case_match; try done; intros [= <-];
    split; eauto.
Qed.

(** The text of a message that is not too long. *)
Definition bounded_text (raw : message) (text : pystr) : Prop :=
  raw = MsgStr text ∧ Z.of_nat (length text) <= 65536
  ∨ ∃ b, raw = MsgBytes b ∧ Z.of_nat (length b) <= 65536 ∧ utf8_decode b = Some text.

Lemma decode_inv raw payload :
  _decode json_failure too_deep raw = Ok payload →
  ∃ text, bounded_text raw text ∧ loads text = Some (JObj payload) ∧ has_constant text = false.
Proof.
  unfold _decode. intros (text & Ht & H)%bind_ok. apply bind_ok in H as (v & Hv & H).
  assert (v = JObj payload) as -> by (destruct v; try discriminate H; by injection H as ->). clear H.
  assert (json_loads json_failure too_deep text = Ok (JObj payload)) as Hl.
  { unfold try_except in Hv. destruct (json_loads _ _ text); [done|]. by destruct (_ || _). }
  exists text. split.
  - destruct raw as [b|s|]; [|..|done].
    + right. exists b. destruct (Z.ltb_spec MAX_MESSAGE_BYTES (Z.of_nat (length b))) as [|Hb]; [done|].
      destruct (utf8_decode b); [|done]. injection Ht as ->. by split_and!.
    + left. destruct (Z.ltb_spec MAX_MESSAGE_BYTES (Z.of_nat (length s))) as [|Hb]; [done|]. by injection Ht as ->.
  - unfold json_loads in Hl. destruct (loads text); [|done]. destruct (has_constant text); [done|].
    destruct (too_deep text); [done|]. by injection Hl as ->.
Qed.

(** The bounds of a market context. *)
Record bounded_context (c : MarketContext) : Prop := {
  bc_symbol : (1 <= length (symbol c) <= 32)%nat;
  bc_mid : float_ltb f0 (mid_price c) = true;
  bc_ofi : float_leb (float_neg f1) (ofi c) = true ∧ float_leb (ofi c) f1 = true;
  bc_vol : float_leb f0 (realized_vol c) = true;
  bc_adv : float_leb f0 (adv_30d c) = true }.

Lemma market_context_bounded c : market_context_ok c = true → bounded_context c.
Proof.
  unfold market_context_ok, min_length, max_length, NonNegFloat. rewrite !andb_true_iff, !Nat.leb_le. intros H.
  destruct H as ((((((((((? & _) & _) & ?) & _) & _) & _) & ?) & ?) & _ & ?) & _ & ?). by split.
Qed.

Lemma make_context_ok sym mid z mad o vol adv c :
  make_market_context sym mid z mad o vol adv = Some c →
  market_context_ok c = true ∧ sym = Some (JStr (symbol c)) ∧ mid_price c = mid ∧ z_score c = z ∧ mad_score c = mad
  ∧ ofi c = o ∧ realized_vol c = vol ∧ adv_30d c = adv.
Proof.
  unfold make_market_context, checked. destruct sym as [[]|]; try done.
  destruct (market_context_ok _) eqn:E; [|done]. by intros [= <-].
Qed.

(** What is known of an input that was accepted, in terms of the object the message holds. *)
Lemma snapshot_inv raw now_ns max_age_s i :
  parse_snapshot json_failure too_deep raw now_ns max_age_s = Ok i →
  ∃ payload, _decode json_failure too_deep raw = Ok payload
  ∧ (obj_get payload (u "is_stale") = Some (JBool false) ∧ obj_get payload (u "warmup") = Some (JBool false))
  ∧ (obj_get payload (u "ingestion_ts_ns") = Some (JInt (ingestion_ts_ns i)) ∧ 0 < ingestion_ts_ns i
     ∧ float_ltb (float_mul max_age_s (round_int NS_PER_S)) (float_of_int (now_ns - ingestion_ts_ns i)) = false
     ∧ ingestion_ts_ns i <= now_ns + FUTURE_TOLERANCE_NS)
  ∧ (obj_get payload (u "regime_label") = Some (JStr (regime_value (in_regime i))) ∧ in_regime i ≠ REGIME_UNKNOWN)
  ∧ (gives payload (u "regime_confidence") (in_confidence i)
     ∧ float_leb f0 (in_confidence i) = true ∧ float_leb (in_confidence i) f1 = true)
  ∧ market_context_ok (in_context i) = true
  ∧ obj_get payload (u "symbol") = Some (JStr (symbol (in_context i)))
  ∧ gives payload (u "mid_price") (mid_price (in_context i)) ∧ gives payload (u "z_score") (z_score (in_context i))
  ∧ gives payload (u "mad_score") (mad_score (in_context i)) ∧ gives payload (u "order_flow_imbalance") (ofi (in_context i))
  ∧ gives payload (u "realized_volatility") (realized_vol (in_context i)) ∧ gives payload (u "adv_30d") (adv_30d (in_context i)).
Proof.
  unfold parse_snapshot. intros H. apply bind_ok in H as (payload & Hd & H).
  apply bind_ok in H as (stale & Hs & H). apply flag_ok in Hs. destruct stale; [done|].
  apply bind_ok in H as (warm & Hw & H). apply flag_ok in Hw. destruct warm; [done|].
  destruct (obj_get payload (u "ingestion_ts_ns")) as [[| |ts| | | |]|] eqn:Hts; try done.
  destruct (Z.leb_spec ts 0); [done|]. destruct (float_ltb _ _) eqn:Hage; [done|].
  destruct (Z.ltb_spec (now_ns - ts) (- FUTURE_TOLERANCE_NS)); [done|].
  destruct (obj_get payload (u "regime_label")) as [label|] eqn:Hlabel; [|done]. cbn [mbind option_bind] in H.
  assert (Hreg : ∀ r, regime_of label = Some r → label = JStr (regime_value r)).
  { intros r. unfold regime_of, member. destruct label; try done. intros Hf.
    apply List.find_some in Hf as [_ Hf]. apply str_eqb_true in Hf. by rewrite Hf. }
  destruct (regime_of label) as [r|]; [|done]. specialize (Hreg r eq_refl). subst label.
  assert (∃ c conf, i = mkInput c r conf ts ∧ r ≠ REGIME_UNKNOWN ∧ _number payload (u "regime_confidence") = Ok conf
    ∧ float_leb f0 conf && float_leb conf f1 = true ∧ ∃ mid z mad o vol adv, _number payload (u "mid_price") = Ok mid
    ∧ _number payload (u "z_score") = Ok z ∧ _number payload (u "mad_score") = Ok mad
    ∧ _number payload (u "order_flow_imbalance") = Ok o ∧ _number payload (u "realized_volatility") = Ok vol
    ∧ _number payload (u "adv_30d") = Ok adv ∧ make_market_context (obj_get payload (u "symbol")) mid z mad o vol adv = Some c)
    as (c & conf & -> & Hr & Hc & Hu & mid & z & mad & o & vol & adv & N1 & N2 & N3 & N4 & N5 & N6 & Hm).
  { destruct r; [done|..].
    all: apply bind_ok in H as (conf & Hc & H); destruct (float_leb f0 conf && float_leb conf f1) eqn:Eu; [|done]; cbn [negb] in H.
    all: do 6 apply bind_ok in H as (? & ? & H); destruct (make_market_context _ _ _ _ _ _ _) as [c|] eqn:Ec; [|done].
    all: injection H as <-; exists c, conf; split_and!; try done; by eauto 20. }
  apply make_context_ok in Hm as (Hok & Hsym & <- & <- & <- & <- & <- & <-). apply andb_true_iff in Hu.
  apply number_given in Hc, N1, N2, N3, N4, N5, N6.
  exists payload. cbn [in_context in_regime in_confidence ingestion_ts_ns]. split_and!; try done; [lia|apply Hu..].
Qed.

(** C29: A snapshot that is accepted was a JSON object in a text of at most 65536 characters, or in at most
    65536 bytes of UTF-8, without a constant NaN or Infinity; it says it is neither stale nor warming up, is
    no older than the limit and not from the future, names a known regime with a confidence in [0, 1],
    and gives a market context within its bounds. The input is exactly what it says: the instant, the
    regime, the symbol, the confidence and each of the six figures are what the object gives under their
    own keys, an integer rounded to a float, and finite. *)
Theorem snapshot_is_trustworthy raw now_ns max_age_s i :
  parse_snapshot json_failure too_deep raw now_ns max_age_s = Ok i →
  ∃ text payload, bounded_text raw text ∧ loads text = Some (JObj payload) ∧ has_constant text = false
  ∧ (obj_get payload (u "is_stale") = Some (JBool false) ∧ obj_get payload (u "warmup") = Some (JBool false))
  ∧ (obj_get payload (u "ingestion_ts_ns") = Some (JInt (ingestion_ts_ns i)) ∧ 0 < ingestion_ts_ns i
     ∧ float_ltb (float_mul max_age_s (round_int 1000000000)) (float_of_int (now_ns - ingestion_ts_ns i)) = false
     ∧ ingestion_ts_ns i <= now_ns + 1000000000)
  ∧ (obj_get payload (u "regime_label") = Some (JStr (regime_value (in_regime i))) ∧ in_regime i ≠ REGIME_UNKNOWN)
  ∧ (gives payload (u "regime_confidence") (in_confidence i)
     ∧ float_leb f0 (in_confidence i) = true ∧ float_leb (in_confidence i) f1 = true)
  ∧ bounded_context (in_context i)
  ∧ obj_get payload (u "symbol") = Some (JStr (symbol (in_context i)))
  ∧ gives payload (u "mid_price") (mid_price (in_context i)) ∧ gives payload (u "z_score") (z_score (in_context i))
  ∧ gives payload (u "mad_score") (mad_score (in_context i)) ∧ gives payload (u "order_flow_imbalance") (ofi (in_context i))
  ∧ gives payload (u "realized_volatility") (realized_vol (in_context i)) ∧ gives payload (u "adv_30d") (adv_30d (in_context i)).
Proof.
  intros (payload & (text & Hb & Hl & Hc)%decode_inv & Hflags & Ht & Hr & Hconf & Hok%market_context_bounded & H)%snapshot_inv.
  exists text, payload. exact (conj Hb (conj Hl (conj Hc (conj Hflags (conj Ht (conj Hr (conj Hconf (conj Hok H)))))))).
Qed.

(** The debate starts from a validated state. *)
Definition initial_state (i : DebateInput) : DebateState :=
  mkDebate (in_context i) (in_regime i) (in_confidence i) [] none_configured None None None None None.

Lemma initial_valid raw now_ns max_age_s i r :
  parse_snapshot json_failure too_deep raw now_ns max_age_s = Ok i → state_valid (apply_recall (initial_state i) r).
Proof.
  intros H. destruct (snapshot_inv _ _ _ _ H) as (p & _ & _ & _ & _ & ([Hf _] & H1 & H2) & Hok & _).
  split; cbn; [done| |by intros v]. unfold UnitFloat. by rewrite Hf, H1, H2.
Qed.
End snapshot_facts.

Definition snapshot_example : pystr :=
  qq (u "{'is_stale': false, 'warmup': false, 'ingestion_ts_ns': 1000000000, 'regime_label': 'CRISIS', 'regime_confidence': 0.8, 'symbol': 'AAPL', 'mid_price': 190.5, 'z_score': 0, 'mad_score': 0.1, 'order_flow_imbalance': -0.5, 'realized_volatility': 0.2, 'adv_30d': 1e6}").
Definition huge_snapshot : pystr := replace_all (u "190.5") (u "1" ++ replicate 400 48%N) snapshot_example.

Example snapshot_examples :
  is_ok (parse_snapshot (λ _, JSONDecodeError) (λ _, false) (MsgStr snapshot_example) 2000000000 (fl "5")) = true
  ∧ is_ok (parse_snapshot (λ _, JSONDecodeError) (λ _, false) (MsgBytes snapshot_example) 6000000000 (fl "5")) = true
  ∧ is_ok (parse_snapshot (λ _, JSONDecodeError) (λ _, false) (MsgStr snapshot_example) 6000000001 (fl "5")) = false.
Proof. vm_compute. repeat split. Qed.

(** A number that no float holds leaves [parse_snapshot] as an OverflowError, not as the
    ContextError its contract promises for "anything untrustworthy". *)
Theorem huge_number_escapes json_failure :
  match parse_snapshot json_failure (λ _, false) (MsgStr huge_snapshot) 2000000000 (fl "5") with
  | Raise e => exn_kind e = OverflowError | Ok _ => False end.
Proof. vm_compute. reflexivity. Qed.

Lemma snapshot_is_trustworthy_witness :
  ∃ i, parse_snapshot (λ _, JSONDecodeError) (λ _, false) (MsgStr snapshot_example) 2000000000 (fl "5") = Ok i
  ∧ in_regime i ≠ REGIME_UNKNOWN ∧ bounded_context (in_context i).
Proof.
  destruct (parse_snapshot (λ _, JSONDecodeError) (λ _, false) (MsgStr snapshot_example) 2000000000 (fl "5")) as [i|e] eqn:E.
  2: { pose proof (proj1 snapshot_examples) as H. rewrite E in H. discriminate H. }
  exists i. split; [reflexivity|].
  destruct (snapshot_is_trustworthy _ _ _ _ _ _ E) as (text & p & _ & _ & _ & _ & _ & [_ Hr] & _ & Hc & _).
  split; [exact Hr|exact Hc].
Defined.
