(* ===== verification/CogSinks.v ===== *)
(** * Cognitive core: where signals go ([proto_mapping.py], [sinks.py])

    A signal becomes a protobuf message, is submitted to Aegis, and an approved, attested decision is
    relayed to the execution motor with what the debate saw. The stubs are parameters. *)
From S2P Require Import Prelude PyStr PyDecimal DecimalFacts PyFloat Json CogModels CogSizing CogConfig.
From S2P Require Compliance.

(** ** The wire ([trade_signal.proto], [proto_mapping.py]) *)

(** The message's fields; the enums are numbers. *)
Record SignalMsg := mkSignalMsg {
  w_signal_id : pystr; w_symbol : pystr; w_created_at_ns : Z; w_side : Z; w_quantity : pyfloat;
  w_omega : pyfloat; w_expected_value : pyfloat; w_p_success : pyfloat; w_p_failure : pyfloat;
  w_reward_estimate : pyfloat; w_risk_estimate : pyfloat;
  w_spread_cost : pyfloat; w_market_impact : pyfloat; w_venue_fees : pyfloat; w_total_cost : pyfloat;
  w_regime : Z; w_regime_confidence : pyfloat; w_debate_summary : pystr; w_price_limit : pyfloat;
  w_valid_until_ns : Z; w_status : Z;
  w_quantity_nanos : Z; w_price_limit_nanos : Z; w_total_cost_nanos : Z; w_strategy_id : pystr;
  w_spread_cost_nanos : Z; w_market_impact_nanos : Z; w_venue_fees_nanos : Z }.

Definition NANOS : Z := 1000000000.
Definition INT64_MAX : Z := 2 ^ 63 - 1.

Definition to_nanos (value : pyfloat) : result Z :=
  match dec_of_str (repr_float value) with
  | None => raise InvalidOperation (repr_float value)
  | Some d =>
      p ← dmul d (D NANOS);
      nanos ← to_integral_int p;
      if (0 <=? nanos) && (nanos <=? INT64_MAX) then Ok nanos
      else raise ValueError (repr_float value ++ u " does not fit a non-negative int64 in 1e-9 units")
  end.

(** The enums' [values_by_name]. *)
Definition side_numbers : list (SignalSide * Z) := [(SIDE_UNKNOWN, 0); (BUY, 1); (SELL, 2); (SELL_SHORT, 3)].
Definition status_numbers : list (SignalStatus * Z) :=
  [ (SIGNAL_PENDING, 0); (SIGNAL_APPROVED, 1); (SIGNAL_REJECTED_HARD_BLOCK, 2);
    (SIGNAL_SOFT_BLOCK_PENDING, 3); (SIGNAL_ABSTAIN, 4); (SIGNAL_EXPIRED, 5) ].
Definition regime_numbers : list (RegimeLabel * Z) :=
  [ (REGIME_UNKNOWN, 0); (TRENDING_BULL, 1); (TRENDING_BEAR, 2); (HIGH_VOL_CHOP, 3); (LOW_VOL_CHOP, 4); (CRISIS, 5) ].

Definition _enum_number {A} (value : A → pystr) (numbers : list (A * Z)) (name : pystr) : result Z :=
  match List.find (λ kv, str_eqb (value kv.1) name) numbers with
  | Some (_, n) => Ok n
  | None => raise ValueError (repr_str name ++ u " is not defined in the proto enum")
  end.
(** [Enum(_enum_name(...))]: the names of the proto are the values of the Python enum. *)
Definition _enum_name {A} (numbers : list (A * Z)) (number : Z) : result A :=
  match List.find (λ kv, kv.2 =? number) numbers with
  | Some (a, _) => Ok a
  | None => raise ValueError (str_of_Z number ++ u " is not defined in the proto enum")
  end.

(** Assigning a field: strings must be encodable, integers must fit 64 bits. *)
Definition set_string (s : pystr) : result pystr :=
  if str_ok s then Ok s else raise (OtherError (u "UnicodeEncodeError")) [].
Definition set_int64 (n : Z) : result Z :=
  if (- 2 ^ 63 <=? n) && (n <=? INT64_MAX) then Ok n else raise ValueError (u "Value out of range").

Definition to_proto (s : TradeSignal) (strategy_id : pystr) : result SignalMsg :=
  id ← set_string (signal_id s);
  sym ← set_string (sig_symbol s);
  created ← set_int64 (created_at_ns s);
  summary ← set_string (debate_summary s);
  until ← set_int64 (valid_until_ns s);
  quantity_n ← to_nanos (quantity s);
  limit_n ← to_nanos (price_limit s);
  total_n ← to_nanos (estimated_total_cost s);
  spread_n ← to_nanos (estimated_spread_cost s);
  impact_n ← to_nanos (estimated_market_impact s);
  fees_n ← to_nanos (estimated_venue_fees s);
  strategy ← set_string strategy_id;
  side_n ← _enum_number side_value side_numbers (side_value (side s));
  status_n ← _enum_number status_value status_numbers (status_value (status s));
  regime_n ← _enum_number regime_value regime_numbers (regime_value (regime s));
  Ok {| w_signal_id := id; w_symbol := sym; w_created_at_ns := created; w_side := side_n;
        w_quantity := quantity s; w_omega := sig_omega s; w_expected_value := sig_expected_value s;
        w_p_success := sig_p_success s; w_p_failure := sig_p_failure s;
        w_reward_estimate := sig_reward_estimate s; w_risk_estimate := sig_risk_estimate s;
        w_spread_cost := estimated_spread_cost s; w_market_impact := estimated_market_impact s;
        w_venue_fees := estimated_venue_fees s; w_total_cost := estimated_total_cost s;
        w_regime := regime_n; w_regime_confidence := regime_confidence s; w_debate_summary := summary;
        w_price_limit := price_limit s; w_valid_until_ns := until; w_status := status_n;
        w_quantity_nanos := quantity_n; w_price_limit_nanos := limit_n; w_total_cost_nanos := total_n;
        w_strategy_id := strategy; w_spread_cost_nanos := spread_n; w_market_impact_nanos := impact_n;
        w_venue_fees_nanos := fees_n |}.

(** The two representations of an amount agree up to one billionth. *)
Definition check_nanos (wire : Z) (double : pyfloat) : result unit :=
  expected ← to_nanos double;
  guard_raise (1 <? Z.abs (wire - expected)) ValueError (u "nanos disagree with the double").

Definition from_proto (m : SignalMsg) : result TradeSignal :=
  check_nanos (w_quantity_nanos m) (w_quantity m);;
  check_nanos (w_price_limit_nanos m) (w_price_limit m);;
  check_nanos (w_total_cost_nanos m) (w_total_cost m);;
  check_nanos (w_spread_cost_nanos m) (w_spread_cost m);;
  check_nanos (w_market_impact_nanos m) (w_market_impact m);;
  check_nanos (w_venue_fees_nanos m) (w_venue_fees m);;
  side ← _enum_name side_numbers (w_side m);
  status ← _enum_name status_numbers (w_status m);
  regime ← _enum_name regime_numbers (w_regime m);
  make_signal
    {| signal_id := w_signal_id m; sig_symbol := w_symbol m; created_at_ns := w_created_at_ns m; side := side;
       quantity := w_quantity m; sig_omega := w_omega m; sig_expected_value := w_expected_value m;
       sig_p_success := w_p_success m; sig_p_failure := w_p_failure m;
       sig_reward_estimate := w_reward_estimate m; sig_risk_estimate := w_risk_estimate m;
       estimated_spread_cost := w_spread_cost m; estimated_market_impact := w_market_impact m;
       estimated_venue_fees := w_venue_fees m; estimated_total_cost := w_total_cost m;
       regime := regime; regime_confidence := w_regime_confidence m; debate_summary := w_debate_summary m;
       price_limit := w_price_limit m; valid_until_ns := w_valid_until_ns m; status := status |}.

(** ** Sinks ([sinks.py]) *)

Definition SinkError : exn_class := OtherError (u "SinkError").

Record SinkReceipt := mkReceipt { rc_accepted : bool; rc_detail : pystr }.

Record DecisionContext := mkDecisionContext {
  dc_symbol : pystr; dc_ingestion_ts_ns : Z; dc_mid_price : pyfloat; dc_z_score : pyfloat; dc_mad_score : pyfloat;
  dc_ofi : pyfloat; dc_realized_volatility : pyfloat; dc_adv_30d : pyfloat; dc_regime : pystr;
  dc_blue : pystr; dc_red : pystr; dc_judge : pystr; dc_model_versions : list (pystr * pystr) }.

(** Aegis's answer: the parts the motor reads, and the numbers of the failed controls. *)
Record Decision := mkDecision { dec_message : Compliance.AegisDecision; dec_reasons : list Z }.

Definition decision_names : list (pystr * Z) :=
  [ (u "DECISION_UNSPECIFIED", 0); (u "DECISION_APPROVED", 1); (u "DECISION_REJECTED", 2); (u "DECISION_HELD_FOR_HUMAN", 3) ].
(** [""] when the number is not in the enum (KeyError). *)
Definition _decision_status_name (d : Decision) : pystr :=
  match List.find (λ kv, kv.2 =? Compliance.d_decision (dec_message d)) decision_names with
  | Some (name, _) => name | None => [] end.
Definition _describe_decision (d : Decision) : pystr :=
  let name := _decision_status_name d in
  if bool_decide (name = []) then u "decision unreadable"
  else name ++ u " reasons=[" ++ join (u ", ") (str_of_Z <$> dec_reasons d) ++ u "]".
Definition _decision_is_approved_with_attestation (d : Decision) : bool :=
  str_eqb (_decision_status_name d) (u "DECISION_APPROVED")
  && match Compliance.d_attestation (dec_message d) with Some _ => true | None => false end.

(** [market_snapshot.proto] and [execution_motor.proto], as far as they are set. *)
Record SnapshotMsg := mkSnapshotMsg {
  n_symbol : pystr; n_ingestion_ns : Z; n_mid_price : pyfloat; n_z_score : pyfloat; n_mad_score : pyfloat;
  n_ofi : pyfloat; n_realized_volatility : pyfloat; n_adv_30d : pyfloat; n_regime : Z; n_is_stale : bool }.
Record ExecuteRequestMsg := mkRequest {
  q_decision : Decision; q_snapshot : SnapshotMsg; q_signal : SignalMsg;
  q_blue : pystr; q_red : pystr; q_judge : pystr; q_model_versions : list (pystr * pystr) }.

Definition build_execute_request (d : Decision) (signal_message : SignalMsg) (c : DecisionContext)
  : result ExecuteRequestMsg :=
  sym ← set_string (dc_symbol c);
  ts ← set_int64 (dc_ingestion_ts_ns c);
  regime_n ← _enum_number regime_value regime_numbers (dc_regime c);
  blue ← set_string (dc_blue c);
  red ← set_string (dc_red c);
  judge ← set_string (dc_judge c);
  versions ← mapR (λ kv, k ← set_string kv.1; v ← set_string kv.2; Ok (k, v)) (dc_model_versions c);
  Ok (mkRequest d
        (mkSnapshotMsg sym ts (dc_mid_price c) (dc_z_score c) (dc_mad_score c) (dc_ofi c) (dc_realized_volatility c)
           (dc_adv_30d c) regime_n false)
        signal_message blue red judge versions).

(** What left the process. *)
Inductive Sent :=
  | ToAegis (m : SignalMsg)
  | ToMotor (r : ExecuteRequestMsg)
  | ToMotorPlain (d : Decision).

Record Ack := mkAck { ack_accepted : bool; ack_detail : pystr }.
(** [_describe_ack] of an acknowledgement. *)
Definition _describe_ack (a : Ack) : pystr :=
  u "accepted=" ++ (if ack_accepted a then u "True" else u "False") ++ u " detail=" ++ repr_str (ack_detail a).

Definition cancelled (e : exn) : bool := bool_decide (exn_kind e = OtherError (u "CancelledError")).

(** [except Exception as exc: raise SinkError(f"{what} failed: ...")]. *)
Definition as_sink_error {A} (what : pystr) (m : M (list Sent) A) : M (list Sent) A :=
  catch_all m (λ e, lift (if cancelled e then Raise e
    else raise SinkError (what ++ u " failed: " ++ exn_name (exn_kind e) ++ u ": " ++ exn_msg e))).

Section sinks.
(** The stubs, given what was sent before; a reply may be an exception, the message having left. *)
Context (submit : list Sent → SignalMsg → result Decision).
Context (execute : list Sent → Sent → result Ack).

Definition SubmitSignal (m : SignalMsg) : M (list Sent) Decision := λ s, (submit s m, s ++ [ToAegis m]).
Definition Execute (x : Sent) : M (list Sent) Ack := λ s, (execute s x, s ++ [x]).

(** [AegisGrpcSink.send]. *)
Definition aegis_send (strategy_id : pystr) (sig : TradeSignal) : M (list Sent) SinkReceipt :=
  decision ← as_sink_error (u "SubmitSignal") (m ← lift (to_proto sig strategy_id); SubmitSignal m);
  mret (mkReceipt true (_describe_decision decision)).

(** [MotorGrpcSink.send]; [builder] says whether there is a request builder. *)
Definition motor_send (builder : bool) (d : Decision) (signal_message : option SignalMsg)
    (context : option DecisionContext) : M (list Sent) SinkReceipt :=
  ack ← as_sink_error (u "Execute")
    match builder, signal_message, context with
    | true, Some m, Some c => request ← lift (build_execute_request d m c); Execute (ToMotor request)
    | _, _, _ => Execute (ToMotorPlain d)
    end;
  mret (mkReceipt true (_describe_ack ack)).

(** [AegisRelaySink.send]. *)
Definition relay_send (builder : bool) (strategy_id : pystr) (sig : TradeSignal) (context : option DecisionContext)
  : M (list Sent) SinkReceipt :=
  '(message, decision) ← as_sink_error (u "SubmitSignal")
     (m ← lift (to_proto sig strategy_id); d ← SubmitSignal m; mret (m, d));
  let detail := _describe_decision decision in
  if negb (_decision_is_approved_with_attestation decision) then mret (mkReceipt true detail)
  else
    catch_all (motor_send builder decision (Some message) context)
      (λ e, lift (if bool_decide (exn_kind e = SinkError)
                  then raise SinkError (u "motor relay failed after aegis approval: " ++ exn_msg e) else Raise e));;
    mret (mkReceipt true detail).

(** [LogSink.send]: nothing leaves the process. *)
Definition log_send (sig : TradeSignal) : M (list Sent) SinkReceipt :=
  mret (mkReceipt false (u "dry-run: not sent")).
End sinks.

(** The constructors of the sinks. *)
Definition make_aegis_sink (strategy_id : pystr) (timeout_s : pyfloat) : result unit :=
  if is_blank strategy_id then raise ValueError (u "strategy_id must not be empty (Aegis regime gate C18 needs it)")
  else if negb (float_ltb (FFin 0 0) timeout_s) then raise ValueError (u "timeout_s must be positive") else Ok tt.
Definition make_motor_sink (timeout_s : pyfloat) : result unit :=
  if negb (float_ltb (FFin 0 0) timeout_s) then raise ValueError (u "timeout_s must be positive") else Ok tt.

(** ** Channels *)

Record AegisTlsFiles := mkTlsFiles { ca : option pystr; cert : option pystr; key : option pystr }.

(** [aegis_tls_from_env], [motor_tls_from_env]: [prefix] is AEGIS or MOTOR. *)
Definition tls_from_env (prefix : pystr) (env : gmap pystr pystr) : result (option AegisTlsFiles) :=
  let path name := _optional_str (default [] (env !! (prefix ++ u "_CLIENT_TLS_" ++ name))) in
  let ca := path (u "CA") in
  let cert := path (u "CERT") in
  let key := path (u "KEY") in
  if negb (Bool.eqb (match cert with None => true | Some _ => false end) (match key with None => true | Some _ => false end)) then
    raise ConfigError (prefix ++ u "_CLIENT_TLS_CERT and KEY must be set together")
  else if production env && match ca with None => true | Some _ => false end then
    raise ConfigError (u "ENVIRONMENT=production refuses an insecure channel")
  else match ca, cert with
       | None, None => Ok None
       | _, _ => Ok (Some (mkTlsFiles ca cert key))
       end.
Definition aegis_tls_from_env : gmap pystr pystr → result (option AegisTlsFiles) := tls_from_env (u "AEGIS").
Definition motor_tls_from_env : gmap pystr pystr → result (option AegisTlsFiles) := tls_from_env (u "MOTOR").

(** [read_bytes] answers a path; an OSError becomes a ConfigError. *)
Definition _read_pem (read_bytes : pystr → result pybytes) (path : option pystr) : result (option pybytes) :=
  match path with
  | None => Ok None
  | Some p => try_except (b ← read_bytes p; Ok (Some b)) (λ c, bool_decide (c = OSError))
                (λ e, raise ConfigError (u "is not readable: " ++ exn_name (exn_kind e)))
  end.

Inductive Channel :=
  | Insecure (target : pystr)
  | Secure (target : pystr) (root certificate private_key : option pybytes).

Definition open_channel (read_bytes : pystr → result pybytes) (target : pystr) (tls : option AegisTlsFiles) : result Channel :=
  match tls with
  | None => Ok (Insecure target)
  | Some t =>
      root ← _read_pem read_bytes (ca t);
      chain ← _read_pem read_bytes (cert t);
      private ← _read_pem read_bytes (key t);
      Ok (Secure target root chain private)
  end.
Definition open_aegis_channel (read_bytes : pystr → result pybytes) (host : pystr) (port : Z)
    (env : gmap pystr pystr) : result Channel :=
  tls ← aegis_tls_from_env env; open_channel read_bytes (host ++ u ":" ++ str_of_Z port) tls.
Definition open_motor_channel (read_bytes : pystr → result pybytes) (target : pystr)
    (env : gmap pystr pystr) : result Channel :=
  tls ← motor_tls_from_env env; open_channel read_bytes target tls.

(** ** The wire: facts *)

Lemma find_number {A} (value : A → pystr) (numbers : list (A * Z)) a n :
  List.find (λ kv, str_eqb (value kv.1) (value a)) numbers = Some (a, n) →
  _enum_number value numbers (value a) = Ok n.
Proof. unfold _enum_number. by intros ->. Qed.

Lemma side_roundtrip s n : _enum_number side_value side_numbers (side_value s) = Ok n → _enum_name side_numbers n = Ok s.
Proof. destruct s; vm_compute; by intros [= <-]. Qed.
Lemma status_roundtrip s n :
  _enum_number status_value status_numbers (status_value s) = Ok n → _enum_name status_numbers n = Ok s.
Proof. destruct s; vm_compute; by intros [= <-]. Qed.
Lemma regime_roundtrip s n :
  _enum_number regime_value regime_numbers (regime_value s) = Ok n → _enum_name regime_numbers n = Ok s.
Proof. destruct s; vm_compute; by intros [= <-]. Qed.

Lemma check_own_nanos x n : to_nanos x = Ok n → check_nanos n x = Ok tt.
Proof. intros H. unfold check_nanos. rewrite H. cbn. by rewrite Z.sub_diag. Qed.

(** [n] is the amount [x] in billionths: it fits a non-negative 64-bit integer, and it is the integer
    nearest to the decimal number [x] prints as times 10^9 (in a context of 28 digits). *)
Definition billionths (x : pyfloat) (n : Z) : Prop :=
  0 <= n < 2 ^ 63 ∧
  ∃ c e c' e', dec_of_str (repr_float x) = Some (DFin c e) ∧ dfix (c * 10 ^ 9) e = Ok (DFin c' e') ∧
    (0 <= e' → n = c' * 10 ^ e') ∧ (e' < 0 → 2 * Z.abs (n * 10 ^ (- e') - c') <= 10 ^ (- e')).

Lemma to_nanos_billionths x n : to_nanos x = Ok n → billionths x n.
Proof.
  unfold to_nanos. destruct (dec_of_str _) as [d|] eqn:Ed; [|done].
  intros (p & Hp & H)%bind_ok. apply bind_ok in H as (k & Hk & H).
  destruct ((0 <=? k) && (k <=? INT64_MAX)) eqn:Eb; [|done]. injection H as <-.
  apply andb_true_iff in Eb as [B1%Z.leb_le B2%Z.leb_le]. unfold INT64_MAX in B2.
  split; [lia|]. destruct d as [c e|s|]; cbn [dmul D] in Hp.
  2: { unfold NANOS in Hp. injection Hp as <-. discriminate Hk. }
  2: { injection Hp as <-. discriminate Hk. }
  rewrite Z.add_0_r in Hp. destruct p as [c' e'|s|]; [|discriminate Hk..].
  exists c, e, c', e'. split; [done|]. split; [by destruct c|]. cbn in Hk. injection Hk as <-.
  destruct (Z.leb_spec 0 e'); [split; [done|lia]|]. split; [lia|]. intros _. unfold round_signed.
  pose proof (rhe_near (Z.abs c') (- e') ltac:(lia)) as Hn. destruct (Z.sgn_spec c') as [[? ->]|[[<- ->]|[? ->]]]; lia.
Qed.

Lemma truncated_fixed t : (length t <= 800)%nat → truncate_summary t MAX_SUMMARY_TOKENS = t.
Proof. intros H. unfold truncate_summary, slice_to. apply take_ge. unfold MAX_SUMMARY_TOKENS, CHARS_PER_TOKEN. lia. Qed.

(** C26: A signal that was put on the wire reads back as itself: every amount, every enum, every
    text; and each of its six fixed-point amounts - quantity, price limit, total, spread and
    impact cost, venue fees - is a non-negative 64-bit integer, the billionths nearest to the
    decimal text of the double it goes with. *)
Theorem signal_survives_the_wire s strategy m :
  make_signal s = Ok s → to_proto s strategy = Ok m →
  from_proto m = Ok s ∧ w_strategy_id m = strategy
  ∧ billionths (quantity s) (w_quantity_nanos m) ∧ w_quantity m = quantity s
  ∧ billionths (price_limit s) (w_price_limit_nanos m) ∧ w_price_limit m = price_limit s
  ∧ billionths (estimated_total_cost s) (w_total_cost_nanos m) ∧ w_total_cost m = estimated_total_cost s
  ∧ billionths (estimated_spread_cost s) (w_spread_cost_nanos m) ∧ w_spread_cost m = estimated_spread_cost s
  ∧ billionths (estimated_market_impact s) (w_market_impact_nanos m) ∧ w_market_impact m = estimated_market_impact s
  ∧ billionths (estimated_venue_fees s) (w_venue_fees_nanos m) ∧ w_venue_fees m = estimated_venue_fees s.
Proof.
  intros Hs H. unfold to_proto, set_string, set_int64 in H.
  do 15 (apply bind_ok in H as (? & ? & H)). apply Ok_inj in H as <-.
  repeat match goal with
  | H : (if str_ok ?x then _ else _) = Ok _ |- _ => destruct (str_ok x); [apply Ok_inj in H as <-|done]
  | H : (if ?b then Ok ?x else raise _ (u "Value out of range")) = Ok _ |- _ => destruct b; [apply Ok_inj in H as <-|done]
  end.
  match goal with
  | H : _enum_number side_value _ _ = Ok _, H' : _enum_number status_value _ _ = Ok _,
    H'' : _enum_number regime_value _ _ = Ok _ |- _ =>
      apply side_roundtrip in H; apply status_roundtrip in H'; apply regime_roundtrip in H'' end.
  split; [|by split_and!; try by eapply to_nanos_billionths].
  unfold from_proto. cbn [w_quantity_nanos w_price_limit_nanos w_total_cost_nanos w_spread_cost_nanos
    w_market_impact_nanos w_venue_fees_nanos w_quantity w_price_limit w_total_cost w_spread_cost w_market_impact
    w_venue_fees w_side w_status w_regime].
  repeat (erewrite check_own_nanos by eassumption; cbn [mbind result_bind]).
  repeat match goal with H : _enum_name _ _ = Ok _ |- _ => rewrite H; clear H; cbn [mbind result_bind] end.
  by destruct s.
Qed.

(** The wire representation of a signal: what the motor later reads of it. *)
Lemma to_proto_keeps s strategy m :
  to_proto s strategy = Ok m →
  w_signal_id m = signal_id s ∧ w_symbol m = sig_symbol s ∧ w_strategy_id m = strategy.
Proof.
  unfold to_proto, set_string. intros H.
  do 15 (apply bind_ok in H as (? & ? & H)). apply Ok_inj in H as <-. cbn.
  repeat match goal with H : (if str_ok ?x then _ else _) = Ok _ |- _ => destruct (str_ok x); [apply Ok_inj in H|done] end.
  by subst.
Qed.

Lemma request_keeps d m c q :
  build_execute_request d m c = Ok q →
  q_decision q = d ∧ q_signal q = m ∧ n_symbol (q_snapshot q) = dc_symbol c ∧ n_is_stale (q_snapshot q) = false.
Proof.
  unfold build_execute_request, set_string. intros H. do 7 (apply bind_ok in H as (? & ? & H)).
  apply Ok_inj in H as <-. cbn. destruct (str_ok (dc_symbol c)); [|done]. ok_inv. by subst.
Qed.

(** ** The relay: facts *)

(** An error of the relay: a [SinkError], or the cancellation of the task. *)
Definition sink_failure (e : exn) : Prop := exn_kind e = SinkError ∨ cancelled e = true.

Lemma as_sink_error_inv {A} what (m : M (list Sent) A) w r w' :
  as_sink_error what m w = (r, w') →
  (∃ a, m w = (Ok a, w') ∧ r = Ok a) ∨ (∃ e0 e, m w = (Raise e0, w') ∧ r = Raise e ∧ sink_failure e).
Proof.
  unfold as_sink_error, catch_all. destruct (m w) as [[a|e] w1]; [intros [= <- <-]; by eauto|].
  unfold lift. intros [= <- <-]. right. exists e. destruct (cancelled e) eqn:Ec.
  - exists e. split; [done|]. split; [done|]. by right.
  - eexists. split; [done|]. split; [done|]. by left.
Qed.

Section relay.
Context (submit : list Sent → SignalMsg → result Decision) (execute : list Sent → Sent → result Ack).

(** Of the four decisions only DECISION_APPROVED, number 1 of the enum, passes, and it must carry an
    attestation. *)
Lemma decision_approved d :
  _decision_is_approved_with_attestation d = true ↔
  Compliance.d_decision (dec_message d) = 1 ∧ is_Some (Compliance.d_attestation (dec_message d)).
Proof.
  unfold _decision_is_approved_with_attestation, _decision_status_name, decision_names. cbn [List.find snd].
  destruct (Z.eqb_spec 1 (Compliance.d_decision (dec_message d))) as [E|E].
  - rewrite <- E. cbn. destruct (Compliance.d_attestation _); naive_solver.
  - split; [|intros [? _]; congruence]. destruct (0 =? _); [done|]. destruct (2 =? _); [done|].
    by destruct (3 =? _).
Qed.

(** What the motor is sent for a decision. *)
Definition motor_message (d : Decision) (m : SignalMsg) (c : option DecisionContext) (x : Sent) : Prop :=
  x = ToMotorPlain d ∨ ∃ c' q, c = Some c' ∧ build_execute_request d m c' = Ok q ∧ x = ToMotor q.

Lemma motor_send_inv builder d m c w r w' :
  motor_send execute builder d (Some m) c w = (r, w') →
  (w' = w ∨ ∃ x, motor_message d m c x ∧ w' = w ++ [x]) ∧
  match r with Ok _ => True | Raise e => sink_failure e end.
Proof.
  unfold motor_send. intros H.
  assert (∀ r1 w1, match builder, Some m, c with
    | true, Some m, Some c => request ← lift (build_execute_request d m c); Execute execute (ToMotor request)
    | _, _, _ => Execute execute (ToMotorPlain d) end w = (r1, w1) →
    w1 = w ∨ ∃ x, motor_message d m c x ∧ w1 = w ++ [x]) as Hsend.
  { intros r1 w1 H1. destruct builder, c as [c|].
    2-4: injection H1 as <- <-; right; eexists; split; [by left|done].
    m_step H1.
    - injection E as E <-. unfold Execute in H1. injection H1 as <- <-. right. eexists. split; [|done].
      right. by eexists _, _.
    - injection E as _ <-. by left. }
  m_step H.
  - injection H as <- <-. apply as_sink_error_inv in E as [(a1 & E & _)|(e0 & e & _ & ? & _)]; [|done].
    split; [by eapply Hsend|done].
  - subst r. apply as_sink_error_inv in E as [(a1 & _ & ?)|(e0 & e1 & E & He & Hf)]; [done|].
    injection He as <-. split; [by eapply Hsend|done].
Qed.

(** The relay hands the motor nothing but a decision that Aegis approved and attested, for the
    very signal it was sent: at most one message to Aegis, the signal's own, and then at most one
    to the motor, with that decision. The caller gets a receipt, a [SinkError] or its own
    cancellation, and a receipt only after Aegis answered. *)
Theorem relay_only_approved builder strategy sig c w r w' :
  relay_send submit execute builder strategy sig c w = (r, w') →
  (∃ sent, w' = w ++ sent ∧
     (sent = [] ∨ ∃ m, to_proto sig strategy = Ok m ∧
        (sent = [ToAegis m] ∨
         ∃ d x, submit w m = Ok d ∧ _decision_is_approved_with_attestation d = true
           ∧ motor_message d m c x ∧ sent = [ToAegis m; x])))
  ∧ match r with
    | Ok _ => ∃ m d, to_proto sig strategy = Ok m ∧ submit w m = Ok d
    | Raise e => sink_failure e
    end.
Proof.
  unfold relay_send. intros H.
  assert (∀ r1 w1, (m ← lift (to_proto sig strategy); d ← SubmitSignal submit m; mret (m, d)) w = (r1, w1) →
    (w1 = w ∧ ∃ e, r1 = Raise e) ∨ ∃ m, to_proto sig strategy = Ok m ∧ w1 = w ++ [ToAegis m]
      ∧ ∀ x, r1 = Ok x → x.1 = m ∧ submit w m = Ok x.2) as Hsub.
  { intros r1 w1 H1. m_step H1; injection E as Em <-; [|left; by eauto].
    right. exists a. split; [done|]. m_step H1; injection E as Ed <-.
    - injection H1 as <- <-. split; [done|]. by intros x [= <-].
    - subst r1. split; [done|]. by intros x [=]. }
  m_step H.
  2:{ subst r. apply as_sink_error_inv in E as [(? & _ & ?)|(e0 & e1 & E & He & Hf)]; [done|]. injection He as <-.
      split; [|done]. apply Hsub in E as [[-> _]|(m & Hm & -> & _)]; [exists []; by rewrite app_nil_r; auto|].
      exists [ToAegis m]. eauto 10. }
  apply as_sink_error_inv in E as [(x & E & Hx)|(? & ? & _ & ? & _)]; [|done]. injection Hx as <-.
  apply Hsub in E as [[-> [? ?]]|(m & Hm & -> & Hd)]; [done|]. destruct a as [m' d]. 
  destruct (Hd _ eq_refl) as [Hm' Hdec]. cbn [fst snd] in Hm', Hdec. subst m'. clear Hsub Hd.
  destruct (_decision_is_approved_with_attestation d) eqn:Ha; cbn [negb] in H.
  2:{ injection H as <- <-. split; [|by eauto]. exists [ToAegis m]. eauto 10. }
  assert (∀ r2 w2, motor_send execute builder d (Some m) c (w ++ [ToAegis m]) = (r2, w2) →
    (∃ sent, w2 = w ++ sent ∧ (sent = [ToAegis m] ∨ ∃ d x, submit w m = Ok d
       ∧ _decision_is_approved_with_attestation d = true ∧ motor_message d m c x ∧ sent = [ToAegis m; x]))) as Hsent.
  { intros r2 w2 H2. apply motor_send_inv in H2 as [[->|(x & Hx & ->)] _]; [by eauto|].
    rewrite <- app_assoc. exists [ToAegis m; x]. eauto 10. }
  m_step H.
  - injection H as <- <-. unfold catch_all in E.
    destruct (motor_send execute builder d (Some m) c (w ++ [ToAegis m])) as [[rc|e] w2] eqn:E2;
      [|unfold lift in E; injection E as E _; by case_bool_decide].
    injection E as <- <-. split; [|by eauto]. destruct (Hsent _ _ eq_refl) as (sent & -> & Hs). eauto 10.
  - subst r. unfold catch_all in E.
    destruct (motor_send execute builder d (Some m) c (w ++ [ToAegis m])) as [[rc|e1] w2] eqn:E2; [discriminate E|].
    apply motor_send_inv in E2 as [_ Hf]. unfold lift in E. injection E as He <-.
    split; [destruct (Hsent _ _ eq_refl) as (sent & -> & Hs); eauto 10|].
    case_bool_decide; injection He as <-; [by left|done].
Qed.
End relay.

(** ** The relay and the motor's gate *)

(** The context the motor reads of a request ([compliance.py]'s [ExecutionContext]). *)
Definition request_context (q : ExecuteRequestMsg) : Compliance.ExecutionContext :=
  Compliance.mkContext
    (Some (Compliance.mkTradeSignal (w_signal_id (q_signal q)) (w_symbol (q_signal q)) (w_strategy_id (q_signal q))))
    (Some (Compliance.mkSnapshot (n_symbol (q_snapshot q)))).

(** C25: The request the relay builds passes the motor's context check whenever Aegis decided about
    that signal, its order names the signal and its symbol, the debate's context is of that symbol
    and the strategy is not blank: the two ends agree. *)
Theorem relayed_context_binds s strategy m d c q :
  make_signal s = Ok s → is_blank strategy = false →
  to_proto s strategy = Ok m → build_execute_request d m c = Ok q → dc_symbol c = sig_symbol s →
  Compliance.d_signal_id (dec_message d) = signal_id s →
  ProtoAdapter.m_signal_id (Compliance.order_of (dec_message d)) = signal_id s →
  ProtoAdapter.m_symbol (Compliance.order_of (dec_message d)) = sig_symbol s →
  Compliance.bind_context (dec_message (q_decision q)) (request_context q) = None.
Proof.
  intros Hs Hst Hm Hq Hc Hd Hoi Hos. apply to_proto_keeps in Hm as (Hi & Hy & Hg).
  apply request_keeps in Hq as (-> & Hqm & Hn & _). unfold Compliance.bind_context, request_context.
  cbn [Compliance.c_signal Compliance.c_snapshot Compliance.s_signal_id Compliance.s_symbol Compliance.s_strategy_id
       Compliance.n_symbol].
  rewrite Hqm, Hi, Hy, Hg, Hn, Hc, Hd, Hoi, Hos, Hst, !str_eqb_refl. cbn [andb negb orb].
  rewrite bool_decide_eq_false_2; [done|]. intros Hnil. unfold make_signal, signal_fields_ok in Hs.
  cbn [signal_id] in Hs. by rewrite Hnil in Hs.
Qed.

(** In production no channel to Aegis or to the motor is insecure, and a certificate never
    comes without its key. *)
Theorem production_channels_are_secure read_bytes host port target env ch :
  production env = true →
  (open_aegis_channel read_bytes host port env = Ok ch ∨ open_motor_channel read_bytes target env = Ok ch) →
  ∃ to root chain key, ch = Secure to (Some root) chain key ∧ (chain = None ↔ key = None).
Proof.
  intros Hp H.
  assert (∀ prefix t, (tls ← tls_from_env prefix env; open_channel read_bytes t tls) = Ok ch →
    ∃ to root chain key, ch = Secure to (Some root) chain key ∧ (chain = None ↔ key = None)) as Hc.
  { clear H. intros prefix t H. apply bind_ok in H as (tls & Ht & H). unfold tls_from_env in Ht.
    destruct (negb _) eqn:Epair; [done|]. apply negb_false_iff, Bool.eqb_true_iff in Epair. rewrite Hp in Ht.
    destruct (_optional_str _) as [ca|] in Ht; cbn [andb] in Ht; [|done]. apply Ok_inj in Ht as <-.
    unfold open_channel, CogSinks.ca, CogSinks.cert, CogSinks.key in H.
    apply bind_ok in H as (root & Hr & H). apply bind_ok in H as (chain & Hch & H).
    apply bind_ok in H as (k & Hk & H). apply Ok_inj in H as <-.
    assert (∀ p b, _read_pem read_bytes p = Ok b → (p = None ↔ b = None)) as Hpem.
    { intros [p|] b Hb; [|by injection Hb as <-]. unfold _read_pem, try_except in Hb.
      destruct (read_bytes p) as [x|e]; cbn in Hb; [by injection Hb as <-|]. by case_match. }
    apply Hpem in Hr, Hch, Hk. destruct root as [root|]; [|discriminate (proj2 Hr eq_refl)].
    exists t, root, chain, k. split; [done|]. rewrite <- Hch, <- Hk.
    destruct (_optional_str _), (_optional_str _); naive_solver. }
  destruct H as [H|H]; by eapply Hc.
Qed.

(** ** A concrete relay *)

Definition wire_example : TradeSignal :=
  mkTradeSignal (u "id-1") (u "AAPL") 1 BUY f1 f1 f1 f1 f0 f1 f1 f0 f0 f0 f0 CRISIS f1 (u "s") f0 2 SIGNAL_PENDING.
Definition decision_example : Decision :=
  mkDecision (Compliance.mkAegisDecision 1 (u "id-1")
    (Some (ProtoAdapter.mkOrderRequest (u "o-1") (u "id-1") (u "AAPL") 0 0 0 0 0 0 0 0 [] [] [] [] [] [] 0))
    (Some (ProtoAdapter.mkAttestationMsg [] [] [] 0 0 0 [] []))) [].
Definition sent_context : DecisionContext :=
  mkDecisionContext (u "AAPL") 5 f1 f0 f0 f0 f0 f1 (u "CRISIS") (u "b") (u "r") (u "j") [].

Lemma wire_runs : make_signal wire_example = Ok wire_example ∧ is_ok (to_proto wire_example (u "s-1")) = true.
Proof. split; vm_compute; reflexivity. Qed.
Lemma request_runs m : is_ok (build_execute_request decision_example m sent_context) = true.
Proof. vm_compute. reflexivity. Qed.
Lemma is_ok_ex {A} (r : result A) : is_ok r = true → ∃ a, r = Ok a.
Proof. destruct r; [by eauto|done]. Qed.

Lemma signal_survives_the_wire_witness : ∃ m, from_proto m = Ok wire_example
  ∧ billionths f1 (w_quantity_nanos m) ∧ billionths f0 (w_price_limit_nanos m).
Proof.
  destruct wire_runs as [H1 H2]. destruct (is_ok_ex _ H2) as [m Hm]. exists m.
  destruct (signal_survives_the_wire wire_example (u "s-1") m H1 Hm) as (R & _ & Q & _ & P & _).
  split; [exact R|]. split; [exact Q|exact P].
Defined.

Lemma relay_runs : ∃ r w', relay_send (λ _ _, Ok decision_example) (λ _ _, Ok (mkAck true [])) true (u "s-1")
  wire_example (Some sent_context) [] = (r, w') ∧ is_ok r = true ∧ length w' = 2%nat.
Proof. eexists _, _. split; [apply surjective_pairing|]. split; vm_compute; reflexivity. Qed.
Lemma relay_only_approved_witness : ∃ m (w' : list Sent), to_proto wire_example (u "s-1") = Ok m ∧ length w' = 2%nat.
Proof.
  destruct relay_runs as (r & w' & H & Hr & Hl). destruct (is_ok_ex _ Hr) as [rc ->].
  destruct (proj2 (relay_only_approved _ _ _ _ _ _ _ _ _ H)) as (m & _ & Hm & _). by exists m, w'.
Defined.

Lemma relayed_context_binds_witness : ∃ q, Compliance.bind_context (dec_message (q_decision q)) (request_context q) = None.
Proof.
  destruct wire_runs as [H1 H2]. destruct (is_ok_ex _ H2) as [m Hm]. destruct (is_ok_ex _ (request_runs m)) as [q Hq].
  exists q. exact (relayed_context_binds wire_example (u "s-1") m decision_example sent_context q
    H1 eq_refl Hm Hq eq_refl eq_refl eq_refl eq_refl).
Defined.

Definition tls_example : gmap pystr pystr :=
  list_to_map [(u "ENVIRONMENT", u "production"); (u "AEGIS_CLIENT_TLS_CA", u "/ca.pem")].
Lemma tls_runs : production tls_example = true
  ∧ open_aegis_channel (λ _, Ok []) (u "aegis") 1 tls_example = Ok (Secure (u "aegis:1") (Some []) None None).
Proof. split; vm_compute; reflexivity. Qed.
Lemma production_channels_are_secure_witness : ∃ ch to root chain key,
  ch = Secure to (Some root) chain key ∧ (chain = None ↔ key = None).
Proof.
  destruct tls_runs as [H1 H2]. eexists.
  exact (production_channels_are_secure (λ _, Ok []) (u "aegis") 1 [] tls_example _ H1 (or_introl H2)).
Defined.
