(* ===== verification/CogRunner.v ===== *)
(** * Cognitive core: the runner ([service.py], [health.py], [__main__.py])

    A market snapshot comes in; halt gate, snapshot check, symbol list, cooldown, memory, debate, halt
    gate again, delivery. Then the bounded queue between the source and the loop as a step relation,
    the health state, and the start of the process. The clocks, the answers of the models and of the
    stubs, the memory and the halt file are parameters. *)
From S2P Require Import Prelude PyStr PyFloat Json.
From S2P Require Import CogModels CogText CogSizing CogConfig CogSignal CogDebate CogContext CogSinks.

(** ** Health ([health.py]) *)

Record HealthState := mkHealth {
  max_beat_age : pyfloat; last_beat : option pyfloat; stopped : bool; is_halted : bool; counters : gmap pystr Z }.

Definition make_health (max_beat_age_s : pyfloat) : result HealthState :=
  if negb (float_ltb f0 max_beat_age_s) then raise ValueError (u "max_beat_age_s must be positive")
  else Ok (mkHealth max_beat_age_s None false false ∅).
Definition beat (now : pyfloat) (h : HealthState) : HealthState :=
  mkHealth (max_beat_age h) (Some now) (stopped h) (is_halted h) (counters h).
Definition count (name : pystr) (h : HealthState) : HealthState :=
  mkHealth (max_beat_age h) (last_beat h) (stopped h) (is_halted h)
    (<[name := default 0 (counters h !! name) + 1]> (counters h)).
Definition set_halted (b : bool) (h : HealthState) : HealthState :=
  mkHealth (max_beat_age h) (last_beat h) (stopped h) b (counters h).
Definition stop_health (h : HealthState) : HealthState :=
  mkHealth (max_beat_age h) (last_beat h) true (is_halted h) (counters h).

(** [last_beat_age_s] is the age itself; the code rounds it to milliseconds for the reader. *)
Record HealthBody := mkBody {
  hb_status : pystr; hb_halted : bool; hb_last_beat_age : option pyfloat; hb_counters : gmap pystr Z }.
Definition snapshot (now : pyfloat) (h : HealthState) : bool * HealthBody :=
  let age := match last_beat h with Some t => Some (float_sub now t) | None => None end in
  let healthy := negb (stopped h) && match age with Some a => float_leb a (max_beat_age h) | None => false end in
  (healthy, mkBody (if healthy then u "ok" else u "unhealthy") (is_halted h) age (counters h)).

Definition HEALTH_PATH : pystr := u "/health".
(** The status and the body of [GET path]. *)
Definition do_GET (path : pystr) (now : pyfloat) (h : HealthState) : Z * option HealthBody :=
  if negb (str_eqb (hd [] (ServerConfig.split_on 63 path)) HEALTH_PATH) then (404, None)
  else let '(healthy, body) := snapshot now h in (if healthy then 200 else 503, Some body).

(** ** The runner's state *)

Definition QUEUE_SIZE : nat := 64.
Definition MAX_TRACKED_SYMBOLS : Z := 10000.

Inductive CycleOutcome :=
  | HALTED | DROPPED_INVALID | SKIPPED_SYMBOL | SKIPPED_COOLDOWN | SKIPPED_MEMORY
  | ABSTAINED | EMITTED | SINK_FAILED | ERROR.
#[export] Instance CycleOutcome_eq_dec : EqDecision CycleOutcome. Proof. solve_decision. Defined.
Definition outcome_value (o : CycleOutcome) : pystr :=
  match o with
  | HALTED => u "halted" | DROPPED_INVALID => u "dropped_invalid" | SKIPPED_SYMBOL => u "skipped_symbol"
  | SKIPPED_COOLDOWN => u "skipped_cooldown" | SKIPPED_MEMORY => u "skipped_memory_unavailable"
  | ABSTAINED => u "abstained" | EMITTED => u "emitted" | SINK_FAILED => u "sink_failed" | ERROR => u "error" end.

(** What the runner keeps, and what happened around it: the models called and the readings of the
    monotonic clock ([world]), what was sent, the requests to the memory, how often the halt gate
    was consulted and the wall clock read, how many debates were held. *)
Record Cell := mkCell {
  last_debate : gmap pystr pyfloat; was_halted : bool; health : HealthState;
  world : World; sent : list Sent; recalls : list RecallArgs; records : list DebateRecord;
  probes : nat; walls : nat; debates : nat }.

Definition with_cooldowns (x : gmap pystr pyfloat) (c : Cell) : Cell :=
  mkCell x (was_halted c) (health c) (world c) (sent c) (recalls c) (records c) (probes c) (walls c) (debates c).
Definition with_halt (b : bool) (c : Cell) : Cell :=
  mkCell (last_debate c) b (set_halted b (health c)) (world c) (sent c) (recalls c) (records c) (S (probes c)) (walls c)
    (debates c).
Definition with_health (h : HealthState) (c : Cell) : Cell :=
  mkCell (last_debate c) (was_halted c) h (world c) (sent c) (recalls c) (records c) (probes c) (walls c) (debates c).
Definition with_world (w : World) (c : Cell) : Cell :=
  mkCell (last_debate c) (was_halted c) (health c) w (sent c) (recalls c) (records c) (probes c) (walls c) (debates c).
Definition with_sent (s : list Sent) (c : Cell) : Cell :=
  mkCell (last_debate c) (was_halted c) (health c) (world c) s (recalls c) (records c) (probes c) (walls c) (debates c).
Definition with_recall (r : RecallArgs) (c : Cell) : Cell :=
  mkCell (last_debate c) (was_halted c) (health c) (world c) (sent c) (recalls c ++ [r]) (records c) (probes c) (walls c)
    (debates c).
Definition with_record (r : DebateRecord) (c : Cell) : Cell :=
  mkCell (last_debate c) (was_halted c) (health c) (world c) (sent c) (recalls c) (records c ++ [r]) (probes c) (walls c)
    (debates c).
Definition with_wall (c : Cell) : Cell :=
  mkCell (last_debate c) (was_halted c) (health c) (world c) (sent c) (recalls c) (records c) (probes c) (S (walls c))
    (debates c).
Definition with_debate (c : Cell) : Cell :=
  mkCell (last_debate c) (was_halted c) (health c) (world c) (sent c) (recalls c) (records c) (probes c) (walls c)
    (S (debates c)).

(** An operation of one part of the state. *)
Definition zoom {S T A} (get : S → T) (set : T → S → S) (m : M T A) : M S A := λ s,
  let '(r, t) := m (get s) in (r, set t s).

(** ** The interface of a sink ([SignalSink]) *)

(** What is sent is about this signal and what the debate saw. *)
Definition about (sig : TradeSignal) (c : option DecisionContext) (x : Sent) : Prop :=
  match x with
  | ToAegis m => w_signal_id m = signal_id sig ∧ w_symbol m = sig_symbol sig
  | ToMotor q => w_signal_id (q_signal q) = signal_id sig ∧ ∃ c', c = Some c' ∧ n_symbol (q_snapshot q) = dc_symbol c'
                 ∧ _decision_is_approved_with_attestation (q_decision q) = true
  | ToMotorPlain d => _decision_is_approved_with_attestation d = true
  end.

(** A sink sends what is about the signal it is given, and fails with a [SinkError] only. *)
Class SignalSink := {
  send : TradeSignal → option DecisionContext → M (list Sent) SinkReceipt;
  send_law : ∀ sig c w r w', send sig c w = (r, w') →
    (∃ new, w' = w ++ new ∧ Forall (about sig c) new) ∧
    match r with Ok _ => True | Raise e => sink_failure e end }.

(** ** One message *)

Definition decision_context (i : DebateInput) (final : option DebateState) (cognitive : CognitiveSettings)
  : DecisionContext :=
  let market := in_context i in
  let blue :=
    match final ≫= blue_thesis with
    | Some t =>
        side_value (b_side t) ++ u ": " ++ rationale t
        ++ (if bool_decide (key_factors t = []) then [] else u " | factors: " ++ join (u "; ") (key_factors t))
        ++ (if b_forced t then u " | FORCED" else [])
    | None => []
    end in
  let red :=
    match final ≫= red_challenge with
    | Some c =>
        u "counter: " ++ join (u "; ") (counter_factors c)
        ++ u " | failure patterns: " ++ join (u "; ") (failure_patterns c)
        ++ (if r_forced c then u " | FORCED" else [])
    | None => []
    end in
  let judge := default [] (final ≫= d_summary) in
  mkDecisionContext (symbol market) (ingestion_ts_ns i) (mid_price market) (z_score market) (mad_score market)
    (ofi market) (realized_vol market) (adv_30d market) (regime_value (in_regime i)) blue red judge
    [ (u "cognitive-core/blue", blue_model cognitive); (u "cognitive-core/red", red_model cognitive);
      (u "cognitive-core/judge", judge_model cognitive); (u "cognitive-core/compression", compression_model cognitive) ].

(** The world around the runner. A [nat] argument counts the calls made so far: the clocks, the
    halt file, the models, the memory, and for each debate whether its overall deadline expired,
    whether the graph library failed, and the identifier drawn. *)
Record Surroundings := mkSurroundings {
  monotonic : nat → pyfloat; clock_ns : nat → Z; halt_file : nat → file_probe;
  client : Node → nat → pystr → Z → pyfloat → Reply;
  expired : nat → bool; library : nat → option exn; new_id : nat → pystr;
  recall : option (nat → RecallArgs → result (list PrecedentLike));
  write_debate : option (nat → DebateRecord → result unit);
  parse_json : pystr → option json; json_failure : pystr → exn_class; too_deep : pystr → bool;
  dump_context : MarketContext → pystr; dump_blue : BlueThesis → pystr;
  dump_red : RedChallenge → pystr; dump_verdict : JudgeVerdict → pystr }.

Section runner.
Context (o : Surroundings) (settings : RunnerSettings) (cognitive : CognitiveSettings) (gate : HaltGate).
Context `{SignalSink}.

Definition time_ns : M Cell Z := λ c, (Ok (clock_ns o (walls c)), with_wall c).
Definition monotonic_now : M Cell pyfloat := zoom world with_world (now_s (monotonic o)).
Definition count_outcome (name : pystr) : M Cell unit := modify (λ c, with_health (count name (health c)) c).

Definition _halted : M Cell bool := λ c,
  let status := check gate (halt_file o (probes c)) in (Ok (halted status), with_halt (halted status) c).

Definition _cooldown_elapsed (sym : pystr) : M Cell bool :=
  now ← monotonic_now;
  c ← get_state;
  if match last_debate c !! sym with
     | Some last => float_ltb (float_sub now last) (min_debate_interval_s settings)
     | None => false end then mret false
  else
    let kept := if MAX_TRACKED_SYMBOLS <=? Z.of_nat (base.size (last_debate c)) then ∅ else last_debate c in
    modify (with_cooldowns (<[sym := now]> kept));; mret true.

Definition recall_now (i : DebateInput) : M Cell RecallResult := λ c,
  let provider := match recall o with Some f => Some (f (length (recalls c))) | None => None end in
  (recall_precedents provider (in_context i) (in_regime i) (memory_top_k settings),
   match recall o with
   | Some _ => with_recall (mkRecallArgs (symbol (in_context i)) (regime_value (in_regime i))
                 (build_recall_query (in_context i) (in_regime i))
                 (Z.min (memory_top_k settings) (Z.of_nat MAX_PRECEDENTS))) c
   | None => c end).

Definition _initial_state (i : DebateInput) : M Cell (option DebateState) :=
  recalled ← recall_now i;
  if bool_decide (rc_status recalled = unavailable) && memory_required settings then mret None
  else mret (Some (apply_recall (initial_state i) recalled)).

Definition debate_now (s : DebateState) : M Cell (TradeSignal * option DebateState) := λ c,
  zoom world with_world
    (run_debate_with_state (monotonic o) (client o) (parse_json o) (dump_context o) (dump_blue o) (dump_red o)
       (dump_verdict o) cognitive (expired o (debates c)) (library o (debates c)) (new_id o (debates c))
       (clock_ns o (walls c)) s (order_quantity settings) (CogSizing.size <$> sizer settings))
    (with_wall (with_debate c)).

Definition write_now (sig : TradeSignal) : M Cell bool := λ c,
  let writer := match write_debate o with Some f => Some (f (length (records c))) | None => None end in
  (write_debate_record writer sig,
   match write_debate o with Some _ => with_record (debate_record_args sig) c | None => c end).

Definition _deliver (sig : TradeSignal) (recordable : bool) (context : option DecisionContext) : M Cell CycleOutcome :=
  let actionable := negb (bool_decide (status sig = SIGNAL_ABSTAIN)) in
  failed ←
    (if actionable || emit_abstain settings then
       catch_all (zoom sent with_sent (send sig context);; mret false)
         (λ e, if bool_decide (exn_kind e = SinkError) then mret true else lift (Raise e))
     else mret false);
  if failed : bool then mret SINK_FAILED
  else
    (if recordable then write_now sig;; mret tt else mret tt);;
    mret (if actionable then EMITTED else ABSTAINED).

Definition _handle (raw : message) : M Cell CycleOutcome :=
  h ← _halted;
  if h : bool then mret HALTED
  else
    now ← time_ns;
    match parse_snapshot (json_failure o) (too_deep o) raw now (max_context_age_s settings) with
    | Raise e => if bool_decide (exn_kind e = ContextError) then mret DROPPED_INVALID else lift (Raise e)
    | Ok i =>
        let sym := symbol (in_context i) in
        if negb (bool_decide (symbols settings = ∅)) && negb (bool_decide (sym ∈ symbols settings)) then
          mret SKIPPED_SYMBOL
        else
          elapsed ← _cooldown_elapsed sym;
          if negb elapsed then mret SKIPPED_COOLDOWN
          else
            state ← _initial_state i;
            match state with
            | None => mret SKIPPED_MEMORY
            | Some state =>
                '(sig, final) ← debate_now state;
                h ← _halted;
                if h : bool then mret HALTED
                else _deliver sig (is_recordable final) (Some (decision_context i final cognitive))
            end
    end.

Definition handle_message (raw : message) : M Cell CycleOutcome :=
  outcome ← except_failure (_handle raw) (λ _, mret ERROR);
  count_outcome (outcome_value outcome);;
  mret outcome.

(** ** The loop *)

Inductive Pump := Pumping | Ended | Failed (e : exn).
(** Where the loop is: about to test [stop], waiting for the queue, or done with a result. *)
Inductive Phase := AtLoop | Waiting | Returned (r : result unit).
Record Loop := mkLoop { queue : list message; pump : Pump; stop_set : bool; phase : Phase; cell : Cell }.

(** [queue.put_nowait(raw)], a full queue losing its oldest message first. *)
Definition pump_message (raw : message) (l : Loop) : Loop :=
  let full := (QUEUE_SIZE <=? length (queue l))%nat in
  mkLoop ((if full then tail (queue l) else queue l) ++ [raw]) (pump l) (stop_set l) (phase l)
    (if full then with_health (count (u "queue_dropped") (health (cell l))) (cell l) else cell l).

Definition SourceError : exn_class := OtherError (u "SourceError").
Definition _finish (p : Pump) : result unit :=
  match p with
  | Failed e =>
      if cancelled e then Ok tt
      else raise SourceError (u "context source failed: " ++ exn_name (exn_kind e) ++ u ": " ++ exn_msg e)
  | _ => Ok tt
  end.

(** [finally]: the pump is cancelled and the health state stopped. *)
Definition leave (r : result unit) (l : Loop) : Loop :=
  mkLoop (queue l) (match pump l with Pumping => Ended | p => p end) (stop_set l) (Returned r)
    (with_health (stop_health (health (cell l))) (cell l)).

(** The top of the loop. *)
Definition loop_top (l : Loop) : Loop :=
  if stop_set l then leave (Ok tt) l
  else
    let c := (monotonic_now (cell l)).2 in
    let c := with_health (beat (monotonic o (readings (world (cell l)))) (health c)) c in
    let l := mkLoop (queue l) (pump l) (stop_set l) (phase l) c in
    match pump l, queue l with
    | Pumping, _ | _, _ :: _ => mkLoop (queue l) (pump l) (stop_set l) Waiting (cell l)
    | p, [] => leave (_finish p) l
    end.

(** A message is taken and handled. What the pump does meanwhile touches only the queue and a
    counter, so it can be seen as happening before or after. *)
Definition take_message (raw : message) (rest : list message) (l : Loop) : Loop :=
  match handle_message raw (cell l) with
  | (Ok _, c) => mkLoop rest (pump l) (stop_set l) AtLoop c
  | (Raise e, c) => leave (Raise e) (mkLoop rest (pump l) (stop_set l) (phase l) c)
  end.

(** Who moves: the pump puts a message, the loop takes one, or anything else. *)
Inductive label := Put (raw : message) | Took (raw : message) | Tau.
Inductive step : Loop → label → Loop → Prop :=
  | step_pump raw l : pump l = Pumping → step l (Put raw) (pump_message raw l)
  | step_end q s p c : step (mkLoop q Pumping s p c) Tau (mkLoop q Ended s p c)
  | step_fail e q s p c : step (mkLoop q Pumping s p c) Tau (mkLoop q (Failed e) s p c)
  | step_stop q u s p c : step (mkLoop q u s p c) Tau (mkLoop q u true p c)
  | step_top l : phase l = AtLoop → step l Tau (loop_top l)
  | step_take raw rest l : phase l = Waiting → queue l = raw :: rest → step l (Took raw) (take_message raw rest l)
  | step_timeout q u s c : step (mkLoop q u s Waiting c) Tau (mkLoop q u s AtLoop c)
  | step_cancel l : phase l = Waiting → step l Tau (leave (Raise (Exn CancelledError [])) l).

Definition initial_loop (c : Cell) : Loop := mkLoop [] Pumping false AtLoop c.

(** A history of the loop: the messages put and the messages taken, in order. *)
Inductive history (c0 : Cell) : list message → list message → Loop → Prop :=
  | history_start : history c0 [] [] (initial_loop c0)
  | history_put a h l raw l' : history c0 a h l → step l (Put raw) l' → history c0 (a ++ [raw]) h l'
  | history_took a h l raw l' : history c0 a h l → step l (Took raw) l' → history c0 a (h ++ [raw]) l'
  | history_tau a h l l' : history c0 a h l → step l Tau l' → history c0 a h l'.

(** The loop left to itself, [fuel] moves long: it takes what is queued and waits otherwise. *)
Fixpoint drive (fuel : nat) (l : Loop) : Loop :=
  match fuel with
  | O => l
  | S fuel =>
      match phase l, queue l with
      | AtLoop, _ => drive fuel (loop_top l)
      | Waiting, raw :: rest => drive fuel (take_message raw rest l)
      | Waiting, [] => drive fuel (mkLoop [] (pump l) (stop_set l) AtLoop (cell l))
      | Returned _, _ => l
      end
  end.

(** ** The process *)

Definition EXIT_OK : Z := 0.
Definition EXIT_SOURCE : Z := 1.
Definition EXIT_CONFIG : Z := 2.

(** [serve], given how [run] ended and whether [stop] was set. *)
Definition serve (ran : result unit) (stop : bool) : result Z :=
  match ran with
  | Raise e => if bool_decide (exn_kind e = SourceError) then Ok EXIT_SOURCE else Raise e
  | Ok _ => Ok (if negb stop then EXIT_SOURCE else EXIT_OK)
  end.
End runner.

(** [build_sink]'s sink and its channels. *)
Inductive BuiltSink := UseLog | UseAegis (channel : Channel) | UseRelay (channel motor_channel : Channel).

Section process.
(** The generated stubs can be imported, or fail to; [open] of a file; the vector memory opens, or
    fails to; the graph is built, or fails to be. *)
Context (load_generated_protos load_generated_motor_protos : result unit) (read_bytes : pystr → result pybytes).
Context (open_memory : result unit) (graph_factory : CognitiveSettings → result unit).

Definition ImportError : exn_class := OtherError (u "ImportError").

Definition _build_motor_sink (settings : RunnerSettings) (env : gmap pystr pystr) : result (option Channel) :=
  match load_generated_motor_protos with
  | Raise e => if bool_decide (exn_kind e = ImportError) then Ok None else Raise e
  | Ok _ =>
      motor_channel ← open_motor_channel read_bytes (motor_target settings) env;
      make_motor_sink (motor_timeout_s settings);;
      Ok (Some motor_channel)
  end.

Definition build_sink (settings : RunnerSettings) (env : gmap pystr pystr) : result BuiltSink :=
  match CogConfig.sink settings with
  | SinkLog => Ok UseLog
  | SinkGrpc =>
      load_generated_protos;;
      channel ← open_aegis_channel read_bytes (aegis_host settings) (aegis_port settings) env;
      motor_sink ← _build_motor_sink settings env;
      make_aegis_sink (strategy_id settings) (aegis_timeout_s settings);;
      Ok (match motor_sink with None => UseAegis channel | Some m => UseRelay channel m end)
  end.

Definition build_memory (settings : RunnerSettings) : result bool :=
  if negb (memory_enabled settings) then Ok false else open_memory;; Ok true.

(** Everything [amain] builds before it starts: the settings, the sink, whether there is a memory. *)
Definition startup (env : gmap pystr pystr) : result (RunnerSettings * CognitiveSettings * BuiltSink * bool) :=
  runner_settings ← runner_from_env env;
  cognitive ← load_settings env;
  sink ← build_sink runner_settings env;
  memory ← build_memory runner_settings;
  graph_factory cognitive;;
  Ok (runner_settings, cognitive, sink, memory).

(** [run]: how the loop ended with what was built, and whether [stop] was set. Any failure to start
    is exit code 2. *)
Definition amain (env : gmap pystr pystr)
    (run : RunnerSettings → CognitiveSettings → BuiltSink → bool → HealthState → result unit * bool) : result Z :=
  match startup env with
  | Raise _ => Ok EXIT_CONFIG
  | Ok (settings, cognitive, sink, memory) =>
      health ← make_health (max_beat_age_s settings);
      let '(ran, stop) := run settings cognitive sink memory health in serve ran stop
  end.
End process.

(** ** What a message may cause *)

Section facts.
Context (o : Surroundings) (settings : RunnerSettings) (cognitive : CognitiveSettings) (gate : HaltGate).
Context `{SignalSink}.

(** Whether the n-th consultation of the halt gate said "halted". *)
Definition halted_at (n : nat) : bool := halted (check gate (halt_file o n)).

(** A message that may lead to a debate. *)
Record admitted (raw : message) (c : Cell) (i : DebateInput) : Prop := {
  ad_running : halted_at (probes c) = false;
  ad_fresh : parse_snapshot (json_failure o) (too_deep o) raw (clock_ns o (walls c)) (max_context_age_s settings) = Ok i;
  ad_symbol : symbols settings = ∅ ∨ symbol (in_context i) ∈ symbols settings;
  ad_cooldown : ∀ last, last_debate c !! symbol (in_context i) = Some last →
    float_ltb (float_sub (monotonic o (readings (world c))) last) (min_debate_interval_s settings) = false }.

(** The debate about an input, with what the memory recalled. *)
Definition debated (c : Cell) (i : DebateInput) (sig : TradeSignal) (final : option DebateState) : Prop :=
  ∃ recalled w w',
    (bool_decide (rc_status recalled = unavailable) && memory_required settings = false)
    ∧ run_debate_with_state (monotonic o) (client o) (parse_json o) (dump_context o) (dump_blue o) (dump_red o)
        (dump_verdict o) cognitive (expired o (debates c)) (library o (debates c)) (new_id o (debates c))
        (clock_ns o (S (walls c))) (apply_recall (initial_state i) recalled) (order_quantity settings)
        (CogSizing.size <$> sizer settings) w = (Ok (sig, final), w').

Lemma cooldown_inv sym c r c' : _cooldown_elapsed o settings sym c = (r, c') →
  sent c' = sent c ∧ probes c' = probes c ∧ walls c' = walls c ∧ debates c' = debates c
  ∧ recalls c' = recalls c ∧ records c' = records c ∧ calls (world c') = calls (world c) ∧
  let now := monotonic o (readings (world c)) in
  let early := match last_debate c !! sym with
               | Some last => float_ltb (float_sub now last) (min_debate_interval_s settings) | None => false end in
  r = Ok (negb early)
  ∧ last_debate c' = if early then last_debate c
                     else <[sym := now]> (if MAX_TRACKED_SYMBOLS <=? Z.of_nat (base.size (last_debate c)) then ∅
                                          else last_debate c).
Proof.
  unfold _cooldown_elapsed, monotonic_now, zoom, now_s. cbv [mbind M_bind get_state modify mret M_ret].
  cbn [last_debate world with_world readings calls].
  destruct (match last_debate c !! sym with Some last => _ | None => _ end); intros [= <- <-]; by ands.
Qed.

Lemma initial_inv i c r c' : _initial_state o settings i c = (r, c') →
  sent c' = sent c ∧ probes c' = probes c ∧ walls c' = walls c ∧ debates c' = debates c
  ∧ last_debate c' = last_debate c ∧ world c' = world c ∧ records c' = records c ∧
  ∀ s, r = Ok (Some s) → ∃ recalled, s = apply_recall (initial_state i) recalled
    ∧ bool_decide (rc_status recalled = unavailable) && memory_required settings = false.
Proof.
  unfold _initial_state. intros Hi.
  assert (∀ r1 c1, recall_now o settings i c = (r1, c1) → sent c1 = sent c ∧ probes c1 = probes c ∧ walls c1 = walls c
    ∧ debates c1 = debates c ∧ last_debate c1 = last_debate c ∧ world c1 = world c ∧ records c1 = records c) as Hrec.
  { intros r1 c1. unfold recall_now. intros [= _ <-]. by destruct (recall o). }
  m_step Hi; apply Hrec in E; [|subst r; naive_solver].
  destruct (bool_decide _ && _) eqn:Eu; injection Hi as <- <-; naive_solver.
Qed.

Lemma send_inv sig ctx c r c' :
  catch_all (zoom sent with_sent (send sig ctx);; mret false)
    (λ e, if bool_decide (exn_kind e = SinkError) then mret true else lift (Raise e)) c = (r, c') →
  ∃ rs w', send sig ctx (sent c) = (rs, w') ∧ c' = with_sent w' c
  ∧ r = match rs with
        | Ok _ => Ok false
        | Raise e => if bool_decide (exn_kind e = SinkError) then Ok true else Raise e end.
Proof.
  unfold catch_all, zoom, mbind, M_bind. destruct (send sig ctx (sent c)) as [[receipt|e] w'].
  - intros [= <- <-]. by eexists _, _.
  - case_bool_decide as He; intros [= <- <-]; eexists _, _; (split; [done|]); split; try done; by case_bool_decide.
Qed.

Lemma deliver_inv sig recordable ctx c r c' : _deliver o settings sig recordable ctx c = (r, c') →
  last_debate c' = last_debate c ∧ calls (world c') = calls (world c)
  ∧ (sent c' = sent c ∧ (r = Ok EMITTED → False)
     ∨ (status sig ≠ SIGNAL_ABSTAIN ∨ emit_abstain settings = true)
       ∧ ∃ rs, send sig ctx (sent c) = (rs, sent c') ∧ (r = Ok EMITTED → ∃ receipt, rs = Ok receipt)).
Proof.
  unfold _deliver. intros Hd.
  assert (∀ c1 r2 c2, ((if recordable then write_now o sig;; mret tt else mret tt);;
      mret (if negb (bool_decide (status sig = SIGNAL_ABSTAIN)) then EMITTED else ABSTAINED)) c1 = (r2, c2) →
    last_debate c2 = last_debate c1 ∧ world c2 = world c1 ∧ sent c2 = sent c1
    ∧ (r2 = Ok EMITTED → negb (bool_decide (status sig = SIGNAL_ABSTAIN)) = true)) as Hw.
  { intros c1 r2 c2. unfold write_now. destruct recordable; cbv [mbind M_bind mret M_ret].
    2: { intros [= <- <-]. by destruct (negb _). }
    destruct (write_debate_record _ _), (write_debate o); intros [= <- <-]; by destruct (negb _). }
  destruct (negb (bool_decide (status sig = SIGNAL_ABSTAIN)) || emit_abstain settings) eqn:Ea.
  - assert (Ha : status sig ≠ SIGNAL_ABSTAIN ∨ emit_abstain settings = true).
    { apply orb_true_iff in Ea as [Ea|?]; [left|by right]. apply negb_true_iff in Ea. by case_bool_decide. }
    apply M_bind_inv in Hd as [(failed & c1 & E & Hd)|(e & E & ->)]; apply send_inv in E as (rs & w' & Es & -> & Hr).
    + destruct failed; [injection Hd as <- <-|apply Hw in Hd as (-> & -> & -> & _)]; ands; try done;
        right; (split; [done|]); exists rs; (split; [done|]); [by intros [=]|intros _]. destruct rs; [by eauto|].
      by destruct (bool_decide (exn_kind _ = SinkError)); discriminate Hr.
    + ands; try done. right. split; [done|]. exists rs. split; [done|by intros [=]].
  - apply orb_false_iff in Ea as [Ea _]. apply Hw in Hd as (-> & -> & -> & He). rewrite Ea in He.
    ands; try done. left. split; [done|]. intros Hr. by apply He in Hr.
Qed.

(** The cooldown a debate claims: all others are forgotten when too many symbols are tracked. *)
Definition claimed (c : Cell) (i : DebateInput) : gmap pystr pyfloat :=
  <[symbol (in_context i) := monotonic o (readings (world c))]>
    (if MAX_TRACKED_SYMBOLS <=? Z.of_nat (base.size (last_debate c)) then ∅ else last_debate c).

(** A delivery: of the debate's signal, while the gate says "running". *)
Definition delivered (c : Cell) (i : DebateInput) (sig : TradeSignal) (final : option DebateState)
    (rs : result SinkReceipt) (sent' : list Sent) : Prop :=
  debated c i sig final ∧ halted_at (S (probes c)) = false
  ∧ (status sig ≠ SIGNAL_ABSTAIN ∨ emit_abstain settings = true)
  ∧ send sig (Some (decision_context i final cognitive)) (sent c) = (rs, sent').

Lemma handle_inv raw c r c' : _handle o settings cognitive gate raw c = (r, c') →
  (last_debate c' = last_debate c ∧ calls (world c') = calls (world c) ∧ sent c' = sent c ∧ r ≠ Ok EMITTED)
  ∨ ∃ i, admitted raw c i ∧ last_debate c' = claimed c i
    ∧ (sent c' = sent c ∧ r ≠ Ok EMITTED
       ∨ ∃ sig final rs, delivered c i sig final rs (sent c') ∧ (r = Ok EMITTED → is_ok rs = true)).
Proof.
  unfold _handle. intros Hh. apply M_bind_inv in Hh as [(h & c1 & E & Hh)|(e & [=] & _)].
  injection E as <- <-. fold (halted_at (probes c)) in Hh. destruct (halted_at (probes c)) eqn:Eh.
  { injection Hh as <- <-. left. by ands. }
  apply M_bind_inv in Hh as [(now & c1 & E & Hh)|(e & [=] & _)]. injection E as <- <-.
  cbn [walls with_halt] in Hh. destruct (parse_snapshot _ _ _ _ _) as [i|e] eqn:Ep.
  2: { left. case_bool_decide; injection Hh as <- <-; by ands. }
  destruct (negb (bool_decide (symbols settings = ∅)) && _) eqn:Es.
  { injection Hh as <- <-. left. by ands. }
  assert (Hsym : symbols settings = ∅ ∨ symbol (in_context i) ∈ symbols settings).
  { apply andb_false_iff in Es as [Es|Es]; apply negb_false_iff, bool_decide_eq_true in Es; auto. }
  set (c0 := with_wall _) in Hh.
  assert (Hcool : ∀ r1 c1, _cooldown_elapsed o settings (symbol (in_context i)) c0 = (r1, c1) → _)
    by (intros r1 c1; exact (cooldown_inv _ _ _ _)).
  cbn [c0 sent probes walls debates last_debate world with_wall with_halt recalls records] in Hcool.
  apply M_bind_inv in Hh as [(elapsed & c1 & E & Hh)|(e & E & ->)].
  2: { apply Hcool in E as (_ & _ & _ & _ & _ & _ & _ & [=] & _). }
  apply Hcool in E as (Hs & Hp & Hw & Hd & _ & _ & Hcalls & He & Hl). clear Hcool c0. injection He as He.
  destruct (match last_debate c !! _ with Some _ => _ | None => _ end) eqn:Eearly; subst elapsed; cbn [negb] in Hh.
  { injection Hh as <- <-. left. by ands. }
  right. exists i. split.
  { split; try done. intros last Hlast. by rewrite Hlast in Eearly. }
  apply M_bind_inv in Hh as [(state & c2 & E & Hh)|(e & E & ->)];
    apply initial_inv in E as (Hs2 & Hp2 & Hw2 & Hd2 & Hl2 & Hwd2 & _ & Hst).
  2: { split; [by rewrite Hl2|]. left. split; [congruence|done]. }
  destruct state as [state|].
  2: { injection Hh as <- <-. split; [by rewrite Hl2|]. left. split; [congruence|done]. }
  destruct (Hst _ eq_refl) as (recalled & -> & Hmem). clear Hst.
  set (m := debate_now _ _ _ _) in Hh.
  assert (Hdeb : ∀ r3 c3, m c2 = (r3, c3) → sent c3 = sent c ∧ probes c3 = S (probes c) ∧ last_debate c3 = claimed c i
    ∧ ∀ sig final, r3 = Ok (sig, final) → debated c i sig final).
  { unfold m, debate_now, zoom. intros r3 c3 H3. destruct (run_debate_with_state _ _ _ _ _ _ _ _ _ _ _ _ _ _ _ _) as [r4 w4] eqn:Er.
    injection H3 as <- <-. cbn. ands; [congruence|by rewrite Hp2, Hp|by rewrite Hl2, Hl|].
    intros sig final ->. exists recalled, (world c2), w4. split; [done|].
    rewrite Hw2, Hw, Hd2, Hd in Er. exact Er. }
  clearbody m. apply M_bind_inv in Hh as [([sig final] & c3 & E & Hh)|(e & E & ->)]; apply Hdeb in E as (Hs3 & Hp3 & Hl3 & Hd3).
  2: { split; [done|]. left. by rewrite Hs3. }
  specialize (Hd3 _ _ eq_refl). clear Hdeb. apply M_bind_inv in Hh as [(h & c4 & E & Hh)|(e & [=] & _)].
  injection E as <- <-. rewrite Hp3 in Hh. fold (halted_at (S (probes c))) in Hh.
  destruct (halted_at (S (probes c))) eqn:Eh2.
  { injection Hh as <- <-. split; [done|]. left. by cbn. }
  apply deliver_inv in Hh as (Hl4 & _ & Hout). split; [by rewrite Hl4|]. cbn [sent with_halt] in Hout.
  rewrite Hs3 in Hout. destruct Hout as [[? Hr]|(Hact & rs & Hsend & Hr)]; [left; by split|].
  right. exists sig, final, rs. split; [by ands|]. intros ->. by destruct (Hr eq_refl) as [? ->].
Qed.

(** ** What a message leaves alone *)

Definition same_health (c c' : Cell) : Prop :=
  counters (health c') = counters (health c) ∧ stopped (health c') = stopped (health c).
#[export] Instance same_health_preorder : PreOrder same_health.
Proof. split; [done|]. intros c1 c2 c3 [H1 H2] [H3 H4]. split; congruence. Qed.

Lemma zoom_steps {T A} (get : Cell → T) set (m : M T A) :
  (∀ t c, health (set t c) = health c) → steps same_health (zoom get set m).
Proof. intros Hset c. unfold zoom. destruct (m (get c)) as [r t]. cbn. unfold same_health. by rewrite Hset. Qed.

Lemma handle_health raw : steps same_health (_handle o settings cognitive gate raw).
Proof.
  assert (Hh : steps same_health (_halted o gate)) by done.
  assert (Ht : steps same_health (time_ns o)) by done.
  assert (Hc : ∀ sym, steps same_health (_cooldown_elapsed o settings sym)).
  { intros sym. unfold _cooldown_elapsed, monotonic_now.
    apply steps_bind; [exact _|by apply zoom_steps|]. intros now. apply steps_bind; [exact _|done|]. intros c.
    destruct (match last_debate c !! sym with Some _ => _ | None => _ end); [done|].
    apply steps_bind; [exact _|done|]. done. }
  assert (Hi : ∀ i, steps same_health (_initial_state o settings i)).
  { intros i. unfold _initial_state. apply steps_bind; [exact _| |].
    - intros c. unfold recall_now. by destruct (recall o).
    - intros r. by case_match. }
  assert (Hd : ∀ s, steps same_health (debate_now o settings cognitive s)).
  { intros s c. unfold debate_now, zoom. by destruct (run_debate_with_state _ _ _ _ _ _ _ _ _ _ _ _ _ _ _ _). }
  assert (Hv : ∀ sig b ctx, steps same_health (_deliver o settings sig b ctx)).
  { intros sig b ctx. unfold _deliver. apply steps_bind; [exact _| |].
    - case_match; [|done]. apply steps_catch; [exact _| |].
      + apply steps_bind; [exact _|by apply zoom_steps|done].
      + intros e. by case_match.
    - intros [|]; [done|]. apply steps_bind; [exact _| |done]. destruct b; [|done].
      apply steps_bind; [exact _| |done]. intros c. unfold write_now. by destruct (write_debate o). }
  unfold _handle. apply steps_bind; [exact _|done|]. intros [|]; [done|]. apply steps_bind; [exact _|done|]. intros now.
  destruct (parse_snapshot _ _ _ _ _); [|by case_match]. case_match; [done|]. apply steps_bind; [exact _|done|].
  intros [|]; cbn [negb]; [|done]. apply steps_bind; [exact _|done|]. intros [state|]; [|done].
  apply steps_bind; [exact _|done|]. intros [sig final]. apply steps_bind; [exact _|done|]. by intros [|].
Qed.

Lemma handle_message_inv raw c r c' : handle_message o settings cognitive gate raw c = (r, c') →
  ∃ r0 c0, _handle o settings cognitive gate raw c = (r0, c0)
  ∧ last_debate c' = last_debate c0 ∧ sent c' = sent c0 ∧ world c' = world c0
  ∧ ((∃ oc, (r0 = Ok oc ∨ oc = ERROR ∧ ∃ e, r0 = Raise e ∧ exn_kind e ≠ CancelledError) ∧ r = Ok oc
            ∧ counters (health c') = <[outcome_value oc := default 0 (counters (health c) !! outcome_value oc) + 1]> (counters (health c)))
     ∨ (∃ e, r0 = Raise e ∧ exn_kind e = CancelledError ∧ r = Raise e ∧ counters (health c') = counters (health c))).
Proof.
  unfold handle_message. intros Hm.
  assert (Hc : ∀ oc c1 r2 c2, (count_outcome (outcome_value oc);; mret oc) c1 = (r2, c2) →
    r2 = Ok oc ∧ c2 = with_health (count (outcome_value oc) (health c1)) c1) by (intros oc c1 r2 c2; by intros [= <- <-]).
  apply M_bind_inv in Hm as [(oc & c1 & E & Hm)|(e & E & ->)].
  - apply Hc in Hm as [-> ->].
    apply except_failure_inv in E as [(a & E & Ha)|[(e & _ & _ & [=])|(e & w1 & E & He & Ha)]].
    + injection Ha as <-. exists (Ok oc), c1. pose proof (handle_health raw c) as [Hk _]. rewrite E in Hk. cbn in Hk.
      ands; try done. left. exists oc. ands; [by left|done|]. cbn. by rewrite Hk.
    + injection Ha as <- <-. exists (Raise e), w1. pose proof (handle_health raw c) as [Hk _]. rewrite E in Hk. cbn in Hk.
      ands; try done. left. exists ERROR. ands; [right; by eauto|done|]. cbn. by rewrite Hk.
  - apply except_failure_inv in E as [(a & _ & [=])|[(e1 & E & He & [= ->])|(e1 & w1 & _ & _ & [=])]].
    exists (Raise e1), c'. pose proof (handle_health raw c) as [Hk _]. rewrite E in Hk. cbn in Hk.
    ands; try done. right. by exists e1.
Qed.

(** ** The queue *)

#[local] Abbreviation dropped c := (default 0 (counters (health c) !! u "queue_dropped")).
#[local] Abbreviation lstep := (step o settings cognitive gate).
#[local] Abbreviation lhistory := (history o settings cognitive gate).

Lemma dropped_is_no_outcome oc : outcome_value oc ≠ u "queue_dropped".
Proof. by destruct oc. Qed.

Lemma handle_message_dropped raw c r c' : handle_message o settings cognitive gate raw c = (r, c') → dropped c' = dropped c.
Proof.
  intros Hm. apply handle_message_inv in Hm as (r0 & c0 & _ & _ & _ & _ & [(oc & _ & _ & ->)|(e & _ & _ & _ & ->)]); [|done].
  by rewrite lookup_insert_ne by apply dropped_is_no_outcome.
Qed.

Lemma loop_top_keeps l : queue (loop_top o l) = queue l ∧ dropped (cell (loop_top o l)) = dropped (cell l).
Proof. unfold loop_top. destruct (stop_set l); [done|]. cbn. by destruct (pump l), (queue l). Qed.

Lemma take_message_keeps raw rest l :
  queue (take_message o settings cognitive gate raw rest l) = rest
  ∧ dropped (cell (take_message o settings cognitive gate raw rest l)) = dropped (cell l).
Proof.
  unfold take_message. destruct (handle_message _ _ _ _ raw (cell l)) as [r c] eqn:E.
  apply handle_message_dropped in E. by destruct r.
Qed.

(** The queue never holds more than 64 messages and always the latest that arrived: what
    arrived is what was settled, followed by what is queued. Messages are taken in the order of
    their arrival, none twice; and each that was settled without being taken is counted as dropped. *)
Theorem queue_keeps_the_freshest c0 arrived taken l :
  lhistory c0 arrived taken l →
  (length (queue l) <= 64)%nat ∧
  ∃ settled, arrived = settled ++ queue l ∧ taken `sublist_of` settled
    ∧ Z.of_nat (length settled) = Z.of_nat (length taken) + (dropped (cell l) - dropped c0).
Proof.
  intros Hh. induction Hh as [|a h l raw l' _ [Hlen (old & -> & Hsub & Hn)] Hs
    |a h l raw l' _ [Hlen (old & -> & Hsub & Hn)] Hs|a h l l' _ [Hlen (old & -> & Hsub & Hn)] Hs].
  - split; [cbn; lia|]. exists []. cbn. split; [done|]. split; [done|lia].
  - inversion Hs; subst. unfold pump_message, QUEUE_SIZE. destruct (Nat.leb_spec 64 (length (queue l))) as [Hf|Hf]; cbn [queue cell].
    + destruct (queue l) as [|m q] eqn:Eq; [cbn in Hf; lia|]. cbn [tail length] in *. split; [rewrite length_app; cbn; lia|].
      exists (old ++ [m]). rewrite <- !app_assoc. split; [done|]. split; [by apply sublist_inserts_r|].
      cbn [health with_health count counters]. rewrite lookup_insert_eq, length_app. cbn. lia.
    + split; [rewrite length_app; cbn; lia|]. exists old. by rewrite app_assoc.
  - inversion Hs as [|? ? ? ?|? ? ? ? ?|? ? ? ? ?|? ?|? rest ? Hp Hq|? ? ? ?|? ?]; subst.
    destruct (take_message_keeps raw rest l) as [-> ->]. rewrite Hq in Hlen |- *. cbn in Hlen.
    split; [lia|]. exists (old ++ [raw]). rewrite <- app_assoc. split; [done|].
    split; [by apply sublist_app|]. rewrite !length_app. cbn. lia.
  - inversion Hs; subst; try (split; [done|]; by exists old).
    destruct (loop_top_keeps l) as [-> ->]. split; [done|]. by exists old.
Qed.

(** ** The loop comes to an end *)

Lemma finish_source p :
  (p = Ended → _finish p = Ok tt) ∧
  (∀ e, p = Failed e → exn_kind e = CancelledError → _finish p = Ok tt) ∧
  (∀ e, p = Failed e → exn_kind e ≠ CancelledError → _finish p = Raise (Exn SourceError
     (u "context source failed: " ++ exn_name (exn_kind e) ++ u ": " ++ exn_msg e))).
Proof.
  unfold _finish, cancelled. split_and!; intros; subst; [done|by rewrite bool_decide_eq_true_2|].
  by rewrite bool_decide_eq_false_2.
Qed.

Lemma loop_returns l :
  phase l = AtLoop → pump l ≠ Pumping →
  ∃ n r, (n <= 2 * length (queue l) + 1)%nat ∧ phase (drive o settings cognitive gate n l) = Returned r
    ∧ stopped (health (cell (drive o settings cognitive gate n l))) = true
    ∧ (stop_set l = true ∧ r = Ok tt
       ∨ queue (drive o settings cognitive gate n l) = [] ∧ r = _finish (pump l)
       ∨ ∃ e raw c, r = Raise e ∧ exn_kind e = CancelledError ∧ raw ∈ queue l
           ∧ (handle_message o settings cognitive gate raw c).1 = Raise e).
Proof.
  remember (queue l) as q eqn:Eq. revert l Eq. induction q as [|raw q IH]; intros l Eq Hp Hpump.
  - exists 1%nat, (if stop_set l then Ok tt else _finish (pump l)). split; [cbn; lia|].
    cbn [drive]. rewrite Hp. unfold loop_top. destruct (stop_set l) eqn:Es; [cbn; ands; auto|].
    cbn [pump queue]. rewrite <- Eq. destruct (pump l) eqn:Epump; [done|..]; cbn; ands; auto.
  - destruct (stop_set l) eqn:Es.
    { exists 1%nat, (Ok tt). split; [lia|]. cbn [drive]. rewrite Hp. unfold loop_top. rewrite Es. cbn. ands; auto. }
    set (l1 := loop_top o l).
    assert (H1 : phase l1 = Waiting ∧ queue l1 = raw :: q ∧ pump l1 = pump l ∧ stop_set l1 = false).
    { unfold l1, loop_top. rewrite Es. cbn. rewrite <- Eq. by destruct (pump l) eqn:Ep. }
    destruct H1 as (H1 & H2 & H3 & H4).
    set (l2 := take_message o settings cognitive gate raw q l1).
    assert (Hd : ∀ n, drive o settings cognitive gate (S (S n)) l = drive o settings cognitive gate n l2).
    { intros n. cbn [drive]. rewrite Hp. fold l1. by rewrite H1, H2. }
    destruct (handle_message o settings cognitive gate raw (cell l1)) as [r2 c2] eqn:Eh.
    assert (Hl2 : l2 = match r2 with Ok _ => mkLoop q (pump l1) (stop_set l1) AtLoop c2
                        | Raise e => leave (Raise e) (mkLoop q (pump l1) (stop_set l1) (phase l1) c2) end).
    { unfold l2, take_message. rewrite Eh. by destruct r2. }
    destruct r2 as [oc|e].
    + destruct (IH l2) as (n & r & Hn & Hph & Hst & Hr); [by rewrite Hl2|by rewrite Hl2|rewrite Hl2; cbn; by rewrite H3|].
      exists (S (S n)), r. rewrite Hd. split; [cbn [length] in *; lia|]. ands; [done|done|].
      assert (stop_set l2 = false ∧ pump l2 = pump l) as [K1 K2] by by rewrite Hl2.
      rewrite K1, K2 in Hr.
      destruct Hr as [[? ?]|[Hr|(e & m & c & ? & ? & Hm & ?)]]; [done|by right; left|right; right].
      exists e, m, c. split_and!; try done. by right.
    + exists 2%nat, (Raise e). rewrite Hd. split; [cbn; lia|]. cbn [drive]. rewrite Hl2. cbn. ands; try done.
      right. right. exists e, raw, (cell l1). rewrite Eh. split_and!; [done| |by left|done].
      apply handle_message_inv in Eh as (? & ? & _ & _ & _ & _ & [(? & _ & [=] & _)|(e' & _ & He & [= ->] & _)]). done.
Qed.

(** C24: Once the source has ended the loop takes what is still queued and returns: at most two moves
    for each message and one to leave. Unless it was asked to stop, or the handling of a queued
    message was cancelled, nothing is left queued, and a source that failed with an exception - a
    cancelled source apart - makes the loop raise a [SourceError] that names the exception and its
    message; a source that ended or was cancelled makes it return normally. *)
Theorem loop_drains l :
  phase l = AtLoop → pump l ≠ Pumping →
  ∃ n r, (n <= 2 * length (queue l) + 1)%nat ∧ phase (drive o settings cognitive gate n l) = Returned r
    ∧ stopped (health (cell (drive o settings cognitive gate n l))) = true
    ∧ (stop_set l = true ∧ r = Ok tt
       ∨ queue (drive o settings cognitive gate n l) = []
         ∧ (pump l = Ended → r = Ok tt)
         ∧ (∀ e, pump l = Failed e → exn_kind e = CancelledError → r = Ok tt)
         ∧ (∀ e, pump l = Failed e → exn_kind e ≠ CancelledError →
              r = Raise (Exn SourceError
                (u "context source failed: " ++ exn_name (exn_kind e) ++ u ": " ++ exn_msg e)))
       ∨ ∃ e raw c, r = Raise e ∧ exn_kind e = CancelledError ∧ raw ∈ queue l
           ∧ (handle_message o settings cognitive gate raw c).1 = Raise e).
Proof.
  intros Hphase Hpump. destruct (loop_returns l Hphase Hpump) as (n & r & Hn & Hp & Hst & Hr).
  exists n, r. split_and!; [done..|]. destruct Hr as [?|[[Hq ->]|?]]; [by left| |by right; right].
  right. left. split; [done|]. apply finish_source.
Qed.
End facts.

(** ** The sinks as instances *)

Lemma log_law sig (c : option DecisionContext) w r w' : log_send sig w = (r, w') →
  (∃ new, w' = w ++ new ∧ Forall (about sig c) new) ∧ match r with Ok _ => True | Raise e => sink_failure e end.
Proof. intros [= <- <-]. split; [exists []; by rewrite app_nil_r|done]. Qed.
#[export] Instance log_sink : SignalSink | 10 := {| send sig _ := log_send sig; send_law := log_law |}.

Section grpc.
Context (submit : list Sent → SignalMsg → result Decision) (execute : list Sent → Sent → result Ack).
Context (strategy : pystr).

Lemma aegis_law sig (c : option DecisionContext) w r w' : aegis_send submit strategy sig w = (r, w') →
  (∃ new, w' = w ++ new ∧ Forall (about sig c) new) ∧ match r with Ok _ => True | Raise e => sink_failure e end.
Proof.
  unfold aegis_send. intros Hs.
  assert (∀ r1 w1, (m ← lift (to_proto sig strategy); SubmitSignal submit m) w = (r1, w1) →
    ∃ new, w1 = w ++ new ∧ Forall (about sig c) new) as Hsub.
  { intros r1 w1 H1. m_step H1; injection E as Em <-; [|exists []; by rewrite app_nil_r].
    injection H1 as <- <-. exists [ToAegis a]. split; [done|]. constructor; [|done].
    apply to_proto_keeps in Em as (? & ? & _). by split. }
  m_step Hs.
  - injection Hs as <- <-. apply as_sink_error_inv in E as [(a1 & E & _)|(? & ? & _ & [=] & _)]. by apply Hsub in E.
  - subst r. apply as_sink_error_inv in E as [(? & _ & [=])|(e0 & e1 & E & [= <-] & Hf)]. split; [by apply Hsub in E|done].
Qed.
#[export] Instance aegis_sink : SignalSink | 10 := {| send sig _ := aegis_send submit strategy sig; send_law := aegis_law |}.

Lemma motor_about sig m d c x :
  to_proto sig strategy = Ok m → _decision_is_approved_with_attestation d = true → motor_message d m c x → about sig c x.
Proof.
  intros (Hi & Hs & _)%to_proto_keeps Ha [->|(c' & q & -> & (Hd & Hm & Hn & _)%request_keeps & ->)]; [exact Ha|].
  cbn. rewrite Hm, Hd, Hn. split; [done|]. by exists c'.
Qed.

Lemma relay_law builder sig c w r w' : relay_send submit execute builder strategy sig c w = (r, w') →
  (∃ new, w' = w ++ new ∧ Forall (about sig c) new) ∧ match r with Ok _ => True | Raise e => sink_failure e end.
Proof.
  intros [(new & -> & Hn) Hr]%relay_only_approved. split; [|by destruct r]. exists new. split; [done|].
  destruct Hn as [->|(m & Hm & [->|(d & x & _ & Ha & Hx & ->)])]; [done|..];
    (constructor; [by apply to_proto_keeps in Hm as (? & ? & _)|]); [done|].
  constructor; [|done]. by eapply motor_about.
Qed.
#[export] Instance relay_sink (builder : bool) : SignalSink | 10 :=
  {| send := relay_send submit execute builder strategy; send_law := relay_law builder |}.
End grpc.

(** ** From a snapshot to an order *)

Section orders.
Context (o : Surroundings) (settings : RunnerSettings) (cognitive : CognitiveSettings) (gate : HaltGate).
Context (submit : list Sent → SignalMsg → result Decision) (execute : list Sent → Sent → result Ack).

#[local] Abbreviation relay := (relay_sink submit execute (strategy_id settings) true).

(** C22: Nothing reaches Aegis or the motor but what one message earned: the gate said "running" when
    the message came and again after the debate; the snapshot was fresh and valid, its symbol
    allowed and out of its cooldown; the debate about it was held, and either it was whole and its
    signal may trade, or the operator asked for abstentions to be reported. Aegis gets that signal,
    and the motor gets a message only when Aegis answered it with DECISION_APPROVED (number 1) and
    an attestation; the message carries that very decision, and a full request also the signal as
    Aegis got it. *)
Theorem motor_orders_are_earned raw c r c' :
  handle_message (H := relay) o settings cognitive gate raw c = (r, c') →
  ∃ new, sent c' = sent c ++ new ∧
  (new = [] ∨ ∃ i sig final m,
     admitted o settings gate raw c i ∧ debated o settings cognitive c i sig final
     ∧ halted_at o gate (S (probes c)) = false
     ∧ sig_symbol sig = symbol (in_context i)
     ∧ (status sig = SIGNAL_ABSTAIN ∧ emit_abstain settings = true
        ∨ status sig = SIGNAL_PENDING
          ∧ whole_debate (client o) (parse_json o) cognitive (CogSizing.size <$> sizer settings)
              (order_quantity settings) sig final)
     ∧ to_proto sig (strategy_id settings) = Ok m
     ∧ (new = [ToAegis m]
        ∨ ∃ d x att, submit (sent c) m = Ok d
            ∧ Compliance.d_decision (dec_message d) = 1 ∧ Compliance.d_attestation (dec_message d) = Some att
            ∧ motor_message d m (Some (decision_context i final cognitive)) x
            ∧ match x with
              | ToMotor q => q_decision q = d ∧ q_signal q = m | ToMotorPlain d' => d' = d | ToAegis _ => False end
            ∧ new = [ToAegis m; x])).
Proof.
  intros Hm. apply (@handle_message_inv o settings cognitive gate relay) in Hm as (r0 & c0 & Hh & _ & -> & _ & _).
  apply (@handle_inv o settings cognitive gate relay) in Hh as [(_ & _ & -> & _)|(i & Hadm & _ & [[-> _]|Hdel])];
    [exists []; by rewrite app_nil_r; auto..|].
  destruct Hdel as (sig & final & rs & (Hdeb & Hrun & Hact & Hsend) & _).
  apply relay_only_approved in Hsend as [(new & -> & Hnew) _]. exists new. split; [done|].
  destruct Hnew as [->|(m & Hm & Hnew)]; [by left|]. right. exists i, sig, final, m.
  pose proof Hdeb as (recalled & w & w' & _ & Hrun_debate).
  apply debate_trades_or_abstains in Hrun_debate as [Hsym Hst]. ands; try done.
  { destruct Hst as [Hst|Hst]; [left; split; [done|]; by destruct Hact|by right]. }
  destruct Hnew as [?|(d & x & Hd & [Ha [att Hatt]]%decision_approved & Hx & ?)]; [by left|right].
  exists d, x, att. ands; try done. destruct Hx as [->|(c1 & q & _ & Hq & ->)]; [done|].
  by apply request_keeps in Hq as (? & ? & _).
Qed.
End orders.

(** ** Cooldowns *)

Section cooldowns.
Context (o : Surroundings) (settings : RunnerSettings) (cognitive : CognitiveSettings) (gate : HaltGate) `{SignalSink}.

(** A model is asked only for a message that was admitted, whose symbol then starts its cooldown
    at the time it was read, whatever becomes of the debate; the cooldowns of other symbols stay,
    unless 10,000 were tracked, when they are all forgotten. Never more than 10,000 are tracked. *)
Theorem debates_claim_the_cooldown raw c r c' :
  handle_message o settings cognitive gate raw c = (r, c') →
  Z.of_nat (base.size (last_debate c)) <= MAX_TRACKED_SYMBOLS →
  Z.of_nat (base.size (last_debate c')) <= MAX_TRACKED_SYMBOLS
  ∧ (last_debate c' = last_debate c ∧ calls (world c') = calls (world c)
     ∨ ∃ i, admitted o settings gate raw c i
         ∧ last_debate c' !! symbol (in_context i) = Some (monotonic o (readings (world c)))
         ∧ ∀ other, other ≠ symbol (in_context i) → Z.of_nat (base.size (last_debate c)) < MAX_TRACKED_SYMBOLS →
             last_debate c' !! other = last_debate c !! other).
Proof.
  intros Hm Hsize. apply handle_message_inv in Hm as (r0 & c0 & Hh & -> & _ & -> & _).
  apply handle_inv in Hh as [(-> & -> & _)|(i & Hadm & -> & _)]; [split; [done|by left]|].
  unfold claimed. split.
  - destruct (Z.leb_spec MAX_TRACKED_SYMBOLS (Z.of_nat (base.size (last_debate c)))).
    + rewrite map_size_insert, lookup_empty, map_size_empty. unfold MAX_TRACKED_SYMBOLS. lia.
    + rewrite map_size_insert. destruct (last_debate c !! _); unfold id; lia.
  - right. exists i. split; [done|]. split; [by rewrite lookup_insert_eq|]. intros other Hne Hlt.
    rewrite lookup_insert_ne by done. by destruct (Z.leb_spec MAX_TRACKED_SYMBOLS (Z.of_nat (base.size (last_debate c)))); [lia|].
Qed.

(** Handling a message never raises: the outcome is one of the nine, counted once, and what went
    wrong inside is [ERROR]; only the cancellation of the task passes. *)
Theorem handling_never_raises raw c r c' :
  handle_message o settings cognitive gate raw c = (r, c') →
  match r with
  | Ok oc => counters (health c') = <[outcome_value oc := default 0 (counters (health c) !! outcome_value oc) + 1]> (counters (health c))
  | Raise e => exn_kind e = CancelledError
  end ∧ stopped (health c') = stopped (health c).
Proof.
  intros Hm. split.
  - apply handle_message_inv in Hm as (r0 & c0 & _ & _ & _ & _ & [(oc & _ & -> & ?)|(e & _ & ? & -> & _)]); done.
  - unfold handle_message in Hm.
    assert (Hs : steps same_health (except_failure (_handle o settings cognitive gate raw) (λ _, mret ERROR))).
    { apply steps_catch; [exact _|apply handle_health|]. intros e. by case_match. }
    specialize (Hs c). m_step Hm; rewrite E in Hs; destruct Hs as [_ Hs]; [|done]. by injection Hm as _ <-.
Qed.
End cooldowns.

(** ** The start of the process *)

Lemma runner_quantity env s : runner_from_env env = Ok s → production env = true →
  sizer s ≠ None ∨ float_leb (order_quantity s) (fl "0.0") = false.
Proof.
  unfold runner_from_env. intros Hr Hp.
  apply bind_ok in Hr as (quantity & _ & Hr). apply bind_ok in Hr as (sz & _ & Hr). rewrite Hp in Hr.
  destruct (true && _ && _) eqn:Eg; [done|]. do 20 (apply bind_ok in Hr as (? & _ & Hr)). apply Ok_inj in Hr as <-.
  cbn [sizer order_quantity]. destruct sz; [by left|]. right. by destruct (float_leb quantity _).
Qed.

Section start.
Context (protos motor_protos : result unit) (read_bytes : pystr → result pybytes).
Context (open_memory : result unit) (graph_factory : CognitiveSettings → result unit).

Definition secure_channel (ch : Channel) : Prop := ∃ to root chain key, ch = Secure to (Some root) chain key.

(** In production the process starts only with authenticated channels, with a size for its
    orders and with settings within their bounds; whatever fails before is exit code 2, and exit
    code 0 means that it was asked to stop. *)
Theorem start_fails_closed env run code :
  amain protos motor_protos read_bytes open_memory graph_factory env run = Ok code →
  (code = EXIT_CONFIG ∧ is_ok (startup protos motor_protos read_bytes open_memory graph_factory env) = false)
  ∨ ∃ settings cognitive sink memory h ran stop,
      startup protos motor_protos read_bytes open_memory graph_factory env = Ok (settings, cognitive, sink, memory)
      ∧ run settings cognitive sink memory h = (ran, stop) ∧ code ≠ EXIT_CONFIG
      ∧ (code = EXIT_OK → ran = Ok tt ∧ stop = true)
      ∧ settings_ok cognitive = true
      ∧ (production env = true →
           (sizer settings ≠ None ∨ float_leb (order_quantity settings) (fl "0.0") = false)
           ∧ match sink with
             | UseLog => CogConfig.sink settings = SinkLog
             | UseAegis ch => secure_channel ch
             | UseRelay ch motor => secure_channel ch ∧ secure_channel motor
             end).
Proof.
  unfold amain. destruct (startup _ _ _ _ _ env) as [[[[settings cognitive] sink] memory]|e] eqn:Es.
  2: { intros [= <-]. by left. }
  intros (h & _ & Hc)%bind_ok. right. destruct (run settings cognitive sink memory h) as [ran stop] eqn:Er.
  exists settings, cognitive, sink, memory, h, ran, stop. split; [done|]. split; [done|].
  assert (Hcode : code ≠ EXIT_CONFIG ∧ (code = EXIT_OK → ran = Ok tt ∧ stop = true)).
  { unfold serve in Hc. destruct ran as [[]|e]; [|case_bool_decide; [|done]]; injection Hc as <-;
      [by destruct stop|by split]. }
  split; [apply Hcode|]. split; [apply Hcode|]. unfold startup in Es.
  apply bind_ok in Es as (rs & Hrs & Es). apply bind_ok in Es as (cg & Hcg & Es). apply bind_ok in Es as (sk & Hsk & Es).
  apply bind_ok in Es as (mem & _ & Es). apply bind_ok in Es as (? & _ & [= -> -> -> ->]).
  split; [by eapply load_settings_ok|]. intros Hp. split; [by eapply runner_quantity|].
  assert (Hsec : ∀ ch host port target, open_aegis_channel read_bytes host port env = Ok ch
    ∨ open_motor_channel read_bytes target env = Ok ch → secure_channel ch).
  { intros ch host port target Ho. destruct (production_channels_are_secure _ _ _ _ _ _ Hp Ho) as (t & root & chain & key & -> & _).
    by eexists _, _, _, _. }
  unfold build_sink in Hsk. destruct (CogConfig.sink settings) eqn:Ek; [|by injection Hsk as <-].
  apply bind_ok in Hsk as (? & _ & Hsk). apply bind_ok in Hsk as (ch & Hch & Hsk). apply bind_ok in Hsk as (motor & Hmo & Hsk).
  apply bind_ok in Hsk as (? & _ & [= <-]). assert (secure_channel ch) by (eapply Hsec; by left).
  destruct motor as [mch|]; [split|]; try done. unfold _build_motor_sink in Hmo. destruct motor_protos; [|by case_bool_decide].
  apply bind_ok in Hmo as (ch' & Hch' & Hmo). apply bind_ok in Hmo as (? & _ & [= <-]). eapply Hsec. by right.
  Unshelve. all: exact [] || exact 0.
Qed.
End start.

(** ** A concrete runner *)

Definition surroundings_example : Surroundings :=
  mkSurroundings (λ _, f0) (λ _, 2000000000) (λ _, no_file) client_example (λ _, false) (λ _, None) (λ _, u "id-1")
    None (Some (λ _ _, Ok tt)) loads (λ _, JSONDecodeError) (λ _, false) (λ _, u "{}") (λ _, u "{}") (λ _, u "{}") (λ _, u "{}").
Definition runner_example : RunnerSettings :=
  mkRunner (u "h") 0 f0 (u "s-1") f1 (fl "5.0") ∅ false SinkGrpc false true 3 f1 f1 [] [] (u "aegis") 1 f1 [] f1 None
    (Some sizer_example).
Definition health_example : HealthState := mkHealth f1 None false false ∅.
Definition cell_example : Cell := mkCell ∅ false health_example (mkWorld 0 []) [] [] [] 0 0 0.
#[local] Abbreviation relay_example :=
  (relay_sink (λ _ _, Ok decision_example) (λ _ _, Ok (mkAck true [])) (strategy_id runner_example) true).
#[local] Abbreviation handle_example raw :=
  (handle_message (H := relay_example) surroundings_example runner_example settings_example (make_gate ∅ None) raw cell_example).

(** A fresh snapshot: the debate trades, Aegis approves, the motor gets the request, the debate is
    recorded. *)
Lemma order_runs : ∃ r c', handle_example (MsgStr snapshot_example) = (r, c') ∧ r = Ok EMITTED
  ∧ length (sent c') = 2%nat ∧ length (records c') = 1%nat ∧ length (calls (world c')) = 4%nat.
Proof. eexists _, _. split; [apply surjective_pairing|]. vm_compute. repeat split. Qed.

Lemma motor_orders_are_earned_witness : ∃ c' new, sent c' = new ∧ length new = 2%nat
  ∧ ∃ i sig final, debated surroundings_example runner_example settings_example cell_example i sig final.
Proof.
  destruct order_runs as (r & c' & E & _ & Hl & _).
  destruct (motor_orders_are_earned _ _ _ _ _ _ _ _ _ _ E) as (new & Hs & Hn). cbn in Hs. exists c', new.
  split; [exact Hs|]. split; [by rewrite <- Hs|].
  destruct Hn as [->|(i & sig & final & m & _ & Hd & _)]; [by rewrite Hs in Hl|]. by exists i, sig, final.
Defined.

Lemma debates_claim_the_cooldown_witness :
  ∃ c', Z.of_nat (base.size (last_debate c')) <= MAX_TRACKED_SYMBOLS ∧ length (calls (world c')) = 4%nat.
Proof.
  destruct order_runs as (r & c' & E & _ & _ & _ & Hc). exists c'.
  assert (Z.of_nat (base.size (last_debate cell_example)) <= MAX_TRACKED_SYMBOLS) as Hz by (vm_compute; discriminate).
  split; [|exact Hc]. exact (proj1 (debates_claim_the_cooldown _ _ _ _ _ _ _ _ E Hz)).
Defined.

Lemma handling_never_raises_witness : ∃ c', default 0 (counters (health c') !! u "emitted") = 1.
Proof.
  destruct order_runs as (r & c' & E & Hr & _). exists c'.
  pose proof (proj1 (handling_never_raises _ _ _ _ _ _ _ _ E)) as H. rewrite Hr in H. rewrite H. cbn.
  by rewrite lookup_insert_eq.
Defined.

#[local] Abbreviation put_one := (pump_message (MsgBytes []) (initial_loop cell_example)).
Lemma put_one_history : history (H := log_sink) surroundings_example runner_example settings_example (make_gate ∅ None)
  cell_example ([] ++ [MsgBytes []]) [] put_one.
Proof. eapply history_put; [apply history_start|]. by apply step_pump. Qed.
Lemma queue_keeps_the_freshest_witness : (length (queue put_one) <= 64)%nat.
Proof. exact (proj1 (queue_keeps_the_freshest _ _ _ _ _ _ _ _ put_one_history)). Defined.

(** The source failed with two messages queued: both are handled, then its failure is reported. *)
#[local] Abbreviation failed_example :=
  (mkLoop [MsgOther; MsgBytes []] (Failed (Exn ValueError (u "gone"))) false AtLoop cell_example).
Lemma failed_not_pumping : Failed (Exn ValueError (u "gone")) ≠ Pumping.
Proof. done. Qed.
#[local] Abbreviation drive_example n :=
  (drive (H := log_sink) surroundings_example runner_example settings_example (make_gate ∅ None) n failed_example).
Definition source_failure : result unit :=
  raise SourceError (u "context source failed: ValueError: gone").
Lemma failed_runs : phase (drive_example 5) = Returned source_failure ∧ queue (drive_example 5) = [] ∧ phase (drive_example 4) = AtLoop.
Proof. vm_compute. done. Qed.
Lemma loop_drains_witness : ∃ n r, phase (drive_example n) = Returned r ∧ (n <= 5)%nat
  ∧ (queue (drive_example n) = [] ∧ r = source_failure ∨ ∃ e, r = Raise e ∧ exn_kind e = CancelledError).
Proof.
  destruct (loop_drains (H := log_sink) surroundings_example runner_example settings_example (make_gate ∅ None) failed_example
    eq_refl failed_not_pumping) as (n & r & Hn & Hp & _ & Hr). exists n, r. split; [exact Hp|]. split; [exact Hn|].
  destruct Hr as [[Hs _]|[(Hq & _ & _ & Hf)|(e & _ & _ & He & Hk & _)]].
  - discriminate Hs.
  - left. split; [exact Hq|]. exact (Hf _ eq_refl ltac:(discriminate)).
  - right. exists e. split; [exact He|exact Hk].
Defined.

Definition production_example : gmap pystr pystr :=
  list_to_map [ (u "ENVIRONMENT", u "production"); (u "COGNITIVE_ORDER_QUANTITY", u "10");
                (u "AEGIS_CLIENT_TLS_CA", u "/ca.pem"); (u "MOTOR_CLIENT_TLS_CA", u "/ca.pem") ].
#[local] Abbreviation amain_example env :=
  (amain (Ok tt) (Ok tt) (λ _, Ok []) (Ok tt) (λ _, Ok tt) env (λ _ _ _ _ _, (Ok tt, true))).
Lemma amain_runs : amain_example production_example = Ok EXIT_OK
  ∧ amain_example {[ u "ENVIRONMENT" := u "production" ]} = Ok EXIT_CONFIG.
Proof. split; vm_compute; reflexivity. Qed.
Lemma start_fails_closed_witness : ∃ sink, is_ok (startup (Ok tt) (Ok tt) (λ _, Ok []) (Ok tt) (λ _, Ok tt) production_example) = sink.
Proof.
  destruct (start_fails_closed _ _ _ _ _ _ _ _ (proj1 amain_runs)) as [[H _]|(s & c & k & m & h & ran & stop & H & _)].
  - discriminate H.
  - exists true. by rewrite H.
Defined.
