(* ===== verification/BtData.v ===== *)
(** * Backtesting: market data and the point-in-time feed ([models.py], [data.py], [feed.py])

    Bars in columns, checked when a series is made, merged into one timeline; and the feed that walks
    the timeline and hands a strategy nothing but views that end at the present. numpy's searches and
    sorts are an interface with its documented laws; reading files with pandas is not modelled. *)
From Stdlib Require Import Sorted.
From stdpp Require Import sorting.
From S2P Require Import Prelude PyStr PyDecimal PyFloat Json JsonFacts.

Definition DataValidationError : exn_class := OtherError (u "DataValidationError").
Definition LookaheadError : exn_class := OtherError (u "LookaheadError").
Definition ConfigError : exn_class := OtherError (u "ConfigError").
Definition AccountingInvariantError : exn_class := OtherError (u "AccountingInvariantError").
Definition IndexError : exn_class := OtherError (u "IndexError").

(** ** Values ([models.py]) *)

Inductive RegimeLabel :=
  | REGIME_UNKNOWN | TRENDING_BULL | TRENDING_BEAR | HIGH_VOL_CHOP | LOW_VOL_CHOP | CRISIS.
#[export] Instance RegimeLabel_eq_dec : EqDecision RegimeLabel. Proof. solve_decision. Defined.
Definition REGIMES : list RegimeLabel :=
  [REGIME_UNKNOWN; TRENDING_BULL; TRENDING_BEAR; HIGH_VOL_CHOP; LOW_VOL_CHOP; CRISIS].
Definition HMM_STATES : list RegimeLabel := [TRENDING_BULL; TRENDING_BEAR; HIGH_VOL_CHOP; LOW_VOL_CHOP; CRISIS].
Definition regime_number (r : RegimeLabel) : Z :=
  match r with
  | REGIME_UNKNOWN => 0 | TRENDING_BULL => 1 | TRENDING_BEAR => 2 | HIGH_VOL_CHOP => 3 | LOW_VOL_CHOP => 4
  | CRISIS => 5 end.
Definition regime_name (r : RegimeLabel) : pystr :=
  match r with
  | REGIME_UNKNOWN => u "REGIME_UNKNOWN" | TRENDING_BULL => u "TRENDING_BULL" | TRENDING_BEAR => u "TRENDING_BEAR"
  | HIGH_VOL_CHOP => u "HIGH_VOL_CHOP" | LOW_VOL_CHOP => u "LOW_VOL_CHOP" | CRISIS => u "CRISIS" end.
(** [RegimeLabel(value)]. *)
Definition RegimeLabel_of (z : Z) : option RegimeLabel := List.find (λ r, regime_number r =? z) REGIMES.

(** What a label may be given as; a text stands for [str(value)] of anything else. *)
Inductive RegimeArg := RLabel (r : RegimeLabel) | RNone | RBool (b : bool) | RInt (z : Z) | RText (s : pystr).

Definition upper_char (c : N) : N := if is_lower c then (c - 32)%N else c.
Definition regime_of_int (z : Z) : result RegimeLabel :=
  match RegimeLabel_of z with
  | Some r => Ok r
  | None => raise DataValidationError (u "invalid regime number: " ++ str_of_Z z)
  end.
Definition parse_regime (value : RegimeArg) : result RegimeLabel :=
  match value with
  | RLabel r => Ok r
  | RNone => Ok REGIME_UNKNOWN
  | RBool _ => raise DataValidationError (u "invalid regime label")
  | RInt z => regime_of_int z
  | RText s =>
      let text := upper_char <$> strip s in
      if bool_decide (text = []) then Ok REGIME_UNKNOWN
      else if forallb is_digit text then regime_of_int (default 0 (int_of_str text))
      else match List.find (λ r, str_eqb (regime_name r) text) REGIMES with
           | Some r => Ok r
           | None => raise DataValidationError (u "unknown regime label")
           end
  end.

Record Bar := mkBar {
  bar_symbol : pystr; timestamp_ns : Z; b_open : pyfloat; b_high : pyfloat; b_low : pyfloat; b_close : pyfloat;
  b_volume : pyfloat; b_regime : RegimeLabel }.

(** ** numpy *)

(** [np.searchsorted] on either side, [np.unique], and a stable [np.argsort]. *)
Class Numpy := {
  searchsorted_left : list Z → Z → nat;
  searchsorted_right : list Z → Z → nat;
  np_unique : list Z → list Z;
  argsort : list Z → list nat }.
(** Their documented behaviour. *)
Class NumpyLaws `{Numpy} : Prop := {
  left_law l x : StronglySorted Z.le l → searchsorted_left l x = length (filter (λ y, y < x) l);
  right_law l x : StronglySorted Z.le l → searchsorted_right l x = length (filter (λ y, y ≤ x) l);
  unique_sorted l : StronglySorted Z.lt (np_unique l);
  unique_elem l x : x ∈ np_unique l ↔ x ∈ l;
  argsort_perm l : argsort l ≡ₚ seq 0 (length l);
  argsort_stable l : StronglySorted (λ i j, ∀ x y, l !! i = Some x → l !! j = Some y → x < y ∨ x = y ∧ (i <= j)%nat) (argsort l) }.

(** ** Series ([data.py]) *)

Record SymbolSeries := mkSeries {
  sr_symbol : pystr; sr_ts : list Z; sr_open : list pyfloat; sr_high : list pyfloat; sr_low : list pyfloat;
  sr_close : list pyfloat; sr_volume : list pyfloat; sr_regime : list Z }.

Definition series_length (s : SymbolSeries) : nat := length (sr_ts s).

Definition bar (s : SymbolSeries) (i : nat) : result Bar :=
  match sr_ts s !! i, sr_open s !! i, sr_high s !! i, sr_low s !! i, sr_close s !! i, sr_volume s !! i, sr_regime s !! i with
  | Some t, Some o, Some h, Some l, Some c, Some v, Some r =>
      match RegimeLabel_of r with
      | Some r => Ok (mkBar (sr_symbol s) t o h l c v r)
      | None => raise ValueError (u "is not a valid RegimeLabel")
      end
  | _, _, _, _, _, _, _ => raise IndexError (u "index is out of bounds")
  end.

Definition f0 : pyfloat := FFin 0 0.
Definition price_ok (x : pyfloat) : bool := is_finite_float x && negb (float_leb x f0).
Definition increasing (l : list Z) : bool := forallb id (zip_with Z.ltb l (tail l)).

Definition _validate (s : SymbolSeries) : result unit :=
  let n := series_length s in
  guard_raise (negb ((length (sr_open s) =? n)%nat && (length (sr_high s) =? n)%nat && (length (sr_low s) =? n)%nat
    && (length (sr_close s) =? n)%nat && (length (sr_volume s) =? n)%nat && (length (sr_regime s) =? n)%nat))
    DataValidationError (sr_symbol s ++ u ": column length mismatch");;
  guard_raise (n =? 0)%nat DataValidationError (sr_symbol s ++ u ": empty series");;
  guard_raise (negb (forallb price_ok (sr_open s ++ sr_high s ++ sr_low s ++ sr_close s)))
    DataValidationError (sr_symbol s ++ u ": prices must be finite and positive");;
  guard_raise (negb (forallb (λ x, is_finite_float x && negb (float_ltb x f0)) (sr_volume s)))
    DataValidationError (sr_symbol s ++ u ": volume must be finite and >= 0");;
  guard_raise (existsb id (zip_with float_ltb (sr_high s) (zip_with float_max (sr_open s) (sr_close s)))
               || existsb id (zip_with float_ltb (zip_with float_min (sr_open s) (sr_close s)) (sr_low s)))
    DataValidationError (sr_symbol s ++ u ": OHLC bounds violated (high/low)");;
  guard_raise ((1 <? n)%nat && negb (increasing (sr_ts s)))
    DataValidationError (sr_symbol s ++ u ": timestamps must be strictly increasing (no duplicates)");;
  guard_raise (existsb (λ r, (r <? 0) || (5 <? r)) (sr_regime s))
    DataValidationError (sr_symbol s ++ u ": regime value out of range").

(** The cast of an integer array to [int8]. *)
Definition int8 (z : Z) : Z := (z + 128) mod 256 - 128.
Definition create (sym : pystr) (ts : list Z) (open_ high low close volume : list pyfloat) (regime : option (list Z))
  : result SymbolSeries :=
  let regimes := match regime with None => replicate (length ts) 0 | Some r => r end in
  let s := mkSeries sym ts open_ high low close volume (int8 <$> regimes) in
  _validate s;; Ok s.

(** [column[lo:hi]] for [lo <= hi]. *)
Definition sub_column {A} (lo hi : nat) (l : list A) : list A := take (hi - lo) (drop lo l).

Section numpy.
Context `{Numpy}.

Definition slice_time (s : SymbolSeries) (start_ns end_ns : Z) : result (option SymbolSeries) :=
  let lo := searchsorted_left (sr_ts s) start_ns in
  let hi := searchsorted_right (sr_ts s) end_ns in
  if (hi <=? lo)%nat then Ok None
  else
    p ← create (sr_symbol s) (sub_column lo hi (sr_ts s)) (sub_column lo hi (sr_open s)) (sub_column lo hi (sr_high s))
          (sub_column lo hi (sr_low s)) (sub_column lo hi (sr_close s)) (sub_column lo hi (sr_volume s))
          (Some (sub_column lo hi (sr_regime s)));
    Ok (Some p).

(** The symbols are sorted, none twice. *)
Record MarketData := mkMarket { md_series : list (pystr * SymbolSeries); timeline : list Z }.

Definition make_market (series : list SymbolSeries) : result MarketData :=
  let names := sr_symbol <$> series in
  guard_raise (negb (bool_decide (NoDup names))) DataValidationError (u "duplicate symbol");;
  guard_raise (bool_decide (names = [])) DataValidationError (u "market data has no symbols");;
  let sorted := sort_keys ((λ s, (sr_symbol s, s)) <$> series) in
  Ok (mkMarket sorted (np_unique (concat ((λ kv, sr_ts kv.2) <$> sorted)))).

Definition symbols (d : MarketData) : list pystr := (md_series d).*1.
Definition get {A} (m : list (pystr * A)) (k : pystr) : option A :=
  match List.find (λ kv, str_eqb k kv.1) m with Some (_, v) => Some v | None => None end.
Definition series (d : MarketData) (sym : pystr) : result SymbolSeries :=
  match get (md_series d) sym with
  | Some s => Ok s
  | None => raise DataValidationError (u "unknown symbol " ++ repr_str sym)
  end.

Definition market_slice_time (d : MarketData) (start_ns end_ns : Z) : result MarketData :=
  parts ← mapR (λ kv, slice_time kv.2 start_ns end_ns) (md_series d);
  let kept := omap id parts in
  guard_raise (bool_decide (length kept = 0%nat)) DataValidationError (u "no data in range");;
  make_market kept.

(** [pos = searchsorted(sorted_ts, ts, side="right") - 1], then the label there, or 0. *)
Definition as_of (sorted_ts sorted_lab : list Z) (t : Z) : Z :=
  match searchsorted_right sorted_ts t with
  | O => 0
  | S pos => default 0 (sorted_lab !! pos)
  end.
Definition with_regimes (d : MarketData) (label_ts_ns : list Z) (labels : list RegimeArg) : result MarketData :=
  guard_raise (negb (length label_ts_ns =? length labels)%nat) DataValidationError
    (u "regime timestamps and labels differ in length");;
  guard_raise (length labels =? 0)%nat DataValidationError (u "empty regime series");;
  let order := argsort label_ts_ns in
  let sorted_ts := (λ i, default 0 (label_ts_ns !! i)) <$> order in
  parsed ← mapR (λ i, parse_regime (default RNone (labels !! i))) order;
  let sorted_lab := regime_number <$> parsed in
  out ← mapR (λ kv, let s := kv.2 in
          create (sr_symbol s) (sr_ts s) (sr_open s) (sr_high s) (sr_low s) (sr_close s) (sr_volume s)
            (Some (as_of sorted_ts sorted_lab <$> sr_ts s))) (md_series d);
  make_market out.

(** [grouped.setdefault(b.symbol, []).append(b)]; a stable sort by timestamp. *)
Fixpoint group_add (b : Bar) (m : list (pystr * list Bar)) : list (pystr * list Bar) :=
  match m with
  | [] => [(bar_symbol b, [b])]
  | (k, l) :: m => if str_eqb (bar_symbol b) k then (k, l ++ [b]) :: m else (k, l) :: group_add b m
  end.
Fixpoint insert_bar (b : Bar) (l : list Bar) : list Bar :=
  match l with
  | [] => [b]
  | b' :: l' => if timestamp_ns b <=? timestamp_ns b' then b :: l else b' :: insert_bar b l'
  end.
Definition sort_bars (l : list Bar) : list Bar := foldr insert_bar [] l.
Definition from_bars (bars : list Bar) : result MarketData :=
  let grouped := foldl (λ m b, group_add b m) [] bars in
  out ← mapR (λ kv, let items := sort_bars kv.2 in
          create kv.1 (timestamp_ns <$> items) (b_open <$> items) (b_high <$> items) (b_low <$> items)
            (b_close <$> items) (b_volume <$> items) (Some ((λ b, regime_number (b_regime b)) <$> items))) grouped;
  make_market out.

(** ** The feed ([feed.py]) *)

Record SymbolHistory := mkHistory { h_series : SymbolSeries; h_end : nat; h_now : Z }.

(** [h[index]] of an integer. *)
Definition getitem (h : SymbolHistory) (index : Z) : result Bar :=
  let e := Z.of_nat (h_end h) in
  if (e <=? index) || (index <? - e) then raise LookaheadError (u "index is beyond the visible bars")
  else bar (h_series h) (Z.to_nat (if 0 <=? index then index else e + index)).

(** [slice.indices(n)], and the range it gives. *)
Definition slice_bound (n step : Z) (value : option Z) (missing : Z) : Z :=
  match value with
  | None => missing
  | Some v =>
      let low := if step <? 0 then -1 else 0 in
      let high := if step <? 0 then n - 1 else n in
      if v <? 0 then Z.max (v + n) low else Z.min v high
  end.
Definition slice_indices (start stop step : option Z) (n : Z) : result (list Z) :=
  let step := default 1 step in
  if step =? 0 then raise ValueError (u "slice step cannot be zero")
  else
    let a := slice_bound n step start (if step <? 0 then n - 1 else 0) in
    let b := slice_bound n step stop (if step <? 0 then -1 else n) in
    let count := if 0 <? step then (b - a + step - 1) / step else (a - b - step - 1) / - step in
    Ok ((λ k, a + step * Z.of_nat k) <$> seq 0 (Z.to_nat count)).
Definition getslice (h : SymbolHistory) (start stop step : option Z) : result (list Bar) :=
  if match stop with Some v => Z.of_nat (h_end h) <? v | None => false end then
    raise LookaheadError (u "slice stop is beyond the visible bars")
  else
    indices ← slice_indices start stop step (Z.of_nat (h_end h));
    mapR (λ i, bar (h_series h) (Z.to_nat i)) indices.

Definition latest (h : SymbolHistory) : result (option Bar) :=
  match h_end h with
  | O => Ok None
  | S last => b ← bar (h_series h) last; Ok (Some b)
  end.

Definition at_time (h : SymbolHistory) (t : Z) : result (option Bar) :=
  if h_now h <? t then raise LookaheadError (u "requested time is after now")
  else
    let visible := take (h_end h) (sr_ts (h_series h)) in
    let idx := searchsorted_left visible t in
    if (idx <? h_end h)%nat && bool_decide (sr_ts (h_series h) !! idx = Some t) then
      b ← bar (h_series h) idx; Ok (Some b)
    else Ok None.

(** A copy of the last [n] visible values of a column. *)
Definition _tail {A} (h : SymbolHistory) (column : list A) (n : option Z) : result (list A) :=
  if match n with Some n => n <? 0 | None => false end then raise ValueError (u "n must be non-negative")
  else
    let start := match n with None => 0%nat | Some n => (h_end h - Z.to_nat n)%nat end in
    Ok (sub_column start (h_end h) column).
Definition closes (h : SymbolHistory) : option Z → result (list pyfloat) := _tail h (sr_close (h_series h)).
Definition opens (h : SymbolHistory) : option Z → result (list pyfloat) := _tail h (sr_open (h_series h)).
Definition highs (h : SymbolHistory) : option Z → result (list pyfloat) := _tail h (sr_high (h_series h)).
Definition lows (h : SymbolHistory) : option Z → result (list pyfloat) := _tail h (sr_low (h_series h)).
Definition volumes (h : SymbolHistory) : option Z → result (list pyfloat) := _tail h (sr_volume (h_series h)).
(** [timestamps] takes any [n]: a negative one starts after the end. *)
Definition timestamps (h : SymbolHistory) (n : option Z) : list Z :=
  let e := Z.of_nat (h_end h) in
  let start := match n with None => 0 | Some n => Z.max 0 (e - n) end in
  sub_column (Z.to_nat start) (h_end h) (sr_ts (h_series h)).

Record MarketView := mkView { mv_now : Z; histories : list (pystr * SymbolHistory) }.
Definition history (v : MarketView) (sym : pystr) : result SymbolHistory :=
  match get (histories v) sym with
  | Some h => Ok h
  | None => raise DataValidationError (u "unknown symbol " ++ repr_str sym)
  end.

Definition view_latest (v : MarketView) (sym : pystr) : result (option Bar) := h ← history v sym; latest h.
Definition view_at (v : MarketView) (sym : pystr) (t : Z) : result (option Bar) := h ← history v sym; at_time h t.

Record FeedEvent := mkEvent { ev_ts : Z; new_bars : list (pystr * Bar); view : MarketView }.

(** A series with its cursor; at [t] the bar stamped [t] becomes visible. *)
Definition advance (t : Z) (sc : SymbolSeries * nat) : result (option Bar * (SymbolSeries * nat)) :=
  let '(s, i) := sc in
  if bool_decide (sr_ts s !! i = Some t) then b ← bar s i; Ok (Some b, (s, S i)) else Ok (None, (s, i)).
Definition feed_event (t : Z) (cursors : list (SymbolSeries * nat)) : result (FeedEvent * list (SymbolSeries * nat)) :=
  moved ← mapR (advance t) cursors;
  let cursors := moved.*2 in
  let bars := omap (λ m, match m.1 with Some b => Some (sr_symbol m.2.1, b) | None => None end) moved in
  let hs := (λ sc, (sr_symbol sc.1, mkHistory sc.1 sc.2 t)) <$> cursors in
  Ok (mkEvent t bars (mkView t hs), cursors).
Fixpoint feed_from (ts : list Z) (cursors : list (SymbolSeries * nat)) : result (list FeedEvent) :=
  match ts with
  | [] => Ok []
  | t :: ts =>
      '(ev, cursors) ← feed_event t cursors;
      rest ← feed_from ts cursors;
      Ok (ev :: rest)
  end.
Definition events (d : MarketData) : result (list FeedEvent) :=
  feed_from (timeline d) ((λ kv, (kv.2, 0%nat)) <$> md_series d).
End numpy.

(** ** Series: facts *)

Lemma increasing_sorted l : increasing l = true → StronglySorted Z.lt l.
Proof.
  unfold increasing. intros Hi. apply Sorted_StronglySorted; [intros x y z; apply Z.lt_trans|].
  induction l as [|x [|y l] IH]; [by constructor..|]. cbn in Hi. apply andb_true_iff in Hi as [Hx Hi].
  constructor; [by apply IH|]. constructor. by apply Z.ltb_lt.
Qed.

Lemma sorted_lt_le l : StronglySorted Z.lt l → StronglySorted Z.le l.
Proof. induction 1; constructor; [done|]. eapply Forall_impl; [done|]. cbn. lia. Qed.

(** Positions of a sorted list follow its order. *)
Lemma sorted_lookup_lt l i j x y :
  StronglySorted Z.lt l → l !! i = Some x → l !! j = Some y → (i < j)%nat ↔ x < y.
Proof.
  intros Hs. revert i j. induction Hs as [|a l Hs IH Ha]; intros i j Hi Hj; [done|].
  rewrite Forall_forall in Ha. destruct i as [|i], j as [|j]; cbn in Hi, Hj.
  - injection Hi as ->. injection Hj as ->. lia.
  - injection Hi as ->. apply list_elem_of_lookup_2 in Hj. specialize (Ha _ Hj). lia.
  - injection Hj as ->. apply list_elem_of_lookup_2 in Hi. specialize (Ha _ Hi). lia.
  - rewrite <- (IH i j Hi Hj). lia.
Qed.

Lemma strongly_sorted_lookup {A} (R : A → A → Prop) l p q a b :
  StronglySorted R l → l !! p = Some a → l !! q = Some b → (p < q)%nat → R a b.
Proof.
  intros Hs. revert p q. induction Hs as [|c l Hs IH Hc]; intros p q Hp Hq Hpq; [done|].
  destruct q as [|q]; [lia|]. destruct p as [|p]; cbn in Hp, Hq.
  - injection Hp as ->. rewrite Forall_forall in Hc. by apply Hc, list_elem_of_lookup_2 in Hq || (apply Hc; by eapply list_elem_of_lookup_2).
  - apply (IH p q); [done|done|lia].
Qed.

(** How many elements of a sorted list satisfy a downward closed bound. *)
Lemma count_prefix (P : Z → Prop) `{∀ x, Decision (P x)} l n :
  (n <= length l)%nat → (∀ k x, l !! k = Some x → (k < n)%nat ↔ P x) → length (filter P l) = n.
Proof.
  revert n. induction l as [|x l IH]; intros n Hn Hk; [cbn in *; lia|].
  destruct n as [|n].
  - rewrite filter_cons_False; [|intros Hp; apply (Hk 0%nat x eq_refl) in Hp; lia].
    apply IH; [lia|]. intros k y Hy. rewrite <- (Hk (S k) y Hy). lia.
  - rewrite filter_cons_True; [|apply (Hk 0%nat x eq_refl); lia]. cbn. f_equal. apply IH; [cbn in Hn; lia|].
    intros k y Hy. rewrite <- (Hk (S k) y Hy). lia.
Qed.
Lemma prefix_count (P : Z → Prop) `{∀ x, Decision (P x)} l :
  StronglySorted Z.le l → (∀ x y, x <= y → P y → P x) →
  ∀ k x, l !! k = Some x → (k < length (filter P l))%nat ↔ P x.
Proof.
  intros Hs Hdown. induction Hs as [|a l Hs IH Ha]; intros k x Hk; [done|]. rewrite Forall_forall in Ha.
  destruct (decide (P a)) as [Hp|Hp].
  - rewrite filter_cons_True by done. destruct k as [|k]; cbn in Hk |- *.
    + injection Hk as ->. split; [done|lia].
    + rewrite <- (IH k x Hk). lia.
  - rewrite filter_cons_False by done.
    assert (Hnone : filter P l = []).
    { apply elem_of_nil_inv. intros y Hy. apply list_elem_of_filter in Hy as [Hy Hin]. apply Hp. by apply (Hdown a y), Hy; apply Ha. }
    rewrite Hnone. cbn. split; [lia|]. intros Hx. exfalso. apply Hp. destruct k as [|k]; cbn in Hk; [by injection Hk as ->|].
    apply (Hdown a x); [|done]. apply Ha. by apply list_elem_of_lookup_2 in Hk.
Qed.

Lemma guard_ok b c msg a : guard_raise b c msg = Ok a ↔ b = false.
Proof. unfold guard_raise. destruct a, b; cbn; naive_solver. Qed.
Lemma existsb_false {A} (p : A → bool) l : existsb p l = false ↔ ∀ x, x ∈ l → p x = false.
Proof.
  split.
  - intros Hl x Hx. destruct (p x) eqn:E; [|done]. rewrite <- Hl. symmetry. apply existsb_exists. exists x.
    split; [by apply list_elem_of_In|done].
  - intros Hp. apply not_true_iff_false. intros (x & Hx & E)%existsb_exists. rewrite Hp in E; [done|by apply list_elem_of_In].
Qed.
Lemma forallb_Forall {A} (p : A → bool) l : forallb p l = true → Forall (λ x, p x = true) l.
Proof. intros Hp. apply Forall_forall. intros x Hx. by eapply forallb_forall, list_elem_of_In. Qed.

Definition validated (s : SymbolSeries) : Prop := _validate s = Ok tt.

Lemma validated_inv s : validated s →
  length (sr_open s) = series_length s ∧ length (sr_high s) = series_length s ∧ length (sr_low s) = series_length s
  ∧ length (sr_close s) = series_length s ∧ length (sr_volume s) = series_length s ∧ length (sr_regime s) = series_length s
  ∧ series_length s ≠ 0%nat ∧ StronglySorted Z.lt (sr_ts s)
  ∧ Forall (λ r, 0 <= r <= 5) (sr_regime s)
  ∧ Forall (λ x, price_ok x = true) (sr_close s) ∧ Forall (λ x, price_ok x = true) (sr_open s)
  ∧ Forall (λ x, is_finite_float x = true ∧ float_ltb x f0 = false) (sr_volume s).
Proof.
  unfold validated, _validate. intros Hv.
  apply bind_ok in Hv as ([] & Hlen%guard_ok & Hv). apply bind_ok in Hv as ([] & Hne%guard_ok & Hv).
  apply bind_ok in Hv as ([] & Hpr%guard_ok & Hv). apply bind_ok in Hv as ([] & Hvol%guard_ok & Hv).
  apply bind_ok in Hv as ([] & _ & Hv). apply bind_ok in Hv as ([] & Hts%guard_ok & Hv). apply guard_ok in Hv.
  apply negb_false_iff in Hlen, Hpr, Hvol. rewrite !andb_true_iff, !Nat.eqb_eq in Hlen. rewrite !forallb_app, !andb_true_iff in Hpr.
  destruct Hpr as (Hp1 & _ & _ & Hp4). ands; try tauto.
  - by apply Nat.eqb_neq.
  - apply andb_false_iff in Hts as [Hts|Hts].
    + apply Nat.ltb_ge in Hts. unfold series_length in Hts.
      destruct (sr_ts s) as [|x [|y l]]; [by repeat constructor..|cbn in Hts; lia].
    + by apply increasing_sorted, negb_false_iff.
  - apply Forall_forall. intros r Hr. rewrite existsb_false in Hv. specialize (Hv r Hr). lia.
  - by apply forallb_Forall.
  - by apply forallb_Forall.
  - apply forallb_Forall in Hvol. eapply Forall_impl; [exact Hvol|]. cbn. intros x [? ?%negb_true_iff]%andb_true_iff. done.
Qed.

Lemma label_of_ok r : 0 <= r <= 5 → ∃ l, RegimeLabel_of r = Some l ∧ regime_number l = r.
Proof.
  intros Hr. assert (r = 0 ∨ r = 1 ∨ r = 2 ∨ r = 3 ∨ r = 4 ∨ r = 5) as Hc by lia.
  destruct Hc as [->|[->|[->|[->|[->| ->]]]]]; by eexists.
Qed.

(** A validated series has a bar at each of its positions, stamped with the time there. *)
Lemma bar_ok s i t : validated s → sr_ts s !! i = Some t →
  ∃ b, bar s i = Ok b ∧ timestamp_ns b = t ∧ bar_symbol b = sr_symbol s ∧ sr_close s !! i = Some (b_close b).
Proof.
  intros Hv Ht. apply validated_inv in Hv as (H1 & H2 & H3 & H4 & H5 & H6 & _ & _ & Hr & _).
  pose proof (lookup_lt_Some _ _ _ Ht) as Hlt. unfold series_length in *.
  assert (∀ A (l : list A), length l = length (sr_ts s) → ∃ x, l !! i = Some x) as Hx
    by (intros A l Hl; apply lookup_lt_is_Some; lia).
  destruct (Hx _ _ H1) as [o Ho], (Hx _ _ H2) as [h Hh], (Hx _ _ H3) as [l Hl], (Hx _ _ H4) as [c Hc],
    (Hx _ _ H5) as [v Hvo], (Hx _ _ H6) as [r Hre].
  rewrite Forall_forall in Hr. destruct (label_of_ok r) as (lab & Hlab & _); [by apply Hr; eapply list_elem_of_lookup_2|].
  eexists. unfold bar. rewrite Ht, Ho, Hh, Hl, Hc, Hvo, Hre, Hlab. by ands.
Qed.
Lemma bar_inv s i b : bar s i = Ok b → sr_ts s !! i = Some (timestamp_ns b) ∧ bar_symbol b = sr_symbol s.
Proof.
  unfold bar. destruct (sr_ts s !! i); [|done]. repeat (destruct (_ !! i); [|done]).
  destruct (RegimeLabel_of _); [|done]. by intros [= <-].
Qed.

(** ** Markets *)

Record market_ok (d : MarketData) : Prop := {
  mk_series : Forall (λ kv, kv.1 = sr_symbol kv.2 ∧ validated kv.2) (md_series d);
  mk_names : NoDup (symbols d);
  mk_sorted : StronglySorted Z.lt (timeline d);
  mk_merged : ∀ t, t ∈ timeline d ↔ ∃ s, s ∈ (md_series d).*2 ∧ t ∈ sr_ts s }.

Section facts.
Context `{NumpyLaws}.

Lemma create_validated sym ts o h l c v r s : create sym ts o h l c v r = Ok s → validated s ∧ sr_symbol s = sym ∧ sr_ts s = ts
  ∧ sr_close s = c.
Proof. unfold create. intros ([] & Hv & [= <-])%bind_ok. by ands. Qed.

Lemma make_market_ok l d : make_market l = Ok d → Forall validated l → market_ok d.
Proof.
  unfold make_market. intros ([] & Hn%guard_ok & Hm)%bind_ok Hv. apply bind_ok in Hm as ([] & _ & [= <-]).
  apply negb_false_iff, bool_decide_eq_true in Hn.
  pose proof (sort_keys_perm ((λ s, (sr_symbol s, s)) <$> l)) as Hperm.
  split; cbn.
  - rewrite Hperm. apply Forall_fmap. eapply Forall_impl; [exact Hv|]. done.
  - unfold symbols. cbn. rewrite Hperm, <- list_fmap_compose. exact Hn.
  - apply unique_sorted.
  - intros t. rewrite unique_elem, list_elem_of_In, in_concat.
    setoid_rewrite <- list_elem_of_In. split.
    + intros (x & Hx & Ht). apply list_elem_of_fmap in Hx as ([k s] & -> & Hin). exists s. split; [|done].
      apply list_elem_of_fmap. by exists (k, s).
    + intros (s & Hin & Ht). apply list_elem_of_fmap in Hin as ([k s'] & -> & Hin). exists (sr_ts s'). split; [|done].
      apply list_elem_of_fmap. by exists (k, s').
Qed.

(** ** The feed *)

(** The bars a history shows are those stamped no later than its present. *)
Definition point_in_time (h : SymbolHistory) : Prop :=
  (h_end h <= series_length (h_series h))%nat
  ∧ ∀ k x, sr_ts (h_series h) !! k = Some x → (k < h_end h)%nat ↔ x <= h_now h.

(** The cursor of a series when the timeline is about to show [rest]. *)
Definition cursor_at (rest : list Z) (sc : SymbolSeries * nat) : Prop :=
  validated sc.1 ∧ (sc.2 <= series_length sc.1)%nat
  ∧ ∀ k x, sr_ts sc.1 !! k = Some x → ((k < sc.2)%nat → Forall (Z.lt x) rest) ∧ ((sc.2 <= k)%nat → x ∈ rest).

Lemma advance_ok t rest sc : StronglySorted Z.lt (t :: rest) → cursor_at (t :: rest) sc →
  ∃ m, advance t sc = Ok m ∧ m.2.1 = sc.1 ∧ cursor_at rest m.2
  ∧ (∀ k x, sr_ts sc.1 !! k = Some x → (k < m.2.2)%nat ↔ x <= t)
  ∧ match m.1 with
    | Some b => timestamp_ns b = t ∧ ∃ i, bar sc.1 i = Ok b
    | None => t ∉ sr_ts sc.1 end.
Proof.
  intros Hs (Hv & Hi & Hc). destruct sc as [s i]. cbn [fst snd] in *. apply StronglySorted_inv in Hs as [_ Ht].
  rewrite Forall_forall in Ht. pose proof (validated_inv s Hv) as (_ & _ & _ & _ & _ & _ & _ & Hsort & _).
  unfold advance. destruct (bool_decide (sr_ts s !! i = Some t)) eqn:E; [apply bool_decide_eq_true in E|apply bool_decide_eq_false in E].
  - destruct (bar_ok s i t Hv E) as (b & Hb & Hbt & _). rewrite Hb. cbn. eexists. split; [done|]. cbn.
    assert (Hk : ∀ k x, sr_ts s !! k = Some x → (k < S i)%nat ↔ x <= t).
    { intros k x Hx. pose proof (sorted_lookup_lt _ k i x t Hsort Hx E).
      pose proof (sorted_lookup_lt _ i k t x Hsort E Hx). destruct (decide (k = i)) as [->|]; [|lia].
      rewrite E in Hx. injection Hx as ->. lia. }
    split; [done|]. split; [|split; [exact Hk|by eauto]]. split; [done|]. split.
    { apply lookup_lt_Some in E. unfold series_length. cbn. lia. }
    cbn. intros k x Hx. specialize (Hk k x Hx). split; intros Hlt.
    + apply Forall_forall. intros y Hy. specialize (Ht y Hy). lia.
    + destruct (Hc k x Hx) as [_ H2]. specialize (H2 ltac:(lia)). apply list_elem_of_In in H2 as [->|H2]; [lia|by apply list_elem_of_In].
  - eexists. split; [done|]. cbn. split; [done|].
    assert (Hk : ∀ k x, sr_ts s !! k = Some x → (k < i)%nat ↔ x <= t).
    { intros k x Hx. destruct (Hc k x Hx) as [H1 H2]. split; intros Hlt.
      - specialize (H1 Hlt). apply Forall_inv in H1. lia.
      - destruct (Nat.lt_ge_cases k i) as [?|Hge]; [done|exfalso]. specialize (H2 Hge).
        apply list_elem_of_In in H2 as [->|H2]; [|apply list_elem_of_In, Ht in H2; lia].
        destruct (decide (k = i)) as [->|]; [done|].
        assert (∃ y, sr_ts s !! i = Some y) as [y Hy].
        { apply lookup_lt_is_Some. apply lookup_lt_Some in Hx. lia. }
        destruct (Hc i y Hy) as [_ Hyin]. specialize (Hyin ltac:(lia)).
        pose proof (sorted_lookup_lt _ i k y x Hsort Hy Hx). apply list_elem_of_In in Hyin as [->|Hyin]; [lia|].
        apply list_elem_of_In, Ht in Hyin. lia. }
    split; [split; [done|]; split; [done|]|split; [exact Hk|]].
    + cbn. intros k x Hx. destruct (Hc k x Hx) as [H1 H2]. split; intros Hlt.
      * specialize (H1 Hlt). by apply Forall_inv_tail in H1.
      * specialize (H2 Hlt). apply list_elem_of_In in H2 as [->|H2]; [|by apply list_elem_of_In].
        specialize (Hk k x Hx). lia.
    + intros (k & Hx)%list_elem_of_lookup. specialize (Hk k t Hx). destruct (Hc k t Hx) as [H1 _].
      specialize (H1 ltac:(lia)). apply Forall_inv in H1. lia.
Qed.

(** What an event shows of a market. *)
Definition event_ok (d : MarketData) (ev : FeedEvent) : Prop :=
  mv_now (view ev) = ev_ts ev
  ∧ Forall2 (λ kv h, h.1 = kv.1 ∧ h_series h.2 = kv.2 ∧ h_now h.2 = ev_ts ev ∧ point_in_time h.2)
      (md_series d) (histories (view ev))
  ∧ (∀ sym b, (sym, b) ∈ new_bars ev → timestamp_ns b = ev_ts ev ∧ ∃ s i, (sym, s) ∈ md_series d ∧ bar s i = Ok b)
  ∧ (∀ sym s, (sym, s) ∈ md_series d → ev_ts ev ∈ sr_ts s → ∃ b, (sym, b) ∈ new_bars ev).

Lemma feed_from_ok d rest cursors :
  StronglySorted Z.lt rest → Forall (cursor_at rest) cursors →
  Forall2 (λ kv sc, kv.2 = sc.1 ∧ kv.1 = sr_symbol kv.2) (md_series d) cursors →
  ∃ evs, feed_from rest cursors = Ok evs ∧ ev_ts <$> evs = rest ∧ Forall (event_ok d) evs.
Proof.
  revert cursors. induction rest as [|t rest IH]; intros cursors Hs Hc Hd; [by exists []|].
  assert (∃ moved, mapR (advance t) cursors = Ok moved
    ∧ Forall2 (λ sc m, advance t sc = Ok m ∧ m.2.1 = sc.1 ∧ cursor_at rest m.2
        ∧ (∀ k x, sr_ts sc.1 !! k = Some x → (k < m.2.2)%nat ↔ x <= t)
        ∧ match m.1 with Some b => timestamp_ns b = t ∧ ∃ i, bar sc.1 i = Ok b | None => t ∉ sr_ts sc.1 end) cursors moved)
    as (moved & Hm & Hmoved).
  { clear IH Hd. induction Hc as [|sc cursors Hsc Hc (moved & Hm & IHm)]; [by exists []|].
    destruct (advance_ok t rest sc Hs Hsc) as (m & Ha & Hrest). exists (m :: moved). cbn. rewrite Ha. cbn. rewrite Hm.
    split; [done|]. by constructor. }
  cbn [feed_from]. unfold feed_event. rewrite Hm. cbn [mbind result_bind].
  apply StronglySorted_inv in Hs as [Hs Ht].
  destruct (IH (moved.*2)) as (evs & Hf & Hts & Hall).
  - done.
  - apply Forall_fmap. clear -Hmoved. induction Hmoved; constructor; [tauto|done].
  - clear -Hd Hmoved. revert moved Hmoved. induction Hd; intros moved Hmoved; inversion Hmoved; subst; cbn; constructor; [|by auto].
    destruct_and!. split; congruence.
  - rewrite Hf. cbn. eexists. split; [done|]. cbn. split; [by rewrite Hts|]. constructor; [|done].
    split; [done|]. cbn. clear IH Hf Hall Hts Hc Hm. revert moved Hmoved.
    induction Hd as [|[k s] sc ser cursors [E1 E2] Hd IHd]; intros moved Hmoved; inversion Hmoved as [|? m ? moved' Hsc Hrest]; subst.
    { split; [constructor|]. by split; intros ? ? ?%elem_of_nil. }
    specialize (IHd _ Hrest). destruct IHd as (I1 & I2 & I3). cbn [fst snd] in *. subst k s.
    destruct Hsc as (_ & Em & (Hv & Hle & _) & Hk & Hb). destruct m as [ob [s i]]. cbn [fst snd] in *. subst s.
    split; [|split].
    + cbn. constructor; [|done]. ands; try done.
    + intros sym b Hin. cbn in Hin. destruct ob as [b0|]; [|destruct (I2 sym b Hin) as (? & s & j & ? & ?); split; [done|]; exists s, j; split; [by right|done]].
      apply list_elem_of_In in Hin as [[= <- <-]|Hin].
      * destruct Hb as [? [j Hj]]. split; [done|]. exists (sc.1), j. split; [by left|done].
      * apply list_elem_of_In in Hin. destruct (I2 sym b Hin) as (? & s & j & ? & ?). split; [done|]. exists s, j. split; [by right|done].
    + intros sym s Hin Hts. apply list_elem_of_In in Hin as [[= <- <-]|Hin].
      * cbn. destruct ob as [b0|]; [|done]. exists b0. by left.
      * apply list_elem_of_In in Hin. destruct (I3 sym s Hin Hts) as [b Hb']. exists b. cbn. destruct ob; [by right|done].
Qed.

Lemma feed_is_total l d :
  make_market l = Ok d → Forall validated l →
  ∃ evs, events d = Ok evs ∧ ev_ts <$> evs = timeline d ∧ StronglySorted Z.lt (timeline d) ∧ Forall (event_ok d) evs.
Proof.
  intros Hm Hv. destruct (make_market_ok l d Hm Hv) as [Hser _ Hsort Hmerged].
  destruct (feed_from_ok d (timeline d) ((λ kv, (kv.2, 0%nat)) <$> md_series d)) as (evs & He & Ht & Ho); [done| | |by exists evs].
  - apply Forall_fmap. rewrite Forall_forall in Hser |- *. intros [k s] Hin. destruct (Hser _ Hin) as [_ Hvs]. cbn.
    split; [done|]. split; [cbn; lia|]. cbn. intros i x Hx. split; [lia|]. intros _. apply Hmerged. exists s.
    split; [apply list_elem_of_fmap; by exists (k, s)|by eapply list_elem_of_lookup_2].
  - clear -Hser. induction Hser as [|[k s] m [E _] Hser IH]; cbn; constructor; [by split|done].
Qed.

(** The feed never fails on validated data and never runs ahead: one event for each timestamp of
    the merged timeline, in order; in each the histories end exactly at the bars stamped no later
    than the present, and the new bars are the bars stamped with it, one for each symbol that has
    one. *)
Theorem feed_is_point_in_time l d :
  make_market l = Ok d → Forall validated l →
  ∃ evs, events d = Ok evs ∧ ev_ts <$> evs = timeline d ∧ StronglySorted Z.lt (timeline d) ∧ Forall (event_ok d) evs.
Proof. apply feed_is_total. Qed.

(** ** What a strategy can ask *)

Lemma slice_bound_range n step v missing : 0 <= n → step ≠ 0 →
  (if step <? 0 then -1 <= missing <= n - 1 else 0 <= missing <= n) →
  if step <? 0 then -1 <= slice_bound n step v missing <= n - 1 else 0 <= slice_bound n step v missing <= n.
Proof.
  intros Hn Hs Hm. unfold slice_bound. destruct v as [v|]; [|done].
  destruct (step <? 0); destruct (Z.ltb_spec v 0); lia.
Qed.

Lemma slice_indices_range start stop step n l : 0 <= n → slice_indices start stop step n = Ok l → Forall (λ i, 0 <= i < n) l.
Proof.
  intros Hn. unfold slice_indices. set (st := default 1 step). destruct (Z.eqb_spec st 0) as [|Hst]; [done|].
  set (a := slice_bound n st start _). set (b := slice_bound n st stop _).
  assert (Ha : if st <? 0 then -1 <= a <= n - 1 else 0 <= a <= n) by (apply slice_bound_range; try done; destruct (st <? 0); lia).
  assert (Hb : if st <? 0 then -1 <= b <= n - 1 else 0 <= b <= n) by (apply slice_bound_range; try done; destruct (st <? 0); lia).
  intros [= <-]. apply Forall_fmap, Forall_forall. intros k Hk. apply elem_of_seq in Hk as [_ Hk]. cbn in Hk |- *.
  assert (Hst' : st < 0 ∨ 0 < st) by lia. destruct Hst' as [Hneg|Hpos].
  - assert (E1 : (st <? 0) = true) by lia. assert (E2 : (0 <? st) = false) by lia. rewrite E1 in Ha, Hb. rewrite E2 in Hk.
    assert (Hq : Z.of_nat k * - st < a - b).
    { pose proof (Z.mul_div_le (a - b - st - 1) (- st) ltac:(lia)).
      assert (Z.of_nat k + 1 <= (a - b - st - 1) / - st) by lia. nia. }
    nia.
  - assert (E1 : (st <? 0) = false) by lia. assert (E2 : (0 <? st) = true) by lia. rewrite E1 in Ha, Hb. rewrite E2 in Hk.
    assert (Hq : Z.of_nat k * st < b - a).
    { pose proof (Z.mul_div_le (b - a + st - 1) st ltac:(lia)).
      assert (Z.of_nat k + 1 <= (b - a + st - 1) / st) by lia. nia. }
    nia.
Qed.

Section history.
Context (h : SymbolHistory) (Hpit : point_in_time h) (Hval : validated (h_series h)).

Lemma visible_bar i : (i < h_end h)%nat → ∃ b, bar (h_series h) i = Ok b ∧ timestamp_ns b <= h_now h.
Proof.
  intros Hi. destruct Hpit as [Hle Hk].
  assert (∃ t, sr_ts (h_series h) !! i = Some t) as [t Ht] by (apply lookup_lt_is_Some; unfold series_length in Hle; lia).
  destruct (bar_ok _ _ _ Hval Ht) as (b & Hb & Hbt & _). exists b. split; [done|]. rewrite Hbt. by apply (Hk i t Ht).
Qed.

Lemma getslice_visible start stop step bars :
  getslice h start stop step = Ok bars → Forall (λ b, timestamp_ns b <= h_now h) bars.
Proof.
  unfold getslice. destruct (match stop with Some v => _ | None => false end); [done|].
  intros (l & Hl & Hb)%bind_ok. apply slice_indices_range in Hl; [|lia]. apply mapR_Ok in Hb.
  induction Hb as [|i b l bars Hi Hb IH]; [done|]. inversion Hl; subst. constructor; [|by apply IH].
  destruct (visible_bar (Z.to_nat i)) as (b' & Hb' & ?); [lia|]. rewrite Hb' in Hi. by injection Hi as <-.
Qed.

Lemma tail_visible {A} (column : list A) n l :
  _tail h column n = Ok l → ∃ before, take (h_end h) column = before ++ l ∧ match n with Some n => (length l <= Z.to_nat n)%nat | None => before = [] end.
Proof.
  unfold _tail. destruct (match n with Some n => n <? 0 | None => false end); [done|]. intros [= <-].
  set (start := match n with None => 0%nat | Some n => (h_end h - Z.to_nat n)%nat end).
  exists (take start (take (h_end h) column)). unfold sub_column.
  rewrite <- (take_drop start (take (h_end h) column)) at 1. rewrite skipn_firstn_comm. split; [done|].
  destruct n as [n|]; [|done]. rewrite length_take. unfold start. lia.
Qed.

(** A view that ends at the present shows nothing of the future. An index, a slice, the latest bar
    or a time gives bars stamped no later than the present; a position or a time beyond it is a
    LookaheadError, and nothing else is refused; a column is the end of its visible part. *)
Theorem history_never_looks_ahead :
  (∀ i, - Z.of_nat (h_end h) <= i < Z.of_nat (h_end h) →
        ∃ b, getitem h i = Ok b ∧ timestamp_ns b <= h_now h)
  ∧ (∀ i, ~ (- Z.of_nat (h_end h) <= i < Z.of_nat (h_end h)) →
        ∃ e, getitem h i = Raise e ∧ exn_kind e = LookaheadError)
  ∧ (∀ start stop step bars, getslice h start stop step = Ok bars → Forall (λ b, timestamp_ns b <= h_now h) bars)
  ∧ (∃ ob, latest h = Ok ob
      ∧ match ob with
        | Some b => timestamp_ns b <= h_now h ∧ ∀ t, t ∈ sr_ts (h_series h) → t <= h_now h → t <= timestamp_ns b
        | None => ∀ t, t ∈ sr_ts (h_series h) → h_now h < t end)
  ∧ (∀ t, h_now h < t → ∃ e, at_time h t = Raise e ∧ exn_kind e = LookaheadError)
  ∧ (∀ t, t <= h_now h → ∃ ob, at_time h t = Ok ob
      ∧ match ob with Some b => timestamp_ns b = t | None => t ∉ sr_ts (h_series h) end)
  ∧ (∀ n l, closes h n = Ok l → ∃ before, take (h_end h) (sr_close (h_series h)) = before ++ l).
Proof.
  pose proof Hpit as [Hle Hk]. pose proof (validated_inv _ Hval) as (_ & _ & _ & _ & _ & _ & _ & Hsort & _).
  split; [|split; [|split; [|split; [|split; [|split]]]]].
  - intros i Hi. unfold getitem. destruct ((_ <=? i) || _) eqn:E; [lia|].
    destruct (visible_bar (Z.to_nat (if 0 <=? i then i else Z.of_nat (h_end h) + i))) as (b & Hb & ?); [destruct (Z.leb_spec 0 i); lia|]. by exists b.
  - intros i Hi. unfold getitem. destruct ((_ <=? i) || _) eqn:E; [by eexists|lia].
  - apply getslice_visible.
  - unfold latest. destruct (h_end h) as [|last] eqn:Ee.
    + eexists. split; [done|]. intros t (k & Ht)%list_elem_of_lookup. specialize (Hk k t Ht). lia.
    + destruct (visible_bar last) as (b & Hb & Hbt); [lia|]. rewrite Hb. cbn. eexists. split; [done|]. split; [done|].
      intros t (k & Ht)%list_elem_of_lookup Hnow. apply bar_inv in Hb as [Hb _].
      pose proof (sorted_lookup_lt _ last k _ _ Hsort Hb Ht). specialize (Hk k t Ht). lia.
  - intros t Ht. unfold at_time. assert (E : (h_now h <? t) = true) by lia. rewrite E. by eexists.
  - intros t Ht. unfold at_time. assert (E : (h_now h <? t) = false) by lia. rewrite E.
    set (idx := searchsorted_left _ t).
    destruct ((idx <? h_end h)%nat && bool_decide (sr_ts (h_series h) !! idx = Some t)) eqn:Eb.
    + apply andb_true_iff in Eb as [Hlt%Nat.ltb_lt Hidx%bool_decide_eq_true].
      destruct (bar_ok _ _ _ Hval Hidx) as (b & Hb & Hbt & _). rewrite Hb. cbn. by eexists.
    + eexists. split; [done|]. intros (k & Hkt)%list_elem_of_lookup. pose proof (proj2 (Hk k t Hkt) Ht) as Hkend.
      assert (Hi : idx = k).
      { unfold idx. rewrite left_law.
        - apply (count_prefix (λ y, y < t)); [rewrite length_take; unfold series_length in Hle; lia|].
          intros j y Hj. apply lookup_take_Some in Hj as [Hj Hjend].
          by rewrite <- (sorted_lookup_lt _ j k y t Hsort Hj Hkt).
        - apply sorted_lt_le. clear -Hsort. revert Hsort. generalize (sr_ts (h_series h)) (h_end h). intros l n Hs. revert n.
          induction Hs as [|x l Hs IH Hx]; intros [|n]; cbn; constructor; [by apply IH|]. by apply Forall_take. }
      subst k. apply andb_false_iff in Eb as [Eb|Eb]; [apply Nat.ltb_ge in Eb; lia|].
      apply bool_decide_eq_false in Eb. done.
  - intros n l Hl. apply tail_visible in Hl as (before & E & _). by exists before.
Qed.
End history.

(** ** Regimes *)

(** The latest label given no later than [t], later entries winning ties; none: unknown. *)
Definition label_as_of (label_ts : list Z) (parsed : list RegimeLabel) (t : Z) (r : Z) : Prop :=
  (r = 0 ∧ ∀ x, x ∈ label_ts → t < x)
  ∨ ∃ j x lab, label_ts !! j = Some x ∧ parsed !! j = Some lab ∧ r = regime_number lab ∧ x <= t
      ∧ ∀ k y, label_ts !! k = Some y → y <= t → y < x ∨ y = x ∧ (k <= j)%nat.

Lemma as_of_spec label_ts labels t (parsed : list RegimeLabel) sorted_ts ordered :
  length label_ts = length parsed →
  sorted_ts = (λ i, default 0 (label_ts !! i)) <$> argsort label_ts →
  Forall2 (λ i r, parsed !! i = Some r) (argsort label_ts) ordered →
  labels = regime_number <$> ordered →
  label_as_of label_ts parsed t (as_of sorted_ts labels t).
Proof.
  intros Hlen -> Hord ->. pose proof (argsort_perm label_ts) as Hperm. pose proof (argsort_stable label_ts) as Hstable.
  set (order := argsort label_ts) in *.
  assert (Hin : ∀ i, i ∈ order ↔ (i < length label_ts)%nat) by (intros i; rewrite Hperm, elem_of_seq; lia).
  assert (Hget : ∀ i, i ∈ order → ∃ x, label_ts !! i = Some x) by (intros i Hi; apply lookup_lt_is_Some, Hin, Hi).
  assert (Hsorted : StronglySorted Z.le ((λ i, default 0 (label_ts !! i)) <$> order)).
  { clear Hord. clearbody order. revert Hget. clear -Hstable. induction Hstable as [|i order Hs IH Hi]; intros Hget; cbn; [constructor|].
    constructor; [apply IH; intros j Hj; apply Hget; by right|]. apply Forall_fmap, Forall_forall. intros j Hj.
    rewrite Forall_forall in Hi. destruct (Hget i) as [x Hx]; [by left|]. destruct (Hget j) as [y Hy]; [by right|].
    cbn. rewrite Hx, Hy. cbn. destruct (Hi j Hj x y Hx Hy) as [?|[? _]]; lia. }
  pose proof (prefix_count (λ y, y ≤ t) _ Hsorted ltac:(cbn; intros; lia)) as Hcount. unfold as_of. rewrite right_law by exact Hsorted.
  set (l := _ <$> order) in *. set (n := length (filter (λ y, y ≤ t) l)) in *.
  assert (Hn : (n <= length order)%nat).
  { unfold n. transitivity (length l); [apply length_filter|]. unfold l. by rewrite length_fmap. }
  clearbody n. destruct n as [|pos].
  - left. split; [done|]. intros x Hx. apply list_elem_of_lookup in Hx as (i & Hi).
    assert (Hio : i ∈ order) by (apply Hin; by eapply lookup_lt_Some). apply list_elem_of_lookup in Hio as (k & Hk).
    assert (Hlk : l !! k = Some x) by (unfold l; rewrite list_lookup_fmap, Hk; cbn; by rewrite Hi).
    specialize (Hcount k x Hlk). lia.
  - right. assert (∃ j, order !! pos = Some j) as [j Hj] by (apply lookup_lt_is_Some; lia).
    destruct (Hget j) as [x Hx]; [by eapply list_elem_of_lookup_2|].
    destruct (Forall2_lookup_l _ _ _ _ _ Hord Hj) as (lab & Hlab & Hparsed).
    assert (Hl : l !! pos = Some x) by (unfold l; rewrite list_lookup_fmap, Hj; cbn; by rewrite Hx).
    exists j, x, lab. split; [done|]. split; [done|]. split; [by rewrite list_lookup_fmap, Hlab|].
    split; [apply (Hcount pos x Hl); lia|]. intros k y Hy Hyt.
    assert (Hko : k ∈ order) by (apply Hin; by eapply lookup_lt_Some). apply list_elem_of_lookup in Hko as (p & Hp).
    assert (Hlp : l !! p = Some y) by (unfold l; rewrite list_lookup_fmap, Hp; cbn; by rewrite Hy).
    pose proof (proj2 (Hcount p y Hlp) Hyt) as Hppos.
    destruct (decide (p = pos)) as [->|Hne]; [rewrite Hj in Hp; injection Hp as <-; rewrite Hx in Hy; injection Hy as ->; right; lia|].
    assert (Hlt : (p < pos)%nat) by lia. pose proof (strongly_sorted_lookup _ _ _ _ _ _ Hstable Hp Hj Hlt) as Hr.
    exact (Hr y x Hy Hx).
Qed.

Lemma with_regimes_inv d label_ts labels d' :
  with_regimes d label_ts labels = Ok d' →
  ∃ ordered out sorted_ts, sorted_ts = (λ i, default 0 (label_ts !! i)) <$> argsort label_ts
  ∧ length label_ts = length labels
  ∧ Forall2 (λ i r, parse_regime (default RNone (labels !! i)) = Ok r) (argsort label_ts) ordered
  ∧ Forall2 (λ kv s', validated s' ∧ sr_symbol s' = sr_symbol kv.2 ∧ sr_ts s' = sr_ts kv.2
      ∧ sr_regime s' = (λ t, int8 (as_of sorted_ts (regime_number <$> ordered) t)) <$> sr_ts kv.2) (md_series d) out
  ∧ make_market out = Ok d'.
Proof.
  unfold with_regimes. intros ([] & Hl%guard_ok & Hw)%bind_ok. apply bind_ok in Hw as ([] & _ & Hw).
  apply bind_ok in Hw as (parsed & Hp%mapR_Ok & Hw). apply bind_ok in Hw as (out & Ho%mapR_Ok & Hm).
  apply negb_false_iff, Nat.eqb_eq in Hl. exists parsed, out. eexists. split; [done|]. split; [done|]. split; [done|].
  split; [|done]. eapply Forall2_impl; [exact Ho|]. cbn. intros kv s' Hc.
  unfold create in Hc. apply bind_ok in Hc as ([] & Hv & [= <-]). cbn. ands; try done. by rewrite <- list_fmap_compose.
Qed.

(** Attaching labels never looks ahead: each bar gets the label given last at or before its own
    time, or is unknown when there was none; the labels are read by [parse_regime], and the times and
    symbols stay as they are. *)
Theorem regimes_never_look_ahead d label_ts labels d' :
  with_regimes d label_ts labels = Ok d' →
  ∃ parsed, Forall2 (λ a r, parse_regime a = Ok r) labels parsed ∧
  ∀ sym s', (sym, s') ∈ md_series d' → ∃ kv, kv ∈ md_series d ∧ sr_symbol kv.2 = sym ∧ sr_ts s' = sr_ts kv.2
    ∧ Forall2 (label_as_of label_ts parsed) (sr_ts s') (sr_regime s').
Proof.
  intros (ordered & out & sorted_ts & Est & Hlen & Hord & Hout & Hm)%with_regimes_inv.
  pose proof (argsort_perm label_ts) as Hperm.
  assert (Hparse : ∃ parsed, Forall2 (λ a r, parse_regime a = Ok r) labels parsed).
  { assert (Hall : ∀ i a, labels !! i = Some a → ∃ r, parse_regime a = Ok r).
    { intros i a Ha. assert (Hi : i ∈ argsort label_ts).
      { rewrite Hperm, elem_of_seq, Hlen. apply lookup_lt_Some in Ha. lia. }
      apply list_elem_of_lookup in Hi as (k & Hk). destruct (Forall2_lookup_l _ _ _ _ _ Hord Hk) as (r & _ & Hr).
      rewrite Ha in Hr. by exists r. }
    clear -Hall. induction labels as [|a labels IH]; [by exists []|]. destruct (Hall 0%nat a eq_refl) as [r Hr].
    destruct IH as [parsed Hp]; [intros i b Hb; by apply (Hall (S i))|]. exists (r :: parsed). by constructor. }
  destruct Hparse as [parsed Hparsed]. exists parsed. split; [done|]. intros sym s' Hin.
  unfold make_market in Hm. apply bind_ok in Hm as ([] & _ & Hm). apply bind_ok in Hm as ([] & _ & [= <-]). cbn in Hin.
  rewrite sort_keys_perm in Hin. apply list_elem_of_fmap in Hin as (s1 & [= -> ->] & Hin).
  apply list_elem_of_lookup in Hin as (k & Hk). destruct (Forall2_lookup_r _ _ _ _ _ Hout Hk) as (kv & Hkv & Hv & Hsym & Hts & Hreg).
  exists kv. split; [by eapply list_elem_of_lookup_2|]. split; [done|]. split; [done|].
  rewrite Hts, Hreg. apply Forall2_fmap_r. apply Forall_Forall2_diag, Forall_forall. intros t _.
  assert (Hok : label_as_of label_ts parsed t (as_of sorted_ts (regime_number <$> ordered) t)).
  { apply (as_of_spec _ _ _ _ sorted_ts ordered); [rewrite Hlen; by eapply Forall2_length|done| |done].
    apply Forall2_same_length_lookup_2; [by eapply Forall2_length|]. intros p i r Hp Hpr.
    pose proof (Forall2_lookup_lr _ _ _ _ _ _ Hord Hp Hpr) as Hr. cbn in Hr. destruct (labels !! i) as [a|] eqn:Ha.
    - destruct (Forall2_lookup_l _ _ _ _ _ Hparsed Ha) as (r' & Hr' & E). cbn in Hr. congruence.
    - exfalso. apply list_elem_of_lookup_2 in Hp. rewrite Hperm, elem_of_seq in Hp.
      apply lookup_ge_None in Ha. lia. }
  unfold compose, int8. set (r := as_of _ _ _) in *. clearbody r. replace ((r + 128) mod 256 - 128) with r; [exact Hok|].
  destruct Hok as [[-> _]|(j & x & lab & _ & _ & -> & _)]; [done|by destruct lab].
Qed.

(** ** Slices *)

Lemma elem_of_sub_column {A} lo hi (l : list A) x : x ∈ sub_column lo hi l → x ∈ l.
Proof. unfold sub_column. intros Hx. by apply subseteq_take, subseteq_drop in Hx. Qed.
Lemma sub_column_zip {A B C} (f : A → B → C) lo hi l k :
  zip_with f (sub_column lo hi l) (sub_column lo hi k) = sub_column lo hi (zip_with f l k).
Proof. unfold sub_column. by rewrite zip_with_drop, zip_with_take. Qed.
Lemma length_sub_column {A} lo hi (l : list A) : (hi <= length l)%nat → length (sub_column lo hi l) = (hi - lo)%nat.
Proof. intros Hl. unfold sub_column. rewrite length_take, length_drop. lia. Qed.
Lemma sorted_sub_column lo hi l : StronglySorted Z.lt l → StronglySorted Z.lt (sub_column lo hi l).
Proof.
  intros Hs. rewrite <- (take_drop lo l) in Hs. apply StronglySorted_app_1_r in Hs. unfold sub_column.
  rewrite <- (take_drop (hi - lo) (drop lo l)) in Hs. by apply StronglySorted_app_1_l in Hs.
Qed.
Lemma sorted_increasing l : StronglySorted Z.lt l → increasing l = true.
Proof.
  unfold increasing. induction 1 as [|x l Hs IH Hx]; [done|]. destruct l as [|y l]; [done|]. cbn in *.
  apply Forall_inv in Hx. rewrite IH. apply andb_true_iff. split; [by apply Z.ltb_lt|done].
Qed.
Lemma forallb_sub {A} (p : A → bool) l k : (∀ x, x ∈ k → x ∈ l) → forallb p l = true → forallb p k = true.
Proof.
  rewrite !forallb_forall. intros Hsub Hp x Hx. apply Hp. apply list_elem_of_In, Hsub. by apply list_elem_of_In.
Qed.

Lemma sub_validated s lo hi : validated s → (lo < hi)%nat → (hi <= series_length s)%nat →
  ∃ s', create (sr_symbol s) (sub_column lo hi (sr_ts s)) (sub_column lo hi (sr_open s)) (sub_column lo hi (sr_high s))
    (sub_column lo hi (sr_low s)) (sub_column lo hi (sr_close s)) (sub_column lo hi (sr_volume s))
    (Some (sub_column lo hi (sr_regime s))) = Ok s' ∧ sr_ts s' = sub_column lo hi (sr_ts s) ∧ validated s'.
Proof.
  intros Hv Hlt Hle. pose proof (validated_inv s Hv) as (H1 & H2 & H3 & H4 & H5 & H6 & _ & Hsort & Hr & _).
  unfold series_length in *. unfold validated, _validate in Hv.
  apply bind_ok in Hv as ([] & _ & Hv). apply bind_ok in Hv as ([] & _ & Hv).
  apply bind_ok in Hv as ([] & Hpr%guard_ok & Hv). apply bind_ok in Hv as ([] & Hvol%guard_ok & Hv).
  apply bind_ok in Hv as ([] & Hoh%guard_ok & _). apply negb_false_iff in Hpr, Hvol.
  assert (Hreg : int8 <$> sub_column lo hi (sr_regime s) = sub_column lo hi (sr_regime s)).
  { rewrite <- (list_fmap_id (sub_column lo hi (sr_regime s))) at 2. apply list_fmap_ext. intros i x Hx.
    apply list_elem_of_lookup_2, elem_of_sub_column in Hx. rewrite Forall_forall in Hr. specialize (Hr x Hx).
    unfold int8. cbn. rewrite Z.mod_small by lia. lia. }
  set (s' := mkSeries (sr_symbol s) (sub_column lo hi (sr_ts s)) (sub_column lo hi (sr_open s)) (sub_column lo hi (sr_high s))
    (sub_column lo hi (sr_low s)) (sub_column lo hi (sr_close s)) (sub_column lo hi (sr_volume s)) (sub_column lo hi (sr_regime s))).
  assert (Hs' : _validate s' = Ok tt).
  { unfold _validate, series_length, s'. cbn [sr_ts sr_open sr_high sr_low sr_close sr_volume sr_regime sr_symbol].
    rewrite !length_sub_column by lia. rewrite !Nat.eqb_refl. cbn [andb negb guard_raise mbind result_bind].
    assert (E0 : (hi - lo =? 0)%nat = false) by (apply Nat.eqb_neq; lia). rewrite E0. cbn [guard_raise mbind result_bind].
    rewrite (forallb_sub price_ok _ (sub_column lo hi (sr_open s) ++ sub_column lo hi (sr_high s) ++ sub_column lo hi (sr_low s)
      ++ sub_column lo hi (sr_close s))) with (2 := Hpr).
    2: { intros x. rewrite !elem_of_app. intros [Hx|[Hx|[Hx|Hx]]]; apply elem_of_sub_column in Hx; auto. }
    cbn [negb guard_raise mbind result_bind].
    rewrite (forallb_sub _ _ (sub_column lo hi (sr_volume s))) with (2 := Hvol) by apply elem_of_sub_column.
    cbn [negb guard_raise mbind result_bind]. rewrite !sub_column_zip.
    apply orb_false_iff in Hoh as [Ho1 Ho2]. rewrite existsb_false in Ho1, Ho2.
    assert (E1 : existsb id (sub_column lo hi (zip_with float_ltb (sr_high s) (zip_with float_max (sr_open s) (sr_close s)))) = false).
    { apply existsb_false. intros x Hx%elem_of_sub_column. by apply Ho1. }
    assert (E2 : existsb id (sub_column lo hi (zip_with float_ltb (zip_with float_min (sr_open s) (sr_close s)) (sr_low s))) = false).
    { apply existsb_false. intros x Hx%elem_of_sub_column. by apply Ho2. }
    rewrite E1, E2. cbn [orb guard_raise mbind result_bind].
    rewrite (sorted_increasing _ (sorted_sub_column lo hi _ Hsort)). cbn [negb]. rewrite andb_false_r. cbn [guard_raise mbind result_bind].
    assert (E3 : existsb (λ r, (r <? 0) || (5 <? r)) (sub_column lo hi (sr_regime s)) = false).
    { apply existsb_false. intros r Hin%elem_of_sub_column. rewrite Forall_forall in Hr. specialize (Hr r Hin). lia. }
    by rewrite E3. }
  exists s'. unfold create. rewrite Hreg. fold s'. rewrite Hs'. done.
Qed.

Lemma window_filter l a b : StronglySorted Z.lt l →
  let lo := length (filter (λ y, y < a) l) in let hi := length (filter (λ y, y ≤ b) l) in
  filter (λ y, a ≤ y ∧ y ≤ b) l = (if (hi <=? lo)%nat then [] else sub_column lo hi l).
Proof.
  induction 1 as [|x l Hs IH Hx]; [done|]. rewrite Forall_forall in Hx. cbn zeta in *.
  destruct (decide (x < a)) as [Ha|Ha].
  - rewrite (filter_cons_True (λ y, y < a)) by done. rewrite (filter_cons_False (λ y, a ≤ y ∧ y ≤ b)) by lia. rewrite IH.
    destruct (decide (x ≤ b)) as [Hb|Hb]; [by rewrite (filter_cons_True (λ y, y ≤ b)) by done|].
    rewrite (filter_cons_False (λ y, y ≤ b)) by done.
    assert (E : filter (λ y, y ≤ b) l = []).
    { apply elem_of_nil_inv. intros y [Hy Hin]%list_elem_of_filter. specialize (Hx y Hin). lia. }
    rewrite E. done.
  - rewrite (filter_cons_False (λ y, y < a)) by done.
    assert (E : filter (λ y, y < a) l = []).
    { apply elem_of_nil_inv. intros y [Hy Hin]%list_elem_of_filter. specialize (Hx y Hin). lia. }
    rewrite E in IH |- *. cbn [length] in IH |- *.
    destruct (decide (x ≤ b)) as [Hb|Hb].
    + rewrite (filter_cons_True (λ y, y ≤ b)) by done. rewrite (filter_cons_True (λ y, a ≤ y ∧ y ≤ b)) by lia.
      rewrite IH. cbn. unfold sub_column. cbn. f_equal. rewrite Nat.sub_0_r. by destruct (length (filter (λ y, y ≤ b) l)).
    + rewrite (filter_cons_False (λ y, y ≤ b)) by done. rewrite (filter_cons_False (λ y, a ≤ y ∧ y ≤ b)) by lia.
      assert (E2 : filter (λ y, y ≤ b) l = []).
      { apply elem_of_nil_inv. intros y [Hy Hin]%list_elem_of_filter. specialize (Hx y Hin). lia. }
      rewrite E2 in IH |- *. exact IH.
Qed.

(** A slice of a validated series is the bars of the window, both ends included, in their order;
    it is validated again, and [None] exactly when the window is empty. Slicing never fails. *)
Theorem slice_is_the_window s a b :
  validated s →
  ∃ r, slice_time s a b = Ok r ∧
  match r with
  | Some s' => sr_ts s' = filter (λ t, a ≤ t ∧ t ≤ b) (sr_ts s) ∧ validated s' ∧ sr_ts s' ≠ []
  | None => filter (λ t, a ≤ t ∧ t ≤ b) (sr_ts s) = []
  end.
Proof.
  intros Hv. pose proof (validated_inv s Hv) as (_ & _ & _ & _ & _ & _ & _ & Hsort & _).
  unfold slice_time. rewrite left_law, right_law by by apply sorted_lt_le.
  pose proof (window_filter (sr_ts s) a b Hsort) as Hw. cbn zeta in Hw.
  set (lo := length (filter (λ y, y < a) (sr_ts s))) in *. set (hi := length (filter (λ y, y ≤ b) (sr_ts s))) in *.
  assert (Hhi : (hi <= series_length s)%nat) by apply length_filter.
  destruct (Nat.leb_spec hi lo) as [Hle|Hlt]; [by eexists|].
  destruct (sub_validated s lo hi Hv Hlt Hhi) as (s' & Hc & Hts & Hvs). rewrite Hc. cbn. eexists. split; [done|].
  cbn. rewrite Hts, Hw. split; [done|]. split; [done|]. intros Hn. apply (f_equal length) in Hn.
  rewrite length_sub_column in Hn by exact Hhi. cbn in Hn. lia.
Qed.
End facts.

(** ** A concrete numpy, and a small market *)

Definition key_le (l : list Z) (i j : nat) : Prop :=
  default 0 (l !! i) < default 0 (l !! j) ∨ default 0 (l !! i) = default 0 (l !! j) ∧ (i <= j)%nat.
#[export] Instance key_le_dec l i j : Decision (key_le l i j).
Proof. unfold key_le. apply _. Defined.

Definition numpy_lists : Numpy := {|
  searchsorted_left l x := length (filter (λ y, y < x) l);
  searchsorted_right l x := length (filter (λ y, y ≤ x) l);
  np_unique l := merge_sort Z.le (remove_dups l);
  argsort l := merge_sort (key_le l) (seq 0 (length l)) |}.

Lemma sorted_nodup_lt l : StronglySorted Z.le l → NoDup l → StronglySorted Z.lt l.
Proof.
  induction 1 as [|x l Hs IH Hx]; intros Hn; [constructor|]. apply NoDup_cons in Hn as [Hnin Hn].
  constructor; [by apply IH|]. rewrite Forall_forall in Hx |- *. intros y Hy. specialize (Hx y Hy).
  assert (x ≠ y) by congruence. lia.
Qed.

Lemma numpy_lists_laws : @NumpyLaws numpy_lists.
Proof.
  split; try done.
  - intros l. apply sorted_nodup_lt.
    + apply StronglySorted_merge_sort; [intros x y z; apply Z.le_trans|intros x y; lia].
    + cbn. rewrite merge_sort_Permutation. apply NoDup_remove_dups.
  - intros l x. cbn. rewrite merge_sort_Permutation. apply elem_of_remove_dups.
  - intros l. apply merge_sort_Permutation.
  - intros l. cbn.
    assert (Hs : StronglySorted (key_le l) (merge_sort (key_le l) (seq 0 (length l)))).
    { apply StronglySorted_merge_sort; [intros i j k; unfold key_le; lia|intros i j; unfold key_le; lia]. }
    clear -Hs. induction Hs as [|i m Hs IH Hi]; constructor; [done|]. eapply Forall_impl; [exact Hi|].
    intros j Hj x y Hx Hy. unfold key_le in Hj. by rewrite Hx, Hy in Hj.
Qed.

Definition f (s : String.string) : pyfloat := fl s.
Definition series_a : result SymbolSeries :=
  create (u "AAA") [10; 20; 30] [f "1"; f "2"; f "3"] [f "2"; f "3"; f "4"] [f "1"; f "1"; f "2"] [f "2"; f "2.5"; f "3"]
    [f "100"; f "0"; f "7.5"] None.
Definition series_b : result SymbolSeries :=
  create (u "BBB") [20; 40] [f "1"; f "2"] [f "2"; f "3"] [f "1"; f "1"] [f "2"; f "2.5"] [f "100"; f "5"] (Some [1; 5]).


Section example.
#[local] Existing Instance numpy_lists.
#[local] Existing Instance numpy_lists_laws.

Definition market_example : result MarketData := a ← series_a; b ← series_b; make_market [b; a].
Example market_runs :
  match market_example with
  | Ok d => symbols d = [u "AAA"; u "BBB"] ∧ timeline d = [10; 20; 30; 40]
            ∧ (match events d with Ok evs => (λ e, (ev_ts e, (new_bars e).*1)) <$> evs | Raise _ => [] end)
              = [(10, [u "AAA"]); (20, [u "AAA"; u "BBB"]); (30, [u "AAA"]); (40, [u "BBB"])]
  | Raise _ => False end.
Proof. vm_compute. repeat split. Qed.
Example labels_run :
  match d ← market_example; with_regimes d [25; 15] [RText (u " crisis "); RInt 3] with
  | Ok d' => (λ kv, sr_regime kv.2) <$> md_series d' = [[0; 3; 5]; [3; 5]] | Raise _ => False end.
Proof. vm_compute. reflexivity. Qed.

Lemma series_runs : ∃ a b d, series_a = Ok a ∧ series_b = Ok b ∧ make_market [b; a] = Ok d.
Proof.
  destruct series_a as [a|] eqn:Ea, series_b as [b|] eqn:Eb, (market_example) as [d|] eqn:Em; try (vm_compute in Ea, Eb, Em; done).
  unfold market_example in Em. rewrite Ea, Eb in Em. by exists a, b, d.
Qed.
Lemma series_a_ok a : series_a = Ok a → validated a ∧ sr_ts a = [10; 20; 30].
Proof. intros (? & _ & ? & _)%create_validated. done. Qed.
Lemma series_b_ok b : series_b = Ok b → validated b.
Proof. intros (? & _)%create_validated. done. Qed.
Lemma series_runs_ok a b : series_a = Ok a → series_b = Ok b → Forall validated [b; a].
Proof. intros [Ha _]%series_a_ok Hb%series_b_ok. by repeat constructor. Qed.

Lemma feed_is_point_in_time_witness : ∃ d evs, events d = Ok evs ∧ ev_ts <$> evs = timeline d.
Proof.
  destruct series_runs as (a & b & d & Ha & Hb & Hd). exists d.
  destruct (feed_is_point_in_time _ _ Hd (series_runs_ok _ _ Ha Hb)) as (evs & He & Ht & _). by exists evs.
Defined.

Lemma history_never_looks_ahead_witness : ∃ h, point_in_time h ∧ ∃ b, getitem h (-1) = Ok b ∧ timestamp_ns b <= h_now h.
Proof.
  destruct series_runs as (a & _ & _ & Ha & _ & _). destruct (series_a_ok _ Ha) as [Hv Ht].
  set (h := mkHistory a 2 25).
  assert (Hp : point_in_time h).
  { split; [unfold series_length; cbn; rewrite Ht; cbn; lia|]. cbn. rewrite Ht.
    intros [|[|[|k]]] x Hx; cbn in Hx; try (injection Hx as <-); [lia..|done]. }
  exists h. split; [exact Hp|]. refine (proj1 (history_never_looks_ahead h Hp Hv) (-1) _). cbn. lia.
Defined.

Lemma slice_is_the_window_witness : ∃ a r, slice_time a 15 25 = Ok r ∧ sr_ts a = [10; 20; 30].
Proof.
  destruct series_runs as (a & _ & _ & Ha & _ & _). destruct (series_a_ok _ Ha) as [Hv Ht].
  destruct (slice_is_the_window a 15 25 Hv) as (r & Hr & _). by exists a, r.
Defined.

Lemma labels_ok : is_ok (d ← market_example; with_regimes d [25; 15] [RText (u " crisis "); RInt 3]) = true.
Proof. vm_compute. reflexivity. Qed.
Lemma regimes_never_look_ahead_witness : ∃ parsed, Forall2 (λ a r, parse_regime a = Ok r) [RText (u " crisis "); RInt 3] parsed.
Proof.
  destruct market_example as [d|] eqn:Ed.
  - destruct (with_regimes d [25; 15] [RText (u " crisis "); RInt 3]) as [d'|] eqn:Ew.
    + destruct (regimes_never_look_ahead _ _ _ _ Ew) as (parsed & Hp & _). by exists parsed.
    + pose proof labels_ok as H. rewrite Ed in H. cbn [mbind result_bind] in H. rewrite Ew in H. discriminate H.
  - pose proof labels_ok as H. rewrite Ed in H. discriminate H.
Defined.
End example.
