(* ===== verification/BtPortfolio.v ===== *)
(** * Backtesting: portfolio accounting ([models.py], [portfolio.py])

    Fills, positions with their average cost, round trips, and the two reconciliations the engine
    makes after every event. All money is [Decimal] in the default context. *)
From S2P Require Import Prelude PyStr PyDecimal DecimalFacts PyFloat BtData.

Inductive Side := BUY | SELL | SELL_SHORT.
#[export] Instance Side_eq_dec : EqDecision Side. Proof. solve_decision. Defined.

Record Fill := mkFill {
  f_order_id : Z; f_symbol : pystr; f_side : Side; f_quantity : decimal; f_price : decimal;
  f_reference_price : decimal; f_fee : decimal; f_timestamp_ns : Z; f_signal_ts_ns : Z;
  f_regime : RegimeLabel; f_tag : pystr }.

Definition signed_quantity (f : Fill) : result decimal :=
  if bool_decide (f_side f = BUY) then Ok (f_quantity f) else dneg (f_quantity f).
Definition notional (f : Fill) : result decimal := dmul (f_quantity f) (f_price f).
Definition slippage_cost (f : Fill) : result decimal :=
  d ← dsub (f_price f) (f_reference_price f); q ← signed_quantity f; dmul d q.

Record ClosedTrade := mkTrade {
  t_symbol : pystr; t_direction : pystr; t_entry_ts_ns : Z; t_exit_ts_ns : Z; t_quantity : decimal;
  t_avg_entry : decimal; t_avg_exit : decimal; t_gross_pnl : decimal; t_fees : decimal; t_regime : RegimeLabel }.
Definition net_pnl (t : ClosedTrade) : result decimal := dsub (t_gross_pnl t) (t_fees t).
Definition holding_ns (t : ClosedTrade) : Z := t_exit_ts_ns t - t_entry_ts_ns t.

(** ** Positions *)

Record Position := mkPosition {
  p_symbol : pystr; p_quantity : decimal; avg_cost : decimal; opened_ts_ns : Z; p_regime : RegimeLabel;
  entry_qty : decimal; entry_notional : decimal; exit_qty : decimal; exit_notional : decimal;
  realised_gross : decimal; p_fees : decimal }.

Definition EQUITY_TOLERANCE : decimal := DFin 1 (-9).

(** [abs(d)]. *)
Definition dabs (d : decimal) : result decimal :=
  match d with DFin c e => dfix (Z.abs c) e | DInf _ => Ok (DInf false) | DNaN => Ok DNaN end.
Definition positive (d : decimal) : result bool := dgt d D_ZERO.

Definition _open_position (f : Fill) (qty fee : decimal) : result Position :=
  q ← signed_quantity f;
  up ← positive q;
  signed ← if up : bool then Ok qty else dneg qty;
  cost ← dmul qty (f_price f);
  Ok (mkPosition (f_symbol f) signed (f_price f) (f_timestamp_ns f) (f_regime f) qty cost D_ZERO D_ZERO D_ZERO fee).

Definition _trade_from (p : Position) (direction : pystr) (exit_ts_ns : Z) : result ClosedTrade :=
  avg_entry ← ddiv (entry_notional p) (entry_qty p);
  avg_exit ← ddiv (exit_notional p) (exit_qty p);
  Ok (mkTrade (p_symbol p) direction (opened_ts_ns p) exit_ts_ns (entry_qty p) avg_entry avg_exit
        (realised_gross p) (p_fees p) (p_regime p)).

(** ** Dictionaries: insertion order is kept *)

Fixpoint dict_set {A} (m : list (pystr * A)) (k : pystr) (v : A) : list (pystr * A) :=
  match m with
  | [] => [(k, v)]
  | (k', v') :: m => if str_eqb k k' then (k', v) :: m else (k', v') :: dict_set m k v
  end.
Definition dict_del {A} (m : list (pystr * A)) (k : pystr) : list (pystr * A) := filter (λ kv, kv.1 ≠ k) m.

(** ** The portfolio *)

Record Portfolio := mkPortfolio {
  initial_cash : decimal; cash : decimal; positions : list (pystr * Position); realised_pnl : decimal;
  fees_paid : decimal; signed_notional : decimal; traded_notional : decimal }.

Definition new (initial : decimal) : result Portfolio :=
  bad ← dle initial D_ZERO;
  if bad : bool then raise AccountingInvariantError (u "initial cash must be positive")
  else Ok (mkPortfolio initial initial [] D_ZERO D_ZERO D_ZERO D_ZERO).

Definition _increase (p : option Position) (f : Fill) : result Position :=
  match p with
  | None => _open_position f (f_quantity f) (f_fee f)
  | Some p =>
      a ← dabs (p_quantity p);
      new_abs ← dadd a (f_quantity f);
      held_cost ← dmul a (avg_cost p);
      added_cost ← dmul (f_quantity f) (f_price f);
      total ← dadd held_cost added_cost;
      avg ← ddiv total new_abs;
      q ← signed_quantity f;
      quantity ← dadd (p_quantity p) q;
      eq ← dadd (entry_qty p) (f_quantity f);
      en ← dadd (entry_notional p) added_cost;
      fees ← dadd (p_fees p) (f_fee f);
      Ok (mkPosition (p_symbol p) quantity avg (opened_ts_ns p) (p_regime p) eq en (exit_qty p) (exit_notional p)
            (realised_gross p) fees)
  end.

(** The position that is left, the profit realised, the round trip that ended. *)
Definition _reduce (p : Position) (f : Fill) : result (option Position * decimal * list ClosedTrade) :=
  long ← positive (p_quantity p);
  a ← dabs (p_quantity p);
  close_qty ← dmin (f_quantity f) a;
  move ← dsub (f_price f) (avg_cost p);
  gain ← dmul close_qty move;
  realised ← dmul gain (D (if long : bool then 1 else -1)%Z);
  fee_part ← dmul (f_fee f) close_qty;
  fee_close ← ddiv fee_part (f_quantity f);
  q ← signed_quantity f;
  quantity ← dadd (p_quantity p) q;
  xq ← dadd (exit_qty p) close_qty;
  out ← dmul close_qty (f_price f);
  xn ← dadd (exit_notional p) out;
  rg ← dadd (realised_gross p) realised;
  fees ← dadd (p_fees p) fee_close;
  let updated := mkPosition (p_symbol p) quantity (avg_cost p) (opened_ts_ns p) (p_regime p) (entry_qty p)
                   (entry_notional p) xq xn rg fees in
  still ← dgt a close_qty;
  if still : bool then Ok (Some updated, realised, [])
  else
    trade ← _trade_from updated (if long : bool then u "LONG" else u "SHORT") (f_timestamp_ns f);
    leftover ← dsub (f_quantity f) close_qty;
    if deq leftover D_ZERO then Ok (None, realised, [trade])
    else
      fee_left ← dsub (f_fee f) fee_close;
      flipped ← _open_position f leftover fee_left;
      Ok (Some flipped, realised, [trade]).

(** The same side as the position, or no position. *)
Definition grows (p : option Position) (q : decimal) : result bool :=
  match p with
  | None => Ok true
  | Some p => a ← positive (p_quantity p); b ← positive q; Ok (Bool.eqb a b)
  end.

Definition apply_fill (pf : Portfolio) (f : Fill) : result (Portfolio * list ClosedTrade) :=
  q ← signed_quantity f;
  let pos := get (positions pf) (f_symbol f) in
  same ← grows pos q;
  '(ps, realised, closed) ←
    (match same : bool, pos with
     | false, Some p =>
         '(left_, realised, closed) ← _reduce p f;
         Ok (match left_ with
             | None => dict_del (positions pf) (f_symbol f)
             | Some p => dict_set (positions pf) (f_symbol f) p end, realised, closed)
     | _, _ => p ← _increase pos f; Ok (dict_set (positions pf) (f_symbol f) p, D_ZERO, [])
     end);
  value ← dmul q (f_price f);
  cash1 ← dsub (cash pf) value;
  cash2 ← dsub cash1 (f_fee f);
  pnl ← dadd (realised_pnl pf) realised;
  fees ← dadd (fees_paid pf) (f_fee f);
  signed ← dadd (signed_notional pf) value;
  n ← notional f;
  traded ← dadd (traded_notional pf) n;
  Ok (mkPortfolio (initial_cash pf) cash2 ps pnl fees signed traded, closed).

(** ** Marks *)

Abbreviation Marks := (list (pystr * decimal)).
Definition mark_of (marks : Marks) (kp : pystr * Position) : decimal := default (avg_cost kp.2) (get marks kp.1).

Definition unrealised_pnl (pf : Portfolio) (marks : Marks) : result decimal :=
  foldR (λ total kp, d ← dsub (mark_of marks kp) (avg_cost kp.2); v ← dmul (p_quantity kp.2) d; dadd total v)
    D_ZERO (positions pf).
Definition gross_exposure (pf : Portfolio) (marks : Marks) : result decimal :=
  foldR (λ total kp, a ← dabs (p_quantity kp.2); v ← dmul a (mark_of marks kp); dadd total v) D_ZERO (positions pf).
Definition equity (pf : Portfolio) (marks : Marks) : result decimal :=
  value ← foldR (λ total kp, v ← dmul (p_quantity kp.2) (mark_of marks kp); dadd total v) D_ZERO (positions pf);
  dadd (cash pf) value.

Definition expected_cash (pf : Portfolio) : result decimal :=
  d ← dsub (initial_cash pf) (signed_notional pf); dsub d (fees_paid pf).
Definition check_invariants (pf : Portfolio) (marks : Marks) : result unit :=
  expected ← expected_cash pf;
  guard_raise (negb (deq (cash pf) expected)) AccountingInvariantError (u "cash conservation violated");;
  a ← dadd (initial_cash pf) (realised_pnl pf);
  unrealised ← unrealised_pnl pf marks;
  b ← dadd a unrealised;
  expected_equity ← dsub b (fees_paid pf);
  e ← equity pf marks;
  diff ← dsub e expected_equity;
  off ← dabs diff;
  bad ← dgt off EQUITY_TOLERANCE;
  guard_raise bad AccountingInvariantError (u "equity identity violated").

Record PortfolioSnapshot := mkSnapshot {
  sn_ts_ns : Z; sn_cash : decimal; sn_equity : decimal; sn_realised_pnl : decimal; sn_unrealised_pnl : decimal;
  sn_fees_paid : decimal; sn_gross_exposure : decimal; sn_positions : list (pystr * Position) }.
Definition snapshot (pf : Portfolio) (ts_ns : Z) (marks : Marks) : result PortfolioSnapshot :=
  e ← equity pf marks;
  unrealised ← unrealised_pnl pf marks;
  gross ← gross_exposure pf marks;
  Ok (mkSnapshot ts_ns (cash pf) e (realised_pnl pf) unrealised (fees_paid pf) gross (positions pf)).
Definition quantity_of (s : PortfolioSnapshot) (sym : pystr) : decimal :=
  match get (sn_positions s) sym with None => D_ZERO | Some p => p_quantity p end.

(** ** Dictionaries: facts *)

Lemma get_nil {A} k : get (A:=A) [] k = None.
Proof. done. Qed.
Lemma get_cons {A} (m : list (pystr * A)) k v k' : get ((k, v) :: m) k' = if str_eqb k' k then Some v else get m k'.
Proof. unfold get. cbn. by destruct (str_eqb k' k). Qed.
Lemma get_dict_set {A} (m : list (pystr * A)) k v k' :
  get (dict_set m k v) k' = if bool_decide (k' = k) then Some v else get m k'.
Proof.
  induction m as [|[k0 v0] m IH]; cbn [dict_set].
  - rewrite get_cons. unfold str_eqb. by case_bool_decide.
  - destruct (str_eqb k k0) eqn:E; rewrite !get_cons.
    + apply str_eqb_true in E as <-. unfold str_eqb. by case_bool_decide.
    + rewrite IH. unfold str_eqb in *. repeat case_bool_decide; by subst.
Qed.
Lemma get_dict_del {A} (m : list (pystr * A)) k k' :
  get (dict_del m k) k' = if bool_decide (k' = k) then None else get m k'.
Proof.
  unfold dict_del. induction m as [|[k0 v0] m IH].
  - rewrite filter_nil. by case_bool_decide.
  - destruct (decide (k0 ≠ k)) as [Hne|Heq].
    + rewrite filter_cons_True by done. rewrite !get_cons, IH. unfold str_eqb. repeat case_bool_decide; naive_solver.
    + rewrite filter_cons_False by done. rewrite IH, get_cons. apply dec_stable in Heq. cbn in Heq. subst k0. unfold str_eqb.
      by case_bool_decide.
Qed.

(** ** Exact arithmetic at a scale *)

(** [d] is the number [v * 10^m]. *)
Definition exactly (m : Z) (d : decimal) (v : Z) : Prop := fits m d ∧ sc m d = v.
(** A scale the context can represent. *)
Definition scale_ok (m : Z) : Prop := Etiny <= m <= 0.

Lemma scale_emax m : scale_ok m → m ≤ Emax.
Proof. unfold scale_ok, Emax. lia. Qed.
#[local] Hint Resolve scale_emax : core.

Lemma exactly_zero m : scale_ok m → exactly m D_ZERO 0.
Proof. intros [_ ?]. split; [by apply fits_D|done]. Qed.

Lemma rnd_small m x : scale_ok m → Z.abs x < 10 ^ prec → rnd m x = x.
Proof.
  intros [? _] ?. pose proof (rnd_exact m x 0) as Hx. rewrite Z.pow_0_r, Z.mul_1_r in Hx. apply Hx; [done|done|lia].
Qed.

Lemma dadd_exactly m a b d x y :
  dadd a b = Ok d → exactly m a x → exactly m b y → scale_ok m → Z.abs (x + y) < 10 ^ prec → exactly m d (x + y).
Proof.
  intros H [Fa <-] [Fb <-] Hm Hlt. split; [eapply dadd_fits; eauto|].
  apply (dadd_exact m a b d); try done. apply Hm.
Qed.
Lemma copy_negate_exactly m a x : exactly m a x → exactly m (copy_negate a) (- x).
Proof. intros [Fa <-]. split; [by apply copy_negate_fits|apply copy_negate_sc]. Qed.
Lemma dsub_exactly m a b d x y :
  dsub a b = Ok d → exactly m a x → exactly m b y → scale_ok m → Z.abs (x - y) < 10 ^ prec → exactly m d (x - y).
Proof. intros H Ha Hb Hm Hlt. apply (dadd_exactly m a (copy_negate b)); auto using copy_negate_exactly. Qed.
Lemma dmul_exactly m1 m2 a b d x y :
  dmul a b = Ok d → exactly m1 a x → exactly m2 b y → scale_ok (m1 + m2) → Z.abs (x * y) < 10 ^ prec →
  exactly (m1 + m2) d (x * y).
Proof.
  intros H [Fa <-] [Fb <-] Hm Hlt. split; [eapply dmul_fits; eauto|].
  rewrite (dmul_sc m1 m2 a b d) by done. by apply rnd_small.
Qed.
Lemma dfix_exactly m c e d : dfix c e = Ok d → m ≤ e → scale_ok m → Z.abs (c * 10 ^ (e - m)) < 10 ^ prec →
  exactly m d (c * 10 ^ (e - m)).
Proof.
  intros H He Hm Hlt. split; [eapply dfix_exp; eauto|]. rewrite (dfix_sc m c e d) by done. by apply rnd_small.
Qed.
Lemma dneg_exactly m a d x : dneg a = Ok d → exactly m a x → scale_ok m → Z.abs x < 10 ^ prec → exactly m d (- x).
Proof.
  intros H [(c & e & -> & He)%fits_inv <-] Hm Hlt. cbn in H, Hlt |- *.
  replace (- (c * 10 ^ (e - m))) with (- c * 10 ^ (e - m)) by lia. apply dfix_exactly; try done. lia.
Qed.
Lemma dabs_exactly m a d x : dabs a = Ok d → exactly m a x → scale_ok m → Z.abs x < 10 ^ prec → exactly m d (Z.abs x).
Proof.
  intros H [(c & e & -> & He)%fits_inv <-] Hm Hlt. cbn in H, Hlt |- *. pose proof (pow10_gt0 (e - m) ltac:(lia)).
  rewrite Z.abs_mul, (Z.abs_eq (10 ^ _)) by lia. apply dfix_exactly; try done.
  rewrite Z.abs_mul in Hlt. rewrite Z.abs_mul, Z.abs_idemp. done.
Qed.
Lemma positive_exactly m a x : exactly m a x → m <= 0 → positive a = Ok (0 <? x).
Proof. intros [Fa <-] Hm. unfold positive. rewrite (dgt_sc m) by (done || by apply fits_D). done. Qed.
Lemma dmin_exactly m a b d x y : dmin a b = Ok d → exactly m a x → exactly m b y → exactly m d (Z.min x y).
Proof.
  intros H [Fa <-] [Fb <-]. unfold dmin in H. rewrite (dlt_sc m) in H by done. cbn in H. injection H as <-.
  destruct (Z.ltb_spec (sc m b) (sc m a)); split; try done; lia.
Qed.
Lemma deq_exactly m a b x y : exactly m a x → exactly m b y → deq a b = (x =? y).
Proof. intros [Fa <-] [Fb <-]. by apply deq_sc. Qed.

(** ** What fills add up to *)

(** A run of fills. *)
Definition apply_fills (pf : Portfolio) (fs : list Fill) : result Portfolio :=
  foldR (λ pf f, r ← apply_fill pf f; Ok r.1) pf fs.

Section ledger.
(** Quantities in units of [10^mq], prices in units of [10^mp]. *)
Context (mq mp : Z) (Hmq : scale_ok mq) (Hmp : scale_ok mp) (Hm : scale_ok (mq + mp)).

Definition qz (f : Fill) : Z := sc mq (f_quantity f).
Definition pz (f : Fill) : Z := sc mp (f_price f).
Definition fz (f : Fill) : Z := sc (mq + mp) (f_fee f).
Definition sign (f : Fill) : Z := if bool_decide (f_side f = BUY) then 1 else -1.

(** A fill of a positive quantity, with a price and a fee that are not negative, on the scales. *)
Definition fill_ok (f : Fill) : Prop :=
  fits mq (f_quantity f) ∧ fits mp (f_price f) ∧ fits (mq + mp) (f_fee f) ∧ 0 < qz f ∧ 0 <= pz f ∧ 0 <= fz f.

Definition total (g : Fill → Z) (fs : list Fill) : Z := foldr (λ f s, g f + s) 0 fs.
Lemma total_app g l k : total g (l ++ k) = total g l + total g k.
Proof. unfold total. induction l as [|f l IH]; cbn; lia. Qed.
Lemma total_snoc g l f : total g (l ++ [f]) = total g l + g f.
Proof. rewrite total_app. unfold total. cbn. lia. Qed.
Lemma total_nonneg g fs : Forall (λ f, 0 <= g f) fs → 0 <= total g fs.
Proof. unfold total. induction 1; cbn in *; lia. Qed.
Lemma total_abs g h fs : Forall (λ f, Z.abs (g f) <= h f) fs → Z.abs (total g fs) <= total h fs.
Proof. unfold total. induction 1; cbn in *; lia. Qed.

Definition signed_value (f : Fill) : Z := sign f * qz f * pz f.
Definition traded_value (f : Fill) : Z := qz f * pz f.
(** What a symbol's fills add up to. *)
Definition held (sym : pystr) (fs : list Fill) : Z :=
  total (λ f, if bool_decide (f_symbol f = sym) then sign f * qz f else 0) fs.

Lemma signed_quantity_exactly f q : signed_quantity f = Ok q → fill_ok f → qz f < 10 ^ prec → exactly mq q (sign f * qz f).
Proof.
  intros H (Fq & _ & _ & Hq & _) Hlt. unfold signed_quantity, sign in *. case_bool_decide.
  - injection H as <-. split; [done|]. unfold qz. lia.
  - replace (-1 * qz f) with (- qz f) by lia. apply (dneg_exactly mq (f_quantity f)); try done. unfold qz in *. lia.
Qed.

(** The accounts after some fills. *)
Record accounts (c0 : Z) (fs : list Fill) (pf : Portfolio) : Prop := {
  ac_initial : exactly (mq + mp) (initial_cash pf) c0;
  ac_cash : exactly (mq + mp) (cash pf) (c0 - total signed_value fs - total fz fs);
  ac_signed : exactly (mq + mp) (signed_notional pf) (total signed_value fs);
  ac_traded : exactly (mq + mp) (traded_notional pf) (total traded_value fs);
  ac_fees : exactly (mq + mp) (fees_paid pf) (total fz fs);
  ac_positions : ∀ sym, match get (positions pf) sym with
    | Some p => exactly mq (p_quantity p) (held sym fs) ∧ held sym fs ≠ 0
    | None => held sym fs = 0 end }.

Lemma open_exactly f qty fee p x :
  _open_position f qty fee = Ok p → fill_ok f → qz f < 10 ^ prec → exactly mq qty x → Z.abs x < 10 ^ prec →
  exactly mq (p_quantity p) (sign f * x).
Proof.
  intros H Hf Hlt Hx Habs. unfold _open_position in H. apply bind_ok in H as (q & Hq & H).
  apply signed_quantity_exactly in Hq; [|done..]. rewrite (positive_exactly mq q _ Hq) in H by apply Hmq. cbn in H.
  apply bind_ok in H as (s & Hs & H). apply bind_ok in H as (? & _ & [= <-]). cbn.
  pose proof Hf as (_ & _ & _ & Hpos & _). unfold sign in *. case_bool_decide.
  - assert (E : (0 <? 1 * qz f) = true) by lia. rewrite E in Hs. injection Hs as <-. by rewrite Z.mul_1_l.
  - assert (E : (0 <? -1 * qz f) = false) by lia. rewrite E in Hs. replace (-1 * x) with (- x) by lia.
    by eapply dneg_exactly.
Qed.

Lemma increase_exactly p f p' x :
  _increase p f = Ok p' → fill_ok f → Z.abs x + qz f < 10 ^ prec →
  match p with Some p => exactly mq (p_quantity p) x | None => x = 0 end →
  exactly mq (p_quantity p') (x + sign f * qz f).
Proof.
  intros H Hf Hlt Hx. pose proof Hf as (Fq & _ & _ & Hpos & _). destruct p as [p|].
  - unfold _increase in H. do 6 (apply bind_ok in H as (? & _ & H)).
    apply bind_ok in H as (q & Hq & H). apply bind_ok in H as (y & Hy & H).
    do 3 (apply bind_ok in H as (? & _ & H)). injection H as <-. cbn. apply signed_quantity_exactly in Hq; [|done|lia].
    eapply dadd_exactly; try done. unfold sign. case_bool_decide; lia.
  - subst x. rewrite Z.add_0_l. unfold _increase in H. eapply open_exactly; try done; unfold qz in *; lia.
Qed.

Lemma reduce_exactly p f left_ realised closed x :
  _reduce p f = Ok (left_, realised, closed) → fill_ok f → Z.abs x + qz f < 10 ^ prec →
  exactly mq (p_quantity p) x → x ≠ 0 → (0 <? x) ≠ (0 <? sign f * qz f) →
  match left_ with
  | Some p' => exactly mq (p_quantity p') (x + sign f * qz f) ∧ x + sign f * qz f ≠ 0
  | None => x + sign f * qz f = 0
  end.
Proof.
  intros H Hf Hlt Hx Hne Hside. pose proof Hf as (Fq & _ & _ & Hpos & _). unfold _reduce in H.
  apply bind_ok in H as (long & Hlong & H). apply bind_ok in H as (a & Ha & H).
  apply bind_ok in H as (close_qty & Hc & H). do 3 (apply bind_ok in H as (? & _ & H)).
  apply bind_ok in H as (? & _ & H). apply bind_ok in H as (? & _ & H). apply bind_ok in H as (q & Hq & H).
  apply bind_ok in H as (y & Hy & H). do 5 (apply bind_ok in H as (? & _ & H)).
  apply bind_ok in H as (still & Hstill & H).
  apply signed_quantity_exactly in Hq; [|done|lia]. apply (dabs_exactly mq _ _ x) in Ha; [|done|done|lia].
  assert (Hfq : exactly mq (f_quantity f) (qz f)) by done.
  apply (dmin_exactly mq _ _ _ (qz f) (Z.abs x)) in Hc; [|done..].
  apply (dadd_exactly mq _ _ _ x (sign f * qz f)) in Hy; [|done..|unfold sign; case_bool_decide; lia].
  rewrite (dgt_sc mq) in Hstill by (apply Ha || apply Hc). destruct Ha as [Fa Ea], Hc as [Fc Ec].
  rewrite Ea, Ec in Hstill. injection Hstill as Hstill.
  assert (Hs : sign f = 1 ∧ x < 0 ∨ sign f = -1 ∧ 0 < x).
  { unfold sign in *. case_bool_decide; [left|right]; split; try done; destruct (Z.ltb_spec 0 x); try lia;
      exfalso; apply Hside; lia. }
  destruct still.
  - injection H as <- <- <-. cbn. split; [done|]. destruct Hs as [[-> ?]|[-> ?]]; lia.
  - apply bind_ok in H as (? & _ & H). apply bind_ok in H as (left0 & Hl & H).
    apply (dsub_exactly mq _ _ _ (qz f) (Z.min (qz f) (Z.abs x))) in Hl; [|done..|lia].
    rewrite (deq_exactly mq left0 D_ZERO _ 0 Hl) in H by by apply exactly_zero.
    destruct (Z.eqb_spec (qz f - Z.min (qz f) (Z.abs x)) 0) as [E|E].
    + injection H as <- <- <-. destruct Hs as [[-> ?]|[-> ?]]; lia.
    + apply bind_ok in H as (? & _ & H). apply bind_ok in H as (flipped & Hflip & [= <- <- <-]).
      eapply (open_exactly f) in Hflip; [|done|lia|exact Hl|lia].
      replace (x + sign f * qz f) with (sign f * (qz f - Z.min (qz f) (Z.abs x)))
        by (destruct Hs as [[-> ?]|[-> ?]]; lia).
      split; [done|]. destruct Hs as [[-> ?]|[-> ?]]; lia.
Qed.

Lemma sign_value f : fill_ok f → Z.abs (signed_value f) <= traded_value f ∧ 0 <= traded_value f ∧ Z.abs (sign f * qz f) <= qz f.
Proof.
  intros (_ & _ & _ & Hq & Hp & _). unfold signed_value, traded_value, sign.
  assert (0 <= qz f * pz f) by nia. case_bool_decide; nia.
Qed.

Lemma held_app sym fs f : held sym (fs ++ [f]) = held sym fs + (if bool_decide (f_symbol f = sym) then sign f * qz f else 0).
Proof. unfold held. by rewrite total_snoc. Qed.
Lemma held_abs sym fs : Forall fill_ok fs → Z.abs (held sym fs) <= total qz fs.
Proof.
  intros H. apply total_abs. eapply Forall_impl; [exact H|]. intros f Hf. pose proof (sign_value f Hf) as (_ & _ & ?).
  destruct Hf as (_ & _ & _ & ? & _). case_bool_decide; lia.
Qed.

(** Totals that stay within 28 digits. *)
Definition within (c0 : Z) (fs : list Fill) : Prop :=
  0 <= c0 ∧ c0 + total traded_value fs + total fz fs < 10 ^ prec ∧ total qz fs < 10 ^ prec.

Lemma totals_nonneg fs : Forall fill_ok fs →
  0 <= total traded_value fs ∧ 0 <= total fz fs ∧ 0 <= total qz fs ∧ Z.abs (total signed_value fs) <= total traded_value fs.
Proof.
  intros H. split; [|split; [|split]].
  - apply total_nonneg. eapply Forall_impl; [exact H|]. intros f Hf. by apply sign_value.
  - apply total_nonneg. eapply Forall_impl; [exact H|]. intros f Hf. apply Hf.
  - apply total_nonneg. eapply Forall_impl; [exact H|]. intros f Hf. destruct Hf as (_ & _ & _ & ? & _). lia.
  - apply total_abs. eapply Forall_impl; [exact H|]. intros f Hf. by apply sign_value.
Qed.

Lemma apply_fill_accounts c0 fs f pf pf' closed :
  accounts c0 fs pf → apply_fill pf f = Ok (pf', closed) → Forall fill_ok fs → fill_ok f → within c0 (fs ++ [f]) →
  accounts c0 (fs ++ [f]) pf'.
Proof.
  intros [Hi Hc Hs Ht Hfe Hp] H Hall Hf (Hc0 & Hb1 & Hb2).
  pose proof (totals_nonneg fs Hall) as (T1 & T2 & T3 & T4). pose proof (sign_value f Hf) as (S1 & S2 & S3).
  repeat rewrite total_snoc in Hb1. repeat rewrite total_snoc in Hb2. pose proof Hf as (Fq & Fp & Ff & Hq & Hpr & Hfz).
  unfold apply_fill in H. apply bind_ok in H as (q & Hqq & H). apply signed_quantity_exactly in Hqq; [|done|lia].
  apply bind_ok in H as (same & Hsame & H). apply bind_ok in H as ([[ps realised] cl] & Hps & H).
  apply bind_ok in H as (value & Hv & H). apply bind_ok in H as (c1 & H1 & H). apply bind_ok in H as (c2 & H2 & H).
  apply bind_ok in H as (pnl & _ & H). apply bind_ok in H as (fees & H3 & H). apply bind_ok in H as (signed & H4 & H).
  apply bind_ok in H as (n & Hn & H). apply bind_ok in H as (traded & H5 & [= <- _]).
  assert (Hfee : exactly (mq + mp) (f_fee f) (fz f)) by done. assert (Hprice : exactly mp (f_price f) (pz f)) by done.
  assert (Hquant : exactly mq (f_quantity f) (qz f)) by done.
  apply (dmul_exactly mq mp _ _ _ (sign f * qz f) (pz f)) in Hv; [|done..|fold (signed_value f); lia]. fold (signed_value f) in Hv.
  unfold notional in Hn. apply (dmul_exactly mq mp _ _ _ (qz f) (pz f)) in Hn; [|done..|fold (traded_value f); lia].
  fold (traded_value f) in Hn.
  eapply dsub_exactly in H1; [|exact Hc|exact Hv|done|lia]. eapply dsub_exactly in H2; [|exact H1|exact Hfee|done|lia].
  eapply dadd_exactly in H3; [|exact Hfe|exact Hfee|done|lia]. eapply dadd_exactly in H4; [|exact Hs|exact Hv|done|lia].
  eapply dadd_exactly in H5; [|exact Ht|exact Hn|done|lia].
  split; cbn [initial_cash cash positions fees_paid signed_notional traded_notional]; repeat rewrite total_snoc; try done.
  - by replace (c0 - (total signed_value fs + signed_value f) - (total fz fs + fz f))
      with (c0 - total signed_value fs - total fz fs - signed_value f - fz f) by lia.
  - intros sym. rewrite held_app.
    pose proof (held_abs (f_symbol f) fs Hall) as Habs.
    specialize (Hp (f_symbol f)) as Hpf.
    assert (Hnew : ∃ left_, (∀ k, get ps k = if bool_decide (k = f_symbol f) then left_ else get (positions pf) k)
      ∧ match left_ with
        | Some p => exactly mq (p_quantity p) (held (f_symbol f) fs + sign f * qz f) ∧ held (f_symbol f) fs + sign f * qz f ≠ 0
        | None => held (f_symbol f) fs + sign f * qz f = 0 end).
    { destruct (get (positions pf) (f_symbol f)) as [p|] eqn:Ep.
      - destruct Hpf as [Hx Hne]. unfold grows in Hsame.
        rewrite (positive_exactly mq _ _ Hx), (positive_exactly mq _ _ Hqq) in Hsame by apply Hmq. cbn in Hsame.
        injection Hsame as <-. destruct (Bool.eqb (0 <? held (f_symbol f) fs) (0 <? sign f * qz f)) eqn:Eb.
        + apply bind_ok in Hps as (p' & Hp' & [= <- <- <-]). apply (increase_exactly (Some p) f p' (held (f_symbol f) fs)) in Hp'; [|done|lia|exact Hx].
          exists (Some p'). split; [intros k; apply get_dict_set|]. split; [done|]. apply Bool.eqb_true_iff in Eb.
          unfold sign in *. case_bool_decide; destruct (Z.ltb_spec 0 (held (f_symbol f) fs)); lia.
        + apply Bool.eqb_false_iff in Eb. apply bind_ok in Hps as ([[left0 r0] cl0] & Hr & [= <- <- <-]).
          apply (reduce_exactly p f left0 r0 cl0 (held (f_symbol f) fs)) in Hr; [|done|lia|exact Hx|done|done]. exists left0. split; [|by destruct left0].
          intros k. destruct left0; [apply get_dict_set|apply get_dict_del].
      - cbn in Hsame. injection Hsame as <-. apply bind_ok in Hps as (p' & Hp' & [= <- <- <-]). rewrite Hpf in *.
        apply (increase_exactly None f p' 0) in Hp'; [|done|lia|done]. exists (Some p'). split; [intros k; apply get_dict_set|].
        split; [done|]. unfold sign. case_bool_decide; lia. }
    destruct Hnew as (left_ & Hget & Hl). rewrite Hget. destruct (decide (sym = f_symbol f)) as [->|Hne].
    + rewrite !bool_decide_eq_true_2 by done. exact Hl.
    + rewrite (bool_decide_eq_false_2 (sym = f_symbol f)) by done. rewrite (bool_decide_eq_false_2 (f_symbol f = sym)) by congruence.
      rewrite Z.add_0_r. apply Hp.
Qed.

Lemma within_prefix c0 fs k : Forall fill_ok k → within c0 (fs ++ k) → within c0 fs.
Proof.
  intros Hk (? & H1 & H2). pose proof (totals_nonneg k Hk). repeat rewrite total_app in H1. repeat rewrite total_app in H2. unfold within. lia.
Qed.

Lemma new_accounts c pf : new c = Ok pf → fits (mq + mp) c → accounts (sc (mq + mp) c) [] pf.
Proof.
  unfold new. intros (bad & _ & H)%bind_ok Fc. destruct bad; [done|]. injection H as <-.
  split; cbn; try by apply exactly_zero. - done. - rewrite !Z.sub_0_r. done. - done.
Qed.

Lemma apply_fills_accounts c0 done_ fs pf pf' :
  accounts c0 done_ pf → Forall fill_ok (done_ ++ fs) → within c0 (done_ ++ fs) → apply_fills pf fs = Ok pf' →
  accounts c0 (done_ ++ fs) pf'.
Proof.
  revert done_ pf. induction fs as [|f fs IH]; intros done_ pf Ha Hok Hw H; cbn in H.
  - injection H as <-. by rewrite app_nil_r in *.
  - apply bind_ok in H as (pf1 & H1 & H). apply bind_ok in H1 as ([pf2 closed] & H1 & [= <-]). cbn in H.
    rewrite (cons_middle f done_ fs), app_assoc in *. apply Forall_app in Hok as Hok'. destruct Hok' as [Hok1 Hok2].
    apply Forall_app in Hok1 as [Hd Hf]. apply Forall_inv in Hf.
    eapply IH; [|exact Hok|exact Hw|exact H]. eapply apply_fill_accounts; try done. by eapply within_prefix.
Qed.

(** C32: The accounts reconcile exactly. After any fills on the scales, as long as the totals stay
    within the 28 digits of the context: the cash is the initial cash less what was bought and paid,
    the reconciliation of the cash finds it so, and each symbol's position is the sum of its signed
    fills, a flat symbol having none. *)
Theorem accounts_reconcile c pf0 fs pf :
  new c = Ok pf0 → fits (mq + mp) c → Forall fill_ok fs → within (sc (mq + mp) c) fs → apply_fills pf0 fs = Ok pf →
  exactly (mq + mp) (cash pf) (sc (mq + mp) c - total signed_value fs - total fz fs)
  ∧ (∃ e, expected_cash pf = Ok e ∧ deq (cash pf) e = true)
  ∧ ∀ sym, match get (positions pf) sym with
           | Some p => exactly mq (p_quantity p) (held sym fs) ∧ held sym fs ≠ 0
           | None => held sym fs = 0 end.
Proof.
  intros Hn Fc Hok Hw H. apply new_accounts in Hn; [|done].
  eapply (apply_fills_accounts _ []) in H as [Hi Hc Hs Ht Hf Hp]; [|exact Hn|exact Hok|exact Hw]. cbn [app] in *.
  split; [done|]. split; [|done]. pose proof (totals_nonneg fs Hok) as (T1 & T2 & T3 & T4). destruct Hw as (W0 & W1 & W2).
  unfold expected_cash. set (c0 := sc (mq + mp) c) in *.
  assert (Htot : ∀ a b x y, exactly (mq + mp) a x → exactly (mq + mp) b y → Z.abs (x - y) < 10 ^ prec → ∃ d, dsub a b = Ok d).
  { intros a b x y [Fa <-] [Fb <-] Hlt. apply (dadd_total (mq + mp)); [done|by apply copy_negate_fits|..].
    all: rewrite ?copy_negate_sc; try done; try (unfold scale_ok, Emax, Etiny, Emin, prec in *; lia). }
  destruct (Htot _ _ _ _ Hi Hs ltac:(lia)) as [d Hd]. pose proof (dsub_exactly _ _ _ _ _ _ Hd Hi Hs Hm ltac:(lia)) as Hdx.
  destruct (Htot _ _ _ _ Hdx Hf ltac:(lia)) as [e He]. pose proof (dsub_exactly _ _ _ _ _ _ He Hdx Hf Hm ltac:(lia)) as Hex.
  rewrite Hd. cbn. rewrite He. eexists. split; [done|]. rewrite (deq_exactly _ _ _ _ _ Hc Hex). by apply Z.eqb_eq.
Qed.
End ledger.

(** ** Examples *)

Definition fill (side : Side) (q p fee : decimal) : Fill :=
  mkFill 1 (u "AAA") side q p p fee 2 1 REGIME_UNKNOWN [].
Definition fills_example : list Fill :=
  [fill BUY (D 10) (DFin 100500000 (-6)) (DFin 25 (-2)); fill SELL (D 4) (DFin 101000000 (-6)) (DFin 25 (-2));
   fill SELL_SHORT (D 9) (DFin 99 0) D_ZERO].
Lemma fills_example_ok : Forall (fill_ok 0 (-6)) fills_example ∧ within 0 (-6) (sc (0 + -6) (D 100000)) fills_example.
Proof. split; [repeat constructor; vm_compute; congruence|]. vm_compute. repeat split; congruence. Qed.
Lemma scales_ok : scale_ok 0 ∧ scale_ok (-6) ∧ scale_ok (0 + -6).
Proof. unfold scale_ok, Etiny, Emin, prec. lia. Qed.
Lemma fills_run : ∃ pf0 pf, new (D 100000) = Ok pf0 ∧ apply_fills pf0 fills_example = Ok pf
  ∧ (p_quantity <$> get (positions pf) (u "AAA")) = Some (D (-3)).
Proof. eexists _, _. split; [reflexivity|]. vm_compute. done. Qed.

Lemma accounts_reconcile_witness : ∃ pf e, expected_cash pf = Ok e ∧ deq (cash pf) e = true
  ∧ (p_quantity <$> get (positions pf) (u "AAA")) = Some (D (-3)).
Proof.
  destruct fills_run as (pf0 & pf & H0 & H & Hp). destruct fills_example_ok as [Hok Hw], scales_ok as (S1 & S2 & S3).
  assert (fits (0 + -6) (D 100000)) as Hf by (apply fits_D; lia).
  destruct (accounts_reconcile 0 (-6) S1 S3 (D 100000) pf0 fills_example pf H0 Hf Hok Hw H) as (_ & (e & He & Hd) & _).
  exists pf, e. split; [exact He|]. split; [exact Hd|exact Hp].
Defined.

(** The module says that cash conservation is exact. It is not beyond 28 digits, which two orders for
    quantities with 17 and 18 decimals already need: the reconciliation fails although nothing is
    wrong. *)
Definition fractional_fills : list Fill :=
  [ fill BUY (DFin 26136048907525855 (-18)) (DFin 101123457 (-6)) D_ZERO;
    fill BUY (DFin 25322374817515025 (-17)) (DFin 99876543 (-6)) D_ZERO ].
Theorem fractional_fills_break_conservation :
  match pf0 ← new (D 100000); apply_fills pf0 fractional_fills with
  | Ok pf => match check_invariants pf [] with Raise e => exn_kind e = AccountingInvariantError | Ok _ => False end
  | Raise _ => False
  end.
Proof. vm_compute. reflexivity. Qed.
