(* ===== verification/BtMetrics.v ===== *)
(** * Backtesting: performance metrics ([metrics.py], [regime_analysis.py])

    Returns, drawdowns, ratios and their breakdown by regime. numpy's mean, standard deviation and
    median and libm's power are an interface; everything else is computed in floats, rounded once
    per operation as numpy does. *)
From S2P Require Import Prelude PyStr PyDecimal DecimalFacts PyFloat PyFloatFacts BtData BtPortfolio.

(** ** Floats and decimals *)

(** [float(d)]. *)
Definition float_of_dec (d : decimal) : pyfloat :=
  match d with
  | DNaN => FNaN
  | DInf neg => FInf neg
  | DFin c e =>
      let a := Z.abs c in
      let top := ndigits a + e in
      if (a =? 0) || (top <? too_small) then FFin 0 0
      else if too_big <? top then FInf (c <? 0)
      else if 0 <=? e then float_of_ratio (c <? 0) (a * 10 ^ e) 1
      else float_of_ratio (c <? 0) a (10 ^ (- e))
  end.

(** [math.sqrt]: 55 bits of the root and whether it is exact are enough to round. *)
Definition float_sqrt (x : pyfloat) : result pyfloat :=
  match x with
  | FFin m e =>
      if m <? 0 then raise ValueError (u "math domain error")
      else if m =? 0 then Ok (FFin 0 0)
      else
        let k0 := Z.max 0 (110 - Z.log2 m) in
        let k := if Z.even (e - k0) then k0 else k0 + 1 in
        let n := m * 2 ^ k in
        let s := Z.sqrt n in
        Ok (round_dyadic (2 * s + (if s * s =? n then 0 else 1)) ((e - k) / 2 - 1))
  | FInf true => raise ValueError (u "math domain error")
  | FInf false => Ok (FInf false)
  | FNaN => Ok FNaN
  end.

Definition is_zero (x : pyfloat) : bool := float_eqb x f0.
Definition f1 : pyfloat := FFin 1 0.

(** [a / b] of numpy; zeros have no sign here, and the divisors below are never a negative zero. *)
Definition np_div (a b : pyfloat) : pyfloat :=
  match a, b with
  | FNaN, _ | _, FNaN | FInf _, FInf _ => FNaN
  | FFin _ _, FInf _ => FFin 0 0
  | FInf n, FFin m _ => FInf (xorb n (m <? 0))
  | FFin m1 e1, FFin m2 e2 =>
      if m2 =? 0 then (if m1 =? 0 then FNaN else FInf (m1 <? 0))
      else if m1 =? 0 then FFin 0 0
      else float_of_ratio (xorb (m1 <? 0) (m2 <? 0)) (Z.abs m1 * 2 ^ Z.max 0 (e1 - e2)) (Z.abs m2 * 2 ^ Z.max 0 (e2 - e1))
  end.
(** [a / b] of Python. *)
Definition py_div (a b : pyfloat) : result pyfloat :=
  if is_zero b then raise (OtherError (u "ZeroDivisionError")) (u "float division by zero") else Ok (np_div a b).

(** [np.maximum], [np.minimum]: a NaN wins. *)
Definition np_maximum (a b : pyfloat) : pyfloat :=
  match a, b with FNaN, _ | _, FNaN => FNaN | _, _ => float_max a b end.
Definition np_minimum (a b : pyfloat) : pyfloat :=
  match a, b with FNaN, _ | _, FNaN => FNaN | _, _ => float_min a b end.
(** [ufunc.accumulate]. *)
Fixpoint accumulate_from (op : pyfloat → pyfloat → pyfloat) (acc : pyfloat) (l : list pyfloat) : list pyfloat :=
  match l with [] => [] | x :: l => let acc := op acc x in acc :: accumulate_from op acc l end.
Definition accumulate (op : pyfloat → pyfloat → pyfloat) (l : list pyfloat) : list pyfloat :=
  match l with [] => [] | x :: l => x :: accumulate_from op x l end.
Definition np_max (l : list pyfloat) : result pyfloat :=
  match l with
  | [] => raise ValueError (u "zero-size array to reduction operation maximum which has no identity")
  | x :: l => Ok (foldl np_maximum x l)
  end.

(** ** Configuration and results *)

Record MetricsConfig := mkMetricsConfig { periods_per_year : pyfloat; risk_free_rate : pyfloat }.
Definition make_metrics_config (c : MetricsConfig) : result MetricsConfig :=
  guard_raise (negb (is_finite_float (periods_per_year c)) || float_leb (periods_per_year c) f0) ConfigError
    (u "periods_per_year must be positive and finite");;
  guard_raise (negb (is_finite_float (risk_free_rate c))) ConfigError (u "risk_free_rate must be finite");;
  Ok c.

Record Metrics := mkMetrics {
  n_periods : Z; total_return : pyfloat; annualised_return : pyfloat; annualised_volatility : option pyfloat;
  sharpe : option pyfloat; sortino : option pyfloat; calmar : option pyfloat; m_max_drawdown : pyfloat;
  max_drawdown_duration_periods : Z; max_drawdown_duration_ns : Z; n_trades : Z; hit_rate : option pyfloat;
  profit_factor : option pyfloat; turnover : pyfloat; exposure : pyfloat; avg_gross_exposure : pyfloat }.

(** The statistics of numpy ([std] with [ddof=1]) and Python's power of floats. *)
Class Statistics := {
  np_mean : list pyfloat → pyfloat;
  np_std : list pyfloat → pyfloat;
  np_median : list pyfloat → pyfloat;
  float_pow : pyfloat → pyfloat → result pyfloat }.

Definition period_returns (equity : list pyfloat) : list pyfloat :=
  zip_with (λ next now, np_div (float_sub next now) now) (tail equity) equity.

(** ** Drawdowns *)

(** [np.flatnonzero(np.diff(l))], from the position [i]. *)
Fixpoint flips (i : nat) (l : list bool) : list nat :=
  match l with
  | [] => []
  | a :: l => match l with [] => [] | b :: _ => (if Bool.eqb a b then [] else [i]) ++ flips (S i) l end
  end.
(** [l[0::2]] and [l[1::2]]. *)
Fixpoint evens {A} (l : list A) : list A := match l with [] => [] | [x] => [x] | x :: _ :: l => x :: evens l end.
Definition odds {A} (l : list A) : list A := evens (tail l).
(** [zip(l, k, strict=True)]. *)
Definition zip_strict {A B} (l : list A) (k : list B) : result (list (A * B)) :=
  if (length l =? length k)%nat then Ok (zip l k) else raise ValueError (u "zip() arguments have different lengths").

(** [ts_ns[i]]: negative positions count from the end. *)
Definition np_item (l : list Z) (i : Z) : result Z :=
  match (if i <? 0 then if i + Z.of_nat (length l) <? 0 then None else l !! Z.to_nat (i + Z.of_nat (length l)) else l !! Z.to_nat i) with
  | Some t => Ok t
  | None => raise IndexError (u "index is out of bounds")
  end.

Definition underwater (equity : list pyfloat) : list bool :=
  zip_with float_ltb equity (accumulate np_maximum equity).
Definition longer_run (equity : list pyfloat) (ts_ns : list Z) (best : Z * Z) (se : nat * nat) : result (Z * Z) :=
  let peak_idx := Z.of_nat se.1 - 1 in
  let recover_idx := Z.min (Z.of_nat se.2) (Z.of_nat (length equity) - 1) in
  let periods := recover_idx - peak_idx in
  if best.1 <? periods then
    a ← np_item ts_ns recover_idx; b ← np_item ts_ns peak_idx; Ok (periods, a - b)
  else Ok best.
Definition max_drawdown (equity : list pyfloat) (ts_ns : list Z) : result (pyfloat * Z * Z) :=
  let peak := accumulate np_maximum equity in
  dd ← np_max (zip_with (λ p e, np_div (float_sub p e) p) peak equity);
  if negb (existsb id (underwater equity)) then Ok (dd, 0, 0)
  else
    let edges := flips 0 ([false] ++ underwater equity ++ [false]) in
    runs ← zip_strict (evens edges) (odds edges);
    '(periods, ns) ← foldR (longer_run equity ts_ns) (0, 0) runs;
    Ok (dd, periods, ns).

(** [return_fraction] of a round trip ([models.py]). *)
Definition return_fraction (t : ClosedTrade) : result pyfloat :=
  entry_notional ← dmul (t_quantity t) (t_avg_entry t);
  if deq entry_notional D_ZERO then Ok f0
  else n ← net_pnl t; q ← ddiv n entry_notional; Ok (float_of_dec q).

Section statistics.
Context `{Statistics}.

Definition ratio_stats (returns : list pyfloat) (cfg : MetricsConfig) : result (option pyfloat * option pyfloat * option pyfloat) :=
  if (length returns <? 2)%nat then Ok (None, None, None)
  else
    ann ← float_sqrt (periods_per_year cfg);
    rate ← py_div (risk_free_rate cfg) (periods_per_year cfg);
    let excess := (λ r, float_sub r rate) <$> returns in
    let std := np_std returns in
    let vol := float_mul std ann in
    sharpe ← (if is_zero std then Ok None
              else q ← py_div (np_mean excess) std; Ok (Some (float_mul q ann)));
    downside ← float_sqrt (np_mean ((λ x, let m := np_minimum x f0 in float_mul m m) <$> excess));
    sortino ← (if is_zero downside then Ok None
               else q ← py_div (np_mean excess) downside; Ok (Some (float_mul q ann)));
    Ok (Some vol, sharpe, sortino).

(** [sum(ns, start=Decimal(0))]. *)
Definition dsum (l : list decimal) : result decimal := foldR dadd D_ZERO l.
Definition filterR {A} (p : A → result bool) (l : list A) : result (list A) :=
  foldR (λ acc x, keep ← p x; Ok (if keep : bool then acc ++ [x] else acc)) [] l.
Definition _trade_stats (trades : list ClosedTrade) : result (option pyfloat * option pyfloat) :=
  if bool_decide (trades = []) then Ok (None, None)
  else
    nets ← mapR net_pnl trades;
    winners ← filterR (λ n, dgt n D_ZERO) nets;
    wins ← dsum winners;
    losers ← filterR (λ n, dlt n D_ZERO) nets;
    lost ← dsum losers;
    losses ← dneg lost;
    let hit := np_div (float_of_int (Z.of_nat (length winners))) (float_of_int (Z.of_nat (length nets))) in
    pf ← (if deq losses D_ZERO then Ok None else q ← ddiv wins losses; Ok (Some (float_of_dec q)));
    Ok (Some hit, pf).

(** The same text in [regime_analysis.py]. *)
Definition _trade_ratios (trades : list ClosedTrade) : result (option pyfloat * option pyfloat) := _trade_stats trades.

Definition compute_metrics (ts_ns : list Z) (equity gross_exposure : list pyfloat) (trades : list ClosedTrade)
    (traded_notional : decimal) (cfg : MetricsConfig) : result Metrics :=
  match equity, last equity with
  | first :: _ :: _, Some final =>
      guard_raise (negb (forallb is_finite_float equity) || existsb (λ x, float_leb x f0) equity) ConfigError
        (u "equity must be finite and strictly positive");;
      let returns := period_returns equity in
      let n := length returns in
      let total := float_sub (np_div final first) f1 in
      power ← py_div (periods_per_year cfg) (float_of_int (Z.of_nat n));
      growth ← float_pow (float_add f1 total) power;
      let ann_ret := float_sub growth f1 in
      '(vol, sharpe, sortino) ← ratio_stats returns cfg;
      '(dd, dd_periods, dd_ns) ← max_drawdown equity ts_ns;
      '(hit, pf) ← _trade_stats trades;
      let mean_eq := np_mean equity in
      calmar ← (if is_zero dd then Ok None else q ← py_div ann_ret dd; Ok (Some q));
      turnover ← py_div (float_of_dec traded_notional) mean_eq;
      Ok (mkMetrics (Z.of_nat n) total ann_ret vol sharpe sortino calmar dd dd_periods dd_ns (Z.of_nat (length trades)) hit pf
            turnover (np_mean ((λ g, if float_ltb f0 g then f1 else f0) <$> gross_exposure))
            (np_mean (zip_with np_div gross_exposure equity)))
  | _, _ => raise ConfigError (u "need at least two equity points to compute metrics")
  end.

(** ** By regime ([regime_analysis.py]) *)

Record RegimeStats := mkStats {
  rs_regime : pystr; rs_n_periods : Z; rs_n_trades : Z; rs_mean_return : option pyfloat; rs_total_return : option pyfloat;
  rs_volatility : option pyfloat; rs_sharpe : option pyfloat; rs_sortino : option pyfloat; rs_max_drawdown : option pyfloat;
  rs_hit_rate : option pyfloat; rs_profit_factor : option pyfloat; insufficient_evidence : bool }.

Definition summarise_returns (name : pystr) (returns : list pyfloat) (trades : list ClosedTrade) (cfg : MetricsConfig)
    (min_periods : Z) : result RegimeStats :=
  let n := Z.of_nat (length returns) in
  let k := Z.of_nat (length trades) in
  '(hit, pf) ← _trade_ratios trades;
  if n =? 0 then Ok (mkStats name 0 k None None None None None None hit pf true)
  else
    let equity := f1 :: accumulate float_mul (float_add f1 <$> returns) in
    '(dd, _, _) ← max_drawdown equity (Z.of_nat <$> seq 0 (length equity));
    '(vol, sharpe, sortino) ← ratio_stats returns cfg;
    Ok (mkStats name n k (Some (np_mean returns)) (Some (float_sub (default f1 (last equity)) f1)) vol sharpe sortino (Some dd)
          hit pf (n <? min_periods)).

(** [values[regimes == label]]. *)
Definition masked (label : RegimeLabel) (regimes : list Z) (values : list pyfloat) : list pyfloat :=
  (filter (λ rv, rv.1 = regime_number label) (zip regimes values)).*2.
Context `{Numpy}.
Definition regime_breakdown (returns : list pyfloat) (regimes : list Z) (trades : list ClosedTrade) (cfg : MetricsConfig)
    (min_periods : Z) : result (list (pystr * RegimeStats)) :=
  guard_raise (negb (length returns =? length regimes)%nat) ValueError (u "returns and regimes must be aligned");;
  present ← mapR (λ r, match RegimeLabel_of r with
                       | Some l => Ok l | None => raise ValueError (u "is not a valid RegimeLabel") end) (np_unique regimes);
  let labels := HMM_STATES ++ (if bool_decide (REGIME_UNKNOWN ∈ present) then [REGIME_UNKNOWN] else []) in
  mapR (λ label,
    s ← summarise_returns (regime_name label) (masked label regimes returns)
          (filter (λ t, t_regime t = label) trades) cfg min_periods;
    Ok (regime_name label, s)) labels.
End statistics.

(** ** Order of finite floats *)

Lemma float_ltb_trans a b c : is_finite_float a = true → is_finite_float b = true → is_finite_float c = true →
  float_ltb a b = false → float_ltb b c = false → float_ltb a c = false.
Proof.
  intros Ha Hb Hc. destruct (common_exp3 a b c Ha Hb Hc) as (K & _ & ? & ? & ?).
  rewrite !(float_ltb_sc K) by done. rewrite !Z.ltb_ge. lia.
Qed.
Lemma float_ltb_asym a b : float_ltb a b = true → float_ltb b a = false.
Proof.
  destruct a as [m1 e1|[]|] eqn:Ea, b as [m2 e2|[]|] eqn:Eb; try done.
  destruct (common_exp a b) as (K & _ & H1 & H2); [by subst..|]. subst.
  rewrite !(float_ltb_sc K) by done. rewrite Z.ltb_lt, Z.ltb_ge. lia.
Qed.
Lemma float_ltb_irrefl a : float_ltb a a = false.
Proof. destruct a as [m e|[]|]; try done. cbn. rewrite Z.ltb_irrefl. done. Qed.

(** The running maximum of finite values is one of the values so far, and none of them is above it. *)
Lemma accumulate_from_max acc l k x : is_finite_float acc = true → Forall (λ y, is_finite_float y = true) l →
  accumulate_from np_maximum acc l !! k = Some x →
  is_finite_float x = true ∧ (x = acc ∨ ∃ j, (j <= k)%nat ∧ l !! j = Some x) ∧ float_ltb x acc = false
  ∧ ∀ j y, (j <= k)%nat → l !! j = Some y → float_ltb x y = false.
Proof.
  intros Ha Hl. revert acc k Ha. induction Hl as [|y l Hy Hl IH]; intros acc k Ha Hk; [done|]. cbn in Hk.
  assert (Hmax : is_finite_float (np_maximum acc y) = true ∧ float_ltb (np_maximum acc y) acc = false
    ∧ float_ltb (np_maximum acc y) y = false ∧ (np_maximum acc y = acc ∨ np_maximum acc y = y)).
  { assert (E : np_maximum acc y = float_max acc y) by (destruct acc, y; done). rewrite E. unfold float_max.
    destruct (float_ltb acc y) eqn:El; ands; auto using float_ltb_irrefl, float_ltb_asym. }
  destruct Hmax as (Hf & H1 & H2 & H3). set (acc' := np_maximum acc y) in *. clearbody acc'. destruct k as [|k]; cbn in Hk.
  - injection Hk as <-. ands; try done.
    + destruct H3 as [->| ->]; [by left|right; exists 0%nat; split; [lia|done]].
    + intros [|j] z Hj Hz; [by injection Hz as <-|lia].
  - destruct (IH acc' k Hf Hk) as (Hx & Hor & Hacc & Hall). split; [done|]. split; [|split].
    + destruct Hor as [->|(j & Hj & Hjx)]; [|right; exists (S j); split; [lia|done]].
      destruct H3 as [->| ->]; [by left|right; exists 0%nat; split; [lia|done]].
    + by apply (float_ltb_trans x acc' acc).
    + intros [|j] z Hj Hz; cbn in Hz; [injection Hz as <-; by apply (float_ltb_trans x acc' y)|apply (Hall j z); [lia|done]].
Qed.

(** A point is under water when an earlier one is above it. *)
Definition below_peak (equity : list pyfloat) (k : nat) : Prop :=
  ∃ j x y, (j < k)%nat ∧ equity !! j = Some x ∧ equity !! k = Some y ∧ float_ltb y x = true.
Lemma underwater_spec equity k : Forall (λ y, is_finite_float y = true) equity →
  underwater equity !! k = Some true ↔ below_peak equity k.
Proof.
  intros Hf. unfold underwater. rewrite lookup_zip_with_Some.
  assert (Hacc : ∀ p, accumulate np_maximum equity !! k = Some p →
    (∃ j, (j <= k)%nat ∧ equity !! j = Some p) ∧ is_finite_float p = true ∧ ∀ j y, (j <= k)%nat → equity !! j = Some y → float_ltb p y = false).
  { intros p Hp. destruct Hf as [|x equity Hx Hf]; [done|]. destruct k as [|k]; cbn in Hp.
    - injection Hp as <-. split; [by exists 0%nat|]. split; [done|]. intros [|j] y Hj Hy; [injection Hy as <-; apply float_ltb_irrefl|lia].
    - destruct (accumulate_from_max _ _ _ _ Hx Hf Hp) as (Hpf & Hor & Hpx & Hall). split; [|split; [done|]].
      + destruct Hor as [->|(j & Hj & Hjp)]; [exists 0%nat; split; [lia|done]|exists (S j); split; [lia|done]].
      + intros [|j] y Hj Hy; cbn in Hy; [by injection Hy as <-|apply (Hall j y); [lia|done]]. }
  split.
  - intros (y & p & E & Hy & Hp). symmetry in E. destruct (Hacc p Hp) as ((j & Hj & Hjp) & _ & _). exists j, p, y.
    ands; try done. destruct (decide (j = k)) as [->|]; [|lia]. rewrite Hy in Hjp. injection Hjp as ->. by rewrite float_ltb_irrefl in E.
  - intros (j & x & y & Hj & Hx & Hy & Hlt). assert (∃ p, accumulate np_maximum equity !! k = Some p) as [p Hp].
    { apply lookup_lt_is_Some. apply lookup_lt_Some in Hy. clear -Hy. destruct equity as [|z l]; [done|]. cbn in *.
      enough (H : ∀ l a, length (accumulate_from np_maximum a l) = length l) by (rewrite H; done). clear. intros l. induction l as [|y l IH]; intros a; cbn; [done|]. by rewrite IH. }
    exists y, p. split; [|done]. destruct (Hacc p Hp) as (_ & Hpf & Hall). specialize (Hall j x ltac:(lia) Hx). symmetry.
    apply not_false_iff_true. intros E. rewrite Forall_lookup in Hf.
    pose proof (float_ltb_trans y p x (Hf _ _ Hy) Hpf (Hf _ _ Hx) E Hall) as E'. by rewrite Hlt in E'.
Qed.

(** ** Runs *)

Fixpoint pairs (l : list nat) : list (nat * nat) := match l with s :: e :: l => (s, e) :: pairs l | _ => [] end.
Lemma nat_pair_ind (P : list nat → Prop) : P [] → (∀ x, P [x]) → (∀ x y l, P l → P (x :: y :: l)) → ∀ l, P l.
Proof.
  intros H0 H1 H2. enough (∀ l, P l ∧ ∀ x, P (x :: l)) as H by apply H. induction l as [|x l [IH1 IH2]]; split; auto.
Qed.
Lemma zip_strict_pairs l : Nat.Even (length l) → zip_strict (evens l) (odds l) = Ok (pairs l).
Proof.
  unfold zip_strict. intros He.
  assert (Hl : length (evens l) = length (odds l) ∧ zip (evens l) (odds l) = pairs l).
  { revert He. induction l as [|x|x y l IH] using nat_pair_ind; intros He; [done|by destruct He as [k Hk]; cbn in Hk; lia|].
    destruct IH as [I1 I2]; [destruct He as [k Hk]; exists (k - 1)%nat; cbn in Hk; lia|]. unfold odds in *. cbn [tail].
    assert (Ev : evens (y :: l) = y :: evens (tail l)) by by destruct l. rewrite Ev. cbn. rewrite I1, I2. done. }
  destruct Hl as [-> ->]. by rewrite Nat.eqb_refl.
Qed.

(** A maximal run of [true]. *)
Record run_of (w : list bool) (s e : nat) : Prop := {
  run_order : (s < e <= length w)%nat;
  run_inside : ∀ k, (s <= k < e)%nat → w !! k = Some true;
  run_end : w !! e ≠ Some true;
  run_start : s = 0%nat ∨ w !! (s - 1)%nat = Some false }.
Record runs_ok (w : list bool) (from : nat) (edges : list nat) : Prop := {
  runs_even : Nat.Even (length edges);
  runs_are : Forall (λ se, run_of w se.1 se.2) (pairs edges);
  runs_all : ∀ k, (from <= k)%nat → w !! k = Some true → ∃ se, se ∈ pairs edges ∧ (se.1 <= k < se.2)%nat }.

Lemma runs_skip w from edges : runs_ok w (S from) edges → w !! from ≠ Some true → runs_ok w from edges.
Proof.
  intros [He Hr Ha] Hf. split; [done|done|]. intros k Hk Hw. destruct (decide (k = from)) as [->|]; [done|].
  apply Ha; [lia|done].
Qed.
Lemma runs_cons w from s e edges : runs_ok w e edges → run_of w s e → (from <= s)%nat →
  (∀ k, (from <= k < s)%nat → w !! k ≠ Some true) → runs_ok w from (s :: e :: edges).
Proof.
  intros [He Hr Ha] Hse Hfs Hbefore. split.
  - destruct He as [n Hn]. exists (S n). cbn. lia.
  - by constructor.
  - intros k Hk Hw. cbn. destruct (decide (k < s)%nat) as [|Hks]; [exfalso; by apply (Hbefore k)|].
    destruct (decide (k < e)%nat) as [|Hke]; [exists (s, e); split; [by left|cbn; lia]|].
    destruct (Ha k) as (se & Hin & ?); [lia|done|]. exists se. split; [by right|done].
Qed.

Lemma flips_runs w u i (prev : bool) s :
  drop i w = u → (i <= length w)%nat → (s = 0%nat ∨ w !! (s - 1)%nat = Some false) →
  (if prev then (s < i)%nat ∧ ∀ k, (s <= k < i)%nat → w !! k = Some true else s = i) →
  runs_ok w s ((if prev then [s] else []) ++ flips i (prev :: u ++ [false])).
Proof.
  revert i prev s. induction u as [|a u IH]; intros i prev s Hd Hi Hs Hp.
  - assert (Hlen : i = length w) by (apply (f_equal length) in Hd; rewrite length_drop in Hd; cbn in Hd; lia).
    assert (Hend : ∀ k, (i <= k)%nat → w !! k ≠ Some true) by (intros k Hk E; apply lookup_lt_Some in E; lia).
    destruct prev; cbn.
    + destruct Hp as [Hsi Hin]. apply runs_cons; [|split; [lia|done|by apply Hend|done]|lia|lia].
      split; [by exists 0%nat|constructor|]. intros k Hk E. by destruct (Hend k Hk E).
    + subst s. split; [by exists 0%nat|constructor|]. intros k Hk E. by destruct (Hend k Hk E).
  - assert (Ha : w !! i = Some a) by (rewrite <- (Nat.add_0_r i), <- lookup_drop, Hd; done).
    assert (Hd' : drop (S i) w = u) by (rewrite <- Nat.add_1_r, <- drop_drop, Hd; done).
    assert (Hi' : (S i <= length w)%nat) by (apply lookup_lt_Some in Ha; lia).
    cbn [app flips]. destruct prev, a; cbn [Bool.eqb app].
    + destruct Hp as [Hsi Hin]. apply (IH (S i) true s); [done|done|done|]. split; [lia|].
      intros k Hk. destruct (decide (k = i)) as [->|]; [done|apply Hin; lia].
    + destruct Hp as [Hsi Hin]. apply runs_cons; [|split; [lia|done|by rewrite Ha|done]|lia|lia].
      apply runs_skip; [|by rewrite Ha]. apply (IH (S i) false (S i)); [done|done| |done]. right. by rewrite Nat.sub_succ, Nat.sub_0_r.
    + subst s. apply (IH (S i) true i); [done|done|done|]. split; [lia|]. intros k Hk. by replace k with i by lia.
    + subst s. apply runs_skip; [|by rewrite Ha]. apply (IH (S i) false (S i)); [done|done| |done]. right. by rewrite Nat.sub_succ, Nat.sub_0_r.
Qed.
Lemma edges_ok w : runs_ok w 0 (flips 0 ([false] ++ w ++ [false])).
Proof. apply (flips_runs w w 0 false 0); [done|lia|by left|done]. Qed.

(** The duration of a run: from the peak before it to the recovery, or to the last point. *)
Definition run_periods (n : nat) (se : nat * nat) : Z := Z.min (Z.of_nat se.2) (Z.of_nat n - 1) - (Z.of_nat se.1 - 1).
Definition run_ns (n : nat) (ts : list Z) (se : nat * nat) : Z :=
  default 0 (ts !! Z.to_nat (Z.min (Z.of_nat se.2) (Z.of_nat n - 1))) - default 0 (ts !! (se.1 - 1)%nat).

Lemma np_item_ok ts i : 0 <= i < Z.of_nat (length ts) → np_item ts i = Ok (default 0 (ts !! Z.to_nat i)).
Proof.
  intros Hi. unfold np_item. destruct (Z.ltb_spec i 0); [lia|].
  destruct (lookup_lt_is_Some_2 ts (Z.to_nat i)) as [t ->]; [lia|done].
Qed.
Lemma longest_fold equity ts runs best : length ts = length equity →
  Forall (λ se, (1 <= se.1 < se.2)%nat ∧ (se.2 <= length equity)%nat) runs →
  ∃ p ns, foldR (longer_run equity ts) best runs = Ok (p, ns) ∧ best.1 <= p
  ∧ Forall (λ se, run_periods (length equity) se <= p) runs
  ∧ ((p, ns) = best ∨ ∃ se, se ∈ runs ∧ p = run_periods (length equity) se ∧ ns = run_ns (length equity) ts se).
Proof.
  intros Hts Hr. revert best. induction Hr as [|[s e] runs [Hse He] Hr IH]; intros best.
  { exists best.1, best.2. split; [by destruct best|]. split; [lia|]. split; [constructor|]. left. by destruct best. }
  cbn [fst snd] in Hse, He. cbn [foldR].
  assert (Hstep : longer_run equity ts best (s, e) = Ok (if best.1 <? run_periods (length equity) (s, e)
    then (run_periods (length equity) (s, e), run_ns (length equity) ts (s, e)) else best)).
  { unfold longer_run, run_periods, run_ns. cbn [fst snd]. destruct (_ <? _); [|done]. rewrite !np_item_ok by lia.
    cbn [mbind result_bind]. by replace (Z.to_nat (Z.of_nat s - 1)) with (s - 1)%nat by lia. }
  rewrite Hstep. cbn [mbind result_bind]. destruct (Z.ltb_spec best.1 (run_periods (length equity) (s, e))) as [Hlt|Hge].
  - destruct (IH (run_periods (length equity) (s, e),
      run_ns (length equity) ts (s, e))) as (p & ns & Hf & Hb & Hall & Hor).
    exists p, ns. cbn [fst] in Hb. split; [done|]. split; [lia|]. split; [by constructor|].
    right. destruct Hor as [[= -> ->]|(se & Hin & ? & ?)]; [exists (s, e); split; [by left|done]|exists se; split; [by right|done]].
  - destruct (IH best) as (p & ns & Hf & Hb & Hall & Hor). exists p, ns. split; [done|]. split; [done|].
    split; [constructor; [lia|done]|]. destruct Hor as [->|(se & Hin & ? & ?)]; [by left|right; exists se; split; [by right|done]].
Qed.

Lemma np_max_total l : l ≠ [] → ∃ x, np_max l = Ok x.
Proof. destruct l; [done|by eexists]. Qed.
Lemma underwater_length equity : length (underwater equity) = length equity.
Proof.
  unfold underwater. rewrite length_zip_with. enough (length (accumulate np_maximum equity) = length equity) by lia.
  destruct equity as [|x l]; [done|]. cbn. f_equal. revert x. induction l as [|y l IH]; intros x; cbn; [done|]. by rewrite IH.
Qed.
Lemma underwater_first equity : underwater equity !! 0%nat ≠ Some true.
Proof. unfold underwater. destruct equity as [|x l]; [done|]. cbn. rewrite float_ltb_irrefl. done. Qed.

(** A stretch from [i] to [j] with everything strictly between, and the point after [i], below its peak. *)
Definition stretch (equity : list pyfloat) (i j : nat) : Prop :=
  (i < j < length equity)%nat ∧ below_peak equity (S i) ∧ ∀ k, (i < k < j)%nat → below_peak equity k.

(** C33: The drawdown duration of a finite equity curve is that of its longest stretch under water: the
    computation by edges of a boolean mask always succeeds, no stretch is longer than the duration
    found, and a duration that is not zero is attained, from a point at its peak to one that is back at
    the peak or to the end of the curve, the time being the difference of their stamps. *)
Theorem drawdown_is_the_longest_stretch equity ts :
  equity ≠ [] → length ts = length equity → Forall (λ x, is_finite_float x = true) equity →
  ∃ dd p ns, max_drawdown equity ts = Ok (dd, p, ns)
  ∧ (∀ i j, stretch equity i j → Z.of_nat j - Z.of_nat i <= p)
  ∧ (p = 0 ∧ ns = 0 ∧ (∀ k, ¬ below_peak equity k)
     ∨ ∃ i j, stretch equity i j ∧ p = Z.of_nat j - Z.of_nat i ∧ ns = default 0 (ts !! j) - default 0 (ts !! i)
         ∧ ¬ below_peak equity i ∧ (¬ below_peak equity j ∨ S j = length equity)).
Proof.
  intros Hne Hts Hf. pose proof (λ k, underwater_spec equity k Hf) as Hu.
  destruct (np_max_total (zip_with (λ p e, np_div (float_sub p e) p) (accumulate np_maximum equity) equity)) as [dd Hdd].
  { destruct equity; [done|]. by cbn. }
  unfold max_drawdown. rewrite Hdd. cbn [mbind result_bind].
  destruct (existsb id (underwater equity)) eqn:Ex; cbn [negb].
  2: { assert (Hnone : ∀ k, ¬ below_peak equity k).
    { intros k Hk. apply Hu, list_elem_of_lookup_2 in Hk. rewrite existsb_false in Ex. specialize (Ex true Hk). done. }
    exists dd, 0, 0. split; [done|]. split; [|by left]. intros i j (_ & Hb & _). by destruct (Hnone (S i)). }
  destruct (edges_ok (underwater equity)) as [Heven Hruns Hall]. rewrite zip_strict_pairs by exact Heven. cbn [mbind result_bind].
  set (runs := pairs _) in *. pose proof (underwater_length equity) as Hlen. pose proof (underwater_first equity) as H0.
  assert (Hbounds : Forall (λ se, (1 <= se.1 < se.2)%nat ∧ (se.2 <= length equity)%nat) runs).
  { eapply Forall_impl; [exact Hruns|]. intros [s e] [Ho Hi _ _]. cbn [fst snd] in *. split; [|lia].
    destruct s; [exfalso; apply H0, Hi; lia|lia]. }
  destruct (longest_fold equity ts runs (0, 0) Hts Hbounds) as (p & ns & Hfold & _ & Hmax & Hor). rewrite Hfold. cbn.
  exists dd, p, ns. split; [done|]. rewrite Forall_forall in Hruns, Hmax, Hbounds. split.
  - intros i j (Hij & Hb & Hbelow). apply Hu in Hb. destruct (Hall (S i)) as ([s e] & Hin & Hse); [lia|done|].
    specialize (Hmax _ Hin). destruct (Hruns _ Hin) as [Ho Hi He _]. unfold run_periods in Hmax. cbn [fst snd] in *.
    assert (j <= e)%nat; [|lia]. destruct (Nat.le_gt_cases j e) as [|Hlt]; [done|exfalso]. apply He, Hu, Hbelow. lia.
  - right. destruct Hor as [[= -> ->]|([s e] & Hin & -> & ->)].
    + exfalso. apply existsb_exists in Ex as (x & Hx & Hid). apply list_elem_of_In, list_elem_of_lookup in Hx as (k & Hk).
      assert (x = true) as -> by by destruct x. destruct (Hall k) as (se & Hin & _); [lia|done|].
      specialize (Hmax _ Hin). destruct (Hbounds _ Hin). unfold run_periods in Hmax. lia.
    + destruct (Hruns _ Hin) as [Ho Hi He Hs], (Hbounds _ Hin) as [H1 H2]. cbn [fst snd] in *.
      exists (s - 1)%nat, (min e (length equity - 1)). unfold run_periods, run_ns, stretch. cbn [fst snd].
      replace (Z.to_nat (Z.min (Z.of_nat e) (Z.of_nat (length equity) - 1))) with (min e (length equity - 1)) by lia.
      split; [split; [lia|split; [apply Hu, Hi; lia|intros k Hk; apply Hu, Hi; lia]]|]. split; [lia|]. split; [done|].
      rewrite <- !Hu. split; [destruct Hs as [->|Hs]; [lia|by rewrite Hs]|].
      destruct (decide (e < length equity)%nat); [left; by replace (min e (length equity - 1)) with e by lia|right; lia].
Qed.

(** ** The breakdown by regime *)

Section breakdown.
Context `{HS : Statistics} `{NumpyLaws}.

Definition count_of (l : RegimeLabel) (regimes : list Z) : Z := Z.of_nat (length (filter (λ r, r = regime_number l) regimes)).

Lemma summarise_counts name returns ts cfg m s : summarise_returns name returns ts cfg m = Ok s →
  rs_regime s = name ∧ rs_n_periods s = Z.of_nat (length returns) ∧ rs_n_trades s = Z.of_nat (length ts)
  ∧ insufficient_evidence s = (Z.of_nat (length returns) =? 0) || (Z.of_nat (length returns) <? m).
Proof.
  unfold summarise_returns. intros ([hit pf] & _ & Hs)%bind_ok. destruct (Z.eqb_spec (Z.of_nat (length returns)) 0) as [E|E].
  - injection Hs as <-. rewrite E. done.
  - apply bind_ok in Hs as ([[dd ?] ?] & _ & Hs). apply bind_ok in Hs as ([[? ?] ?] & _ & Hs). injection Hs as <-. done.
Qed.
Lemma masked_length l regimes returns : length returns = length regimes →
  Z.of_nat (length (masked l regimes returns)) = count_of l regimes.
Proof.
  unfold masked, count_of. intros Hl. rewrite length_fmap. f_equal. revert returns Hl.
  induction regimes as [|r regimes IH]; intros [|x returns] Hl; cbn in *; try done. injection Hl as Hl.
  case_decide; cbn; [f_equal|]; by apply IH.
Qed.
Lemma label_number r l : RegimeLabel_of r = Some l → r = regime_number l.
Proof. unfold RegimeLabel_of. intros [_ E]%List.find_some. lia. Qed.

Lemma count_of_cons l k regimes : count_of l (regime_number k :: regimes) = (if decide (l = k) then 1 else 0) + count_of l regimes.
Proof.
  unfold count_of. destruct (decide (l = k)) as [->|Hne].
  - rewrite filter_cons_True by done. cbn [length]. lia.
  - rewrite filter_cons_False; [lia|]. by destruct l, k.
Qed.
(** Counting by label counts everything. *)
Lemma counts_total regimes : Forall (λ r, ∃ l, RegimeLabel_of r = Some l) regimes →
  foldr (λ l n, count_of l regimes + n) 0 HMM_STATES + count_of REGIME_UNKNOWN regimes = Z.of_nat (length regimes).
Proof.
  induction 1 as [|r regimes [l ->%label_number] _ IH]; [done|]. cbn [foldr HMM_STATES length] in *.
  rewrite !count_of_cons. destruct l; cbn [decide decide_rel RegimeLabel_eq_dec] in *; repeat case_decide; try done; lia.
Qed.

(** The breakdown by regime loses no period. Each of the five HMM states is reported, in order, even
    when it was never seen, and the unknown regime exactly when some period carries it; a report counts
    the periods with its label and the trades opened under it, says when that is too little evidence,
    and the counts add up to the number of returns. *)
Theorem breakdown_covers_every_period returns regimes ts cfg m out :
  regime_breakdown returns regimes ts cfg m = Ok out →
  ∃ labels, labels = HMM_STATES ++ (if bool_decide (0 ∈ regimes) then [REGIME_UNKNOWN] else [])
  ∧ Forall2 (λ l ks, ks.1 = regime_name l ∧ rs_regime ks.2 = regime_name l ∧ rs_n_periods ks.2 = count_of l regimes
      ∧ rs_n_trades ks.2 = Z.of_nat (length (filter (λ t, t_regime t = l) ts))
      ∧ insufficient_evidence ks.2 = (count_of l regimes =? 0) || (count_of l regimes <? m)) labels out
  ∧ foldr (λ ks n, rs_n_periods ks.2 + n) 0 out = Z.of_nat (length returns).
Proof.
  unfold regime_breakdown. intros ([] & Hlen%guard_ok & Hb)%bind_ok. apply negb_false_iff, Nat.eqb_eq in Hlen.
  apply bind_ok in Hb as (present & Hp%mapR_Ok & Hb).
  assert (Hlab : ∀ r, r ∈ regimes → ∃ l, l ∈ present ∧ RegimeLabel_of r = Some l).
  { intros r Hr. apply unique_elem, list_elem_of_lookup in Hr as (i & Hi). destruct (Forall2_lookup_l _ _ _ _ _ Hp Hi) as (l & Hl & E).
    exists l. split; [by eapply list_elem_of_lookup_2|]. destruct (RegimeLabel_of r); [by injection E as ->|done]. }
  assert (Hun : REGIME_UNKNOWN ∈ present ↔ 0 ∈ regimes).
  { split.
    - intros (i & Hi)%list_elem_of_lookup. destruct (Forall2_lookup_r _ _ _ _ _ Hp Hi) as (r & Hr & E).
      apply unique_elem. destruct (RegimeLabel_of r) as [l|] eqn:El; [|done]. injection E as ->. apply label_number in El. subst r.
      by eapply list_elem_of_lookup_2.
    - intros Hz. destruct (Hlab 0 Hz) as (l & Hl & E). by injection E as <-. }
  rewrite (bool_decide_ext _ _ Hun) in Hb. set (labels := HMM_STATES ++ _) in *. exists labels. split; [done|].
  apply mapR_Ok in Hb. assert (Hall : Forall2 (λ l ks, ks.1 = regime_name l ∧ rs_regime ks.2 = regime_name l ∧ rs_n_periods ks.2 = count_of l regimes
      ∧ rs_n_trades ks.2 = Z.of_nat (length (filter (λ t, t_regime t = l) ts))
      ∧ insufficient_evidence ks.2 = (count_of l regimes =? 0) || (count_of l regimes <? m)) labels out).
  { eapply Forall2_impl; [exact Hb|]. cbn. intros l ks (s & Hs & [= <-])%bind_ok. apply summarise_counts in Hs.
    rewrite (masked_length l regimes returns Hlen) in Hs. cbn. tauto. }
  split; [done|].
  assert (Hsum : foldr (λ ks n, rs_n_periods ks.2 + n) 0 out = foldr (λ l n, count_of l regimes + n) 0 labels).
  { clear -Hall. induction Hall as [|l ks labels out (_ & _ & E & _) _ IH]; [done|]. cbn. by rewrite E, IH. }
  rewrite Hsum, Hlen, <- (counts_total regimes) by (apply Forall_forall; intros r Hr; destruct (Hlab r Hr) as (l & _ & ?); by exists l).
  unfold labels. rewrite foldr_app. destruct (bool_decide (0 ∈ regimes)) eqn:Ez; cbn; [lia|].
  apply bool_decide_eq_false in Ez. assert (E : count_of REGIME_UNKNOWN regimes = 0); [|rewrite E; cbn; lia].
  unfold count_of. cbn. enough (filter (λ r, r = 0) regimes = []) as -> by done.
  apply elem_of_nil_inv. intros x [-> Hx]%list_elem_of_filter. done.
Qed.
End breakdown.

(** ** Concrete curves *)

(** Statistics good enough to run with. *)
Definition simple_mean (l : list pyfloat) : pyfloat := np_div (foldr float_add f0 l) (float_of_int (Z.of_nat (length l))).
Definition simple_statistics : Statistics := {|
  np_mean := simple_mean; np_std _ := f1; np_median l := default f0 (head l); float_pow x _ := Ok x |}.

Section example.
#[local] Existing Instance simple_statistics.
#[local] Existing Instance numpy_lists.
#[local] Existing Instance numpy_lists_laws.

Definition equity_example : list pyfloat := [fl "100"; fl "90"; fl "95"; fl "100"; fl "80"; fl "70"].
Example drawdown_runs :
  match max_drawdown equity_example [10; 20; 30; 45; 50; 60] with
  | Ok (dd, p, ns) => float_eqb dd (fl "0.3") && (p =? 3) && (ns =? 35) | Raise _ => false end = true.
Proof. vm_compute. reflexivity. Qed.
Example metrics_run :
  match compute_metrics [10; 20; 30; 45; 50; 60] equity_example (replicate 6 f0) [] D_ZERO (mkMetricsConfig (fl "252") f0) with
  | Ok m => (n_periods m =? 5) && float_eqb (total_return m) (fl "-0.30000000000000004") && (max_drawdown_duration_ns m =? 35)
  | Raise _ => false end = true.
Proof. vm_compute. reflexivity. Qed.
Definition breakdown_example := regime_breakdown [fl "0.1"; fl "-0.1"; fl "0.2"] [1; 5; 1] [] (mkMetricsConfig (fl "252") f0) 2.
Example breakdown_runs :
  match breakdown_example with
  | Ok out => (λ ks, (rs_n_periods ks.2, insufficient_evidence ks.2)) <$> out = [(2, false); (0, true); (0, true); (0, true); (1, true)]
  | Raise _ => False end.
Proof. vm_compute. reflexivity. Qed.

Lemma drawdown_is_the_longest_stretch_witness : ∃ dd p ns,
  max_drawdown equity_example [10; 20; 30; 45; 50; 60] = Ok (dd, p, ns) ∧ ∀ i j, stretch equity_example i j → Z.of_nat j - Z.of_nat i <= p.
Proof.
  destruct (drawdown_is_the_longest_stretch equity_example [10; 20; 30; 45; 50; 60]) as (dd & p & ns & E & H & _).
  - done.
  - reflexivity.
  - repeat constructor.
  - exists dd, p, ns. split; [exact E|exact H].
Defined.
Lemma breakdown_example_ok : ∃ out, breakdown_example = Ok out.
Proof. pose proof breakdown_runs as Hr. destruct breakdown_example as [out|]; [by exists out|done]. Qed.
Lemma breakdown_covers_every_period_witness : ∃ out, breakdown_example = Ok out ∧ foldr (λ ks n, rs_n_periods ks.2 + n) 0 out = 3.
Proof.
  destruct breakdown_example_ok as [out E]. exists out. split; [exact E|]. unfold breakdown_example in E.
  destruct (breakdown_covers_every_period [fl "0.1"; fl "-0.1"; fl "0.2"] [1; 5; 1] [] (mkMetricsConfig (fl "252") f0) 2 out E)
    as (labels & _ & _ & Hsum).
  exact Hsum.
Defined.
End example.
