(* ===== verification/BtEngine.v ===== *)
(** * Backtesting: execution and the engine ([execution.py], [engine.py], [strategies.py])

    One event after the other: marks, pending orders against the new bars, the equity point, the
    strategy with its point-in-time view, the orders it returns; at the end the metrics. A strategy is a
    state and a step; numpy's statistics and the jitter of its generator are parameters. *)
From Stdlib Require Import Sorted.
From S2P Require Import Prelude PyStr PyDecimal DecimalFacts PyFloat BtData BtPortfolio BtMetrics.

(** ** Floats and decimals *)

(** [int(x)]: toward zero. *)
Definition float_trunc (x : pyfloat) : result Z :=
  match x with
  | FFin m e => Ok (if 0 <=? e then m * 2 ^ e else m ÷ 2 ^ (- e))
  | FInf _ => raise (OtherError (u "OverflowError")) (u "cannot convert float infinity to integer")
  | FNaN => raise ValueError (u "cannot convert float NaN to integer")
  end.

Definition PRICE_PLACES : Z := 6.
(** [Decimal(f"{value:.6f}")]. *)
Definition to_decimal (value : pyfloat) : decimal :=
  match value with
  | FFin m e =>
      DFin (Z.sgn m * div_half_even (Z.abs m * 10 ^ PRICE_PLACES * 2 ^ Z.max 0 e) (2 ^ Z.max 0 (- e))) (- PRICE_PLACES)
  | FInf neg => DInf neg
  | FNaN => DNaN
  end.

(** ** Orders ([models.py]) *)

Record OrderIntent := mkIntent {
  o_symbol : pystr; o_side : Side; o_quantity : decimal; o_omega : option pyfloat; o_price_limit : option decimal;
  o_valid_for_ns : option Z; o_tag : pystr }.

Definition in_unit (x : pyfloat) : bool := float_leb f0 x && float_leb x f1.
Definition make_intent (i : OrderIntent) : result OrderIntent :=
  bad ← (if negb (is_finite (o_quantity i)) then Ok true else dle (o_quantity i) D_ZERO);
  guard_raise bad ConfigError (u "order quantity must be positive");;
  guard_raise (match o_omega i with Some x => negb (in_unit x) | None => false end) ConfigError
    (u "omega must be within [0, 1]");;
  low ← match o_price_limit i with Some l => dle l D_ZERO | None => Ok false end;
  guard_raise low ConfigError (u "price_limit must be positive when given");;
  guard_raise (match o_valid_for_ns i with Some n => n <=? 0 | None => false end) ConfigError
    (u "valid_for_ns must be positive when given");;
  Ok i.

Record Rejection := mkRejection {
  j_order_id : Z; j_symbol : pystr; j_timestamp_ns : Z; j_reason : pystr; j_quantity : decimal }.

(** ** Execution ([execution.py]) *)

Definition BPS : pyfloat := fl "1e-4".
Inductive ImpactModel := IMPACT_NONE | IMPACT_LINEAR | IMPACT_SQRT.
Inductive FillPrice := OPEN | CLOSE.
#[export] Instance FillPrice_eq_dec : EqDecision FillPrice. Proof. solve_decision. Defined.

Record CostModel := mkCost {
  commission_per_share : decimal; commission_rate : decimal; min_commission : decimal; half_spread_bps : pyfloat;
  impact_model : ImpactModel; impact_coefficient : pyfloat; vol_lookback : Z }.
Definition make_cost (c : CostModel) : result CostModel :=
  a ← dmin (commission_per_share c) (commission_rate c);
  b ← dmin a (min_commission c);
  neg ← dlt b D_ZERO;
  guard_raise neg ConfigError (u "commissions must be non-negative");;
  guard_raise (negb (is_finite_float (half_spread_bps c)) || float_ltb (half_spread_bps c) f0) ConfigError
    (u "half_spread_bps must be finite and non-negative");;
  guard_raise (negb (is_finite_float (impact_coefficient c)) || float_ltb (impact_coefficient c) f0) ConfigError
    (u "impact_coefficient must be finite and non-negative");;
  guard_raise (vol_lookback c <? 2) ConfigError (u "vol_lookback must be >= 2");;
  Ok c.

Record ExecutionConfig := mkExecution {
  latency_ns : Z; latency_jitter_ns : Z; participation_cap : pyfloat; collar_bps : option pyfloat;
  fill_price : FillPrice; default_ttl_ns : option Z; allow_short : bool; enforce_cash : bool;
  omega_threshold : option pyfloat }.
Definition make_execution (c : ExecutionConfig) : result ExecutionConfig :=
  guard_raise ((latency_ns c <? 0) || (latency_jitter_ns c <? 0)) ConfigError (u "latency must be non-negative");;
  guard_raise (negb (float_ltb f0 (participation_cap c) && float_leb (participation_cap c) f1)) ConfigError
    (u "participation_cap must be in (0, 1]");;
  guard_raise (match collar_bps c with Some x => float_leb x f0 | None => false end) ConfigError
    (u "collar_bps must be positive when given");;
  guard_raise (match default_ttl_ns c with Some n => n <=? 0 | None => false end) ConfigError
    (u "default_ttl_ns must be positive when given");;
  guard_raise (match omega_threshold c with Some x => negb (in_unit x) | None => false end) ConfigError
    (u "omega_threshold must be within [0, 1]");;
  Ok c.

Record PendingOrder := mkOrder {
  order_id : Z; intent : OrderIntent; created_ts_ns : Z; eligible_ts_ns : Z; expires_ts_ns : option Z;
  decision_price : pyfloat; remaining : decimal; o_regime : RegimeLabel }.
Definition with_remaining (left_ : decimal) (o : PendingOrder) : PendingOrder :=
  mkOrder (order_id o) (intent o) (created_ts_ns o) (eligible_ts_ns o) (expires_ts_ns o) (decision_price o) left_ (o_regime o).

Record FillAttempt := mkAttempt {
  at_fill : option Fill; at_order : option PendingOrder; at_rejection : option Rejection }.

Definition reference_price (b : Bar) (mode : FillPrice) : pyfloat :=
  if bool_decide (mode = OPEN) then b_open b else b_close b.

Definition commission (cost : CostModel) (quantity notional : decimal) : result decimal :=
  a ← dmul quantity (commission_per_share cost);
  b ← dmul notional (commission_rate cost);
  fee ← dadd a b;
  dmax fee (min_commission cost).

Definition _reject (o : PendingOrder) (ts : Z) (reason : pystr) : FillAttempt :=
  mkAttempt None None (Some (mkRejection (order_id o) (o_symbol (intent o)) ts reason (remaining o))).

(** The largest quantity the inventory allows, or a terminal rejection. *)
Definition _validate_side (o : PendingOrder) (position : decimal) (cfg : ExecutionConfig) (ts : Z)
  : result (decimal + FillAttempt) :=
  match o_side (intent o) with
  | SELL =>
      flat ← dle position D_ZERO;
      if flat : bool then Ok (inr (_reject o ts (u "no_long_position")))
      else q ← dmin (remaining o) position; Ok (inl q)
  | SELL_SHORT =>
      if negb (allow_short cfg) then Ok (inr (_reject o ts (u "shorting_disabled")))
      else
        long ← dgt position D_ZERO;
        if long : bool then Ok (inr (_reject o ts (u "short_while_long"))) else Ok (inl (remaining o))
  | BUY => Ok (inl (remaining o))
  end.

Definition _limit_ok (i : OrderIntent) (price : decimal) : result bool :=
  match o_price_limit i with
  | None => Ok true
  | Some l => if bool_decide (o_side i = BUY) then dle price l else dge price l
  end.

Section engine.
Context `{Numpy, Statistics}.
(** [np.std(np.diff(np.log(closes)), ddof=1)]. *)
Context (log_return_std : list pyfloat → pyfloat).

Definition bar_sigma (closes : list pyfloat) (b : Bar) : pyfloat :=
  if (3 <=? length closes)%nat then log_return_std closes
  else float_div (float_sub (b_high b) (b_low b)) (b_close b).

Definition slippage_fraction (cost : CostModel) (quantity volume sigma : pyfloat) : result pyfloat :=
  let frac := float_mul (half_spread_bps cost) BPS in
  let participation := if float_ltb f0 volume then float_div quantity volume else f0 in
  match impact_model cost with
  | IMPACT_NONE => Ok frac
  | IMPACT_LINEAR => Ok (float_add frac (float_mul (impact_coefficient cost) participation))
  | IMPACT_SQRT =>
      root ← float_sqrt participation;
      Ok (float_add frac (float_mul (float_mul (impact_coefficient cost) sigma) root))
  end.

Definition attempt_fill (o : PendingOrder) (b : Bar) (closes : list pyfloat) (capacity_left position cash : decimal)
    (cost : CostModel) (cfg : ExecutionConfig) : result FillAttempt :=
  side ← _validate_side o position cfg (timestamp_ns b);
  match side with
  | inr terminal => Ok terminal
  | inl max_qty =>
      let ref := reference_price b (fill_price cfg) in
      let off_collar :=
        match collar_bps cfg with
        | Some c => float_ltb (float_mul c BPS) (float_abs (float_sub (float_div ref (decision_price o)) f1))
        | None => false
        end in
      if off_collar then Ok (_reject o (timestamp_ns b) (u "price_collar"))
      else
        qty ← dmin max_qty capacity_left;
        none ← dle qty D_ZERO;
        if none : bool then Ok (mkAttempt None (Some o) None)
        else
          let buy := bool_decide (o_side (intent o) = BUY) in
          slip ← slippage_fraction cost (float_of_dec qty) (b_volume b) (bar_sigma closes b);
          let adverse := float_mul (if buy then f1 else float_neg f1) slip in
          let price := to_decimal (float_max (float_mul ref (float_add f1 adverse)) (fl "1e-6")) in
          fine ← _limit_ok (intent o) price;
          if negb fine then Ok (mkAttempt None (Some o) None)
          else
            notional ← dmul qty price;
            fee ← commission cost qty notional;
            poor ← (if enforce_cash cfg && buy then
                      covered ← dge position D_ZERO;
                      if covered : bool then needed ← dadd notional fee; dlt cash needed else Ok false
                    else Ok false);
            if poor : bool then Ok (_reject o (timestamp_ns b) (u "insufficient_cash"))
            else
              left_ ← dsub (remaining o) qty;
              more ← dgt left_ D_ZERO;
              Ok (mkAttempt
                    (Some (mkFill (order_id o) (o_symbol (intent o)) (o_side (intent o)) qty price (to_decimal ref) fee
                             (timestamp_ns b) (created_ts_ns o) (o_regime o) (o_tag (intent o))))
                    (if more : bool then Some (with_remaining left_ o) else None) None)
  end.

(** ** The engine ([engine.py]) *)

Record BacktestConfig := mkBacktest {
  c_initial_cash : decimal; cost : CostModel; execution : ExecutionConfig; metrics_config : MetricsConfig;
  trading_start_ts_ns : option Z;
  regime_symbol : option pystr; c_check_invariants : bool }.
Definition make_backtest (c : BacktestConfig) : result BacktestConfig :=
  bad ← dle (c_initial_cash c) D_ZERO;
  guard_raise bad ConfigError (u "initial_cash must be positive");; Ok c.

(** [draws]: how many jitters the generator has given. *)
Record RunState := mkRun {
  portfolio : Portfolio; marks : Marks; pending : list PendingOrder; fills : list Fill; trades : list ClosedTrade;
  rejections : list Rejection; abstained : list OrderIntent; next_order_id : Z; draws : nat }.

(** The smallest key. *)
Fixpoint min_key {A} (k : pystr) (m : list (pystr * A)) : pystr :=
  match m with [] => k | (k', _) :: m => min_key (if str_ltb k' k then k' else k) m end.
Definition _event_regime (ev : FeedEvent) (sym : option pystr) : Z :=
  match sym with
  | Some sym => match get (new_bars ev) sym with Some b => regime_number (b_regime b) | None => 0 end
  | None =>
      match new_bars ev with
      | [] => 0
      | (k, _) :: m => match get (new_bars ev) (min_key k m) with Some b => regime_number (b_regime b) | None => 0 end
      end
  end.

(** The loop's local variables: the capacity left per symbol, the orders still open. *)
Record PendingLoop := mkLoop { run_state : RunState; capacity : list (pystr * decimal); still_open : list PendingOrder }.

Definition record_attempt (st : RunState) (a : FillAttempt) : result RunState :=
  let rejections := match at_rejection a with Some r => rejections st ++ [r] | None => rejections st end in
  match at_fill a with
  | None => Ok (mkRun (portfolio st) (marks st) (pending st) (fills st) (trades st) rejections (abstained st) (next_order_id st) (draws st))
  | Some f =>
      '(pf, closed) ← apply_fill (portfolio st) f;
      Ok (mkRun pf (marks st) (pending st) (fills st ++ [f]) (trades st ++ closed) rejections (abstained st) (next_order_id st) (draws st))
  end.

Definition process_one (ev : FeedEvent) (cfg : BacktestConfig) (l : PendingLoop) (o : PendingOrder) : result PendingLoop :=
  let st := run_state l in
  let sym := o_symbol (intent o) in
  if match expires_ts_ns o with Some e => e <? ev_ts ev | None => false end then
    let r := mkRejection (order_id o) sym (ev_ts ev) (u "expired") (remaining o) in
    Ok (mkLoop (mkRun (portfolio st) (marks st) (pending st) (fills st) (trades st) (rejections st ++ [r]) (abstained st)
                  (next_order_id st) (draws st)) (capacity l) (still_open l))
  else
    match get (new_bars ev) sym with
    | None => Ok (mkLoop st (capacity l) (still_open l ++ [o]))
    | Some b =>
        if (ev_ts ev <=? created_ts_ns o) || (ev_ts ev <? eligible_ts_ns o) then
          Ok (mkLoop st (capacity l) (still_open l ++ [o]))
        else
          caps ← (match get (capacity l) sym with
                  | Some _ => Ok (capacity l)
                  | None => cap ← float_trunc (float_mul (b_volume b) (participation_cap (execution cfg)));
                            Ok (dict_set (capacity l) sym (D cap))
                  end);
          let left_ := default D_ZERO (get caps sym) in
          h ← history (view ev) sym;
          cs ← closes h (Some (vol_lookback (cost cfg) + 1));
          let position := match get (positions (portfolio st)) sym with Some p => p_quantity p | None => D_ZERO end in
          attempt ← attempt_fill o b cs left_ position (cash (portfolio st)) (cost cfg) (execution cfg);
          caps ← (match at_fill attempt with
                  | Some f => c ← dsub left_ (f_quantity f); Ok (dict_set caps sym c)
                  | None => Ok caps end);
          st ← record_attempt st attempt;
          Ok (mkLoop st caps (match at_order attempt with Some o => still_open l ++ [o] | None => still_open l end))
    end.

Definition set_pending (ps : list PendingOrder) (st : RunState) : RunState :=
  mkRun (portfolio st) (marks st) ps (fills st) (trades st) (rejections st) (abstained st) (next_order_id st) (draws st).
Definition _process_pending (st : RunState) (ev : FeedEvent) (cfg : BacktestConfig) : result RunState :=
  l ← foldR (process_one ev cfg) (mkLoop st [] []) (pending st);
  Ok (set_pending (still_open l) (run_state l)).

(** [rng.integers(0, jitter + 1)], the n-th draw. *)
Context (rng : nat → Z).

Definition enqueue_one (ev : FeedEvent) (cfg : BacktestConfig) (st : RunState) (i : OrderIntent) : result RunState :=
  let ex := execution cfg in
  h ← history (view ev) (o_symbol i);
  last_ ← latest h;
  if match omega_threshold ex, o_omega i with Some t, Some x => float_ltb x t | _, _ => false end then
    Ok (mkRun (portfolio st) (marks st) (pending st) (fills st) (trades st) (rejections st) (abstained st ++ [i])
          (next_order_id st) (draws st))
  else
    let oid := next_order_id st in
    match last_ with
    | None =>
        Ok (mkRun (portfolio st) (marks st) (pending st) (fills st) (trades st)
              (rejections st ++ [mkRejection oid (o_symbol i) (ev_ts ev) (u "no_market_data") (o_quantity i)])
              (abstained st) (oid + 1) (draws st))
    | Some b =>
        let jitter := if latency_jitter_ns ex =? 0 then 0 else rng (draws st) in
        let ttl := match o_valid_for_ns i with Some n => Some n | None => default_ttl_ns ex end in
        let o := mkOrder oid i (ev_ts ev) (ev_ts ev + latency_ns ex + jitter)
                   (match ttl with Some n => Some (ev_ts ev + n) | None => None end) (b_close b) (o_quantity i) (b_regime b) in
        Ok (mkRun (portfolio st) (marks st) (pending st ++ [o]) (fills st) (trades st) (rejections st) (abstained st) (oid + 1)
              (if latency_jitter_ns ex =? 0 then draws st else S (draws st)))
    end.
Definition _enqueue (st : RunState) (intents : list OrderIntent) (ev : FeedEvent) (cfg : BacktestConfig) : result RunState :=
  foldR (enqueue_one ev cfg) st intents.

Definition _update_marks (m : Marks) (bars : list (pystr * Bar)) : Marks :=
  foldl (λ m kb, dict_set m kb.1 (to_decimal (b_close kb.2))) m bars.
Definition set_marks (m : Marks) (st : RunState) : RunState :=
  mkRun (portfolio st) m (pending st) (fills st) (trades st) (rejections st) (abstained st) (next_order_id st) (draws st).

Record EquityPoint := mkPoint { e_ts_ns : Z; e_equity : pyfloat; e_gross : pyfloat; e_regime : Z }.

(** A strategy: its memory and what it returns for a view and a snapshot. *)
Context {S : Type} (strategy : S → MarketView → PortfolioSnapshot → result (list OrderIntent * S)).

Record Run := mkRunning { state : RunState; memory : S; curve : list EquityPoint }.

Definition on_event (cfg : BacktestConfig) (r : Run) (ev : FeedEvent) : result Run :=
  let st := set_marks (_update_marks (marks (state r)) (new_bars ev)) (state r) in
  if match trading_start_ts_ns cfg with Some start => ev_ts ev <? start | None => false end then
    Ok (mkRunning st (memory r) (curve r))
  else
    st ← _process_pending st ev cfg;
    (if c_check_invariants cfg then check_invariants (portfolio st) (marks st) else Ok tt);;
    eq ← equity (portfolio st) (marks st);
    gross ← gross_exposure (portfolio st) (marks st);
    let point := mkPoint (ev_ts ev) (float_of_dec eq) (float_of_dec gross) (_event_regime ev (regime_symbol cfg)) in
    snap ← snapshot (portfolio st) (ev_ts ev) (marks st);
    '(intents, mem) ← strategy (memory r) (view ev) snap;
    st ← _enqueue st intents ev cfg;
    Ok (mkRunning st mem (curve r ++ [point])).

Definition run_events (cfg : BacktestConfig) (r : Run) (evs : list FeedEvent) : result Run := foldR (on_event cfg) r evs.
Definition initial_run (cfg : BacktestConfig) (s0 : S) : result Run :=
  pf ← new (c_initial_cash cfg);
  Ok (mkRunning (mkRun pf [] [] [] [] [] [] 1 0) s0 []).

Record BacktestResult := mkResult { res_run : Run; final_equity : decimal; res_metrics : Metrics }.
Definition res_fills (r : BacktestResult) : list Fill := fills (state (res_run r)).
Definition res_trades (r : BacktestResult) : list ClosedTrade := trades (state (res_run r)).
Definition res_rejections (r : BacktestResult) : list Rejection := rejections (state (res_run r)).
Definition res_equity (r : BacktestResult) : list EquityPoint := curve (res_run r).
Definition _finish (cfg : BacktestConfig) (r : Run) : result BacktestResult :=
  let pf := portfolio (state r) in
  m ← compute_metrics (e_ts_ns <$> curve r) (e_equity <$> curve r) (e_gross <$> curve r) (trades (state r))
        (traded_notional pf) (metrics_config cfg);
  final ← equity pf (marks (state r));
  Ok (mkResult r final m).
Definition run_backtest (d : MarketData) (s0 : S) (cfg : BacktestConfig) : result BacktestResult :=
  r ← initial_run cfg s0;
  evs ← events d;
  r ← run_events cfg r evs;
  _finish cfg r.
End engine.

(** ** Reference strategies ([strategies.py]) *)

(** [Decimal(str(x))] of a finite float. *)
Definition dec_of_float (x : pyfloat) : decimal :=
  match x with
  | FFin m e => default DNaN (dec_of_str (fin_text m e))
  | FInf neg => DInf neg
  | FNaN => DNaN
  end.

Section strategies.
(** [int(d)] of a decimal. *)
Definition dec_trunc (d : decimal) : result Z :=
  match d with
  | DFin c e => Ok (if 0 <=? e then c * 10 ^ e else c ÷ 10 ^ (- e))
  | DInf _ => raise (OtherError (u "OverflowError")) (u "cannot convert Infinity to integer")
  | DNaN => raise ValueError (u "cannot convert NaN to integer")
  end.
(** [OrderIntent.of(symbol, side, qty)] of an integer or a Decimal. *)
Definition intent_of (sym : pystr) (side : Side) (q : decimal) : result OrderIntent :=
  make_intent (mkIntent sym side q None None None []).
Definition size_order (fraction equity : decimal) (close : pyfloat) : result Z :=
  a ← dmul fraction equity; q ← ddiv a (dec_of_float close); dec_trunc q.

(** [buy_and_hold] under [_once_only]: the memory says whether it has bought. *)
Definition buy_and_hold (sym : pystr) (fraction : decimal) (done : bool) (v : MarketView) (p : PortfolioSnapshot)
  : result (list OrderIntent * bool) :=
  if done then Ok ([], true)
  else
    last_ ← view_latest v sym;
    match last_ with
    | None => Ok ([], false)
    | Some b =>
        if negb (deq (quantity_of p sym) D_ZERO) then Ok ([], false)
        else
          qty ← size_order fraction (sn_equity p) (b_close b);
          if 0 <? qty then i ← intent_of sym BUY (D qty); Ok ([i], true) else Ok ([], false)
    end.

(** The parameters [sma_crossover] accepts. *)
Definition sma_parameters (fast slow : Z) : result unit :=
  guard_raise (negb ((0 <? fast) && (fast <? slow))) ValueError (u "require 0 < fast < slow").
(** [closes[-fast:].mean() > closes.mean()] by numpy's mean. *)
Context (mean : list pyfloat → pyfloat).
Definition sma_crossover (sym : pystr) (fast slow : Z) (fraction : decimal) (_ : unit) (v : MarketView)
    (p : PortfolioSnapshot) : result (list OrderIntent * unit) :=
  h ← history v sym;
  if Z.of_nat (h_end h) <? slow then Ok ([], tt)
  else
    last_ ← latest h;
    match last_ with
    | None => Ok ([], tt)
    | Some b =>
        cs ← closes h (Some slow);
        let recent := drop (length cs - Z.to_nat fast) cs in
        let bullish := float_ltb (mean cs) (mean recent) in
        let held := quantity_of p sym in
        if bullish && deq held D_ZERO then
          qty ← size_order fraction (sn_equity p) (b_close b);
          if 0 <? qty then i ← intent_of sym BUY (D qty); Ok ([i], tt) else Ok ([], tt)
        else
          long ← (if bullish then Ok false else dgt held D_ZERO);
          if long : bool then i ← intent_of sym SELL held; Ok ([i], tt) else Ok ([], tt)
    end.
End strategies.
