(* ===== verification/BtCausal.v ===== *)
(** * Backtesting: no look-ahead

    What a run does up to a time depends only on the data up to that time: views of two markets that
    agree so far are equal to every accessor, the engine cannot tell them apart, and neither can a
    strategy that uses the accessors. *)
From Stdlib Require Import Sorted.
From stdpp Require Import sorting.
From S2P Require Import Prelude PyStr PyDecimal PyFloat BtData BtPortfolio BtMetrics BtEngine.

(** ** Lists that only grow *)

Definition extends {A} (P : A → Prop) (l l' : list A) : Prop := ∃ k, l' = l ++ k ∧ Forall P k.
#[export] Instance extends_preorder {A} (P : A → Prop) : PreOrder (extends P).
Proof.
  split; [intros l; exists []; by rewrite app_nil_r|].
  intros l1 l2 l3 (k & -> & Hk) (k' & -> & Hk'). exists (k ++ k'). by rewrite app_assoc, Forall_app.
Qed.
Lemma extends_snoc {A} (P : A → Prop) l x : P x → extends P l (l ++ [x]).
Proof. intros Hx. exists [x]. by repeat constructor. Qed.
Lemma extends_impl {A} (P Q : A → Prop) l l' : (∀ x, P x → Q x) → extends P l l' → extends Q l l'.
Proof. intros H (k & -> & Hk). exists k. split; [done|]. by eapply Forall_impl. Qed.
Lemma extends_Forall {A} (P : A → Prop) l l' : Forall P l → extends P l l' → Forall P l'.
Proof. intros Hl (k & -> & Hk). by apply Forall_app. Qed.

(** ** Views that cannot be told apart *)

Record same_prefix (n : nat) (s1 s2 : SymbolSeries) : Prop := {
  sp_symbol : sr_symbol s1 = sr_symbol s2;
  sp_ts : take n (sr_ts s1) = take n (sr_ts s2);
  sp_open : take n (sr_open s1) = take n (sr_open s2);
  sp_high : take n (sr_high s1) = take n (sr_high s2);
  sp_low : take n (sr_low s1) = take n (sr_low s2);
  sp_close : take n (sr_close s1) = take n (sr_close s2);
  sp_volume : take n (sr_volume s1) = take n (sr_volume s2);
  sp_regime : take n (sr_regime s1) = take n (sr_regime s2) }.

Lemma take_eq_le {A} (l k : list A) n m : (m <= n)%nat → take n l = take n k → take m l = take m k.
Proof.
  intros Hm Hn. apply (f_equal (take m)) in Hn. rewrite !take_take in Hn. by replace (m `min` n)%nat with m in Hn by lia.
Qed.
Lemma same_prefix_le n m s1 s2 : (m <= n)%nat → same_prefix n s1 s2 → same_prefix m s1 s2.
Proof. intros Hm []. by split; eauto using take_eq_le. Qed.
#[export] Instance same_prefix_equiv n : Equivalence (same_prefix n).
Proof.
  split.
  - by intros s.
  - intros s1 s2 []. by split.
  - intros s1 s2 s3 [] []. split; congruence.
Qed.
Lemma take_lookup_eq {A} (l k : list A) n i : take n l = take n k → (i < n)%nat → l !! i = k !! i.
Proof. intros E Hi. by rewrite <- (lookup_take_lt l n i), <- (lookup_take_lt k n i), E by lia. Qed.
Lemma bar_prefix n s1 s2 i : same_prefix n s1 s2 → (i < n)%nat → bar s1 i = bar s2 i.
Proof.
  intros [] Hi. unfold bar.
  by rewrite (take_lookup_eq (sr_ts s1) (sr_ts s2) n i), (take_lookup_eq (sr_open s1) (sr_open s2) n i),
    (take_lookup_eq (sr_high s1) (sr_high s2) n i), (take_lookup_eq (sr_low s1) (sr_low s2) n i),
    (take_lookup_eq (sr_close s1) (sr_close s2) n i), (take_lookup_eq (sr_volume s1) (sr_volume s2) n i),
    (take_lookup_eq (sr_regime s1) (sr_regime s2) n i), sp_symbol0.
Qed.

(** Histories, views and events that show the same. *)
Definition hist_equiv (h1 h2 : SymbolHistory) : Prop :=
  h_end h1 = h_end h2 ∧ h_now h1 = h_now h2 ∧ same_prefix (h_end h1) (h_series h1) (h_series h2).
Definition view_equiv (v1 v2 : MarketView) : Prop :=
  mv_now v1 = mv_now v2 ∧ Forall2 (λ a b, a.1 = b.1 ∧ hist_equiv a.2 b.2) (histories v1) (histories v2).
Definition event_equiv (e1 e2 : FeedEvent) : Prop :=
  ev_ts e1 = ev_ts e2 ∧ new_bars e1 = new_bars e2 ∧ view_equiv (view e1) (view e2).

Section accessors.
Context `{Numpy}.
Context (h1 h2 : SymbolHistory) (E : hist_equiv h1 h2).

Lemma getitem_equiv i : getitem h1 i = getitem h2 i.
Proof.
  destruct E as (Ee & _ & Ep). unfold getitem. rewrite <- Ee. destruct ((_ <=? i) || _) eqn:Eb; [done|].
  apply (bar_prefix (h_end h1)); [done|]. destruct (Z.leb_spec 0 i); lia.
Qed.
Lemma getslice_equiv start stop step : getslice h1 start stop step = getslice h2 start stop step.
Proof.
  destruct E as (Ee & _ & Ep). unfold getslice. rewrite <- Ee. destruct (match stop with Some v => _ | None => false end); [done|].
  destruct (slice_indices _ _ _ _) as [l|] eqn:El; [|done]. apply slice_indices_range in El; [|lia]. cbn.
  clear -El Ep. induction El as [|i l Hi El IH]; [done|]. cbn. rewrite (bar_prefix (h_end h1) (h_series h1) (h_series h2)) by (done || lia).
  by rewrite IH.
Qed.
Lemma latest_equiv : latest h1 = latest h2.
Proof.
  destruct E as (Ee & _ & Ep). unfold latest. rewrite <- Ee. destruct (h_end h1) as [|n] eqn:En; [done|].
  by rewrite (bar_prefix (S n) (h_series h1) (h_series h2)) by (done || lia).
Qed.
Lemma at_time_equiv t : at_time h1 t = at_time h2 t.
Proof.
  destruct E as (Ee & En & Ep). unfold at_time. rewrite <- Ee, <- En. destruct (h_now h1 <? t); [done|].
  rewrite <- (sp_ts _ _ _ Ep). set (idx := searchsorted_left _ t). destruct (Nat.ltb_spec idx (h_end h1)) as [Hi|]; [|done].
  rewrite (take_lookup_eq (sr_ts (h_series h1)) (sr_ts (h_series h2)) (h_end h1) idx) by (done || apply Ep).
  by rewrite (bar_prefix (h_end h1) (h_series h1) (h_series h2)) by done.
Qed.
Lemma sub_column_take {A} lo hi (l : list A) : sub_column lo hi l = drop lo (take hi l).
Proof. unfold sub_column. by rewrite skipn_firstn_comm. Qed.
Lemma closes_equiv n : closes h1 n = closes h2 n.
Proof.
  destruct E as (Ee & _ & Ep). unfold closes, _tail. rewrite <- Ee. destruct (match n with Some n => n <? 0 | None => false end); [done|].
  by rewrite !sub_column_take, (sp_close _ _ _ Ep).
Qed.
Lemma timestamps_equiv n : timestamps h1 n = timestamps h2 n.
Proof. destruct E as (Ee & _ & Ep). unfold timestamps. rewrite <- Ee. by rewrite !sub_column_take, (sp_ts _ _ _ Ep). Qed.
Lemma len_equiv : h_end h1 = h_end h2.
Proof. apply E. Qed.
End accessors.

Lemma history_equiv v1 v2 sym : view_equiv v1 v2 →
  match history v1 sym, history v2 sym with
  | Ok h1, Ok h2 => hist_equiv h1 h2 | Raise e1, Raise e2 => e1 = e2 | _, _ => False end.
Proof.
  intros [_ Hh]. unfold history, get. induction Hh as [|[k1 h1] [k2 h2] l1 l2 [E1 E2] _ IH]; cbn; [done|].
  cbn in E1, E2. subst k2. by destruct (str_eqb sym k1).
Qed.

Lemma get_elem {A} (m : list (pystr * A)) k v : get m k = Some v → (k, v) ∈ m.
Proof.
  unfold get. destruct (List.find _ m) as [[k' v']|] eqn:E; [|done]. intros [= ->].
  apply List.find_some in E as [Hin Hk%str_eqb_true]. cbn in Hk. subst k'. by apply list_elem_of_In.
Qed.

(** Two results of looking at equivalent histories. *)
Lemma bind_history {A} v1 v2 sym (f1 f2 : SymbolHistory → result A) :
  view_equiv v1 v2 → (∀ h1 h2, hist_equiv h1 h2 → f1 h1 = f2 h2) →
  (h ← history v1 sym; f1 h) = (h ← history v2 sym; f2 h).
Proof.
  intros Hv Hf. pose proof (history_equiv v1 v2 sym Hv) as Hh.
  destruct (history v1 sym), (history v2 sym); try done; cbn; [by apply Hf|by rewrite Hh].
Qed.

Lemma view_latest_equiv v1 v2 sym : view_equiv v1 v2 → view_latest v1 sym = view_latest v2 sym.
Proof. intros Hv. apply bind_history; [done|]. apply latest_equiv. Qed.
Lemma view_at_equiv `{Numpy} v1 v2 sym t : view_equiv v1 v2 → view_at v1 sym t = view_at v2 sym t.
Proof. intros Hv. apply bind_history; [done|]. intros h1 h2 Hh. by apply at_time_equiv. Qed.

(** A strategy that cannot tell equivalent views apart. *)
Class PointInTime {S} (strategy : S → MarketView → PortfolioSnapshot → result (list OrderIntent * S)) : Prop :=
  point_in_time_strategy : ∀ s v1 v2 p, view_equiv v1 v2 → strategy s v1 p = strategy s v2 p.

#[export] Instance buy_and_hold_point_in_time sym fraction : PointInTime (buy_and_hold sym fraction).
Proof.
  intros done_ v1 v2 p Hv. unfold buy_and_hold. by rewrite (view_latest_equiv v1 v2 sym Hv).
Qed.
#[export] Instance sma_crossover_point_in_time mean sym fast slow fraction :
  PointInTime (sma_crossover mean sym fast slow fraction).
Proof.
  intros s v1 v2 p Hv. unfold sma_crossover. apply bind_history; [done|].
  intros h1 h2 Hh. by rewrite (latest_equiv h1 h2), (len_equiv h1 h2), (closes_equiv h1 h2).
Qed.

(** ** The engine *)

Section engine.
Context `{Numpy} (log_return_std : list pyfloat → pyfloat) (rng : nat → Z).
Context {S : Type} (strategy : S → MarketView → PortfolioSnapshot → result (list OrderIntent * S)) `{!PointInTime strategy}.

#[local] Abbreviation on_event := (on_event log_return_std rng strategy).
#[local] Abbreviation process_one := (process_one log_return_std).
#[local] Abbreviation enqueue_one := (enqueue_one rng).

Lemma foldR_ext {A B} (f g : B → A → result B) b l : (∀ b a, f b a = g b a) → foldR f b l = foldR g b l.
Proof. intros Hf. revert b. induction l as [|a l IH]; intros b; cbn; [done|]. rewrite Hf. destruct (g b a); cbn; auto. Qed.

Lemma process_one_equiv e1 e2 cfg l o : event_equiv e1 e2 → process_one e1 cfg l o = process_one e2 cfg l o.
Proof.
  intros (Et & Eb & Ev). unfold BtEngine.process_one. rewrite <- Et, <- Eb.
  destruct (match expires_ts_ns o with Some e => e <? ev_ts e1 | None => false end); [done|].
  destruct (get (new_bars e1) (o_symbol (intent o))) as [b|]; [|done].
  destruct ((ev_ts e1 <=? created_ts_ns o) || _); [done|].
  destruct (match get (capacity l) (o_symbol (intent o)) with Some _ => _ | None => _ end) as [caps|]; [|done]. cbn [mbind result_bind].
  apply bind_history; [done|]. intros h1 h2 Hh. by rewrite (closes_equiv h1 h2).
Qed.
Lemma enqueue_one_equiv e1 e2 cfg st i : event_equiv e1 e2 → enqueue_one e1 cfg st i = enqueue_one e2 cfg st i.
Proof.
  intros (Et & _ & Ev). unfold BtEngine.enqueue_one. rewrite <- Et. apply bind_history; [done|].
  intros h1 h2 Hh. by rewrite (latest_equiv h1 h2).
Qed.

Lemma on_event_equiv e1 e2 cfg r : event_equiv e1 e2 → on_event cfg r e1 = on_event cfg r e2.
Proof.
  intros He. pose proof He as (Et & Eb & Ev). unfold BtEngine.on_event. rewrite <- Et, <- Eb.
  destruct (match trading_start_ts_ns cfg with Some start => _ | None => false end); [done|].
  unfold _process_pending. rewrite (foldR_ext (process_one e1 cfg) (process_one e2 cfg)) by (intros; by apply process_one_equiv).
  unfold _event_regime. rewrite <- Eb. unfold _enqueue.
  destruct (foldR _ _ _) as [l|]; [|done]. cbn [mbind result_bind].
  destruct (if c_check_invariants cfg then _ else _) as [[]|]; [|done]. cbn [mbind result_bind].
  destruct (equity _ _) as [eq|]; [|done]. cbn [mbind result_bind]. destruct (gross_exposure _ _) as [gross|]; [|done].
  cbn [mbind result_bind]. destruct (BtPortfolio.snapshot _ _ _) as [snap|]; [|done]. cbn [mbind result_bind].
  rewrite (point_in_time_strategy (memory r) (view e1) (view e2) snap Ev). destruct (strategy _ _ _) as [[intents mem]|]; [|done].
  cbn [mbind result_bind]. by rewrite (foldR_ext (enqueue_one e1 cfg) (enqueue_one e2 cfg)) by (intros; by apply enqueue_one_equiv).
Qed.

Lemma run_events_equiv cfg r evs1 evs2 : Forall2 event_equiv evs1 evs2 →
  run_events log_return_std rng strategy cfg r evs1 = run_events log_return_std rng strategy cfg r evs2.
Proof.
  intros Hev. revert r. induction Hev as [|e1 e2 l1 l2 He _ IH]; intros r; cbn; [done|].
  rewrite (on_event_equiv e1 e2 cfg r He). destruct (on_event cfg r e2); cbn; [apply IH|done].
Qed.

(** ** What an event adds *)

(** A fill made at an event: after its order was placed and its latency has passed, against the bar
    that is new at the event. *)
Definition fill_causal (ev : FeedEvent) (cfg : BacktestConfig) (f : Fill) : Prop :=
  f_timestamp_ns f = ev_ts ev ∧ f_signal_ts_ns f < f_timestamp_ns f
  ∧ f_signal_ts_ns f + latency_ns (execution cfg) <= f_timestamp_ns f
  ∧ ∃ b, get (new_bars ev) (f_symbol f) = Some b
      ∧ f_reference_price f = to_decimal (reference_price b (fill_price (execution cfg))).
Definition order_causal (cfg : BacktestConfig) (o : PendingOrder) : Prop :=
  created_ts_ns o + latency_ns (execution cfg) <= eligible_ts_ns o.
Record appended (ev : FeedEvent) (cfg : BacktestConfig) (st st' : RunState) : Prop := {
  ap_fills : extends (fill_causal ev cfg) (fills st) (fills st');
  ap_trades : extends (λ t, t_exit_ts_ns t = ev_ts ev) (trades st) (trades st');
  ap_rejections : extends (λ r, j_timestamp_ns r = ev_ts ev) (rejections st) (rejections st') }.
#[export] Instance appended_preorder ev cfg : PreOrder (appended ev cfg).
Proof.
  split; [intros st; by split|]. intros s1 s2 s3 [] []. split; etransitivity; eassumption.
Qed.

Definition stamped (ev : FeedEvent) : Prop := ∀ sym b, (sym, b) ∈ new_bars ev → timestamp_ns b = ev_ts ev.

Lemma attempt_fill_inv o b cs cap pos c cm cfg a : attempt_fill log_return_std o b cs cap pos c cm cfg = Ok a →
  match at_fill a with
  | Some f => f_symbol f = o_symbol (intent o) ∧ f_timestamp_ns f = timestamp_ns b ∧ f_signal_ts_ns f = created_ts_ns o
              ∧ f_reference_price f = to_decimal (reference_price b (fill_price cfg))
  | None => True end
  ∧ match at_order a with Some o' => ∃ left_, o' = with_remaining left_ o | None => True end
  ∧ match at_rejection a with Some r => j_timestamp_ns r = timestamp_ns b | None => True end.
Proof.
  assert (Hid : ∃ left_, o = with_remaining left_ o) by (exists (remaining o); by destruct o).
  unfold attempt_fill. intros ([q|terminal] & Hside & Ha)%bind_ok.
  2: { injection Ha as <-. unfold _validate_side in Hside. destruct (o_side (intent o)).
    - done.
    - apply bind_ok in Hside as ([] & _ & Hside); [by simplify_eq|]. by apply bind_ok in Hside as (? & _ & ?).
    - destruct (negb (allow_short cfg)); [by simplify_eq|]. by apply bind_ok in Hside as ([] & _ & Hside); simplify_eq. }
  destruct (match collar_bps cfg with Some x => _ | None => false end); [by injection Ha as <-|].
  apply bind_ok in Ha as (qty & _ & Ha). apply bind_ok in Ha as ([] & _ & Ha); [by injection Ha as <-|].
  apply bind_ok in Ha as (slip & _ & Ha). apply bind_ok in Ha as ([] & _ & Ha); [|by injection Ha as <-].
  cbn [negb] in Ha. apply bind_ok in Ha as (no & _ & Ha). apply bind_ok in Ha as (fee & _ & Ha).
  apply bind_ok in Ha as ([] & _ & Ha); [by injection Ha as <-|].
  apply bind_ok in Ha as (left_ & _ & Ha). apply bind_ok in Ha as (more & _ & Ha). injection Ha as <-. cbn.
  split; [done|]. split; [|done]. destruct more; [by eexists|done].
Qed.

Lemma reduce_exits p f left_ realised closed :
  _reduce p f = Ok (left_, realised, closed) → Forall (λ t, t_exit_ts_ns t = f_timestamp_ns f) closed.
Proof.
  unfold _reduce. intros Hr. repeat (apply bind_ok in Hr as (? & _ & Hr)).
  match type of Hr with (if ?b then _ else _) = _ => destruct b end; [by injection Hr as <- <- <-|].
  apply bind_ok in Hr as (trade & Ht & Hr).
  assert (t_exit_ts_ns trade = f_timestamp_ns f).
  { unfold _trade_from in Ht. apply bind_ok in Ht as (? & _ & Ht). apply bind_ok in Ht as (? & _ & Ht). by injection Ht as <-. }
  apply bind_ok in Hr as (? & _ & Hr). destruct (deq _ _); [injection Hr as <- <- <-; by repeat constructor|].
  apply bind_ok in Hr as (? & _ & Hr). apply bind_ok in Hr as (? & _ & Hr). injection Hr as <- <- <-. by repeat constructor.
Qed.
Lemma apply_fill_exits pf f pf' closed :
  apply_fill pf f = Ok (pf', closed) → Forall (λ t, t_exit_ts_ns t = f_timestamp_ns f) closed.
Proof.
  unfold apply_fill. intros (q & _ & Ha)%bind_ok. apply bind_ok in Ha as (same & _ & Ha).
  apply bind_ok in Ha as ([[ps realised] closed'] & Hc & Ha). repeat (apply bind_ok in Ha as (? & _ & Ha)).
  injection Ha as <- <-. destruct same, (get (positions pf) (f_symbol f)) as [p|];
    try (apply bind_ok in Hc as (? & _ & Hc); by injection Hc as <- <- <-).
  apply bind_ok in Hc as ([[left_ real] cl] & Hr & Hc). injection Hc as _ _ <-. by eapply reduce_exits.
Qed.

Lemma record_appended ev cfg st a st' :
  record_attempt st a = Ok st' →
  match at_fill a with Some f => fill_causal ev cfg f | None => True end →
  match at_rejection a with Some r => j_timestamp_ns r = ev_ts ev | None => True end →
  appended ev cfg st st'.
Proof.
  unfold record_attempt. intros Hr Hf Hj.
  assert (Hrej : extends (λ r, j_timestamp_ns r = ev_ts ev) (rejections st)
            (match at_rejection a with Some r => rejections st ++ [r] | None => rejections st end)).
  { destruct (at_rejection a); [by apply extends_snoc|done]. }
  destruct (at_fill a) as [f|]; [|injection Hr as <-; by split].
  apply bind_ok in Hr as ([pf closed] & Hp & Hr). injection Hr as <-. split; cbn.
  - by apply extends_snoc.
  - exists closed. split; [done|]. apply apply_fill_exits in Hp. destruct Hf as [<- _]. done.
  - done.
Qed.

Lemma process_one_appended ev cfg l o l' :
  stamped ev → order_causal cfg o → Forall (order_causal cfg) (still_open l) → process_one ev cfg l o = Ok l' →
  appended ev cfg (run_state l) (run_state l') ∧ Forall (order_causal cfg) (still_open l').
Proof.
  intros Hst Ho Hopen. unfold BtEngine.process_one.
  assert (Hkeep : Forall (order_causal cfg) (still_open l ++ [o])) by (apply Forall_app; by repeat constructor).
  destruct (match expires_ts_ns o with Some e => e <? ev_ts ev | None => false end).
  { intros [= <-]. split; [|done]. split; cbn; [done|done|by apply extends_snoc]. }
  destruct (get (new_bars ev) (o_symbol (intent o))) as [b|] eqn:Eb; [|by intros [= <-]].
  destruct ((ev_ts ev <=? created_ts_ns o) || _) eqn:Elate; [by intros [= <-]|].
  intros (caps & _ & Hp)%bind_ok. apply bind_ok in Hp as (h & _ & Hp). apply bind_ok in Hp as (cs & _ & Hp).
  apply bind_ok in Hp as (a & Ha & Hp). apply bind_ok in Hp as (caps' & _ & Hp). apply bind_ok in Hp as (st & Hr & Hp).
  injection Hp as <-. cbn. apply attempt_fill_inv in Ha as (Hf & Hord & Hrej).
  assert (Hbt : timestamp_ns b = ev_ts ev) by (apply get_elem in Eb; by apply Hst in Eb).
  split.
  - eapply record_appended; [exact Hr| |].
    + destruct (at_fill a) as [f|]; [|done]. destruct Hf as (E1 & E2 & E3 & E4). unfold order_causal in Ho.
      split; [congruence|]. split; [lia|]. split; [lia|]. exists b. by rewrite E1.
    + destruct (at_rejection a); [|done]. congruence.
  - destruct (at_order a) as [o'|]; [|done]. destruct Hord as (left_ & ->). apply Forall_app. by repeat constructor.
Qed.

Lemma process_pending_appended ev cfg st st' :
  stamped ev → Forall (order_causal cfg) (pending st) → _process_pending log_return_std st ev cfg = Ok st' →
  appended ev cfg st st' ∧ Forall (order_causal cfg) (pending st').
Proof.
  unfold _process_pending. intros Hst Hp (l & Hl & [= <-])%bind_ok.
  assert (H' : appended ev cfg st (run_state l) ∧ Forall (order_causal cfg) (still_open l)).
  { revert Hl. apply (foldR_inv_elem (λ l, appended ev cfg st (run_state l) ∧ Forall (order_causal cfg) (still_open l))); [by split|].
    intros l1 o l2 Hin [Ha Ho] H1. rewrite Forall_forall in Hp. destruct (process_one_appended ev cfg l1 o l2 Hst (Hp o Hin) Ho H1) as [Ha' Ho'].
    split; [by etransitivity|done]. }
  destruct H' as [[] Ho]. by split; [split|].
Qed.

Context (rng_nonneg : ∀ n, 0 <= rng n).

Lemma enqueue_one_appended ev cfg st i st' :
  Forall (order_causal cfg) (pending st) → enqueue_one ev cfg st i = Ok st' →
  appended ev cfg st st' ∧ Forall (order_causal cfg) (pending st').
Proof.
  unfold BtEngine.enqueue_one. intros Hp (h & _ & He)%bind_ok. apply bind_ok in He as (last_ & _ & He).
  destruct (match omega_threshold _, o_omega i with Some t, Some x => float_ltb x t | _, _ => false end); [injection He as <-; by split; [split|]|].
  destruct last_ as [b|]; injection He as <-.
  - split; [by split|]. cbn. apply Forall_app. split; [done|]. constructor; [|done]. unfold order_causal. cbn.
    pose proof (rng_nonneg (draws st)). destruct (latency_jitter_ns _ =? 0); lia.
  - split; [|done]. split; cbn; [done|done|by apply extends_snoc].
Qed.

(** What an event leaves of a run. *)
Definition run_ok (cfg : BacktestConfig) (r : Run (S:=S)) : Prop := Forall (order_causal cfg) (pending (state r)).
Lemma on_event_appended cfg r ev r' :
  stamped ev → run_ok cfg r → on_event cfg r ev = Ok r' →
  appended ev cfg (state r) (state r') ∧ extends (λ p, e_ts_ns p = ev_ts ev) (curve r) (curve r') ∧ run_ok cfg r'.
Proof.
  intros Hst Hr. unfold BtEngine.on_event. set (st0 := set_marks _ _).
  assert (H0 : appended ev cfg (state r) st0) by by split.
  destruct (match trading_start_ts_ns cfg with Some start => _ | None => false end); [intros [= <-]; by ands|].
  intros (st1 & H1 & He)%bind_ok. apply process_pending_appended in H1 as [H1 Hp1]; [|done|done].
  apply bind_ok in He as ([] & _ & He). apply bind_ok in He as (eq & _ & He). apply bind_ok in He as (gross & _ & He).
  apply bind_ok in He as (snap & _ & He). apply bind_ok in He as ([intents mem] & _ & He).
  apply bind_ok in He as (st2 & H2 & He). injection He as <-. cbn. unfold _enqueue in H2.
  assert (H' : appended ev cfg (state r) st2 ∧ Forall (order_causal cfg) (pending st2)).
  { revert H2. apply (foldR_inv (λ st, appended ev cfg (state r) st ∧ Forall (order_causal cfg) (pending st))).
    - split; [|done]. by transitivity st0.
    - intros s i s' [Ha Ho] Hs. apply enqueue_one_appended in Hs as [Ha' Ho']; [|done]. split; [by etransitivity|done]. }
  destruct H' as [Ha Ho]. split; [done|]. split; [by apply extends_snoc|done].
Qed.
End engine.

(** ** Markets that agree until a time *)

(** How many bars of a series are stamped no later than [T]. *)
Definition known (T : Z) (s : SymbolSeries) : nat := length (filter (λ t, t ≤ T) (sr_ts s)).
Definition agree_until (T : Z) (s1 s2 : SymbolSeries) : Prop :=
  known T s1 = known T s2 ∧ same_prefix (known T s1) s1 s2.
Definition markets_agree (T : Z) (d1 d2 : MarketData) : Prop :=
  Forall2 (λ a b, a.1 = b.1 ∧ agree_until T a.2 b.2) (md_series d1) (md_series d2).

Section feed.
Context `{NumpyLaws} (T : Z).

Lemma known_lookup s k x : validated s → sr_ts s !! k = Some x → (k < known T s)%nat ↔ x <= T.
Proof.
  intros (_ & _ & _ & _ & _ & _ & _ & Hs & _)%validated_inv. apply (prefix_count (λ t, t ≤ T)); [by apply sorted_lt_le|]. cbn. lia.
Qed.

(** Two cursors on series that agree until [T], at the same place, not past it. *)
Definition cursors_agree (sc1 sc2 : SymbolSeries * nat) : Prop :=
  validated sc1.1 ∧ validated sc2.1 ∧ agree_until T sc1.1 sc2.1 ∧ sc1.2 = sc2.2 ∧ (sc1.2 <= known T sc1.1)%nat.

Lemma advance_agree t sc1 sc2 m1 m2 : t <= T → cursors_agree sc1 sc2 →
  advance t sc1 = Ok m1 → advance t sc2 = Ok m2 → m1.1 = m2.1 ∧ cursors_agree m1.2 m2.2.
Proof.
  intros Ht (V1 & V2 & [Ek Hp] & Ei & Hi). destruct sc1 as [s1 i], sc2 as [s2 i2]. cbn [fst snd] in *. subst i2. unfold advance.
  assert (Hsame : sr_ts s1 !! i = Some t ↔ sr_ts s2 !! i = Some t).
  { assert (Hin : ∀ s, validated s → sr_ts s !! i = Some t → (i < known T s)%nat) by (intros s Hv E; by apply (known_lookup s i t Hv E)).
    split; intros E.
    - rewrite <- (take_lookup_eq (sr_ts s1) (sr_ts s2) (known T s1) i); [done|by apply Hp|by apply Hin].
    - rewrite (take_lookup_eq (sr_ts s1) (sr_ts s2) (known T s1) i); [done|by apply Hp|]. rewrite Ek. by apply Hin. }
  destruct (bool_decide (sr_ts s1 !! i = Some t)) eqn:E1.
  - apply bool_decide_eq_true in E1. pose proof (proj1 Hsame E1) as E2. rewrite (bool_decide_eq_true_2 _ E2).
    pose proof (proj2 (known_lookup s1 i t V1 E1) Ht) as Hlt. rewrite (bar_prefix _ s1 s2 i Hp Hlt).
    intros (b & Hb & [= <-])%bind_ok (b' & Hb' & [= <-])%bind_ok. rewrite Hb in Hb'. injection Hb' as <-. by ands.
  - apply bool_decide_eq_false in E1. rewrite bool_decide_eq_false_2 by tauto. intros [= <-] [= <-]. by ands.
Qed.

Lemma feed_event_agree t c1 c2 p1 p2 : t <= T → Forall2 cursors_agree c1 c2 →
  feed_event t c1 = Ok p1 → feed_event t c2 = Ok p2 → event_equiv p1.1 p2.1 ∧ Forall2 cursors_agree p1.2 p2.2.
Proof.
  unfold feed_event. intros Ht Hc (m1 & Hm1%mapR_Ok & [= <-])%bind_ok (m2 & Hm2%mapR_Ok & [= <-])%bind_ok. cbn.
  assert (Hm : Forall2 (λ a b, a.1 = b.1 ∧ cursors_agree a.2 b.2) m1 m2).
  { revert m1 m2 Hm1 Hm2. induction Hc as [|sc1 sc2 c1 c2 Hsc _ IH]; intros m1 m2 Hm1 Hm2;
      inversion Hm1; subst; inversion Hm2; subst; constructor; [by eapply advance_agree|by apply IH]. }
  clear -Hm. split; [split; [done|split; [|split; [done|]]]|].
  - cbn. induction Hm as [|[ob1 sc1] [ob2 sc2] m1 m2 [E Hsc] _ IH]; cbn; [done|]. cbn in E, Hsc. subst ob2.
    destruct Hsc as (_ & _ & [_ Hp] & _). destruct ob1; cbn; [|done]. by rewrite (sp_symbol _ _ _ Hp), IH.
  - cbn. induction Hm as [|[ob1 sc1] [ob2 sc2] m1 m2 [_ Hsc] _ IH]; cbn; constructor; [|done]. cbn in Hsc.
    destruct Hsc as (_ & _ & [_ Hp] & Ei & Hle). split; [apply Hp|]. split; [done|]. split; [done|]. by eapply same_prefix_le.
  - induction Hm as [|a b m1 m2 [_ Hsc] _ IH]; cbn; by constructor.
Qed.

Lemma feed_from_agree ts rest1 rest2 c1 c2 evs1 evs2 : Forall (λ t, t <= T) ts → Forall2 cursors_agree c1 c2 →
  feed_from (ts ++ rest1) c1 = Ok evs1 → feed_from (ts ++ rest2) c2 = Ok evs2 →
  Forall2 event_equiv (take (length ts) evs1) (take (length ts) evs2).
Proof.
  intros Hts. revert c1 c2 evs1 evs2. induction Hts as [|t ts Ht _ IH]; intros c1 c2 evs1 evs2 Hc; cbn; [by constructor|].
  intros ([ev1 k1] & H1 & F1)%bind_ok ([ev2 k2] & H2 & F2)%bind_ok.
  destruct (feed_event_agree t c1 c2 _ _ Ht Hc H1 H2) as [He Hk].
  apply bind_ok in F1 as (l1 & F1 & [= <-]). apply bind_ok in F2 as (l2 & F2 & [= <-]). cbn. constructor; [done|]. by eapply IH.
Qed.

Lemma sorted_lt_unique l k : StronglySorted Z.lt l → StronglySorted Z.lt k → (∀ x, x ∈ l ↔ x ∈ k) → l = k.
Proof.
  intros Hl Hk Hx. apply (StronglySorted_unique Z.le); [by apply sorted_lt_le..|].
  assert (Hnd : ∀ l, StronglySorted Z.lt l → NoDup l).
  { clear. induction 1 as [|x l Hs IH Hx]; constructor; [|done]. intros Hin. rewrite Forall_forall in Hx. specialize (Hx x Hin). lia. }
  apply NoDup_Permutation; auto.
Qed.
Lemma sorted_filter l : StronglySorted Z.lt l → StronglySorted Z.lt (filter (λ t, t ≤ T) l).
Proof.
  induction 1 as [|x l Hs IH Hx]; [constructor|]. rewrite filter_cons. case_decide; [|done]. constructor; [done|].
  rewrite Forall_forall in Hx |- *. intros y [_ Hy]%list_elem_of_filter. by apply Hx.
Qed.
Lemma sorted_split l : StronglySorted Z.lt l → l = filter (λ t, t ≤ T) l ++ filter (λ t, ¬ (t ≤ T)) l.
Proof.
  induction 1 as [|x l Hs IH Hx]; [done|]. destruct (decide (x ≤ T)) as [Hle|Hgt].
  - rewrite filter_cons_True, filter_cons_False by tauto. cbn. by rewrite <- IH.
  - rewrite filter_cons_False, filter_cons_True by tauto. rewrite Forall_forall in Hx.
    assert (E : filter (λ t, t ≤ T) l = []).
    { apply elem_of_nil_inv. intros y [Hy Hin]%list_elem_of_filter. specialize (Hx y Hin). lia. }
    rewrite E in IH |- *. cbn in *. by rewrite <- IH.
Qed.

Lemma agree_elem s1 s2 t : validated s1 → validated s2 → agree_until T s1 s2 → t ≤ T → t ∈ sr_ts s1 → t ∈ sr_ts s2.
Proof.
  intros V1 V2 [Ek Hp] Ht (k & Hk)%list_elem_of_lookup. pose proof (proj2 (known_lookup s1 k t V1 Hk) Ht) as Hlt.
  rewrite (take_lookup_eq (sr_ts s1) (sr_ts s2) (known T s1) k) in Hk; [by eapply list_elem_of_lookup_2|by apply Hp|done].
Qed.
#[export] Instance agree_until_sym : Symmetric (agree_until T).
Proof. intros s1 s2 [E Hp]. split; [done|]. rewrite <- E. by symmetry. Qed.

Lemma timelines_agree d1 d2 : market_ok d1 → market_ok d2 → markets_agree T d1 d2 →
  filter (λ t, t ≤ T) (timeline d1) = filter (λ t, t ≤ T) (timeline d2).
Proof.
  intros [Ser1 _ S1 M1] [Ser2 _ S2 M2] Ha.
  assert (Hsub : ∀ da db t, Forall (λ kv, kv.1 = sr_symbol kv.2 ∧ validated kv.2) (md_series da) →
    Forall (λ kv, kv.1 = sr_symbol kv.2 ∧ validated kv.2) (md_series db) → markets_agree T da db →
    t ≤ T → (∃ s, s ∈ (md_series da).*2 ∧ t ∈ sr_ts s) → ∃ s, s ∈ (md_series db).*2 ∧ t ∈ sr_ts s).
  { clear. intros da db t Sa Sb Hab Ht (s & Hin & Hts). apply list_elem_of_fmap in Hin as (kv & -> & Hin).
    apply list_elem_of_lookup in Hin as (i & Hi). destruct (Forall2_lookup_l _ _ _ _ _ Hab Hi) as (kv' & Hi' & _ & Hag).
    exists kv'.2. split; [apply list_elem_of_fmap; exists kv'; split; [done|by eapply list_elem_of_lookup_2]|].
    apply (agree_elem kv.2); [| |done..]; [eapply Forall_lookup_1 in Sa as [_ ?]|eapply Forall_lookup_1 in Sb as [_ ?]]; done. }
  apply sorted_lt_unique; [by apply sorted_filter..|]. intros t. rewrite !list_elem_of_filter, M1, M2.
  split; intros [Ht Hs]; (split; [done|]); [by apply (Hsub d1 d2)|apply (Hsub d2 d1); [done..| |done|done]].
  unfold markets_agree. eapply Forall2_flip, Forall2_impl; [exact Ha|]. cbn. intros a b [-> ?]. by symmetry in H1.
Qed.

Lemma filter_below l : Forall (λ t, t <= T) (filter (λ t, t ≤ T) l).
Proof. apply Forall_forall. by intros t [? _]%list_elem_of_filter. Qed.
Lemma cursors_start d1 d2 : Forall (λ kv, kv.1 = sr_symbol kv.2 ∧ validated kv.2) (md_series d1) →
  Forall (λ kv, kv.1 = sr_symbol kv.2 ∧ validated kv.2) (md_series d2) → markets_agree T d1 d2 →
  Forall2 cursors_agree ((λ kv, (kv.2, 0%nat)) <$> md_series d1) ((λ kv, (kv.2, 0%nat)) <$> md_series d2).
Proof.
  intros S1 S2 Ha. apply Forall2_fmap. revert S1 S2. induction Ha as [|a b m1 m2 [_ Hab] _ IH]; intros S1 S2; [constructor|].
  apply Forall_cons in S1 as [[_ V1] S1]. apply Forall_cons in S2 as [[_ V2] S2]. constructor; [|by apply IH].
  split; [done|]. split; [done|]. split; [done|]. split; [done|]. cbn. lia.
Qed.
End feed.

(** ** A whole run *)

Section runs.
Context `{NumpyLaws} `{HS : Statistics} (log_return_std : list pyfloat → pyfloat) (rng : nat → Z) (rng_nonneg : ∀ n, 0 <= rng n).
Context {S : Type} (strategy : S → MarketView → PortfolioSnapshot → result (list OrderIntent * S)).

#[local] Abbreviation run_events := (run_events log_return_std rng strategy).
#[local] Abbreviation run_backtest := (run_backtest log_return_std rng strategy).

(** The events at which the run trades. *)
Definition trades_at (cfg : BacktestConfig) (t : Z) : Prop :=
  match trading_start_ts_ns cfg with Some start => start ≤ t | None => True end.
#[export] Instance trades_at_dec cfg t : Decision (trades_at cfg t).
Proof. unfold trades_at. destruct (trading_start_ts_ns cfg); apply _. Defined.

(** What the events [evs] add to a run. *)
Record run_grew (cfg : BacktestConfig) (evs : list FeedEvent) (r r' : Run (S:=S)) : Prop := {
  gr_fills : extends (λ f, ∃ ev, ev ∈ evs ∧ trades_at cfg (ev_ts ev) ∧ fill_causal ev cfg f) (fills (state r)) (fills (state r'));
  gr_trades : extends (λ t, t_exit_ts_ns t ∈ ev_ts <$> evs ∧ trades_at cfg (t_exit_ts_ns t)) (trades (state r)) (trades (state r'));
  gr_rejections : extends (λ j, j_timestamp_ns j ∈ ev_ts <$> evs ∧ trades_at cfg (j_timestamp_ns j))
                    (rejections (state r)) (rejections (state r'));
  gr_curve : extends (λ p, e_ts_ns p ∈ ev_ts <$> evs ∧ trades_at cfg (e_ts_ns p)) (curve r) (curve r') }.
#[export] Instance run_grew_trans cfg evs : Transitive (run_grew cfg evs).
Proof. intros r1 r2 r3 [] []. split; etransitivity; eassumption. Qed.
Lemma run_grew_incl cfg evs evs' r r' : evs ⊆ evs' → run_grew cfg evs r r' → run_grew cfg evs' r r'.
Proof.
  intros Hs. assert (Hm : ∀ t, t ∈ ev_ts <$> evs → t ∈ ev_ts <$> evs').
  { intros t (ev & -> & Hev)%list_elem_of_fmap. by apply list_elem_of_fmap_2, Hs. }
  intros []. split; (eapply extends_impl; [|eassumption]); cbn; [|naive_solver..].
  intros f (ev & Hin & Hf). exists ev. split; [by apply Hs|done].
Qed.

Lemma event_grew cfg ev r r' :
  stamped ev → run_ok cfg r → on_event log_return_std rng strategy cfg r ev = Ok r' → run_grew cfg [ev] r r' ∧ run_ok cfg r'.
Proof.
  intros Hst Hr Hev. destruct (decide (trades_at cfg (ev_ts ev))) as [Ht|Ht].
  - apply on_event_appended in Hev as ([A1 A2 A3] & A4 & Hr'); [|done..]. split; [|done].
    assert (Hin : ∀ t, t = ev_ts ev → t ∈ ev_ts <$> [ev] ∧ trades_at cfg t) by (intros t ->; split; [by left|done]).
    split; (eapply extends_impl; [|eassumption]); cbn; [|by auto..]. intros f Hf. exists ev. split; [by left|done].
  - unfold trades_at, BtEngine.on_event in *. destruct (trading_start_ts_ns cfg) as [start|]; [|done].
    destruct (Z.ltb_spec (ev_ts ev) start); [|lia]. injection Hev as <-. by split.
Qed.

Lemma run_events_grew cfg evs r r' :
  Forall stamped evs → run_ok cfg r → run_events cfg r evs = Ok r' → run_grew cfg evs r r' ∧ run_ok cfg r'.
Proof.
  intros Hst. revert r. induction Hst as [|ev evs Hev _ IH]; intros r Hr; cbn; [by intros [= <-]|].
  intros (r1 & H1 & H2)%bind_ok. apply event_grew in H1 as [G1 Hr1]; [|done..]. destruct (IH r1 Hr1 H2) as [G2 Hr'].
  split; [|done]. transitivity r1; eapply run_grew_incl; [|done| |done]; set_solver.
Qed.

Lemma event_ok_stamped d ev : event_ok d ev → stamped ev.
Proof. intros (_ & _ & Hb & _) sym b Hin. by apply Hb in Hin as [? _]. Qed.
Lemma initial_run_ok cfg (s0 : S) r : initial_run cfg s0 = Ok r →
  run_ok cfg r ∧ fills (state r) = [] ∧ trades (state r) = [] ∧ rejections (state r) = [] ∧ curve r = [].
Proof. unfold initial_run. intros (pf & _ & [= <-])%bind_ok. split; [by constructor|by ands]. Qed.

(** The run over a market, and its events. *)
Lemma run_backtest_inv l d s0 cfg r : make_market l = Ok d → Forall validated l → run_backtest d s0 cfg = Ok r →
  ∃ r0 evs, initial_run cfg s0 = Ok r0 ∧ events d = Ok evs ∧ run_events cfg r0 evs = Ok (res_run r)
  ∧ ev_ts <$> evs = timeline d ∧ Forall (event_ok d) evs ∧ Forall stamped evs ∧ market_ok d.
Proof.
  intros Hm Hv. unfold BtEngine.run_backtest. intros (r0 & Hinit & Hr)%bind_ok. apply bind_ok in Hr as (evs & He & Hr).
  apply bind_ok in Hr as (r' & Hr' & Hr). unfold _finish in Hr. apply bind_ok in Hr as (m & _ & Hr).
  apply bind_ok in Hr as (e' & _ & [= <-]).
  destruct (make_market_ok l d Hm Hv) as [Hser Hn Hsort Hmerged].
  destruct (feed_is_total l d Hm Hv) as (evs' & He' & Ht & _ & Ho). rewrite He in He'. injection He' as <-.
  exists r0, evs. ands; try done. eapply Forall_impl; [exact Ho|]. apply event_ok_stamped.
Qed.

(** Every fill of a backtest is causal: it happens strictly after its order was placed and no sooner
    than the configured latency, at a time of the market's timeline, and its reference price is read
    off the bar its symbol has at that very time. *)
Theorem fills_are_causal l d s0 cfg r :
  make_market l = Ok d → Forall validated l → run_backtest d s0 cfg = Ok r →
  Forall (λ f, f_signal_ts_ns f < f_timestamp_ns f ∧ f_signal_ts_ns f + latency_ns (execution cfg) <= f_timestamp_ns f
    ∧ f_timestamp_ns f ∈ timeline d
    ∧ ∃ s i b, (f_symbol f, s) ∈ md_series d ∧ bar s i = Ok b ∧ timestamp_ns b = f_timestamp_ns f
        ∧ f_reference_price f = to_decimal (reference_price b (fill_price (execution cfg)))) (res_fills r).
Proof.
  intros Hm Hv Hrun. destruct (run_backtest_inv l d s0 cfg r Hm Hv Hrun) as (r0 & evs & Hinit & _ & Hr & Ht & Ho & Hst & _).
  apply initial_run_ok in Hinit as (Hok & Hf0 & _). destruct (run_events_grew cfg evs r0 (res_run r) Hst Hok Hr) as [[Hf _ _ _] _].
  rewrite Hf0 in Hf. apply extends_Forall in Hf; [|constructor]. eapply Forall_impl; [exact Hf|]. cbn.
  intros f (ev & Hin & _ & Ets & Hsig & Hlat & b & Hb & Href). split; [done|]. split; [done|].
  split; [rewrite Ets, <- Ht; by apply list_elem_of_fmap_2|].
  rewrite Forall_forall in Ho. destruct (Ho ev Hin) as (_ & _ & Hbars & _).
  apply get_elem, Hbars in Hb as (Hbt & s & i & Hs & Hbar). exists s, i, b. ands; try done. congruence.
Qed.

Lemma filter_everything {A} (P : A → Prop) `{∀ x, Decision (P x)} l : Forall P l → filter P l = l.
Proof. induction 1; [done|]. rewrite filter_cons_True by done. congruence. Qed.
Lemma filter_nothing {A} (P : A → Prop) `{∀ x, Decision (P x)} l : Forall (λ x, ¬ P x) l → filter P l = [].
Proof. induction 1; [done|]. by rewrite filter_cons_False. Qed.

(** The entries no later than [T] of a log that grew by later ones. *)
Lemma filter_extends {A} (key : A → Z) T (ts : list Z) l l' :
  extends (λ x, key x ∈ filter (λ t, t ≤ T) ts) [] l → extends (λ x, key x ∈ filter (λ t, ¬ (t ≤ T)) ts) l l' →
  filter (λ x, key x ≤ T) l' = l.
Proof.
  intros Hl%extends_Forall (k & -> & Hk); [|constructor]. rewrite filter_app, filter_everything, filter_nothing; [by rewrite app_nil_r| |].
  - eapply Forall_impl; [exact Hk|]. cbn. by intros x [? _]%list_elem_of_filter.
  - eapply Forall_impl; [exact Hl|]. cbn. by intros x [? _]%list_elem_of_filter.
Qed.

(** What a run records lies on the timeline, from the start of trading on. *)
Lemma run_within l d s0 cfg r : make_market l = Ok d → Forall validated l → run_backtest d s0 cfg = Ok r →
  Forall (λ t, t_exit_ts_ns t ∈ timeline d ∧ trades_at cfg (t_exit_ts_ns t)) (res_trades r)
  ∧ Forall (λ f, f_timestamp_ns f ∈ timeline d ∧ trades_at cfg (f_timestamp_ns f)) (res_fills r)
  ∧ Forall (λ p, e_ts_ns p ∈ timeline d ∧ trades_at cfg (e_ts_ns p)) (res_equity r).
Proof.
  intros Hm Hv Hrun. destruct (run_backtest_inv l d s0 cfg r Hm Hv Hrun) as (r0 & evs & Hinit & _ & Hr & Ht & _ & Hst & _).
  apply initial_run_ok in Hinit as (Hok & F0 & T0 & _ & C0). destruct (run_events_grew cfg evs r0 _ Hst Hok Hr) as [[Gf Gt _ Gc] _].
  rewrite F0, T0, C0, Ht in *. ands.
  - by eapply extends_Forall, Gt.
  - apply extends_Forall in Gf; [|constructor]. eapply Forall_impl; [exact Gf|]. cbn. intros f (ev & Hin & Htr & -> & _).
    split; [|done]. rewrite <- Ht. by apply list_elem_of_fmap_2.
  - by eapply extends_Forall, Gc.
Qed.

Section prefix.
Context `{!PointInTime strategy} (T : Z).

(** The part of a run that is over at [T]. *)
Lemma run_split l d s0 cfg r : make_market l = Ok d → Forall validated l → run_backtest d s0 cfg = Ok r →
  ∃ r0 evs r1, initial_run cfg s0 = Ok r0 ∧ events d = Ok evs
  ∧ run_events cfg r0 (take (length (filter (λ t, t ≤ T) (timeline d))) evs) = Ok r1
  ∧ filter (λ f, f_timestamp_ns f ≤ T) (res_fills r) = fills (state r1)
  ∧ filter (λ t, t_exit_ts_ns t ≤ T) (res_trades r) = trades (state r1)
  ∧ filter (λ j, j_timestamp_ns j ≤ T) (res_rejections r) = rejections (state r1)
  ∧ filter (λ p, e_ts_ns p ≤ T) (res_equity r) = curve r1.
Proof.
  intros Hm Hv Hrun. destruct (run_backtest_inv l d s0 cfg r Hm Hv Hrun) as (r0 & evs & Hinit & He & Hr & Ht & _ & Hst & Hok).
  set (n := length (filter (λ t, t ≤ T) (timeline d))). rewrite <- (take_drop n evs) in Hr. unfold BtEngine.run_events in Hr.
  rewrite foldR_app in Hr. apply bind_ok in Hr as (r1 & H1 & H2). exists r0, evs, r1. split; [done|]. split; [done|]. split; [done|].
  pose proof (sorted_split T (timeline d) (mk_sorted d Hok)) as Hsplit.
  assert (Hearly : ev_ts <$> take n evs = filter (λ t, t ≤ T) (timeline d)).
  { rewrite fmap_take, Ht, Hsplit at 1. apply take_app_length. }
  assert (Hlate : ev_ts <$> drop n evs = filter (λ t, ¬ (t ≤ T)) (timeline d)).
  { rewrite fmap_drop, Ht, Hsplit at 1. apply drop_app_length. }
  apply initial_run_ok in Hinit as (Hok0 & F0 & T0 & J0 & C0).
  destruct (run_events_grew cfg _ r0 r1 (Forall_take _ _ _ Hst) Hok0 H1) as [[A1 A2 A3 A4] Hok1].
  destruct (run_events_grew cfg _ r1 (res_run r) (Forall_drop _ _ _ Hst) Hok1 H2) as [[B1 B2 B3 B4] _].
  rewrite F0, T0, J0, C0 in *.
  assert (Ef : ∀ evs f, (∃ ev, ev ∈ evs ∧ trades_at cfg (ev_ts ev) ∧ fill_causal ev cfg f) → f_timestamp_ns f ∈ ev_ts <$> evs)
    by (intros k f (ev & Hev & _ & -> & _); by apply list_elem_of_fmap_2).
  split; [|split; [|split]]; apply (filter_extends _ T (timeline d)); rewrite <- ?Hearly, <- ?Hlate;
    (eapply extends_impl; [|eassumption]); cbn; try apply Ef; tauto.
Qed.

(** C30: A backtest cannot see the future. Two markets that agree on every bar stamped no later than a time
    give, under any strategy that looks through the view's accessors, the same fills, round trips,
    rejections and equity points up to that time, whatever the later bars are. *)
Theorem backtest_cannot_see_the_future l1 d1 l2 d2 s0 cfg r1 r2 :
  make_market l1 = Ok d1 → Forall validated l1 → make_market l2 = Ok d2 → Forall validated l2 →
  markets_agree T d1 d2 →
  run_backtest d1 s0 cfg = Ok r1 → run_backtest d2 s0 cfg = Ok r2 →
  filter (λ f, f_timestamp_ns f ≤ T) (res_fills r1) = filter (λ f, f_timestamp_ns f ≤ T) (res_fills r2)
  ∧ filter (λ t, t_exit_ts_ns t ≤ T) (res_trades r1) = filter (λ t, t_exit_ts_ns t ≤ T) (res_trades r2)
  ∧ filter (λ j, j_timestamp_ns j ≤ T) (res_rejections r1) = filter (λ j, j_timestamp_ns j ≤ T) (res_rejections r2)
  ∧ filter (λ p, e_ts_ns p ≤ T) (res_equity r1) = filter (λ p, e_ts_ns p ≤ T) (res_equity r2).
Proof.
  intros M1 V1 M2 V2 Ha R1 R2.
  destruct (run_split l1 d1 s0 cfg r1 M1 V1 R1) as (q0 & evs1 & q1 & I1 & E1 & P1 & -> & -> & -> & ->).
  destruct (run_split l2 d2 s0 cfg r2 M2 V2 R2) as (q0' & evs2 & q2 & I2 & E2 & P2 & -> & -> & -> & ->).
  rewrite I1 in I2. injection I2 as <-.
  enough (q1 = q2) as -> by done.
  destruct (make_market_ok l1 d1 M1 V1) as [Ser1 N1 S1 G1]. destruct (make_market_ok l2 d2 M2 V2) as [Ser2 N2 S2 G2].
  pose proof (timelines_agree T d1 d2 (make_market_ok l1 d1 M1 V1) (make_market_ok l2 d2 M2 V2) Ha) as Htl.
  pose proof E1 as F1. pose proof E2 as F2. unfold events in F1, F2.
  rewrite (sorted_split T (timeline d1) S1) in F1. rewrite (sorted_split T (timeline d2) S2), <- Htl in F2.
  rewrite <- Htl in P2.
  assert (Hev := feed_from_agree T _ _ _ _ _ _ _ (filter_below T (timeline d1)) (cursors_start T d1 d2 Ser1 Ser2 Ha) F1 F2).
  rewrite (run_events_equiv log_return_std rng strategy cfg q0 _ _ Hev), P2 in P1. by injection P1.
Qed.
End prefix.
End runs.

(** ** Two small markets *)

Section example.
#[local] Existing Instance numpy_lists.
#[local] Existing Instance numpy_lists_laws.
#[local] Existing Instance simple_statistics.

Definition bars_until_30 (last_ : pyfloat) : result SymbolSeries :=
  create (u "AAA") [10; 20; 30] [fl "2"; fl "2"; last_] [fl "2"; fl "3"; last_] [fl "2"; fl "2"; last_] [fl "2"; fl "3"; last_]
    [fl "500"; fl "500"; fl "500"] None.
Definition config_example : BacktestConfig :=
  mkBacktest (D 1000) (mkCost D_ZERO D_ZERO (D 1) (fl "0") IMPACT_NONE (fl "0") 20)
    (mkExecution 0 0 (fl "0.1") None OPEN None false true None) (mkMetricsConfig (fl "252") f0) None None true.
Definition strategy_example := buy_and_hold (u "AAA") (DFin 5 (-1)).
Definition run_example (last_ : pyfloat) : result (SymbolSeries * MarketData * BacktestResult) :=
  s ← bars_until_30 last_;
  d ← make_market [s];
  r ← run_backtest (λ _, fl "0") (λ _, 0) strategy_example d false config_example;
  Ok (s, d, r).

(** The order of the first event is filled at the second and the third, fifty shares a bar. *)
Definition summary (r : SymbolSeries * MarketData * BacktestResult (S:=bool)) : list (Z * decimal * decimal) * list Z :=
  ((λ f, (f_timestamp_ns f, f_quantity f, f_price f)) <$> res_fills r.2, e_ts_ns <$> res_equity r.2).
Example run_example_runs : summary <$> run_example (fl "4") = Ok ([(20, D 50, DFin 2000000 (-6)); (30, D 50, DFin 4000000 (-6))], [10; 20; 30]).
Proof. vm_compute. reflexivity. Qed.

Lemma bars_agree a b s1 s2 : bars_until_30 a = Ok s1 → bars_until_30 b = Ok s2 → agree_until 20 s1 s2.
Proof.
  unfold bars_until_30, create. intros ([] & _ & [= <-])%bind_ok ([] & _ & [= <-])%bind_ok. split; [reflexivity|]. by split.
Qed.
Lemma one_series s d : make_market [s] = Ok d → md_series d = [(sr_symbol s, s)].
Proof. by intros [= <-]. Qed.

Lemma run_example_ok : is_ok (run_example (fl "4")) && is_ok (run_example (fl "1")) = true.
Proof. vm_compute. reflexivity. Qed.
Lemma run_example_inv last_ : is_ok (run_example last_) = true →
  ∃ s d r, bars_until_30 last_ = Ok s ∧ make_market [s] = Ok d ∧ Forall validated [s]
    ∧ run_backtest (λ _, fl "0") (λ _, 0) strategy_example d false config_example = Ok r.
Proof.
  unfold run_example. destruct (bars_until_30 last_) as [s|] eqn:Es; [|done]. cbn [mbind result_bind].
  destruct (make_market [s]) as [d|] eqn:Ed; [|done]. cbn [mbind result_bind].
  destruct (BtEngine.run_backtest _ _ _ _ _ _) as [r|] eqn:Er; [|done]. intros _. exists s, d, r.
  ands; try done. constructor; [|done]. by apply create_validated in Es as [? _].
Qed.

Lemma fills_are_causal_witness : ∃ d (r : BacktestResult (S:=bool)),
  run_backtest (λ _, fl "0") (λ _, 0) strategy_example d false config_example = Ok r
  ∧ Forall (λ f, f_signal_ts_ns f < f_timestamp_ns f) (res_fills r).
Proof.
  destruct (proj1 (andb_true_iff _ _) run_example_ok) as [H1 _]. destruct (run_example_inv _ H1) as (s & d & r & _ & Hd & Hv & Hr).
  exists d, r. split; [exact Hr|].
  pose proof (fills_are_causal (λ _, fl "0") (λ _, 0) (λ _, Z.le_refl 0) strategy_example [s] d false config_example r Hd Hv Hr) as Hf.
  eapply Forall_impl; [exact Hf|]. intros f Hc. exact (proj1 Hc).
Defined.

Lemma backtest_cannot_see_the_future_witness : ∃ d1 d2 (r1 r2 : BacktestResult (S:=bool)), markets_agree 20 d1 d2
  ∧ filter (λ f, f_timestamp_ns f ≤ 20) (res_fills r1) = filter (λ f, f_timestamp_ns f ≤ 20) (res_fills r2).
Proof.
  destruct (proj1 (andb_true_iff _ _) run_example_ok) as [H1 H2].
  destruct (run_example_inv _ H1) as (s1 & d1 & r1 & B1 & D1 & V1 & R1).
  destruct (run_example_inv _ H2) as (s2 & d2 & r2 & B2 & D2 & V2 & R2).
  assert (Ha : markets_agree 20 d1 d2).
  { unfold markets_agree. rewrite (one_series s1 d1 D1), (one_series s2 d2 D2). pose proof (bars_agree _ _ _ _ B1 B2) as Hb.
    constructor; [|constructor]. split; [exact (sp_symbol _ _ _ (proj2 Hb))|exact Hb]. }
  exists d1, d2, r1, r2. split; [exact Ha|].
  refine (proj1 (backtest_cannot_see_the_future (λ _, fl "0") (λ _, 0) (λ _, Z.le_refl 0) strategy_example 20
    [s1] d1 [s2] d2 false config_example r1 r2 D1 V1 D2 V2 Ha R1 R2)).
Defined.
End example.
