(* ===== verification/BtWfa.v ===== *)
(** * Backtesting: walk-forward analysis ([wfa.py])

    Splits of the timeline into training and test windows with purge and embargo, the exhaustive fit
    on each training slice, the evaluation of the chosen parameters on the test slice, and the
    aggregates. *)
From Stdlib Require Import Sorted.
From S2P Require Import Prelude PyStr PyDecimal PyFloat PyFloatFacts Json JsonFacts BtData BtPortfolio BtMetrics BtEngine BtCausal.

Definition LeakageError : exn_class := OtherError (u "LeakageError").

Inductive WindowMode := ROLLING | ANCHORED.
#[export] Instance WindowMode_eq_dec : EqDecision WindowMode. Proof. solve_decision. Defined.
Record WindowSpec := mkSpec { w_index : Z; train_start : Z; train_end : Z; test_start : Z; test_end : Z }.

Definition OBJECTIVES : list pystr := [u "sharpe"; u "sortino"; u "calmar"; u "total_return"].
Record WfaConfig := mkWfa {
  train_size : Z; test_size : Z; step : option Z; mode : WindowMode; embargo : Z; purge : Z; warmup_bars : Z;
  objective : pystr; min_regime_periods : Z }.
Definition make_wfa (c : WfaConfig) : result WfaConfig :=
  guard_raise (negb (existsb (str_eqb (objective c)) OBJECTIVES)) ConfigError (u "objective must be one of the objectives");;
  guard_raise ((warmup_bars c <? 0) || (min_regime_periods c <? 1)) ConfigError
    (u "warmup_bars must be >= 0 and min_regime_periods >= 1");;
  Ok c.

(** ** Splits *)

Definition window (train test stp : Z) (m : WindowMode) (emb pur k : Z) : WindowSpec :=
  let a := match m with ROLLING => k * stp | ANCHORED => 0 end in
  let b := match m with ROLLING => a + train | ANCHORED => train + k * stp end in
  mkSpec k a (b - pur) (b + emb) (b + emb + test).
(** The loop from [k]; [None]: more than [fuel] turns. *)
Fixpoint windows (fuel : nat) (n train test stp : Z) (m : WindowMode) (emb pur k : Z) : option (list WindowSpec) :=
  match fuel with
  | O => None
  | S fuel =>
      let w := window train test stp m emb pur k in
      if n <? test_end w then Some [] else (λ ws, w :: ws) <$> windows fuel n train test stp m emb pur (k + 1)
  end.
Definition OutOfFuel : exn_class := OtherError (u "").
Definition generate_splits (n_samples train test : Z) (stp : option Z) (m : WindowMode) (emb pur : Z) : result (list WindowSpec) :=
  let stp := default test stp in
  guard_raise (Z.min emb pur <? 0) ConfigError (u "embargo and purge must be non-negative");;
  guard_raise ((train - pur <? 3) || (test <? 2)) ConfigError (u "need train_size - purge >= 3 and test_size >= 2");;
  guard_raise (stp <? test) ConfigError (u "step must be >= test_size so out-of-sample windows do not overlap");;
  match windows (S (Z.to_nat n_samples)) n_samples train test stp m emb pur 0 with
  | None => raise OutOfFuel []
  | Some [] => raise ConfigError (str_of_Z n_samples ++ u " samples are too few for a single window")
  | Some ws => Ok ws
  end.

Definition check_split (pur emb : Z) (s : WindowSpec) : result unit :=
  guard_raise ((test_start s <? train_end s) || (train_end s <=? train_start s)) LeakageError
    (u "training range overlaps or follows test range");;
  guard_raise (test_start s - train_end s <? pur + emb) LeakageError (u "gap < purge+embargo").
Definition check_pair (p : WindowSpec * WindowSpec) : result unit :=
  guard_raise (test_start p.2 <? test_end p.1) LeakageError (u "test ranges overlap").
Definition assert_no_leakage (splits : list WindowSpec) (pur emb : Z) : result unit :=
  foldR (λ _ s, check_split pur emb s) tt splits;;
  foldR (λ _ p, check_pair p) tt (zip splits (tail splits)).

(** ** The grid and the scores *)

Abbreviation Params := (list (pystr * pyfloat)).
(** [itertools.product]: the last list varies fastest. *)
Fixpoint product {A} (ls : list (list A)) : list (list A) :=
  match ls with [] => [[]] | l :: ls => x ← l; (λ xs, x :: xs) <$> product ls end.
Definition _expand_grid (grid : list (pystr * list pyfloat)) : result (list Params) :=
  let sorted := sort_keys grid in
  guard_raise (existsb (λ kv, (length kv.2 =? 0)%nat) sorted) ConfigError (u "every param_grid entry needs at least one value");;
  Ok (zip sorted.*1 <$> product sorted.*2).

(** [getattr(m, objective)] of the attributes a checked configuration can name. *)
Definition _score (m : Metrics) (obj : pystr) : result pyfloat :=
  value ← (if str_eqb obj (u "total_return") then Ok (Some (total_return m))
           else if str_eqb obj (u "sharpe") then Ok (sharpe m)
           else if str_eqb obj (u "sortino") then Ok (sortino m)
           else if str_eqb obj (u "calmar") then Ok (calmar m)
           else raise (OtherError (u "AttributeError")) obj);
  Ok (default (FInf true) value).

Section wfa.
Context `{Numpy} `{Statistics} (log_return_std : list pyfloat → pyfloat) (rng : nat → Z).
(** A strategy that starts in the state the factory makes of the parameters. *)
Context {S : Type} (strategy : S → MarketView → PortfolioSnapshot → result (list OrderIntent * S)) (factory : Params → result S).
#[local] Abbreviation run_backtest := (run_backtest log_return_std rng strategy).

Record Best := mkBest { best_score : pyfloat; best_params : Params; best_result : BacktestResult (S:=S) }.
Definition try_params (train : MarketData) (cfg : WfaConfig) (bt : BacktestConfig) (best : option Best) (p : Params)
  : result (option Best) :=
  s0 ← factory p;
  res ← run_backtest train s0 bt;
  score ← _score (res_metrics res) (objective cfg);
  Ok (match best with
      | Some b => if float_ltb (best_score b) score then Some (mkBest score p res) else best
      | None => Some (mkBest score p res) end).
Definition _fit_window (d : MarketData) (combos : list Params) (spec : WindowSpec) (cfg : WfaConfig) (bt : BacktestConfig)
  : result Best :=
  a ← np_item (timeline d) (train_start spec);
  b ← np_item (timeline d) (train_end spec - 1);
  train ← market_slice_time d a b;
  best ← foldR (try_params train cfg bt) None combos;
  match best with Some b => Ok b | None => raise (OtherError (u "AssertionError")) [] end.

Definition with_trading_start (t : Z) (bt : BacktestConfig) : BacktestConfig :=
  mkBacktest (c_initial_cash bt) (cost bt) (execution bt) (metrics_config bt) (Some t) (regime_symbol bt) (c_check_invariants bt).
Definition _evaluate_window (d : MarketData) (p : Params) (spec : WindowSpec) (cfg : WfaConfig) (bt : BacktestConfig)
  : result BacktestResult :=
  let first := Z.max 0 (test_start spec - warmup_bars cfg) in
  a ← np_item (timeline d) first;
  b ← np_item (timeline d) (test_end spec - 1);
  test ← market_slice_time d a b;
  start ← np_item (timeline d) (test_start spec);
  test_bt ← make_backtest (with_trading_start start bt);
  s0 ← factory p;
  run_backtest test s0 test_bt.

(** ** Windows and aggregates *)

Record WindowResult := mkWindow {
  spec : WindowSpec; w_best_params : Params; train_metrics : Metrics; test_metrics : Metrics; test_returns : list pyfloat;
  test_regimes : list Z; test_trades : list ClosedTrade; regimes : list (pystr * RegimeStats) }.
Record AggregateStats := mkAggregate {
  n_windows : Z; oos_sharpe_mean : option pyfloat; oos_sharpe_median : option pyfloat; oos_sharpe_std : option pyfloat;
  oos_sharpe_cv : option pyfloat; oos_total_return_mean : pyfloat; positive_window_fraction : pyfloat;
  ag_walk_forward_efficiency : option pyfloat; param_stability : pyfloat; n_configurations_tried : Z;
  pooled_oos : RegimeStats; ag_regimes : list (pystr * RegimeStats); missing_regimes : list pystr;
  ag_min_regime_periods : Z }.
Record WfaResult := mkWfaResult { r_config : WfaConfig; r_windows : list WindowResult; aggregate : AggregateStats }.

Definition walk_forward_efficiency (in_sample out_of_sample : list pyfloat) : result (option pyfloat) :=
  if bool_decide (in_sample = []) || bool_decide (out_of_sample = []) then Ok None
  else
    let mean_is := np_mean in_sample in
    if float_leb mean_is f0 then Ok None else q ← py_div (np_mean out_of_sample) mean_is; Ok (Some q).

Definition params_eqb (p q : Params) : bool :=
  (length p =? length q)%nat && forallb (λ xy, str_eqb xy.1.1 xy.2.1 && float_eqb xy.1.2 xy.2.2) (zip p q).
(** [Counter(...).most_common(1)[0][1]]. *)
Definition modal_count (ws : list WindowResult) : Z :=
  foldr Z.max 0 ((λ w, Z.of_nat (length (List.filter (λ v, params_eqb (w_best_params w) (w_best_params v)) ws))) <$> ws).
Definition falsy (x : option pyfloat) : bool := match x with Some x => is_zero x | None => true end.

Definition _aggregate (ws : list WindowResult) (train_scores : list pyfloat) (n_combos : Z) (cfg : WfaConfig)
    (metrics_cfg : MetricsConfig) : result AggregateStats :=
  guard_raise (bool_decide (ws = [])) ValueError (u "need at least one array to concatenate");;
  let returns := w ← ws; test_returns w in
  let labels := w ← ws; test_regimes w in
  let trades := w ← ws; test_trades w in
  pooled_regimes ← regime_breakdown returns labels trades metrics_cfg (min_regime_periods cfg);
  let sharpes := omap (λ w, sharpe (test_metrics w)) ws in
  let mean_sharpe := if bool_decide (sharpes = []) then None else Some (np_mean sharpes) in
  let std_sharpe := if (1 <? length sharpes)%nat then Some (np_std sharpes) else None in
  cv ← (if falsy std_sharpe || falsy mean_sharpe then Ok None
        else q ← py_div (default f0 std_sharpe) (float_abs (default f0 mean_sharpe)); Ok (Some q));
  scored ← mapR (λ w, _score (test_metrics w) (objective cfg)) ws;
  let oos_scores := List.filter is_finite_float scored in
  let totals := (λ w, total_return (test_metrics w)) <$> ws in
  efficiency ← walk_forward_efficiency train_scores oos_scores;
  pooled ← summarise_returns (u "ALL") returns trades metrics_cfg (min_regime_periods cfg);
  missing ← filterR (λ s, match get pooled_regimes (regime_name s) with
                          | Some st => Ok (rs_n_periods st =? 0)
                          | None => raise KeyError (regime_name s) end) HMM_STATES;
  Ok (mkAggregate (Z.of_nat (length ws)) mean_sharpe (if bool_decide (sharpes = []) then None else Some (np_median sharpes))
        std_sharpe cv (np_mean totals) (np_mean ((λ t, if float_ltb f0 t then f1 else f0) <$> totals)) efficiency
        (np_div (float_of_int (modal_count ws)) (float_of_int (Z.of_nat (length ws)))) (n_combos * Z.of_nat (length ws)) pooled
        pooled_regimes (regime_name <$> missing) (min_regime_periods cfg)).

Definition run_window (d : MarketData) (combos : list Params) (cfg : WfaConfig) (bt : BacktestConfig) (spec : WindowSpec)
  : result (pyfloat * WindowResult) :=
  best ← _fit_window d combos spec cfg bt;
  test_res ← _evaluate_window d (best_params best) spec cfg bt;
  let rets := period_returns (e_equity <$> res_equity test_res) in
  let regs := e_regime <$> take (length (res_equity test_res) - 1) (res_equity test_res) in
  score ← _score (res_metrics (best_result best)) (objective cfg);
  breakdown ← regime_breakdown rets regs (res_trades test_res) (metrics_config bt) (min_regime_periods cfg);
  Ok (score, mkWindow spec (best_params best) (res_metrics (best_result best)) (res_metrics test_res) rets regs
               (res_trades test_res) breakdown).
Definition run_walk_forward (d : MarketData) (param_grid : list (pystr * list pyfloat)) (cfg : WfaConfig) (bt : BacktestConfig)
  : result WfaResult :=
  combos ← _expand_grid param_grid;
  specs ← generate_splits (Z.of_nat (length (timeline d))) (train_size cfg) (test_size cfg) (step cfg) (mode cfg)
            (embargo cfg) (purge cfg);
  assert_no_leakage specs (purge cfg) (embargo cfg);;
  results ← mapR (run_window d combos cfg bt) specs;
  let finite := List.filter is_finite_float results.*1 in
  agg ← _aggregate results.*2 finite (Z.of_nat (length combos)) cfg (metrics_config bt);
  Ok (mkWfaResult cfg results.*2 agg).
End wfa.

(** ** The splits *)

(** A configuration the splits accept. *)
Record split_config (train test stp emb pur : Z) : Prop := {
  sc_embargo : 0 <= emb; sc_purge : 0 <= pur; sc_train : 3 <= train - pur; sc_test : 2 <= test; sc_step : test <= stp }.

Lemma window_end train test stp m emb pur k : test_end (window train test stp m emb pur k) = train + emb + test + k * stp.
Proof. destruct m; cbn; lia. Qed.
Lemma window_start train test stp m emb pur k : test_start (window train test stp m emb pur k) = train + emb + k * stp.
Proof. destruct m; cbn; lia. Qed.

Lemma windows_spec fuel n train test stp m emb pur k :
  0 < stp → Z.max 0 ((n - (train + emb + test + k * stp)) / stp + 1) < Z.of_nat fuel →
  windows fuel n train test stp m emb pur k
  = Some (window train test stp m emb pur <$> seqZ k (Z.max 0 ((n - (train + emb + test + k * stp)) / stp + 1))).
Proof.
  intros Hstp. revert k. induction fuel as [|fuel IH]; intros k Hf; [lia|]. cbn [windows]. rewrite window_end.
  set (e := train + emb + test + k * stp) in *. destruct (Z.ltb_spec n e) as [Hlt|Hge].
  - rewrite Z.max_l; [done|]. assert ((n - e) / stp < 0) by (apply Z.div_lt_upper_bound; lia). lia.
  - assert (Hq : 0 <= (n - e) / stp) by (apply Z.div_pos; lia).
    assert (E : (n - (train + emb + test + (k + 1) * stp)) / stp = (n - e) / stp - 1).
    { replace (n - (train + emb + test + (k + 1) * stp)) with (n - e + (-1) * stp) by (unfold e; lia). rewrite Z.div_add by lia. lia. }
    rewrite IH by (rewrite E; lia). rewrite E. rewrite (seqZ_cons k) by lia.
    replace (Z.max 0 ((n - e) / stp - 1 + 1)) with (Z.pred (Z.max 0 ((n - e) / stp + 1))) by lia.
    by replace (Z.succ k) with (k + 1) by lia.
Qed.

(** The loop over windows ends and makes exactly the windows that fit: under an accepted configuration
    the splits are the windows 0, 1, ... as many as end within the samples, and too few samples for one
    window are a ConfigError, as is a configuration that is not accepted. *)
Theorem splits_are_the_windows_that_fit n train test stp m emb pur :
  0 <= n →
  (split_config train test (default test stp) emb pur →
     generate_splits n train test stp m emb pur
     = (if n <? train + emb + test then raise ConfigError (str_of_Z n ++ u " samples are too few for a single window")
        else Ok (window train test (default test stp) m emb pur
                   <$> seqZ 0 ((n - (train + emb + test)) / default test stp + 1))))
  ∧ (¬ split_config train test (default test stp) emb pur →
       ∃ e, generate_splits n train test stp m emb pur = Raise e ∧ exn_kind e = ConfigError).
Proof.
  intros Hn. unfold generate_splits. set (s := default test stp). split.
  - intros [He Hp Htr Hte Hst]. rewrite (proj2 (guard_ok (Z.min emb pur <? 0) _ _ tt)) by lia.
    rewrite (proj2 (guard_ok ((train - pur <? 3) || (test <? 2)) _ _ tt)) by lia.
    rewrite (proj2 (guard_ok (s <? test) _ _ tt)) by lia. cbn [mbind result_bind].
    assert (Hdiv : (n - (train + emb + test)) / s + 1 <= n ∨ n < train + emb + test).
    { destruct (Z.le_gt_cases (train + emb + test) n); [left|by right].
      assert ((n - (train + emb + test)) / s <= n - (train + emb + test)) by (apply Z.div_le_upper_bound; nia). lia. }
    assert (Hneg : n < train + emb + test → (n - (train + emb + test)) / s < 0) by (intros; apply Z.div_lt_upper_bound; lia).
    rewrite windows_spec by (rewrite ?Z.mul_0_l, ?Z.add_0_r; lia). rewrite !Z.mul_0_l, !Z.add_0_r.
    destruct (Z.ltb_spec n (train + emb + test)) as [Hlt|Hge]; [by rewrite Z.max_l by (specialize (Hneg Hlt); lia)|].
    assert (0 <= (n - (train + emb + test)) / s) by (apply Z.div_pos; lia). rewrite Z.max_r by lia.
    rewrite (seqZ_cons 0) by lia. done.
  - intros Hno. destruct (Z.ltb_spec (Z.min emb pur) 0); [by eexists|]. destruct ((train - pur <? 3) || (test <? 2)) eqn:E2; [by eexists|].
    destruct (Z.ltb_spec s test); [by eexists|]. exfalso. apply Hno. split; lia.
Qed.

(** ** Leakage *)

(** The training range comes first, with the gap, and the test ranges follow one another. *)
Definition separated (pur emb : Z) (s : WindowSpec) : Prop :=
  train_start s < train_end s ∧ train_end s <= test_start s ∧ pur + emb <= test_start s - train_end s.
Fixpoint chained (splits : list WindowSpec) : Prop :=
  match splits with
  | [] => True
  | s :: l => match l with [] => True | t :: _ => test_end s <= test_start t end ∧ chained l
  end.
Definition no_leakage (pur emb : Z) (splits : list WindowSpec) : Prop := Forall (separated pur emb) splits ∧ chained splits.

Lemma foldR_unit {A} (f : A → result unit) l : foldR (λ _ x, f x) tt l = Ok tt ↔ Forall (λ x, f x = Ok tt) l.
Proof.
  induction l as [|x l IH]; cbn; [done|]. rewrite Forall_cons, <- IH, bind_ok. split.
  - intros ([] & ? & ?). done.
  - intros [? ?]. by exists tt.
Qed.
Lemma check_split_ok pur emb s : check_split pur emb s = Ok tt ↔ separated pur emb s.
Proof.
  unfold check_split, separated. rewrite bind_ok. split.
  - intros ([] & H1%guard_ok & H2%guard_ok). lia.
  - intros H. exists tt. split; apply guard_ok; lia.
Qed.
(** [assert_no_leakage] decides it. *)
Lemma assert_no_leakage_ok splits pur emb : assert_no_leakage splits pur emb = Ok tt ↔ no_leakage pur emb splits.
Proof.
  unfold assert_no_leakage, no_leakage. rewrite bind_ok.
  assert (Hc : Forall (λ p, check_pair p = Ok tt) (zip splits (tail splits)) ↔ chained splits).
  { induction splits as [|s [|t l] IH]; [done|done|]. cbn [tail zip_with chained] in *. rewrite Forall_cons, IH.
    unfold check_pair. rewrite guard_ok. cbn. split; intros [? ?]; (split; [lia|done]). }
  rewrite <- Hc. split.
  - intros ([] & H1%foldR_unit & H2%foldR_unit). split; [|done]. eapply Forall_impl; [exact H1|]. cbn. by intros s ?%check_split_ok.
  - intros [H1 H2]. exists tt. split; apply foldR_unit; [|done]. eapply Forall_impl; [exact H1|]. cbn. by intros s ?%check_split_ok.
Qed.

Lemma generated_no_leakage train test stp m emb pur k c : split_config train test stp emb pur →
  0 <= k → no_leakage pur emb (window train test stp m emb pur <$> seqZ k c).
Proof.
  intros [He Hp Htr Hte Hst] Hk. split.
  - apply Forall_fmap, Forall_forall. intros i [Hi _]%elem_of_seqZ. unfold separated. destruct m; cbn; nia.
  - destruct (Z.le_gt_cases c 0) as [Hc|Hc]; [rewrite seqZ_nil by lia; done|]. replace c with (Z.of_nat (Z.to_nat c)) by lia.
    clear Hc. generalize (Z.to_nat c) as n. clear c. intros n. revert k Hk. induction n as [|n IH]; intros k Hk; [done|].
    rewrite seqZ_cons by lia. replace (Z.pred (Z.of_nat (S n))) with (Z.of_nat n) by lia. cbn [fmap list_fmap chained].
    split; [|apply IH; lia]. destruct n as [|n]; [done|]. rewrite seqZ_cons by lia. cbn [fmap list_fmap].
    rewrite window_end, window_start. lia.
Qed.

(** What the splits made are like. *)
Lemma generated_windows n train test stp m emb pur specs : 0 <= n → generate_splits n train test stp m emb pur = Ok specs →
  Forall (λ s, 0 <= train_start s < train_end s ∧ train_end s <= test_start s ∧ test_start s <= test_end s - 1) specs.
Proof.
  intros Hn Hg. unfold generate_splits in Hg. set (sp := default test stp) in *.
  apply bind_ok in Hg as ([] & H1%guard_ok & Hg). apply bind_ok in Hg as ([] & H2%guard_ok & Hg). apply bind_ok in Hg as ([] & H3%guard_ok & Hg).
  assert (Hdiv : (n - (train + emb + test + 0 * sp)) / sp + 1 <= n ∨ (n - (train + emb + test + 0 * sp)) / sp < 0).
  { destruct (Z.le_gt_cases (train + emb + test) n); [left|right; apply Z.div_lt_upper_bound; lia].
    assert ((n - (train + emb + test + 0 * sp)) / sp <= n - (train + emb + test)) by (apply Z.div_le_upper_bound; nia). lia. }
  rewrite windows_spec in Hg by lia.
  assert (Hall : ∀ c, Forall (λ s, 0 <= train_start s < train_end s ∧ train_end s <= test_start s ∧ test_start s <= test_end s - 1)
    (window train test sp m emb pur <$> seqZ 0 c)).
  { intros c. apply Forall_fmap, Forall_forall. intros k [Hk _]%elem_of_seqZ. destruct m; cbn; nia. }
  specialize (Hall (Z.max 0 ((n - (train + emb + test + 0 * sp)) / sp + 1))).
  destruct (_ <$> seqZ _ _) as [|w ws]; [done|]. by injection Hg as <-.
Qed.

(** ** Slices of markets that agree *)

Section slices.
Context `{NumpyLaws} (T : Z).

Lemma filter_within (P : Z → Prop) `{∀ x, Decision (P x)} s1 s2 :
  validated s1 → validated s2 → agree_until T s1 s2 → (∀ x, P x → x ≤ T) →
  length (filter P (sr_ts s1)) = length (filter P (sr_ts s2)).
Proof.
  intros V1 V2 [Ek Hp] HP.
  assert (Hcut : ∀ s, validated s → filter P (sr_ts s) = filter P (take (known T s) (sr_ts s))).
  { intros s Hv. rewrite <- (take_drop (known T s) (sr_ts s)) at 1. rewrite filter_app.
    rewrite (filter_nothing P (drop _ _)); [by rewrite app_nil_r|]. apply Forall_forall. intros x Hx Hpx.
    apply list_elem_of_lookup in Hx as (k & Hk). rewrite lookup_drop in Hk. apply (known_lookup T s _ _ Hv) in Hk.
    apply HP in Hpx. lia. }
  rewrite (Hcut s1 V1), (Hcut s2 V2), <- Ek. by rewrite (sp_ts _ _ _ Hp).
Qed.

Lemma length_filter_mono (P Q : Z → Prop) `{∀ x, Decision (P x), ∀ x, Decision (Q x)} l :
  (∀ x, P x → Q x) → (length (filter P l) <= length (filter Q l))%nat.
Proof.
  intros HPQ. induction l as [|x l IH]; [done|]. rewrite !filter_cons. repeat case_decide; cbn; try lia. naive_solver.
Qed.

Lemma slice_time_agree s1 s2 a b : validated s1 → validated s2 → agree_until T s1 s2 → b <= T →
  slice_time s1 a b = slice_time s2 a b.
Proof.
  intros V1 V2 Ha Hb. pose proof (validated_inv s1 V1) as (_ & _ & _ & _ & _ & _ & _ & S1 & _).
  pose proof (validated_inv s2 V2) as (_ & _ & _ & _ & _ & _ & _ & S2 & _).
  assert (Hhi : searchsorted_right (sr_ts s1) b = searchsorted_right (sr_ts s2) b).
  { rewrite !right_law by by apply sorted_lt_le. apply (filter_within (λ y, y ≤ b)); try done. cbn. lia. }
  assert (Hle : (searchsorted_right (sr_ts s1) b <= known T s1)%nat).
  { rewrite right_law by by apply sorted_lt_le. unfold known. apply length_filter_mono. cbn. lia. }
  unfold slice_time. rewrite <- Hhi. set (hi := searchsorted_right (sr_ts s1) b) in *.
  destruct (Z.le_gt_cases a b) as [Hab|Hab].
  - assert (Hlo : searchsorted_left (sr_ts s1) a = searchsorted_left (sr_ts s2) a).
    { rewrite !left_law by by apply sorted_lt_le. apply (filter_within (λ y, y < a)); try done. cbn. lia. }
    rewrite <- Hlo. destruct (hi <=? _)%nat; [done|]. destruct Ha as [_ Hp]. apply (same_prefix_le _ hi) in Hp as []; [|done].
    rewrite !sub_column_take. by rewrite sp_symbol, sp_ts, sp_open, sp_high, sp_low, sp_close, sp_volume, sp_regime.
  - assert (Hno : ∀ s, validated s → searchsorted_right (sr_ts s) b = hi → (hi <=? searchsorted_left (sr_ts s) a)%nat = true).
    { intros s Hv <-. pose proof (validated_inv s Hv) as (_ & _ & _ & _ & _ & _ & _ & Hs & _). apply Nat.leb_le.
      rewrite left_law, right_law by by apply sorted_lt_le. apply length_filter_mono. cbn. lia. }
    by rewrite (Hno s1 V1 eq_refl), (Hno s2 V2 (eq_sym Hhi)).
Qed.

Lemma mapR_ext2 {A B} (f g : A → result B) l k : Forall2 (λ x y, f x = g y) l k → mapR f l = mapR g k.
Proof. induction 1 as [|x y l k E _ IH]; cbn; [done|]. rewrite E. destruct (g y); cbn; [by rewrite IH|done]. Qed.

Lemma market_slice_agree d1 d2 a b : market_ok d1 → market_ok d2 → markets_agree T d1 d2 → b <= T →
  market_slice_time d1 a b = market_slice_time d2 a b.
Proof.
  intros [S1 _ _ _] [S2 _ _ _] Ha Hb. unfold market_slice_time.
  rewrite (mapR_ext2 _ (λ kv, slice_time kv.2 a b) (md_series d1) (md_series d2)); [done|].
  revert S1 S2. induction Ha as [|x y m1 m2 [_ Hxy] _ IH]; intros S1 S2; [constructor|].
  apply Forall_cons in S1 as [[_ V1] S1]. apply Forall_cons in S2 as [[_ V2] S2]. constructor; [by apply slice_time_agree|by apply IH].
Qed.

(** The timeline up to [T] is shared. *)
Lemma timeline_item d1 d2 i t : market_ok d1 → market_ok d2 → markets_agree T d1 d2 → t <= T →
  timeline d1 !! i = Some t → timeline d2 !! i = Some t.
Proof.
  intros O1 O2 Ha Ht Hi. pose proof (timelines_agree T d1 d2 O1 O2 Ha) as E.
  rewrite (sorted_split T (timeline d1) (mk_sorted d1 O1)) in Hi. rewrite (sorted_split T (timeline d2) (mk_sorted d2 O2)), <- E.
  apply lookup_app_Some in Hi as [Hi|[_ Hi]]; [by apply lookup_app_l_Some|].
  apply list_elem_of_lookup_2, list_elem_of_filter in Hi as [Hi _]. by destruct Hi.
Qed.

(** A slice of a market lies in its window. *)
Lemma market_slice_within d a b d' : market_ok d → market_slice_time d a b = Ok d' →
  ∃ l, make_market l = Ok d' ∧ Forall validated l ∧ ∀ t, t ∈ timeline d' → a <= t <= b.
Proof.
  intros [Hs _ _ _]. unfold market_slice_time. intros (parts & Hp%mapR_Ok & Hm)%bind_ok.
  apply bind_ok in Hm as ([] & _ & Hm). exists (omap id parts). split; [done|].
  assert (Hl : Forall (λ s, validated s ∧ ∀ t, t ∈ sr_ts s → a <= t <= b) (omap id parts)).
  { clear Hm. induction Hp as [|kv p m parts E _ IH]; [constructor|]. apply Forall_cons in Hs as [[_ Hv] Hs].
    destruct (slice_is_the_window kv.2 a b Hv) as (r & Er & Hr). rewrite E in Er. injection Er as ->.
    destruct r as [s|]; cbn; [|by apply IH]. constructor; [|by apply IH]. destruct Hr as (Et & Hvs & _). split; [done|].
    intros t. rewrite Et, list_elem_of_filter. tauto. }
  assert (Hv : Forall validated (omap id parts)) by (eapply Forall_impl; [exact Hl|by intros s [? _]]). split; [done|].
  intros t Ht. destruct (make_market_ok _ _ Hm Hv) as [_ _ _ Hmerged]. apply Hmerged in Ht as (s & Hin & Ht).
  unfold make_market in Hm. apply bind_ok in Hm as ([] & _ & Hm). apply bind_ok in Hm as ([] & _ & [= <-]). cbn in Hin.
  apply list_elem_of_fmap in Hin as ([k s'] & -> & Hin). rewrite sort_keys_perm in Hin.
  apply list_elem_of_fmap in Hin as (s0 & [= -> ->] & Hin). rewrite Forall_forall in Hl. by apply (Hl s0 Hin).
Qed.
End slices.

(** ** The fit and the walk *)

Section walk.
Context `{NumpyLaws} `{HS : Statistics} (log_return_std : list pyfloat → pyfloat) (rng : nat → Z) (rng_nonneg : ∀ n, 0 <= rng n).
Context {S : Type} (strategy : S → MarketView → PortfolioSnapshot → result (list OrderIntent * S)) (factory : Params → result S).
#[local] Abbreviation run_backtest := (run_backtest log_return_std rng strategy).
#[local] Abbreviation try_params := (try_params log_return_std rng strategy factory).
#[local] Abbreviation _fit_window := (_fit_window log_return_std rng strategy factory).
#[local] Abbreviation _evaluate_window := (_evaluate_window log_return_std rng strategy factory).
#[local] Abbreviation run_walk_forward := (run_walk_forward log_return_std rng strategy factory).

Lemma np_item_lookup l i t : 0 <= i → np_item l i = Ok t ↔ l !! Z.to_nat i = Some t.
Proof.
  intros Hi. unfold np_item. destruct (Z.ltb_spec i 0); [lia|]. destruct (l !! Z.to_nat i); [|done]. split; congruence.
Qed.

(** The parameters of a window depend on nothing after its training range: on two markets that agree
    until some time, the fit of a window whose training range ends by then is the same, in its score, its
    parameters, its training run and its exceptions. *)
Theorem fit_ignores_the_future T l1 d1 l2 d2 combos w cfg bt b :
  make_market l1 = Ok d1 → Forall validated l1 → make_market l2 = Ok d2 → Forall validated l2 → markets_agree T d1 d2 →
  0 <= train_start w < train_end w → timeline d1 !! Z.to_nat (train_end w - 1) = Some b → b <= T →
  _fit_window d1 combos w cfg bt = _fit_window d2 combos w cfg bt.
Proof.
  intros M1 V1 M2 V2 Ha Hw Hb HbT. pose proof (make_market_ok l1 d1 M1 V1) as O1. pose proof (make_market_ok l2 d2 M2 V2) as O2.
  destruct (lookup_lt_is_Some_2 (timeline d1) (Z.to_nat (train_start w))) as [a Hta].
  { apply lookup_lt_Some in Hb. lia. }
  assert (Hab : a <= b).
  { destruct (decide (Z.to_nat (train_start w) = Z.to_nat (train_end w - 1))) as [E|E]; [rewrite E in Hta; rewrite Hta in Hb; injection Hb; lia|].
    apply (sorted_lookup_lt _ _ _ _ _ (mk_sorted d1 O1) Hta) in Hb; lia. }
  unfold BtWfa._fit_window.
  rewrite (proj2 (np_item_lookup (timeline d1) (train_start w) a ltac:(lia)) Hta).
  rewrite (proj2 (np_item_lookup (timeline d1) (train_end w - 1) b ltac:(lia)) Hb).
  rewrite (proj2 (np_item_lookup (timeline d2) (train_start w) a ltac:(lia))) by (apply (timeline_item T d1 d2); auto; lia).
  rewrite (proj2 (np_item_lookup (timeline d2) (train_end w - 1) b ltac:(lia))) by (apply (timeline_item T d1 d2); auto; lia).
  cbn [mbind result_bind]. by rewrite (market_slice_agree T d1 d2 a b O1 O2 Ha HbT).
Qed.

Lemma float_ltb_transitive a b c : float_ltb a b = true → float_ltb b c = true → float_ltb a c = true.
Proof.
  destruct a as [m1 e1|[]|] eqn:Ea, b as [m2 e2|[]|] eqn:Eb, c as [m3 e3|[]|] eqn:Ec; try done.
  destruct (common_exp3 a b c) as (K & _ & H1 & H2 & H3); [by subst..|]. subst.
  rewrite !(float_ltb_sc K) by done. rewrite !Z.ltb_lt. lia.
Qed.

(** One more candidate. *)
Definition beats_all (train : MarketData) (cfg : WfaConfig) (bt : BacktestConfig) (done_ : list Params) (best : option Best) : Prop :=
  match best with
  | None => done_ = []
  | Some b => best_params b ∈ done_
      ∧ (∃ s0, factory (best_params b) = Ok s0 ∧ run_backtest train s0 bt = Ok (best_result b)
             ∧ _score (res_metrics (best_result b)) (objective cfg) = Ok (best_score b))
      ∧ ∀ p, p ∈ done_ → ∃ s0 res score, factory p = Ok s0 ∧ run_backtest train s0 bt = Ok res
          ∧ _score (res_metrics res) (objective cfg) = Ok score ∧ float_ltb (best_score b) score = false
  end.
Lemma try_params_best train cfg bt done_ best p best' :
  beats_all train cfg bt done_ best → try_params train cfg bt best p = Ok best' → beats_all train cfg bt (done_ ++ [p]) best'.
Proof.
  unfold BtWfa.try_params. intros Hb (s0 & Hs & Ht)%bind_ok. apply bind_ok in Ht as (res & Hr & Ht).
  apply bind_ok in Ht as (score & Hsc & [= <-]).
  assert (Hp : p ∈ done_ ++ [p]) by (apply elem_of_app; right; by left).
  destruct best as [b|]; cbn in Hb.
  2: { subst done_. cbn. split; [by left|]. split; [by exists s0|]. intros q Hq%list_elem_of_singleton. subst q. exists s0, res, score.
    by rewrite float_ltb_irrefl. }
  destruct Hb as (Hin & Hown & Hall). destruct (float_ltb (best_score b) score) eqn:E; cbn.
  - split; [done|]. split; [by exists s0|]. intros q [Hq|Hq%list_elem_of_singleton]%elem_of_app.
    + destruct (Hall q Hq) as (s & r & sc & H1 & H2 & H3 & H4). exists s, r, sc. ands; try done.
      apply not_true_iff_false. intros Hlt. by rewrite (float_ltb_transitive _ _ _ E Hlt) in H4.
    + subst q. exists s0, res, score. by rewrite float_ltb_irrefl.
  - split; [apply elem_of_app; by left|]. split; [done|]. intros q [Hq|Hq%list_elem_of_singleton]%elem_of_app; [by apply Hall|].
    subst q. by exists s0, res, score.
Qed.
Lemma try_all_best train cfg bt done_ best ps best' :
  beats_all train cfg bt done_ best → foldR (try_params train cfg bt) best ps = Ok best' → beats_all train cfg bt (done_ ++ ps) best'.
Proof.
  revert done_ best. induction ps as [|p ps IH]; intros done_ best Hb; cbn; [intros [= <-]; by rewrite app_nil_r|].
  intros (best1 & H1 & H2)%bind_ok. rewrite (cons_middle p), app_assoc. eapply IH; [|done]. by eapply try_params_best.
Qed.

(** The slice the fit looks at, and its result. *)
Lemma fit_window_inv d combos w cfg bt b : _fit_window d combos w cfg bt = Ok b →
  ∃ x y train, np_item (timeline d) (train_start w) = Ok x ∧ np_item (timeline d) (train_end w - 1) = Ok y
  ∧ market_slice_time d x y = Ok train ∧ beats_all train cfg bt combos (Some b).
Proof.
  unfold BtWfa._fit_window. intros (x & Hx & Hf)%bind_ok. apply bind_ok in Hf as (y & Hy & Hf).
  apply bind_ok in Hf as (train & Ht & Hf). apply bind_ok in Hf as (best & Hb & Hf). exists x, y, train. ands; try done.
  apply (try_all_best train cfg bt [] None) in Hb; [|done]. destruct best; [|done]. by injection Hf as <-.
Qed.

Lemma evaluate_window_inv l d p w cfg bt r : make_market l = Ok d → Forall validated l → _evaluate_window d p w cfg bt = Ok r →
  0 <= test_start w <= test_end w - 1 →
  ∃ x y, timeline d !! Z.to_nat (test_start w) = Some x ∧ timeline d !! Z.to_nat (test_end w - 1) = Some y
  ∧ Forall (λ t, x <= t_exit_ts_ns t <= y) (res_trades r)
  ∧ Forall (λ f, x <= f_timestamp_ns f <= y) (res_fills r) ∧ Forall (λ p, x <= e_ts_ns p <= y) (res_equity r).
Proof.
  unfold BtWfa._evaluate_window. intros Hm Hv (a & Ha & He)%bind_ok Hw. apply bind_ok in He as (y & Hy & He).
  apply bind_ok in He as (test & Ht & He). apply bind_ok in He as (x & Hx & He). apply bind_ok in He as (bt' & Hbt & He).
  apply bind_ok in He as (s0 & _ & He). apply np_item_lookup in Hy; [|lia]. apply np_item_lookup in Hx; [|lia].
  exists x, y. split; [done|]. split; [done|].
  destruct (market_slice_within d a y test (make_market_ok l d Hm Hv) Ht) as (l' & Hl' & Hv' & Hin).
  assert (Htr : ∀ t, trades_at bt' t → x ≤ t).
  { unfold make_backtest in Hbt. apply bind_ok in Hbt as (? & _ & Hbt). apply bind_ok in Hbt as (? & _ & Hbt). by injection Hbt as <-. }
  destruct (run_within _ rng rng_nonneg strategy l' test s0 bt' r Hl' Hv' He) as (Gt & Gf & Gc).
  split; [|split]; (eapply Forall_impl; [eassumption|]); cbn; intros z [Hz1 Hz2]; apply Hin in Hz1; apply Htr in Hz2; lia.
Qed.

Lemma Forall2_and_l {A B} (P : A → Prop) (Q : A → B → Prop) l k :
  Forall P l → Forall2 Q l k → Forall2 (λ x y, P x ∧ Q x y) l k.
Proof. intros Hl Hk. induction Hk; [constructor|]. apply Forall_cons in Hl as [? ?]. constructor; auto. Qed.

(** C31: A walk-forward analysis is out of sample. Its windows are the generated splits, they satisfy the purge
    and embargo gap and never overlap; in each, the parameters are in the grid and no other combination
    scores higher on the training slice, which ends before the test range begins; the pooled trades of a
    window close inside its test range; and the number of configurations tried is that of all its fits. *)
Theorem walk_forward_is_out_of_sample l d grid cfg bt res :
  make_market l = Ok d → Forall validated l → run_walk_forward d grid cfg bt = Ok res →
  ∃ combos specs, _expand_grid grid = Ok combos
  ∧ generate_splits (Z.of_nat (length (timeline d))) (train_size cfg) (test_size cfg) (step cfg) (mode cfg) (embargo cfg) (purge cfg) = Ok specs
  ∧ no_leakage (purge cfg) (embargo cfg) specs
  ∧ Forall2 (λ s w, spec w = s
      ∧ (∃ best, _fit_window d combos s cfg bt = Ok best ∧ w_best_params w = best_params best ∧ best_params best ∈ combos
          ∧ ∃ a b train, timeline d !! Z.to_nat (train_start s) = Some a ∧ timeline d !! Z.to_nat (train_end s - 1) = Some b
              ∧ market_slice_time d a b = Ok train ∧ beats_all train cfg bt combos (Some best))
      ∧ ∃ x y z, timeline d !! Z.to_nat (train_end s - 1) = Some z ∧ timeline d !! Z.to_nat (test_start s) = Some x
          ∧ timeline d !! Z.to_nat (test_end s - 1) = Some y ∧ z < x
          ∧ Forall (λ t, x <= t_exit_ts_ns t <= y) (test_trades w)) specs (r_windows res)
  ∧ n_configurations_tried (aggregate res) = Z.of_nat (length combos) * Z.of_nat (length specs).
Proof.
  intros Hm Hv. unfold BtWfa.run_walk_forward. intros (combos & Hc & Hr)%bind_ok. apply bind_ok in Hr as (specs & Hs & Hr).
  apply bind_ok in Hr as ([] & Hno & Hr). apply bind_ok in Hr as (results & Hres%mapR_Ok & Hr).
  apply bind_ok in Hr as (agg & Hagg & [= <-]). cbn [r_windows aggregate].
  exists combos, specs. split; [done|]. split; [done|]. split; [by apply assert_no_leakage_ok|]. split.
  2: { unfold _aggregate in Hagg. repeat (apply bind_ok in Hagg as (? & _ & Hagg)). injection Hagg as <-. cbn.
    rewrite length_fmap. by rewrite (Forall2_length _ _ _ Hres). }
  pose proof Hs as Hgen. apply generated_windows in Hgen; [|lia].
  apply Forall2_fmap_r. eapply Forall2_impl; [exact (Forall2_and_l _ _ _ _ Hgen Hres)|]. cbn.
  intros s [score w] [(Ht1 & Ht2 & Ht3) Hrun].
  unfold run_window in Hrun. apply bind_ok in Hrun as (best & Hfit & Hrun). apply bind_ok in Hrun as (test & Htest & Hrun).
  apply bind_ok in Hrun as (sc & _ & Hrun). apply bind_ok in Hrun as (bd & _ & Hrun). injection Hrun as _ <-. cbn.
  destruct (fit_window_inv _ _ _ _ _ _ Hfit) as (a & b & train & Ha & Hb & Htrain & Hbest).
  apply np_item_lookup in Ha; [|lia]. apply np_item_lookup in Hb; [|lia].
  destruct (evaluate_window_inv l d _ s cfg bt test Hm Hv Htest) as (x & y & Hx & Hy & Htr & _); [lia|].
  split; [done|]. split.
  - exists best. split; [done|]. split; [done|]. split; [apply Hbest|]. by exists a, b, train.
  - exists x, y, b. ands; try done. apply (sorted_lookup_lt _ _ _ _ _ (mk_sorted d (make_market_ok l d Hm Hv)) Hb Hx). lia.
Qed.
End walk.

(** ** A small walk *)

Section example.
#[local] Existing Instance numpy_lists.
#[local] Existing Instance numpy_lists_laws.
#[local] Existing Instance simple_statistics.

(** Six bars; the last two at a price of one's choice. *)
Definition six_bars (last_ : pyfloat) : result SymbolSeries :=
  let prices := [fl "2"; fl "2"; fl "3"; fl "3"; last_; last_] in
  create (u "AAA") [10; 20; 30; 40; 50; 60] prices prices prices prices (replicate 6 (fl "500")) None.
Definition bt_example : BacktestConfig :=
  mkBacktest (D 1000) (mkCost D_ZERO D_ZERO (D 1) (fl "0") IMPACT_NONE (fl "0") 20)
    (mkExecution 0 0 (fl "0.5") None OPEN None false true None) (mkMetricsConfig (fl "252") f0) None None true.
Definition wfa_example : WfaConfig := mkWfa 3 2 None ROLLING 1 0 1 (u "total_return") 1.
(** The fraction invested is the state's first part. *)
Definition fraction_strategy (s : decimal * bool) (v : MarketView) (p : PortfolioSnapshot) : result (list OrderIntent * (decimal * bool)) :=
  '(intents, done_) ← buy_and_hold (u "AAA") s.1 s.2 v p; Ok (intents, (s.1, done_)).
Definition fraction_factory (p : Params) : result (decimal * bool) :=
  match get p (u "fraction") with Some x => Ok (dec_of_float x, false) | None => raise KeyError (u "fraction") end.
Definition grid_example : list (pystr * list pyfloat) := [(u "fraction", [fl "0.25"; fl "0.5"])].
#[local] Abbreviation walk_example d := (run_walk_forward (λ _, f0) (λ _, 0) fraction_strategy fraction_factory d grid_example wfa_example bt_example).

Example splits_run :
  generate_splits 9 3 2 None ROLLING 1 0 = Ok [mkSpec 0 0 3 4 6; mkSpec 1 2 5 6 8]
  ∧ generate_splits 9 4 2 None ANCHORED 1 1 = Ok [mkSpec 0 0 3 5 7; mkSpec 1 0 5 7 9]
  ∧ is_ok (generate_splits 5 3 2 None ROLLING 1 0) = false.
Proof. vm_compute. repeat split. Qed.
Example grid_runs : _expand_grid [(u "b", [fl "1"; fl "2"]); (u "a", [fl "3"; fl "4"])]
  = Ok [[(u "a", fl "3"); (u "b", fl "1")]; [(u "a", fl "3"); (u "b", fl "2")]; [(u "a", fl "4"); (u "b", fl "1")]; [(u "a", fl "4"); (u "b", fl "2")]].
Proof. vm_compute. reflexivity. Qed.

Definition six_market (last_ : pyfloat) : result MarketData := s ← six_bars last_; make_market [s].
Example walk_runs :
  match d ← six_market (fl "4"); walk_example d with
  | Ok res => (λ w, (spec w, w_best_params w)) <$> r_windows res = [(mkSpec 0 0 3 4 6, [(u "fraction", fl "0.5")])]
              ∧ n_configurations_tried (aggregate res) = 2
  | Raise _ => False end.
Proof. vm_compute. split; reflexivity. Qed.

Lemma six_market_ok last_ d : six_market last_ = Ok d →
  ∃ s, six_bars last_ = Ok s ∧ make_market [s] = Ok d ∧ Forall validated [s] ∧ timeline d = np_unique (sr_ts s ++ []).
Proof.
  unfold six_market. intros (s & Hs & Hd)%bind_ok. exists s. split; [done|]. split; [done|]. split.
  - constructor; [|done]. by apply create_validated in Hs as [? _].
  - by injection Hd as <-.
Qed.
Lemma six_bars_agree a b s1 s2 : six_bars a = Ok s1 → six_bars b = Ok s2 → agree_until 40 s1 s2 ∧ sr_ts s1 = [10; 20; 30; 40; 50; 60].
Proof.
  unfold six_bars, create. intros ([] & _ & [= <-])%bind_ok ([] & _ & [= <-])%bind_ok. split; [split; [reflexivity|by split]|done].
Qed.
Lemma markets_ok : is_ok (six_market (fl "4")) && is_ok (six_market (fl "1")) = true.
Proof. vm_compute. reflexivity. Qed.
Lemma six_markets : ∃ d1 d2, six_market (fl "4") = Ok d1 ∧ six_market (fl "1") = Ok d2.
Proof.
  pose proof markets_ok as H. destruct (six_market (fl "4")) as [d1|], (six_market (fl "1")) as [d2|]; try done. by exists d1, d2.
Qed.
Lemma walk_example_ok : ∃ d res, six_market (fl "4") = Ok d ∧ walk_example d = Ok res.
Proof.
  pose proof walk_runs as H. destruct (six_market (fl "4")) as [d|]; [|done]. cbn [mbind result_bind] in H.
  destruct (walk_example d) as [res|] eqn:E; [|done]. by exists d, res.
Qed.
Lemma six_timeline : np_unique ([10; 20; 30; 40; 50; 60] ++ []) !! 2%nat = Some 30.
Proof. vm_compute. reflexivity. Qed.

Lemma splits_are_the_windows_that_fit_witness :
  generate_splits 9 3 2 None ROLLING 1 0 = Ok (window 3 2 2 ROLLING 1 0 <$> seqZ 0 2).
Proof. refine (proj1 (splits_are_the_windows_that_fit 9 3 2 None ROLLING 1 0 ltac:(lia)) _). split; cbn; lia. Defined.

Lemma fit_ignores_the_future_witness : ∃ d1 d2, markets_agree 40 d1 d2 ∧
  _fit_window (λ _, f0) (λ _, 0) fraction_strategy fraction_factory d1 [[(u "fraction", fl "0.5")]] (mkSpec 0 0 3 4 6) wfa_example bt_example
  = _fit_window (λ _, f0) (λ _, 0) fraction_strategy fraction_factory d2 [[(u "fraction", fl "0.5")]] (mkSpec 0 0 3 4 6) wfa_example bt_example.
Proof.
  destruct six_markets as (d1 & d2 & (s1 & B1 & M1 & V1 & T1)%six_market_ok & (s2 & B2 & M2 & V2 & _)%six_market_ok).
  destruct (six_bars_agree _ _ _ _ B1 B2) as [Hb Hts]. exists d1, d2.
  assert (Ha : markets_agree 40 d1 d2).
  { unfold markets_agree. rewrite (one_series s1 d1 M1), (one_series s2 d2 M2). constructor; [|constructor].
    split; [exact (sp_symbol _ _ _ (proj2 Hb))|exact Hb]. }
  split; [exact Ha|].
  refine (fit_ignores_the_future (λ _, f0) (λ _, 0) fraction_strategy fraction_factory 40 [s1] d1 [s2] d2 _ _ _ _ 30 M1 V1 M2 V2 Ha _ _ _).
  - cbn. lia.
  - rewrite T1, Hts. exact six_timeline.
  - lia.
Defined.

Lemma walk_forward_is_out_of_sample_witness : ∃ d res, walk_example d = Ok res ∧ ∃ specs, no_leakage 0 1 specs
  ∧ n_configurations_tried (aggregate res) = 2 * Z.of_nat (length specs).
Proof.
  destruct walk_example_ok as (d & res & (s & _ & M & V & _)%six_market_ok & Hr). exists d, res. split; [exact Hr|].
  destruct (walk_forward_is_out_of_sample (λ _, f0) (λ _, 0) (λ _, Z.le_refl 0) fraction_strategy fraction_factory
    [s] d grid_example wfa_example bt_example res M V Hr) as (combos & specs & Hc & _ & Hno & _ & Hn).
  exists specs. split; [exact Hno|]. injection Hc as <-. exact Hn.
Defined.
End example.
