(* ===== verification/RdModel.v ===== *)
(** * Regime detector: labels, features and model ([labels.py], [features.py], [model.py])

    The feature matrix of the latest bars, the labelling of the states of a fitted hidden Markov model
    and the inference of the current regime. hmmlearn's fit and posteriors, the Cholesky test and
    numpy's logarithm and statistics are parameters. *)
From Stdlib Require Import Sorted.
From S2P Require Import Prelude PyStr PyDecimal PyFloat PyFloatFacts.
From S2P Require BtMetrics.

(** ** Labels ([labels.py]) *)

Inductive RegimeLabel := UNKNOWN | TRENDING_BULL | TRENDING_BEAR | HIGH_VOL_CHOP | LOW_VOL_CHOP | CRISIS.
#[export] Instance RegimeLabel_eq_dec : EqDecision RegimeLabel. Proof. solve_decision. Defined.
Definition label_value (l : RegimeLabel) : pystr :=
  match l with
  | UNKNOWN => u "REGIME_UNKNOWN" | TRENDING_BULL => u "TRENDING_BULL" | TRENDING_BEAR => u "TRENDING_BEAR"
  | HIGH_VOL_CHOP => u "HIGH_VOL_CHOP" | LOW_VOL_CHOP => u "LOW_VOL_CHOP" | CRISIS => u "CRISIS" end.
Definition STATE_REGIMES : list RegimeLabel := [TRENDING_BULL; TRENDING_BEAR; HIGH_VOL_CHOP; LOW_VOL_CHOP; CRISIS].
Definition N_STATES : nat := length STATE_REGIMES.

(** ** Features ([features.py]) *)

Definition N_FEATURES : nat := 4.
Definition RVOL_WINDOW : nat := 20.
Definition RVOL_MIN_PERIODS : nat := 5.
(** [float(np.sqrt(252 * 6.5 * 3600))]. *)
Definition ANNUALISATION : pyfloat :=
  match BtMetrics.float_sqrt (fl "5896800.0") with Ok x => x | Raise _ => FNaN end.
Definition SCALE_FLOOR : pyfloat := fl "1e-12".
Definition f0 : pyfloat := FFin 0 0.
Definition f1 : pyfloat := FFin 1 0.

(** A cell: null, an integer or a float of the response. *)
Inductive Cell := CNone | CInt (z : Z) | CFloat (x : pyfloat).
Definition OverflowError : exn_class := OtherError (u "OverflowError").
Definition cell_float (c : Cell) : result pyfloat :=
  match c with
  | CNone => Ok FNaN
  | CInt z => match round_int z with
              | FInf _ => raise OverflowError (u "int too large to convert to float") | x => Ok x end
  | CFloat x => Ok x
  end.
Definition finite_or_nan (x : pyfloat) : pyfloat := if is_finite_float x then x else FNaN.
Definition _to_float_array (values : list Cell) : result (list pyfloat) :=
  match mapR cell_float values with Ok out => Ok (finite_or_nan <$> out) | Raise e => Raise e end.
Definition positive_or_nan (x : pyfloat) : pyfloat := if float_leb x f0 then FNaN else x.

Abbreviation Matrix := (list (list pyfloat)).
Definition finite_row (row : list pyfloat) : bool := forallb is_finite_float row.
Definition np_diff (l : list pyfloat) : list pyfloat := zip_with (λ a b, float_sub b a) l (tail l).

Record FeatureBuild := mkBuild { matrix : option Matrix; rows_in : Z; rows_used : Z; reason : option pystr }.
Record Scaler := mkScaler { sc_mean : list pyfloat; sc_scale : list pyfloat }.

Section features.
Context (np_log : pyfloat → pyfloat) (np_std1 np_std0 np_mean : list pyfloat → pyfloat).

Definition chunk_at (l : list pyfloat) (i : nat) : list pyfloat := drop (S i - RVOL_WINDOW) (take (S i) l).
Definition vol_of (chunk : list pyfloat) : pyfloat :=
  let finite := List.filter is_finite_float chunk in
  if (RVOL_MIN_PERIODS <=? length finite)%nat then float_mul (np_std1 finite) ANNUALISATION else FNaN.
Definition _rolling_vol (log_returns : list pyfloat) : list pyfloat :=
  (λ i, vol_of (chunk_at log_returns i)) <$> seq 0 (length log_returns).

Fixpoint column_stack (a b c d : list pyfloat) : Matrix :=
  match a, b, c, d with
  | x :: a, y :: b, z :: c, w :: d => [x; y; z; w] :: column_stack a b c d
  | _, _, _, _ => []
  end.
Definition extract_features (mid_prices spreads ofis : list Cell) : result FeatureBuild :=
  let n := length mid_prices in
  if negb ((length spreads =? n)%nat && (length ofis =? n)%nat) then
    Ok (mkBuild None (Z.of_nat n) 0 (Some (u "column_length_mismatch")))
  else if (n <? 2)%nat then Ok (mkBuild None (Z.of_nat n) 0 (Some (u "too_few_rows")))
  else
    prices0 ← _to_float_array mid_prices;
    let prices := positive_or_nan <$> prices0 in
    spread_arr ← _to_float_array spreads;
    ofi_arr ← _to_float_array ofis;
    let log_returns := np_diff (np_log <$> prices) in
    let rvol := _rolling_vol log_returns in
    let spread_norm := zip_with BtMetrics.np_div (tail spread_arr) (tail prices) in
    let all := column_stack log_returns rvol spread_norm (tail ofi_arr) in
    let kept := List.filter finite_row all in
    if (length kept =? 0)%nat then Ok (mkBuild None (Z.of_nat n) 0 (Some (u "no_finite_rows")))
    else Ok (mkBuild (Some kept) (Z.of_nat n) (Z.of_nat (length kept)) None).

(** The columns of a matrix with [N_FEATURES] columns. *)
Definition column (m : Matrix) (j : nat) : list pyfloat := (λ row, default FNaN (row !! j)) <$> m.
Definition Scaler_fit (m : Matrix) : Scaler :=
  mkScaler ((λ j, np_mean (column m j)) <$> seq 0 N_FEATURES)
    ((λ j, let std := np_std0 (column m j) in if float_ltb SCALE_FLOOR std then std else f1) <$> seq 0 N_FEATURES).
Definition transform (s : Scaler) (m : Matrix) : Matrix :=
  (λ row, zip_with BtMetrics.np_div (zip_with float_sub row (sc_mean s)) (sc_scale s)) <$> m.
End features.

(** ** The model ([model.py]) *)

Definition SMOOTHING_BARS : nat := 5.
Definition _STOCHASTIC_TOL : pyfloat := fl "1e-6".
Definition ModelError : exn_class := OtherError (u "ModelError").
Definition TrainingError : exn_class := OtherError (u "TrainingError").
Definition LinAlgError : exn_class := OtherError (u "LinAlgError").
Definition FloatingPointError : exn_class := OtherError (u "FloatingPointError").

Record HmmParams := mkParams {
  startprob : list pyfloat; transmat : Matrix; means : Matrix; covars : list Matrix }.
Record TrainedModel := mkModel {
  params : HmmParams; scaler : Scaler; labels : list RegimeLabel; trained_at : pyfloat; n_train_rows : Z }.
Record Prediction := mkPrediction {
  label : RegimeLabel; confidence : pyfloat; state_index : option Z; p_reason : option pystr }.
Definition unknown (reason : pystr) : Prediction := mkPrediction UNKNOWN f0 None (Some reason).

(** *** Labelling *)

(** The first of the positions whose value is not beaten: [np.argmax], [np.argmin] of finite values. *)
Fixpoint first_best (beats : pyfloat → pyfloat → bool) (values : list pyfloat) (best : nat) (rest : list nat) : nat :=
  match rest with
  | [] => best
  | i :: rest =>
      first_best beats values (if beats (default FNaN (values !! i)) (default FNaN (values !! best)) then i else best) rest
  end.
Definition larger (a b : pyfloat) : bool := float_ltb b a.
Definition smaller (a b : pyfloat) : bool := float_ltb a b.
Definition _pick (remaining : list nat) (values : list pyfloat) (largest : bool) : nat :=
  match remaining with
  | [] => 0
  | i :: rest => first_best (if largest then larger else smaller) values i rest
  end.

Definition pick_step (st : list nat * list (nat * RegimeLabel)) (s : RegimeLabel * list pyfloat * bool)
  : list nat * list (nat * RegimeLabel) :=
  let '(remaining, chosen_labels) := st in
  let '(lab, values, largest) := s in
  let chosen := _pick remaining values largest in
  (filter (λ i, i ≠ chosen) remaining, chosen_labels ++ [(chosen, lab)]).
Definition label_steps (returns vols : list pyfloat) : list (RegimeLabel * list pyfloat * bool) :=
  [(CRISIS, vols, true); (TRENDING_BULL, returns, true); (TRENDING_BEAR, returns, false); (HIGH_VOL_CHOP, vols, true)].
Definition label_of (chosen : list (nat * RegimeLabel)) (i : nat) : RegimeLabel :=
  match List.find (λ c, (c.1 =? i)%nat) chosen with Some c => c.2 | None => LOW_VOL_CHOP end.
Definition label_states (returns vols : list pyfloat) : list RegimeLabel :=
  let '(_, chosen) := fold_left pick_step (label_steps returns vols) (seq 0 N_STATES, []) in
  label_of chosen <$> seq 0 N_STATES.
Definition assign_state_labels (m : Matrix) : result (list RegimeLabel) :=
  if negb ((length m =? N_STATES)%nat && forallb (λ row, (2 <=? length row)%nat) m) then
    raise ModelError (u "means must have shape (5, >= 2)")
  else if negb (forallb finite_row m) then raise ModelError (u "means contain non-finite values")
  else Ok (label_states (column m 0) (column m 1)).

(** *** Parameters *)

Section model.
Context (np_sum np_mean np_std0 : list pyfloat → pyfloat) (cholesky : Matrix → bool).

Definition square (k j : nat) (m : Matrix) : bool := (length m =? k)%nat && forallb (λ row, (length row =? j)%nat) m.
Definition stochastic (row : list pyfloat) : bool :=
  negb (float_ltb _STOCHASTIC_TOL (float_abs (float_sub (np_sum row) f1))) && negb (existsb (λ x, float_ltb x f0) row).
Definition check_array (shape_ok finite : bool) (name : pystr) : result unit :=
  guard_raise (negb shape_ok) ModelError (name ++ u " has an unexpected shape");;
  guard_raise (negb finite) ModelError (name ++ u " contains non-finite values").
Definition validate_params (p : HmmParams) : result unit :=
  check_array (length (startprob p) =? N_STATES)%nat (finite_row (startprob p)) (u "startprob");;
  check_array (square N_STATES N_STATES (transmat p)) (forallb finite_row (transmat p)) (u "transmat");;
  check_array (square N_STATES N_FEATURES (means p)) (forallb finite_row (means p)) (u "means");;
  check_array ((length (covars p) =? N_STATES)%nat && forallb (square N_FEATURES N_FEATURES) (covars p))
    (forallb (forallb finite_row) (covars p)) (u "covars");;
  guard_raise (negb (stochastic (startprob p))) ModelError (u "startprob is not a probability vector");;
  guard_raise (negb (forallb stochastic (transmat p))) ModelError (u "transmat is not row-stochastic");;
  guard_raise (negb (forallb cholesky (covars p))) ModelError (u "covariance is not positive definite").

Definition assemble_model (p : HmmParams) (s : Scaler) (trained_at : pyfloat) (n : Z) : result TrainedModel :=
  validate_params p;;
  labs ← assign_state_labels (means p);
  Ok (mkModel p s labs trained_at n).

(** [GaussianHMM(...).fit]: the parameters, or an exception. *)
Context (fit : Matrix → result HmmParams).
(** ValueError and its subclasses; the rest of the list. *)
Definition is_value_error (c : exn_class) : bool := bool_decide (c ∈ [ValueError; ModelError; TrainingError; LinAlgError]).
Definition caught (c : exn_class) : bool := is_value_error c || bool_decide (c = FloatingPointError).
Definition train_model (features : Matrix) (trained_at : pyfloat) : result TrainedModel :=
  guard_raise (negb (forallb (λ row, (length row =? N_FEATURES)%nat) features)) TrainingError (u "features must have shape (N, 4)");;
  guard_raise (negb (forallb finite_row features)) TrainingError (u "features contain non-finite values");;
  let s := Scaler_fit np_std0 np_mean features in
  match (p ← fit (transform s features); assemble_model p s trained_at (Z.of_nat (length features))) with
  | Ok m => Ok m
  | Raise e => if caught (exn_kind e) then raise TrainingError (u "HMM fit failed: " ++ exn_msg e) else Raise e
  end.

(** *** Inference *)

(** [model.hmm.predict_proba]: a row of posteriors per bar, or an exception. *)
Context (predict_proba : HmmParams → Matrix → result Matrix).
Definition mean_rows (m : Matrix) : list pyfloat := (λ j, np_mean (column m j)) <$> seq 0 N_STATES.
Definition predict_regime (model : option TrainedModel) (features : option Matrix) : result Prediction :=
  match model, features with
  | None, _ => Ok (unknown (u "model_untrained"))
  | Some _, None => Ok (unknown (u "bad_features"))
  | Some model, Some features =>
      if negb (forallb (λ row, (length row =? N_FEATURES)%nat) features) then Ok (unknown (u "bad_features"))
      else if (length features <? 1)%nat || negb (forallb finite_row features) then Ok (unknown (u "bad_features"))
      else
        let window := transform (scaler model) (drop (length features - SMOOTHING_BARS) features) in
        match predict_proba (params model) window with
        | Raise e => if caught (exn_kind e) then Ok (unknown (u "inference_error")) else Raise e
        | Ok posteriors =>
            let mean_posterior := mean_rows posteriors in
            if negb (finite_row mean_posterior) then Ok (unknown (u "inference_error"))
            else
              let state := _pick (seq 0 N_STATES) mean_posterior true in
              match labels model !! state with
              | Some l => Ok (mkPrediction l (default FNaN (mean_posterior !! state)) (Some (Z.of_nat state)) None)
              | None => raise (OtherError (u "IndexError")) (u "tuple index out of range")
              end
        end
  end.

(** [f"{x:.3f}"]. *)
Definition fixed3 (x : pyfloat) : pystr :=
  match x with
  | FFin m e =>
      let n := div_half_even (Z.abs m * 1000 * 2 ^ Z.max 0 e) (2 ^ Z.max 0 (- e)) in
      (if m <? 0 then u "-" else []) ++ str_of_Z (n / 1000) ++ u "."
      ++ (let ds := str_of_Z (n mod 1000) in replicate (3 - length ds) 48%N ++ ds)
  | FInf neg => if neg then u "-inf" else u "inf"
  | FNaN => u "nan"
  end.
Definition apply_confidence_floor (p : Prediction) (floor : pyfloat) : Prediction :=
  if bool_decide (label p = UNKNOWN) || float_leb floor (confidence p) then p
  else mkPrediction UNKNOWN f0 (state_index p) (Some (u "low_confidence:" ++ fixed3 (confidence p))).
End model.

(** ** Labelling: facts *)

Definition value_at (values : list pyfloat) (i : nat) : pyfloat := default FNaN (values !! i).
(** The first of the candidates that no other one beats. *)
Definition is_first_best (beats : pyfloat → pyfloat → bool) (values : list pyfloat) (cands : list nat) (i : nat) : Prop :=
  i ∈ cands ∧ ∀ j, j ∈ cands → beats (value_at values j) (value_at values i) = false
    ∧ ((j < i)%nat → beats (value_at values i) (value_at values j) = true).

(** A strict order in which not being beaten is transitive. *)
Class Beats (beats : pyfloat → pyfloat → bool) : Prop := {
  beats_asym x y : beats x y = true → beats y x = false;
  beats_trans x y z : is_finite_float x = true → is_finite_float y = true → is_finite_float z = true →
    beats x y = true → beats y z = true → beats x z = true;
  beats_weak x y z : is_finite_float x = true → is_finite_float y = true → is_finite_float z = true →
    beats x y = true → beats z y = false → beats x z = true }.
#[export] Instance smaller_beats : Beats smaller.
Proof.
  split; unfold smaller.
  - intros x y Hxy. destruct x as [m1 e1|[]|] eqn:Ex, y as [m2 e2|[]|] eqn:Ey; try done.
    destruct (common_exp x y) as (K & _ & H1 & H2); [by subst..|]. subst.
    revert Hxy. rewrite !(float_ltb_sc K) by done. rewrite Z.ltb_lt, Z.ltb_ge. lia.
  - intros x y z Hx Hy Hz. destruct (common_exp3 x y z Hx Hy Hz) as (K & _ & ? & ? & ?).
    rewrite !(float_ltb_sc K) by done. rewrite !Z.ltb_lt. lia.
  - intros x y z Hx Hy Hz. destruct (common_exp3 x y z Hx Hy Hz) as (K & _ & ? & ? & ?).
    rewrite !(float_ltb_sc K) by done. rewrite !Z.ltb_lt, Z.ltb_ge. lia.
Qed.
#[export] Instance larger_beats : Beats larger.
Proof.
  unfold larger. destruct smaller_beats as [Ha Ht Hw]. unfold smaller in *. split.
  - intros x y Hxy. by apply Ha.
  - intros x y z Hx Hy Hz Hxy Hyz. by apply (Ht z y x).
  - intros x y z Hx Hy Hz. destruct (common_exp3 x y z Hx Hy Hz) as (K & _ & ? & ? & ?).
    rewrite !(float_ltb_sc K) by done. rewrite !Z.ltb_lt, Z.ltb_ge. lia.
Qed.

Section pick.
Context (beats : pyfloat → pyfloat → bool) `{!Beats beats} (values : list pyfloat).
Context (cands : list nat) (Hfin : ∀ i, i ∈ cands → is_finite_float (value_at values i) = true).

Lemma first_best_spec done_ best rest :
  cands = done_ ++ rest → is_first_best beats values done_ best → (∀ i j, i ∈ done_ → j ∈ rest → (i < j)%nat) →
  StronglySorted lt rest → is_first_best beats values cands (first_best beats values best rest).
Proof.
  intros Hc Hb Hlt Hs. revert done_ best Hc Hb Hlt. induction Hs as [|i rest Hs IH Hi]; intros done_ best Hc Hb Hlt; cbn.
  { by rewrite Hc, app_nil_r. }
  assert (Hin : ∀ j, j ∈ done_ ∨ j = i → j ∈ cands) by (rewrite Hc; intros j [?| ->]; apply elem_of_app; [by left|right; by left]).
  destruct Hb as [Hbin Hb]. fold (value_at values i) (value_at values best).
  apply (IH (done_ ++ [i])).
  - by rewrite <- app_assoc.
  - assert (Hi_lt : ∀ j, j ∈ done_ → (j < i)%nat) by (intros j Hj; apply Hlt; [done|by left]).
    destruct (beats (value_at values i) (value_at values best)) eqn:E.
    + split; [apply elem_of_app; right; by left|]. intros j [Hj|Hj%list_elem_of_singleton]%elem_of_app.
      * destruct (Hb j Hj) as [Hjb _]. pose proof (Hfin i (Hin i (or_intror eq_refl))) as F1.
        pose proof (Hfin j (Hin j (or_introl Hj))) as F2. pose proof (Hfin best (Hin best (or_introl Hbin))) as F3.
        assert (Hij : beats (value_at values i) (value_at values j) = true) by by apply (beats_weak _ (value_at values best)).
        split; [by apply beats_asym|done].
      * subst j. split; [|lia]. destruct (beats (value_at values i) (value_at values i)) eqn:E2; [|done].
        pose proof (beats_asym _ _ E2). congruence.
    + split; [apply elem_of_app; by left|]. intros j [Hj|Hj%list_elem_of_singleton]%elem_of_app; [by apply Hb|].
      subst j. split; [done|]. specialize (Hi_lt best Hbin). lia.
  - intros j k [Hj|Hj%list_elem_of_singleton]%elem_of_app Hk; [apply Hlt; [done|by right]|].
    subst j. rewrite Forall_forall in Hi. by apply Hi.
Qed.
End pick.

Lemma pick_spec (values : list pyfloat) (cands : list nat) (largest : bool) :
  cands ≠ [] → StronglySorted lt cands → (∀ i, i ∈ cands → is_finite_float (value_at values i) = true) →
  is_first_best (if largest then larger else smaller) values cands (_pick cands values largest).
Proof.
  intros Hne Hs Hf. destruct cands as [|i rest]; [done|]. cbn. apply StronglySorted_inv in Hs as [Hs Hi].
  assert (Hirr : ∀ (b : bool) x, ((if b then larger else smaller) : pyfloat → pyfloat → bool) x x = false).
  { intros [] x; [unfold larger|unfold smaller]; apply BtMetrics.float_ltb_irrefl. }
  assert (Hone : is_first_best (if largest then larger else smaller) values [i] i).
  { split; [by left|]. intros j ->%list_elem_of_singleton. split; [apply Hirr|lia]. }
  assert (Hlt : ∀ a b, a ∈ [i] → b ∈ rest → (a < b)%nat).
  { intros a b ->%list_elem_of_singleton Hb. rewrite Forall_forall in Hi. by apply Hi. }
  destruct largest; by apply (first_best_spec _ _ _ Hf [i]).
Qed.

Lemma without_perm (l : list nat) c : NoDup l → c ∈ l → l ≡ₚ c :: filter (λ i, i ≠ c) l.
Proof.
  intros Hn Hc. apply NoDup_Permutation; [done| |].
  - constructor; [rewrite list_elem_of_filter; tauto|by apply NoDup_filter].
  - intros x. rewrite elem_of_cons, list_elem_of_filter. destruct (decide (x = c)) as [->|]; tauto.
Qed.
Lemma without_sorted (l : list nat) c : StronglySorted lt l → StronglySorted lt (filter (λ i, i ≠ c) l).
Proof.
  induction 1 as [|x l Hs IH Hx]; [constructor|]. rewrite filter_cons. case_decide; [|done]. constructor; [done|].
  rewrite Forall_forall in Hx |- *. intros y [_ Hy]%list_elem_of_filter. by apply Hx.
Qed.
Lemma sorted_lt_NoDup (l : list nat) : StronglySorted lt l → NoDup l.
Proof.
  induction 1 as [|x l Hs IH Hx]; constructor; [|done]. intros Hin. rewrite Forall_forall in Hx. specialize (Hx x Hin). lia.
Qed.

(** The five choices, in the order they are made. *)
Record labelling (returns vols : list pyfloat) (labs : list RegimeLabel) (crisis bull bear high low : nat) : Prop := {
  lb_states : [crisis; bull; bear; high; low] ≡ₚ seq 0 N_STATES;
  lb_labels : labs !! crisis = Some CRISIS ∧ labs !! bull = Some TRENDING_BULL ∧ labs !! bear = Some TRENDING_BEAR
              ∧ labs !! high = Some HIGH_VOL_CHOP ∧ labs !! low = Some LOW_VOL_CHOP;
  lb_crisis : is_first_best larger vols (seq 0 N_STATES) crisis;
  lb_bull : is_first_best larger returns (filter (λ i, i ≠ crisis) (seq 0 N_STATES)) bull;
  lb_bear : is_first_best smaller returns (filter (λ i, i ≠ bull) (filter (λ i, i ≠ crisis) (seq 0 N_STATES))) bear;
  lb_high : is_first_best larger vols
              (filter (λ i, i ≠ bear) (filter (λ i, i ≠ bull) (filter (λ i, i ≠ crisis) (seq 0 N_STATES)))) high }.

(** One step takes a candidate out. *)
Lemma pick_out (cands : list nat) (values : list pyfloat) (largest : bool) n :
  length cands = S n → StronglySorted lt cands → (∀ i, i ∈ cands → is_finite_float (value_at values i) = true) →
  let c := _pick cands values largest in
  is_first_best (if largest then larger else smaller) values cands c ∧ c ∈ cands
  ∧ cands ≡ₚ c :: filter (λ i, i ≠ c) cands ∧ length (filter (λ i, i ≠ c) cands) = n
  ∧ StronglySorted lt (filter (λ i, i ≠ c) cands) ∧ ∀ i, i ∈ filter (λ i, i ≠ c) cands → i ∈ cands.
Proof.
  intros Hl Hs Hf c. assert (Hne : cands ≠ []) by by destruct cands.
  pose proof (pick_spec values cands largest Hne Hs Hf) as Hb. fold c in Hb. pose proof (proj1 Hb) as Hc.
  pose proof (without_perm cands c (sorted_lt_NoDup cands Hs) Hc) as Hp. ands; try done.
  - apply Permutation_length in Hp. rewrite Hl in Hp. cbn in Hp. lia.
  - by apply without_sorted.
  - intros i [_ Hi]%list_elem_of_filter. done.
Qed.

Lemma label_states_labelling returns vols :
  (∀ i, (i < N_STATES)%nat → is_finite_float (value_at returns i) = true) →
  (∀ i, (i < N_STATES)%nat → is_finite_float (value_at vols i) = true) →
  ∃ crisis bull bear high low, labelling returns vols (label_states returns vols) crisis bull bear high low.
Proof.
  intros Hr Hv. assert (Hseq : ∀ i, i ∈ seq 0 N_STATES → (i < N_STATES)%nat) by (intros i ?%elem_of_seq; lia).
  assert (Hs0 : StronglySorted lt (seq 0 N_STATES)) by (repeat constructor).
  destruct (pick_out (seq 0 N_STATES) vols true 4) as (B1 & I1 & P1 & L1 & S1 & M1); [done|done|auto 10|].
  set (c1 := _pick (seq 0 N_STATES) vols true) in *. set (l1 := filter (λ i, i ≠ c1) (seq 0 N_STATES)) in *.
  destruct (pick_out l1 returns true 3) as (B2 & I2 & P2 & L2 & S2 & M2); [done|done|auto 10|].
  set (c2 := _pick l1 returns true) in *. set (l2 := filter (λ i, i ≠ c2) l1) in *.
  destruct (pick_out l2 returns false 2) as (B3 & I3 & P3 & L3 & S3 & M3); [done|done|auto 10|].
  set (c3 := _pick l2 returns false) in *. set (l3 := filter (λ i, i ≠ c3) l2) in *.
  destruct (pick_out l3 vols true 1) as (B4 & I4 & P4 & L4 & S4 & M4); [done|done|auto 10|].
  set (c4 := _pick l3 vols true) in *. set (l4 := filter (λ i, i ≠ c4) l3) in *.
  destruct l4 as [|c5 [|? ?]] eqn:E4; [done| |done].
  assert (Hperm : [c1; c2; c3; c4; c5] ≡ₚ seq 0 N_STATES) by (by rewrite P1, P2, P3, P4).
  assert (Hlabs : label_states returns vols = label_of [(c1, CRISIS); (c2, TRENDING_BULL); (c3, TRENDING_BEAR); (c4, HIGH_VOL_CHOP)] <$> seq 0 N_STATES) by done.
  assert (Hnd : NoDup [c1; c2; c3; c4; c5]) by (rewrite Hperm; apply NoDup_seq).
  assert (Hget : ∀ c, c ∈ [c1; c2; c3; c4; c5] → label_states returns vols !! c
    = Some (label_of [(c1, CRISIS); (c2, TRENDING_BULL); (c3, TRENDING_BEAR); (c4, HIGH_VOL_CHOP)] c)).
  { intros c Hc. rewrite Hperm in Hc. apply Hseq in Hc. rewrite Hlabs, list_lookup_fmap, lookup_seq_lt by done. done. }
  exists c1, c2, c3, c4, c5. split; try done.
  clear -Hget Hnd. rewrite !Hget by set_solver. unfold label_of, List.find. cbn [fst snd].
  apply NoDup_cons in Hnd as [N1 Hnd]. apply NoDup_cons in Hnd as [N2 Hnd]. apply NoDup_cons in Hnd as [N3 Hnd].
  apply NoDup_cons in Hnd as [N4 _].
  assert (Hneq : ∀ a b : nat, a ≠ b → (a =? b)%nat = false) by (intros a b; apply Nat.eqb_neq).
  rewrite !Nat.eqb_refl, ?(Hneq c1), ?(Hneq c2), ?(Hneq c3), ?(Hneq c4) by set_solver. done.
Qed.

Lemma column_value m i j : forallb finite_row m = true → forallb (λ row, (2 <=? length row)%nat) m = true →
  (i < length m)%nat → (j < 2)%nat → is_finite_float (value_at (column m j) i) = true.
Proof.
  rewrite !forallb_forall. intros Hf Hw Hi Hj. destruct (lookup_lt_is_Some_2 m i Hi) as [row Hrow].
  unfold value_at, column. rewrite list_lookup_fmap, Hrow. cbn. pose proof (list_elem_of_lookup_2 _ _ _ Hrow) as Hin.
  apply list_elem_of_In in Hin. specialize (Hf row Hin). specialize (Hw row Hin). apply Nat.leb_le in Hw.
  destruct (lookup_lt_is_Some_2 row j) as [x Hx]; [lia|]. rewrite Hx. cbn. unfold finite_row in Hf. rewrite forallb_forall in Hf.
  apply Hf, list_elem_of_In. by eapply list_elem_of_lookup_2.
Qed.

(** The labels of a fitted model are a permutation of the five regimes, given by the order of the means
    alone: the most volatile state is the crisis, of the others the best return is the bull and then the
    worst the bear, of the last two the more volatile is the high-volatility chop; ties go to the lowest
    state. Means that are misshapen or not finite are a ModelError. *)
Theorem labels_follow_the_means m :
  (assign_state_labels m = Ok (label_states (column m 0) (column m 1))
   ∧ (∃ crisis bull bear high low,
        labelling (column m 0) (column m 1) (label_states (column m 0) (column m 1)) crisis bull bear high low)
   ∧ label_states (column m 0) (column m 1) ≡ₚ STATE_REGIMES)
  ∨ (∃ e, assign_state_labels m = Raise e ∧ exn_kind e = ModelError)
    ∧ (length m ≠ N_STATES ∨ (∃ row, row ∈ m ∧ ((length row < 2)%nat ∨ finite_row row = false))).
Proof.
  unfold assign_state_labels.
  assert (Hno : ∀ (p : list pyfloat → bool) l, forallb p l = false → ∃ x, x ∈ l ∧ p x = false).
  { intros p l. induction l as [|x l IH]; [done|]. cbn. intros [E|E]%andb_false_iff; [exists x; split; [by left|done]|].
    destruct (IH E) as (y & Hy & ?). exists y. split; [by right|done]. }
  destruct (Nat.eqb_spec (length m) N_STATES) as [Hl|Hl]; cbn [andb negb].
  2: { right. split; [by eexists|by left]. }
  destruct (forallb (λ row, (2 <=? length row)%nat) m) eqn:Ew; cbn [negb].
  2: { right. split; [by eexists|]. right. destruct (Hno _ _ Ew) as (row & Hrow & E). exists row. split; [done|]. left. by apply Nat.leb_gt. }
  destruct (forallb finite_row m) eqn:Ef; cbn [negb].
  2: { right. split; [by eexists|]. right. destruct (Hno _ _ Ef) as (row & Hrow & E). exists row. split; [done|by right]. }
  left. split; [done|].
  destruct (label_states_labelling (column m 0) (column m 1)) as (c1 & c2 & c3 & c4 & c5 & Hlab).
  { intros i Hi. apply column_value; try done; lia. }
  { intros i Hi. apply column_value; try done; lia. }
  split; [by exists c1, c2, c3, c4, c5|]. destruct Hlab as [Hp (E1 & E2 & E3 & E4 & E5) _ _ _ _].
  assert (Hmap : label_states (column m 0) (column m 1)
    = (λ i, default UNKNOWN (label_states (column m 0) (column m 1) !! i)) <$> seq 0 N_STATES) by done.
  rewrite Hmap, <- Hp. cbn [fmap list_fmap]. rewrite E1, E2, E3, E4, E5.
  apply (Permutation_app_comm [CRISIS]).
Qed.

(** Labels depend on the means through their order alone; a rescaling that keeps the order keeps them. *)
Definition same_order (a b : list pyfloat) : Prop :=
  ∀ i j, (i < N_STATES)%nat → (j < N_STATES)%nat →
    float_ltb (value_at a i) (value_at a j) = float_ltb (value_at b i) (value_at b j).
Lemma first_best_order (a b : list pyfloat) (largest : bool) rest best :
  same_order a b → Forall (λ i, i < N_STATES)%nat (best :: rest) →
  first_best (if largest then larger else smaller) a best rest = first_best (if largest then larger else smaller) b best rest
  ∧ (first_best (if largest then larger else smaller) b best rest < N_STATES)%nat.
Proof.
  intros Ho. revert best. induction rest as [|i rest IH]; intros best [Hb Hr]%Forall_cons; [done|].
  apply Forall_cons in Hr as [Hi Hr]. cbn. fold (value_at a i) (value_at a best) (value_at b i) (value_at b best).
  assert (Heq : (if largest then larger else smaller) (value_at a i) (value_at a best)
    = (if largest then larger else smaller) (value_at b i) (value_at b best)).
  { destruct largest; [unfold larger|unfold smaller]; by apply Ho. }
  rewrite Heq. destruct ((if largest then larger else smaller) (value_at b i) (value_at b best)).
  - apply IH. by constructor.
  - apply IH. by constructor.
Qed.
Lemma pick_order (a b : list pyfloat) cands largest :
  same_order a b → Forall (λ i, i < N_STATES)%nat cands → _pick cands a largest = _pick cands b largest.
Proof. intros Ho Hf. destruct cands as [|i rest]; [done|]. cbn. by apply first_best_order. Qed.
Lemma label_states_order returns vols returns' vols' :
  same_order returns returns' → same_order vols vols' → label_states returns vols = label_states returns' vols'.
Proof.
  intros Hr Hv. unfold label_states, label_steps. cbn [fold_left]. unfold pick_step.
  assert (H0 : Forall (λ i, i < N_STATES)%nat (seq 0 N_STATES)) by (by repeat constructor).
  assert (Hstep : ∀ l c, Forall (λ i, i < N_STATES)%nat l → Forall (λ i, i < N_STATES)%nat (filter (λ i, i ≠ c) l)).
  { intros l c. rewrite !Forall_forall. intros H x [_ Hx]%list_elem_of_filter. by apply H. }
  assert (Ha : ∀ l largest, Forall (λ i, i < N_STATES)%nat l → _pick l vols largest = _pick l vols' largest) by (intros; by apply pick_order).
  assert (Hb : ∀ l largest, Forall (λ i, i < N_STATES)%nat l → _pick l returns largest = _pick l returns' largest) by (intros; by apply pick_order).
  rewrite Ha by done. rewrite Hb by auto. rewrite Hb by auto. rewrite Ha by auto. done.
Qed.

(** ** Features: facts *)

(** The value of a cell in its column. *)
Definition column_cell (c : Cell) : option pyfloat :=
  match cell_float c with Ok x => Some (finite_or_nan x) | Raise _ => None end.
Definition price_cell (c : Cell) : option pyfloat := positive_or_nan <$> column_cell c.

Lemma to_float_array_lookup cells out i x :
  _to_float_array cells = Ok out → out !! i = Some x → ∃ c, cells !! i = Some c ∧ column_cell c = Some x.
Proof.
  unfold _to_float_array, column_cell. destruct (mapR cell_float cells) as [l|] eqn:E; [|done]. intros [= <-].
  rewrite list_lookup_fmap. intros (y & Hy & ->)%fmap_Some.
  rewrite mapR_Ok in E. destruct (Forall2_lookup_r _ _ _ _ _ E Hy) as (c & Hc & Hcy). exists c. by rewrite Hcy.
Qed.
Lemma column_stack_lookup a b c d i row :
  column_stack a b c d !! i = Some row →
  ∃ x y z w, row = [x; y; z; w] ∧ a !! i = Some x ∧ b !! i = Some y ∧ c !! i = Some z ∧ d !! i = Some w.
Proof.
  revert b c d i. induction a as [|x a IH]; intros [|y b] [|z c] [|w d] i; try done. destruct i as [|i]; cbn.
  - intros [= <-]. by exists x, y, z, w.
  - apply IH.
Qed.
Lemma column_stack_length a b c d n :
  length a = n → length b = n → length c = n → length d = n → length (column_stack a b c d) = n.
Proof.
  revert b c d n. induction a as [|x a IH]; intros [|y b] [|z c] [|w d] [|n]; try done. cbn. intros [= ?] [= ?] [= ?] [= ?].
  f_equal. by apply IH.
Qed.

Section features_facts.
Context (np_log : pyfloat → pyfloat) (np_std1 : list pyfloat → pyfloat).

(** Row [i] of the matrix before the filter: the four features of bar [i + 1]. *)
Definition bar_row (mids spreads ofis : list Cell) (returns : list pyfloat) (i : nat) (row : list pyfloat) : Prop :=
  ∃ c0 c1 cs co p0 p1 s o, mids !! i = Some c0 ∧ mids !! S i = Some c1 ∧ spreads !! S i = Some cs ∧ ofis !! S i = Some co
    ∧ price_cell c0 = Some p0 ∧ price_cell c1 = Some p1 ∧ column_cell cs = Some s ∧ column_cell co = Some o
    ∧ returns !! i = Some (float_sub (np_log p1) (np_log p0))
    ∧ row = [float_sub (np_log p1) (np_log p0); vol_of np_std1 (chunk_at returns i); BtMetrics.np_div s p1; o].

(** The features never repair bad data: the matrix is the bars' rows with the non-finite ones left out,
    each row the log return, the rolling volatility of the returns up to the bar, the normalised spread and
    the order-flow imbalance of one bar, taken from that bar's own cells; a cell that is null, not finite or
    a price that is not positive is no number. Columns of different lengths, fewer than two bars and no
    finite row give no matrix and the reason. *)
Theorem features_never_repair mids spreads ofis b :
  extract_features np_log np_std1 mids spreads ofis = Ok b →
  rows_in b = Z.of_nat (length mids) ∧
  match matrix b with
  | None => rows_used b = 0 ∧ is_Some (reason b)
  | Some m => m ≠ [] ∧ rows_used b = Z.of_nat (length m) ∧ reason b = None ∧ length spreads = length mids ∧ length ofis = length mids
      ∧ ∃ returns all, m = List.filter finite_row all ∧ S (length all) = length mids
        ∧ ∀ i row, all !! i = Some row → bar_row mids spreads ofis returns i row
  end.
Proof.
  unfold extract_features.
  destruct (negb ((length spreads =? length mids)%nat && (length ofis =? length mids)%nat)) eqn:El; [by intros [= <-]|].
  apply negb_false_iff, andb_true_iff in El as [Es%Nat.eqb_eq Eo%Nat.eqb_eq].
  destruct (Nat.ltb_spec (length mids) 2) as [|Hn]; [by intros [= <-]|].
  destruct (_to_float_array mids) as [prices0|] eqn:E1; cbn; [|done]. set (prices := positive_or_nan <$> prices0).
  destruct (_to_float_array spreads) as [sp|] eqn:E2; cbn; [|done]. destruct (_to_float_array ofis) as [oi|] eqn:E3; cbn; [|done].
  set (returns := np_diff (np_log <$> prices)). set (all := column_stack _ _ _ _).
  assert (Hlen : ∀ cells out, _to_float_array cells = Ok out → length out = length cells).
  { unfold _to_float_array. intros cells out. destruct (mapR cell_float cells) eqn:E; [|done]. intros [= <-].
    rewrite length_fmap. by eapply mapR_length. }
  destruct (Nat.eqb_spec (length (List.filter finite_row all)) 0) as [|Hne]; intros [= <-]; [done|]. cbn.
  split; [done|]. split. { by intros E; rewrite E in Hne. } split_and!; try done. exists returns, all. split; [done|].
  assert (Hp : length prices = length mids) by (unfold prices; rewrite length_fmap; by apply Hlen).
  assert (Hr : length returns = pred (length mids)).
  { unfold returns, np_diff. rewrite length_zip_with, List.length_tl, !length_fmap, Hp. lia. }
  split.
  - unfold all. rewrite (column_stack_length _ _ _ _ (pred (length mids))); [lia|done| | |].
    + unfold _rolling_vol. by rewrite length_fmap, length_seq.
    + rewrite length_zip_with, !List.length_tl, Hp, (Hlen _ _ E2). lia.
    + rewrite List.length_tl, (Hlen _ _ E3). lia.
  - intros i row (x & y & z & w & -> & Hx & Hy & Hz & Hw)%column_stack_lookup.
    apply lookup_zip_with_Some in Hz as (s & p1 & -> & Hs & Hp1). rewrite lookup_tail in Hs, Hp1, Hw.
    pose proof Hx as Hret. unfold returns, np_diff in Hx. apply lookup_zip_with_Some in Hx as (l0 & l1 & -> & Hl0 & Hl1).
    rewrite lookup_tail, list_lookup_fmap, Hp1 in Hl1. injection Hl1 as <-. rewrite list_lookup_fmap in Hl0.
    apply fmap_Some in Hl0 as (p0 & Hp0 & ->). unfold prices in Hp0, Hp1. rewrite list_lookup_fmap in Hp0, Hp1.
    apply fmap_Some in Hp0 as (q0 & Hq0 & ->). apply fmap_Some in Hp1 as (q1 & Hq1 & ->).
    destruct (to_float_array_lookup _ _ _ _ E1 Hq0) as (c0 & ? & Hc0). destruct (to_float_array_lookup _ _ _ _ E1 Hq1) as (c1 & ? & Hc1).
    destruct (to_float_array_lookup _ _ _ _ E2 Hs) as (cs & ? & Hcs). destruct (to_float_array_lookup _ _ _ _ E3 Hw) as (co & ? & Hco).
    unfold _rolling_vol in Hy. rewrite list_lookup_fmap in Hy. apply fmap_Some in Hy as (k & Hk & ->).
    apply lookup_seq in Hk as [-> _]. exists c0, c1, cs, co, (positive_or_nan q0), (positive_or_nan q1), s, w.
    unfold price_cell. rewrite Hc0, Hc1. done.
Qed.
End features_facts.

(** ** Models and predictions: facts *)

Section model_facts.
Context (np_sum np_mean np_std0 : list pyfloat → pyfloat) (cholesky : Matrix → bool).

(** A model is the one its own parameters give. *)
Definition model_ok (m : TrainedModel) : Prop :=
  validate_params np_sum cholesky (params m) = Ok tt ∧ assign_state_labels (means (params m)) = Ok (labels m).

Lemma assemble_model_ok p s t n m :
  assemble_model np_sum cholesky p s t n = Ok m → model_ok m ∧ params m = p ∧ scaler m = s ∧ trained_at m = t ∧ n_train_rows m = n.
Proof.
  unfold assemble_model, model_ok. destruct (validate_params np_sum cholesky p) as [[]|] eqn:Ev; cbn; [|done].
  destruct (assign_state_labels (means p)) as [labs|] eqn:El; cbn; [|done]. by intros [= <-].
Qed.
Lemma model_ok_labels m : model_ok m → labels m ≡ₚ STATE_REGIMES.
Proof.
  intros [_ Hl]. destruct (labels_follow_the_means (means (params m))) as [(H & _ & Hp)|((e & He & _) & _)].
  - rewrite H in Hl. by injection Hl as <-.
  - congruence.
Qed.
Lemma model_ok_known m state l : model_ok m → labels m !! state = Some l → l ≠ UNKNOWN.
Proof.
  intros Hm Hl ->. pose proof (list_elem_of_lookup_2 _ _ _ Hl) as Hin. rewrite (model_ok_labels m Hm) in Hin.
  revert Hin. unfold STATE_REGIMES. rewrite !elem_of_cons, elem_of_nil. intuition discriminate.
Qed.
Lemma model_ok_state m state : model_ok m → (state < N_STATES)%nat → is_Some (labels m !! state).
Proof. intros Hm Hs. apply lookup_lt_is_Some. by rewrite (model_ok_labels m Hm). Qed.

Context (predict_proba : HmmParams → Matrix → result Matrix).
#[local] Abbreviation predict := (predict_regime np_mean predict_proba).

Definition usable_features (f : Matrix) : Prop :=
  f ≠ [] ∧ ∀ row, row ∈ f → length row = N_FEATURES ∧ finite_row row = true.
(** What the model says of the last bars. *)
Definition evidence (m : TrainedModel) (f : Matrix) (q : Prediction) : Prop :=
  usable_features f ∧ ∃ posteriors state,
    predict_proba (params m) (transform (scaler m) (drop (length f - SMOOTHING_BARS) f)) = Ok posteriors
    ∧ is_first_best larger (mean_rows np_mean posteriors) (seq 0 N_STATES) state
    ∧ labels m !! state = Some (label q) ∧ state_index q = Some (Z.of_nat state)
    ∧ confidence q = value_at (mean_rows np_mean posteriors) state ∧ is_finite_float (confidence q) = true.
Definition abstains (q : Prediction) : Prop := label q = UNKNOWN ∧ confidence q = f0 ∧ is_Some (p_reason q).

Lemma best_state mp :
  length mp = N_STATES → finite_row mp = true →
  is_first_best larger mp (seq 0 N_STATES) (_pick (seq 0 N_STATES) mp true)
  ∧ (_pick (seq 0 N_STATES) mp true < N_STATES)%nat ∧ is_finite_float (value_at mp (_pick (seq 0 N_STATES) mp true)) = true.
Proof.
  intros Hl Hf.
  assert (Hfin : ∀ i, i ∈ seq 0 N_STATES → is_finite_float (value_at mp i) = true).
  { intros i Hi%elem_of_seq. unfold value_at. destruct (lookup_lt_is_Some_2 mp i) as [x Hx]; [lia|]. rewrite Hx. cbn.
    unfold finite_row in Hf. rewrite forallb_forall in Hf. apply Hf, list_elem_of_In. by eapply list_elem_of_lookup_2. }
  assert (Hb : is_first_best larger mp (seq 0 N_STATES) (_pick (seq 0 N_STATES) mp true)).
  { apply (pick_spec mp (seq 0 N_STATES) true); [done|by repeat constructor|done]. }
  pose proof (proj1 Hb) as Hin. split_and!; [done| |by apply Hfin]. apply elem_of_seq in Hin. lia.
Qed.
Lemma usable_of_checks f :
  forallb (λ row, (length row =? N_FEATURES)%nat) f = true → (length f <? 1)%nat || negb (forallb finite_row f) = false → usable_features f.
Proof.
  rewrite orb_false_iff, negb_false_iff, Nat.ltb_ge, !forallb_forall. intros Hw [Hl Hf]. split; [intros ->; cbn in Hl; lia|].
  intros row Hr%list_elem_of_In. split; [by apply Nat.eqb_eq, Hw|by apply Hf].
Qed.
Lemma predict_cases model f :
  (∀ m, model = Some m → model_ok m) →
  (∃ q, predict model f = Ok q ∧ (abstains q ∨ ∃ m f', model = Some m ∧ f = Some f' ∧ evidence m f' q))
  ∨ (∃ m f' e, model = Some m ∧ f = Some f' ∧ predict model f = Raise e ∧ caught (exn_kind e) = false
      ∧ predict_proba (params m) (transform (scaler m) (drop (length f' - SMOOTHING_BARS) f')) = Raise e).
Proof.
  intros Hm. assert (Hun : ∀ r, abstains (unknown r)) by done.
  destruct model as [m|]; [|left; eexists; split; [done|by left]]. specialize (Hm m eq_refl).
  destruct f as [f|]; [|left; eexists; split; [done|by left]]. unfold predict_regime.
  destruct (forallb (λ row, (length row =? N_FEATURES)%nat) f) eqn:Ew; cbn [negb]; [|left; eexists; split; [done|by left]].
  destruct ((length f <? 1)%nat || negb (forallb finite_row f)) eqn:Ef; [left; eexists; split; [done|by left]|].
  destruct (predict_proba _ _) as [post|e] eqn:Ep.
  2: { destruct (caught (exn_kind e)) eqn:Ec; [left; eexists; split; [done|by left]|]. right. by exists m, f, e. }
  destruct (finite_row (mean_rows np_mean post)) eqn:Emp; cbn [negb]; [|left; eexists; split; [done|by left]].
  destruct (best_state (mean_rows np_mean post)) as (Hb & Hlt & Hfin); [done|done|].
  destruct (model_ok_state m _ Hm Hlt) as [l Hl]. rewrite Hl. left. eexists. split; [done|]. right. exists m, f.
  split_and!; [done..|]. split; [by apply usable_of_checks|]. exists post, (_pick (seq 0 N_STATES) (mean_rows np_mean post) true). done.
Qed.

(** A regime is named on evidence only. After the confidence floor a prediction either abstains
    (REGIME_UNKNOWN, confidence zero, a reason), or a model exists, the features are finite rows of four
    columns, and the label is the one of the state with the largest mean posterior over the last five bars,
    its confidence that posterior and not under the floor. Only an exception of the posteriors outside
    ValueError, LinAlgError and FloatingPointError escapes. *)
Theorem regime_needs_evidence model f floor :
  (∀ m, model = Some m → model_ok m) →
  match predict model f with
  | Ok p =>
      let q := apply_confidence_floor p floor in
      abstains q ∨ (∃ m f', model = Some m ∧ f = Some f' ∧ evidence m f' q ∧ label q ≠ UNKNOWN ∧ float_leb floor (confidence q) = true)
  | Raise e => caught (exn_kind e) = false ∧ ∃ m w, model = Some m ∧ predict_proba (params m) w = Raise e
  end.
Proof.
  intros Hm. destruct (predict_cases model f Hm) as [(p & -> & Hp)|(m & f' & e & -> & -> & -> & Hc & Hr)].
  2: { split; [done|]. by eexists m, _. }
  cbn. unfold apply_confidence_floor.
  destruct Hp as [Ha|(m & f' & -> & -> & Hev)]; [left; by rewrite (bool_decide_eq_true_2 _ (proj1 Ha))|].
  destruct Hev as (Hu & post & state & H1 & H2 & Hl & H4). pose proof (model_ok_known m state _ (Hm m eq_refl) Hl) as Hk.
  rewrite (bool_decide_eq_false_2 _ Hk). cbn [orb].
  destruct (float_leb floor (confidence p)) eqn:Ef; [right|by left].
  exists m, f'. split_and!; [done..| |done|done]. split; [done|]. by exists post, state.
Qed.

(** Training gives a model or a TrainingError: the features must be finite rows of four columns; what
    hmmlearn gives is validated and labelled before it is a model, any of the numerical errors is a
    TrainingError, and the scaler's scales are never zero. *)
Theorem training_gives_a_valid_model (fit : Matrix → result HmmParams) features t :
  match train_model np_sum np_mean np_std0 cholesky fit features t with
  | Ok m => model_ok m ∧ trained_at m = t ∧ n_train_rows m = Z.of_nat (length features)
      ∧ (∀ row, row ∈ features → length row = N_FEATURES ∧ finite_row row = true)
      ∧ (∀ x, x ∈ sc_scale (scaler m) → float_ltb SCALE_FLOOR x = true)
      ∧ fit (transform (Scaler_fit np_std0 np_mean features) features) = Ok (params m)
  | Raise e => exn_kind e = TrainingError
      ∨ caught (exn_kind e) = false ∧ fit (transform (Scaler_fit np_std0 np_mean features) features) = Raise e
  end.
Proof.
  unfold train_model. destruct (forallb (λ row, (length row =? N_FEATURES)%nat) features) eqn:Ew; cbn; [|by left].
  destruct (forallb finite_row features) eqn:Ef; cbn; [|by left]. rewrite forallb_forall in Ew, Ef.
  set (s := Scaler_fit np_std0 np_mean features).
  destruct (fit (transform s features)) as [p|e] eqn:Efit; cbn.
  2: { destruct (caught (exn_kind e)) eqn:Ec; [by left|by right]. }
  destruct (assemble_model np_sum cholesky p s t (Z.of_nat (length features))) as [m|e] eqn:Ea.
  - apply assemble_model_ok in Ea as (Hm & <- & Hs & Ht & Hn). split_and!; try done.
    + intros row Hr%list_elem_of_In. split; [by apply Nat.eqb_eq, Ew|by apply Ef].
    + rewrite Hs. unfold s, Scaler_fit. intros x (j & -> & _)%list_elem_of_fmap.
      destruct (float_ltb SCALE_FLOOR (np_std0 (column features j))) eqn:El; [done|by vm_compute].
  - assert (Hk : exn_kind e = ModelError).
    { revert Ea. unfold assemble_model, validate_params, check_array, guard_raise.
      repeat match goal with
      | |- context [if ?b then _ else _] => destruct b; cbn; [by intros [= <-]|]
      end.
      destruct (labels_follow_the_means (means p)) as [(-> & _)|((e' & -> & He) & _)]; cbn; [done|]. by intros [= <-]. }
    assert (Hc : caught (exn_kind e) = true) by (rewrite Hk; by vm_compute). rewrite Hc. by left.
Qed.
End model_facts.

(** The docstring turns unparsable entries into missing ones; an integer that no float holds raises instead. *)
Example huge_cell_escapes : ∀ log std, ∃ e, extract_features log std [CInt (10 ^ 400); CInt 1] [CInt 1; CInt 1] [CInt 0; CInt 0] = Raise e
  ∧ exn_kind e = OverflowError.
Proof. intros log std. eexists. split; [by vm_compute|done]. Qed.
Example label_example : assign_state_labels [[FFin 3 0; FFin 1 0]; [FFin (-3) 0; FFin 1 0]; [f0; FFin 2 0]; [f0; f0]; [f0; FFin 9 0]]
  = Ok [TRENDING_BULL; TRENDING_BEAR; HIGH_VOL_CHOP; LOW_VOL_CHOP; CRISIS].
Proof. by vm_compute. Qed.
