(* ===== verification/RdConfig.v ===== *)
(** * Regime detector: configuration ([config.py], [healthcheck.py])

    The settings read from the environment, every invalid value refused at start-up, the pattern a symbol
    must match before it reaches SQL or a file name, and the health check of the container. *)
From S2P Require Import Prelude PyStr PyDecimal PyFloat PyFloatFacts.
From S2P Require CogConfig ServerConfig.

#[local] Abbreviation environ := (gmap pystr pystr).

(** ** Symbols and identifiers *)

Definition SYMBOL_CHAR (c : N) : bool := is_upper c || one_of (u ".-") c.
Definition is_valid_symbol (s : pystr) : bool := class_rep SYMBOL_CHAR 1 10 s.
Definition ident_start (c : N) : bool := is_lower c || (c =? 95)%N.
Definition ident_char (c : N) : bool := ident_start c || is_digit c.
Definition _IDENTIFIER_PATTERN (s : pystr) : bool :=
  match s with c :: r => ident_start c && class_rep ident_char 0 62 r | [] => false end.

Definition MIN_HMAC_KEY_CHARS : nat := 32.
Definition MIN_HMAC_KEY_DISTINCT_CHARS : nat := 8.
Definition PLACEHOLDER_FRAGMENTS : list pystr :=
  [u "change-me"; u "change_me"; u "changeme"; u "replace-me"; u "replaceme"; u "placeholder"; u "your-secret";
   u "yoursecret"; u "example"; u "default"; u "password"].
Definition DEFAULT_MODEL_DIR : pystr := u "/app/models".
Definition DEFAULT_HEARTBEAT_PATH : pystr := u "/tmp/regime-detector.heartbeat".

(** ** Paths: the text of a [PurePosixPath] and of its parent *)

Definition path_root (s : pystr) : pystr :=
  if starts_with (u "//") s && negb (starts_with (u "///") s) then u "//" else if starts_with (u "/") s then u "/" else [].
Definition path_parts (s : pystr) : list pystr := filter (λ p, p ≠ [] ∧ p ≠ u ".") (ServerConfig.split_on 47 s).
Definition path_text (root : pystr) (parts : list pystr) : pystr :=
  let t := root ++ join (u "/") parts in if bool_decide (t = []) then u "." else t.
Definition mk_path (s : pystr) : pystr := path_text (path_root s) (path_parts s).
Definition path_parent (s : pystr) : pystr := path_text (path_root s) (take (length (path_parts s) - 1) (path_parts s)).

(** ** Readers *)

Definition _text (env : environ) (name default_ : pystr) : result pystr :=
  let value := strip (default default_ (env !! name)) in
  if bool_decide (value = []) then raise ConfigError (name ++ u " must not be empty") else Ok value.
Definition _int (env : environ) (name : pystr) (default_ low high : Z) : result Z :=
  let raw := strip (default (str_of_Z default_) (env !! name)) in
  match int_of_str raw with
  | None => raise ConfigError (name ++ u " must be an integer, got " ++ repr_str raw)
  | Some value =>
      if negb ((low <=? value) && (value <=? high)) then raise ConfigError (name ++ u "=" ++ str_of_Z value ++ u " outside its range")
      else Ok value
  end.
(** [default_] is the text of the default, [str] of the float the code gives. *)
Definition _float (env : environ) (name default_ low high : pystr) : result pyfloat :=
  let raw := strip (default default_ (env !! name)) in
  match CogConfig.float_parse raw with
  | None => raise ConfigError (name ++ u " must be a number, got " ++ repr_str raw)
  | Some value =>
      if negb (float_leb (float_of_text low) value && float_leb value (float_of_text high)) then raise ConfigError (name ++ u " outside its range")
      else Ok value
  end.
Definition _identifier (env : environ) (name default_ : pystr) : result pystr :=
  value ← _text env name default_;
  if _IDENTIFIER_PATTERN value then Ok value else raise ConfigError (name ++ u "=" ++ repr_str value ++ u " is not a safe SQL identifier").
Definition env_get (env : environ) (name : pystr) : pystr := strip (default [] (env !! name)).
Definition _model_dir (env : environ) : pystr :=
  let explicit := env_get env (u "MODEL_DIR") in
  if negb (bool_decide (explicit = [])) then mk_path explicit
  else
    let legacy := env_get env (u "MODEL_PATH") in
    if negb (bool_decide (legacy = [])) then path_parent legacy else mk_path DEFAULT_MODEL_DIR.
Definition UnicodeEncodeError : exn_class := OtherError (u "UnicodeEncodeError").
Definition _hmac_key (env : environ) : result (option pybytes) :=
  let raw := env_get env (u "MODEL_HMAC_KEY") in
  if bool_decide (raw = []) then Ok None
  else if (length raw <? MIN_HMAC_KEY_CHARS)%nat then raise ConfigError (u "MODEL_HMAC_KEY must be at least 32 characters")
  else if existsb (λ fragment, contains fragment (lower raw)) PLACEHOLDER_FRAGMENTS then
    raise ConfigError (u "MODEL_HMAC_KEY looks like a placeholder; set a random key")
  else if (length (remove_dups raw) <? MIN_HMAC_KEY_DISTINCT_CHARS)%nat then
    raise ConfigError (u "MODEL_HMAC_KEY must contain at least 8 distinct chars")
  else match utf8 raw with Some b => Ok (Some b) | None => raise UnicodeEncodeError [] end.

(** ** Settings *)

Record Settings := mkSettings {
  questdb_host : pystr; questdb_port : Z; questdb_ts_column : pystr; questdb_timeout_s : pyfloat;
  redis_url : pystr; redis_channel : pystr; model_dir : pystr; model_hmac_key : option pybytes;
  inference_interval_s : pyfloat; retrain_interval_s : pyfloat; train_retry_backoff_s : pyfloat;
  feature_window : Z; min_bars_for_inference : Z; min_train_rows : Z; max_data_age_s : pyfloat;
  min_confidence : pyfloat; max_symbols : Z; heartbeat_path : pystr; log_level : pystr }.

(** [upper]: [str.upper], for the level of the log only. *)
Definition from_env (upper : pystr → pystr) (env : environ) : result Settings :=
  host ← _text env (u "QUESTDB_HOST") (u "localhost");
  port ← _int env (u "QUESTDB_PORT") 9000 1 65535;
  ts ← _identifier env (u "QUESTDB_TS_COLUMN") (u "timestamp");
  timeout ← _float env (u "QUESTDB_TIMEOUT_S") (u "2.0") (u "0.1") (u "60.0");
  url ← _text env (u "REDIS_URL") (u "redis://localhost:6379");
  channel ← _text env (u "REGIME_CHANNEL") (u "regime:labels");
  let dir := _model_dir env in
  key ← _hmac_key env;
  interval ← _float env (u "INFERENCE_INTERVAL_S") (u "1.0") (u "0.05") (u "3600.0");
  retrain ← _float env (u "RETRAIN_INTERVAL_S") (u "14400.0") (u "1.0") (u "1e9");
  backoff ← _float env (u "TRAIN_RETRY_BACKOFF_S") (u "30.0") (u "0.0") (u "1e9");
  window ← _int env (u "FEATURE_WINDOW") 200 30 100000;
  min_bars ← _int env (u "MIN_BARS_FOR_INFERENCE") 20 6 100000;
  min_rows ← _int env (u "MIN_TRAIN_ROWS") 100 30 100000;
  max_age ← _float env (u "MAX_DATA_AGE_S") (u "10.0") (u "0.001") (u "86400.0");
  floor ← _float env (u "MIN_CONFIDENCE") (u "0.55") (u "0.0") (u "1.0");
  symbols ← _int env (u "MAX_SYMBOLS") 100 1 10000;
  heartbeat ← _text env (u "HEARTBEAT_PATH") DEFAULT_HEARTBEAT_PATH;
  level ← _text env (u "LOG_LEVEL") (u "info");
  Ok (mkSettings host port ts timeout url channel dir key interval retrain backoff window min_bars min_rows max_age floor symbols
        (mk_path heartbeat) (upper level)).

(** ** Health check *)

Definition MIN_MAX_AGE_S : pyfloat := fl "30.0".
(** [mtime]: of the heartbeat file, [None] when it cannot be read. *)
Definition is_healthy (mtime : option pyfloat) (now max_age_s : pyfloat) : bool :=
  match mtime with
  | None => false
  | Some m =>
      let age := float_sub now m in
      float_leb (FFin 0 0) age && float_leb age max_age_s || float_leb (FFin (-1) 0) age && float_ltb age (FFin 0 0)
  end.
Definition health_main (env : environ) (mtime : pystr → option pyfloat) (now : pyfloat) : Z :=
  let path := mk_path (default DEFAULT_HEARTBEAT_PATH (env !! u "HEARTBEAT_PATH")) in
  match CogConfig.float_parse (default (u "1.0") (env !! u "INFERENCE_INTERVAL_S")) with
  | None => 1
  | Some interval =>
      let scaled := float_mul (FFin 10 0) interval in
      let max_age := if float_ltb MIN_MAX_AGE_S scaled then scaled else MIN_MAX_AGE_S in
      if is_healthy (mtime path) now max_age then 0 else 1
  end.

(** ** Facts *)

(** A float of a setting lies within its bounds and is no NaN. *)
Definition between (low high : pystr) (x : pyfloat) : Prop :=
  float_leb (float_of_text low) x = true ∧ float_leb x (float_of_text high) = true.
Record settings_ok (s : Settings) : Prop := {
  so_port : 1 <= questdb_port s <= 65535;
  so_ts : _IDENTIFIER_PATTERN (questdb_ts_column s) = true;
  so_text : questdb_host s ≠ [] ∧ redis_url s ≠ [] ∧ redis_channel s ≠ [];
  so_key : ∀ k, model_hmac_key s = Some k → ∃ raw, utf8 raw = Some k ∧ (MIN_HMAC_KEY_CHARS ≤ length raw)%nat
             ∧ (∀ fragment, fragment ∈ PLACEHOLDER_FRAGMENTS → contains fragment (lower raw) = false)
             ∧ (MIN_HMAC_KEY_DISTINCT_CHARS ≤ length (remove_dups raw))%nat;
  so_window : 30 <= feature_window s <= 100000;
  so_bars : 6 <= min_bars_for_inference s <= 100000;
  so_rows : 30 <= min_train_rows s <= 100000;
  so_symbols : 1 <= max_symbols s <= 10000;
  so_floats : between (u "0.1") (u "60.0") (questdb_timeout_s s) ∧ between (u "0.05") (u "3600.0") (inference_interval_s s)
              ∧ between (u "1.0") (u "1e9") (retrain_interval_s s) ∧ between (u "0.0") (u "1e9") (train_retry_backoff_s s)
              ∧ between (u "0.001") (u "86400.0") (max_data_age_s s) ∧ between (u "0.0") (u "1.0") (min_confidence s) }.

(** A reader's result satisfies [P], its failure is one of [from_env]'s. *)
Definition refuses (e : exn) : Prop := exn_kind e = ConfigError ∨ exn_kind e = UnicodeEncodeError.
Definition reads {A} (P : A → Prop) (r : result A) : Prop := match r with Ok a => P a | Raise e => refuses e end.
Lemma reads_then {A B} (P : A → Prop) (Q : B → Prop) (r : result A) (k : A → result B) :
  reads P r → (∀ a, P a → reads Q (k a)) → reads Q (r ≫= k).
Proof. destruct r as [a|e]; cbn; auto. Qed.
Lemma reads_text env name d : reads (λ s, s ≠ []) (_text env name d).
Proof. unfold _text. case_bool_decide; cbn; [by left|done]. Qed.
Lemma reads_int env name d lo hi : reads (λ z, lo <= z <= hi) (_int env name d lo hi).
Proof.
  unfold _int. destruct (int_of_str _) as [z|]; cbn; [|by left].
  destruct ((lo <=? z) && (z <=? hi)) eqn:E; cbn; [|by left]. apply andb_true_iff in E. lia.
Qed.
Lemma reads_float env name d lo hi : reads (between lo hi) (_float env name d lo hi).
Proof.
  unfold _float, between. destruct (CogConfig.float_parse _) as [x|]; cbn; [|by left].
  destruct (_ && _) eqn:E; cbn; [by apply andb_true_iff in E|by left].
Qed.
Lemma reads_identifier env name d : reads (λ s, _IDENTIFIER_PATTERN s = true) (_identifier env name d).
Proof.
  unfold _identifier. eapply reads_then; [apply reads_text|]. intros v _. destruct (_IDENTIFIER_PATTERN v) eqn:E; cbn; [done|by left].
Qed.
Lemma reads_key env : reads (λ key, ∀ k, key = Some k → ∃ raw, utf8 raw = Some k ∧ (MIN_HMAC_KEY_CHARS ≤ length raw)%nat
    ∧ (∀ fragment, fragment ∈ PLACEHOLDER_FRAGMENTS → contains fragment (lower raw) = false)
    ∧ (MIN_HMAC_KEY_DISTINCT_CHARS ≤ length (remove_dups raw))%nat) (_hmac_key env).
Proof.
  unfold _hmac_key. case_bool_decide; [done|]. set (raw := env_get env _).
  destruct (Nat.ltb_spec (length raw) MIN_HMAC_KEY_CHARS); [by left|].
  destruct (existsb _ _) eqn:Ep; [by left|].
  destruct (Nat.ltb_spec (length (remove_dups raw)) MIN_HMAC_KEY_DISTINCT_CHARS); [by left|].
  destruct (utf8 raw) as [b|] eqn:Eu; [|by right]. cbn. intros k [= <-]. exists raw. split_and!; try done.
  intros f Hf%list_elem_of_In. destruct (contains f (lower raw)) eqn:E; [|done]. rewrite <- not_true_iff_false in Ep.
  destruct Ep. apply existsb_exists. by exists f.
Qed.

(** The settings are sane or the process does not start: every number lies within its bounds, no NaN
    passes, the timestamp column is an identifier, the texts are not empty, and a signing key has at least
    32 characters of which 8 are distinct and holds no placeholder. *)
Theorem detector_settings_are_sane upper env : reads settings_ok (from_env upper env).
Proof.
  unfold from_env.
  eapply reads_then; [apply reads_text|intros host Hhost]. eapply reads_then; [apply reads_int|intros port Hport].
  eapply reads_then; [apply reads_identifier|intros ts Hts]. eapply reads_then; [apply reads_float|intros timeout Htimeout].
  eapply reads_then; [apply reads_text|intros url Hurl]. eapply reads_then; [apply reads_text|intros channel Hchannel].
  eapply reads_then; [apply reads_key|intros key Hkey].
  eapply reads_then; [apply reads_float|intros interval Hinterval]. eapply reads_then; [apply reads_float|intros retrain Hretrain].
  eapply reads_then; [apply reads_float|intros backoff Hbackoff]. eapply reads_then; [apply reads_int|intros window Hwindow].
  eapply reads_then; [apply reads_int|intros bars Hbars]. eapply reads_then; [apply reads_int|intros rows Hrows].
  eapply reads_then; [apply reads_float|intros age Hage]. eapply reads_then; [apply reads_float|intros floor Hfloor].
  eapply reads_then; [apply reads_int|intros symbols Hsymbols]. eapply reads_then; [apply reads_text|intros hb Hhb].
  eapply reads_then; [apply reads_text|intros level Hlevel]. by split.
Qed.

Example default_settings : ∃ s, from_env id ∅ = Ok s ∧ model_hmac_key s = None ∧ model_dir s = u "/app/models"
  ∧ questdb_port s = 9000 ∧ float_eqb (min_confidence s) (fl "0.55") = true.
Proof. eexists. split; [by vm_compute|]. by vm_compute. Qed.
Example path_examples : path_parent (u "/models/regime.pkl") = u "/models" ∧ path_parent (u "regime.pkl") = u "."
  ∧ mk_path (u "a//b/./c/") = u "a/b/c" ∧ mk_path (u "//x") = u "//x" ∧ path_parent (u "/") = u "/".
Proof. by vm_compute. Qed.
Example symbol_examples : is_valid_symbol (u "BRK.B") = true ∧ is_valid_symbol (u "aapl") = false
  ∧ is_valid_symbol (u "A' OR '1'='1") = false ∧ is_valid_symbol [] = false ∧ is_valid_symbol (u "AAPL" ++ [10%N]) = false.
Proof. by vm_compute. Qed.
