(* ===== verification/RdStore.v ===== *)
(** * Regime detector: model store ([model_store.py])

    Trained models on disk: a numeric archive in an HMAC-SHA256 envelope that binds the symbol, written
    through a temporary file, and verified before anything of it is parsed. numpy's archive format is a
    parameter. *)
From S2P Require Import Prelude PyStr PyDecimal PyFloat PyFloatFacts Sha256 Json RdModel RdConfig.
From S2P Require CogConfig CogContext.

(** ** HMAC-SHA256 *)

Definition HMAC_BLOCK : nat := 64.
Definition hmac_key_block (key : pybytes) : pybytes :=
  let k := if (HMAC_BLOCK <? length key)%nat then sha256 key else key in k ++ replicate (HMAC_BLOCK - length k) 0%N.
Definition hmac_sha256 (key msg : pybytes) : pybytes :=
  let k := hmac_key_block key in
  sha256 ((N.lxor 92 <$> k) ++ sha256 ((N.lxor 54 <$> k) ++ msg)).

(** ** Envelope *)

Definition MAGIC : pybytes := u "AFERGM1" ++ [10%N].
Definition _TAG_LEN : nat := 32.
Definition _DOMAIN : pybytes := u "afe-regime-model-v1" ++ [0%N].
Definition FORMAT_VERSION : Z := 1.
Definition MAX_MODEL_BYTES : Z := 1048576.
Definition ModelStoreError : exn_class := OtherError (u "ModelStoreError").
Definition EOFError : exn_class := OtherError (u "EOFError").
Definition BadZipFile : exn_class := OtherError (u "BadZipFile").
Definition JSONDecodeError : exn_class := OtherError (u "JSONDecodeError").
Definition UnicodeDecodeError : exn_class := OtherError (u "UnicodeDecodeError").
Definition AttributeError : exn_class := OtherError (u "AttributeError").

Definition tag_message (symbol : pystr) (payload : pybytes) : pybytes := _DOMAIN ++ symbol ++ [0%N] ++ payload.
(** The symbol is ASCII: [encode] keeps its code points. *)
Definition _tag (key : pybytes) (symbol : pystr) (payload : pybytes) : pybytes := hmac_sha256 key (tag_message symbol payload).
Definition envelope (key : pybytes) (symbol : pystr) (payload : pybytes) : pybytes := MAGIC ++ _tag key symbol payload ++ payload.

(** [_LOAD_ERRORS + (ModelStoreError, ModelError)], the subclasses of ValueError included. *)
Definition value_errors : list exn_class :=
  [ValueError; ModelError; TrainingError; LinAlgError; ModelStoreError; JSONDecodeError; UnicodeDecodeError; UnicodeEncodeError].
Definition load_catches (c : exn_class) : bool := bool_decide (c ∈ [OSError; KeyError; EOFError; BadZipFile] ++ value_errors).

(** ** Conversions of the metadata *)

Definition trunc_float (x : pyfloat) : result Z :=
  match x with
  | FFin m e => Ok (Z.quot (m * 2 ^ Z.max 0 e) (2 ^ Z.max 0 (- e)))
  | FInf _ => raise OverflowError (u "cannot convert float infinity to integer")
  | FNaN => raise ValueError (u "cannot convert float NaN to integer")
  end.
Definition json_float (v : json) : result pyfloat :=
  match v with
  | JInt z => cell_float (CInt z)
  | JBool b => Ok (if b then f1 else f0)
  | JFloat t => Ok (float_of_text t)
  | JStr s => match CogConfig.float_parse s with Some x => Ok x | None => raise ValueError (u "could not convert string to float") end
  | _ => raise TypeError (u "float() argument must be a string or a real number")
  end.
Definition json_int (v : json) : result Z :=
  match v with
  | JInt z => Ok z
  | JBool b => Ok (if b then 1 else 0)
  | JFloat t => trunc_float (float_of_text t)
  | JStr s => match int_of_str s with Some z => Ok z | None => raise ValueError (u "invalid literal for int()") end
  | _ => raise TypeError (u "int() argument must be a string or a real number")
  end.
(** [meta[k]] of a dict. *)
Definition item (m : list (pystr * json)) (k : pystr) : result json :=
  match obj_get m k with Some v => Ok v | None => raise KeyError k end.
Definition float_token (x : pyfloat) : pystr :=
  match x with FFin m e => fin_text m e | FInf neg => if neg then u "-Infinity" else u "Infinity" | FNaN => u "NaN" end.

(** A directory, by file name. *)
Abbreviation Disk := (gmap pystr pybytes).

(** ** Archives *)

(** The members of a loaded archive; reading one may raise (it may be missing, or not a plain array). *)
Record Archive := mkArchive {
  arc_meta : result pybytes; arc_startprob : result (list pyfloat); arc_transmat : result Matrix; arc_means : result Matrix;
  arc_covars : result (list Matrix); arc_mean : result (list pyfloat); arc_scale : result (list pyfloat) }.

Section store.
Context (np_sum : list pyfloat → pyfloat) (cholesky : Matrix → bool).
(** [np.savez] of the parameters, the scaler and the metadata; [np.load] with [allow_pickle=False]. *)
Context (np_savez : HmmParams → Scaler → pybytes → pybytes) (np_load : pybytes → result Archive).

Definition meta_of (model : TrainedModel) (symbol : pystr) : json :=
  JObj [(u "version", JInt FORMAT_VERSION); (u "symbol", JStr symbol); (u "trained_at", JFloat (float_token (trained_at model)));
        (u "n_train_rows", JInt (n_train_rows model)); (u "state_labels", JArr ((λ l, JStr (label_value l)) <$> labels model))].
(** The text of [json.dumps] is ASCII, its UTF-8 is itself. *)
Definition serialize_model (model : TrainedModel) (symbol : pystr) : pybytes :=
  np_savez (params model) (scaler model) (dumps_default (meta_of model symbol)).

Definition py_neq (o : option json) (v : json) : bool := match o with Some w => negb (py_eq w v) | None => true end.
Definition deserialize_model (payload : pybytes) (symbol : pystr) : result TrainedModel :=
  archive ← np_load payload;
  raw ← arc_meta archive;
  text ← match CogContext.utf8_decode raw with Some t => Ok t | None => raise UnicodeDecodeError [] end;
  meta ← match Json.loads text with Some v => Ok v | None => raise JSONDecodeError [] end;
  sp ← arc_startprob archive; tm ← arc_transmat archive; me ← arc_means archive; co ← arc_covars archive;
  mean ← arc_mean archive; scale ← arc_scale archive;
  m ← match meta with JObj m => Ok m | _ => raise AttributeError (u "get") end;
  guard_raise (py_neq (obj_get m (u "version")) (JInt FORMAT_VERSION) || py_neq (obj_get m (u "symbol")) (JStr symbol))
    ModelError (u "model metadata does not match this symbol/version");;
  guard_raise (negb (finite_row mean && forallb (λ x, float_ltb f0 x) scale)) ModelError (u "scaler parameters are invalid");;
  at_ ← (v ← item m (u "trained_at"); json_float v);
  rows ← (v ← item m (u "n_train_rows"); json_int v);
  model ← assemble_model np_sum cholesky (mkParams sp tm me co) (mkScaler mean scale) at_ rows;
  guard_raise (py_neq (obj_get m (u "state_labels")) (JArr ((λ l, JStr (label_value l)) <$> labels model)))
    ModelError (u "stored state labels disagree with the deterministic assignment");;
  Ok model.

(** ** The store: one directory, by file name *)

Definition file_name (symbol : pystr) : pystr := u "regime_" ++ symbol ++ u ".model".
Definition temp_name (symbol : pystr) : pystr := u "regime_" ++ symbol ++ u ".tmp".
Definition _path (symbol : pystr) : result pystr :=
  if is_valid_symbol symbol then Ok (file_name symbol) else raise ModelStoreError (u "invalid symbol " ++ repr_str symbol).

(** What the file system does to a save; a failed write may leave any bytes in the temporary file. *)
Inductive SaveIo := SaveWorks | MkdirFails | WriteFails (left_ : option pybytes) | ReplaceFails.
Definition save (io : SaveIo) (key : option pybytes) (d : Disk) (symbol : pystr) (model : TrainedModel) : bool * Disk :=
  match key with
  | None => (false, d)
  | Some k =>
      match _path symbol with
      | Raise _ => (false, d)
      | Ok path =>
          let blob := envelope k symbol (serialize_model model symbol) in
          match io with
          | MkdirFails => (false, d)
          | WriteFails None => (false, d)
          | WriteFails (Some b) => (false, <[temp_name symbol := b]> d)
          | ReplaceFails => (false, <[temp_name symbol := blob]> d)
          | SaveWorks => (true, <[path := blob]> (delete (temp_name symbol) d))
          end
      end
  end.

Definition _read_verified (blob : pybytes) (symbol : pystr) (key : pybytes) : result TrainedModel :=
  guard_raise (MAX_MODEL_BYTES <? Z.of_nat (length blob)) ModelStoreError (u "model file too large");;
  let header := (length MAGIC + _TAG_LEN)%nat in
  guard_raise ((length blob <=? header)%nat || negb (starts_with MAGIC blob)) ModelStoreError (u "bad model envelope");;
  let tag := take _TAG_LEN (drop (length MAGIC) blob) in
  let payload := drop header blob in
  guard_raise (negb (bool_decide (tag = _tag key symbol payload))) ModelStoreError (u "HMAC mismatch (file tampered or wrong key)");;
  deserialize_model payload symbol.
(** [io_fails]: the file cannot be examined or read. *)
Definition load (io_fails : bool) (key : option pybytes) (d : Disk) (symbol : pystr) : result (option TrainedModel) :=
  match key with
  | None => Ok None
  | Some k =>
      try_except
        (path ← _path symbol;
         match d !! path with
         | None => Ok None
         | Some blob =>
             if io_fails then raise OSError [] else m ← _read_verified blob symbol k; Ok (Some m)
         end)
        load_catches (λ _, Ok None)
  end.
End store.

(** ** Facts *)

Lemma hmac_length key msg : length (hmac_sha256 key msg) = _TAG_LEN.
Proof. apply sha256_length. Qed.
Lemma envelope_parts key symbol payload :
  starts_with MAGIC (envelope key symbol payload) = true
  ∧ take _TAG_LEN (drop (length MAGIC) (envelope key symbol payload)) = _tag key symbol payload
  ∧ drop (length MAGIC + _TAG_LEN) (envelope key symbol payload) = payload
  ∧ length (envelope key symbol payload) = (length MAGIC + _TAG_LEN + length payload)%nat.
Proof.
  pose proof (hmac_length key (tag_message symbol payload)) as Hl. fold (_tag key symbol payload) in Hl.
  unfold envelope, starts_with. split_and!.
  - by rewrite take_app_length, bool_decide_eq_true_2.
  - by rewrite drop_app_length, take_app_length'.
  - by rewrite <- drop_drop, drop_app_length, drop_app_length'.
  - rewrite !length_app, Hl. lia.
Qed.
(** An envelope is its magic, its tag and its payload. *)
Lemma envelope_inv key symbol blob :
  starts_with MAGIC blob = true → take _TAG_LEN (drop (length MAGIC) blob) = _tag key symbol (drop (length MAGIC + _TAG_LEN) blob) →
  blob = envelope key symbol (drop (length MAGIC + _TAG_LEN) blob).
Proof.
  unfold envelope, starts_with. intros Hm%bool_decide_eq_true_1 Ht. rewrite <- Ht, <- drop_drop, take_drop. rewrite <- Hm at 1.
  by rewrite take_drop.
Qed.

(** The tagged message determines the symbol and the payload. *)
Lemma symbol_no_zero s : is_valid_symbol s = true → 0%N ∉ s.
Proof.
  unfold is_valid_symbol, class_rep. intros [H _]%andb_true_iff Hin. rewrite forallb_forall in H.
  apply list_elem_of_In in Hin. specialize (H _ Hin). by vm_compute in H.
Qed.
Lemma zero_split (a b p q : pybytes) : 0%N ∉ a → 0%N ∉ b → a ++ [0%N] ++ p = b ++ [0%N] ++ q → a = b ∧ p = q.
Proof.
  revert b. induction a as [|x a IH]; intros [|y b] Ha Hb; cbn.
  - by intros [= ->].
  - intros [= <- _]. by destruct Hb; left.
  - intros [= -> _]. by destruct Ha; left.
  - intros [= -> H]. apply not_elem_of_cons in Ha as [_ Ha], Hb as [_ Hb]. by destruct (IH b Ha Hb H) as [-> ->].
Qed.
Lemma tag_message_inj s s' p p' :
  is_valid_symbol s = true → is_valid_symbol s' = true → tag_message s p = tag_message s' p' → s = s' ∧ p = p'.
Proof. intros Hs Hs' H%app_inv_head. apply zero_split in H; [done|by apply symbol_no_zero..]. Qed.

Lemma file_name_inj s s' : file_name s = file_name s' → s = s'.
Proof. unfold file_name. intros H%app_inv_head. by apply app_inv_tail in H. Qed.
Lemma file_not_temp s s' : file_name s ≠ temp_name s'.
Proof. unfold file_name, temp_name. intros H%app_inv_head%(f_equal last). by rewrite !last_app in H. Qed.

Section store_facts.
Context (np_sum : list pyfloat → pyfloat) (cholesky : Matrix → bool).
Context (np_savez : HmmParams → Scaler → pybytes → pybytes) (np_load : pybytes → result Archive).
#[local] Abbreviation deserialize := (deserialize_model np_sum cholesky np_load).
#[local] Abbreviation load_from := (load np_sum cholesky np_load).

(** Every entry of an array of [k] rows of [j] columns is finite. *)
Definition finite_array (k j : nat) (m : Matrix) : Prop :=
  length m = k ∧ ∀ row, row ∈ m → length row = j ∧ ∀ x, x ∈ row → is_finite_float x = true.
(** No entry is negative and the sum is 1 up to a millionth. *)
Definition probabilities (row : list pyfloat) : Prop :=
  (∀ x, x ∈ row → float_ltb x f0 = false) ∧ float_ltb (fl "1e-6") (float_abs (float_sub (np_sum row) f1)) = false.
(** The parameters of a hidden Markov model of five states over four features. *)
Record sound_params (p : HmmParams) : Prop := {
  sp_start : length (startprob p) = 5%nat ∧ (∀ x, x ∈ startprob p → is_finite_float x = true);
  sp_trans : finite_array 5 5 (transmat p);
  sp_means : finite_array 5 4 (means p);
  sp_covars : length (covars p) = 5%nat ∧ ∀ c, c ∈ covars p → finite_array 4 4 c ∧ cholesky c = true;
  sp_probabilities : probabilities (startprob p) ∧ ∀ row, row ∈ transmat p → probabilities row }.

Lemma forallb_in {A} (f : A → bool) l : forallb f l = true ↔ ∀ x, x ∈ l → f x = true.
Proof. rewrite forallb_forall. by setoid_rewrite list_elem_of_In. Qed.
Lemma finite_array_ok k j m : square k j m = true → forallb finite_row m = true → finite_array k j m.
Proof.
  unfold square. intros [Hk%Nat.eqb_eq Hj]%andb_true_iff Hf. rewrite forallb_in in Hj, Hf. split; [done|]. intros row Hr.
  split; [by apply Nat.eqb_eq, Hj|]. by apply forallb_in, Hf.
Qed.
Lemma probabilities_ok row : stochastic np_sum row = true → probabilities row.
Proof.
  unfold stochastic. intros [H1%negb_true_iff H2%negb_true_iff]%andb_true_iff. split; [|done]. intros x Hx.
  destruct (float_ltb x f0) eqn:E; [|done]. exfalso. apply Bool.not_true_iff_false in H2. apply H2, existsb_exists.
  exists x. split; [by apply list_elem_of_In|done].
Qed.
Lemma guard_raise_ok b c m : guard_raise b c m = Ok tt → b = false.
Proof. by destruct b. Qed.
Lemma check_array_ok a b name : check_array a b name = Ok tt → a = true ∧ b = true.
Proof. destruct a, b; cbn; try done. Qed.
Lemma validate_params_ok p : validate_params np_sum cholesky p = Ok tt → sound_params p.
Proof.
  unfold validate_params. intros H. do 6 (apply bind_ok in H as ([] & ? & H)).
  repeat match goal with
  | H : check_array _ _ _ = Ok tt |- _ => apply check_array_ok in H as [? ?]
  | H : guard_raise _ _ _ = Ok tt |- _ => apply guard_raise_ok, negb_false_iff in H
  end.
  match goal with H : _ && _ = true |- _ => apply andb_true_iff in H as [Hn%Nat.eqb_eq Hsquare] end.
  match goal with H : (length (startprob p) =? _)%nat = true |- _ => apply Nat.eqb_eq in H end.
  split; [split; [done|by apply forallb_in]|by apply finite_array_ok..| |].
  - split; [done|]. intros c Hc. rewrite !forallb_in in *. auto using finite_array_ok.
  - split; [by apply probabilities_ok|]. intros row Hr. apply probabilities_ok. rewrite !forallb_in in *. auto.
Qed.

(** What a decoded model is. *)
Definition decoded (symbol : pystr) (model : TrainedModel) : Prop :=
  model_ok np_sum cholesky model ∧ finite_row (sc_mean (scaler model)) = true
  ∧ forallb (λ x, float_ltb f0 x) (sc_scale (scaler model)) = true.
Lemma py_neq_str o s : py_neq o (JStr s) = false → o = Some (JStr s).
Proof. destruct o as [w|]; [|done]. cbn. intros H%negb_false_iff. f_equal. by apply JsonFacts.py_eq_str. Qed.
Lemma py_neq_strs o l : py_neq o (JArr (JStr <$> l)) = false → o = Some (JArr (JStr <$> l)).
Proof.
  destruct o as [w|]; [|done]. cbn [py_neq]. intros H%negb_false_iff. f_equal. destruct w as [| | | | |k|]; try discriminate H.
  apply JsonFacts.py_eq_arr in H. f_equal. revert l H. induction k as [|x k IH]; intros [|s l] H; inversion H; subst; [done|].
  cbn. f_equal; [by apply JsonFacts.py_eq_str|by apply IH].
Qed.
Lemma py_neq_false o v : py_neq o v = false → ∃ w, o = Some w ∧ JsonFacts.json_eq w v.
Proof. destruct o as [w|]; [|done]. intros H%negb_false_iff. exists w. split; [done|]. by apply JsonFacts.py_eq_true. Qed.

(** What the archive and its metadata, a JSON object, must say for a model to be decoded from them. *)
Definition describes (archive : Archive) (m : list (pystr * json)) (symbol : pystr) (model : TrainedModel) : Prop :=
  (∃ v, obj_get m (u "version") = Some v ∧ JsonFacts.json_eq v (JInt 1))
  ∧ obj_get m (u "symbol") = Some (JStr symbol)
  ∧ obj_get m (u "state_labels") = Some (JArr (JStr <$> (label_value <$> labels model)))
  ∧ (∃ v, obj_get m (u "trained_at") = Some v ∧ json_float v = Ok (trained_at model))
  ∧ (∃ v, obj_get m (u "n_train_rows") = Some v ∧ json_int v = Ok (n_train_rows model))
  ∧ arc_startprob archive = Ok (startprob (params model)) ∧ arc_transmat archive = Ok (transmat (params model))
  ∧ arc_means archive = Ok (means (params model)) ∧ arc_covars archive = Ok (covars (params model))
  ∧ arc_mean archive = Ok (sc_mean (scaler model)) ∧ arc_scale archive = Ok (sc_scale (scaler model)).
Lemma item_inv {A} m k (f : json → result A) x : (v ← item m k; f v) = Ok x → ∃ v, obj_get m k = Some v ∧ f v = Ok x.
Proof. unfold item. destruct (obj_get m k) as [v|]; cbn; [by eauto|done]. Qed.
Lemma deserialize_decoded payload symbol model :
  deserialize payload symbol = Ok model →
  decoded symbol model ∧ ∃ archive raw text m, np_load payload = Ok archive ∧ arc_meta archive = Ok raw
    ∧ CogContext.utf8_decode raw = Some text ∧ Json.loads text = Some (JObj m) ∧ describes archive m symbol model.
Proof.
  unfold deserialize_model. intros H. apply bind_ok in H as (archive & Ha & H). apply bind_ok in H as (raw & Hraw & H).
  apply bind_ok in H as (text & Ht & H). apply bind_ok in H as (meta & Hm & H). do 6 apply bind_ok in H as (? & ? & H).
  apply bind_ok in H as (m & Hobj & H). apply bind_ok in H as ([] & Hver%guard_raise_ok & H).
  apply bind_ok in H as ([] & Hsc%guard_raise_ok & H). apply bind_ok in H as (at_ & Hat%item_inv & H).
  apply bind_ok in H as (rows & Hrows%item_inv & H). apply bind_ok in H as (md & Hmd & H).
  apply bind_ok in H as ([] & Hl%guard_raise_ok & H). injection H as <-.
  apply assemble_model_ok in Hmd as (Hok & Hp & Hs & Htr & Hn). apply orb_false_iff in Hver as [Hv Hsym].
  apply negb_false_iff, andb_true_iff in Hsc. apply py_neq_false in Hv. apply py_neq_str in Hsym.
  assert (∀ l, (λ x, JStr (label_value x)) <$> l = JStr <$> (label_value <$> l)) as Hlab by (intros l; by rewrite <- list_fmap_compose).
  rewrite Hlab in Hl. apply py_neq_strs in Hl.
  split; [unfold decoded; by rewrite Hs|]. destruct (CogContext.utf8_decode raw) as [text'|] eqn:Eu; [|done]. injection Ht as ->.
  destruct (Json.loads text) as [meta'|] eqn:El; [|done]. injection Hm as ->.
  destruct meta as [| | | | | |m']; try discriminate Hobj. injection Hobj as ->.
  exists archive, raw, text, m. unfold describes. rewrite Hp, Hs, Htr, Hn. by split_and!.
Qed.
Lemma read_verified_inv blob symbol key :
  (∃ e, _read_verified np_sum cholesky np_load blob symbol key = Raise e ∧ exn_kind e = ModelStoreError)
  ∨ (∃ payload, payload ≠ [] ∧ blob = envelope key symbol payload ∧ Z.of_nat (length blob) ≤ MAX_MODEL_BYTES
      ∧ _read_verified np_sum cholesky np_load blob symbol key = deserialize payload symbol).
Proof.
  unfold _read_verified, guard_raise.
  destruct (Z.ltb_spec MAX_MODEL_BYTES (Z.of_nat (length blob))) as [|Hmax]; [left; by eexists|]. cbn [mbind result_bind].
  destruct (Nat.leb_spec (length blob) (length MAGIC + _TAG_LEN)) as [|Hl]; [left; by eexists|].
  destruct (starts_with MAGIC blob) eqn:Em; cbn [negb orb]; [|left; by eexists].
  case_bool_decide as Ht; cbn [negb]; [|left; by eexists]. right. exists (drop (length MAGIC + _TAG_LEN) blob).
  split_and!; [|by apply envelope_inv|done|done].
  intros E%(f_equal length). rewrite length_drop in E. change (length []) with 0%nat in E. lia.
Qed.

(** A load reads a signed file of that very symbol, or gives no model. *)
Lemma load_verified io_fails key d symbol :
  match load_from io_fails key d symbol with
  | Ok None => True
  | Ok (Some model) => ∃ k payload, key = Some k ∧ is_valid_symbol symbol = true ∧ d !! file_name symbol = Some (envelope k symbol payload)
      ∧ Z.of_nat (length (envelope k symbol payload)) ≤ MAX_MODEL_BYTES ∧ deserialize payload symbol = Ok model
  | Raise e => ∃ k payload, key = Some k ∧ is_valid_symbol symbol = true ∧ d !! file_name symbol = Some (envelope k symbol payload)
      ∧ Z.of_nat (length (envelope k symbol payload)) ≤ MAX_MODEL_BYTES ∧ deserialize payload symbol = Raise e
      ∧ load_catches (exn_kind e) = false
  end.
Proof.
  unfold load, _path. destruct key as [k|]; [|done]. destruct (is_valid_symbol symbol) eqn:Es; cbn; [|done].
  destruct (d !! file_name symbol) as [blob|] eqn:Eb; cbn; [|done]. destruct io_fails; [done|].
  destruct (read_verified_inv blob symbol k) as [(e & -> & He)|(payload & _ & Hblob & Hmax & ->)]; cbn; [by rewrite He|].
  destruct (deserialize payload symbol) as [model|e] eqn:Ed; cbn.
  - exists k, payload. by rewrite <- Hblob.
  - destruct (load_catches (exn_kind e)) eqn:Ec; [done|]. exists k, payload. by rewrite <- Hblob.
Qed.

(** What a file for [symbol] that was signed under [k] consists of: the magic line, the HMAC-SHA256 of the
    domain, the symbol and the payload, each of the first two closed by a zero byte, and the payload. *)
Definition signed_file (k : pybytes) (symbol : pystr) (payload : pybytes) : pybytes :=
  u "AFERGM1" ++ [10%N] ++ hmac_sha256 k (u "afe-regime-model-v1" ++ [0%N] ++ symbol ++ [0%N] ++ payload) ++ payload.
Lemma envelope_signed k symbol payload : envelope k symbol payload = signed_file k symbol payload.
Proof. unfold envelope, _tag, tag_message, _DOMAIN, MAGIC, signed_file. by rewrite <- !app_assoc. Qed.

(** C28: A model that is loaded is authentic: [regime_<symbol>.model], of at most 1 MiB, is the magic line,
    the HMAC-SHA256 under the store's key of the domain, that very symbol and the payload, and the payload;
    the payload's metadata are a JSON object that gives the version as 1, the symbol as this one, the
    labels as the model's and its training time and rows; the model's arrays are the archive's. Its
    parameters are finite arrays of five states and four features, the start and every row of transitions
    probabilities up to a millionth, every covariance positive definite by the Cholesky test; the scaler's
    means are finite and its scales positive; the labels are the ones the means give. Nothing is parsed
    before the tag is verified: whatever decoding raises comes from a payload signed under the key. Without
    a key nothing is loaded, and no model is loaded for a name that is not a symbol. *)
Theorem loaded_model_is_authentic io_fails key d symbol :
  match load_from io_fails key d symbol with
  | Ok None => True
  | Ok (Some model) =>
      (∃ k payload archive raw text m, key = Some k ∧ is_valid_symbol symbol = true
         ∧ d !! (u "regime_" ++ symbol ++ u ".model") = Some (signed_file k symbol payload)
         ∧ Z.of_nat (length (signed_file k symbol payload)) ≤ 1048576
         ∧ np_load payload = Ok archive ∧ arc_meta archive = Ok raw ∧ CogContext.utf8_decode raw = Some text
         ∧ Json.loads text = Some (JObj m) ∧ describes archive m symbol model)
      ∧ sound_params (params model)
      ∧ (∀ x, x ∈ sc_mean (scaler model) → is_finite_float x = true)
      ∧ (∀ x, x ∈ sc_scale (scaler model) → float_ltb f0 x = true)
      ∧ ∃ crisis bull bear high low,
          labelling (column (means (params model)) 0) (column (means (params model)) 1) (labels model) crisis bull bear high low
  | Raise e => ∃ k payload, key = Some k ∧ is_valid_symbol symbol = true
      ∧ d !! (u "regime_" ++ symbol ++ u ".model") = Some (signed_file k symbol payload)
      ∧ deserialize payload symbol = Raise e ∧ load_catches (exn_kind e) = false
  end.
Proof.
  pose proof (load_verified io_fails key d symbol) as H. unfold file_name in H.
  destruct (load_from io_fails key d symbol) as [[model|]|e]; [|done|].
  - destruct H as (k & payload & Hk & Hs & Hf & Hmax & Hd). rewrite envelope_signed in Hf, Hmax.
    apply deserialize_decoded in Hd as [([Hp Hl] & Hmean & Hscale) (archive & raw & text & m & H)].
    split. { exists k, payload, archive, raw, text, m. split_and!; try done; apply H. }
    split; [by apply validate_params_ok|]. split; [by apply forallb_in|]. split; [by apply forallb_in|].
    destruct (labels_follow_the_means (means (params model))) as [(E & Hex & _)|[(e & E & _) _]]; [|congruence].
    rewrite Hl in E. injection E as ->. exact Hex.
  - destruct H as (k & payload & Hk & Hs & Hf & _ & Hd & Hc). rewrite envelope_signed in Hf. exists k, payload. by split_and!.
Qed.

(** A save is atomic. Whatever the file system does, the other symbols' models are untouched; when the
    save reports failure this symbol's model too is as it was; when it reports success the file is the
    signed envelope of the model, and a load decodes exactly the payload that was serialised. *)
Theorem save_is_atomic io key d symbol model io_fails :
  let '(ok, d') := save np_savez io key d symbol model in
  (∀ s, s ≠ symbol ∨ ok = false → load_from io_fails key d' s = load_from io_fails key d s)
  ∧ (ok = true → ∃ k, key = Some k ∧ is_valid_symbol symbol = true
       ∧ d' !! file_name symbol = Some (envelope k symbol (serialize_model np_savez model symbol))
       ∧ (Z.of_nat (length MAGIC + _TAG_LEN + length (serialize_model np_savez model symbol)) ≤ MAX_MODEL_BYTES →
          serialize_model np_savez model symbol ≠ [] →
          load_from false key d' symbol
          = try_except (m ← deserialize (serialize_model np_savez model symbol) symbol; Ok (Some m)) load_catches (λ _, Ok None))).
Proof.
  assert (Hsame : ∀ d' : Disk, ∀ s, d' !! file_name s = d !! file_name s → load_from io_fails key d' s = load_from io_fails key d s).
  { intros d' s H. unfold load, _path. destruct key; [|done]. destruct (is_valid_symbol s); cbn; [|done]. by rewrite H. }
  unfold save, _path. destruct key as [k|]; [|done]. destruct (is_valid_symbol symbol) eqn:Es; [|done].
  set (blob := envelope k symbol (serialize_model np_savez model symbol)).
  destruct io as [| |[b|]|]; try done.
  - split.
    + intros s [Hs|]; [|done]. apply Hsame. rewrite lookup_insert_ne by (intros E; by apply Hs, eq_sym, file_name_inj).
      apply lookup_delete_ne, not_eq_sym, file_not_temp.
    + intros _. exists k. split_and!; [done..|by rewrite lookup_insert_eq|]. intros Hmax Hne.
      unfold load, _path. rewrite Es. cbn [mbind result_bind]. rewrite lookup_insert_eq. f_equal.
      destruct (envelope_parts k symbol (serialize_model np_savez model symbol)) as (H1 & H2 & H3 & H4). fold blob in H1, H2, H3, H4.
      unfold _read_verified, guard_raise. rewrite H1, H2, H3, H4. rewrite (proj2 (Z.ltb_ge _ _) Hmax). cbn [mbind result_bind].
      rewrite (proj2 (Nat.leb_gt _ _)), bool_decide_eq_true_2; [done..|].
      destruct (serialize_model np_savez model symbol); [done|]. cbn [length]. lia.
  - split; [|done]. intros s _. apply Hsame, lookup_insert_ne, not_eq_sym, file_not_temp.
  - split; [|done]. intros s _. apply Hsame, lookup_insert_ne, not_eq_sym, file_not_temp.
Qed.

(** A signed file cannot be replayed under another symbol: the same envelope verifies for two symbols
    only when their tagged messages, which differ, have the same HMAC. *)
Theorem envelope_binds_its_symbol key s s' p p' :
  is_valid_symbol s = true → is_valid_symbol s' = true → envelope key s p = envelope key s' p' →
  p = p' ∧ (s = s' ∨ tag_message s p ≠ tag_message s' p' ∧ hmac_sha256 key (tag_message s p) = hmac_sha256 key (tag_message s' p')).
Proof.
  intros Hs Hs' H. destruct (envelope_parts key s p) as (_ & Ht & Hp & _). destruct (envelope_parts key s' p') as (_ & Ht' & Hp' & _).
  rewrite H in Ht, Hp. rewrite Hp in Hp'. split; [done|]. destruct (decide (s = s')) as [|Hne]; [by left|right].
  split; [by intros [? _]%tag_message_inj|]. unfold _tag in Ht, Ht'. congruence.
Qed.
End store_facts.

(** ** A save and the load that follows *)

Definition demo_means : Matrix :=
  [[FFin 3 0; FFin 1 0; f0; f0]; [FFin (-3) 0; FFin 1 0; f0; f0]; [f0; FFin 2 0; f0; f0]; [f0; f0; f0; f0]; [f0; FFin 9 0; f0; f0]].
Definition demo_params : HmmParams :=
  mkParams [f1; f0; f0; f0; f0] (replicate 5 [f1; f0; f0; f0; f0]) demo_means (replicate 5 (replicate 4 (replicate 4 f1))).
Definition demo_model : TrainedModel :=
  mkModel demo_params (mkScaler [f0; f0; f0; f0] [f1; f1; f1; f1]) [TRENDING_BULL; TRENDING_BEAR; HIGH_VOL_CHOP; LOW_VOL_CHOP; CRISIS]
    (FFin 1000 0) 200.
Definition demo_savez (_ : HmmParams) (_ : Scaler) (meta : pybytes) : pybytes := meta.
Definition demo_load (payload : pybytes) : result Archive :=
  Ok (mkArchive (Ok payload) (Ok (startprob demo_params)) (Ok (transmat demo_params)) (Ok (means demo_params)) (Ok (covars demo_params))
        (Ok [f0; f0; f0; f0]) (Ok [f1; f1; f1; f1])).
Definition demo_sum (l : list pyfloat) : pyfloat := fold_left float_add l f0.
Example saved_model_loads key :
  let '(ok, d) := save demo_savez SaveWorks (Some key) ∅ (u "BRK.B") demo_model in
  ok = true ∧ (∃ m, load demo_sum (λ _, true) demo_load false (Some key) d (u "BRK.B") = Ok (Some m) ∧ labels m = labels demo_model)
  ∧ load demo_sum (λ _, true) demo_load false (Some key) d (u "AAPL") = Ok None.
Proof.
  pose proof (save_is_atomic demo_sum (λ _, true) demo_savez demo_load SaveWorks (Some key) ∅ (u "BRK.B") demo_model false) as H.
  destruct (save demo_savez SaveWorks (Some key) ∅ (u "BRK.B") demo_model) as [ok d] eqn:E.
  destruct H as [Hother Hsame]. injection E as Eok Ed. specialize (Hsame (eq_sym Eok)). destruct Hsame as (k & Hk & _ & _ & Hload).
  split; [done|]. split.
  - rewrite Hload; [|unfold MAX_MODEL_BYTES|done].
    + eexists. split; [by vm_compute|done].
    + assert (Hl : (length (serialize_model demo_savez demo_model (u "BRK.B")) <= 300)%nat) by (apply Nat.leb_le; by vm_compute).
      change (length MAGIC) with 8%nat. unfold _TAG_LEN. lia.
  - rewrite Hother by by left. done.
Qed.

Lemma hmac_rfc4231 : hex (hmac_sha256 (u "Jefe") (u "what do ya want for nothing?"))
  = u "5bdcc146bf60754e6a042426089575c75a003f089d2739839dec58b964ec3843".
Proof. vm_compute. reflexivity. Qed.

(** The saved model of BRK.B is loaded, and so authentic. *)
Lemma loaded_model_is_authentic_witness : ∃ d model payload,
  load demo_sum (λ _, true) demo_load false (Some (u "k")) d (u "BRK.B") = Ok (Some model)
  ∧ d !! (u "regime_BRK.B.model") = Some (signed_file (u "k") (u "BRK.B") payload)
  ∧ sound_params demo_sum (λ _, true) (params model).
Proof.
  pose proof (saved_model_loads (u "k")) as H.
  destruct (save demo_savez SaveWorks (Some (u "k")) ∅ (u "BRK.B") demo_model) as [ok d].
  destruct H as (_ & (model & Hload & _) & _).
  pose proof (loaded_model_is_authentic demo_sum (λ _, true) demo_load false (Some (u "k")) d (u "BRK.B")) as Hl.
  rewrite Hload in Hl. destruct Hl as ((k & payload & _ & _ & _ & _ & Hk & _ & Hd & _) & Hs & _).
  injection Hk as <-. exists d, model, payload. split; [exact Hload|]. split; [exact Hd|exact Hs].
Defined.
