(* ===== verification/RdClient.v ===== *)
(** * Regime detector: QuestDB client and publisher ([questdb_client.py], [publisher.py])

    The two queries, what their answers must look like, and the validated message that goes to Redis.
    The HTTP client and [datetime.fromisoformat] are parameters. *)
From S2P Require Import Prelude PyStr PyDecimal PyFloat PyFloatFacts Json PyRepr RdModel RdConfig.
From S2P Require JsonFacts CogDebate.

(** ** QuestDB *)

Definition TABLE : pystr := u "market_data".
Definition _NS_PER_US : Z := 1000.
Definition QuestDbError : exn_class := OtherError (u "QuestDbError").
Definition ClientError : exn_class := OtherError (u "ClientError").
Definition JSONDecodeError : exn_class := OtherError (u "JSONDecodeError").
Definition IndexError : exn_class := OtherError (u "IndexError").

Record BarRows := mkRows {
  mid_prices : list Cell; spreads : list Cell; ofis : list Cell; latest_ts_ns : option Z; latest_is_stale : bool }.

Abbreviation payload := (list (pystr * json)).
(** [fromisoformat]: the wall-clock time of a text in microseconds since 1970, and its offset from UTC if it has one. *)
Abbreviation iso_parser := (pystr → option (Z * option Z)).

(** A timedelta as [days], [seconds], [microseconds]. *)
Definition delta_ns (us : Z) : Z :=
  let days := us / 86400000000 in
  let seconds := (us mod 86400000000) / 1000000 in
  let microseconds := us mod 1000000 in
  (days * 86400 + seconds) * 1000000000 + microseconds * _NS_PER_US.
Definition parse_timestamp_ns (fromisoformat : iso_parser) (value : json) : option Z :=
  match value with
  | JStr s =>
      match fromisoformat s with
      | Some (wall, offset) => Some (delta_ns (wall - default 0 offset))
      | None => None
      end
  | _ => None
  end.

Definition _dataset (p : payload) : result (list json) :=
  match obj_get p (u "error") with
  | Some e => raise QuestDbError (u "query error: " ++ take 120 (plain_str e))
  | None =>
      match obj_get p (u "dataset") with
      | Some (JArr l) => Ok l
      | _ => raise QuestDbError (u "response has no dataset")
      end
  end.

(** [row[i]] of a decoded value, [i] not negative. *)
Definition subscript (row : json) (i : nat) : result json :=
  match row with
  | JArr l => match l !! i with Some v => Ok v | None => raise IndexError (u "list index out of range") end
  | JStr s => match s !! i with Some c => Ok (JStr [c]) | None => raise IndexError (u "string index out of range") end
  | JObj _ => raise KeyError (str_of_Z (Z.of_nat i))
  | _ => raise TypeError (u "object is not subscriptable")
  end.
(** [if row]: a float is false when it is zero. *)
Definition truth (v : json) : bool := match v with JFloat t => negb (float_eqb (float_of_text t) f0) | v => py_bool v end.

Definition _cell (row : json) (i : nat) : result Cell :=
  value ← subscript row i;
  Ok (match value with JInt z => CInt z | JFloat t => CFloat (float_of_text t) | _ => CNone end).

(** The position of each named column; of columns with the same name the last counts. *)
Definition column_index (columns : list json) : gmap pystr nat :=
  fold_left (λ idx ic, match ic.2 with JObj c => <[plain_str (default JNull (obj_get c (u "name"))) := ic.1]> idx | _ => idx end)
    (zip (seq 0 (length columns)) columns) ∅.
Definition column_at (idx : gmap pystr nat) (name : pystr) : result nat :=
  match idx !! name with Some i => Ok i | None => raise QuestDbError (u "missing expected column: " ++ repr_str name) end.

Definition _to_bar_rows (fromisoformat : iso_parser) (p : payload) (ts_column : pystr) : result (option BarRows) :=
  dataset ← _dataset p;
  match dataset with
  | [] => Ok None
  | latest :: _ =>
      columns ← match obj_get p (u "columns") with
                | Some (JArr l) => Ok l | _ => raise QuestDbError (u "response has no column metadata") end;
      let idx := column_index columns in
      mid_i ← column_at idx (u "mid_price"); spr_i ← column_at idx (u "spread");
      ofi_i ← column_at idx (u "order_flow_imbalance"); stale_i ← column_at idx (u "is_stale"); ts_i ← column_at idx ts_column;
      let chronological := reverse dataset in
      mids ← mapR (λ r, _cell r mid_i) chronological;
      sprs ← mapR (λ r, _cell r spr_i) chronological;
      ofs ← mapR (λ r, _cell r ofi_i) chronological;
      ts ← subscript latest ts_i;
      stale ← subscript latest stale_i;
      Ok (Some (mkRows mids sprs ofs (parse_timestamp_ns fromisoformat ts) (match stale with JBool true => true | _ => false end)))
  end.

(** One exchange: the status and the body of the answer, or the exception of the client. *)
Definition http_catches (c : exn_class) : bool := bool_decide (c ∈ [CogDebate.TimeoutError; ClientError; ValueError; JSONDecodeError]).
Definition _http_get_json (exchange : result (Z * result json)) : result payload :=
  body ← try_except
    ('(status, body) ← exchange;
     guard_raise (negb (status =? 200)) QuestDbError (u "HTTP " ++ str_of_Z status);;
     body)
    http_catches (λ e, raise QuestDbError (u "request failed: " ++ exn_msg e));
  match body with JObj m => Ok m | _ => raise QuestDbError (u "response is not a JSON object") end.

Definition symbols_sql (settings : Settings) : pystr :=
  u "SELECT DISTINCT symbol FROM " ++ TABLE ++ u " LIMIT " ++ str_of_Z (max_symbols settings).
Definition rows_sql (settings : Settings) (symbol : pystr) : pystr :=
  let ts := questdb_ts_column settings in
  u "SELECT mid_price, spread, order_flow_imbalance, is_stale, " ++ ts ++ u " FROM " ++ TABLE
  ++ u " WHERE symbol = '" ++ symbol ++ u "' ORDER BY " ++ ts ++ u " DESC LIMIT " ++ str_of_Z (feature_window settings).

Definition quest_error (c : exn_class) : bool := bool_decide (c = QuestDbError).
(** [row[0] if row else None]. *)
Definition candidate (row : json) : result json := if truth row then subscript row 0 else Ok JNull.
Definition valid_str (c : json) : option pystr :=
  match c with JStr s => if is_valid_symbol s then Some s else None | _ => None end.
Definition valid_candidates (rows : list json) : result (list pystr) :=
  match mapR candidate rows with Ok cands => Ok (omap valid_str cands) | Raise e => Raise e end.
(** [sorted(set(symbols))]. *)
Definition sorted_set (l : list pystr) : list pystr := (sort_keys ((λ s, (s, ())) <$> remove_dups l)).*1.
(** The answer to the query of symbols: [None] when QuestDB failed. *)
Definition list_symbols (answer : result payload) : result (option (list pystr)) :=
  try_except (p ← answer; rows ← _dataset p; Ok (Some rows)) quest_error (λ _, Ok None) ≫= λ rows : option (list json),
  match rows with
  | None => Ok None
  | Some rows => symbols ← valid_candidates rows; Ok (Some (sorted_set symbols))
  end.
(** The answer to the query of a symbol's rows. *)
Definition fetch_rows (fromisoformat : iso_parser) (settings : Settings) (answer : result payload) (symbol : pystr)
  : result (option BarRows) :=
  if negb (is_valid_symbol symbol) then Ok None
  else try_except (p ← answer; _to_bar_rows fromisoformat p (questdb_ts_column settings)) quest_error (λ _, Ok None).

(** ** Messages *)

Record RegimeMessage := mkMessage {
  msg_symbol : pystr; msg_label : RegimeLabel; msg_confidence : pyfloat; msg_ts_ns : Z; msg_reason : option pystr }.
Definition make_message (m : RegimeMessage) : result RegimeMessage :=
  guard_raise (negb (is_valid_symbol (msg_symbol m))) ValueError (u "invalid symbol " ++ repr_str (msg_symbol m));;
  guard_raise (negb (is_finite_float (msg_confidence m))
               || negb (float_leb f0 (msg_confidence m) && float_leb (msg_confidence m) f1)) ValueError (u "confidence outside [0, 1]");;
  Ok m.
(** [round(x, 4)] of a finite float. *)
Definition round4 (x : pyfloat) : pyfloat :=
  match x with
  | FFin m e => float_of_ratio (m <? 0) (div_half_even (Z.abs m * 10000 * 2 ^ Z.max 0 e) (2 ^ Z.max 0 (- e))) 10000
  | x => x
  end.
Definition round4_text (x : pyfloat) : pystr := match round4 x with FFin m e => fin_text m e | _ => u "NaN" end.
Definition to_json (m : RegimeMessage) : pystr :=
  dumps (u ",") (u ":") false
    (JObj ([(u "symbol", JStr (msg_symbol m)); (u "label", JStr (label_value (msg_label m)));
            (u "confidence", JFloat (round4_text (msg_confidence m))); (u "ts_ns", JInt (msg_ts_ns m))]
           ++ match msg_reason m with
              | Some r => if bool_decide (msg_label m = UNKNOWN) then [(u "reason", JStr r)] else []
              | None => [] end)).

(** ** Facts *)

Lemma delta_ns_exact us : delta_ns us = us * 1000.
Proof.
  unfold delta_ns, _NS_PER_US.
  assert (Hmod : us mod 1000000 = (us mod 86400000000) mod 1000000).
  { change 86400000000 with (1000000 * 86400). rewrite Z.mod_mod_divide; [done|]. by exists 86400. }
  rewrite Hmod. set (r := us mod 86400000000). pose proof (Z.div_mod us 86400000000 ltac:(lia)) as H1.
  pose proof (Z.div_mod r 1000000 ltac:(lia)) as H2. fold r in H1. lia.
Qed.
Lemma sorted_set_spec l s : s ∈ sorted_set l ↔ s ∈ l.
Proof.
  unfold sorted_set. rewrite JsonFacts.sort_keys_perm, <- list_fmap_compose. cbn. rewrite list_fmap_id. apply elem_of_remove_dups.
Qed.
Lemma sorted_set_NoDup l : NoDup (sorted_set l).
Proof.
  unfold sorted_set. rewrite JsonFacts.sort_keys_perm, <- list_fmap_compose. cbn. rewrite list_fmap_id. apply NoDup_remove_dups.
Qed.
Lemma list_symbols_valid answer l :
  list_symbols answer = Ok (Some l) → NoDup l ∧ ∀ s, s ∈ l → is_valid_symbol s = true.
Proof.
  unfold list_symbols. destruct (try_except _ _ _) as [[rows|]|]; cbn; [|done|done].
  unfold valid_candidates. destruct (mapR candidate rows) as [cands|]; cbn; [|done]. intros [= <-].
  split; [apply sorted_set_NoDup|]. unfold valid_str. intros s. rewrite sorted_set_spec, list_elem_of_omap. intros (c & _ & Hc).
  destruct c; try done. by destruct (is_valid_symbol _) eqn:E; simplify_eq.
Qed.
Lemma make_message_ok m m' : make_message m = Ok m' → m' = m ∧ is_valid_symbol (msg_symbol m) = true
  ∧ is_finite_float (msg_confidence m) = true ∧ float_leb f0 (msg_confidence m) = true ∧ float_leb (msg_confidence m) f1 = true.
Proof.
  unfold make_message, guard_raise. destruct (is_valid_symbol (msg_symbol m)); cbn [negb mbind result_bind]; [|done].
  destruct (is_finite_float (msg_confidence m)); cbn [negb orb mbind result_bind]; [|done].
  destruct (float_leb f0 (msg_confidence m)), (float_leb (msg_confidence m) f1); cbn [negb andb mbind result_bind]; try done.
  by intros [= <-].
Qed.

(** A symbol that reaches SQL cannot leave its quotes, and the row query holds exactly the two quotes
    around it: a valid symbol and a safe identifier contain none. *)
Theorem row_query_is_injection_free settings symbol :
  is_valid_symbol symbol = true → _IDENTIFIER_PATTERN (questdb_ts_column settings) = true →
  length (filter (λ c, c = 39%N) (rows_sql settings symbol)) = 2%nat
  ∧ ∃ pre post, rows_sql settings symbol = pre ++ [39%N] ++ symbol ++ [39%N] ++ post ∧ 39%N ∉ pre ∧ 39%N ∉ symbol ∧ 39%N ∉ post.
Proof.
  intros Hs Hi. set (ts := questdb_ts_column settings) in *.
  assert (Hq : ∀ (p : N → bool) l, forallb p l = true → p 39%N = false → 39%N ∉ l).
  { intros p l H Hp Hin%list_elem_of_In. rewrite forallb_forall in H. rewrite (H _ Hin) in Hp. done. }
  assert (Hsym : 39%N ∉ symbol).
  { unfold is_valid_symbol, class_rep in Hs. apply andb_true_iff in Hs as [Hs _]. by eapply Hq. }
  assert (Hts : 39%N ∉ ts).
  { destruct ts as [|c r]; [done|]. unfold _IDENTIFIER_PATTERN, class_rep in Hi. apply andb_true_iff in Hi as [Hc [Hr _]%andb_true_iff].
    apply not_elem_of_cons. split; [intros <-; by vm_compute in Hc|by eapply Hq]. }
  set (pre := u "SELECT mid_price, spread, order_flow_imbalance, is_stale, " ++ ts ++ u " FROM market_data WHERE symbol = ").
  set (post := u " ORDER BY " ++ ts ++ u " DESC LIMIT " ++ str_of_Z (feature_window settings)).
  assert (Hpost : 39%N ∉ post).
  { unfold post. rewrite !elem_of_app. intros [H|[H|[H|H]]]; [by vm_compute in H; set_solver|done|by vm_compute in H; set_solver|].
    revert H. unfold str_of_Z. assert (Hd : ∀ n, 39%N ∉ digits n) by (intros n; by eapply Hq; [apply digits_all|]).
    case_match; [intros [?|Hx]%elem_of_cons; [done|by eapply Hd]|apply Hd]. }
  assert (Hpre : 39%N ∉ pre).
  { unfold pre. rewrite !elem_of_app. intros [H|[H|H]]; [by vm_compute in H; set_solver|done|by vm_compute in H; set_solver]. }
  assert (Hsql : rows_sql settings symbol = pre ++ [39%N] ++ symbol ++ [39%N] ++ post).
  { unfold rows_sql, pre, post, TABLE. fold ts. rewrite <- !app_assoc. do 3 f_equal. }
  split; [|by exists pre, post]. rewrite Hsql, !filter_app, !length_app.
  assert (Hnone : ∀ l : pystr, 39%N ∉ l → length (filter (λ c, c = 39%N) l) = 0%nat).
  { intros l Hl. destruct (filter (λ c, c = 39%N) l) as [|x k] eqn:E; [done|]. exfalso. apply Hl.
    assert (Hx : x ∈ filter (λ c, c = 39%N) l) by (rewrite E; by left). by apply list_elem_of_filter in Hx as [-> ?]. }
  rewrite (Hnone pre Hpre), (Hnone symbol Hsym), (Hnone post Hpost). by vm_compute.
Qed.

(** The client says that every failure yields [None]; a row that is no list raises instead, as a row that is too short does. *)
Example malformed_rows_escape settings parse :
  (∃ e, list_symbols (Ok [(u "dataset", JArr [JInt 7])]) = Raise e ∧ exn_kind e = TypeError)
  ∧ (∃ e, _to_bar_rows parse [(u "dataset", JArr [JArr []]);
            (u "columns", JArr ((λ n, JObj [(u "name", JStr n)]) <$> [u "mid_price"; u "spread"; u "order_flow_imbalance"; u "is_stale"; u "timestamp"]))]
            (u "timestamp") = Raise e ∧ exn_kind e = IndexError ∧ quest_error (exn_kind e) = false)
  ∧ fetch_rows parse settings (raise QuestDbError []) (u "AAPL") = Ok None.
Proof. split_and!; [eexists; split; [by vm_compute|done]|eexists; split; [by vm_compute|done]|done]. Qed.
