(* ===== verification/RdService.v ===== *)
(** * Regime detector: the service loop ([service.py])

    Per-symbol models, one message per symbol and cycle, and the training that runs beside the loop. The
    clock, QuestDB's answers, Redis and the numerical libraries are parameters; a training task finishes
    between two cycles, and the next cycle collects it. *)
From S2P Require Import Prelude PyStr PyDecimal PyFloat PyFloatFacts Json RdModel RdConfig RdStore RdClient.
From S2P Require CogDebate.

Definition _NS : Z := 1000000000.

Record SymbolState := mkState { st_model : option TrainedModel; next_train_at : pyfloat }.
Definition new_state : SymbolState := mkState None f0.

(** A training task: running on its own copy of the features, or done. *)
Inductive Task := Pending (snapshot : Matrix) | TaskCancelled | Crashed (e : exn) | Finished (model : option TrainedModel).
Definition done (t : Task) : bool := match t with Pending _ => false | _ => true end.

(** The service's own state, the directory of the models, and what the service did: how often it read the
    clock, the queries it sent, the messages it handed to Redis. *)
Record Svc := mkSvc {
  states : gmap pystr SymbolState; training : list (pystr * Task); _known_symbols : list pystr;
  disk : Disk; clocks : nat; queries : list pystr; sent : list RegimeMessage }.
Definition with_states x c := mkSvc x (training c) (_known_symbols c) (disk c) (clocks c) (queries c) (sent c).
Definition with_training x c := mkSvc (states c) x (_known_symbols c) (disk c) (clocks c) (queries c) (sent c).
Definition with_known x c := mkSvc (states c) (training c) x (disk c) (clocks c) (queries c) (sent c).
Definition with_disk x c := mkSvc (states c) (training c) (_known_symbols c) x (clocks c) (queries c) (sent c).
Definition tick c := mkSvc (states c) (training c) (_known_symbols c) (disk c) (S (clocks c)) (queries c) (sent c).
Definition with_query q c := mkSvc (states c) (training c) (_known_symbols c) (disk c) (clocks c) (queries c ++ [q]) (sent c).
Definition with_sent m c := mkSvc (states c) (training c) (_known_symbols c) (disk c) (clocks c) (queries c) (sent c ++ [m]).

Definition set_state (symbol : pystr) (s : SymbolState) (c : Svc) : Svc := with_states (<[symbol := s]> (states c)) c.
Definition del_task (symbol : pystr) (c : Svc) : Svc := with_training (filter (λ t, t.1 ≠ symbol) (training c)) c.
Definition add_task (symbol : pystr) (t : Task) (c : Svc) : Svc := with_training (training c ++ [(symbol, t)]) c.

(** The world: the clock, QuestDB's answer to a query and Redis' to a publication by the number of earlier
    ones, whether a model file can be read, [fromisoformat]. *)
Record Env := mkEnv {
  clock : nat → pyfloat; answer : nat → pystr → result payload; redis : nat → option exn;
  unreadable : pystr → bool; iso : iso_parser }.

(** The numerical libraries. *)
Record Numerics := mkNumerics {
  np_log : pyfloat → pyfloat; np_std1 : list pyfloat → pyfloat; np_std0 : list pyfloat → pyfloat;
  np_mean : list pyfloat → pyfloat; np_sum : list pyfloat → pyfloat; cholesky : Matrix → bool;
  hmm_fit : Matrix → result HmmParams; predict_proba : HmmParams → Matrix → result Matrix;
  np_savez : HmmParams → Scaler → pybytes → pybytes; np_load : pybytes → result Archive }.

(** For each element in turn; an exception ends the loop. *)
Fixpoint mapS {S A B} (f : A → M S B) (l : list A) : M S (list B) :=
  match l with
  | [] => mret []
  | x :: l => y ← f x; ys ← mapS f l; mret (y :: ys)
  end.

Definition redis_catches (c : exn_class) : bool :=
  bool_decide (c ∈ [OtherError (u "RedisError"); OSError; CogDebate.TimeoutError]).

Section service.
Context (o : Env) (np : Numerics) (settings : Settings).

Definition now : M Svc pyfloat := λ c, (Ok (clock o (clocks c)), tick c).
Definition ask (sql : pystr) : M Svc (result payload) := λ c, (Ok (answer o (length (queries c)) sql), with_query sql c).
Definition list_symbols_now : M Svc (option (list pystr)) := a ← ask (symbols_sql settings); lift (list_symbols a).
Definition fetch_rows_now (symbol : pystr) : M Svc (option BarRows) :=
  if negb (is_valid_symbol symbol) then mret None
  else a ← ask (rows_sql settings symbol); lift (fetch_rows (iso o) settings a symbol).
(** [RegimePublisher.publish]. *)
Definition publish (m : RegimeMessage) : M Svc bool := λ c,
  (match redis o (length (sent c)) with
   | None => Ok true
   | Some e => if redis_catches (exn_kind e) then Ok false else Raise e
   end, with_sent m c).

Definition _message (symbol : pystr) (p : Prediction) : M Svc RegimeMessage :=
  t ← now;
  ts ← lift (trunc_float (float_mul t (FFin _NS 0)));
  lift (make_message (mkMessage symbol (label p) (if bool_decide (label p = UNKNOWN) then f0 else confidence p) ts (p_reason p))).

(** *** Model lifecycle *)

Definition _finished_model (t : Task) : option TrainedModel := match t with Finished m => m | _ => None end.
Definition _after_training (state : option SymbolState) (model : option TrainedModel) : M Svc SymbolState :=
  match model with
  | Some m => mret (mkState (Some m) (float_add (trained_at m) (retrain_interval_s settings)))
  | None => t ← now; mret (mkState (st_model (default new_state state)) (float_add t (train_retry_backoff_s settings)))
  end.
Definition collect_one (st : pystr * Task) : M Svc unit :=
  let '(symbol, task) := st in
  if negb (done task) then mret tt
  else
    modify (del_task symbol);;
    c ← get_state;
    s ← _after_training (states c !! symbol) (_finished_model task);
    modify (set_state symbol s).
Definition _collect_training : M Svc unit := c ← get_state; mapS collect_one (training c);; mret tt.

Definition _state_for (symbol : pystr) : M Svc SymbolState :=
  c ← get_state;
  match states c !! symbol with
  | Some s => mret s
  | None =>
      model ← lift (load (np_sum np) (cholesky np) (np_load np) (unreadable o symbol) (model_hmac_key settings) (disk c) symbol);
      let next := match model with Some m => float_add (trained_at m) (retrain_interval_s settings) | None => f0 end in
      let s := mkState model next in
      modify (set_state symbol s);; mret s
  end.
Definition _maybe_start_training (symbol : pystr) (state : SymbolState) (m : Matrix) : M Svc unit :=
  c ← get_state;
  if bool_decide (symbol ∈ (training c).*1) then mret tt
  else
    t ← now;
    if float_ltb t (next_train_at state) then mret tt
    else if Z.of_nat (length m) <? min_train_rows settings then mret tt
    else modify (add_task symbol (Pending m)).

(** [_train], when its task runs: the reading of the clock it starts with, what the save meets. *)
Definition is_model_error (c : exn_class) : bool := bool_decide (c = ModelError) || bool_decide (c = TrainingError).
Definition _train (symbol : pystr) (m : Matrix) (started : pyfloat) (io : SaveIo) (d : Disk) : Task * Disk :=
  match train_model (np_sum np) (np_mean np) (np_std0 np) (cholesky np) (hmm_fit np) m started with
  | Raise e => if is_model_error (exn_kind e) then (Finished None, d) else (Crashed e, d)
  | Ok model => (Finished (Some model), (save (np_savez np) io (model_hmac_key settings) d symbol model).2)
  end.
Definition train_done (symbol : pystr) (t : Task) (d : Disk) (c : Svc) : Svc :=
  with_disk d (with_training ((λ st, if bool_decide (st.1 = symbol) then (symbol, t) else st) <$> training c) c).

(** *** One symbol *)

Definition _staleness_reason (rows : BarRows) : M Svc (option pystr) :=
  match latest_ts_ns rows with
  | None => mret (Some (u "bad_timestamp"))
  | Some ts =>
      if latest_is_stale rows then mret (Some (u "source_flagged_stale"))
      else
        t ← now;
        let age := float_sub t (float_div (FFin ts 0) (FFin _NS 0)) in
        let limit := max_data_age_s settings in
        if float_ltb limit age || float_ltb age (float_neg limit) then mret (Some (u "stale_data")) else mret None
  end.
Definition _evaluate (symbol : pystr) : M Svc Prediction :=
  rows ← fetch_rows_now symbol;
  match rows with
  | None => mret (unknown (u "no_data"))
  | Some rows =>
      stale ← _staleness_reason rows;
      match stale with
      | Some reason => mret (unknown reason)
      | None =>
          build ← lift (extract_features (np_log np) (np_std1 np) (mid_prices rows) (spreads rows) (ofis rows));
          match matrix build with
          | Some m =>
              if rows_used build <? min_bars_for_inference settings then
                mret (unknown (u "insufficient_data:" ++ default (u "insufficient_rows") (reason build)))
              else
                state ← _state_for symbol;
                _maybe_start_training symbol state m;;
                p ← lift (predict_regime (np_mean np) (predict_proba np) (st_model state) (Some m));
                mret (apply_confidence_floor p (min_confidence settings))
          | None => mret (unknown (u "insufficient_data:" ++ default (u "insufficient_rows") (reason build)))
          end
      end
  end.
Definition _evaluate_safe (symbol : pystr) : M Svc RegimeMessage :=
  catch_all (p ← _evaluate symbol; _message symbol p) (λ _, _message symbol (unknown (u "internal_error"))).

(** *** Cycles *)

Definition cycle_messages (symbols : option (list pystr)) : M Svc (list RegimeMessage) :=
  match symbols with
  | None => c ← get_state; mapS (λ s, _message s (unknown (u "questdb_unavailable"))) (_known_symbols c)
  | Some l => modify (with_known l);; mapS _evaluate_safe l
  end.
Definition run_cycle : M Svc (list RegimeMessage) :=
  _collect_training;;
  symbols ← list_symbols_now;
  messages ← cycle_messages symbols;
  mapS publish messages;;
  mret messages.
Definition say_error (symbol : pystr) : M Svc bool := m ← _message symbol (unknown (u "internal_error")); publish m.
Definition _guarded_cycle : M Svc unit :=
  catch_all (run_cycle;; mret tt)
    (λ _, c ← get_state; mapS say_error (_known_symbols c);; mret tt).
Definition shutdown (c : Svc) : Svc := with_training [] c.

(** A cycle of the loop; a training task that runs to its end; a task cancelled from outside; shutdown. *)
Inductive step (c : Svc) : Svc → Prop :=
  | step_cycle : step c (_guarded_cycle c).2
  | step_train symbol m started io : (symbol, Pending m) ∈ training c →
      step c (train_done symbol (_train symbol m started io (disk c)).1 (_train symbol m started io (disk c)).2 c)
  | step_cancel symbol m : (symbol, Pending m) ∈ training c → step c (train_done symbol TaskCancelled (disk c) c)
  | step_shutdown : step c (shutdown c).
Definition start (d : Disk) : Svc := mkSvc ∅ [] [] d 0 [] [].
Definition reachable (d : Disk) : Svc → Prop := rtc step (start d).
End service.

(** ** Facts *)

Section facts.
Context (o : Env) (np : Numerics) (settings : Settings).
#[local] Abbreviation ok_model := (model_ok (np_sum np) (cholesky np)).

(** What a task holds: the features of enough bars of a valid symbol, or a valid model. *)
Definition task_ok (st : pystr * Task) : Prop :=
  is_valid_symbol st.1 = true ∧
  match st.2 with
  | Pending m => usable_features m ∧ min_train_rows settings <= Z.of_nat (length m)
  | Finished (Some m) => ok_model m
  | _ => True
  end.
Definition query_ok (q : pystr) : Prop := q = symbols_sql settings ∨ ∃ s, is_valid_symbol s = true ∧ q = rows_sql settings s.
Definition message_ok (m : RegimeMessage) : Prop :=
  is_valid_symbol (msg_symbol m) = true ∧ is_finite_float (msg_confidence m) = true
  ∧ float_leb f0 (msg_confidence m) = true ∧ float_leb (msg_confidence m) f1 = true
  ∧ (msg_label m = UNKNOWN → msg_confidence m = f0).
Record svc_inv (c : Svc) : Prop := {
  inv_models s st m : states c !! s = Some st → st_model st = Some m → ok_model m;
  inv_tasks : Forall task_ok (training c);
  inv_keys : NoDup (training c).*1;
  inv_known : NoDup (_known_symbols c) ∧ Forall (λ s, is_valid_symbol s = true) (_known_symbols c);
  inv_queries : Forall query_ok (queries c);
  inv_sent : Forall message_ok (sent c) }.

(** The invariant is kept, nothing is sent, the known symbols stay. *)
Definition quiet (c c' : Svc) : Prop :=
  (svc_inv c → svc_inv c') ∧ sent c' = sent c ∧ _known_symbols c' = _known_symbols c.
#[local] Instance quiet_preorder : PreOrder quiet.
Proof.
  split; [done|]. intros a b c (H1 & E1 & K1) (H2 & E2 & K2). split; [auto|]. by rewrite E2, K2.
Qed.

Lemma now_quiet : steps quiet (now o).
Proof. intros c. split; [|done]. by intros [????]; split. Qed.
Lemma ask_quiet sql : query_ok sql → steps quiet (ask o sql).
Proof.
  intros Hq c. split; [|done]. intros [? ? ? ? ? ?]; split; try done. cbn. by apply Forall_app_2; [|by constructor].
Qed.
Lemma set_state_quiet symbol s c : (∀ m, st_model s = Some m → ok_model m) → quiet c (set_state symbol s c).
Proof.
  intros Hs. split; [|done]. intros [Hm ? ? ? ? ?]; split; try done. cbn. intros s' st m.
  destruct (decide (symbol = s')) as [<-|Hne]; [rewrite lookup_insert_eq; intros [= <-]; apply Hs|].
  rewrite lookup_insert_ne by done. apply Hm.
Qed.
Lemma sublist_keys (l : list (pystr * Task)) symbol : (filter (λ t, t.1 ≠ symbol) l).*1 = filter (λ k, k ≠ symbol) l.*1.
Proof.
  induction l as [|[k t] l IH]; [done|]. rewrite fmap_cons, !filter_cons. cbn. case_decide; cbn; by rewrite IH.
Qed.
Lemma del_task_quiet symbol c : quiet c (del_task symbol c).
Proof.
  split; [|done]. intros [? Ht Hk ? ? ?]; split; try done; cbn.
  - rewrite Forall_forall in Ht |- *. intros x [_ Hx]%list_elem_of_filter. by apply Ht.
  - rewrite sublist_keys. by apply NoDup_filter.
Qed.
(** What collecting a finished task comes to. *)
Definition collected (symbol : pystr) (task : Task) (c : Svc) : Svc :=
  match _finished_model task with
  | Some m => set_state symbol (mkState (Some m) (float_add (trained_at m) (retrain_interval_s settings))) (del_task symbol c)
  | None => set_state symbol (mkState (st_model (default new_state (states c !! symbol)))
              (float_add (clock o (clocks c)) (train_retry_backoff_s settings))) (tick (del_task symbol c))
  end.
Lemma collect_one_eq symbol task c :
  collect_one o settings (symbol, task) c = (Ok tt, if done task then collected symbol task c else c).
Proof.
  unfold collect_one, collected. destruct (done task); [|done]. cbn [negb].
  unfold _after_training. by destruct (_finished_model task).
Qed.
Lemma collected_quiet symbol task c : task_ok (symbol, task) → quiet c (collected symbol task c).
Proof.
  intros [_ Ht]. split; [|unfold collected; by destruct (_finished_model task)]. intros Hi.
  assert (Hd : svc_inv (del_task symbol c)) by by apply (proj1 (del_task_quiet symbol c)).
  unfold collected. destruct (_finished_model task) as [m|] eqn:Ef.
  - refine (proj1 (set_state_quiet _ _ _ _) _); [|done]. cbn. intros m' [= <-]. destruct task as [| | |[?|]]; try done. cbn in Ef. by injection Ef as <-.
  - assert (Hd' : svc_inv (tick (del_task symbol c))) by (destruct Hd; by split).
    refine (proj1 (set_state_quiet _ _ _ _) _); [|done]. cbn. intros m Hm. destruct (states c !! symbol) as [st|] eqn:E; [|done].
    by apply (inv_models c Hi symbol st).
Qed.
Lemma collect_all_quiet l c : Forall task_ok l → quiet c (mapS (collect_one o settings) l c).2
  ∧ ∃ us, (mapS (collect_one o settings) l c).1 = Ok us.
Proof.
  revert c. induction l as [|[symbol task] l IH]; intros c Hl; cbn [mapS]; [split; [reflexivity|by exists []]|].
  apply Forall_cons in Hl as [Ht Hl]. unfold mbind, M_bind. rewrite collect_one_eq.
  set (c1 := if done task then _ else c). assert (H1 : quiet c c1).
  { unfold c1. destruct (done task); [by apply collected_quiet|reflexivity]. }
  destruct (IH c1 Hl) as [H2 (us & H3)]. destruct (mapS _ l c1) as [r c2]. cbn [fst snd] in *. subst r.
  split; [by etransitivity|by eexists].
Qed.
Lemma collect_training_quiet c : svc_inv c → quiet c (_collect_training o settings c).2 ∧ (_collect_training o settings c).1 = Ok tt.
Proof.
  intros Hi. destruct (collect_all_quiet (training c) c (inv_tasks c Hi)) as [H (us & E)].
  unfold _collect_training, get_state, mbind, M_bind. destruct (mapS _ _ c) as [r c']. cbn in *. by subst r.
Qed.

(** *** Messages *)

Context (Hclock : ∀ n, ∃ z, trunc_float (float_mul (clock o n) (FFin _NS 0)) = Ok z).
Context (Hredis : ∀ n e, redis o n = Some e → redis_catches (exn_kind e) = true).

Definition says_nothing (m : RegimeMessage) : Prop := msg_label m = UNKNOWN ∧ msg_confidence m = f0 ∧ is_Some (msg_reason m).
Lemma message_cases symbol p c :
  is_valid_symbol symbol = true → (_message o symbol p c).2 = tick c ∧
  ((∃ m, (_message o symbol p c).1 = Ok m ∧ message_ok m ∧ msg_symbol m = symbol ∧ msg_label m = label p ∧ msg_reason m = p_reason p
      ∧ msg_confidence m = (if bool_decide (label p = UNKNOWN) then f0 else confidence p))
   ∨ label p ≠ UNKNOWN ∧ ∃ e, (_message o symbol p c).1 = Raise e).
Proof.
  intros Hs. unfold _message, now, lift, mbind, M_bind. destruct (Hclock (clocks c)) as [z ->].
  set (m := mkMessage _ _ _ _ _). destruct (make_message m) as [m'|e] eqn:E.
  - split; [done|]. left. apply make_message_ok in E as (-> & H1 & H2 & H3 & H4). exists m. split_and!; try done. split_and!; try done.
    unfold m. cbn. intros ->. by rewrite bool_decide_eq_true_2.
  - split; [done|]. right. split; [|by exists e]. intros Hl. revert E. unfold make_message, guard_raise, m.
    cbn [msg_symbol msg_confidence]. by rewrite Hs, bool_decide_eq_true_2.
Qed.
Lemma message_unknown symbol reason_ c :
  is_valid_symbol symbol = true → ∃ m, _message o symbol (unknown reason_) c = (Ok m, tick c) ∧ message_ok m
    ∧ msg_symbol m = symbol ∧ says_nothing m.
Proof.
  intros Hs. destruct (message_cases symbol (unknown reason_) c Hs) as [H2 [(m & H1 & Hok & Hsym & Hl & Hr & Hc)|(Hne & _)]]; [|done].
  exists m. destruct (_message _ _ _ _) as [r c']. cbn in *. subst. split_and!; try done.
Qed.
Lemma tick_quiet c : quiet c (tick c). Proof. apply (now_quiet c). Qed.

(** *** One symbol *)

(** What a regime that is published rests on: fresh rows that QuestDB answered for the symbol, enough
    finite features, a valid model, and the model's evidence over the floor. *)
Definition fresh (now_ : pyfloat) (ts : Z) : Prop :=
  let age := float_sub now_ (float_div (FFin ts 0) (FFin _NS 0)) in
  float_ltb (max_data_age_s settings) age = false ∧ float_ltb age (float_neg (max_data_age_s settings)) = false.
Definition backed (symbol : pystr) (p : Prediction) : Prop :=
  ∃ k n rows ts build f md,
    fetch_rows (iso o) settings (answer o k (rows_sql settings symbol)) symbol = Ok (Some rows)
    ∧ latest_is_stale rows = false ∧ latest_ts_ns rows = Some ts ∧ fresh (clock o n) ts
    ∧ extract_features (np_log np) (np_std1 np) (mid_prices rows) (spreads rows) (ofis rows) = Ok build ∧ matrix build = Some f
    ∧ min_bars_for_inference settings <= rows_used build
    ∧ ok_model md ∧ evidence (np_mean np) (predict_proba np) md f p
    ∧ label p ≠ UNKNOWN ∧ float_leb (min_confidence settings) (confidence p) = true.

Lemma fetch_rows_now_spec symbol c r c' :
  fetch_rows_now o settings symbol c = (r, c') → quiet c c' ∧
  ∀ rows, r = Ok (Some rows) → is_valid_symbol symbol = true
    ∧ ∃ k, fetch_rows (iso o) settings (answer o k (rows_sql settings symbol)) symbol = Ok (Some rows).
Proof.
  unfold fetch_rows_now. destruct (is_valid_symbol symbol) eqn:Es; cbn [negb].
  - intros [= <- <-]. split; [apply (ask_quiet (rows_sql settings symbol)); right; by exists symbol|].
    intros rows Hr. split; [done|]. by eexists.
  - intros [= <- <-]. split; [reflexivity|done].
Qed.
Lemma staleness_spec rows c r c' :
  _staleness_reason o settings rows c = (r, c') → quiet c c' ∧
  (r = Ok None → latest_is_stale rows = false ∧ ∃ ts n, latest_ts_ns rows = Some ts ∧ fresh (clock o n) ts)
  ∧ (∃ x, r = Ok x).
Proof.
  unfold _staleness_reason. destruct (latest_ts_ns rows) as [ts|]; [|intros [= <- <-]; by split_and!; [reflexivity| |eexists]].
  destruct (latest_is_stale rows); [intros [= <- <-]; by split_and!; [reflexivity| |eexists]|].
  unfold now, mbind, M_bind. destruct (_ || _) eqn:E; intros [= <- <-]; (split_and!; [apply tick_quiet| |by eexists]); [done|].
  intros _. split; [done|]. exists ts, (clocks c). split; [done|]. by apply orb_false_iff in E.
Qed.
Lemma state_for_spec symbol c r c' :
  svc_inv c → _state_for o np settings symbol c = (r, c') → quiet c c' ∧ ∀ s, r = Ok s → ∀ m, st_model s = Some m → ok_model m.
Proof.
  intros Hi. unfold _state_for, get_state, lift, modify, mbind, M_bind, mret, M_ret.
  destruct (states c !! symbol) as [s|] eqn:Es.
  { intros [= <- <-]. split; [reflexivity|]. intros ? [= <-] m. by apply (inv_models c Hi symbol). }
  pose proof (load_verified (np_sum np) (cholesky np) (np_load np) (unreadable o symbol) (model_hmac_key settings) (disk c) symbol) as Hl.
  destruct (load _ _ _ _ _ _ _) as [model|e]; [|intros [= <- <-]; split; [reflexivity|done]].
  set (s := mkState model _). assert (Hs : ∀ m, st_model s = Some m → ok_model m).
  { unfold s. cbn. intros m ->. by destruct Hl as (k & p & _ & _ & _ & _ & [[? _] _]%deserialize_decoded). }
  intros [= <- <-]. split; [by apply set_state_quiet|]. by intros ? [= <-].
Qed.
Lemma maybe_start_quiet symbol state m c :
  is_valid_symbol symbol = true → usable_features m → quiet c (_maybe_start_training o settings symbol state m c).2
  ∧ (_maybe_start_training o settings symbol state m c).1 = Ok tt.
Proof.
  intros Hs Hu. unfold _maybe_start_training, get_state, now, modify, mbind, M_bind, mret, M_ret.
  case_bool_decide as Hk; [by split|]. destruct (float_ltb _ _); [split; [apply tick_quiet|done]|].
  destruct (Z.ltb_spec (Z.of_nat (length m)) (min_train_rows settings)); [split; [apply tick_quiet|done]|].
  split; [|done]. split; [|done]. intros [? Ht Hkeys ? ? ?]. split; try done; cbn.
  - by apply Forall_app_2; [|constructor; [split|]].
  - rewrite fmap_app. cbn. apply NoDup_app. split_and!; [done| |apply NoDup_singleton]. intros x Hx ->%list_elem_of_singleton. done.
Qed.
Lemma extract_usable mids sprs ofs build f :
  extract_features (np_log np) (np_std1 np) mids sprs ofs = Ok build → matrix build = Some f → usable_features f.
Proof.
  intros He Hf. apply features_never_repair in He as [_ He]. rewrite Hf in He.
  destruct He as (Hne & _ & _ & _ & _ & returns & all & -> & _ & Hrows). split; [done|]. intros row Hrow%list_elem_of_In%filter_In.
  destruct Hrow as [Hin Hfin]. split; [|done]. apply list_elem_of_In, list_elem_of_lookup in Hin as [i Hi].
  destruct (Hrows i row Hi) as (? & ? & ? & ? & ? & ? & ? & ? & _ & _ & _ & _ & _ & _ & _ & _ & _ & ->). done.
Qed.
Lemma evaluate_spec symbol c r c' :
  svc_inv c → _evaluate o np settings symbol c = (r, c') → quiet c c' ∧ ∀ p, r = Ok p → abstains p ∨ backed symbol p.
Proof.
  intros Hi H. unfold _evaluate in H. m_step H; [|apply fetch_rows_now_spec in E as [? _]; by subst].
  apply fetch_rows_now_spec in E as [Hq1 Hrows]. destruct a as [rows|].
  2: { injection H as <- <-. split; [done|]. intros p [= <-]. by left. }
  destruct (Hrows rows eq_refl) as (Hs & k & Hfetch). m_step H; [|apply staleness_spec in E as (? & _ & ? & ?); done].
  apply staleness_spec in E as (Hq2 & Hfresh & _). assert (Hq : quiet c s0) by by transitivity s. clear Hq1 Hq2.
  destruct a as [reason_|]. { injection H as <- <-. split; [done|]. intros p [= <-]. by left. }
  destruct (Hfresh eq_refl) as (Hstale & ts & n & Hts & Hage). m_step H; [|injection E as _ <-; by subst].
  injection E as E <-. destruct (matrix a) as [f|] eqn:Ef.
  2: { injection H as <- <-. split; [done|]. intros p [= <-]. by left. }
  destruct (Z.ltb_spec (rows_used a) (min_bars_for_inference settings)) as [|Hbars].
  { injection H as <- <-. split; [done|]. intros p [= <-]. by left. }
  pose proof (extract_usable _ _ _ _ _ E Ef) as Hu.
  m_step H; [|apply state_for_spec in E0 as [? _]; [subst; split; [by etransitivity|done]|by apply (proj1 Hq)]].
  apply state_for_spec in E0 as [Hq1 Hmodel]; [|by apply (proj1 Hq)]. specialize (Hmodel _ eq_refl).
  assert (Hq' : quiet c s1) by by transitivity s0. clear Hq Hq1.
  m_step H. 2: { destruct (maybe_start_quiet symbol a0 f s1 Hs Hu) as [_ Hr]. by rewrite E0 in Hr. }
  destruct (maybe_start_quiet symbol a0 f s1 Hs Hu) as [Hq1 _]. rewrite E0 in Hq1. cbn in Hq1.
  assert (Hq : quiet c s2) by by transitivity s1. clear Hq' Hq1.
  m_step H; [|injection E1 as _ <-; by subst]. injection E1 as E1 <-. injection H as <- <-. split; [done|]. intros p [= <-].
  pose proof (regime_needs_evidence (np_sum np) (np_mean np) (cholesky np) (predict_proba np) (st_model a0) (Some f) (min_confidence settings) Hmodel) as Hreg.
  rewrite E1 in Hreg. destruct Hreg as [Ha|(md & f' & Hmd & [= <-] & Hev & Hne & Hfl)]; [by left|right].
  exists k, n, rows, ts, a, f, md. split_and!; try done. by apply Hmodel.
Qed.

(** The message of a symbol: it abstains, or what it says is backed. *)
Definition said (symbol : pystr) (m : RegimeMessage) : Prop :=
  message_ok m ∧ msg_symbol m = symbol ∧
  (says_nothing m ∨ ∃ p, backed symbol p ∧ msg_label m = label p ∧ msg_confidence m = confidence p).
Lemma evaluate_safe_spec symbol c :
  svc_inv c → is_valid_symbol symbol = true → ∃ m c', _evaluate_safe o np settings symbol c = (Ok m, c') ∧ quiet c c' ∧ said symbol m.
Proof.
  intros Hi Hs. unfold _evaluate_safe, catch_all. unfold mbind at 1, M_bind at 1.
  destruct (_evaluate o np settings symbol c) as [r c1] eqn:E. apply evaluate_spec in E as [Hq Hp]; [|done].
  assert (Hsafe : ∀ c2, quiet c c2 → ∃ m c', _message o symbol (unknown (u "internal_error")) c2 = (Ok m, c') ∧ quiet c c' ∧ said symbol m).
  { intros c2 Hq2. destruct (message_unknown symbol (u "internal_error") c2 Hs) as (m & -> & Hok & Hsym & Hn). exists m, (tick c2).
    split_and!; [done|by etransitivity; [|apply tick_quiet]|]. split_and!; try done. by left. }
  destruct r as [p|e]; [|by apply Hsafe]. specialize (Hp p eq_refl).
  destruct (message_cases symbol p c1 Hs) as [Hc2 Hm]. destruct (_message o symbol p c1) as [rm c2]. cbn in Hc2, Hm. subst c2.
  assert (Hq2 : quiet c (tick c1)) by (etransitivity; [done|apply tick_quiet]).
  destruct Hm as [(m & -> & Hok & Hsym & Hl & Hr & Hconf)|(_ & e & ->)]; [|by apply Hsafe].
  exists m, (tick c1). split_and!; [done..|]. split_and!; [done..|].
  destruct Hp as [(Hu & Hcf & Hre)|Hb].
  - left. unfold says_nothing. rewrite Hl, Hconf, Hr, Hu. by rewrite bool_decide_eq_true_2.
  - right. exists p. split_and!; [done..|]. rewrite Hconf, bool_decide_eq_false_2; [done|].
    by destruct Hb as (? & ? & ? & ? & ? & ? & ? & _ & _ & _ & _ & _ & _ & _ & _ & _ & Hne & _).
Qed.

(** One message for each symbol of a list. *)
Definition speaks (symbols : list pystr) (ms : list RegimeMessage) : Prop := Forall2 said symbols ms.
Lemma mapS_speaks (f : pystr → M Svc RegimeMessage) l c :
  svc_inv c → Forall (λ s, is_valid_symbol s = true) l →
  (∀ s c, svc_inv c → is_valid_symbol s = true → ∃ m c', f s c = (Ok m, c') ∧ quiet c c' ∧ said s m) →
  ∃ ms c', mapS f l c = (Ok ms, c') ∧ quiet c c' ∧ speaks l ms.
Proof.
  intros Hi Hl Hf. revert c Hi. induction Hl as [|s l Hs Hl IH]; intros c Hi; cbn [mapS].
  { exists [], c. split_and!; [done|reflexivity|constructor]. }
  unfold mbind, M_bind. destruct (Hf s c Hi Hs) as (m & c1 & -> & Hq1 & Hm).
  destruct (IH c1) as (ms & c2 & -> & Hq2 & Hms); [by apply (proj1 Hq1)|]. exists (m :: ms), c2.
  split_and!; [done|by etransitivity|by constructor].
Qed.
Lemma unknown_said reason_ s c : svc_inv c → is_valid_symbol s = true →
  ∃ m c', _message o s (unknown reason_) c = (Ok m, c') ∧ quiet c c' ∧ said s m.
Proof.
  intros _ Hs. destruct (message_unknown s reason_ c Hs) as (m & E & Hok & Hsym & Hn). exists m, (tick c).
  split_and!; [done|apply tick_quiet|]. split_and!; try done. by left.
Qed.
(** Publishing keeps everything but what was sent. *)
Lemma publish_all ms c :
  Forall message_ok ms → ∃ bs c', mapS (publish o) ms c = (Ok bs, c') ∧ (svc_inv c → svc_inv c')
    ∧ sent c' = sent c ++ ms ∧ _known_symbols c' = _known_symbols c.
Proof.
  intros Hms. revert c. induction Hms as [|m ms Hm Hms IH]; intros c; cbn [mapS].
  { exists [], c. by rewrite app_nil_r. }
  assert (H1 : ∃ b, publish o m c = (Ok b, with_sent m c)).
  { unfold publish. destruct (redis o (length (sent c))) as [e|] eqn:E; [|by eexists]. rewrite (Hredis _ _ E). by eexists. }
  destruct H1 as [b E]. unfold mbind, M_bind. rewrite E. destruct (IH (with_sent m c)) as (bs & c' & -> & Hi & Hsent & Hk).
  exists (b :: bs), c'. split_and!; [done| |by rewrite Hsent; cbn; rewrite <- app_assoc|done].
  intros [? ? ? ? ? Hs]. apply Hi. split; try done. cbn. by apply Forall_app_2; [|constructor].
Qed.
Lemma speaks_ok l ms : speaks l ms → Forall message_ok ms.
Proof. induction 1 as [|? ? ? ? [? _]]; by constructor. Qed.

Lemma cycle_messages_spec symbols c :
  svc_inv c → (∀ l, symbols = Some l → NoDup l ∧ ∀ s, s ∈ l → is_valid_symbol s = true) →
  ∃ ms c', cycle_messages o np settings symbols c = (Ok ms, c') ∧ svc_inv c' ∧ sent c' = sent c ∧ speaks (_known_symbols c') ms.
Proof.
  intros Hi Hsym. unfold cycle_messages. destruct symbols as [l|].
  - destruct (Hsym l eq_refl) as [Hnd Hv]. assert (Hv' : Forall (λ s, is_valid_symbol s = true) l) by by apply Forall_forall.
    assert (Hi1 : svc_inv (with_known l c)) by (destruct Hi; by split).
    destruct (mapS_speaks (_evaluate_safe o np settings) l (with_known l c) Hi1 Hv') as (ms & c' & E & Hq & Hms).
    { intros; by apply evaluate_safe_spec. }
    exists ms, c'. unfold modify, mbind, M_bind. destruct Hq as (Hqi & Hqs & Hqk). rewrite E, Hqs, Hqk. split_and!; auto.
  - destruct (mapS_speaks (λ s, _message o s (unknown (u "questdb_unavailable"))) (_known_symbols c) c Hi (proj2 (inv_known c Hi))) as (ms & c' & E & Hq & Hms).
    { intros; by apply unknown_said. }
    exists ms, c'. unfold get_state, mbind, M_bind. destruct Hq as (Hqi & Hqs & Hqk). rewrite E, Hqs, Hqk. split_and!; auto.
Qed.

(** One cycle, guarded: it ends normally with a message for every known symbol. *)
Lemma guarded_cycle_spec c :
  svc_inv c → ∃ ms c', _guarded_cycle o np settings c = (Ok tt, c') ∧ svc_inv c' ∧ sent c' = sent c ++ ms ∧ speaks (_known_symbols c') ms.
Proof.
  intros Hi. unfold _guarded_cycle, catch_all.
  destruct (collect_training_quiet c Hi) as [Hq1 E1]. destruct (_collect_training o settings c) as [r c1] eqn:Ec. cbn in Hq1, E1. subst r.
  set (c2 := with_query (symbols_sql settings) c1).
  assert (Hq2 : quiet c c2) by (etransitivity; [done|]; apply (ask_quiet (symbols_sql settings)); by left).
  destruct Hq2 as (Hi2 & Hs2 & Hk2). specialize (Hi2 Hi).
  assert (Hl : list_symbols_now o settings c1 = (list_symbols (answer o (length (queries c1)) (symbols_sql settings)), c2)) by done.
  assert (Hrun : ∀ (k : list RegimeMessage → M Svc unit), (run_cycle o np settings ≫= k) c
    = ((list_symbols_now o settings ≫= λ symbols, cycle_messages o np settings symbols ≫= λ ms, mapS (publish o) ms ≫= λ _, mret ms) ≫= k) c1).
  { intros k. unfold run_cycle, mbind, M_bind. by rewrite Ec. }
  rewrite Hrun. clear Hrun.
  destruct (list_symbols (answer o (length (queries c1)) (symbols_sql settings))) as [symbols|e] eqn:El.
  - destruct (cycle_messages_spec symbols c2 Hi2) as (ms & c3 & E3 & Hi3 & Hs3 & Hsp).
    { intros l ->. by eapply list_symbols_valid. }
    destruct (publish_all ms c3 (speaks_ok _ _ Hsp)) as (bs & c4 & E4 & Hi4 & Hs4 & Hk4).
    exists ms, c4. unfold mbind, M_bind. rewrite Hl, E3, E4. cbn. rewrite Hs4, Hs3, Hs2, Hk4. split_and!; auto.
  - assert (Hgen : ∀ l c, svc_inv c → Forall (λ s, is_valid_symbol s = true) l →
      ∃ ms us c', mapS (say_error o) l c = (Ok us, c')
        ∧ svc_inv c' ∧ sent c' = sent c ++ ms ∧ _known_symbols c' = _known_symbols c ∧ speaks l ms).
    { intros l. clear -Hclock Hredis. induction l as [|s l IH]; intros c Hi Hl; cbn [mapS].
      { exists [], [], c. rewrite app_nil_r. split_and!; try done. constructor. }
      apply Forall_cons in Hl as [Hs Hl]. unfold mbind, M_bind. unfold say_error at 1, mbind, M_bind.
      destruct (unknown_said (u "internal_error") s c Hi Hs) as (m & c1 & -> & Hq & Hm).
      destruct (publish_all [m] c1) as (bs & c2 & E2 & Hi2 & Hs2 & Hk2); [constructor; [apply Hm|done]|].
      cbn [mapS] in E2. unfold mbind, M_bind in E2. destruct (publish o m c1) as [[b|] c1'] eqn:Ep; [|done].
      injection E2 as _ ->. destruct Hq as (Hqi & Hqs & Hqk).
      destruct (IH c2) as (ms & us & c3 & -> & Hi3 & Hs3 & Hk3 & Hsp); [auto|done|].
      exists (m :: ms), (b :: us), c3. split_and!; [done|done| |by rewrite Hk3, Hk2, Hqk|by constructor].
      by rewrite Hs3, Hs2, Hqs, <- app_assoc. }
    destruct (Hgen (_known_symbols c2) c2 Hi2 (proj2 (inv_known c2 Hi2))) as (ms & us & c3 & E3 & Hi3 & Hs3 & Hk3 & Hsp).
    exists ms, c3. unfold get_state, mbind, M_bind. rewrite Hl, E3. cbn. rewrite Hs3, Hs2, Hk3. split_and!; auto.
Qed.

(** C23: Every known symbol gets exactly one message per cycle, whatever QuestDB, the models, the files and
    Redis do, and the loop survives the cycle. The message names a regime only when it is backed: QuestDB's
    rows for that very symbol, not flagged stale and within the age limit by the clock, enough finite
    feature rows, a valid model, and the model's own evidence not under the confidence floor. Every other
    message is REGIME_UNKNOWN with confidence zero and a reason. Two things are supposed of the libraries:
    the clock gives a finite time, and the Redis client raises only the exceptions that publishing
    catches (its own RedisError, OSError, TimeoutError). *)
Theorem every_known_symbol_every_cycle c :
  svc_inv c → ∃ ms c', _guarded_cycle o np settings c = (Ok tt, c') ∧ svc_inv c' ∧ sent c' = sent c ++ ms ∧ speaks (_known_symbols c') ms.
Proof. apply guarded_cycle_spec. Qed.

(** *** Training *)

(** The state a finished task leaves; [n]: the reading of the clock. *)
Definition after_task (t : Task) (old : option SymbolState) (n : nat) : option SymbolState :=
  match t with
  | Pending _ => old
  | Finished (Some m) => Some (mkState (Some m) (float_add (trained_at m) (retrain_interval_s settings)))
  | _ => Some (mkState (st_model (default new_state old)) (float_add (clock o n) (train_retry_backoff_s settings)))
  end.
Lemma collected_state symbol task c : done task = true →
  states (collected symbol task c) !! symbol = after_task task (states c !! symbol) (clocks c)
  ∧ (∀ s, s ≠ symbol → states (collected symbol task c) !! s = states c !! s)
  ∧ training (collected symbol task c) = filter (λ t, t.1 ≠ symbol) (training c).
Proof.
  intros Hd. unfold collected, after_task. destruct task as [?| |?|[m|]]; try done; cbn;
    (split_and!; [by rewrite lookup_insert_eq|intros s Hs; by rewrite lookup_insert_ne|done]).
Qed.
Lemma collect_all_states l c :
  NoDup l.*1 → let c' := (mapS (collect_one o settings) l c).2 in
  (∀ s t, (s, t) ∈ l → ∃ n, states c' !! s = after_task t (states c !! s) n)
  ∧ (∀ s, s ∉ l.*1 → states c' !! s = states c !! s)
  ∧ (∀ st, st ∈ training c' ↔ st ∈ training c ∧ ∀ t, (st.1, t) ∈ l → done t = false).
Proof.
  revert c. induction l as [|[symbol task] l IH]; intros c Hnd.
  { split_and!; [by intros ?? ?%not_elem_of_nil|done|]. intros st. cbn. split; [|by intros [? _]]. intros H. split; [done|].
    by intros ? ?%not_elem_of_nil. }
  rewrite fmap_cons in Hnd. apply NoDup_cons in Hnd as [Hni Hnd]. cbn [fst] in Hni. cbn [mapS]. unfold mbind, M_bind. rewrite collect_one_eq.
  set (c1 := if done task then collected symbol task c else c).
  assert (H1 : states c1 !! symbol = after_task task (states c !! symbol) (clocks c)
    ∧ (∀ s, s ≠ symbol → states c1 !! s = states c !! s)
    ∧ ∀ st, st ∈ training c1 ↔ st ∈ training c ∧ (st.1 = symbol → done task = false)).
  { unfold c1. destruct (done task) eqn:Ed.
    - destruct (collected_state symbol task c Ed) as (Ha & Hb & ->). split_and!; [done|done|].
      intros st. rewrite list_elem_of_filter. split; [intros [Hne ?]; by split|]. intros [Hin Hf]. split; [|done].
      intros E. by specialize (Hf E).
    - split_and!; [by destruct task|done|]. intros st. split; [done|]. by intros [? _]. }
  destruct H1 as (Ha & Hb & Hc). specialize (IH c1 Hnd). cbn zeta in IH. destruct (mapS _ l c1) as [r c'] eqn:E.
  assert (Hfin : (match r with Ok ys => (mret (tt :: ys) : M Svc (list unit)) c' | Raise e => (Raise e, c') end).2 = c') by by destruct r.
  rewrite Hfin. cbn [snd] in IH. destruct IH as (I1 & I2 & I3). split_and!.
  - intros s t [[= -> ->]|Hin]%elem_of_cons.
    + exists (clocks c). by rewrite I2.
    + destruct (I1 s t Hin) as [n Hn]. exists n. rewrite Hn, Hb; [done|]. intros ->. apply Hni.
      apply list_elem_of_fmap. by exists (symbol, t).
  - intros s [Hs1 Hs2]%not_elem_of_cons. rewrite I2 by done. by apply Hb.
  - intros st. rewrite I3, Hc. split.
    + intros [[Hin Hd] Hl]. split; [done|]. intros t [[= E1 ->]|Ht]%elem_of_cons; [by apply Hd|by apply Hl].
    + intros [Hin Hl]. split; [split; [done|]|].
      * intros <-. apply Hl. by left.
      * intros t Ht. apply Hl. by right.
Qed.

(** Only a success moves the retrain clock. The next cycle installs a finished model and schedules the
    next training an interval after the model was trained; a training that failed, crashed or was cancelled
    leaves the model in service as it was and schedules a retry after the backoff; a training that is still
    running stays, and the other symbols are untouched. *)
Theorem failed_training_keeps_the_model c :
  svc_inv c → ∃ c', _collect_training o settings c = (Ok tt, c')
  ∧ (∀ s t, (s, t) ∈ training c → ∃ n, states c' !! s = after_task t (states c !! s) n)
  ∧ (∀ s, s ∉ (training c).*1 → states c' !! s = states c !! s)
  ∧ (∀ st, st ∈ training c' ↔ st ∈ training c ∧ done st.2 = false).
Proof.
  intros Hi. destruct (collect_all_states (training c) c (inv_keys c Hi)) as (H1 & H2 & H3).
  destruct (collect_all_quiet (training c) c (inv_tasks c Hi)) as [_ (us & E)].
  unfold _collect_training, get_state, mbind, M_bind. destruct (mapS _ (training c) c) as [r c']. cbn in E, H1, H2, H3. subst r.
  exists c'. split_and!; [done..|]. intros [s t]. rewrite H3. cbn. split; intros [Hin Hd]; (split; [done|]).
  - by apply Hd.
  - intros t' Hin'. assert (t' = t) as ->; [|done]. pose proof (inv_keys c Hi) as Hnd.
    apply list_elem_of_lookup in Hin as [i Hx], Hin' as [j Hy].
    assert (i = j) as ->. { eapply NoDup_lookup; [done|..]; rewrite list_lookup_fmap; [by rewrite Hx|by rewrite Hy]. }
    rewrite Hx in Hy. by injection Hy.
Qed.

Lemma train_task_ok symbol m started io d : is_valid_symbol symbol = true →
  task_ok (symbol, (_train np settings symbol m started io d).1).
Proof.
  intros Hs. split; [done|]. cbn. unfold _train.
  pose proof (training_gives_a_valid_model (np_sum np) (np_mean np) (np_std0 np) (cholesky np) (hmm_fit np) m started) as Ht.
  destruct (train_model _ _ _ _ _ _ _) as [md|e]; [apply Ht|]. by destruct (is_model_error _).
Qed.
Lemma train_done_inv symbol t d c :
  svc_inv c → task_ok (symbol, t) → svc_inv (train_done symbol t d c).
Proof.
  intros [? Ht Hk ? ? ?] Hok. split; try done; cbn.
  - rewrite Forall_forall in Ht |- *. intros x (st & -> & Hst)%list_elem_of_fmap. case_bool_decide; [done|by apply Ht].
  - rewrite <- list_fmap_compose. assert (H' : (fst ∘ (λ st, if bool_decide (st.1 = symbol) then (symbol, t) else st)) <$> training c = (training c).*1).
    { apply list_fmap_ext. intros i st _. cbn. by case_bool_decide. }
    by rewrite H'.
Qed.

(** The detector's invariant holds in every state it reaches, whatever the order of cycles, trainings
    that end and cancellations: a model in service or just trained is valid, a training runs for a valid
    symbol on enough finite rows and at most once per symbol, every query sent is the discovery or the row
    query of a valid symbol, and every message sent is well-formed, REGIME_UNKNOWN with confidence zero. *)
Theorem detector_invariant d c : reachable o np settings d c → svc_inv c.
Proof.
  unfold reachable. assert (H0 : svc_inv (start d)) by (split; try done; constructor; constructor).
  intros H. revert H0. induction H as [|a b c Hab _ IH]; [done|]. intros Hi. apply IH. clear IH.
  destruct Hab as [|symbol m started io Hin|symbol m Hin|].
  - destruct (guarded_cycle_spec a Hi) as (ms & c' & E & Hi' & _). by rewrite E.
  - apply train_done_inv; [done|]. apply train_task_ok. pose proof (inv_tasks a Hi) as Ht. rewrite Forall_forall in Ht.
    by destruct (Ht _ Hin).
  - apply train_done_inv; [done|]. pose proof (inv_tasks a Hi) as Ht. rewrite Forall_forall in Ht. split; [|done].
    by destruct (Ht _ Hin).
  - destruct Hi; split; try done; constructor.
Qed.
End facts.

(** ** A run: the first cycle abstains and starts a training, the third names a regime *)

Section demo.
Definition demo_settings : Settings :=
  mkSettings (u "localhost") 9000 (u "timestamp") (FFin 2 0) (u "redis://localhost:6379") (u "regime:labels") (u "/app/models") None
    (FFin 1 0) (FFin 14400 0) (FFin 30 0) 30 6 6 (FFin 10 0) (FFin 1 (-1)) 100 DEFAULT_HEARTBEAT_PATH (u "INFO").
Definition demo_np : Numerics :=
  mkNumerics id (λ _, f1) (λ _, f1) (λ l, default FNaN (head l)) (λ l, fold_left float_add l f0) (λ _, true)
    (λ _, Ok demo_params) (λ _ m, Ok ((λ _, [FFin 3 (-2); FFin 1 (-2); f0; f0; f0]) <$> m))
    (λ _ _ b, b) (λ _, raise OSError []).
Definition demo_columns : json :=
  JArr ((λ n, JObj [(u "name", JStr n)]) <$> [u "mid_price"; u "spread"; u "order_flow_imbalance"; u "is_stale"; u "timestamp"]).
Definition demo_row (i : nat) : json :=
  JArr [JInt (100 + Z.of_nat i); JInt 1; JInt (if (i =? 9)%nat then 0 else 5); JBool false; JStr (u "t")].
Definition demo_answer (n : nat) (sql : pystr) : result payload :=
  if str_eqb sql (symbols_sql demo_settings) then Ok [(u "dataset", JArr [JArr [JStr (u "AAPL")]; JArr [JStr (u "no symbol")]])]
  else Ok [(u "columns", demo_columns); (u "dataset", JArr (demo_row <$> seq 0 14))].
Definition demo_env : Env := mkEnv (λ _, FFin 1000 0) demo_answer (λ _, None) (λ _, false) (λ _, Some (999000000, None)).
Definition demo_1 : Svc := (_guarded_cycle demo_env demo_np demo_settings (start ∅)).2.
Definition demo_snapshot : Matrix := match training demo_1 with (_, Pending m) :: _ => m | _ => [] end.
Definition demo_2 : Svc :=
  let '(t, d) := _train demo_np demo_settings (u "AAPL") demo_snapshot (FFin 1000 0) SaveWorks (disk demo_1) in train_done (u "AAPL") t d demo_1.
Definition demo_3 : Svc := (_guarded_cycle demo_env demo_np demo_settings demo_2).2.
Definition outcome (m : RegimeMessage) : pystr * RegimeLabel * option pystr := (msg_symbol m, msg_label m, msg_reason m).

Example demo_messages :
  outcome <$> sent demo_3 = [(u "AAPL", UNKNOWN, Some (u "model_untrained")); (u "AAPL", TRENDING_BULL, None)]
  ∧ length demo_snapshot = 9%nat ∧ training demo_3 = [] ∧ length (queries demo_3) = 4%nat.
Proof. by vm_compute. Qed.
Example demo_json : to_json (mkMessage (u "AAPL") TRENDING_BULL (FFin 3 (-2)) 1234 (Some (u "x")))
  = qq (u "{'symbol':'AAPL','label':'TRENDING_BULL','confidence':0.75,'ts_ns':1234}").
Proof. by vm_compute. Qed.
End demo.

Lemma demo_clock n : ∃ z, trunc_float (float_mul (clock demo_env n) (FFin _NS 0)) = Ok z.
Proof. eexists. by vm_compute. Defined.
Lemma demo_redis n e : redis demo_env n = Some e → redis_catches (exn_kind e) = true.
Proof. done. Defined.
Lemma start_inv np settings d : svc_inv np settings (start d).
Proof. split; try done; constructor; constructor. Qed.

Lemma every_known_symbol_every_cycle_witness : ∃ ms c',
  _guarded_cycle demo_env demo_np demo_settings (start ∅) = (Ok tt, c') ∧ sent c' = ms ∧ speaks demo_env demo_np demo_settings (_known_symbols c') ms.
Proof.
  destruct (every_known_symbol_every_cycle demo_env demo_np demo_settings demo_clock demo_redis (start ∅) (start_inv _ _ _))
    as (ms & c' & E & _ & Hs & Hsp).
  exists ms, c'. split; [exact E|]. split; [exact Hs|exact Hsp].
Defined.
Lemma demo_pending : (u "AAPL", Pending demo_snapshot) ∈ training demo_1.
Proof.
  assert (H : (match training demo_1 with [(s, Pending m)] => str_eqb s (u "AAPL") | _ => false end) = true) by (vm_compute; reflexivity).
  unfold demo_snapshot. destruct (training demo_1) as [|[s [m| |?|?]] [|]]; try discriminate.
  apply str_eqb_true in H. rewrite H. constructor.
Qed.
Lemma demo_reachable : reachable demo_env demo_np demo_settings ∅ demo_3.
Proof.
  unfold reachable. eapply rtc_l; [apply step_cycle|]. eapply rtc_l.
  - apply (step_train _ _ _ demo_1 (u "AAPL") demo_snapshot (FFin 1000 0) SaveWorks demo_pending).
  - apply rtc_once. unfold demo_3, demo_2. destruct (_train demo_np demo_settings (u "AAPL") demo_snapshot (FFin 1000 0) SaveWorks (disk demo_1)).
    apply step_cycle.
Qed.
Lemma detector_invariant_witness : svc_inv demo_np demo_settings demo_3.
Proof. apply (detector_invariant demo_env demo_np demo_settings demo_clock demo_redis ∅). exact demo_reachable. Defined.
Definition crashed : Svc := add_task (u "AAPL") (Crashed (Exn RuntimeErr [])) (start ∅).
Lemma crashed_inv np settings : svc_inv np settings crashed.
Proof.
  split; [done|by repeat constructor|apply NoDup_singleton|split; constructor|constructor|constructor].
Qed.
Lemma failed_training_keeps_the_model_witness :
  ∃ c', _collect_training demo_env demo_settings crashed = (Ok tt, c')
  ∧ ∃ n, states c' !! u "AAPL" = Some (mkState None (float_add (clock demo_env n) (FFin 30 0))).
Proof.
  destruct (failed_training_keeps_the_model demo_env demo_np demo_settings crashed (crashed_inv _ _)) as (c' & E & H & _ & _).
  exists c'. split; [exact E|]. destruct (H (u "AAPL") (Crashed (Exn RuntimeErr []))) as [n Hn].
  - unfold crashed, add_task, start, with_training. cbn [training app]. constructor.
  - exists n. exact Hn.
Defined.
